(* ===== verification/_CoqProject ===== *)
-Q . S2P
Prelude.v
Py.v
Bytes.v
Vocab.v
States.v
StoreData.v
StoreTasks.v
StoreOps.v
StoreReview.v
StoreLog.v
StoreApi.v
StoreDemo.v
StoreCounts.v
StoreKeys.v
StoreDeps.v
Lifecycle.v
StoreAbstract.v
StoreRounds.v
StoreRefines.v
StoreOperations.v
StoreLogs.v
StoreFuel.v
StoreTheorems.v
StoreSpecs.v
StoreAtomic.v
StoreStarts.v
Capacity.v
WebSocket.v
Input.v
TerminalStream.v
TerminalSession.v
Redraw.v
Commands.v
Protocol.v
Worker.v
ReplicationLog.v
Replication.v
WorkerPolicy.v
Selection.v
RalphLoop.v
StoreClient.v
Verifier.v
Controller.v
MissionRun.v
Operator.v
OperatorLaws.v
OperatorEffects.v
OperatorCancel.v
Suspend.v
SuspendLaws.v
SuspendLedger.v
Power.v
PowerLaws.v
PowerPlan.v
Config.v
Routes.v
ConfigLaws.v
RoutesLaws.v
Lookup.v
LookupLaws.v
Regex.v
Trace.v
Finish.v
FinishLaws.v
Diagnostics.v
DiagnosticsLaws.v
Scheduler.v
SchedulerLaws.v
Watch.v
WatchLaws.v
Rotation.v
RotationLaws.v
Progress.v
ProgressLaws.v
