(* ===== verification/Prelude.v ===== *)
(** * Verification of LLM Bridge and its tools (llm-tools)

    The repository runs coding agents ("providers") on long missions.  A
    mission is a queue of tasks with dependencies in a SQLite database
    ([bridge_store.py]).  A persistent loop ([ralph_robin.py]) asks how much
    capacity each provider has left ([capacity.py]), selects one, lets a
    controller start the next task as an operation of the database, and
    records how the run ended.  A task completes only by verification.  A
    worker ([bridge_worker.py]) may connect the host to a coordinator: it sends
    the database's event log over a WebSocket ([bridge_ws.py]), executes the
    commands the operator permits ([bridge_commands.py]) and opens terminal
    sessions on the stations ([bridge_terminal_stream.py]).  The curses
    screens read keys through [bridge_input.py] and decide when to draw in
    [bridge_redraw.py].  Source paths below are under src/llm_tools/.

    ** Files

    Foundations
    - [Prelude]: results, the error/state monad [ST] with its weakest
      preconditions, list selection, first match and sorting; the hint database
      and the tactics the store proofs use.
    - [Py]: the Python values and string methods the code uses: JSON values,
      floats as exact rationals with infinities and NaN, [strip], [split],
      [lower] and the like.
    - [Bytes]: big-endian integers and UTF-8, with their round trips.

    Vocabulary (bridge_vocab.py, bridge_states.py)
    - [Vocab]: each [StrEnum] as an inductive type, an instance of the class
      [StrEnum] that states what the others need of it.
    - [States]: the named status sets and the two transition tables.

    The mission store (bridge_store.py)
    - [StoreData]: a record per table, the SQL statements as primitives over
      the record [database], the unique indexes, the counter triggers.
    - [StoreTasks], [StoreOps], [StoreReview], [StoreLog]: one definition per
      method of [BridgeStore], under its name, with its guards, statements and
      events in the source's order; [transaction] rolls back when its body
      raises, as [BEGIN IMMEDIATE] ... [ROLLBACK] does.
    - [StoreApi]: the writing methods as constructors of [op]; [reachable]
      databases are those that calls with any readings of clock and uuid4 lead
      to.  [StoreDemo] is a concrete run for the witnesses.
    - [Lifecycle]: the abstract machine: four finite maps, one step per kind of
      change, its invariant.  [StoreAbstract] is the abstraction function,
      [StoreRefines] proves that every method is a sequence of such steps, and
      [StoreTheorems] reads the machine's invariants back on the rows.
    - [StoreDeps]: the recursive dependency query is the transitive closure.
      [StoreCounts]: the counters kept by triggers are a recount.  [StoreKeys],
      [StoreLogs]: identity, permanence and pruning.  [StoreSpecs],
      [StoreStarts]: what single methods do.  [StoreOperations]: which calls
      begin and resolve operations.  [StoreAtomic]: what a call that raises
      leaves.  [StoreFuel]: the pruning loops' fuel is enough.
      [StoreRounds]: a task enters review only by the exit of its operation and
      keeps its revision while it is there.

    Capacity and the loop (capacity.py, ralph_robin.py)
    - [Capacity]: scopes, blocking rules, [decide] and when to ask again.
    - [Selection]: [select_provider], [select_route] and the selectors.
    - [RalphLoop]: the loop of [main]; one [turn] is what a pass meets.

    Launching a provider (scheduler.py, common.py)
    - [Regex]: Python's regular expressions as data with an executable matcher.
      [Trace]: what a computation adds to the trace its state keeps.
    - [Diagnostics]: the signatures searched for in provider output, the
      diagnostic of a run and its reader.  [DiagnosticsLaws]: its round trip.
    - [Scheduler]: the wait for capacity, one attempt, the retries of [main] and
      of [run_scheduler_inline].  [SchedulerLaws]: when, how often and with
      which blocks.
    - [Watch]: the two loops that read a headless provider, a round per
      [select]: what is kept of its output, how its events are rendered and
      scanned, the guard against silence and prompts, the end of the process.
      [WatchLaws]: that it ends, with which status, and what is scanned.

    Routes (routes.py, config.py)
    - [Config]: validation of the configuration file, the policies read from
      it.  [Routes]: the ledger of runtime blocks, the decision of a route, the
      rotation.  [ConfigLaws]: what validation gives.  [RoutesLaws]: blocks,
      decisions, costs.
    - [Rotation] (bridge_rotation.py, bridge.py): the rotation of a mission
      against the enabled providers.  [RotationLaws]: what a new mission gets.

    Operator commands (bridge.py)
    - [StoreClient]: what any computation keeps that changes the database only
      by calls of the store's methods.
    - [Operator]: the payload of a command, every action it can ask for, and
      [_apply_operator_command], which queues it, applies it with its receipt
      or acknowledges its rejection.  [OperatorLaws]: receipts and idempotent
      redelivery.  [OperatorEffects]: a table of the store calls each action
      asks for, and that an applied command made exactly those.
      [OperatorCancel]: cancelling a mission.
    - [Lookup] (bridge_missions.py): references to missions, the order of
      listings.  [LookupLaws]: no ambiguous reference is resolved.
    - [Finish] (bridge_finish.py): reading a provider's screen, typing its exit
      command, waiting for its end.  [FinishLaws]: what is typed after which
      reading, and that there always is an answer.

    The controller of a mission (bridge_runtime.py)
    - [Verifier]: [call_store] puts the calls other processes make before each
      call of the controller ([others], all but what the mission's lock
      excludes); [run_configured_verifier] over it, with the verifier process
      as an answer of the class [ControllerEnv].
    - [Controller]: the hooks of [BridgeMissionHooks]: boundary requests, what
      runs next, rotation changes, hand-offs, launches, what follows a run.
    - [MissionRun]: [run_controller]: recovery, the move to RUNNING, the station,
      and the error and exit paths around the loop, which is any computation.

    - [Progress] (bridge_progress.py): the fingerprint of a repository and the
      signals of a mission that does not get on.  [ProgressLaws]: their bounds
      and what they rest on.

    The worker and the coordinator
    - [WebSocket] (bridge_ws.py): frames, reading and sending over a socket
      that cuts bytes anywhere, times out or closes.
    - [Protocol] (bridge_protocol.py): envelopes and payload validation.
    - [Worker] (bridge_worker.py, [WorkerSession]'s replication half),
      [ReplicationLog] (what a batch carries of a log as the store writes it),
      [Replication] (the worker, the coordinator's [events_store] and
      [worker_hello] of coordinator/src/db.rs, and connections that break, as
      one step relation over the store's own operations).
    - [Commands] (bridge_commands.py): catalog, parameter validation, dispatch
      and [execute]; the handlers sit behind the class [CommandEnv].
    - [WorkerPolicy] (bridge_worker.py): every coordinator message, and the
      policy that decides which commands may run.

    Terminals and screens
    - [TerminalStream], [TerminalSession] (bridge_terminal_stream.py and the
      launcher of bridge_worker.py): tmux control mode, and sessions as threads
      of calls that interleave.
    - [Input] (bridge_input.py): bracketed paste, the text buffer, cell widths.
    - [Redraw] (bridge_redraw.py): ages, draw planning, the background read.

    Suspending the host (common.py, bridge_power.py)
    - [Suspend]: [suspend_with_wake] and what it is made of, in a monad over
      the host: commands, readings and ledger lines are a trace, the answers
      come from the class [HostEnv].  [SuspendLaws]: what precedes a sleep.
      [SuspendLedger]: the ledger, the wait, what outcomes claim.
    - [Power]: the earliest reset, wake requests and the one planned wake, the
      reasons not to sleep, [suspend_until_credits].  [PowerLaws]: the reset
      and the requests.  [PowerPlan]: the plan, and the whole of a suspension.

    ** How state and operations correspond

    A method of [BridgeStore] becomes a function in [ST exn world]: it reads
    and writes the record [database] and takes clock and uuid4 readings from
    an [Oracle]; an exception is a value and keeps the state reached, so that
    rolling back is visible.  An error of SQLite inside a transaction (locked, disk
    full, an integer wider than 64 bits) is raised at the end of its block, where
    [sql_error] of the class [SqlErrors] has one - wherever in the block it
    happens, rolling back leaves the same database; the theorems on the store's
    methods hold for every such class.  Reads outside a transaction raise none,
    and the components above the store are modelled over a store without such
    errors ([no_sql_errors], the default instance).
    Rows keep their rowid order; a JSON column holds
    the value it decodes to.  The other components pass their own records; a
    function that may raise returns a [result].  Threads and connections are
    step relations or lists of events, so that every interleaving is one of
    them.

    ** What the theorems show

    - Missions: the store refines the lifecycle machine; only [verify_task]
      completes a task and completion is final; one unresolved operation per
      task and one controlled mission per repository; dependencies are acyclic
      and completed tasks have completed prerequisites; completed missions are
      done; the counters are right; a failed call changes nothing, but that
      pruning keeps the chunks it has deleted.
    - Methods: which tasks [ready_tasks] promotes, when [begin_operation]
      succeeds, what each exit of a provider leads to.
    - Capacity and the loop: when a provider is usable; a usable entry is
      selected whenever there is one; turns are shared out evenly; the loop
      never skips its whole rotation, stops at the sixth hard failure since the
      last success, and every exit status is explained by what it saw.
    - Launches: nothing is launched before a decision that allows it; attempts
      are bounded; a route that failed is not selected before its block runs
      out, where block files can be written; a run's diagnostic is read back but for two kinds of runs.  Watching
      a provider ends; a provider is sent signals only for a reason that is
      reported, at the time limit or with its pipes closed, and has its own
      status otherwise, but for a 75 without a prompt after a quota report, which
      becomes 1; the last bytes of its output are kept; what tools read
      and write is not searched for prompts.
    - Routes: a validated file gives a rotation that can be decided, unless a
      cost is too large for a float; a block counts until its time, and without
      one, or after it, a route is as ready as its capacity source; the cost
      policy has no say.  A new mission gets the enabled entries of its rotation
      or is refused, where the rotation names an entry at all.
    - Operator commands: an applied command made exactly the store calls its
      action asks for, in one step with its receipt; a request is applied
      at most once, whatever happens between its deliveries; a rejection has a
      reason and leaves only its receipt; cancelling never fails and ends every
      task.  A reference names one mission or is refused.  A provider's exit
      command is typed only into an idle composer, unless the operator switched
      that check off, and an answer means it is gone.
    - The controller: whatever other processes do between its calls, it only
      ever makes store calls, launches providers only under a recorded running
      operation, and accepts a verification only at the revision it ran for.
      Recovery resolves every operation of the mission whatever others do.  A
      controller whose loop has ended leaves its mission neither RUNNING nor
      STOPPING, if no other process writes during its last steps and the station
      of a stopping mission can be stopped.
    - Suspending: the host is asked to sleep only behind a verified wake, with
      no operation active at the final check and, where the ledger can be
      appended to, the start in it; a planned wake is not lost, but for a timer
      that takes the prior one's name; one mission's request leaves the others alone;
      a wake-up time is a real reset; the ledger and the outcome tell the
      truth; the wait ends at its target.
    - Replication: the coordinator holds every event it must, once and in
      order, however connections break; a batch accounts for the log between
      its two cursors; the cursor never passes what is stored.
    - Protocol, commands, policy: what is accepted, with which types, and how
      everything else is answered; only permitted commands change anything.
    - Terminals, input, redraw: output of a pane and pasted text survive any
      chunking, without the output of other panes; only the writer types; the text buffer behaves like two texts around a
      caret; a requested read is returned.

    Properties have a numbered comment before them; those with hypotheses have
    a [_witness] lemma that applies them to concrete data.

    ** Fuel and bounds

    Where a loop is not structural its fuel is computed in the definition and
    proved enough.  The recursive dependency query runs [length deps] rounds:
    each adds a target not seen before ([StoreDeps]).  Pruning takes a round
    per event and one more: a full window deletes an event or moves the cursor
    past one ([StoreFuel], for chunks that are not empty; with a chunk of zero
    the code only stops at its deadline).  [receive_loop] takes a round per
    byte of the socket and one more: every frame has at least two
    ([receive_text_bounded]).  A terminal session's [stream_loop] and the runs
    of the other never-ending loops are of any length, a parameter the
    theorems quantify over.  The wait of a suspend cycle has fuel that stands
    for how long the process lives: a run that has used it up still waits, and
    the wait ends when the clock reaches its target ([wait_ends_at_target]).  Finishing
    a task, watching a provider and the scheduler's wait go by the clock too:
    whenever that goes on some fuel is enough to finish
    ([finish_answers_when_gone], [watching_ends]).  Python's integers
    have no width, so none wrap; widths that the code checks itself (16 and 64
    bit frame lengths, int64 parameters) are checks in the model.

    ** Parameters and what they stand for

    Readings of clock and uuid4 ([Oracle]); where SQLite fails ([SqlErrors]); [os.urandom]; what the socket, tmux
    and the scheduler deliver; [json.loads], [json.dumps] lengths and [repr];
    commands, alarm and clocks of the host ([HostEnv]); the digest that names
    request files, and what writing them ends with ([PowerEnv]); the texts of
    values and numbers in the TOML file ([ConfigEnv]); the capacity reading of a
    provider ([RouteEnv]); locks and stations at a look-up ([LookupEnv]); the
    pane, its screen and the clock while finishing, and the classes of
    characters its regular expressions use ([FinishEnv], [Chars]); commands,
    configuration and what launches leave ([SchedEnv]); clock, pipes and status of
    a watched process ([WatchEnv]); a folder as Git and the file system show it
    ([TreeEnv]); [sha256];
    case folding and [unicodedata]'s classes; [Path.resolve]; git's changed
    paths; the rounding [fl] of doubles.  Nothing is assumed of them except
    where a theorem states it as a hypothesis.

    ** Not modelled

    - bridge_store.py: opening and migrating the file, permissions, drafts, the
      mission lock.  bridge_ws.py: the opening handshake.  bridge_worker.py:
      enrolment, the audit file, TLS.  ralph_robin.py: arguments, the state
      file.  common.py: all but the suspend cycle and the reading of provider
      output.  scheduler.py: arguments, most command lines, pseudo-terminals and tmux panes,
      echoing to the terminal.  config.py:
      the TOML parser and its cache.  Ids, paths and texts are sequences of
      characters below 256, their letters and digits those of ASCII, so
      characters of three and four bytes and lone surrogates, which
      [str.encode] refuses with UnicodeEncodeError (a host name or root of a
      hello), do not occur.  SQLite's integers are not limited to 64 bits: an
      OverflowError of a wider one is one of the errors of [SqlErrors].  Other processes change the
      mission database between the calls of a suspension; that they change the
      wake requests between two holds of the planner's lock is not modelled.  bridge_runtime.py: prompts, provider session files,
      log pruning, socket paths, the detached launch; what processes and the
      station do is an answer of [ControllerEnv] or [ProcessEnv].  coordinator/: everything but
      event replication.
    - The curses screens (bridge_tui.py and the files it draws with), the
      command line (bridge.py but for operator commands, bridge_format.py, bridge_remote.py), the usage
      providers (usage.py, usage_service.py, providers/), tmux and session
      handling (terminal.py, bridge_sessions.py),
      backup: input and output of processes, terminals and third-party
      services, whose results the modelled parts take as arguments.

    ** Where to go on

    What is left of the program's own logic is the persistent state of the
    loop, the read models of the mission, and scrolling and search in
    documents. *)

From stdpp Require Export base tactics list sorting strings gmap pretty.
From Stdlib Require Export ZArith.
From stdpp Require Import options.

#[export] Set Warnings "-clear-no-such-hyp,-register-all".

(** ** Results and the error/state monad

    Fallible code returns a [result]; stateful, fallible code is a function
    from a state to a result and the state it leaves behind.  A raised
    exception keeps the state reached so far, exactly as in Python; rolling
    back is the job of an explicit [transaction]. *)

Inductive result (E A : Type) : Type :=
  | Ok (a : A)
  | Raise (e : E).
Arguments Ok {E A} a.
Arguments Raise {E A} e.

#[export] Instance result_ret E : MRet (result E) := fun A a => Ok a.
#[export] Instance result_bind E : MBind (result E) := fun A B f m =>
  match m with Ok a => f a | Raise e => Raise e end.

Definition is_ok {E A} (r : result E A) : bool :=
  match r with Ok _ => true | Raise _ => false end.

Definition rraise_if {E} (b : bool) (e : E) : result E unit :=
  if b then Raise e else Ok tt.

Definition ST (E S A : Type) : Type := S -> result E A * S.

#[export] Instance ST_ret E S : MRet (ST E S) := fun A a s => (Ok a, s).
#[export] Instance ST_bind E S : MBind (ST E S) := fun A B f m s =>
  match m s with
  | (Ok a, s') => f a s'
  | (Raise e, s') => (Raise e, s')
  end.

Section ST.
Context {E S : Type}.

Definition raise {A} (e : E) : ST E S A := fun s => (Raise e, s).
Definition gets {A} (f : S -> A) : ST E S A := fun s => (Ok (f s), s).
Definition modify (f : S -> S) : ST E S unit := fun s => (Ok tt, f s).
(** [if b: raise e] *)
Definition raise_if (b : bool) (e : E) : ST E S unit :=
  if b then raise e else mret tt.
(** [if b: m] *)
Definition when (b : bool) (m : ST E S unit) : ST E S unit :=
  if b then m else mret tt.
(** [for x in l: f x] *)
Fixpoint for_each {A} (l : list A) (f : A -> ST E S unit) : ST E S unit :=
  match l with
  | [] => mret tt
  | x :: l' => f x ;; for_each l' f
  end.
(** An accumulating [for] loop. *)
Fixpoint for_fold {A B} (l : list A) (f : B -> A -> ST E S B) (b : B) : ST E S B :=
  match l with
  | [] => mret b
  | x :: l' => b' ← f b x; for_fold l' f b'
  end.
Definition lift_result {A} (r : result E A) : ST E S A := fun s => (r, s).
End ST.

(** ** Relational Hoare-style reasoning

    [keeps R m]: every run of [m], successful or not, moves the state along
    the preorder [R].  The judgement is compositional, so the preservation of
    an invariant by a whole operation follows from its primitives; the
    database [py_keeps] holds the composition rules. *)

Definition keeps {E S A} (R : S -> S -> Prop) (m : ST E S A) : Prop :=
  forall s, R s (m s).2.

Create HintDb py_keeps.

Section keeps.
Context {E S : Type} (R : S -> S -> Prop) `{!PreOrder R}.

Lemma keeps_ret {A} (a : A) : keeps R (mret a : ST E S A).
Proof using All. intros s; cbn. reflexivity. Qed.
Lemma keeps_raise {A} (e : E) : keeps R (raise e : ST E S A).
Proof using All. intros s; cbn. reflexivity. Qed.
Lemma keeps_gets {A} (f : S -> A) : keeps R (gets f : ST E S A).
Proof using All. intros s; cbn. reflexivity. Qed.
Lemma keeps_lift {A} (r : result E A) : keeps R (lift_result r : ST E S A).
Proof using All. intros s; cbn. reflexivity. Qed.
Lemma keeps_modify (f : S -> S) :
  (forall s, R s (f s)) -> keeps R (modify f : ST E S unit).
Proof using All. intros H s. apply H. Qed.
Lemma keeps_bind {A B} (m : ST E S A) (f : A -> ST E S B) :
  keeps R m -> (forall a, keeps R (f a)) -> keeps R (m ≫= f).
Proof using All.
  intros Hm Hf s. specialize (Hm s). unfold mbind, ST_bind.
  destruct (m s) as [[a|e] s']; cbn in *; [|done].
  etrans; [done|apply Hf].
Qed.
Lemma keeps_raise_if (b : bool) (e : E) : keeps R (raise_if b e : ST E S unit).
Proof using All. destruct b; [apply keeps_raise|apply keeps_ret]. Qed.
Lemma keeps_when (b : bool) (m : ST E S unit) : keeps R m -> keeps R (when b m).
Proof using All. destruct b; [done|intros; apply keeps_ret]. Qed.
Lemma keeps_for_each {A} (l : list A) (f : A -> ST E S unit) :
  (forall a, keeps R (f a)) -> keeps R (for_each l f).
Proof using All.
  intros Hf. induction l; cbn; [apply keeps_ret|by apply keeps_bind].
Qed.
Lemma keeps_for_fold {A B} (l : list A) (f : B -> A -> ST E S B) b :
  (forall b a, keeps R (f b a)) -> keeps R (for_fold l f b).
Proof using All.
  intros Hf. revert b. induction l; intros b; cbn; [apply keeps_ret|by apply keeps_bind].
Qed.
End keeps.

#[export] Hint Resolve keeps_ret keeps_raise keeps_gets keeps_lift keeps_raise_if : py_keeps.

(** Walk through the text of an operation, splitting on its branches, and
    close each primitive from the hint database. *)
Ltac keeps_step :=
  match goal with
  | |- forall _, _ => intros ?
  | |- keeps _ (let x := _ in _) => cbv zeta
  | |- keeps _ (if ?b then _ else _) => destruct b
  | |- keeps _ (match ?x with _ => _ end) => destruct x
  | |- keeps _ (let '(_, _) := ?x in _) => destruct x
  | |- keeps _ (_ ≫= _) => apply keeps_bind; [exact _| |]
  | |- keeps _ (when _ _) => apply keeps_when; [exact _|]
  | |- keeps _ (for_each _ _) => apply keeps_for_each; [exact _|]
  | |- keeps _ (for_fold _ _ _) => apply keeps_for_fold; [exact _|]
  | |- keeps _ _ => solve [eauto 4 with py_keeps typeclass_instances]
  end.
Ltac solve_keeps := repeat keeps_step.

(** Weakest preconditions for the successful outcome. *)
Definition wp {E S A} (m : ST E S A) (Q : A -> S -> Prop) (s : S) : Prop :=
  match m s with
  | (Ok a, s') => Q a s'
  | (Raise _, _) => True
  end.

Section wp.
Context {E S : Type}.
Lemma wp_ret {A} (a : A) (Q : A -> S -> Prop) s : Q a s -> wp (mret a : ST E S A) Q s.
Proof. done. Qed.
Lemma wp_raise {A} (e : E) (Q : A -> S -> Prop) s : wp (raise e) Q s.
Proof. done. Qed.
Lemma wp_gets {A} (f : S -> A) (Q : A -> S -> Prop) s :
  Q (f s) s -> wp (gets f : ST E S A) Q s.
Proof. done. Qed.
Lemma wp_modify (f : S -> S) (Q : unit -> S -> Prop) s :
  Q tt (f s) -> wp (modify f : ST E S unit) Q s.
Proof. done. Qed.
Lemma wp_bind {A B} (m : ST E S A) (f : A -> ST E S B) Q s :
  wp m (fun a s' => wp (f a) Q s') s -> wp (m ≫= f) Q s.
Proof. unfold wp, mbind, ST_bind. destruct (m s) as [[a|e] s']; naive_solver. Qed.
Lemma wp_mono {A} (m : ST E S A) (Q Q' : A -> S -> Prop) s :
  (forall a s', Q a s' -> Q' a s') -> wp m Q s -> wp m Q' s.
Proof. unfold wp. destruct (m s) as [[a|e] s']; naive_solver. Qed.
Lemma wp_keeps {A} (R : S -> S -> Prop) (m : ST E S A) (Q : A -> S -> Prop) s :
  keeps R m -> (forall a s', R s s' -> Q a s') -> wp m Q s.
Proof. intros Hm HQ. specialize (Hm s). unfold wp. destruct (m s) as [[a|e] s']; [by apply HQ|done]. Qed.
Lemma wp_raise_if (b : bool) (e : E) (Q : unit -> S -> Prop) s :
  (b = false -> Q tt s) -> wp (raise_if b e) Q s.
Proof. destruct b; cbn; [done|]. intros H; by apply H. Qed.
Lemma wp_when (b : bool) (m : ST E S unit) (Q : unit -> S -> Prop) s :
  (b = true -> wp m Q s) -> (b = false -> Q tt s) -> wp (when b m) Q s.
Proof. destruct b; cbn; naive_solver. Qed.
Lemma wp_for_each {A} (I : S -> Prop) (l : list A) (f : A -> ST E S unit) s :
  I s ->
  (forall a s', a ∈ l -> I s' -> wp (f a) (fun _ => I) s') ->
  wp (for_each l f) (fun _ => I) s.
Proof.
  revert s. induction l as [|x l IH]; intros s HI Hf; cbn; [done|].
  apply wp_bind. eapply wp_mono; [|apply Hf; [left|done]].
  intros ? s' HI'. apply IH; [done|]. intros y s'' Hy. apply Hf. by right.
Qed.
Lemma wp_for_fold {A B} (I : B -> S -> Prop) (l : list A) (f : B -> A -> ST E S B) b s :
  I b s ->
  (forall b a s', a ∈ l -> I b s' -> wp (f b a) I s') ->
  wp (for_fold l f b) I s.
Proof.
  revert b s. induction l as [|x l IH]; intros b s HI Hf; cbn; [done|].
  apply wp_bind. eapply wp_mono; [|apply Hf; [left|done]].
  intros b' s' HI'. apply IH; [done|]. intros ? y s'' Hy. apply Hf. by right.
Qed.
End wp.

(** Total weakest preconditions: the run succeeds. *)
Definition twp {E S A} (m : ST E S A) (Q : A -> S -> Prop) (s : S) : Prop := exists a s', m s = (Ok a, s') /\ Q a s'.

Section twp.
Context {E S : Type}.
Lemma twp_ret {A} (a : A) (Q : A -> S -> Prop) (s : S) : Q a s -> twp (mret a : ST E S A) Q s.
Proof. by exists a, s. Qed.
Lemma twp_gets {A} (f : S -> A) (Q : A -> S -> Prop) s : Q (f s) s -> twp (gets f : ST E S A) Q s.
Proof. by exists (f s), s. Qed.
Lemma twp_modify (f : S -> S) (Q : unit -> S -> Prop) s : Q tt (f s) -> twp (modify f : ST E S unit) Q s.
Proof. by exists tt, (f s). Qed.
Lemma twp_bind {A B} (m : ST E S A) (f : A -> ST E S B) Q s : twp m (fun a s' => twp (f a) Q s') s -> twp (m ≫= f) Q s.
Proof.
  intros (a & s1 & E1 & b & s2 & E2 & HQ). exists b, s2. split; [|done]. unfold mbind, ST_bind. by rewrite E1.
Qed.
Lemma twp_raise_if (b : bool) (e : E) (Q : unit -> S -> Prop) s : b = false -> Q tt s -> twp (raise_if b e) Q s.
Proof. intros -> HQ. by apply twp_ret. Qed.
Lemma twp_when (b : bool) (m : ST E S unit) (Q : unit -> S -> Prop) s :
  (b = true -> twp m Q s) -> (b = false -> Q tt s) -> twp (when b m) Q s.
Proof. destruct b; cbn; intros H1 H2; [by apply H1|by apply twp_ret, H2]. Qed.
Lemma twp_mono {A} (m : ST E S A) (Q Q' : A -> S -> Prop) s : (forall a s', Q a s' -> Q' a s') -> twp m Q s -> twp m Q' s.
Proof. intros H (a & s' & E1 & HQ). exists a, s'. auto. Qed.
End twp.

(** ** Catching, and both outcomes of a computation *)

(** The result of [m], raised or not. *)
Definition attempt {E S A} (m : ST E S A) : ST E S (result E A) := fun s => let '(r, s') := m s in (Ok r, s').
(** [try: m finally: f]. *)
Definition finally {E S A} (m : ST E S A) (f : ST E S unit) : ST E S A := fun s =>
  let '(r, s1) := m s in
  match f s1 with
  | (Ok _, s2) => (r, s2)
  | (Raise e, s2) => (Raise e, s2)
  end.
Definition ends {E S A} (m : ST E S A) (Q : result E A -> S -> Prop) (s : S) : Prop := Q (m s).1 (m s).2.

Section ends.
Context {E S : Type}.
Lemma keeps_attempt {A} (R : S -> S -> Prop) (m : ST E S A) : keeps R m -> keeps R (attempt m).
Proof. intros Hm s. specialize (Hm s). unfold attempt. by destruct (m s) as [r s']. Qed.
Lemma ends_ret {A} (a : A) (Q : result E A -> S -> Prop) s : Q (Ok a) s -> ends (mret a) Q s.
Proof. done. Qed.
Lemma ends_bind {A B} (m : ST E S A) (f : A -> ST E S B) (Q : result E B -> S -> Prop) s :
  ends m (fun r s' => match r with Ok a => ends (f a) Q s' | Raise e => Q (Raise e) s' end) s -> ends (m ≫= f) Q s.
Proof. unfold ends, mbind, ST_bind. by destruct (m s) as [[a|e] s']. Qed.
Lemma ends_mono {A} (m : ST E S A) (Q Q' : result E A -> S -> Prop) s : ends m Q s -> (forall r s', Q r s' -> Q' r s') -> ends m Q' s.
Proof. intros Hm HQ. by apply HQ. Qed.
Lemma ends_keeps {A} (R : S -> S -> Prop) (m : ST E S A) (Q : result E A -> S -> Prop) s :
  keeps R m -> (forall r s', R s s' -> Q r s') -> ends m Q s.
Proof. intros Hm HQ. apply HQ, Hm. Qed.
Lemma ends_attempt {A} (m : ST E S A) (Q : result E (result E A) -> S -> Prop) s :
  ends m (fun r s' => Q (Ok r) s') s -> ends (attempt m) Q s.
Proof. unfold ends, attempt. by destruct (m s) as [r s']. Qed.
Lemma ends_finally {A} (m : ST E S A) (f : ST E S unit) (Q : result E A -> S -> Prop) s :
  ends m (fun r s1 => ends f (fun r' s2 => Q (match r' with Ok _ => r | Raise e => Raise e end) s2) s1) s ->
  ends (finally m f) Q s.
Proof. unfold ends, finally. destruct (m s) as [r s1]; cbn. by destruct (f s1) as [[[]|e] s2]. Qed.

Lemma bind_ok {A B} (m : ST E S A) (f : A -> ST E S B) a s s' : m s = (Ok a, s') -> (m ≫= f) s = f a s'.
Proof. intros Em. unfold mbind, ST_bind. by rewrite Em. Qed.
Lemma bind_raise {A B} (m : ST E S A) (f : A -> ST E S B) e s s' : m s = (Raise e, s') -> (m ≫= f) s = (Raise e, s').
Proof. intros Em. unfold mbind, ST_bind. by rewrite Em. Qed.
Lemma bind_inv {A B} (m : ST E S A) (f : A -> ST E S B) b s s' : (m ≫= f) s = (Ok b, s') -> exists a s1, m s = (Ok a, s1) /\ f a s1 = (Ok b, s').
Proof. unfold mbind, ST_bind. destruct (m s) as [[a|e] s1]; [by eauto|done]. Qed.
End ends.

(** ** Tables: lists of rows, updated by predicate *)

(** [UPDATE t SET f WHERE p] *)
Definition update_where {A} (p : A -> bool) (f : A -> A) (l : list A) : list A :=
  (fun a => if p a then f a else a) <$> l.

(** [SELECT ... WHERE p] *)
Definition select {A} (p : A -> bool) (l : list A) : list A := List.filter p l.

(** [... LIMIT 1], also Python's [next((x for x in l if p(x)), None)] *)
Definition first {A} (p : A -> bool) (l : list A) : option A := List.find p l.

Lemma elem_of_select {A} (p : A -> bool) l a : a ∈ select p l <-> a ∈ l /\ p a = true.
Proof. unfold select. by rewrite !list_elem_of_In, filter_In. Qed.

Lemma select_all {A} (p : A -> bool) l : (forall a, a ∈ l -> p a = true) -> select p l = l.
Proof.
  induction l as [|a l IH]; intros H; cbn; [done|]. rewrite (H a ltac:(set_solver)). f_equal. apply IH. set_solver.
Qed.

Lemma first_Some {A} (p : A -> bool) l a : first p l = Some a -> a ∈ l /\ p a = true.
Proof. unfold first. intros ?%find_some. by rewrite list_elem_of_In. Qed.

Lemma first_None {A} (p : A -> bool) l : first p l = None <-> forall a, a ∈ l -> p a = false.
Proof.
  split.
  - intros H a Ha. eapply find_none; [done|by apply list_elem_of_In].
  - intros H. destruct (first p l) as [a|] eqn:E; [|done].
    apply first_Some in E as [Ha Hp]. rewrite H in Hp; done.
Qed.

Lemma update_where_map {A B} (g : A -> B) (p : A -> bool) (f : A -> A) l :
  (forall a, p a = true -> g (f a) = g a) -> g <$> update_where p f l = g <$> l.
Proof.
  intros H. unfold update_where. rewrite <- list_fmap_compose.
  apply list_fmap_ext. intros i a _. cbn. destruct (p a) eqn:E; auto.
Qed.

Lemma elem_of_update_where {A} (p : A -> bool) (f : A -> A) l a :
  a ∈ update_where p f l <->
  exists a0, a0 ∈ l /\ a = (if p a0 then f a0 else a0).
Proof.
  unfold update_where. rewrite list_elem_of_fmap.
  split; intros (a0 & H1 & H2); exists a0; auto.
Qed.

Lemma existsb_none {A} (p : A -> bool) l : (forall a, a ∈ l -> p a = false) -> existsb p l = false.
Proof.
  induction l as [|x l IH]; intros H; cbn; [done|]. rewrite H by left. apply IH. intros a Ha. apply H. by right.
Qed.

Lemma update_where_none {A} (p : A -> bool) (f : A -> A) l :
  (forall a, a ∈ l -> p a = false) -> update_where p f l = l.
Proof.
  unfold update_where. induction l as [|x l IH]; intros H; cbn; [done|].
  rewrite (H x) by left. f_equal. apply IH. intros a Ha. apply H. by right.
Qed.

(** Keyed tables: a list whose keys are pairwise distinct. *)
Section keyed.
Context {A K : Type} (key : A -> K).

Lemma NoDup_key_eq (l : list A) a b :
  NoDup (key <$> l) -> a ∈ l -> b ∈ l -> key a = key b -> a = b.
Proof.
  induction l as [|x l IH]; cbn; [set_solver|].
  intros [Hx Hl]%NoDup_cons Ha Hb Hk.
  apply elem_of_cons in Ha as [->|Ha]; apply elem_of_cons in Hb as [->|Hb]; try done.
  - destruct Hx. rewrite Hk. by apply list_elem_of_fmap_2.
  - destruct Hx. rewrite <- Hk. by apply list_elem_of_fmap_2.
  - auto.
Qed.

Lemma NoDup_key_snoc (l : list A) a :
  NoDup (key <$> l) -> (forall b, b ∈ l -> key b <> key a) -> NoDup (key <$> (l ++ [a])).
Proof.
  intros Hl Ha. rewrite fmap_app; cbn. apply NoDup_app. split_and!; [done| |apply NoDup_singleton].
  intros k Hk. rewrite list_elem_of_singleton. intros ->.
  apply list_elem_of_fmap in Hk as (b & Hb & Hin). by eapply Ha.
Qed.
End keyed.

Lemma NoDup_fmap_select {A B} (f : A -> B) (p : A -> bool) l : NoDup (f <$> l) -> NoDup (f <$> select p l).
Proof.
  unfold select. induction l as [|x l IH]; cbn; [done|]. intros [Hx Hl]%NoDup_cons.
  destruct (p x); cbn; [|by apply IH]. apply NoDup_cons. split; [|by apply IH].
  intros (y & E & Hy)%list_elem_of_fmap. apply Hx, list_elem_of_fmap. exists y. split; [done|].
  by apply (elem_of_select p) in Hy as [? _].
Qed.

(** Splitting boolean hypotheses into propositions. *)
Ltac bool_to_prop :=
  repeat match goal with
  | H : _ && _ = true |- _ => apply andb_true_iff in H as [? ?]
  | H : _ || _ = false |- _ => apply orb_false_iff in H as [? ?]
  | H : negb _ = true |- _ => apply negb_true_iff in H
  | H : negb _ = false |- _ => apply negb_false_iff in H
  | H : bool_decide _ = true |- _ => apply bool_decide_eq_true in H
  | H : bool_decide _ = false |- _ => apply bool_decide_eq_false in H
  | H : (_ =? _)%Z = true |- _ => apply Z.eqb_eq in H
  | H : (_ =? _)%Z = false |- _ => apply Z.eqb_neq in H
  | H : (_ <=? _)%Z = true |- _ => apply Z.leb_le in H
  | H : (_ <=? _)%Z = false |- _ => apply Z.leb_gt in H
  | H : (_ <? _)%Z = true |- _ => apply Z.ltb_lt in H
  | H : (_ <? _)%Z = false |- _ => apply Z.ltb_ge in H
  end.

(** [COALESCE(MAX(c),0)] of a column. *)
Fixpoint coalesce_max (l : list Z) : Z :=
  match l with
  | [] => 0%Z
  | [z] => z
  | z :: l' => Z.max z (coalesce_max l')
  end.

Lemma coalesce_max_ge l z : z ∈ l -> (z <= coalesce_max l)%Z.
Proof.
  induction l as [|x [|y l] IH]; [set_solver|set_solver|].
  change (coalesce_max (x :: y :: l)) with (Z.max x (coalesce_max (y :: l))).
  intros [->|Hz]%elem_of_cons; [lia|]. apply IH in Hz. lia.
Qed.

Lemma coalesce_max_in l : l ≠ [] -> coalesce_max l ∈ l.
Proof.
  induction l as [|x [|y l] IH]; [done|intros _; left|]. intros _.
  change (coalesce_max (x :: y :: l)) with (Z.max x (coalesce_max (y :: l))).
  destruct (Z.max_spec x (coalesce_max (y :: l))) as [[_ ->]|[_ ->]]; [right; by apply IH|left].
Qed.

(** Sums, used for the maintained counters. *)
Fixpoint sumZ {A} (f : A -> Z) (l : list A) : Z :=
  match l with [] => 0%Z | a :: l' => (f a + sumZ f l')%Z end.

Lemma sumZ_app {A} (f : A -> Z) l k : sumZ f (l ++ k) = (sumZ f l + sumZ f k)%Z.
Proof. induction l as [|x l IH]; simpl; [done|]. rewrite IH. lia. Qed.

Lemma sumZ_ext {A} (f g : A -> Z) l : (forall a, a ∈ l -> f a = g a) -> sumZ f l = sumZ g l.
Proof.
  induction l as [|x l IH]; intros H; cbn; [done|].
  rewrite (H x) by left. rewrite IH; [done|]. intros a Ha. apply H. by right.
Qed.

(** ** Stable sorting, Python's [sorted] and SQL's [ORDER BY] *)

Section sort_by.
Context {A : Type} (leb : A -> A -> bool).

Fixpoint insert_by (x : A) (l : list A) : list A :=
  match l with
  | [] => [x]
  | y :: l' => if leb x y then x :: l else y :: insert_by x l'
  end.
Definition sort_by (l : list A) : list A := foldr insert_by [] l.

Lemma insert_by_perm x l : insert_by x l ≡ₚ x :: l.
Proof.
  induction l as [|y l IH]; cbn; [done|]. destruct (leb x y); [done|].
  rewrite IH. constructor.
Qed.
Lemma sort_by_perm l : sort_by l ≡ₚ l.
Proof. induction l as [|x l IH]; cbn; [done|]. by rewrite insert_by_perm, IH. Qed.
Lemma elem_of_sort_by x l : x ∈ sort_by l <-> x ∈ l.
Proof. by rewrite sort_by_perm. Qed.
Lemma length_sort_by l : length (sort_by l) = length l.
Proof. by rewrite sort_by_perm. Qed.

(** A list in order is left alone. *)
Lemma sort_by_in_order l : StronglySorted (fun a b => leb a b = true) l -> sort_by l = l.
Proof.
  induction 1 as [|x l Hs IH Hx]; [done|].
  change (sort_by (x :: l)) with (insert_by x (sort_by l)). rewrite IH. destruct l as [|y l]; [done|]. cbn.
  apply Forall_cons in Hx as [-> _]. done.
Qed.

Context (leb_total : forall x y, leb x y = true \/ leb y x = true).
Context (leb_trans : forall x y z, leb x y = true -> leb y z = true -> leb x z = true).

Lemma insert_by_sorted x l :
  StronglySorted (fun a b => leb a b = true) l ->
  StronglySorted (fun a b => leb a b = true) (insert_by x l).
Proof using All.
  induction 1 as [|y l Hl IH Hy]; cbn; [repeat constructor|].
  destruct (leb x y) eqn:E.
  - constructor; [by constructor|]. constructor; [done|].
    eapply Forall_impl; [exact Hy|]. intros z. by apply leb_trans.
  - constructor; [done|]. rewrite insert_by_perm. constructor; [|done].
    destruct (leb_total x y); congruence.
Qed.
Lemma sort_by_sorted l : StronglySorted (fun a b => leb a b = true) (sort_by l).
Proof using All. induction l; cbn; [constructor|by apply insert_by_sorted]. Qed.
End sort_by.
