(* ===== verification/Py.v ===== *)
(** * The Python values and string methods the modelled code uses

    A Python [str] is a Rocq [string], read as a sequence of code points below
    256; case mapping and white space are those of [str] on that range (ASCII
    letters change case, other characters are left alone).  JSON documents,
    and the Python objects [json.loads] makes of them, are the type [json]. *)

From S2P Require Import Prelude.
From Stdlib Require Import Ascii QArith.
From stdpp Require Import options.
Local Open Scope Z_scope.

(** ** Strings *)

Definition code (c : ascii) : Z := Z.of_N (N_of_ascii c).

(** [str.isspace] of one character. *)
Definition is_space (c : ascii) : bool :=
  let n := code c in
  ((9 <=? n) && (n <=? 13)) || ((28 <=? n) && (n <=? 32)) || (n =? 133) || (n =? 160).

(** The line boundaries of [str.splitlines]. *)
Definition is_linebreak (c : ascii) : bool :=
  let n := code c in
  ((10 <=? n) && (n <=? 13)) || ((28 <=? n) && (n <=? 30)) || (n =? 133).

Definition is_alpha (c : ascii) : bool :=
  let n := code c in ((65 <=? n) && (n <=? 90)) || ((97 <=? n) && (n <=? 122)).
Definition is_digit (c : ascii) : bool :=
  let n := code c in (48 <=? n) && (n <=? 57).
(** [str.isalnum] of one ASCII character. *)
Definition is_alnum (c : ascii) : bool := is_alpha c || is_digit c.

Definition lower_char (c : ascii) : ascii :=
  let n := code c in
  if (65 <=? n) && (n <=? 90) then ascii_of_N (Z.to_N (n + 32)) else c.
Definition upper_char (c : ascii) : ascii :=
  let n := code c in
  if (97 <=? n) && (n <=? 122) then ascii_of_N (Z.to_N (n - 32)) else c.

Fixpoint smap (f : ascii -> ascii) (s : string) : string :=
  match s with EmptyString => EmptyString | String c s' => String (f c) (smap f s') end.
Definition lower : string -> string := smap lower_char.
Definition upper : string -> string := smap upper_char.

Fixpoint sfilter (p : ascii -> bool) (s : string) : string :=
  match s with
  | EmptyString => EmptyString
  | String c s' => if p c then String c (sfilter p s') else sfilter p s'
  end.
Fixpoint sforall (p : ascii -> bool) (s : string) : bool :=
  match s with EmptyString => true | String c s' => p c && sforall p s' end.
Definition sexists (p : ascii -> bool) (s : string) : bool := negb (sforall (fun c => negb (p c)) s).

Fixpoint srev_app (s acc : string) : string :=
  match s with EmptyString => acc | String c s' => srev_app s' (String c acc) end.
Definition srev (s : string) : string := srev_app s EmptyString.

(** [s.lstrip(chars)] with the characters given by a predicate. *)
Fixpoint lstrip_by (p : ascii -> bool) (s : string) : string :=
  match s with
  | EmptyString => EmptyString
  | String c s' => if p c then lstrip_by p s' else s
  end.
Definition rstrip_by (p : ascii -> bool) (s : string) : string := srev (lstrip_by p (srev s)).
(** [s.strip()] *)
Definition strip (s : string) : string := rstrip_by is_space (lstrip_by is_space s).

Definition truthy_str (s : string) : bool := negb (bool_decide (s = EmptyString)).

(** [len(s)], [s[:n]], [s[n:]] for [n >= 0]. *)
Definition slen (s : string) : Z := Z.of_nat (String.length s).
Definition stake (n : nat) (s : string) : string := String.substring 0 n s.
Fixpoint sdrop (n : nat) (s : string) : string :=
  match n, s with O, _ => s | S _, EmptyString => s | S n', String _ s' => sdrop n' s' end.
Definition startswith (p s : string) : bool := String.prefix p s.

(** [len(s.encode("utf-8"))]: one byte below U+0080, two below U+0800. *)
Fixpoint utf8_len (s : string) : Z :=
  match s with
  | EmptyString => 0
  | String c s' => (if code c <? 128 then 1 else 2) + utf8_len s'
  end.

(** [s.split(sep)] for a one-character separator: never empty. *)
Fixpoint split_char (sep : ascii) (s : string) : list string :=
  match s with
  | EmptyString => [EmptyString]
  | String c s' =>
      if bool_decide (c = sep) then EmptyString :: split_char sep s'
      else match split_char sep s' with
           | [] => [String c EmptyString]
           | w :: ws => String c w :: ws
           end
  end.

(** [s.splitlines()], with ["\r\n"] one boundary. *)
Fixpoint splitlines_go (cur : string) (s : string) : list string :=
  match s with
  | EmptyString => if bool_decide (cur = EmptyString) then [] else [srev cur]
  | String c s' =>
      if is_linebreak c then
        match s' with
        | String d s'' =>
            if (code c =? 13) && (code d =? 10) then srev cur :: splitlines_go EmptyString s''
            else srev cur :: splitlines_go EmptyString s'
        | EmptyString => [srev cur]
        end
      else splitlines_go (String c cur) s'
  end.
Definition splitlines (s : string) : list string := splitlines_go EmptyString s.

(** [sep.join(words)] *)
Fixpoint join (sep : string) (ws : list string) : string :=
  match ws with
  | [] => EmptyString
  | [w] => w
  | w :: ws' => (w +:+ sep +:+ join sep ws')%string
  end.

Definition show_Z (z : Z) : string := pretty z.

(** Python's [<] on strings (code-point order). *)
Fixpoint str_ltb (a b : string) : bool :=
  match a, b with
  | EmptyString, EmptyString => false
  | EmptyString, String _ _ => true
  | String _ _, EmptyString => false
  | String c a', String d b' =>
      if code c <? code d then true else if code c =? code d then str_ltb a' b' else false
  end.
Definition str_leb (a b : string) : bool := negb (str_ltb b a).

(** [int(text)]: blanks around, a sign, digits with single underscores. *)
Fixpoint digits_value (acc : Z) (fresh : bool) (s : string) : option Z :=
  match s with
  | EmptyString => if fresh then None else Some acc
  | String c s' =>
      if bool_decide (c = "_"%char) then (if fresh then None else digits_value acc true s')
      else if (48 <=? code c) && (code c <=? 57) then digits_value (10 * acc + (code c - 48)) false s'
      else None
  end.
Definition int_of_text (s : string) : option Z :=
  match strip s with
  | String "-" s' => Z.opp <$> digits_value 0 true s'
  | String "+" s' => digits_value 0 true s'
  | s' => digits_value 0 true s'
  end.

(** ** Floats

    The code only compares floats, so a float is a rational or one of the
    three special values, with the IEEE comparisons. *)
Inductive pyfloat : Type :=
  | Fin (q : Q)
  | PInf
  | NInf
  | NaN.

Definition fle (a b : pyfloat) : bool :=
  match a, b with
  | NaN, _ | _, NaN => false
  | NInf, _ | _, PInf => true
  | Fin p, Fin q => Qle_bool p q
  | PInf, _ | _, NInf => false
  end.
Definition flt (a b : pyfloat) : bool :=
  match a, b with
  | NaN, _ | _, NaN => false
  | Fin p, Fin q => Qle_bool p q && negb (Qle_bool q p)
  | NInf, NInf | PInf, PInf => false
  | NInf, _ | _, PInf => true
  | PInf, _ | _, NInf => false
  end.
Definition float_of_Z (z : Z) : pyfloat := Fin (inject_Z z).

(** [int(f)] of a finite float truncates; of the others it raises. *)
Definition int_of_float (f : pyfloat) : option Z :=
  match f with Fin q => Some (Z.quot (Qnum q) (Zpos (Qden q))) | _ => None end.

(** ** JSON values *)

Inductive json : Type :=
  | JNull
  | JBool (b : bool)
  | JInt (z : Z)
  | JFloat (f : pyfloat)
  | JStr (s : string)
  | JList (l : list json)
  | JObj (d : list (string * json)).

Abbreviation dict := (list (string * json)).

#[export] Instance json_inhabited : Inhabited json := populate JNull.

(** [d.get(k)] and [k in d] *)
Fixpoint dget (k : string) (d : dict) : option json :=
  match d with
  | [] => None
  | (k', v) :: d' => if bool_decide (k = k') then Some v else dget k d'
  end.
Definition dmem (k : string) (d : dict) : bool := match dget k d with Some _ => true | None => false end.
(** [d[k] = v]: replaces in place, appends a new key. *)
Fixpoint dset (k : string) (v : json) (d : dict) : dict :=
  match d with
  | [] => [(k, v)]
  | (k', v') :: d' => if bool_decide (k = k') then (k, v) :: d' else (k', v') :: dset k v d'
  end.
(** [d.update(e)] *)
Definition dupdate (d e : dict) : dict := foldl (fun acc kv => dset kv.1 kv.2 acc) d e.

(** A JSON path [$.k], and [json.get(k)] on a value that may not be a dict. *)
Definition jget (k : string) (j : json) : option json :=
  match j with JObj d => dget k d | _ => None end.

(** [bool(v)] *)
Definition truthy (j : json) : bool :=
  match j with
  | JNull => false
  | JBool b => b
  | JInt z => negb (z =? 0)
  | JFloat (Fin q) => negb (Qeq_bool q 0)
  | JFloat _ => true
  | JStr s => truthy_str s
  | JList l => match l with [] => false | _ => true end
  | JObj d => match d with [] => false | _ => true end
  end.
Definition truthy_opt (o : option json) : bool := match o with Some j => truthy j | None => false end.

Definition jopt_str (o : option string) : json := match o with Some s => JStr s | None => JNull end.
Definition jopt_int (o : option Z) : json := match o with Some z => JInt z | None => JNull end.

Lemma dget_dset_eq k v d : dget k (dset k v d) = Some v.
Proof.
  induction d as [|[k' v'] d IH]; cbn.
  - by rewrite bool_decide_true.
  - destruct (decide (k = k')) as [->|Hk].
    + rewrite bool_decide_true by done. cbn. by rewrite bool_decide_true.
    + rewrite bool_decide_false by done. cbn. by rewrite bool_decide_false.
Qed.

Lemma dget_dset_ne k k' v d : k ≠ k' -> dget k (dset k' v d) = dget k d.
Proof.
  intros Hne. induction d as [|[k0 v0] d IH]; cbn.
  - by rewrite bool_decide_false.
  - destruct (decide (k' = k0)) as [->|Hk].
    + rewrite bool_decide_true by done. cbn. by rewrite !bool_decide_false.
    + rewrite (bool_decide_false (k' = k0)) by done. cbn. by rewrite IH.
Qed.

Lemma dget_Some_mem k v d : dget k d = Some v -> (k, v) ∈ d.
Proof.
  induction d as [|[k' v'] d IH]; cbn; [done|].
  case_bool_decide; intros H'; simplify_eq; [by left|right; auto].
Qed.

Create Rewrite HintDb py_dict.
#[export] Hint Rewrite dget_dset_eq : py_dict.

(** ** Equality of JSON values *)

#[export] Instance Q_eq_dec : EqDecision Q.
Proof. solve_decision. Defined.
#[export] Instance pyfloat_eq_dec : EqDecision pyfloat.
Proof. solve_decision. Defined.

Section json_ind.
Context (P : json -> Prop)
  (Hnull : P JNull) (Hbool : forall b, P (JBool b)) (Hint : forall z, P (JInt z))
  (Hfloat : forall f, P (JFloat f)) (Hstr : forall s, P (JStr s))
  (Hlist : forall l, Forall P l -> P (JList l))
  (Hobj : forall d, Forall (fun kv => P kv.2) d -> P (JObj d)).
Fixpoint json_rect' (j : json) : P j :=
  match j with
  | JNull => Hnull
  | JBool b => Hbool b
  | JInt z => Hint z
  | JFloat f => Hfloat f
  | JStr s => Hstr s
  | JList l => Hlist l ((fix go (l : list json) : Forall P l :=
      match l with [] => Forall_nil_2 _ | x :: l' => Forall_cons_2 _ _ _ (json_rect' x) (go l') end) l)
  | JObj d => Hobj d ((fix go (d : dict) : Forall (fun kv => P kv.2) d :=
      match d with
      | [] => Forall_nil_2 _
      | kv :: d' => Forall_cons_2 _ _ _ (json_rect' kv.2) (go d')
      end) d)
  end.
End json_ind.

(** Structural equality: the same JSON text, keys in the same order. *)
Fixpoint json_eqb (a b : json) : bool :=
  match a, b with
  | JNull, JNull => true
  | JBool x, JBool y => Bool.eqb x y
  | JInt x, JInt y => x =? y
  | JFloat x, JFloat y => bool_decide (x = y)
  | JStr x, JStr y => bool_decide (x = y)
  | JList l, JList k =>
      (fix go (l k : list json) : bool :=
         match l, k with
         | [], [] => true
         | x :: l', y :: k' => json_eqb x y && go l' k'
         | _, _ => false
         end) l k
  | JObj d, JObj e =>
      (fix go (d e : dict) : bool :=
         match d, e with
         | [], [] => true
         | (k, x) :: d', (k', y) :: e' => bool_decide (k = k') && json_eqb x y && go d' e'
         | _, _ => false
         end) d e
  | _, _ => false
  end.

Lemma json_eqb_eq a b : json_eqb a b = true <-> a = b.
Proof.
  revert b. induction a as [|x|x|x|x|l IH|d IH] using json_rect'; intros [|y|y|y|y|k|e]; cbn;
    try (split; [done|by intros [=]]).
  - rewrite Bool.eqb_true_iff. naive_solver.
  - rewrite Z.eqb_eq. naive_solver.
  - rewrite bool_decide_eq_true. naive_solver.
  - rewrite bool_decide_eq_true. naive_solver.
  - enough (Hl : forall k, (fix go (l k : list json) : bool :=
         match l, k with
         | [], [] => true
         | x :: l', y :: k' => json_eqb x y && go l' k'
         | _, _ => false
         end) l k = true <-> l = k) by (rewrite Hl; naive_solver).
    clear k. induction IH as [|x l Hx _ IHl]; intros [|y k]; try done.
    rewrite andb_true_iff, Hx, IHl. naive_solver.
  - enough (Hl : forall e, (fix go (d e : dict) : bool :=
         match d, e with
         | [], [] => true
         | (k, x) :: d', (k', y) :: e' => bool_decide (k = k') && json_eqb x y && go d' e'
         | _, _ => false
         end) d e = true <-> d = e) by (rewrite Hl; naive_solver).
    clear e. induction IH as [|[k x] d Hx _ IHl]; intros [|[k' y] e]; try done.
    cbn in Hx. rewrite !andb_true_iff, Hx, IHl, bool_decide_eq_true. naive_solver.
Qed.

#[export] Instance json_eq_dec : EqDecision json.
Proof.
  intros a b. destruct (json_eqb a b) eqn:E.
  - left. by apply json_eqb_eq.
  - right. intros H%json_eqb_eq. congruence.
Defined.

(** [json.dumps(v, sort_keys=True)]: two values have the same text exactly
    when they agree after sorting the keys of every object. *)
Fixpoint insert_key (kv : string * json) (d : dict) : dict :=
  match d with
  | [] => [kv]
  | kv' :: d' => if str_leb kv.1 kv'.1 then kv :: d else kv' :: insert_key kv d'
  end.
Fixpoint json_canon (j : json) : json :=
  match j with
  | JList l => JList (List.map json_canon l)
  | JObj d => JObj (foldr insert_key [] (List.map (fun kv => (kv.1, json_canon kv.2)) d))
  | _ => j
  end.
Definition json_text_eqb (a b : json) : bool := json_eqb (json_canon a) (json_canon b).

(** Python's [==] on JSON values: [True == 1 == 1.0], dicts compare without
    regard to the order of their keys. *)
Definition jnum (j : json) : option pyfloat :=
  match j with
  | JBool b => Some (float_of_Z (if b then 1 else 0))
  | JInt z => Some (float_of_Z z)
  | JFloat f => Some f
  | _ => None
  end.
Definition feq (a b : pyfloat) : bool := fle a b && fle b a.
Fixpoint py_eqb (a b : json) : bool :=
  match jnum a, jnum b with
  | Some x, Some y => feq x y
  | _, _ =>
    match a, b with
    | JNull, JNull => true
    | JStr x, JStr y => bool_decide (x = y)
    | JList l, JList k =>
        (fix go (l k : list json) : bool :=
           match l, k with
           | [], [] => true
           | x :: l', y :: k' => py_eqb x y && go l' k'
           | _, _ => false
           end) l k
    | JObj d, JObj e =>
        bool_decide (length d = length e) &&
        (fix go (d : dict) : bool :=
           match d with
           | [] => true
           | (k, x) :: d' => match dget k e with Some y => py_eqb x y | None => false end && go d'
           end) d
    | _, _ => false
    end
  end.

(** ** [json.dumps(v, separators=(",", ":"), sort_keys=True)] *)

Definition hex_digit (n : Z) : ascii :=
  ascii_of_N (Z.to_N (if n <? 10 then 48 + n else 87 + n)).
Definition unicode_escape (c : ascii) : string :=
  let n := code c in
  String (ascii_of_nat 92) ("u00" +:+ String (hex_digit (n / 16)) (String (hex_digit (n mod 16)) EmptyString)).
Definition backslash (s : string) : string := String (ascii_of_nat 92) s.
Definition escape_char (ensure_ascii : bool) (c : ascii) : string :=
  let n := code c in
  if n =? 34 then backslash (String c EmptyString)
  else if n =? 92 then backslash (String c EmptyString)
  else if n =? 10 then backslash "n" else if n =? 13 then backslash "r"
  else if n =? 9 then backslash "t" else if n =? 8 then backslash "b"
  else if n =? 12 then backslash "f"
  else if (n <? 32) || (ensure_ascii && (127 <? n)) then unicode_escape c
  else String c EmptyString.
Fixpoint escape_string (ensure_ascii : bool) (s : string) : string :=
  match s with
  | EmptyString => EmptyString
  | String c s' => (escape_char ensure_ascii c +:+ escape_string ensure_ascii s')%string
  end.
Definition quoted (ensure_ascii : bool) (s : string) : string :=
  let q := String (ascii_of_nat 34) EmptyString in (q +:+ escape_string ensure_ascii s +:+ q)%string.

(** [float_repr] is Python's shortest float representation, which the code
    only ever measures. *)
Fixpoint json_text (ensure_ascii : bool) (float_repr : pyfloat -> string) (j : json) : string :=
  match j with
  | JNull => "null"
  | JBool b => if b then "true" else "false"
  | JInt z => show_Z z
  | JFloat f => float_repr f
  | JStr s => quoted ensure_ascii s
  | JList l => ("[" +:+ join "," (List.map (json_text ensure_ascii float_repr) l) +:+ "]")%string
  | JObj d =>
      ("{" +:+ join "," (List.map (fun kv => quoted ensure_ascii kv.1 +:+ ":" +:+
                                     json_text ensure_ascii float_repr kv.2) d) +:+ "}")%string
  end.
Definition json_dumps (ensure_ascii : bool) (float_repr : pyfloat -> string) (j : json) : string :=
  json_text ensure_ascii float_repr (json_canon j).
