(* ===== verification/Bytes.v ===== *)
(** * Bytes, network byte order and UTF-8

    A Python [bytes] is a list of integers between 0 and 255, a [str] that may
    hold any character a list of code points.  [struct.pack("!H")],
    [struct.pack("!Q")] and the strict UTF-8 codec, with their round trips. *)

From S2P Require Import Prelude.
From Stdlib Require String Ascii.
From stdpp Require Import options.
Local Open Scope Z_scope.

Definition is_byte (b : Z) : Prop := 0 <= b < 256.
Abbreviation bytes := (list Z).
Abbreviation text := (list Z).

(** A [bytes] literal. *)
Definition b_ (s : string) : bytes := (fun c => Z.of_N (Ascii.N_of_ascii c)) <$> String.list_ascii_of_string s.

(** ** Big-endian integers *)

(** The [n] bytes of [v], most significant first. *)
Fixpoint be_encode (n : nat) (v : Z) : bytes :=
  match n with O => [] | S n' => be_encode n' (v / 256) ++ [v mod 256] end.
Definition be_decode (bs : bytes) : Z := foldl (fun acc b => acc * 256 + b) 0 bs.

Lemma length_be_encode n v : length (be_encode n v) = n.
Proof. revert v. induction n as [|n IH]; intros v; cbn; [done|]. rewrite length_app, IH. cbn. lia. Qed.

Lemma be_encode_bytes n v : Forall is_byte (be_encode n v).
Proof.
  revert v. induction n as [|n IH]; intros v; cbn; [done|]. apply Forall_app. split; [done|].
  constructor; [|done]. pose proof (Z.mod_pos_bound v 256). unfold is_byte. lia.
Qed.

Lemma be_roundtrip n v : 0 <= v < 256 ^ Z.of_nat n -> be_decode (be_encode n v) = v.
Proof.
  revert v. induction n as [|n IH]; intros v Hv; [cbn in *; lia|].
  cbn [be_encode]. unfold be_decode in *. rewrite foldl_app. cbn [foldl]. rewrite IH.
  - pose proof (Z.div_mod v 256). lia.
  - rewrite Nat2Z.inj_succ, Z.pow_succ_r in Hv by lia. split; [apply Z.div_pos; lia|].
    apply Z.div_lt_upper_bound; lia.
Qed.

(** ** UTF-8 *)

(** A code point that has a UTF-8 encoding: not a surrogate. *)
Definition is_scalar (c : Z) : bool :=
  (0 <=? c) && (c <? 0x110000) && negb ((0xD800 <=? c) && (c <? 0xE000)).

Definition utf8_char (c : Z) : bytes :=
  if c <? 0x80 then [c]
  else if c <? 0x800 then [0xC0 + c / 64; 0x80 + c mod 64]
  else if c <? 0x10000 then [0xE0 + c / 4096; 0x80 + (c / 64) mod 64; 0x80 + c mod 64]
  else [0xF0 + c / 262144; 0x80 + (c / 4096) mod 64; 0x80 + (c / 64) mod 64; 0x80 + c mod 64].
(** [s.encode("utf-8")] of a text without surrogates. *)
Definition utf8_encode (s : text) : bytes := s ≫= utf8_char.
(** [len(s.encode("utf-8"))] *)
Definition utf8_size (s : text) : Z := Z.of_nat (length (utf8_encode s)).

Definition is_cont (b : Z) : bool := (0x80 <=? b) && (b <? 0xC0).

(** [bs.decode("utf-8")], [None] for [UnicodeDecodeError]. *)
Fixpoint utf8_decode (bs : bytes) : option text :=
  match bs with
  | [] => Some []
  | b0 :: r0 =>
      if b0 <? 0x80 then cons b0 <$> utf8_decode r0
      else match r0 with
      | [] => None
      | b1 :: r1 =>
          if negb (is_cont b1) then None
          else if (0xC2 <=? b0) && (b0 <? 0xE0) then cons ((b0 - 0xC0) * 64 + (b1 - 0x80)) <$> utf8_decode r1
          else match r1 with
          | [] => None
          | b2 :: r2 =>
              if negb (is_cont b2) then None
              else if (0xE0 <=? b0) && (b0 <? 0xF0) then
                let c := (b0 - 0xE0) * 4096 + (b1 - 0x80) * 64 + (b2 - 0x80) in
                if (0x800 <=? c) && is_scalar c then cons c <$> utf8_decode r2 else None
              else match r2 with
              | [] => None
              | b3 :: r3 =>
                  if negb (is_cont b3) then None
                  else if (0xF0 <=? b0) && (b0 <? 0xF8) then
                    let c := (b0 - 0xF0) * 262144 + (b1 - 0x80) * 4096 + (b2 - 0x80) * 64 + (b3 - 0x80) in
                    if (0x10000 <=? c) && is_scalar c then cons c <$> utf8_decode r3 else None
                  else None
              end
          end
      end
  end.

Ltac byte_arith := repeat match goal with
  | |- context [Z.ltb ?a ?b] => destruct (Z.ltb_spec a b); try lia
  | |- context [Z.leb ?a ?b] => destruct (Z.leb_spec a b); try lia
  end.

Lemma utf8_decode_char c r : is_scalar c = true -> utf8_decode (utf8_char c ++ r) = cons c <$> utf8_decode r.
Proof.
  intros Hc. unfold utf8_char.
  assert (0 <= c < 0x110000) by (unfold is_scalar in Hc; bool_to_prop; lia).
  destruct (Z.ltb_spec c 0x80); [cbn [app utf8_decode]; destruct (Z.ltb_spec c 0x80); [done|lia]|].
  destruct (Z.ltb_spec c 0x800).
  { pose proof (Z.div_mod c 64). pose proof (Z.mod_pos_bound c 64). cbn [app utf8_decode]. unfold is_cont. byte_arith.
    cbn. do 2 f_equal. lia. }
  destruct (Z.ltb_spec c 0x10000).
  { pose proof (Z.div_mod c 64). pose proof (Z.mod_pos_bound c 64). pose proof (Z.div_mod (c / 64) 64). pose proof (Z.mod_pos_bound (c / 64) 64).
    assert (c / 4096 = c / 64 / 64) as -> by (by rewrite Z.div_div by lia).
    cbn [app utf8_decode]. unfold is_cont. byte_arith. cbn [negb andb].
    replace (_ + _ + _) with c by lia. rewrite Hc. by byte_arith. }
  pose proof (Z.div_mod c 64). pose proof (Z.mod_pos_bound c 64). pose proof (Z.div_mod (c / 64) 64). pose proof (Z.mod_pos_bound (c / 64) 64).
  pose proof (Z.div_mod (c / 64 / 64) 64). pose proof (Z.mod_pos_bound (c / 64 / 64) 64).
  assert (c / 4096 = c / 64 / 64) as -> by (by rewrite Z.div_div by lia).
  assert (c / 262144 = c / 64 / 64 / 64) as -> by (by rewrite !Z.div_div by lia).
  cbn [app utf8_decode]. unfold is_cont. byte_arith. cbn [negb andb].
  replace (_ + _ + _ + _) with c by lia. rewrite Hc. by byte_arith.
Qed.

Lemma utf8_roundtrip s : forallb is_scalar s = true -> utf8_decode (utf8_encode s) = Some s.
Proof.
  unfold utf8_encode. induction s as [|c s IH]; [done|]. cbn [forallb]. intros [Hc Hs]%andb_true_iff.
  cbn [mbind list_bind]. rewrite utf8_decode_char by done. change (list_bind _ _ _ s) with (s ≫= utf8_char). by rewrite IH.
Qed.

Lemma utf8_char_2 b0 b1 : 0xC2 <= b0 < 0xE0 -> 0x80 <= b1 < 0xC0 -> utf8_char ((b0 - 0xC0) * 64 + (b1 - 0x80)) = [b0; b1].
Proof.
  intros H0 H1. set (c := (b0 - 0xC0) * 64 + (b1 - 0x80)). unfold utf8_char.
  assert (c / 64 = b0 - 0xC0 /\ c mod 64 = b1 - 0x80) as [-> ->].
  { split; [symmetry; apply (Z.div_unique c 64 _ (b1 - 0x80)); lia|symmetry; apply (Z.mod_unique c 64 (b0 - 0xC0)); lia]. }
  byte_arith. repeat f_equal; lia.
Qed.
Lemma utf8_char_3 b0 b1 b2 : 0xE0 <= b0 < 0xF0 -> 0x80 <= b1 < 0xC0 -> 0x80 <= b2 < 0xC0 ->
  let c := (b0 - 0xE0) * 4096 + (b1 - 0x80) * 64 + (b2 - 0x80) in 0x800 <= c -> utf8_char c = [b0; b1; b2].
Proof.
  intros H0 H1 H2 c Hc. unfold utf8_char.
  assert (c / 64 = (b0 - 0xE0) * 64 + (b1 - 0x80) /\ c mod 64 = b2 - 0x80) as [E1 ->].
  { split; [symmetry; apply (Z.div_unique c 64 _ (b2 - 0x80)); lia|symmetry; apply (Z.mod_unique c 64 ((b0 - 0xE0) * 64 + (b1 - 0x80))); lia]. }
  rewrite E1. assert (((b0 - 0xE0) * 64 + (b1 - 0x80)) mod 64 = b1 - 0x80) as ->.
  { symmetry; apply (Z.mod_unique _ 64 (b0 - 0xE0)); lia. }
  assert (c / 4096 = b0 - 0xE0) as ->.
  { symmetry. apply (Z.div_unique c 4096 _ ((b1 - 0x80) * 64 + (b2 - 0x80))); lia. }
  byte_arith. repeat f_equal; lia.
Qed.
Lemma utf8_char_4 b0 b1 b2 b3 : 0xF0 <= b0 < 0xF8 -> 0x80 <= b1 < 0xC0 -> 0x80 <= b2 < 0xC0 -> 0x80 <= b3 < 0xC0 ->
  let c := (b0 - 0xF0) * 262144 + (b1 - 0x80) * 4096 + (b2 - 0x80) * 64 + (b3 - 0x80) in 0x10000 <= c -> utf8_char c = [b0; b1; b2; b3].
Proof.
  intros H0 H1 H2 H3 c Hc. unfold utf8_char.
  assert (c / 64 = (b0 - 0xF0) * 4096 + (b1 - 0x80) * 64 + (b2 - 0x80) /\ c mod 64 = b3 - 0x80) as [E1 ->].
  { split; [symmetry; apply (Z.div_unique c 64 _ (b3 - 0x80)); lia|symmetry; apply (Z.mod_unique c 64 ((b0 - 0xF0) * 4096 + (b1 - 0x80) * 64 + (b2 - 0x80))); lia]. }
  rewrite E1. assert (((b0 - 0xF0) * 4096 + (b1 - 0x80) * 64 + (b2 - 0x80)) mod 64 = b2 - 0x80) as ->.
  { symmetry; apply (Z.mod_unique _ 64 ((b0 - 0xF0) * 64 + (b1 - 0x80))); lia. }
  assert (c / 4096 = (b0 - 0xF0) * 64 + (b1 - 0x80)) as E2.
  { symmetry. apply (Z.div_unique c 4096 _ ((b2 - 0x80) * 64 + (b3 - 0x80))); lia. }
  rewrite E2. assert (((b0 - 0xF0) * 64 + (b1 - 0x80)) mod 64 = b1 - 0x80) as ->.
  { symmetry; apply (Z.mod_unique _ 64 (b0 - 0xF0)); lia. }
  assert (c / 262144 = b0 - 0xF0) as ->.
  { symmetry. apply (Z.div_unique c 262144 _ ((b1 - 0x80) * 4096 + (b2 - 0x80) * 64 + (b3 - 0x80))); lia. }
  byte_arith. repeat f_equal; lia.
Qed.

(** Only valid UTF-8 decodes, and it decodes to the text it encodes. *)
Lemma utf8_decode_sound bs s :
  Forall is_byte bs -> utf8_decode bs = Some s -> utf8_encode s = bs /\ forallb is_scalar s = true.
Proof.
  intros Hbs. revert s. remember (length bs) as n eqn:En. revert bs Hbs En.
  induction n as [n IH] using lt_wf_ind. intros bs Hbs En s Hd.
  assert (Hrec : forall c bs' s', (length bs' < n)%nat -> Forall is_byte bs' -> forall pre, utf8_char c = pre -> is_scalar c = true ->
    cons c <$> utf8_decode bs' = Some s' -> utf8_encode s' = pre ++ bs' /\ forallb is_scalar s' = true).
  { intros c bs' s' Hlt Hb pre <- Hc Hm. destruct (utf8_decode bs') as [s0|] eqn:E0; [|done]. injection Hm as <-.
    destruct (IH _ Hlt bs' Hb eq_refl s0 E0) as [<- Hs]. cbn [forallb]. by rewrite Hc, Hs. }
  destruct bs as [|b0 r0]; [by injection Hd as <-|]. apply Forall_cons in Hbs as [Hb0 Hbs]. unfold is_byte in Hb0. cbn in En.
  cbn [utf8_decode] in Hd. destruct (Z.ltb_spec b0 0x80).
  { apply (Hrec b0 r0 s) with (pre := [b0]) in Hd; [done|lia|done| |].
    - unfold utf8_char. byte_arith. done.
    - unfold is_scalar. by byte_arith. }
  destruct r0 as [|b1 r1]; [done|]. apply Forall_cons in Hbs as [Hb1 Hbs]. cbn in En. unfold is_cont in Hd.
  destruct (Z.leb_spec 0x80 b1); [|done]. destruct (Z.ltb_spec b1 0xC0); [|done]. cbn [andb negb] in Hd.
  destruct ((0xC2 <=? b0) && (b0 <? 0xE0)) eqn:E2.
  { apply andb_true_iff in E2 as [?%Z.leb_le ?%Z.ltb_lt].
    apply (Hrec _ r1 s) with (pre := [b0; b1]) in Hd; [done|lia|done|by apply utf8_char_2|].
    unfold is_scalar. by byte_arith. }
  destruct r1 as [|b2 r2]; [done|]. apply Forall_cons in Hbs as [Hb2 Hbs]. cbn in En.
  destruct (Z.leb_spec 0x80 b2); [|done]. destruct (Z.ltb_spec b2 0xC0); [|done]. cbn [andb negb] in Hd.
  destruct ((0xE0 <=? b0) && (b0 <? 0xF0)) eqn:E3.
  { apply andb_true_iff in E3 as [?%Z.leb_le ?%Z.ltb_lt]. destruct (_ && is_scalar _) eqn:Ec; [|done].
    apply andb_true_iff in Ec as [?%Z.leb_le Ec].
    apply (Hrec _ r2 s) with (pre := [b0; b1; b2]) in Hd; [done|lia|done|by apply utf8_char_3|done]. }
  destruct r2 as [|b3 r3]; [done|]. apply Forall_cons in Hbs as [Hb3 Hbs]. cbn in En.
  destruct (Z.leb_spec 0x80 b3); [|done]. destruct (Z.ltb_spec b3 0xC0); [|done]. cbn [andb negb] in Hd.
  destruct ((0xF0 <=? b0) && (b0 <? 0xF8)) eqn:E4; [|done].
  apply andb_true_iff in E4 as [?%Z.leb_le ?%Z.ltb_lt]. destruct (_ && is_scalar _) eqn:Ec; [|done].
  apply andb_true_iff in Ec as [?%Z.leb_le Ec].
  apply (Hrec _ r3 s) with (pre := [b0; b1; b2; b3]) in Hd; [done|lia|done|by apply utf8_char_4|done].
Qed.

Lemma utf8_decode_size bs s : Forall is_byte bs -> utf8_decode bs = Some s -> utf8_size s = Z.of_nat (length bs).
Proof. intros Hb Hd. unfold utf8_size. by destruct (utf8_decode_sound bs s Hb Hd) as [-> _]. Qed.

(** ** XOR masking *)

Definition xor_mask (key payload : bytes) : bytes :=
  imap (fun i b => Z.lxor b (nth (i mod 4)%nat key 0)) payload.

Lemma length_xor_mask key p : length (xor_mask key p) = length p.
Proof. apply length_imap. Qed.

Lemma xor_mask_involutive key p : xor_mask key (xor_mask key p) = p.
Proof.
  unfold xor_mask. apply list_eq. intros i. rewrite !list_lookup_imap. destruct (p !! i) as [b|]; [|done]. cbn.
  by rewrite Z.lxor_assoc, Z.lxor_nilpotent, Z.lxor_0_r.
Qed.

Lemma lxor_byte a b : is_byte a -> is_byte b -> is_byte (Z.lxor a b).
Proof.
  unfold is_byte. intros Ha Hb. assert (Hn : 0 <= Z.lxor a b) by (apply Z.lxor_nonneg; lia). split; [done|].
  destruct (Z.eq_dec (Z.lxor a b) 0) as [->|Hne]; [lia|]. change 256 with (2 ^ 8). apply Z.log2_lt_pow2; [lia|].
  pose proof (Z.log2_lxor a b ltac:(lia) ltac:(lia)).
  assert (Hlog : forall x, 0 <= x < 256 -> Z.log2 x <= 7).
  { intros x Hx. change 7 with (Z.log2 255). apply Z.log2_le_mono. lia. }
  pose proof (Hlog a Ha). pose proof (Hlog b Hb). lia.
Qed.
