(* ===== verification/Vocab.v ===== *)
(** * The vocabulary shared by the Bridge modules ([bridge_vocab.py])

    Every [StrEnum] class is an inductive type with the source's members; its
    string is [str], and [of_string] reads one back.  The class [StrEnum]
    states what the other modules rely on: [str] has no collisions, so a
    column of the database determines the member it holds.  Constructors carry
    the one-letter alias under which the source imports the class. *)

From S2P Require Import Prelude Py.
From stdpp Require Import options.

Class StrEnum (A : Type) := {
  str : A -> string;
  members : list A;
  of_string : string -> option A;
  of_string_str : forall a, of_string (str a) = Some a;
  of_string_Some : forall s a, of_string s = Some a -> s = str a;
  members_complete : forall a, a ∈ members;
}.

#[export] Instance str_enum_eq_dec `{StrEnum A} : EqDecision A | 100.
Proof.
  intros a b. destruct (decide (str a = str b)) as [E|E].
  - left. assert (Some a = Some b) as [= ->]; [|done].
    by rewrite <- (of_string_str a), <- (of_string_str b), E.
  - right. congruence.
Defined.

Lemma str_inj `{StrEnum A} (a b : A) : str a = str b -> a = b.
Proof. intros E. apply (inj Some). by rewrite <- (of_string_str a), <- (of_string_str b), E. Qed.

(** [cls(s)] for a string-valued enumeration: the member whose value is [s]. *)
Definition lookup_member {A} (f : A -> string) (l : list A) (s : string) : option A :=
  first (fun a => bool_decide (f a = s)) l.

Lemma lookup_member_sound {A} (f : A -> string) l s a : lookup_member f l s = Some a -> s = f a.
Proof. intros [_ H]%first_Some. by apply bool_decide_eq_true in H. Qed.

Lemma lookup_member_elem {A} (f : A -> string) l a : lookup_member f l (f a) = Some a -> a ∈ l.
Proof. by intros [? _]%first_Some. Qed.

Ltac solve_enum :=
  lazymatch goal with
  | |- forall s a, _ = _ -> _ => intros ? ?; apply lookup_member_sound
  | |- _ => intros []; vm_compute; reflexivity
  end.

Inductive MissionStatus : Type :=
  | M_CREATED
  | M_RUNNING
  | M_PAUSED
  | M_STOPPING
  | M_STOPPED
  | M_COMPLETED
  | M_FAILED
  | M_CANCELLED.

Definition MissionStatus_str (x : MissionStatus) : string :=
  match x with
  | M_CREATED => "CREATED"
  | M_RUNNING => "RUNNING"
  | M_PAUSED => "PAUSED"
  | M_STOPPING => "STOPPING"
  | M_STOPPED => "STOPPED"
  | M_COMPLETED => "COMPLETED"
  | M_FAILED => "FAILED"
  | M_CANCELLED => "CANCELLED"
  end.

Definition MissionStatus_members : list MissionStatus :=
  [M_CREATED; M_RUNNING; M_PAUSED;
   M_STOPPING; M_STOPPED; M_COMPLETED;
   M_FAILED; M_CANCELLED].

#[export] Instance MissionStatus_enum : StrEnum MissionStatus.
Proof.
  refine {| str := MissionStatus_str; members := MissionStatus_members; of_string := lookup_member MissionStatus_str MissionStatus_members |}.
  - solve_enum.
  - solve_enum.
  - intros a. apply (lookup_member_elem MissionStatus_str). destruct a; vm_compute; reflexivity.
Defined.

Inductive TaskStatus : Type :=
  | T_QUEUED
  | T_READY
  | T_RUNNING
  | T_PAUSED
  | T_BLOCKED
  | T_VERIFYING
  | T_COMPLETED
  | T_FAILED
  | T_CANCELLED.

Definition TaskStatus_str (x : TaskStatus) : string :=
  match x with
  | T_QUEUED => "QUEUED"
  | T_READY => "READY"
  | T_RUNNING => "RUNNING"
  | T_PAUSED => "PAUSED"
  | T_BLOCKED => "BLOCKED"
  | T_VERIFYING => "VERIFYING"
  | T_COMPLETED => "COMPLETED"
  | T_FAILED => "FAILED"
  | T_CANCELLED => "CANCELLED"
  end.

Definition TaskStatus_members : list TaskStatus :=
  [T_QUEUED; T_READY; T_RUNNING;
   T_PAUSED; T_BLOCKED; T_VERIFYING;
   T_COMPLETED; T_FAILED; T_CANCELLED].

#[export] Instance TaskStatus_enum : StrEnum TaskStatus.
Proof.
  refine {| str := TaskStatus_str; members := TaskStatus_members; of_string := lookup_member TaskStatus_str TaskStatus_members |}.
  - solve_enum.
  - solve_enum.
  - intros a. apply (lookup_member_elem TaskStatus_str). destruct a; vm_compute; reflexivity.
Defined.

Inductive OperationStatus : Type :=
  | O_INTENT
  | O_PREPARED
  | O_RUNNING
  | O_EXITED
  | O_UNCERTAIN.

Definition OperationStatus_str (x : OperationStatus) : string :=
  match x with
  | O_INTENT => "INTENT"
  | O_PREPARED => "PREPARED"
  | O_RUNNING => "RUNNING"
  | O_EXITED => "EXITED"
  | O_UNCERTAIN => "UNCERTAIN"
  end.

Definition OperationStatus_members : list OperationStatus :=
  [O_INTENT; O_PREPARED; O_RUNNING;
   O_EXITED; O_UNCERTAIN].

#[export] Instance OperationStatus_enum : StrEnum OperationStatus.
Proof.
  refine {| str := OperationStatus_str; members := OperationStatus_members; of_string := lookup_member OperationStatus_str OperationStatus_members |}.
  - solve_enum.
  - solve_enum.
  - intros a. apply (lookup_member_elem OperationStatus_str). destruct a; vm_compute; reflexivity.
Defined.

Inductive ViewName : Type :=
  | V_OVERVIEW
  | V_TASKS
  | V_PROVIDERS
  | V_ACTIVITY
  | V_SESSIONS
  | V_HEALTH
  | V_ACTIONS
  | V_USAGE
  | V_AGENTS.

Definition ViewName_str (x : ViewName) : string :=
  match x with
  | V_OVERVIEW => "Overview"
  | V_TASKS => "Tasks"
  | V_PROVIDERS => "Providers"
  | V_ACTIVITY => "Activity"
  | V_SESSIONS => "Sessions"
  | V_HEALTH => "Health"
  | V_ACTIONS => "Actions"
  | V_USAGE => "Usage"
  | V_AGENTS => "Agents"
  end.

Definition ViewName_members : list ViewName :=
  [V_OVERVIEW; V_TASKS; V_PROVIDERS;
   V_ACTIVITY; V_SESSIONS; V_HEALTH;
   V_ACTIONS; V_USAGE; V_AGENTS].

#[export] Instance ViewName_enum : StrEnum ViewName.
Proof.
  refine {| str := ViewName_str; members := ViewName_members; of_string := lookup_member ViewName_str ViewName_members |}.
  - solve_enum.
  - solve_enum.
  - intros a. apply (lookup_member_elem ViewName_str). destruct a; vm_compute; reflexivity.
Defined.

Inductive ColorRole : Type :=
  | C_BRAND
  | C_INFO
  | C_OK
  | C_WARN
  | C_ERROR
  | C_DIM
  | C_DIFF_ADD
  | C_DIFF_REMOVE
  | C_DIFF_HUNK
  | C_COMMAND
  | C_TOOL
  | C_STDERR
  | C_HEADING
  | C_ACCENT
  | C_MUTED
  | C_KEY
  | C_SELECTED
  | C_STATE_RUNNING
  | C_STATE_WAITING
  | C_STATE_REVIEW
  | C_STATE_DONE
  | C_STATE_FAILED
  | C_STATE_PAUSED
  | C_CAPACITY_OK
  | C_CAPACITY_LOW
  | C_CAPACITY_EMPTY
  | C_PROVIDER_CODEX
  | C_PROVIDER_CLAUDE
  | C_PROVIDER_COPILOT
  | C_PROVIDER_OTHER
  | C_MISSION_1
  | C_MISSION_2
  | C_MISSION_3
  | C_MISSION_4
  | C_MISSION_5
  | C_MISSION_6
  | C_MISSION_7
  | C_MISSION_8.

Definition ColorRole_str (x : ColorRole) : string :=
  match x with
  | C_BRAND => "brand"
  | C_INFO => "info"
  | C_OK => "ok"
  | C_WARN => "warn"
  | C_ERROR => "error"
  | C_DIM => "dim"
  | C_DIFF_ADD => "diff_add"
  | C_DIFF_REMOVE => "diff_remove"
  | C_DIFF_HUNK => "diff_hunk"
  | C_COMMAND => "command"
  | C_TOOL => "tool"
  | C_STDERR => "stderr"
  | C_HEADING => "heading"
  | C_ACCENT => "accent"
  | C_MUTED => "muted"
  | C_KEY => "key"
  | C_SELECTED => "selected"
  | C_STATE_RUNNING => "state_running"
  | C_STATE_WAITING => "state_waiting"
  | C_STATE_REVIEW => "state_review"
  | C_STATE_DONE => "state_done"
  | C_STATE_FAILED => "state_failed"
  | C_STATE_PAUSED => "state_paused"
  | C_CAPACITY_OK => "capacity_ok"
  | C_CAPACITY_LOW => "capacity_low"
  | C_CAPACITY_EMPTY => "capacity_empty"
  | C_PROVIDER_CODEX => "provider_codex"
  | C_PROVIDER_CLAUDE => "provider_claude"
  | C_PROVIDER_COPILOT => "provider_copilot"
  | C_PROVIDER_OTHER => "provider_other"
  | C_MISSION_1 => "mission_1"
  | C_MISSION_2 => "mission_2"
  | C_MISSION_3 => "mission_3"
  | C_MISSION_4 => "mission_4"
  | C_MISSION_5 => "mission_5"
  | C_MISSION_6 => "mission_6"
  | C_MISSION_7 => "mission_7"
  | C_MISSION_8 => "mission_8"
  end.

Definition ColorRole_members : list ColorRole :=
  [C_BRAND; C_INFO; C_OK;
   C_WARN; C_ERROR; C_DIM;
   C_DIFF_ADD; C_DIFF_REMOVE; C_DIFF_HUNK;
   C_COMMAND; C_TOOL; C_STDERR;
   C_HEADING; C_ACCENT; C_MUTED;
   C_KEY; C_SELECTED; C_STATE_RUNNING;
   C_STATE_WAITING; C_STATE_REVIEW; C_STATE_DONE;
   C_STATE_FAILED; C_STATE_PAUSED; C_CAPACITY_OK;
   C_CAPACITY_LOW; C_CAPACITY_EMPTY; C_PROVIDER_CODEX;
   C_PROVIDER_CLAUDE; C_PROVIDER_COPILOT; C_PROVIDER_OTHER;
   C_MISSION_1; C_MISSION_2; C_MISSION_3;
   C_MISSION_4; C_MISSION_5; C_MISSION_6;
   C_MISSION_7; C_MISSION_8].

#[export] Instance ColorRole_enum : StrEnum ColorRole.
Proof.
  refine {| str := ColorRole_str; members := ColorRole_members; of_string := lookup_member ColorRole_str ColorRole_members |}.
  - solve_enum.
  - solve_enum.
  - intros a. apply (lookup_member_elem ColorRole_str). destruct a; vm_compute; reflexivity.
Defined.

Inductive EventKind : Type :=
  | K_CAPACITY_REFRESH
  | K_CAPACITY_REFRESH_ERROR
  | K_CAPACITY_WAKE_ARMED
  | K_CAPACITY_WAKE_UNAVAILABLE
  | K_CAPACITY_WAKE_RESUMED
  | K_CAPACITY_WAKE_RESUME_UNVERIFIED
  | K_CAPACITY_WAKE_PLAN
  | K_COMMAND_APPLIED
  | K_COMMAND_FAILED
  | K_COMMAND_QUEUED
  | K_COMMAND_REJECTED
  | K_CONTROLLER_CONFIG
  | K_CONTROLLER_EXITED_UNEXPECTEDLY
  | K_CONTROLLER_FAILED
  | K_CONTROLLER_HEARTBEAT
  | K_CONTROLLER_HEARTBEAT_ERROR
  | K_CONTROLLER_MODE
  | K_CONTROLLER_OWNERSHIP
  | K_DEPENDENCY_ADDED
  | K_EVENTS_PRUNED
  | K_MANAGED_PROCESS_EXITED
  | K_MANAGED_PROCESS_PREPARED
  | K_MANAGED_PROCESS_STARTED
  | K_MISSION_AUTO_CONTINUE
  | K_MISSION_COLOUR
  | K_MISSION_CREATED
  | K_MISSION_REOPENED
  | K_MISSION_STATUS
  | K_MISSION_SUSPEND_WHEN_RATE_LIMITED
  | K_NATIVE_SESSION_RESTORATION
  | K_OPERATION_ABORTED_BEFORE_LAUNCH
  | K_OPERATION_EXITED
  | K_OPERATION_LOG_PRUNED
  | K_OPERATION_PREPARED
  | K_OPERATION_PROCESS
  | K_OPERATION_PROGRESS
  | K_OPERATION_RUNNING
  | K_OPERATION_UNCERTAIN
  | K_PROVIDER_DECLINED
  | K_PROVIDER_HANDOFF
  | K_PROVIDER_HANDOFF_EXHAUSTED
  | K_PROVIDER_HANDOFF_SELECTED
  | K_PROVIDER_SELECTION
  | K_PROVIDER_RESULT_DIAGNOSED
  | K_PROVIDER_SWITCHED
  | K_PROVIDER_WAIT
  | K_REPOSITORY_CHECKPOINT
  | K_PROMPT_ASSEMBLED
  | K_MISSION_POLICY_CHANGED
  | K_REVIEW_HOLD
  | K_REVIEW_HOLD_RELEASED
  | K_ROTATION_APPLIED
  | K_ROTATION_CHANGED
  | K_ROTATION_REJECTED
  | K_SUSPEND_INTENT
  | K_SUSPEND_DECISION
  | K_SUSPEND_OUTCOME
  | K_SUSPEND_PROVIDER_STARTED
  | K_SUSPEND_REFUSED
  | K_SUSPEND_WORK_RESUMED
  | K_STATION_HANDOFF
  | K_STATION_OBSERVATION
  | K_STATION_STOPPED
  | K_STATION_VIEWED
  | K_STEERING_HANDOFF_CONSUMED
  | K_STEERING_HANDOFF_REQUESTED
  | K_STEERING_PAUSE_APPLIED
  | K_STEERING_PAUSE_REQUESTED
  | K_STEERING_STOP_TASK_APPLIED
  | K_STEERING_STOP_TASK_REQUESTED
  | K_STEERING_VERIFY_APPLIED
  | K_STEERING_VERIFY_DRAINED
  | K_STEERING_VERIFY_REQUESTED
  | K_TASK_ADDED
  | K_TASK_AMENDED
  | K_TASK_AMENDMENT_APPLIED
  | K_TASK_DECLINED_RELEASED
  | K_TASK_EVIDENCE_RECORDED
  | K_TASK_LAUNCH_REFUSED
  | K_TASK_PRIORITY
  | K_TASK_PROPOSAL_ACCEPTED
  | K_TASK_PROPOSAL_REJECTED
  | K_TASK_PROPOSED
  | K_TASK_PROVIDER_CONTINUATION
  | K_TASK_READY
  | K_TASK_STATUS_TRANSITION
  | K_TASK_REJECTED
  | K_TASK_REORDERED
  | K_TASK_STATUS
  | K_TASK_VERIFIED
  | K_VERIFICATION_FAILED.

Definition EventKind_str (x : EventKind) : string :=
  match x with
  | K_CAPACITY_REFRESH => "capacity-refresh"
  | K_CAPACITY_REFRESH_ERROR => "capacity-refresh-error"
  | K_CAPACITY_WAKE_ARMED => "capacity-wake-armed"
  | K_CAPACITY_WAKE_UNAVAILABLE => "capacity-wake-unavailable"
  | K_CAPACITY_WAKE_RESUMED => "capacity-wake-resumed"
  | K_CAPACITY_WAKE_RESUME_UNVERIFIED => "capacity-wake-resume-unverified"
  | K_CAPACITY_WAKE_PLAN => "capacity-wake-plan"
  | K_COMMAND_APPLIED => "command-applied"
  | K_COMMAND_FAILED => "command-failed"
  | K_COMMAND_QUEUED => "command-queued"
  | K_COMMAND_REJECTED => "command-rejected"
  | K_CONTROLLER_CONFIG => "controller-config"
  | K_CONTROLLER_EXITED_UNEXPECTEDLY => "controller-exited-unexpectedly"
  | K_CONTROLLER_FAILED => "controller-failed"
  | K_CONTROLLER_HEARTBEAT => "controller-heartbeat"
  | K_CONTROLLER_HEARTBEAT_ERROR => "controller-heartbeat-error"
  | K_CONTROLLER_MODE => "controller-mode"
  | K_CONTROLLER_OWNERSHIP => "controller-ownership"
  | K_DEPENDENCY_ADDED => "dependency-added"
  | K_EVENTS_PRUNED => "events-pruned"
  | K_MANAGED_PROCESS_EXITED => "managed-process-exited"
  | K_MANAGED_PROCESS_PREPARED => "managed-process-prepared"
  | K_MANAGED_PROCESS_STARTED => "managed-process-started"
  | K_MISSION_AUTO_CONTINUE => "mission-auto-continue"
  | K_MISSION_COLOUR => "mission-colour"
  | K_MISSION_CREATED => "mission-created"
  | K_MISSION_REOPENED => "mission-reopened"
  | K_MISSION_STATUS => "mission-status"
  | K_MISSION_SUSPEND_WHEN_RATE_LIMITED => "mission-suspend-when-rate-limited"
  | K_NATIVE_SESSION_RESTORATION => "native-session-restoration"
  | K_OPERATION_ABORTED_BEFORE_LAUNCH => "operation-aborted-before-launch"
  | K_OPERATION_EXITED => "operation-exited"
  | K_OPERATION_LOG_PRUNED => "operation-log-pruned"
  | K_OPERATION_PREPARED => "operation-prepared"
  | K_OPERATION_PROCESS => "operation-process"
  | K_OPERATION_PROGRESS => "operation-progress"
  | K_OPERATION_RUNNING => "operation-running"
  | K_OPERATION_UNCERTAIN => "operation-uncertain"
  | K_PROVIDER_DECLINED => "provider-declined"
  | K_PROVIDER_HANDOFF => "provider-handoff"
  | K_PROVIDER_HANDOFF_EXHAUSTED => "provider-handoff-exhausted"
  | K_PROVIDER_HANDOFF_SELECTED => "provider-handoff-selected"
  | K_PROVIDER_SELECTION => "provider-selection"
  | K_PROVIDER_RESULT_DIAGNOSED => "provider-result-diagnosed"
  | K_PROVIDER_SWITCHED => "provider-switched"
  | K_PROVIDER_WAIT => "provider-wait"
  | K_REPOSITORY_CHECKPOINT => "repository-checkpoint"
  | K_PROMPT_ASSEMBLED => "prompt-assembled"
  | K_MISSION_POLICY_CHANGED => "mission-policy-changed"
  | K_REVIEW_HOLD => "review-hold"
  | K_REVIEW_HOLD_RELEASED => "review-hold-released"
  | K_ROTATION_APPLIED => "rotation-applied"
  | K_ROTATION_CHANGED => "rotation-changed"
  | K_ROTATION_REJECTED => "rotation-rejected"
  | K_SUSPEND_INTENT => "suspend-intent"
  | K_SUSPEND_DECISION => "suspend-decision"
  | K_SUSPEND_OUTCOME => "suspend-outcome"
  | K_SUSPEND_PROVIDER_STARTED => "suspend-provider-started"
  | K_SUSPEND_REFUSED => "suspend-refused"
  | K_SUSPEND_WORK_RESUMED => "suspend-work-resumed"
  | K_STATION_HANDOFF => "station-handoff"
  | K_STATION_OBSERVATION => "station-observation"
  | K_STATION_STOPPED => "station-stopped"
  | K_STATION_VIEWED => "station-viewed"
  | K_STEERING_HANDOFF_CONSUMED => "steering-handoff-consumed"
  | K_STEERING_HANDOFF_REQUESTED => "steering-handoff-requested"
  | K_STEERING_PAUSE_APPLIED => "steering-pause-applied"
  | K_STEERING_PAUSE_REQUESTED => "steering-pause-requested"
  | K_STEERING_STOP_TASK_APPLIED => "steering-stop-task-applied"
  | K_STEERING_STOP_TASK_REQUESTED => "steering-stop-task-requested"
  | K_STEERING_VERIFY_APPLIED => "steering-verify-applied"
  | K_STEERING_VERIFY_DRAINED => "steering-verify-drained"
  | K_STEERING_VERIFY_REQUESTED => "steering-verify-requested"
  | K_TASK_ADDED => "task-added"
  | K_TASK_AMENDED => "task-amended"
  | K_TASK_AMENDMENT_APPLIED => "task-amendment-applied"
  | K_TASK_DECLINED_RELEASED => "task-declined-released"
  | K_TASK_EVIDENCE_RECORDED => "task-evidence-recorded"
  | K_TASK_LAUNCH_REFUSED => "task-launch-refused"
  | K_TASK_PRIORITY => "task-priority"
  | K_TASK_PROPOSAL_ACCEPTED => "task-proposal-accepted"
  | K_TASK_PROPOSAL_REJECTED => "task-proposal-rejected"
  | K_TASK_PROPOSED => "task-proposed"
  | K_TASK_PROVIDER_CONTINUATION => "task-provider-continuation"
  | K_TASK_READY => "task-ready"
  | K_TASK_STATUS_TRANSITION => "task-status-transition"
  | K_TASK_REJECTED => "task-rejected"
  | K_TASK_REORDERED => "task-reordered"
  | K_TASK_STATUS => "task-status"
  | K_TASK_VERIFIED => "task-verified"
  | K_VERIFICATION_FAILED => "verification-failed"
  end.

Definition EventKind_members : list EventKind :=
  [K_CAPACITY_REFRESH; K_CAPACITY_REFRESH_ERROR; K_CAPACITY_WAKE_ARMED;
   K_CAPACITY_WAKE_UNAVAILABLE; K_CAPACITY_WAKE_RESUMED; K_CAPACITY_WAKE_RESUME_UNVERIFIED;
   K_CAPACITY_WAKE_PLAN; K_COMMAND_APPLIED; K_COMMAND_FAILED;
   K_COMMAND_QUEUED; K_COMMAND_REJECTED; K_CONTROLLER_CONFIG;
   K_CONTROLLER_EXITED_UNEXPECTEDLY; K_CONTROLLER_FAILED; K_CONTROLLER_HEARTBEAT;
   K_CONTROLLER_HEARTBEAT_ERROR; K_CONTROLLER_MODE; K_CONTROLLER_OWNERSHIP;
   K_DEPENDENCY_ADDED; K_EVENTS_PRUNED; K_MANAGED_PROCESS_EXITED;
   K_MANAGED_PROCESS_PREPARED; K_MANAGED_PROCESS_STARTED; K_MISSION_AUTO_CONTINUE;
   K_MISSION_COLOUR; K_MISSION_CREATED; K_MISSION_REOPENED;
   K_MISSION_STATUS; K_MISSION_SUSPEND_WHEN_RATE_LIMITED; K_NATIVE_SESSION_RESTORATION;
   K_OPERATION_ABORTED_BEFORE_LAUNCH; K_OPERATION_EXITED; K_OPERATION_LOG_PRUNED;
   K_OPERATION_PREPARED; K_OPERATION_PROCESS; K_OPERATION_PROGRESS;
   K_OPERATION_RUNNING; K_OPERATION_UNCERTAIN; K_PROVIDER_DECLINED;
   K_PROVIDER_HANDOFF; K_PROVIDER_HANDOFF_EXHAUSTED; K_PROVIDER_HANDOFF_SELECTED;
   K_PROVIDER_SELECTION; K_PROVIDER_RESULT_DIAGNOSED; K_PROVIDER_SWITCHED;
   K_PROVIDER_WAIT; K_REPOSITORY_CHECKPOINT; K_PROMPT_ASSEMBLED;
   K_MISSION_POLICY_CHANGED; K_REVIEW_HOLD; K_REVIEW_HOLD_RELEASED;
   K_ROTATION_APPLIED; K_ROTATION_CHANGED; K_ROTATION_REJECTED;
   K_SUSPEND_INTENT; K_SUSPEND_DECISION; K_SUSPEND_OUTCOME;
   K_SUSPEND_PROVIDER_STARTED; K_SUSPEND_REFUSED; K_SUSPEND_WORK_RESUMED;
   K_STATION_HANDOFF; K_STATION_OBSERVATION; K_STATION_STOPPED;
   K_STATION_VIEWED; K_STEERING_HANDOFF_CONSUMED; K_STEERING_HANDOFF_REQUESTED;
   K_STEERING_PAUSE_APPLIED; K_STEERING_PAUSE_REQUESTED; K_STEERING_STOP_TASK_APPLIED;
   K_STEERING_STOP_TASK_REQUESTED; K_STEERING_VERIFY_APPLIED; K_STEERING_VERIFY_DRAINED;
   K_STEERING_VERIFY_REQUESTED; K_TASK_ADDED; K_TASK_AMENDED;
   K_TASK_AMENDMENT_APPLIED; K_TASK_DECLINED_RELEASED; K_TASK_EVIDENCE_RECORDED;
   K_TASK_LAUNCH_REFUSED; K_TASK_PRIORITY; K_TASK_PROPOSAL_ACCEPTED;
   K_TASK_PROPOSAL_REJECTED; K_TASK_PROPOSED; K_TASK_PROVIDER_CONTINUATION;
   K_TASK_READY; K_TASK_STATUS_TRANSITION; K_TASK_REJECTED;
   K_TASK_REORDERED; K_TASK_STATUS; K_TASK_VERIFIED;
   K_VERIFICATION_FAILED].

#[export] Instance EventKind_enum : StrEnum EventKind.
Proof.
  refine {| str := EventKind_str; members := EventKind_members; of_string := lookup_member EventKind_str EventKind_members |}.
  - solve_enum.
  - solve_enum.
  - intros a. apply (lookup_member_elem EventKind_str). destruct a; vm_compute; reflexivity.
Defined.

