(* ===== verification/States.v ===== *)
(** * Status sets and transition tables ([bridge_states.py])

    Every named set and both transition tables, over the enumerations of
    [Vocab].  A set is the list of its members and [is_in] is Python's [in]. *)

From S2P Require Import Prelude Py Vocab.
From stdpp Require Import options.

Definition is_in {A} `{StrEnum A} (x : A) (s : list A) : bool := bool_decide (x ∈ s).

Lemma is_in_true {A} `{StrEnum A} (x : A) s : is_in x s = true <-> x ∈ s.
Proof. apply bool_decide_eq_true. Qed.

Definition TASK_STATES : list TaskStatus := members.
Definition MISSION_STATES : list MissionStatus := members.
Definition OPERATION_STATES : list OperationStatus := members.

Definition OPERATOR_DECLINED_EXIT_CODE : Z := 76.

Definition ACTIVE_OPERATION_STATUSES : list OperationStatus := [O_INTENT; O_PREPARED; O_RUNNING].

Definition FINISHED_MISSION_STATUSES : list MissionStatus := [M_COMPLETED; M_CANCELLED].
Definition ENDED_MISSION_STATUSES : list MissionStatus := [M_COMPLETED; M_CANCELLED; M_FAILED].
Definition STATION_CLOSING_MISSION_STATUSES : list MissionStatus :=
  [M_COMPLETED; M_CANCELLED; M_FAILED; M_STOPPED].
Definition LIVE_MISSION_STATUSES : list MissionStatus := [M_CREATED; M_RUNNING; M_PAUSED; M_STOPPING].
Definition CONTROLLED_MISSION_STATUSES : list MissionStatus := [M_RUNNING; M_PAUSED; M_STOPPING].
Definition STARTED_MISSION_STATUSES : list MissionStatus := [M_RUNNING; M_PAUSED].
Definition HALTED_MISSION_STATUSES : list MissionStatus := [M_PAUSED; M_STOPPING; M_STOPPED].

Definition FINISHED_TASK_STATUSES : list TaskStatus := [T_COMPLETED; T_CANCELLED].

Definition MISSION_TRANSITIONS (s : MissionStatus) : list MissionStatus :=
  match s with
  | M_CREATED => [M_RUNNING; M_CANCELLED]
  | M_RUNNING => [M_PAUSED; M_STOPPING; M_STOPPED; M_COMPLETED; M_FAILED; M_CANCELLED]
  | M_PAUSED => [M_RUNNING; M_STOPPING; M_CANCELLED]
  | M_STOPPING => [M_STOPPED; M_RUNNING; M_FAILED; M_CANCELLED]
  | M_STOPPED => [M_RUNNING; M_CANCELLED]
  | M_COMPLETED => []
  | M_FAILED => [M_RUNNING; M_CANCELLED]
  | M_CANCELLED => []
  end.

Definition TASK_TRANSITIONS (s : TaskStatus) : list TaskStatus :=
  match s with
  | T_QUEUED => [T_READY; T_PAUSED; T_BLOCKED; T_CANCELLED]
  | T_READY => [T_QUEUED; T_RUNNING; T_PAUSED; T_BLOCKED; T_CANCELLED]
  | T_RUNNING => [T_PAUSED; T_BLOCKED; T_CANCELLED]
  | T_PAUSED => [T_QUEUED; T_READY; T_CANCELLED]
  | T_BLOCKED => [T_QUEUED; T_READY; T_CANCELLED]
  | T_VERIFYING => [T_FAILED; T_CANCELLED]
  | T_COMPLETED => []
  | T_FAILED => [T_QUEUED; T_CANCELLED]
  | T_CANCELLED => []
  end.

(** Vocabulary the command-line parser needs. *)
Definition THEME_NAMES : list string := ["dark"; "light"; "high-contrast"; "neutral"; "mono"].
Definition THEME_CHOICES : list string := "auto" :: THEME_NAMES.
Definition MISSION_COUNT : Z := 8.
Definition MISSION_HUE_NAMES : list string :=
  ["teal"; "azure"; "blue"; "indigo"; "violet"; "magenta"; "pink"; "slate"].

(** What the store accepts in [set_task_status] and [set_mission_status]. *)
Definition task_move (s s' : TaskStatus) : Prop := s' = s \/ s' ∈ TASK_TRANSITIONS s.
Definition mission_move (s s' : MissionStatus) : Prop := s' = s \/ s' ∈ MISSION_TRANSITIONS s.

#[export] Instance task_move_dec s s' : Decision (task_move s s').
Proof. unfold task_move. apply _. Defined.
#[export] Instance mission_move_dec s s' : Decision (mission_move s s').
Proof. unfold mission_move. apply _. Defined.

(** ** Properties of the tables *)

(** The next lemmas are checked by running through the finitely many statuses. *)
Ltac by_status :=
  repeat match goal with
  | s : TaskStatus |- _ => destruct s
  | s : MissionStatus |- _ => destruct s
  end; try (vm_compute; tauto); try (intros; exfalso; set_solver); try set_solver.

Lemma task_move_refl s : task_move s s.
Proof. by left. Qed.

(** No move of the table completes a task, starts verification, or leaves a finished status. *)
Lemma task_move_completed s : task_move s T_COMPLETED -> s = T_COMPLETED.
Proof. intros [->|H]; [done|]. by_status. Qed.
Lemma task_move_verifying s : task_move s T_VERIFYING -> s = T_VERIFYING.
Proof. intros [->|H]; [done|]. by_status. Qed.
Lemma task_move_failed s : task_move s T_FAILED -> s = T_FAILED \/ s = T_VERIFYING.
Proof. intros [->|H]; [by left|]. by_status. Qed.
Lemma task_move_finished s s' : task_move s s' -> s ∈ FINISHED_TASK_STATUSES -> s' = s.
Proof. intros [->|H]; [done|]. by_status. Qed.
Lemma mission_move_finished s s' : mission_move s s' -> s ∈ FINISHED_MISSION_STATUSES -> s' = s.
Proof. intros [->|H]; [done|]. by_status. Qed.
Lemma mission_move_completed s : mission_move s M_COMPLETED -> s = M_COMPLETED \/ s = M_RUNNING.
Proof. intros [->|H]; [by left|]. by_status. Qed.

#[export] Hint Resolve task_move_refl : core.
