(* ===== verification/StoreData.v ===== *)
(** * The mission database: rows, tables and statements ([bridge_store.py])

    One record per table of the schema, one constructor of the enumerations
    per value its columns take, and the SQL statements the store issues as
    primitives of the error/state monad: SELECT is a filter in rowid order,
    UPDATE maps over the rows its WHERE selects, INSERT appends.  A JSON column
    holds the value it decodes to, a timestamp the number of seconds its
    ISO text denotes (same order, and the same 10-minute bucket).  The two
    partial unique indexes and the primary keys raise [IntegrityError] as
    SQLite does; the triggers that maintain [mission_task_counts] fire in the
    statements on [tasks].  Clock and uuid4 readings come from an [Oracle]. *)

From S2P Require Import Prelude Py Vocab States.
From stdpp Require Import options.

(** ** Columns *)

Inductive Origin : Type := Or_operator | Or_agent_proposal.
Inductive ProposalStatus : Type := P_NONE | P_PENDING | P_ACCEPTED | P_REJECTED.
Inductive CommandStatus : Type := C_QUEUED | C_APPLIED | C_REJECTED | C_FAILED.
Inductive ProcessStatus : Type :=
  | MP_STARTING | MP_RUNNING | MP_EXITED | MP_TERMINATED | MP_FAILED | MP_UNCERTAIN.

Definition Origin_str (x : Origin) : string :=
  match x with Or_operator => "operator" | Or_agent_proposal => "agent-proposal" end.
Definition ProposalStatus_str (x : ProposalStatus) : string :=
  match x with
  | P_NONE => "NONE" | P_PENDING => "PENDING" | P_ACCEPTED => "ACCEPTED" | P_REJECTED => "REJECTED"
  end.
Definition CommandStatus_str (x : CommandStatus) : string :=
  match x with
  | C_QUEUED => "QUEUED" | C_APPLIED => "APPLIED" | C_REJECTED => "REJECTED" | C_FAILED => "FAILED"
  end.
Definition ProcessStatus_str (x : ProcessStatus) : string :=
  match x with
  | MP_STARTING => "STARTING" | MP_RUNNING => "RUNNING" | MP_EXITED => "EXITED"
  | MP_TERMINATED => "TERMINATED" | MP_FAILED => "FAILED" | MP_UNCERTAIN => "UNCERTAIN"
  end.

#[export] Instance Origin_eq_dec : EqDecision Origin.
Proof. solve_decision. Defined.
#[export] Instance ProposalStatus_eq_dec : EqDecision ProposalStatus.
Proof. solve_decision. Defined.
#[export] Instance CommandStatus_eq_dec : EqDecision CommandStatus.
Proof. solve_decision. Defined.
#[export] Instance ProcessStatus_eq_dec : EqDecision ProcessStatus.
Proof. solve_decision. Defined.

(** The decoded [pending_json] of a task: the amendable fields present in it. *)
Record changes : Type := Changes {
  ch_prompt : option string;
  ch_title : option string;
  ch_priority : option Z;
  ch_acceptance : option (list string);
}.
Definition no_changes : changes := Changes None None None None.

#[export] Instance changes_eq_dec : EqDecision changes.
Proof. solve_decision. Defined.

(** [if pending:] *)
Definition has_changes (c : changes) : bool := negb (bool_decide (c = no_changes)).

(** [sorted(pending)], the names of the amended fields. *)
Definition changed_fields (c : changes) : list string :=
  (if ch_acceptance c is Some _ then ["acceptance"] else []) ++ (if ch_priority c is Some _ then ["priority"] else []) ++
  (if ch_prompt c is Some _ then ["prompt"] else []) ++ (if ch_title c is Some _ then ["title"] else []).

(** ** Rows *)

Record mission_row : Type := Mission {
  m_id : string;
  m_name : string;
  m_objective : string;
  m_cwd : string;
  m_repo_identity : string;
  m_config : dict;
  m_status : MissionStatus;
  m_created_at : Z;
  m_updated_at : Z;
}.

Record task_row : Type := Task {
  t_id : Z;
  t_mission : string;
  t_ordinal : Z;
  t_title : string;
  t_original_prompt : string;
  t_prompt : string;
  t_pending : changes;
  t_priority : Z;
  t_ordering : Z;
  t_status : TaskStatus;
  t_revision : Z;
  t_acceptance : list string;
  t_evidence : list json;
  t_origin : Origin;
  t_proposal : ProposalStatus;
  t_proposed_by : option string;
  t_created_at : Z;
  t_updated_at : Z;
}.

Record amendment_row : Type := Amendment {
  a_id : Z;
  a_task : Z;
  a_revision : Z;
  a_changes : changes;
  a_applied : bool;
  a_created_at : Z;
  a_applied_at : option Z;
}.

Record operation_row : Type := Operation {
  o_id : string;
  o_mission : string;
  o_task : Z;
  o_iteration : Z;
  o_station : string;
  o_route_id : option string;
  o_model : option string;
  o_pane_id : option string;
  o_process_pid : option Z;
  o_process_start : option string;
  o_status : OperationStatus;
  o_exit_code : option Z;
  o_logs_path : option string;
  o_native_session_id : option string;
  o_restoration_state : string;
  o_created_at : Z;
  o_updated_at : Z;
}.

Record event_row : Type := Event {
  e_id : Z;
  e_mission : string;
  e_task : option Z;
  e_operation : option string;
  e_kind : string;
  e_data : json;
  e_created_at : Z;
}.

Record command_row : Type := Command {
  c_id : string;
  c_mission : string;
  c_payload : json;
  c_status : CommandStatus;
  c_result : option json;
  c_created_at : Z;
  c_updated_at : Z;
}.

Record process_row : Type := Process {
  p_id : string;
  p_mission : string;
  p_task : Z;
  p_kind : string;
  p_process_pid : option Z;
  p_process_start : option string;
  p_status : ProcessStatus;
  p_exit_code : option Z;
  p_created_at : Z;
  p_updated_at : Z;
}.

(** Counter rows: [(mission_id, scope, key) -> n]. *)
Abbreviation counts := (gmap (string * string * string) Z).

Record database : Type := Database {
  missions : list mission_row;
  tasks : list task_row;
  task_dependencies : list (Z * Z);
  amendments : list amendment_row;
  operations : list operation_row;
  events : list event_row;
  commands : list command_row;
  managed_processes : list process_row;
  mission_task_counts : counts;
  task_seq : Z;
  amendment_seq : Z;
  event_seq : Z;
}.

Definition set_missions (v : list mission_row) (d : database) : database :=
  Database v (tasks d) (task_dependencies d) (amendments d) (operations d) (events d) (commands d) (managed_processes d) (mission_task_counts d) (task_seq d) (amendment_seq d) (event_seq d).
Definition set_tasks (v : list task_row) (d : database) : database :=
  Database (missions d) v (task_dependencies d) (amendments d) (operations d) (events d) (commands d) (managed_processes d) (mission_task_counts d) (task_seq d) (amendment_seq d) (event_seq d).
Definition set_task_dependencies (v : list (Z * Z)) (d : database) : database :=
  Database (missions d) (tasks d) v (amendments d) (operations d) (events d) (commands d) (managed_processes d) (mission_task_counts d) (task_seq d) (amendment_seq d) (event_seq d).
Definition set_amendments (v : list amendment_row) (d : database) : database :=
  Database (missions d) (tasks d) (task_dependencies d) v (operations d) (events d) (commands d) (managed_processes d) (mission_task_counts d) (task_seq d) (amendment_seq d) (event_seq d).
Definition set_operations (v : list operation_row) (d : database) : database :=
  Database (missions d) (tasks d) (task_dependencies d) (amendments d) v (events d) (commands d) (managed_processes d) (mission_task_counts d) (task_seq d) (amendment_seq d) (event_seq d).
Definition set_events (v : list event_row) (d : database) : database :=
  Database (missions d) (tasks d) (task_dependencies d) (amendments d) (operations d) v (commands d) (managed_processes d) (mission_task_counts d) (task_seq d) (amendment_seq d) (event_seq d).
Definition set_commands (v : list command_row) (d : database) : database :=
  Database (missions d) (tasks d) (task_dependencies d) (amendments d) (operations d) (events d) v (managed_processes d) (mission_task_counts d) (task_seq d) (amendment_seq d) (event_seq d).
Definition set_managed_processes (v : list process_row) (d : database) : database :=
  Database (missions d) (tasks d) (task_dependencies d) (amendments d) (operations d) (events d) (commands d) v (mission_task_counts d) (task_seq d) (amendment_seq d) (event_seq d).
Definition set_mission_task_counts (v : counts) (d : database) : database :=
  Database (missions d) (tasks d) (task_dependencies d) (amendments d) (operations d) (events d) (commands d) (managed_processes d) v (task_seq d) (amendment_seq d) (event_seq d).
Definition set_task_seq (v : Z) (d : database) : database :=
  Database (missions d) (tasks d) (task_dependencies d) (amendments d) (operations d) (events d) (commands d) (managed_processes d) (mission_task_counts d) v (amendment_seq d) (event_seq d).
Definition set_amendment_seq (v : Z) (d : database) : database :=
  Database (missions d) (tasks d) (task_dependencies d) (amendments d) (operations d) (events d) (commands d) (managed_processes d) (mission_task_counts d) (task_seq d) v (event_seq d).
Definition set_event_seq (v : Z) (d : database) : database :=
  Database (missions d) (tasks d) (task_dependencies d) (amendments d) (operations d) (events d) (commands d) (managed_processes d) (mission_task_counts d) (task_seq d) (amendment_seq d) v.

(** ** Column updates *)

Definition set_m_config (v : dict) (r : mission_row) : mission_row :=
  Mission (m_id r) (m_name r) (m_objective r) (m_cwd r) (m_repo_identity r) v (m_status r) (m_created_at r) (m_updated_at r).
Definition set_m_status (v : MissionStatus) (r : mission_row) : mission_row :=
  Mission (m_id r) (m_name r) (m_objective r) (m_cwd r) (m_repo_identity r) (m_config r) v (m_created_at r) (m_updated_at r).
Definition set_m_updated_at (v : Z) (r : mission_row) : mission_row :=
  Mission (m_id r) (m_name r) (m_objective r) (m_cwd r) (m_repo_identity r) (m_config r) (m_status r) (m_created_at r) v.

Definition set_t_title (v : string) (r : task_row) : task_row :=
  Task (t_id r) (t_mission r) (t_ordinal r) v (t_original_prompt r) (t_prompt r) (t_pending r) (t_priority r) (t_ordering r) (t_status r) (t_revision r) (t_acceptance r) (t_evidence r) (t_origin r) (t_proposal r) (t_proposed_by r) (t_created_at r) (t_updated_at r).
Definition set_t_prompt (v : string) (r : task_row) : task_row :=
  Task (t_id r) (t_mission r) (t_ordinal r) (t_title r) (t_original_prompt r) v (t_pending r) (t_priority r) (t_ordering r) (t_status r) (t_revision r) (t_acceptance r) (t_evidence r) (t_origin r) (t_proposal r) (t_proposed_by r) (t_created_at r) (t_updated_at r).
Definition set_t_pending (v : changes) (r : task_row) : task_row :=
  Task (t_id r) (t_mission r) (t_ordinal r) (t_title r) (t_original_prompt r) (t_prompt r) v (t_priority r) (t_ordering r) (t_status r) (t_revision r) (t_acceptance r) (t_evidence r) (t_origin r) (t_proposal r) (t_proposed_by r) (t_created_at r) (t_updated_at r).
Definition set_t_priority (v : Z) (r : task_row) : task_row :=
  Task (t_id r) (t_mission r) (t_ordinal r) (t_title r) (t_original_prompt r) (t_prompt r) (t_pending r) v (t_ordering r) (t_status r) (t_revision r) (t_acceptance r) (t_evidence r) (t_origin r) (t_proposal r) (t_proposed_by r) (t_created_at r) (t_updated_at r).
Definition set_t_ordering (v : Z) (r : task_row) : task_row :=
  Task (t_id r) (t_mission r) (t_ordinal r) (t_title r) (t_original_prompt r) (t_prompt r) (t_pending r) (t_priority r) v (t_status r) (t_revision r) (t_acceptance r) (t_evidence r) (t_origin r) (t_proposal r) (t_proposed_by r) (t_created_at r) (t_updated_at r).
Definition set_t_status (v : TaskStatus) (r : task_row) : task_row :=
  Task (t_id r) (t_mission r) (t_ordinal r) (t_title r) (t_original_prompt r) (t_prompt r) (t_pending r) (t_priority r) (t_ordering r) v (t_revision r) (t_acceptance r) (t_evidence r) (t_origin r) (t_proposal r) (t_proposed_by r) (t_created_at r) (t_updated_at r).
Definition set_t_revision (v : Z) (r : task_row) : task_row :=
  Task (t_id r) (t_mission r) (t_ordinal r) (t_title r) (t_original_prompt r) (t_prompt r) (t_pending r) (t_priority r) (t_ordering r) (t_status r) v (t_acceptance r) (t_evidence r) (t_origin r) (t_proposal r) (t_proposed_by r) (t_created_at r) (t_updated_at r).
Definition set_t_acceptance (v : list string) (r : task_row) : task_row :=
  Task (t_id r) (t_mission r) (t_ordinal r) (t_title r) (t_original_prompt r) (t_prompt r) (t_pending r) (t_priority r) (t_ordering r) (t_status r) (t_revision r) v (t_evidence r) (t_origin r) (t_proposal r) (t_proposed_by r) (t_created_at r) (t_updated_at r).
Definition set_t_evidence (v : list json) (r : task_row) : task_row :=
  Task (t_id r) (t_mission r) (t_ordinal r) (t_title r) (t_original_prompt r) (t_prompt r) (t_pending r) (t_priority r) (t_ordering r) (t_status r) (t_revision r) (t_acceptance r) v (t_origin r) (t_proposal r) (t_proposed_by r) (t_created_at r) (t_updated_at r).
Definition set_t_proposal (v : ProposalStatus) (r : task_row) : task_row :=
  Task (t_id r) (t_mission r) (t_ordinal r) (t_title r) (t_original_prompt r) (t_prompt r) (t_pending r) (t_priority r) (t_ordering r) (t_status r) (t_revision r) (t_acceptance r) (t_evidence r) (t_origin r) v (t_proposed_by r) (t_created_at r) (t_updated_at r).
Definition set_t_updated_at (v : Z) (r : task_row) : task_row :=
  Task (t_id r) (t_mission r) (t_ordinal r) (t_title r) (t_original_prompt r) (t_prompt r) (t_pending r) (t_priority r) (t_ordering r) (t_status r) (t_revision r) (t_acceptance r) (t_evidence r) (t_origin r) (t_proposal r) (t_proposed_by r) (t_created_at r) v.

Definition set_a_applied (v : bool) (r : amendment_row) : amendment_row :=
  Amendment (a_id r) (a_task r) (a_revision r) (a_changes r) v (a_created_at r) (a_applied_at r).
Definition set_a_applied_at (v : option Z) (r : amendment_row) : amendment_row :=
  Amendment (a_id r) (a_task r) (a_revision r) (a_changes r) (a_applied r) (a_created_at r) v.

Definition set_o_route_id (v : option string) (r : operation_row) : operation_row :=
  Operation (o_id r) (o_mission r) (o_task r) (o_iteration r) (o_station r) v (o_model r) (o_pane_id r) (o_process_pid r) (o_process_start r) (o_status r) (o_exit_code r) (o_logs_path r) (o_native_session_id r) (o_restoration_state r) (o_created_at r) (o_updated_at r).
Definition set_o_model (v : option string) (r : operation_row) : operation_row :=
  Operation (o_id r) (o_mission r) (o_task r) (o_iteration r) (o_station r) (o_route_id r) v (o_pane_id r) (o_process_pid r) (o_process_start r) (o_status r) (o_exit_code r) (o_logs_path r) (o_native_session_id r) (o_restoration_state r) (o_created_at r) (o_updated_at r).
Definition set_o_pane_id (v : option string) (r : operation_row) : operation_row :=
  Operation (o_id r) (o_mission r) (o_task r) (o_iteration r) (o_station r) (o_route_id r) (o_model r) v (o_process_pid r) (o_process_start r) (o_status r) (o_exit_code r) (o_logs_path r) (o_native_session_id r) (o_restoration_state r) (o_created_at r) (o_updated_at r).
Definition set_o_process_pid (v : option Z) (r : operation_row) : operation_row :=
  Operation (o_id r) (o_mission r) (o_task r) (o_iteration r) (o_station r) (o_route_id r) (o_model r) (o_pane_id r) v (o_process_start r) (o_status r) (o_exit_code r) (o_logs_path r) (o_native_session_id r) (o_restoration_state r) (o_created_at r) (o_updated_at r).
Definition set_o_process_start (v : option string) (r : operation_row) : operation_row :=
  Operation (o_id r) (o_mission r) (o_task r) (o_iteration r) (o_station r) (o_route_id r) (o_model r) (o_pane_id r) (o_process_pid r) v (o_status r) (o_exit_code r) (o_logs_path r) (o_native_session_id r) (o_restoration_state r) (o_created_at r) (o_updated_at r).
Definition set_o_status (v : OperationStatus) (r : operation_row) : operation_row :=
  Operation (o_id r) (o_mission r) (o_task r) (o_iteration r) (o_station r) (o_route_id r) (o_model r) (o_pane_id r) (o_process_pid r) (o_process_start r) v (o_exit_code r) (o_logs_path r) (o_native_session_id r) (o_restoration_state r) (o_created_at r) (o_updated_at r).
Definition set_o_exit_code (v : option Z) (r : operation_row) : operation_row :=
  Operation (o_id r) (o_mission r) (o_task r) (o_iteration r) (o_station r) (o_route_id r) (o_model r) (o_pane_id r) (o_process_pid r) (o_process_start r) (o_status r) v (o_logs_path r) (o_native_session_id r) (o_restoration_state r) (o_created_at r) (o_updated_at r).
Definition set_o_logs_path (v : option string) (r : operation_row) : operation_row :=
  Operation (o_id r) (o_mission r) (o_task r) (o_iteration r) (o_station r) (o_route_id r) (o_model r) (o_pane_id r) (o_process_pid r) (o_process_start r) (o_status r) (o_exit_code r) v (o_native_session_id r) (o_restoration_state r) (o_created_at r) (o_updated_at r).
Definition set_o_native_session_id (v : option string) (r : operation_row) : operation_row :=
  Operation (o_id r) (o_mission r) (o_task r) (o_iteration r) (o_station r) (o_route_id r) (o_model r) (o_pane_id r) (o_process_pid r) (o_process_start r) (o_status r) (o_exit_code r) (o_logs_path r) v (o_restoration_state r) (o_created_at r) (o_updated_at r).
Definition set_o_restoration_state (v : string) (r : operation_row) : operation_row :=
  Operation (o_id r) (o_mission r) (o_task r) (o_iteration r) (o_station r) (o_route_id r) (o_model r) (o_pane_id r) (o_process_pid r) (o_process_start r) (o_status r) (o_exit_code r) (o_logs_path r) (o_native_session_id r) v (o_created_at r) (o_updated_at r).
Definition set_o_updated_at (v : Z) (r : operation_row) : operation_row :=
  Operation (o_id r) (o_mission r) (o_task r) (o_iteration r) (o_station r) (o_route_id r) (o_model r) (o_pane_id r) (o_process_pid r) (o_process_start r) (o_status r) (o_exit_code r) (o_logs_path r) (o_native_session_id r) (o_restoration_state r) (o_created_at r) v.

Definition set_e_data (v : json) (r : event_row) : event_row :=
  Event (e_id r) (e_mission r) (e_task r) (e_operation r) (e_kind r) v (e_created_at r).
Definition set_e_created_at (v : Z) (r : event_row) : event_row :=
  Event (e_id r) (e_mission r) (e_task r) (e_operation r) (e_kind r) (e_data r) v.

Definition set_c_status (v : CommandStatus) (r : command_row) : command_row :=
  Command (c_id r) (c_mission r) (c_payload r) v (c_result r) (c_created_at r) (c_updated_at r).
Definition set_c_result (v : option json) (r : command_row) : command_row :=
  Command (c_id r) (c_mission r) (c_payload r) (c_status r) v (c_created_at r) (c_updated_at r).
Definition set_c_updated_at (v : Z) (r : command_row) : command_row :=
  Command (c_id r) (c_mission r) (c_payload r) (c_status r) (c_result r) (c_created_at r) v.

Definition set_p_process_pid (v : option Z) (r : process_row) : process_row :=
  Process (p_id r) (p_mission r) (p_task r) (p_kind r) v (p_process_start r) (p_status r) (p_exit_code r) (p_created_at r) (p_updated_at r).
Definition set_p_process_start (v : option string) (r : process_row) : process_row :=
  Process (p_id r) (p_mission r) (p_task r) (p_kind r) (p_process_pid r) v (p_status r) (p_exit_code r) (p_created_at r) (p_updated_at r).
Definition set_p_status (v : ProcessStatus) (r : process_row) : process_row :=
  Process (p_id r) (p_mission r) (p_task r) (p_kind r) (p_process_pid r) (p_process_start r) v (p_exit_code r) (p_created_at r) (p_updated_at r).
Definition set_p_exit_code (v : option Z) (r : process_row) : process_row :=
  Process (p_id r) (p_mission r) (p_task r) (p_kind r) (p_process_pid r) (p_process_start r) (p_status r) v (p_created_at r) (p_updated_at r).
Definition set_p_updated_at (v : Z) (r : process_row) : process_row :=
  Process (p_id r) (p_mission r) (p_task r) (p_kind r) (p_process_pid r) (p_process_start r) (p_status r) (p_exit_code r) (p_created_at r) v.


Definition empty_database : database := Database [] [] [] [] [] [] [] [] ∅ 0 0 0.

(** ** The store monad *)

Inductive exn : Type :=
  | ValueError (msg : string)
  | TransitionError (msg : string)
  | KeyError (msg : string)
  | IntegrityError (msg : string)
  | OSError (msg : string)
  | RuntimeError (msg : string)
  | TypeError (msg : string)
  | OverflowError (msg : string)
  | AttributeError (msg : string)
  | OperationalError (msg : string)
  | RejectedOperatorCommand (msg : string) (reason_code : option string).

(** [int(value)]. *)
Definition py_int (j : json) : result exn Z :=
  match j with
  | JInt z => Ok z
  | JBool b => Ok (Z.b2z b)
  | JFloat f =>
      match int_of_float f, f with
      | Some z, _ => Ok z
      | None, NaN => Raise (ValueError "cannot convert float NaN to integer")
      | None, _ => Raise (OverflowError "cannot convert float infinity to integer")
      end
  | JStr s => match int_of_text s with Some z => Ok z | None => Raise (ValueError "invalid literal for int()") end
  | JNull | JList _ | JObj _ => Raise (TypeError "int() argument must be a string or a number")
  end.

(** [for x in value]. *)
Fixpoint chars (s : string) : list json :=
  match s with EmptyString => [] | String c s' => JStr (String c EmptyString) :: chars s' end.
Definition items_of (j : json) : result exn (list json) :=
  match j with
  | JList l => Ok l
  | JStr s => Ok (chars s)
  | JObj d => Ok ((fun kv => JStr kv.1) <$> d)
  | _ => Raise (TypeError "object is not iterable")
  end.
Fixpoint map_result {A B} (f : A -> result exn B) (l : list A) : result exn (list B) :=
  match l with
  | [] => Ok []
  | x :: l' => y ← f x; ys ← map_result f l'; Ok (y :: ys)
  end.

(** What the store reads from outside the database: successive readings of
    the clock ([utc_now]) and of [uuid4().hex], the file system's
    [Path(..).resolve(strict=True)], the answer of [git rev-parse], the
    monotonic clock and the text of a float. *)
Class Oracle : Type := {
  clock : nat -> Z;
  uuid4 : nat -> string;
  monotonic : nat -> Z;
  fs_resolve : string -> option string;
  git_toplevel : string -> string;
  float_repr : pyfloat -> string;
}.

Record world : Type := World { w_db : database; w_tick : nat }.

Abbreviation DB := (ST exn world).

Definition read {A} (f : database -> A) : DB A := gets (fun w => f (w_db w)).
Definition write (f : database -> database) : DB unit :=
  modify (fun w => World (f (w_db w)) (w_tick w)).

(** A statement that a constraint of the schema may abort. *)
Definition statement {A} (f : database -> result exn (A * database)) : DB A := fun w =>
  match f (w_db w) with
  | Ok (a, d) => (Ok a, World d (w_tick w))
  | Raise e => (Raise e, w)
  end.

(** What SQLite may raise inside a transaction: its own errors (a locked file, a
    full disk), or an integer that does not fit in 64 bits.  The error is that of
    the statement at fault or of [COMMIT]; where it happens makes no difference,
    since the block is rolled back.  Without an instance in scope there is none. *)
Class SqlErrors : Type := { sql_error : world -> option exn }.
#[export] Instance no_sql_errors : SqlErrors | 1000 := {| sql_error _ := None |}.

(** [with self._transaction():] an exception rolls the database back to the
    start of the block, whether the block is a transaction or a savepoint. *)
Definition _transaction `{SE : SqlErrors} {A} (m : DB A) : DB A := fun w =>
  match m w with
  | (Ok a, w') => match sql_error w' with None => (Ok a, w') | Some e => (Raise e, World (w_db w) (w_tick w')) end
  | (Raise e, w') => (Raise e, World (w_db w) (w_tick w'))
  end.

Section oracle.
Context `{Oracle}.

Definition utc_now : DB Z := fun w =>
  (Ok (clock (w_tick w)), World (w_db w) (S (w_tick w))).
Definition uuid4_hex : DB string := fun w =>
  (Ok (uuid4 (w_tick w)), World (w_db w) (S (w_tick w))).

Definition time_monotonic : DB Z := fun w =>
  (Ok (monotonic (w_tick w)), World (w_db w) (S (w_tick w))).

(** [INSERT INTO events ...] *)
Definition _event (mission_id kind : string) (data : dict)
    (task_id : option Z) (operation_id : option string) : DB unit :=
  now ← utc_now;
  write (fun d =>
    let id := (event_seq d + 1)%Z in
    set_event_seq id
      (set_events (events d ++ [Event id mission_id task_id operation_id kind (JObj data) now]) d)).
End oracle.

(** ** Maintained counters *)

Definition effective (t : task_row) : bool :=
  bool_decide (t_origin t = Or_operator) || bool_decide (t_proposal t = P_ACCEPTED).

Definition criteria (t : task_row) : Z := Z.of_nat (length (t_acceptance t)).

(** The statements one row contributes, as [(scope, key, amount)]. *)
Definition _count_statements (t : task_row) (sign : Z) : list (string * string * Z) :=
  [("all", "total", sign)] ++
  (if effective t then [("status", str (t_status t), sign)] else []) ++
  (if bool_decide (t_origin t = Or_agent_proposal)
   then [("proposal", ProposalStatus_str (t_proposal t), sign)] else []) ++
  (if effective t then [("criteria", "total", sign * criteria t)%Z] else []) ++
  (if effective t && bool_decide (t_status t = T_COMPLETED)
   then [("criteria", "verified", sign * criteria t)%Z] else []).

(** [INSERT ... ON CONFLICT(mission_id,scope,key) DO UPDATE SET n=n+excluded.n] *)
Definition upsert_count (m : string) (c : counts) (s : string * string * Z) : counts :=
  let '(scope, key, n) := s in
  <[(m, scope, key) := (default 0 (c !! (m, scope, key)) + n)%Z]> c.
Definition apply_count_statements (t : task_row) (sign : Z) (c : counts) : counts :=
  foldl (upsert_count (t_mission t)) c (_count_statements t sign).

(** The WHEN clause of the [tasks_counts_update] trigger. *)
Definition counted_columns_changed (old new : task_row) : bool :=
  negb (bool_decide (t_status old = t_status new) && bool_decide (t_origin old = t_origin new) &&
        bool_decide (t_proposal old = t_proposal new) && bool_decide (t_acceptance old = t_acceptance new)).
Definition tasks_counts_update (old new : task_row) (c : counts) : counts :=
  if counted_columns_changed old new
  then apply_count_statements new 1 (apply_count_statements old (-1) c) else c.

(** ** Statements on the tables *)

(** [UPDATE tasks SET f WHERE p] with its trigger. *)
Definition update_tasks (p : task_row -> bool) (f : task_row -> task_row) (d : database) : database :=
  let changed := select p (tasks d) in
  set_mission_task_counts
    (foldl (fun c t => tasks_counts_update t (f t) c) (mission_task_counts d) changed)
    (set_tasks (update_where p f (tasks d)) d).
Definition update_task (id : Z) (f : task_row -> task_row) : DB unit :=
  write (update_tasks (fun t => (t_id t =? id)%Z) f).

(** [INSERT INTO tasks ...] under the unique index [tasks_mission_ordinal];
    the new rowid is [lastrowid]. *)
Definition insert_task (mk : Z -> task_row) : DB Z := statement (fun d =>
  let id := (task_seq d + 1)%Z in
  let t := mk id in
  if existsb (fun t' => bool_decide (t_mission t' = t_mission t) && (t_ordinal t' =? t_ordinal t)%Z) (tasks d)
  then Raise (IntegrityError "UNIQUE constraint failed: tasks.mission_id, tasks.ordinal")
  else Ok (id, set_mission_task_counts (apply_count_statements t 1 (mission_task_counts d))
                 (set_task_seq id (set_tasks (tasks d ++ [t]) d)))).

(** The partial index [one_active_mission_per_worktree]. *)
Definition active_mission (m : mission_row) : bool := is_in (m_status m) CONTROLLED_MISSION_STATUSES.

Definition update_mission (id : string) (f : mission_row -> mission_row) : DB unit :=
  write (fun d => set_missions (update_where (fun m => bool_decide (m_id m = id)) f (missions d)) d).
Definition update_mission_status (id : string) (s : MissionStatus) (now : Z) : DB unit := statement (fun d =>
  let f := fun m => set_m_updated_at now (set_m_status s m) in
  let clash := fun m m' => negb (bool_decide (m_id m' = id)) && active_mission m' &&
                           bool_decide (m_repo_identity m' = m_repo_identity m) in
  if existsb (fun m => bool_decide (m_id m = id) && active_mission (f m) && existsb (clash m) (missions d)) (missions d)
  then Raise (IntegrityError "UNIQUE constraint failed: missions.repo_identity")
  else Ok (tt, set_missions (update_where (fun m => bool_decide (m_id m = id)) f (missions d)) d)).
Definition insert_mission (m : mission_row) : DB unit := statement (fun d =>
  if existsb (fun m' => bool_decide (m_id m' = m_id m)) (missions d)
  then Raise (IntegrityError "UNIQUE constraint failed: missions.id")
  else Ok (tt, set_missions (missions d ++ [m]) d)).

Definition active_status (s : OperationStatus) : bool := is_in s ACTIVE_OPERATION_STATUSES.
Definition active_op (o : operation_row) : bool := active_status (o_status o).
Definition active_op_of (task_id : Z) (o : operation_row) : bool := (o_task o =? task_id)%Z && active_op o.

(** [INSERT INTO operations] under its primary key and the partial index
    [one_unresolved_operation_per_task]. *)
Definition insert_operation (o : operation_row) : DB unit := statement (fun d =>
  if existsb (fun o' => bool_decide (o_id o' = o_id o)) (operations d)
  then Raise (IntegrityError "UNIQUE constraint failed: operations.id")
  else if active_op o && existsb (active_op_of (o_task o)) (operations d)
  then Raise (IntegrityError "UNIQUE constraint failed: operations.task_id")
  else Ok (tt, set_operations (operations d ++ [o]) d)).
Definition update_operation (id : string) (f : operation_row -> operation_row) : DB unit :=
  write (fun d => set_operations (update_where (fun o => bool_decide (o_id o = id)) f (operations d)) d).

(** [INSERT OR IGNORE INTO task_dependencies] *)
Definition insert_dependency (task_id depends_on : Z) : DB unit := statement (fun d =>
  Ok (tt, if bool_decide ((task_id, depends_on) ∈ task_dependencies d) then d
          else set_task_dependencies (task_dependencies d ++ [(task_id, depends_on)]) d)).

(** [INSERT INTO amendments] under [UNIQUE(task_id, revision)]. *)
Definition insert_amendment (task_id revision : Z) (c : changes) (now : Z) : DB unit := statement (fun d =>
  if existsb (fun a => (a_task a =? task_id)%Z && (a_revision a =? revision)%Z) (amendments d)
  then Raise (IntegrityError "UNIQUE constraint failed: amendments.task_id, amendments.revision")
  else let id := (amendment_seq d + 1)%Z in
       Ok (tt, set_amendment_seq id
                 (set_amendments (amendments d ++ [Amendment id task_id revision c false now None]) d))).
Definition update_amendments (p : amendment_row -> bool) (f : amendment_row -> amendment_row) : DB unit :=
  write (fun d => set_amendments (update_where p f (amendments d)) d).

Definition insert_command (c : command_row) : DB unit := statement (fun d =>
  if existsb (fun c' => bool_decide (c_id c' = c_id c)) (commands d)
  then Raise (IntegrityError "UNIQUE constraint failed: commands.id")
  else Ok (tt, set_commands (commands d ++ [c]) d)).
Definition update_command (id : string) (f : command_row -> command_row) : DB unit :=
  write (fun d => set_commands (update_where (fun c => bool_decide (c_id c = id)) f (commands d)) d).

Definition insert_process (p : process_row) : DB unit := statement (fun d =>
  if existsb (fun p' => bool_decide (p_id p' = p_id p)) (managed_processes d)
  then Raise (IntegrityError "UNIQUE constraint failed: managed_processes.id")
  else Ok (tt, set_managed_processes (managed_processes d ++ [p]) d)).
Definition update_process (id : string) (f : process_row -> process_row) : DB unit :=
  write (fun d => set_managed_processes (update_where (fun p => bool_decide (p_id p = id)) f (managed_processes d)) d).

(** ** Lookups by key *)

Definition find_mission (id : string) (d : database) : option mission_row :=
  first (fun m => bool_decide (m_id m = id)) (missions d).
Definition find_task (id : Z) (d : database) : option task_row :=
  first (fun t => (t_id t =? id)%Z) (tasks d).
Definition find_operation (id : string) (d : database) : option operation_row :=
  first (fun o => bool_decide (o_id o = id)) (operations d).
Definition find_command (id : string) (d : database) : option command_row :=
  first (fun c => bool_decide (c_id c = id)) (commands d).
Definition find_process (id : string) (d : database) : option process_row :=
  first (fun p => bool_decide (p_id p = id)) (managed_processes d).

Definition short_id (id : string) : string := stake 8 id.

Definition or_raise {A} (o : option A) (e : exn) : DB A :=
  match o with Some a => mret a | None => raise e end.

Definition _mission_row (mission_id : string) : DB mission_row :=
  o ← read (find_mission mission_id);
  or_raise o (KeyError ("unknown mission: " +:+ short_id mission_id)).
Definition _task_row (task_id : Z) : DB task_row :=
  o ← read (find_task task_id);
  or_raise o (KeyError ("unknown task: " +:+ show_Z task_id)).
Definition _operation_row (operation_id : string) : DB operation_row :=
  o ← read (find_operation operation_id);
  or_raise o (KeyError ("unknown operation: " +:+ operation_id)).
Definition _managed_process_row (process_id : string) : DB process_row :=
  o ← read (find_process process_id);
  or_raise o (KeyError ("unknown managed process " +:+ process_id)).
