(* ===== verification/StoreTasks.v ===== *)
(** * Missions, tasks, dependencies, proposals and amendments ([bridge_store.py])

    One definition per method of [BridgeStore], each the whole method: its
    guards in the source's order, its statements and its events. *)

From S2P Require Import Prelude Py Vocab States StoreData.
From Stdlib Require Import Ascii.
From stdpp Require Import options.
Local Open Scope Z_scope.

(** ** Module-level helpers *)

Definition split_names (value : string) : list string :=
  List.filter truthy_str (List.map strip (split_char "," value)).

(** [rotation_label]: routes win over providers. *)
Definition rotation_label (providers routes : string) : string :=
  join "," (match split_names routes with [] => split_names providers | r => r end).

Definition dq : string := String (ascii_of_nat 34) EmptyString.

Definition mission_transition_message (mission_id : string) (old new : MissionStatus) : string :=
  let short := short_id mission_id in
  match old with
  | M_COMPLETED =>
      "mission " +:+ short +:+ " is finished (completed); add a task with: llm-bridge task add --prompt "
        +:+ dq +:+ "..." +:+ dq +:+ " to continue it"
  | M_CANCELLED =>
      "mission " +:+ short +:+ " was cancelled and cannot be "
        +:+ (if decide (new = M_RUNNING) then "resumed" else "changed")
        +:+ "; create a new mission with: llm-bridge mission create --prompt " +:+ dq +:+ "..." +:+ dq
  | _ =>
      if decide (new = M_PAUSED)
      then "mission " +:+ short +:+ " is " +:+ lower (str old) +:+ ", not running, so there is nothing to pause"
      else "mission " +:+ short +:+ " is " +:+ lower (str old) +:+ " and cannot become " +:+ lower (str new)
  end.

(** The regular expression of [_HEADING_MARKERS], anchored at the line start. *)
Fixpoint count_hashes (s : string) : nat * string :=
  match s with
  | String c s' => if code c =? 35 then let '(n, r) := count_hashes s' in (S n, r) else (O, s)
  | EmptyString => (O, s)
  end.
Definition strip_heading (line : string) : string :=
  let '(n, rest) := count_hashes (lstrip_by is_space line) in
  if (1 <=? n)%nat && (n <=? 6)%nat then
    match rest with
    | EmptyString => EmptyString
    | String c _ => if is_space c then lstrip_by is_space rest else line
    end
  else line.

Definition derive_title (prompt fallback : string) : string :=
  match first truthy_str (List.map (fun line => strip (strip_heading line)) (splitlines prompt)) with
  | Some text => stake 100 text
  | None => fallback
  end.

(** ** Paths, as [pathlib] compares them *)

Definition path_parts (p : string) : list string :=
  (if startswith "/" p then ["/"%string] else []) ++
  List.filter (fun s => truthy_str s && negb (bool_decide (s = "."%string))) (split_char "/" p).
Definition path_eqb (p q : string) : bool := bool_decide (path_parts p = path_parts q).
Fixpoint is_prefix (xs ys : list string) : bool :=
  match xs, ys with
  | [], _ => true
  | x :: xs', y :: ys' => bool_decide (x = y) && is_prefix xs' ys'
  | _, _ => false
  end.
(** [p.is_relative_to(q)] *)
Definition is_relative_to (p q : string) : bool := is_prefix (path_parts q) (path_parts p).

(** ** Dependencies *)

Definition depends_of (deps : list (Z * Z)) (t : Z) : list Z :=
  snd <$> select (fun d => d.1 =? t) deps.

(** The recursive CTE [ancestors]: a queue of rows to expand and the rows
    already produced, which UNION keeps distinct. *)
Definition fresh_targets (deps : list (Z * Z)) (seen : list Z) (t : Z) : list Z :=
  remove_dups (select (fun x => negb (bool_decide (x ∈ seen))) (depends_of deps t)).
Fixpoint cte (fuel : nat) (deps : list (Z * Z)) (queue seen : list Z) : list Z :=
  match fuel, queue with
  | S fuel', x :: queue' =>
      let new := fresh_targets deps seen x in
      cte fuel' deps (queue' ++ new) (seen ++ new)
  | _, _ => seen
  end.
Definition ancestors (deps : list (Z * Z)) (t : Z) : list Z :=
  let start := remove_dups (depends_of deps t) in
  cte (length deps) deps start start.

Definition task_completed (d : database) (id : Z) : bool :=
  match find_task id d with Some t => bool_decide (t_status t = T_COMPLETED) | None => false end.

(** No prerequisite of the task joins a task that is not completed. *)
Definition dependencies_complete (d : database) (task_id : Z) : bool :=
  forallb (fun p => match find_task p d with
                    | Some t => bool_decide (t_status t = T_COMPLETED)
                    | None => true
                    end) (depends_of (task_dependencies d) task_id).
Definition _dependencies_complete (task_id : Z) : DB bool := read (fun d => dependencies_complete d task_id).

(** ** Task dictionaries *)

Record task_dict : Type := TaskDict {
  td_row : task_row;
  td_depends_on : list Z;
  td_depends_on_ordinals : list Z;
}.

(** The joined dependency rows of one chunk of task ids, in ORDER BY order. *)
Definition dependency_rows (d : database) (chunk : list Z) : list (Z * (Z * Z)) :=
  sort_by (fun a b => (a.1 <? b.1) || ((a.1 =? b.1) && (a.2.1 <=? b.2.1)))
    (omap (fun e => match find_task e.2 d with
                    | Some t => if bool_decide (e.1 ∈ chunk) then Some (e.1, (e.2, t_ordinal t)) else None
                    | None => None
                    end) (task_dependencies d)).

Fixpoint chunks_of {A} (fuel n : nat) (l : list A) : list (list A) :=
  match fuel, l with
  | S f, _ :: _ => take n l :: chunks_of f n (drop n l)
  | _, _ => []
  end.

Definition collect_row (acc : gmap Z (list (Z * Z))) (r : Z * (Z * Z)) : gmap Z (list (Z * Z)) :=
  <[r.1 := default [] (acc !! r.1) ++ [r.2]]> acc.

Definition _task_dicts (d : database) (rows : list task_row) : list task_dict :=
  let ids := t_id <$> rows in
  let found := foldl (fun acc chunk => foldl collect_row acc (dependency_rows d chunk))
                 ∅ (chunks_of (length ids) 500 ids) in
  (fun t => let deps := default [] (found !! t_id t) in
            TaskDict t (fst <$> deps) (sort_by Z.leb (snd <$> deps))) <$> rows.

Definition _task_dict (d : database) (t : task_row) : task_dict :=
  TaskDict t (fst <$> (snd <$> dependency_rows d [t_id t]))
    (sort_by Z.leb (snd <$> (snd <$> dependency_rows d [t_id t]))).

Definition get_task (task_id : Z) : DB task_dict :=
  t ← _task_row task_id; read (fun d => _task_dict d t).

Definition mission_tasks (mission_id : string) (d : database) : list task_row :=
  select (fun t => bool_decide (t_mission t = mission_id)) (tasks d).

(** [ORDER BY ordering,id] and [ORDER BY priority DESC,ordering,id] *)
Definition list_order (a b : task_row) : bool :=
  (t_ordering a <? t_ordering b) || ((t_ordering a =? t_ordering b) && (t_id a <=? t_id b)).
Definition queue_order (a b : task_row) : bool :=
  (t_priority b <? t_priority a) || ((t_priority a =? t_priority b) && list_order a b).

(** [LIMIT n]: a negative limit is no limit. *)
Definition limited {A} (limit : option Z) (l : list A) : list A :=
  match limit with Some n => take (Z.to_nat (Z.max 0 n)) l | None => l end.

Definition next_ordinal (mission_id : string) (d : database) : Z :=
  coalesce_max (t_ordinal <$> mission_tasks mission_id d) + 1.
Definition _next_ordinal (mission_id : string) : DB Z := read (next_ordinal mission_id).

Definition next_ordering (mission_id : string) (d : database) : Z :=
  coalesce_max (t_ordering <$> mission_tasks mission_id d) + 10.

Definition task_by_ordinal (mission_id : string) (ordinal : Z) : DB task_dict :=
  _mission_row mission_id ;;
  d ← read id;
  match first (fun t => bool_decide (t_mission t = mission_id) && (t_ordinal t =? ordinal)) (tasks d) with
  | Some t => mret (_task_dict d t)
  | None =>
      let short := short_id mission_id in
      match mission_tasks mission_id d with
      | [] => raise (TransitionError ("mission " +:+ short +:+ " has no tasks; there is no task " +:+ show_Z ordinal))
      | _ =>
          let highest := coalesce_max (t_ordinal <$> mission_tasks mission_id d) in
          let span := if highest =? 1 then "task 1"%string else ("tasks 1–" +:+ show_Z highest)%string in
          raise (TransitionError ("mission " +:+ short +:+ " has " +:+ span +:+ "; there is no task " +:+ show_Z ordinal))
      end
  end.

(** ** Missions *)

Definition mission_id_if_exists (mission_id : string) (d : database) : option string :=
  m_id <$> find_mission mission_id d.
Definition missions_with_id_prefix (prefix : string) (d : database) : list mission_row :=
  select (fun m => bool_decide (stake (String.length prefix) (m_id m) = prefix)) (missions d).
(** [ORDER BY updated_at DESC,id] and [ORDER BY created_at,id] *)
Definition missions_newest_first (d : database) : list mission_row :=
  sort_by (fun a b => (m_updated_at b <? m_updated_at a) ||
                      ((m_updated_at a =? m_updated_at b) && str_leb (m_id a) (m_id b))) (missions d).
Definition list_missions (d : database) : list mission_row :=
  sort_by (fun a b => (m_created_at a <? m_created_at b) ||
                      ((m_created_at a =? m_created_at b) && str_leb (m_id a) (m_id b))) (missions d).
Definition get_mission (mission_id : string) : DB mission_row := _mission_row mission_id.

(** The counters as the status page reads them. *)
Record task_totals : Type := TaskTotals {
  tt_status : gmap string Z;
  tt_proposal : gmap string Z;
  tt_total : Z;
  tt_criteria_total : Z;
  tt_criteria_verified : Z;
}.
Definition count_at (c : counts) (m scope key : string) : Z := default 0 (c !! (m, scope, key)).
(** The positive counters of one scope, collected row by row. *)
Definition scope_counts (c : counts) (m scope : string) : gmap string Z :=
  list_to_map (omap (fun row : (string * string * string) * Z =>
    let '((m', scope', key), n) := row in
    if bool_decide (m' = m) && bool_decide (scope' = scope) && (0 <? n) then Some (key, n) else None) (map_to_list c)).
Definition task_counters (mission_id : string) (d : database) : task_totals :=
  let c := mission_task_counts d in
  TaskTotals (scope_counts c mission_id "status") (scope_counts c mission_id "proposal")
    (count_at c mission_id "all" "total")
    (count_at c mission_id "criteria" "total")
    (count_at c mission_id "criteria" "verified").

(** [INSERT INTO mission_task_counts SELECT mission_id, scope, key, agg FROM
    rows GROUP BY mission_id, key] *)
Definition insert_groups (scope : string) (key : task_row -> string) (agg : list task_row -> Z)
    (rows : list task_row) (c : counts) : counts :=
  foldl (fun c t =>
    let group := select (fun t' => bool_decide (t_mission t' = t_mission t) && bool_decide (key t' = key t)) rows in
    <[(t_mission t, scope, key t) := agg group]> c) c rows.
Definition count_rows (rows : list task_row) : Z := Z.of_nat (length rows).
Definition sum_criteria (rows : list task_row) : Z := sumZ criteria rows.
Definition rebuild_task_counts (d : database) : database :=
  let queue := select effective (tasks d) in
  set_mission_task_counts
    (insert_groups "criteria" (fun _ => "verified"%string) sum_criteria
       (select (fun t => bool_decide (t_status t = T_COMPLETED)) queue)
    (insert_groups "criteria" (fun _ => "total"%string) sum_criteria queue
    (insert_groups "proposal" (fun t => ProposalStatus_str (t_proposal t)) count_rows
       (select (fun t => bool_decide (t_origin t = Or_agent_proposal)) (tasks d))
    (insert_groups "status" (fun t => str (t_status t)) count_rows queue
    (insert_groups "all" (fun _ => "total"%string) count_rows (tasks d) ∅))))) d.

Definition opt_str (s : string) : option string := if truthy_str s then Some s else None.

Section store.
Context `{Oracle} `{SE : SqlErrors}.

Definition task_event (mission_id kind : string) (data : dict) (task_id : Z) : DB unit :=
  _event mission_id kind data (Some task_id) None.
Definition mission_event (mission_id kind : string) (data : dict) : DB unit :=
  _event mission_id kind data None None.

Definition new_task (mission_id : string) (ordinal : Z) (title prompt : string) (priority ordering : Z)
    (acceptance : list string) (o : Origin) (p : ProposalStatus) (by_ : option string) (now : Z) (id : Z) : task_row :=
  Task id mission_id ordinal title prompt prompt no_changes priority ordering T_QUEUED 1 acceptance []
    o p by_ now now.

Definition create_mission (name objective cwd : string) (mission_id : option string)
    (initial_prompt : option string) (initial_acceptance : list string) (config : dict)
    : DB (mission_row * option Z) :=
  raise_if (negb (truthy_str (strip name)) || negb (truthy_str objective))
    (ValueError "mission name and objective must be non-empty") ;;
  canonical_cwd ← or_raise (fs_resolve cwd) (OSError "no such file or directory");
  let repo_root := git_toplevel canonical_cwd in
  mid ← match mission_id ≫= opt_str with Some i => mret i | None => uuid4_hex end;
  now ← utc_now;
  task_id ← _transaction (
    active ← read (fun d => select active_mission (missions d));
    raise_if (existsb (fun row => bool_decide (m_repo_identity row = repo_root) ||
                path_eqb canonical_cwd (m_cwd row) || is_relative_to canonical_cwd (m_cwd row) ||
                is_relative_to (m_cwd row) canonical_cwd) active)
      (TransitionError ("an active mission already owns worktree: " +:+ canonical_cwd)) ;;
    insert_mission (Mission mid (strip name) objective canonical_cwd repo_root config M_CREATED now now) ;;
    mission_event mid "mission-created" [("name", JStr (strip name)); ("cwd", JStr canonical_cwd)] ;;
    match initial_prompt with
    | None => mret None
    | Some prompt =>
        let task_title := derive_title prompt (strip name) in
        task_id ← insert_task (new_task mid 1 task_title prompt 0 0 initial_acceptance Or_operator P_NONE None now);
        task_event mid "task-added" [("title", JStr task_title); ("priority", JInt 0)] task_id ;;
        mret (Some task_id)
    end);
  m ← get_mission mid;
  mret (m, task_id).

Definition set_mission_status (mission_id status : string) : DB unit :=
  match of_string (upper status) with
  | None => raise (ValueError ("invalid mission status: " +:+ upper status))
  | Some status =>
      _transaction (
        mission ← _mission_row mission_id;
        let old := m_status mission in
        raise_if (negb (bool_decide (status = old)) && negb (is_in status (MISSION_TRANSITIONS old)))
          (TransitionError (mission_transition_message mission_id old status)) ;;
        counted ← read (fun d => select effective (mission_tasks mission_id d));
        raise_if (bool_decide (status = M_COMPLETED) &&
            (bool_decide (counted = []) ||
             negb (forallb (fun t => bool_decide (t_status t = T_COMPLETED)) counted)))
          (TransitionError "mission cannot complete while tasks are not complete") ;;
        now ← utc_now;
        update_mission_status mission_id status now ;;
        mission_event mission_id "mission-status" [("from", JStr (str old)); ("to", JStr (str status))])
  end.

Definition _add_dependency_locked (mission_id : string) (task_id depends_on : Z) : DB unit :=
  task ← _task_row task_id;
  dep ← _task_row depends_on;
  raise_if (negb (bool_decide (t_mission task = mission_id)) || negb (bool_decide (t_mission dep = mission_id)))
    (TransitionError "a task can only wait for a task of the same mission") ;;
  raise_if (is_in (t_status task) [T_RUNNING; T_VERIFYING])
    (TransitionError ("cannot add a dependency to " +:+ lower (str (t_status task)) +:+ " task " +:+
       show_Z (t_ordinal task) +:+ "; dependencies can change only while a task waits to run")) ;;
  raise_if (is_in (t_status task) FINISHED_TASK_STATUSES)
    (TransitionError ("task " +:+ show_Z (t_ordinal task) +:+ " is " +:+ lower (str (t_status task)) +:+
       " and its dependencies can no longer change")) ;;
  raise_if (task_id =? depends_on) (TransitionError "a task cannot depend on itself") ;;
  deps ← read task_dependencies;
  raise_if (bool_decide (task_id ∈ ancestors deps depends_on))
    (TransitionError ("that dependency would create a cycle: task " +:+ show_Z (t_ordinal dep) +:+
       " already waits for task " +:+ show_Z (t_ordinal task))) ;;
  insert_dependency task_id depends_on.

Definition add_task (mission_id prompt title : string) (priority : Z) (order : option Z)
    (depends_on : list Z) (acceptance : list string) : DB Z :=
  raise_if (negb (truthy_str prompt)) (ValueError "task prompt must be non-empty") ;;
  now ← utc_now;
  _transaction (
    mission ← _mission_row mission_id;
    raise_if (bool_decide (m_status mission = M_CANCELLED))
      (TransitionError ("mission " +:+ short_id mission_id +:+
         " was cancelled; create a new mission instead of adding a task")) ;;
    next_order ← read (next_ordering mission_id);
    ordinal ← _next_ordinal mission_id;
    let task_title := if truthy_str title then title else derive_title prompt "" in
    task_id ← insert_task (new_task mission_id ordinal task_title prompt priority
      (default next_order order) acceptance Or_operator P_NONE None now);
    for_each depends_on (fun dep => _add_dependency_locked mission_id task_id dep) ;;
    task_event mission_id "task-added" [("title", JStr task_title); ("priority", JInt priority)] task_id ;;
    when (bool_decide (m_status mission = M_COMPLETED)) (
      update_mission_status mission_id M_STOPPED now ;;
      task_event mission_id "mission-reopened"
        [("from", JStr "COMPLETED"); ("to", JStr "STOPPED"); ("reason", JStr "task-added")] task_id) ;;
    mret task_id).

Definition MAX_PROPOSAL_BYTES : Z := 64 * 1024.
Definition MAX_PROPOSALS_PER_OPERATION : Z := 20.

Definition takes_no_proposals (mission : mission_row) : exn :=
  TransitionError ("mission " +:+ short_id (m_id mission) +:+ " is " +:+ lower (str (m_status mission)) +:+
    "; it takes no new proposals").

Definition propose_task (mission_id prompt source_operation_id title : string) (priority : Z)
    (depends_on : list Z) (acceptance : list string) : DB Z :=
  raise_if (negb (truthy_str (strip prompt)) || negb (truthy_str source_operation_id))
    (ValueError "proposal prompt and source operation are required") ;;
  raise_if (MAX_PROPOSAL_BYTES <? utf8_len prompt)
    (ValueError "proposal prompt is larger than 64 KiB; split it into smaller proposals") ;;
  now ← utc_now;
  _transaction (
    mission ← _mission_row mission_id;
    raise_if (is_in (m_status mission) FINISHED_MISSION_STATUSES) (takes_no_proposals mission) ;;
    source ← read (find_operation source_operation_id);
    raise_if (negb (bool_decide (o_mission <$> source = Some mission_id)))
      (TransitionError "proposal source operation must belong to the same mission") ;;
    made ← read (fun d => Z.of_nat (length
      (select (fun t => bool_decide (t_proposed_by t = Some source_operation_id)) (tasks d))));
    raise_if (MAX_PROPOSALS_PER_OPERATION <=? made)
      (TransitionError "this operation already made 20 proposals; the operator must review them first") ;;
    next_order ← read (next_ordering mission_id);
    let task_title := if truthy_str title then title else derive_title prompt "" in
    ordinal ← _next_ordinal mission_id;
    task_id ← insert_task (new_task mission_id ordinal task_title prompt priority next_order acceptance
      Or_agent_proposal P_PENDING (Some source_operation_id) now);
    for_each depends_on (fun dep => _add_dependency_locked mission_id task_id dep) ;;
    _event mission_id "task-proposed"
      [("title", JStr task_title); ("priority", JInt priority);
       ("source_operation_id", JStr source_operation_id)] (Some task_id) (Some source_operation_id) ;;
    mret task_id).

Definition decide_proposal (mission_id : string) (task_id : Z) (accept : bool) (reason : string) : DB task_dict :=
  _transaction (
    task ← _task_row task_id;
    raise_if (negb (bool_decide (t_mission task = mission_id)))
      (TransitionError ("task " +:+ show_Z (t_ordinal task) +:+ " is not a proposal of mission " +:+ short_id mission_id)) ;;
    raise_if (negb (bool_decide (t_origin task = Or_agent_proposal)) || negb (bool_decide (t_proposal task = P_PENDING)))
      (TransitionError ("task " +:+ show_Z (t_ordinal task) +:+ " is not a pending proposal")) ;;
    (if accept then
      mission ← _mission_row mission_id;
      raise_if (is_in (m_status mission) FINISHED_MISSION_STATUSES) (takes_no_proposals mission) ;;
      now ← utc_now;
      update_task task_id (fun t => set_t_updated_at now (set_t_proposal P_ACCEPTED t)) ;;
      task_event mission_id "task-proposal-accepted"
        [("source_operation_id", jopt_str (t_proposed_by task))] task_id
    else
      now ← utc_now;
      update_task task_id (fun t => set_t_updated_at now (set_t_status T_CANCELLED (set_t_proposal P_REJECTED t))) ;;
      task_event mission_id "task-proposal-rejected"
        [("source_operation_id", jopt_str (t_proposed_by task)); ("reason", JStr (stake 1000 reason))] task_id)) ;;
  get_task task_id.

Definition add_dependency (mission_id : string) (task_id depends_on : Z) : DB unit :=
  _transaction (
    _add_dependency_locked mission_id task_id depends_on ;;
    dep ← _task_row depends_on;
    task ← _task_row task_id;
    when (negb (bool_decide (t_status dep = T_COMPLETED)) && bool_decide (t_status task = T_READY)) (
      now ← utc_now;
      update_task task_id (fun t => set_t_updated_at now (set_t_status T_QUEUED t)) ;;
      task_event mission_id "task-status"
        [("from", JStr "READY"); ("to", JStr "QUEUED"); ("reason", JStr "dependency-added")] task_id) ;;
    task_event mission_id "dependency-added"
      [("depends_on", JInt depends_on); ("depends_on_ordinal", JInt (t_ordinal dep))] task_id).

Definition list_tasks (mission_id : string) (limit : option Z) (offset : Z) : DB (list task_dict) :=
  _mission_row mission_id ;;
  read (fun d =>
    _task_dicts d (limited limit (drop (Z.to_nat (Z.max 0 offset)) (sort_by list_order (mission_tasks mission_id d))))).

Definition list_proposals (mission_id status : string) (limit after_task_id : Z) : DB (list task_dict) :=
  _mission_row mission_id ;;
  let normalized := upper status in
  raise_if (negb (bool_decide (normalized ∈ ["PENDING"; "ACCEPTED"; "REJECTED"; "ALL"]%string)))
    (ValueError "proposal status must be PENDING, ACCEPTED, REJECTED, or ALL") ;;
  let bounded_limit := Z.max 1 (Z.min 500 limit) in
  read (fun d => _task_dicts d (take (Z.to_nat bounded_limit) (sort_by (fun a b => t_id a <=? t_id b)
    (select (fun t => bool_decide (t_mission t = mission_id) && bool_decide (t_origin t = Or_agent_proposal) &&
                      (after_task_id <? t_id t) &&
                      (bool_decide (normalized = "ALL"%string) ||
                       bool_decide (ProposalStatus_str (t_proposal t) = normalized))) (tasks d))))).

(** The WHERE clause shared by both queries of [ready_tasks]. *)
Definition runnable (mission_id : string) (d : database) (t : task_row) : bool :=
  bool_decide (t_mission t = mission_id) && effective t && dependencies_complete d (t_id t).

Definition ready_tasks (mission_id : string) (limit : option Z) : DB (list task_dict) :=
  _transaction (
    _mission_row mission_id ;;
    ready ← read (fun d => select (fun t => bool_decide (t_status t = T_QUEUED) && runnable mission_id d t) (tasks d));
    for_each ready (fun row =>
      now ← utc_now;
      update_task (t_id row) (fun t => set_t_updated_at now (set_t_status T_READY t)) ;;
      task_event mission_id "task-ready" [("from", JStr "QUEUED"); ("to", JStr "READY")] (t_id row)) ;;
    read (fun d => _task_dicts d (limited limit (sort_by queue_order
      (select (fun t => bool_decide (t_status t = T_READY) && runnable mission_id d t) (tasks d)))))).

(** ** Amendments *)

(** The SET list built from the pending fields. *)
Definition amend_columns (c : changes) (t : task_row) : task_row :=
  let t := match ch_prompt c with Some p => set_t_prompt p t | None => t end in
  let t := match ch_title c with Some s => set_t_title s t | None => t end in
  let t := match ch_priority c with Some p => set_t_priority p t | None => t end in
  match ch_acceptance c with Some a => set_t_acceptance a t | None => t end.

Definition _apply_pending_amendment (task : task_row) (pending : changes) (event_data : dict)
    (reset_to_ready require_fields : bool) : DB unit :=
  let task_id := t_id task in
  if require_fields && negb (has_changes pending) then mret tt else
  now ← utc_now;
  update_task task_id (fun t =>
    let t := set_t_pending no_changes (amend_columns pending t) in
    let t := if reset_to_ready then set_t_status T_READY (set_t_evidence [] t) else t in
    set_t_updated_at now t) ;;
  applied ← utc_now;
  update_amendments (fun a => (a_task a =? task_id) && negb (a_applied a))
    (fun a => set_a_applied_at (Some applied) (set_a_applied true a)) ;;
  task_event (t_mission task) "task-amendment-applied" event_data task_id.

(** [pending[key] = value] for every argument that is not [None]. *)
Definition merge_changes (pending args : changes) : changes :=
  Changes (match ch_prompt args with Some p => Some p | None => ch_prompt pending end)
          (match ch_title args with Some p => Some p | None => ch_title pending end)
          (match ch_priority args with Some p => Some p | None => ch_priority pending end)
          (match ch_acceptance args with Some p => Some p | None => ch_acceptance pending end).

Definition amend_task (task_id : Z) (args : changes) : DB Z :=
  _transaction (
    task ← _task_row task_id;
    raise_if (is_in (t_status task) [T_COMPLETED; T_FAILED; T_CANCELLED])
      (TransitionError ("task " +:+ show_Z (t_ordinal task) +:+ " is " +:+ lower (str (t_status task)) +:+ " and cannot be amended")) ;;
    let pending := merge_changes (t_pending task) args in
    let revision := t_revision task + 1 in
    now ← utc_now;
    update_task task_id (fun t => set_t_updated_at now (set_t_revision revision (set_t_pending pending t))) ;;
    created ← utc_now;
    insert_amendment task_id revision pending created ;;
    running ← read (fun d => existsb (active_op_of task_id) (operations d));
    when (negb (bool_decide (t_status task = T_VERIFYING)) && negb running)
      (_apply_pending_amendment task pending
         [("revision", JInt revision); ("reason", JStr "no-active-step")] false true) ;;
    when (bool_decide (t_status task = T_VERIFYING))
      (_apply_pending_amendment task pending
         [("revision", JInt revision); ("reason", JStr "after-verification-result")] true false) ;;
    task_event (t_mission task) "task-amended"
      [("revision", JInt revision); ("fields", JList (JStr <$> changed_fields pending))] task_id ;;
    mret revision).

Definition set_task_priority (task_id priority : Z) : DB unit :=
  _transaction (
    task ← _task_row task_id;
    raise_if (is_in (t_status task) FINISHED_TASK_STATUSES)
      (TransitionError ("task " +:+ show_Z (t_ordinal task) +:+ " is " +:+ lower (str (t_status task)) +:+ " and cannot be reprioritized")) ;;
    now ← utc_now;
    update_task task_id (fun t => set_t_updated_at now (set_t_priority priority t)) ;;
    task_event (t_mission task) "task-priority" [("priority", JInt priority)] task_id).

Definition reorder_task (task_id ordering : Z) : DB unit :=
  _transaction (
    task ← _task_row task_id;
    raise_if (is_in (t_status task) FINISHED_TASK_STATUSES)
      (TransitionError ("task " +:+ show_Z (t_ordinal task) +:+ " is " +:+ lower (str (t_status task)) +:+ " and cannot be reordered")) ;;
    now ← utc_now;
    update_task task_id (fun t => set_t_updated_at now (set_t_ordering ordering t)) ;;
    task_event (t_mission task) "task-reordered" [("ordering", JInt ordering)] task_id).

Definition begin_iteration (task_id : Z) : DB task_dict :=
  _transaction (
    task ← _task_row task_id;
    let pending := t_pending task in
    when (has_changes pending)
      (_apply_pending_amendment task pending [("revision", JInt (t_revision task))] false false) ;;
    get_task task_id).

Definition set_task_status (task_id : Z) (status : string) : DB task_dict :=
  match of_string (upper status) with
  | None => raise (ValueError ("invalid task status: " +:+ upper status))
  | Some status =>
      _transaction (
        task ← _task_row task_id;
        let old := t_status task in
        raise_if (negb (bool_decide (status = old)) && negb (is_in status (TASK_TRANSITIONS old)))
          (TransitionError ("task " +:+ show_Z (t_ordinal task) +:+ " is " +:+ lower (str old) +:+ " and cannot become " +:+ lower (str status))) ;;
        complete ← _dependencies_complete task_id;
        raise_if (bool_decide (status = T_READY) && negb complete)
          (TransitionError "task dependency is incomplete and prevents readiness") ;;
        now ← utc_now;
        update_task task_id (fun t => set_t_updated_at now (set_t_status status t)) ;;
        task_event (t_mission task) "task-status" [("from", JStr (str old)); ("to", JStr (str status))] task_id) ;;
      get_task task_id
  end.
End store.
