(* ===== verification/StoreOps.v ===== *)
(** * Commands, operations and managed processes ([bridge_store.py])

    The command queue, the life of a provider operation from its intent to its
    committed exit, the recovery paths, and the verifier processes. *)

From S2P Require Import Prelude Py Vocab States StoreData StoreTasks.
From Stdlib Require Import Ascii.
From stdpp Require Import options.
Local Open Scope Z_scope.

(** [[A-Za-z0-9_.-]+], matched in full. *)
Definition id_char (c : ascii) : bool :=
  is_alnum c || (code c =? 95) || (code c =? 46) || (code c =? 45).
Definition id_pattern (s : string) : bool := truthy_str s && sforall id_char s.

(** The last row of a selection, as in [ORDER BY rowid DESC LIMIT 1]. *)
Definition latest {A} (p : A -> bool) (l : list A) : option A := last (select p l).

(** [json_extract(data_json,'$.failure.class')='capacity'] *)
Definition capacity_diagnosis (o : operation_row) (e : event_row) : bool :=
  bool_decide (e_mission e = o_mission o) && bool_decide (e_kind e = "provider-result-diagnosed"%string) &&
  bool_decide (jget "operation_id" (e_data e) = Some (JStr (o_id o))) &&
  bool_decide ((jget "failure" (e_data e) ≫= jget "class") = Some (JStr "capacity")).

(** The failures that use up the retry budget of a task. *)
Definition counted_failure (d : database) (task_id : Z) (o : operation_row) : bool :=
  (o_task o =? task_id) && bool_decide (o_status o = O_EXITED) &&
  match o_exit_code o with
  | None => false
  | Some c => negb (c =? 0) && negb (c =? OPERATOR_DECLINED_EXIT_CODE)
  end &&
  negb (existsb (capacity_diagnosis o) (events d)).

Definition declined_operation (mission_id : string) (task_id : Z) (d : database) : option operation_row :=
  match latest (fun o => bool_decide (o_mission o = mission_id) && (o_task o =? task_id)) (operations d) with
  | Some o => if bool_decide (o_exit_code o = Some OPERATOR_DECLINED_EXIT_CODE) then Some o else None
  | None => None
  end.

Definition SESSION_STATES : list string :=
  ["RESTORING"; "NATIVE_CREATED"; "RESTORED_NATIVE"; "RECONSTRUCTED"; "UNAVAILABLE"].
Definition CONFIRMED_SESSION_STATES : list string := ["NATIVE_CREATED"; "RESTORED_NATIVE"].
Definition RESULT_PROCESS_STATUSES : list ProcessStatus := [MP_EXITED; MP_TERMINATED; MP_FAILED; MP_UNCERTAIN].
Definition OPEN_PROCESS_STATUSES : list ProcessStatus := [MP_STARTING; MP_RUNNING].

Section store.
Context `{Oracle} `{SE : SqlErrors}.

(** ** Commands *)

Definition get_command (command_id : string) : DB command_row :=
  o ← read (find_command command_id);
  or_raise o (KeyError ("unknown command: " +:+ command_id)).

Definition enqueue_command (mission_id : string) (payload : dict) (command_id : option string) : DB command_row :=
  cid ← match command_id ≫= opt_str with Some i => mret i | None => uuid4_hex end;
  raise_if (negb (id_pattern cid)) (ValueError "invalid command id") ;;
  now ← utc_now;
  _transaction (
    _mission_row mission_id ;;
    prior ← read (find_command cid);
    match prior with
    | Some prior =>
        raise_if (negb (bool_decide (c_mission prior = mission_id)) ||
                  negb (json_text_eqb (c_payload prior) (JObj payload)))
          (TransitionError "command id was already used for a different request")
    | None =>
        insert_command (Command cid mission_id (JObj payload) C_QUEUED None now now) ;;
        mission_event mission_id "command-queued"
          [("command_id", JStr cid); ("command", default (JStr "unknown") (dget "action" payload))]
    end) ;;
  get_command cid.

Definition pending_commands (mission_id : string) : DB (list command_row) :=
  _mission_row mission_id ;;
  read (fun d => select (fun c => bool_decide (c_mission c = mission_id) && bool_decide (c_status c = C_QUEUED)) (commands d)).

Definition command_result_status (s : string) : option CommandStatus :=
  lookup_member CommandStatus_str [C_APPLIED; C_REJECTED; C_FAILED] s.

Definition finish_command (command_id status : string) (result : dict) : DB command_row :=
  match command_result_status (upper status) with
  | None => raise (ValueError "command status must be APPLIED, REJECTED, or FAILED")
  | Some s =>
      _transaction (
        row ← get_command command_id;
        when (bool_decide (c_status row = C_QUEUED)) (
          now ← utc_now;
          update_command command_id (fun c => set_c_updated_at now (set_c_result (Some (JObj result)) (set_c_status s c))) ;;
          mission_event (c_mission row) ("command-" +:+ lower (CommandStatus_str s))
            [("command_id", JStr command_id); ("result", JObj result)])) ;;
      get_command command_id
  end.

(** ** Operations *)

Definition op_event (op : operation_row) (kind : string) (data : dict) : DB unit :=
  _event (o_mission op) kind data (Some (o_task op)) (Some (o_id op)).

Definition begin_operation (task_id iteration : Z) (station : string) : DB string :=
  raise_if ((iteration <? 1) || negb (truthy_str station))
    (ValueError "iteration must be positive and station must be non-empty") ;;
  _transaction (
    task ← _task_row task_id;
    mission ← _mission_row (t_mission task);
    raise_if (negb (bool_decide (m_status mission = M_RUNNING)))
      (TransitionError "mission is not running; refusing a new operation intent") ;;
    raise_if (negb (is_in (t_status task) [T_QUEUED; T_READY; T_RUNNING]))
      (TransitionError ("task is not runnable: " +:+ str (t_status task))) ;;
    raise_if (bool_decide (t_origin task = Or_agent_proposal) && negb (bool_decide (t_proposal task = P_ACCEPTED)))
      (TransitionError "agent proposal requires operator acceptance before scheduling") ;;
    existing_op ← read (fun d => first (active_op_of task_id) (operations d));
    match existing_op with
    | Some o => raise (TransitionError ("task already has unresolved operation " +:+ o_id o))
    | None =>
        complete ← _dependencies_complete task_id;
        raise_if (negb complete) (TransitionError "task dependency is incomplete") ;;
        when (has_changes (t_pending task))
          (_apply_pending_amendment task (t_pending task) [("revision", JInt (t_revision task))] false false) ;;
        op_id ← uuid4_hex;
        now ← utc_now;
        update_task task_id (fun t => set_t_updated_at now (set_t_status T_RUNNING t)) ;;
        insert_operation (Operation op_id (t_mission task) task_id iteration station None None None None None
          O_PREPARED None None None "unknown" now now) ;;
        _event (t_mission task) "operation-prepared"
          [("iteration", JInt iteration); ("station", JStr station)] (Some task_id) (Some op_id) ;;
        mret op_id
    end).

Definition mark_operation_running (operation_id pane_id : string) (process_pid : option Z)
    (process_start route_id model : string) : DB unit :=
  _transaction (
    op ← _operation_row operation_id;
    raise_if (negb (bool_decide (o_status op = O_PREPARED)))
      (TransitionError ("operation cannot start from " +:+ str (o_status op))) ;;
    mission ← _mission_row (o_mission op);
    task ← _task_row (o_task op);
    raise_if (negb (bool_decide (m_status mission = M_RUNNING)) || negb (bool_decide (t_status task = T_RUNNING)))
      (TransitionError "operator state change won before provider launch") ;;
    now ← utc_now;
    update_operation operation_id (fun o =>
      set_o_updated_at now (set_o_model (opt_str model) (set_o_route_id (opt_str route_id)
        (set_o_process_start (opt_str process_start) (set_o_process_pid process_pid
          (set_o_pane_id (opt_str pane_id) (set_o_status O_RUNNING o))))))) ;;
    op_event op "operation-running"
      [("pane_id", JStr pane_id); ("process_pid", jopt_int process_pid);
       ("route_id", JStr route_id); ("model", JStr model)]).

Definition abort_prepared_operation (operation_id reason : string) : DB task_dict :=
  op ← _transaction (
    op ← _operation_row operation_id;
    raise_if (negb (bool_decide (o_status op = O_PREPARED)))
      (TransitionError ("only a prepared operation can be aborted before launch: " +:+ str (o_status op))) ;;
    mission ← _mission_row (o_mission op);
    task ← _task_row (o_task op);
    target ← (if is_in (t_status task) [T_PAUSED; T_CANCELLED] then mret (t_status task)
              else if is_in (m_status mission) HALTED_MISSION_STATUSES then mret T_READY
              else if bool_decide (m_status mission = M_CANCELLED) then mret T_CANCELLED
              else raise (TransitionError "prepared operation is still eligible to launch"));
    now ← utc_now;
    update_operation operation_id (fun o =>
      set_o_updated_at now (set_o_exit_code (Some 143) (set_o_status O_EXITED o))) ;;
    update_task (t_id task) (fun t => set_t_updated_at now (set_t_status target t)) ;;
    op_event op "operation-aborted-before-launch"
      [("reason", JStr reason); ("exit_code", JInt 143); ("provider_started", JBool false);
       ("task_status", JStr (str target))] ;;
    mret op);
  get_task (o_task op).

Definition record_operation_process (operation_id : string) (process_pid : Z) (process_start : string) : DB unit :=
  raise_if ((process_pid <? 1) || negb (truthy_str process_start))
    (ValueError "process identity requires a positive pid and start token") ;;
  _transaction (
    op ← _operation_row operation_id;
    raise_if (negb (bool_decide (o_status op = O_RUNNING)))
      (TransitionError ("operation is not running: " +:+ str (o_status op))) ;;
    now ← utc_now;
    update_operation operation_id (fun o =>
      set_o_updated_at now (set_o_process_start (Some process_start) (set_o_process_pid (Some process_pid) o))) ;;
    op_event op "operation-process" [("process_pid", JInt process_pid); ("process_start", JStr process_start)]).

Definition record_operation_session (operation_id restoration_state provider : string)
    (session_id cwd source : option string) : DB unit :=
  raise_if (negb (bool_decide (restoration_state ∈ SESSION_STATES)))
    (ValueError "unknown native session restoration state") ;;
  let identity := match session_id ≫= opt_str, cwd ≫= opt_str, source ≫= opt_str with
                  | Some s, Some c, Some r => Some (s, c, r)
                  | _, _, _ => None
                  end in
  let confirmed := bool_decide (restoration_state ∈ CONFIRMED_SESSION_STATES) in
  raise_if (confirmed && bool_decide (identity = None))
    (ValueError "native session state requires a confirmed session identity") ;;
  _transaction (
    op ← _operation_row operation_id;
    mission ← _mission_row (o_mission op);
    let config := m_config mission in
    let sessions := match dget "native_sessions" config with Some (JObj s) => s | _ => [] end in
    let config' :=
      if confirmed then
        dset "native_sessions" (JObj (dset provider (JObj
          [("owned_by_bridge", JBool true); ("provider", JStr provider); ("session_id", jopt_str session_id);
           ("cwd", jopt_str cwd); ("source", jopt_str source)]) sessions)) config
      else config in
    now ← utc_now;
    update_mission (o_mission op) (fun m => set_m_updated_at now (set_m_config config' m)) ;;
    now' ← utc_now;
    update_operation operation_id (fun o =>
      set_o_updated_at now' (set_o_restoration_state restoration_state
        (set_o_native_session_id ((fun i => i.1.1) <$> identity) o))) ;;
    op_event op "native-session-restoration"
      [("provider", JStr provider); ("session_id", jopt_str ((fun i => i.1.1) <$> identity));
       ("restoration_state", JStr restoration_state);
       ("cwd", jopt_str ((fun i => i.1.2) <$> identity)); ("source", jopt_str (snd <$> identity))]).

Definition get_operation (operation_id : string) : DB operation_row := _operation_row operation_id.

(** The task status after the provider's exit, before the operator's own
    request (pause or cancel) is taken into account. *)
Definition exit_status (exit_code : Z) (pending : changes) (mission : mission_row) : TaskStatus :=
  if exit_code =? 0 then (if has_changes pending then T_READY else T_VERIFYING)
  else if (exit_code =? 75) || (exit_code =? OPERATOR_DECLINED_EXIT_CODE) then T_BLOCKED
  else if (exit_code =? 143) && is_in (m_status mission) HALTED_MISSION_STATUSES then T_READY
  else T_FAILED.
Definition boundary_status (requested : TaskStatus) : option TaskStatus :=
  match requested with T_CANCELLED => Some T_CANCELLED | T_PAUSED => Some T_PAUSED | _ => None end.

Definition finish_operation (operation_id : string) (exit_code : Z) (logs_path : option string) : DB task_dict :=
  op ← _transaction (
    op ← _operation_row operation_id;
    raise_if (negb (active_op op))
      (TransitionError ("operation already resolved: " +:+ str (o_status op))) ;;
    task ← _task_row (o_task op);
    mission ← _mission_row (o_mission op);
    let pending := t_pending task in
    when ((exit_code =? 0) && has_changes pending)
      (_apply_pending_amendment task pending
         [("revision", JInt (t_revision task)); ("before_verification", JBool true)] true false) ;;
    let status := default (exit_status exit_code pending mission) (boundary_status (t_status task)) in
    now ← utc_now;
    update_operation operation_id (fun o =>
      set_o_updated_at now (set_o_logs_path logs_path (set_o_exit_code (Some exit_code) (set_o_status O_EXITED o)))) ;;
    update_task (t_id task) (fun t => set_t_updated_at now (set_t_status status t)) ;;
    op_event op "operation-exited"
      [("exit_code", JInt exit_code); ("task_status", JStr (str status)); ("logs_path", jopt_str logs_path);
       ("provider_started", JBool (negb ((exit_code =? 143) || (exit_code =? 78))))] ;;
    mret op);
  get_task (o_task op).

Definition reconcile_interrupted_operations (mission_id : string) : DB Z :=
  _transaction (
    _mission_row mission_id ;;
    rows ← read (fun d => select (fun o => bool_decide (o_mission o = mission_id) && active_op o) (operations d));
    for_fold rows (fun count op =>
      task ← _task_row (o_task op);
      now ← utc_now;
      update_operation (o_id op) (fun o => set_o_updated_at now (set_o_status O_UNCERTAIN o)) ;;
      update_task (t_id task) (fun t => set_t_updated_at now (set_t_status T_BLOCKED t)) ;;
      _event mission_id "operation-uncertain"
        [("reason", JStr "operation outcome was not committed before controller exit")]
        (Some (t_id task)) (Some (o_id op)) ;;
      mret (count + 1)) 0).

Definition release_declined_tasks (mission_id : string) : DB (list Z) :=
  _transaction (
    _mission_row mission_id ;;
    rows ← read (fun d => select (fun t => bool_decide (t_mission t = mission_id) &&
                                           bool_decide (t_status t = T_BLOCKED)) (tasks d));
    for_fold rows (fun released task =>
      operation ← read (declined_operation mission_id (t_id task));
      match operation with
      | None => mret released
      | Some operation =>
          now ← utc_now;
          update_task (t_id task) (fun t => set_t_updated_at now (set_t_status T_READY t)) ;;
          _event mission_id "task-declined-released"
            [("operation_id", JStr (o_id operation)); ("from", JStr "BLOCKED"); ("to", JStr "READY")]
            (Some (t_id task)) (Some (o_id operation)) ;;
          mret (released ++ [t_ordinal task])
      end) []).

Definition continue_task_after_provider_failure (operation_id : string) (max_failures : Z) : DB (option task_dict) :=
  raise_if (max_failures <? 1) (ValueError "max_failures must be positive") ;;
  handed ← _transaction (
    op ← _operation_row operation_id;
    let exit_code := o_exit_code op in
    if negb (bool_decide (o_status op = O_EXITED)) ||
       bool_decide (exit_code ∈ [None; Some 0; Some OPERATOR_DECLINED_EXIT_CODE])
    then mret None else
    task ← _task_row (o_task op);
    mission ← _mission_row (o_mission op);
    if negb (bool_decide (m_status mission = M_RUNNING)) || negb (is_in (t_status task) [T_BLOCKED; T_FAILED])
    then mret None else
    complete ← _dependencies_complete (t_id task);
    if has_changes (t_pending task) || negb complete then mret None else
    failures ← read (fun d => Z.of_nat (length (select (counted_failure d (t_id task)) (operations d))));
    if max_failures <? failures then
      op_event op "provider-handoff-exhausted"
        [("operation_id", JStr operation_id); ("failures", JInt failures); ("max_failures", JInt max_failures)] ;;
      mret None
    else
      now ← utc_now;
      update_task (t_id task) (fun t => set_t_updated_at now (set_t_status T_READY t)) ;;
      op_event op "provider-handoff"
        [("operation_id", JStr operation_id); ("exit_code", jopt_int exit_code); ("failure_count", JInt failures);
         ("max_failures", JInt max_failures); ("from", JStr (str (t_status task))); ("to", JStr "READY")] ;;
      mret (Some (o_task op)));
  match handed with
  | None => mret None
  | Some task_id => t ← get_task task_id; mret (Some t)
  end.

(** ** Managed processes *)

Definition prepare_managed_process (mission_id : string) (task_id : Z) (kind : string) : DB string :=
  raise_if (negb (bool_decide (kind = "verifier"%string))) (ValueError "unsupported managed process kind") ;;
  process_id ← uuid4_hex;
  _transaction (
    mission ← _mission_row mission_id;
    task ← _task_row task_id;
    raise_if (negb (bool_decide (t_mission task = mission_id)))
      (TransitionError "managed process task belongs to another mission") ;;
    raise_if (negb (bool_decide (m_status mission = M_RUNNING)) || negb (bool_decide (t_status task = T_VERIFYING)))
      (TransitionError "verifier process requires a running mission and verifying task") ;;
    now ← utc_now;
    insert_process (Process process_id mission_id task_id kind None None MP_STARTING None now now) ;;
    task_event mission_id "managed-process-prepared" [("process_id", JStr process_id); ("kind", JStr kind)] task_id) ;;
  mret process_id.

Definition get_managed_process (process_id : string) : DB process_row := _managed_process_row process_id.

Definition mark_managed_process_running (process_id : string) (process_pid : Z) (process_start : string) : DB process_row :=
  raise_if ((process_pid <? 2) || negb (truthy_str process_start))
    (ValueError "managed process requires a valid pid and start token") ;;
  _transaction (
    row ← _managed_process_row process_id;
    raise_if (negb (bool_decide (p_status row = MP_STARTING)))
      (TransitionError ("managed process is not starting: " +:+ ProcessStatus_str (p_status row))) ;;
    now ← utc_now;
    update_process process_id (fun p =>
      set_p_updated_at now (set_p_status MP_RUNNING (set_p_process_start (Some process_start)
        (set_p_process_pid (Some process_pid) p)))) ;;
    task_event (p_mission row) "managed-process-started"
      [("process_id", JStr process_id); ("kind", JStr (p_kind row)); ("process_pid", JInt process_pid)] (p_task row)) ;;
  get_managed_process process_id.

Definition finish_managed_process (process_id : string) (exit_code : option Z) (status : string) : DB process_row :=
  match lookup_member ProcessStatus_str RESULT_PROCESS_STATUSES status with
  | None => raise (ValueError "invalid managed process result status")
  | Some s =>
      _transaction (
        row ← _managed_process_row process_id;
        if negb (bool_decide (p_status row ∈ OPEN_PROCESS_STATUSES)) then
          raise_if (negb (bool_decide (p_status row = s) && bool_decide (p_exit_code row = exit_code)))
            (TransitionError ("managed process is already resolved: " +:+ ProcessStatus_str (p_status row)))
        else
          now ← utc_now;
          update_process process_id (fun p =>
            set_p_updated_at now (set_p_exit_code exit_code (set_p_status s p))) ;;
          task_event (p_mission row) "managed-process-exited"
            [("process_id", JStr process_id); ("kind", JStr (p_kind row));
             ("status", JStr (ProcessStatus_str s)); ("exit_code", jopt_int exit_code)] (p_task row)) ;;
      get_managed_process process_id
  end.

Definition unresolved_managed_processes (mission_id : string) : DB (list process_row) :=
  _mission_row mission_id ;;
  read (fun d => sort_by (fun a b => (p_created_at a <? p_created_at b) ||
                                     ((p_created_at a =? p_created_at b) && str_leb (p_id a) (p_id b)))
    (select (fun p => bool_decide (p_mission p = mission_id) && bool_decide (p_status p ∈ OPEN_PROCESS_STATUSES))
       (managed_processes d))).
End store.
