(* ===== verification/StoreReview.v ===== *)
(** * Verification, rejection and the review hold ([bridge_store.py])

    A task completes only here.  The review hold is derived from the tasks and
    the event log; [sync_review_hold_events] records its start and end. *)

From S2P Require Import Prelude Py Vocab States StoreData StoreTasks StoreOps.
From stdpp Require Import options.
Local Open Scope Z_scope.

Definition REJECTION_REASON_LIMIT : Z := 2000.

(** The current hold, as [review_hold] returns it. *)
Record hold : Type := Hold {
  h_task_ordinal : Z;
  h_task_id : Z;
  h_tasks : list Z;
  h_since : option Z;
  h_marker : Z;
}.
#[export] Instance hold_eq_dec : EqDecision hold.
Proof. solve_decision. Defined.

Definition auto_continue_default (config : dict) : bool :=
  match dget "auto_continue" config with
  | Some v => truthy v
  | None => negb (truthy_opt (dget "native_tui" config)) || truthy_opt (dget "headless" config)
  end.

(** The event that moved a task into VERIFYING, and the marker it gives. *)
Definition enters_verifying (task_id : Z) (e : event_row) : bool :=
  bool_decide (e_task e = Some task_id) && bool_decide (e_kind e = "operation-exited"%string) &&
  bool_decide (jget "task_status" (e_data e) = Some (JStr "VERIFYING")).
Definition _verifying_marker (task_id : Z) (d : database) : Z * option Z :=
  match latest (enters_verifying task_id) (events d) with
  | Some e => (e_id e, Some (e_created_at e))
  | None => (0, t_updated_at <$> find_task task_id d)
  end.

(** [{int(v) for v in config.get("released_reviews", []) if isinstance(v, int)}] *)
Definition int_value (j : json) : option Z :=
  match j with JInt z => Some z | JBool b => Some (if b then 1 else 0) | _ => None end.
Definition _released_markers (config : dict) : list Z :=
  match dget "released_reviews" config with Some (JList l) => remove_dups (omap int_value l) | _ => [] end.

Definition verifying_tasks (mission_id : string) (d : database) : list task_row :=
  sort_by (fun a b => t_ordinal a <=? t_ordinal b)
    (select (fun t => bool_decide (t_status t = T_VERIFYING) && effective t) (mission_tasks mission_id d)).

Definition review_hold_of (mission : mission_row) (d : database) : option hold :=
  let mission_id := m_id mission in
  let config := m_config mission in
  if auto_continue_default config || is_in (m_status mission) ENDED_MISSION_STATUSES then None else
  if existsb (fun t => bool_decide (t_status t = T_RUNNING) && effective t) (mission_tasks mission_id d) then None else
  let released := _released_markers config in
  let waiting := select (fun w => negb (bool_decide (w.2.1 ∈ released)))
    ((fun t => (t, _verifying_marker (t_id t) d)) <$> verifying_tasks mission_id d) in
  match waiting with
  | [] => None
  | (t, (marker, since)) :: _ =>
      if existsb (fun t => is_in (t_status t) [T_QUEUED; T_READY] && runnable mission_id d t) (tasks d)
      then Some (Hold (t_ordinal t) (t_id t) ((fun w => t_ordinal w.1) <$> waiting) since marker)
      else None
  end.
Definition review_hold (mission_id : string) : DB (option hold) :=
  mission ← _mission_row mission_id;
  read (review_hold_of mission).

(** [markers[-200:]] *)
Definition last_n {A} (n : nat) (l : list A) : list A := drop (length l - n) l.

Definition hold_kinds : list string := ["review-hold"; "review-hold-released"]%string.
Definition last_hold_event (mission_id : string) (d : database) : option event_row :=
  latest (fun e => bool_decide (e_mission e = mission_id) && bool_decide (e_kind e ∈ hold_kinds)) (events d).

(** The hold the event log says is open: its task and its marker. *)
Definition open_hold (mission_id : string) (d : database) : option (Z * Z) :=
  match last_hold_event mission_id d with
  | Some e =>
      if bool_decide (e_kind e = "review-hold"%string) then
        (fun t => (t, match jget "marker" (e_data e) with Some (JInt m) => m | _ => 0 end)) <$> e_task e
      else None
  | None => None
  end.

Record release_result : Type := ReleaseResult {
  rr_released : list Z;
  rr_noop : bool;
  rr_detail : string;
}.

Section store.
Context `{Oracle} `{SE : SqlErrors}.

Definition verify_task (task_id : Z) (evidence : string) (approved : bool) (source : string)
    (metadata : dict) (record_only : bool) : DB task_dict :=
  raise_if (negb (truthy_str (strip evidence)) && negb approved)
    (TransitionError "completion requires verification evidence or explicit operator approval") ;;
  raise_if (negb (bool_decide (source ∈ ["operator"; "verifier"]%string)))
    (ValueError "verification evidence source must be operator or verifier") ;;
  let completes := approved || negb record_only in
  _transaction (
    task ← _task_row task_id;
    raise_if (negb (bool_decide (t_status task = T_VERIFYING)))
      (TransitionError ("task " +:+ show_Z (t_ordinal task) +:+ " is " +:+ lower (str (t_status task)) +:+ ", not awaiting verification")) ;;
    raise_if (has_changes (t_pending task))
      (TransitionError ("task " +:+ show_Z (t_ordinal task) +:+
         " has an amendment that has not been applied yet and cannot be verified")) ;;
    complete ← _dependencies_complete task_id;
    raise_if (negb complete)
      (TransitionError ("task " +:+ show_Z (t_ordinal task) +:+
         " has a dependency that is not complete yet and cannot be verified")) ;;
    noted ← (if truthy_str (strip evidence) then
               at_ ← utc_now;
               mret [JObj (dupdate [("text", JStr evidence); ("at", JInt at_); ("source", JStr source);
                                    ("revision", JInt (t_revision task))] metadata)]
             else mret []);
    approval ← (if approved then
                  at_ ← utc_now;
                  mret [JObj [("text", JStr "operator approved"); ("at", JInt at_); ("source", JStr "approval");
                              ("revision", JInt (t_revision task))]]
                else mret []);
    let all_evidence := t_evidence task ++ noted ++ approval in
    let evidence_count := JInt (Z.of_nat (length all_evidence)) in
    now ← utc_now;
    if completes then
      update_task task_id (fun t => set_t_updated_at now (set_t_evidence all_evidence (set_t_status T_COMPLETED t))) ;;
      task_event (t_mission task) "task-verified"
        [("evidence_count", evidence_count); ("approved", JBool approved)] task_id
    else
      update_task task_id (fun t => set_t_updated_at now (set_t_evidence all_evidence t)) ;;
      task_event (t_mission task) "task-evidence-recorded" [("evidence_count", evidence_count)] task_id) ;;
  get_task task_id.

Definition reject_task (task_id : Z) (reason origin : string) : DB task_dict :=
  let text := strip reason in
  raise_if (negb (truthy_str text)) (ValueError "a rejection reason is required") ;;
  raise_if (REJECTION_REASON_LIMIT <? slen text)
    (ValueError "rejection reason must be at most 2000 characters") ;;
  _transaction (
    task ← _task_row task_id;
    raise_if (negb (bool_decide (t_status task = T_VERIFYING)))
      (TransitionError ("task " +:+ show_Z (t_ordinal task) +:+ " is " +:+ lower (str (t_status task)) +:+ ", not awaiting verification")) ;;
    set_task_status task_id "FAILED" ;;
    task_event (t_mission task) "task-rejected"
      [("reason", JStr text); ("origin", JStr origin); ("revision", JInt (t_revision task))] task_id ;;
    set_task_status task_id "QUEUED") ;;
  get_task task_id.

Definition latest_rejection_reason (mission_id : string) (task_id : Z) (d : database) : string :=
  match latest (fun e => bool_decide (e_mission e = mission_id) && bool_decide (e_kind e = "task-rejected"%string) &&
                         bool_decide (e_task e = Some task_id)) (events d) with
  | Some e => match jget "reason" (e_data e) with Some (JStr s) => s | _ => EmptyString end
  | None => EmptyString
  end.

Definition record_verification_attempt (task_id : Z) (result : dict) : DB unit :=
  _transaction (
    task ← _task_row task_id;
    raise_if (negb (bool_decide (t_status task = T_VERIFYING)))
      (TransitionError ("task is not awaiting verification: " +:+ str (t_status task))) ;;
    task_event (t_mission task) "verification-failed" result task_id).

Definition _record_hold_release (mission_id : string) (task_id marker : Z) : DB unit :=
  task ← _task_row task_id;
  let n := show_Z (t_ordinal task) in
  let status := t_status task in
  same_round ← read (fun d => (_verifying_marker task_id d).1 =? marker);
  mission ← get_mission mission_id;
  let '(how, text) :=
    if bool_decide (status = T_VERIFYING) && same_round then
      let '(how, text) :=
        if bool_decide (marker ∈ _released_markers (m_config mission)) then ("continue", "continuing")
        else ("auto-continue", "auto-continue is on") in
      (how, "task " +:+ n +:+ " still awaits approval; " +:+ text +:+ " and the next task may start")
    else if bool_decide (status = T_COMPLETED) then ("approved", "task " +:+ n +:+ " approved")
    else if is_in status [T_VERIFYING; T_QUEUED; T_READY; T_FAILED]
    then ("rejected", "task " +:+ n +:+ " sent back for another attempt")
    else (lower (str status), "task " +:+ n +:+ " is " +:+ lower (str status)) in
  task_event mission_id "review-hold-released"
    [("task_ordinal", JInt (t_ordinal task)); ("marker", JInt marker); ("how", JStr how);
     ("summary", JStr ("hold released · " +:+ text))] task_id.

Definition sync_review_hold_events (mission_id : string) : DB (option hold) :=
  hold ← review_hold mission_id;
  open ← read (open_hold mission_id);
  if bool_decide (open = (fun h => (h_task_id h, h_marker h)) <$> hold) then mret hold
  else
    _transaction (
      match open with
      | Some (open_task, open_marker) => _record_hold_release mission_id open_task open_marker
      | None => mret tt
      end ;;
      match hold with
      | Some h =>
          task_event mission_id "review-hold"
            [("task_ordinal", JInt (h_task_ordinal h)); ("marker", JInt (h_marker h));
             ("summary", JStr ("holding before the next task · task " +:+ show_Z (h_task_ordinal h) +:+
                " awaits your review"))] (h_task_id h)
      | None => mret tt
      end) ;;
    mret hold.

Definition add_marker (d : database) (markers : list Z) (t : task_row) : list Z :=
  let marker := (_verifying_marker (t_id t) d).1 in
  if bool_decide (marker ∈ markers) then markers else markers ++ [marker].

Definition release_review_hold (mission_id : string) : DB release_result :=
  released ← _transaction (
    hold ← review_hold mission_id;
    match hold with
    | None => mret None
    | Some h =>
        mission ← get_mission mission_id;
        let config := m_config mission in
        markers ← read (fun d =>
          foldl (add_marker d) (sort_by Z.leb (_released_markers config))
            (select (fun t => bool_decide (t_status t = T_VERIFYING) && bool_decide (t_ordinal t ∈ h_tasks h))
               (mission_tasks mission_id d)));
        now ← utc_now;
        update_mission mission_id (fun m =>
          set_m_updated_at now (set_m_config
            (dset "released_reviews" (JList (JInt <$> last_n 200 markers)) config) m)) ;;
        sync_review_hold_events mission_id ;;
        mret (Some (h_tasks h))
    end);
  match released with
  | None => mret (ReleaseResult [] true "Nothing to continue · no task is holding the next one back")
  | Some ordinals =>
      let noun := match ordinals with
                  | [n] => "task " +:+ show_Z n
                  | _ => "tasks " +:+ join ", " (show_Z <$> ordinals)
                  end in
      mret (ReleaseResult ordinals false
        ("Continuing · " +:+ noun +:+ " stays awaiting approval while the next task starts"))
  end.
End store.
