(* ===== verification/StoreLog.v ===== *)
(** * The event log and mission configuration ([bridge_store.py])

    Reading the durable event log, bounding it, and the small writers that
    change a mission's configuration or detach an operation's log. *)

From S2P Require Import Prelude Py Vocab States StoreData StoreTasks StoreOps.
From stdpp Require Import options.
Local Open Scope Z_scope.

Definition HEARTBEAT_RETENTION_SECONDS : Z := 3600.
Definition CAPACITY_REFRESH_FULL_SECONDS : Z := 3600.

(** ** Queries *)

Definition event_order (a b : event_row) : bool := e_id a <=? e_id b.

Definition mission_events (mission_id kind : string) (d : database) : list event_row :=
  select (fun e => bool_decide (e_mission e = mission_id) && bool_decide (e_kind e = kind)) (events d).

Definition max_event_id (l : list event_row) : Z := coalesce_max (e_id <$> l).

Definition last_event_id (d : database) : Z := max_event_id (events d).

(** A LEFT JOIN adds the task's ordinal. *)
Definition with_ordinal (d : database) (e : event_row) : event_row * option Z :=
  (e, e_task e ≫= (fun t => t_ordinal <$> find_task t d)).

Definition events_of (mission_id : string) (after : Z) (limit : option Z) : DB (list (event_row * option Z)) :=
  _mission_row mission_id ;;
  raise_if (match limit with Some l => negb ((0 <=? l) && (l <=? 1000)) | None => false end)
    (ValueError "event page limit must be between 0 and 1000") ;;
  read (fun d => with_ordinal d <$> limited limit (sort_by event_order
    (select (fun e => bool_decide (e_mission e = mission_id) && (after <? e_id e)) (events d)))).

Definition events_since (after limit : Z) : DB (list event_row) :=
  raise_if (negb ((1 <=? limit) && (limit <=? 1000)))
    (ValueError "event page limit must be between 1 and 1000") ;;
  read (fun d => limited (Some limit) (sort_by event_order (select (fun e => after <? e_id e) (events d)))).

Definition command_exists (command_id : string) (d : database) : bool :=
  match find_command command_id d with Some _ => true | None => false end.

(** The newest row of a kind, through the kind index. *)
Definition latest_event (mission_id kind : string) (d : database) : option event_row :=
  last (sort_by event_order (mission_events mission_id kind d)).
Definition latest_event_id (mission_id : string) (kinds : list string) (d : database) : Z :=
  foldl (fun newest kind => match latest_event mission_id kind d with
                            | Some e => Z.max newest (e_id e)
                            | None => newest
                            end) 0 kinds.

Definition newest_first (a b : event_row) : bool := e_id b <=? e_id a.
Definition recent_task_history (mission_id : string) (task_id limit : Z) (d : database) : list event_row :=
  let bound := Some (Z.max 1 limit) in
  let by_task := limited bound (sort_by newest_first
    (select (fun e => bool_decide (e_task e = Some task_id) && bool_decide (e_mission e = mission_id)) (events d))) in
  let ops := o_id <$> select (fun o => o_task o =? task_id) (operations d) in
  let by_op := limited bound (sort_by newest_first
    (select (fun e => match e_operation e with Some o => bool_decide (o ∈ ops) | None => false end &&
                      bool_decide (e_mission e = mission_id) && negb (bool_decide (e_task e = Some task_id)))
       (events d))) in
  limited bound (sort_by newest_first (by_task ++ by_op)).

(** ** Pruning *)

Definition delete_events (ids : list Z) (d : database) : database :=
  set_events (select (fun e => negb (bool_decide (e_id e ∈ ids))) (events d)) d.

(** The subquery of the heartbeat DELETE. *)
Definition doomed_heartbeats (mission_id : string) (cutoff : Z) (limit : nat) (d : database) : list Z :=
  let beats := mission_events mission_id "controller-heartbeat" d in
  take limit (e_id <$> sort_by event_order
    (select (fun e => (e_created_at e <? cutoff) && (e_id e <? max_event_id beats)) beats)).

(** [substr(created_at,1,15)]: the 10-minute bucket of a UTC timestamp. *)
Definition bucket (e : event_row) : Z := e_created_at e / 600.

(** One window of old capacity refreshes, and the rows of it to delete: those
    followed by a row of the same bucket. *)
Definition capacity_window (mission_id : string) (last cutoff : Z) (limit : nat) (d : database) : list event_row :=
  take limit (sort_by event_order
    (select (fun e => (last <? e_id e) && (e_created_at e <? cutoff)) (mission_events mission_id "capacity-refresh" d))).
Fixpoint doomed_refreshes (rows : list event_row) : list Z :=
  match rows with
  | e :: ((e' :: _) as rest) =>
      if bucket e =? bucket e' then e_id e :: doomed_refreshes rest else doomed_refreshes rest
  | _ => []
  end.

Record prune_result : Type := PruneResult {
  pr_heartbeats : Z;
  pr_refreshes : Z;
  pr_complete : bool;
  pr_heartbeat_before : Z;
  pr_capacity_before : Z;
}.

Section store.
Context `{Oracle} `{SE : SqlErrors}.

(** The first [while True]; [deleted] and whether the pass got to the end. *)
Fixpoint prune_heartbeats (fuel : nat) (mission_id : string) (cutoff : Z) (chunk : nat) (deadline deleted : Z)
    : DB (Z * bool) :=
  match fuel with
  | O => mret (deleted, false)
  | S fuel' =>
      count ← _transaction (
        ids ← read (doomed_heartbeats mission_id cutoff chunk);
        write (delete_events ids) ;;
        mret (length ids));
      let deleted := deleted + Z.of_nat count in
      if (count <? chunk)%nat then mret (deleted, true)
      else
        now ← time_monotonic;
        if deadline <=? now then mret (deleted, false)
        else prune_heartbeats fuel' mission_id cutoff chunk deadline deleted
  end.

(** The second [while True], over windows of [chunk + 1] rows. *)
Fixpoint prune_refreshes (fuel : nat) (mission_id : string) (cutoff : Z) (chunk : nat)
    (deadline last_id deleted : Z) : DB (Z * bool) :=
  match fuel with
  | O => mret (deleted, false)
  | S fuel' =>
      rows ← read (capacity_window mission_id last_id cutoff (S chunk));
      let doomed := doomed_refreshes rows in
      when (negb (bool_decide (doomed = []))) (_transaction (write (delete_events doomed))) ;;
      let deleted := deleted + Z.of_nat (length doomed) in
      if (length rows <=? chunk)%nat then mret (deleted, true)
      else
        let next_id := match last rows with Some e => e_id e - 1 | None => last_id end in
        now ← time_monotonic;
        if deadline <=? now then mret (deleted, false)
        else prune_refreshes fuel' mission_id cutoff chunk deadline next_id deleted
  end.

(** [now] is the argument or the clock; [budget] the time budget, in the
    units of [monotonic].  Each loop runs at most once per event and once more. *)
Definition prune_plumbing_events (mission_id : string) (now : option Z)
    (heartbeat_keep_seconds capacity_keep_seconds : Z) (chunk : nat) (budget : Z) : DB prune_result :=
  _mission_row mission_id ;;
  moment ← match now return DB Z with Some n => mret n | None => utc_now end;
  let heartbeat_before := moment - heartbeat_keep_seconds in
  let capacity_before := moment - capacity_keep_seconds in
  start ← time_monotonic;
  let deadline := start + Z.max 0 budget in
  fuel ← read (fun d => S (length (events d)));
  beats ← prune_heartbeats fuel mission_id heartbeat_before chunk deadline 0;
  if (beats : Z * bool).2 then
    refreshes ← prune_refreshes fuel mission_id capacity_before chunk deadline 0 0;
    mret (PruneResult beats.1 refreshes.1 refreshes.2 heartbeat_before capacity_before)
  else mret (PruneResult beats.1 0 false heartbeat_before capacity_before).

(** ** Runtime events *)

Definition MAX_EVENT_BYTES : Z := 16384.
Definition payload_bytes (data : dict) : Z := utf8_len (json_dumps false float_repr (JObj data)).

Definition record_runtime_event (mission_id kind : string) (data : dict) : DB Z :=
  raise_if (negb (truthy_str kind) || (100 <? slen kind))
    (ValueError "runtime event kind must be a non-empty value up to 100 characters") ;;
  raise_if (MAX_EVENT_BYTES <? payload_bytes data) (ValueError "runtime event payload exceeds 16 KiB") ;;
  _transaction (
    _mission_row mission_id ;;
    mission_event mission_id kind data ;;
    read event_seq).

Definition record_events_pruned (mission_id : string) (r : prune_result) : DB Z :=
  let deleted := List.filter (fun kv => match kv.2 with JInt n => negb (n =? 0) | _ => true end)
    [("controller-heartbeat"%string, JInt (pr_heartbeats r)); ("capacity-refresh"%string, JInt (pr_refreshes r))] in
  now ← utc_now;
  record_runtime_event mission_id "events-pruned"
    [("deleted", JObj deleted); ("total", JInt (pr_heartbeats r + pr_refreshes r));
     ("heartbeat_before", JInt (pr_heartbeat_before r)); ("capacity_before", JInt (pr_capacity_before r));
     ("observed_at", JInt now)].

Definition refresh_runtime_event (event_id : Z) (data : dict) : DB bool :=
  raise_if (MAX_EVENT_BYTES <? payload_bytes data) (ValueError "runtime event payload exceeds 16 KiB") ;;
  _transaction (
    let hit := fun e => (e_id e =? event_id) && bool_decide (e_kind e = "capacity-refresh"%string) in
    found ← read (fun d => bool_decide (length (select hit (events d)) = 1%nat));
    now ← utc_now;
    write (fun d => set_events (update_where hit (fun e => set_e_created_at now (set_e_data (JObj data) e)) (events d)) d) ;;
    mret found).

(** ** Configuration *)

Definition reserved_config_keys : list string := ["id"; "cwd"; "objective"]%string.
Definition valid_config_key (key : string) : bool :=
  truthy_str key && negb (bool_decide (key ∈ reserved_config_keys)).
Definition store_config (mission_id : string) (config : dict) : DB unit :=
  now ← utc_now;
  update_mission mission_id (fun m => set_m_updated_at now (set_m_config config m)).

Definition set_mission_config_value (mission_id key : string) (value : json) (event_kind : string) : DB mission_row :=
  raise_if (negb (valid_config_key key)) (ValueError "invalid mutable mission config key") ;;
  _transaction (
    mission ← _mission_row mission_id;
    store_config mission_id (dset key value (m_config mission)) ;;
    mission_event mission_id event_kind [("key", JStr key); ("value", value)]) ;;
  get_mission mission_id.

Definition set_mission_config_values (mission_id : string) (values : dict) (event_kind : string) : DB mission_row :=
  raise_if (bool_decide (values = []) || negb (forallb (fun kv => valid_config_key kv.1) values))
    (ValueError "invalid mutable mission config values") ;;
  _transaction (
    mission ← _mission_row mission_id;
    let config := m_config mission in
    let changed := List.filter (fun kv => negb (py_eqb (default JNull (dget kv.1 config)) kv.2)) values in
    when (negb (bool_decide (changed = []))) (
      store_config mission_id (dupdate config changed) ;;
      mission_event mission_id event_kind [("values", JObj changed)])) ;;
  get_mission mission_id.

(** [str(value or "")] and [str(config.get(k, ""))] of a stored rotation. *)
Definition str_or_empty (v : option json) : string := match v with Some (JStr s) => s | _ => EmptyString end.

Record rotation_change : Type := RotationChange {
  rc_changed : bool;
  rc_from : string;
  rc_to : string;
  rc_mission : mission_row;
}.

Definition set_rotation (mission_id providers routes source : string) : DB rotation_change :=
  labels ← _transaction (
    mission ← _mission_row mission_id;
    let config := m_config mission in
    let old_providers := str_or_empty (dget "providers" config) in
    let old_routes := str_or_empty (dget "routes" config) in
    let before := rotation_label old_providers old_routes in
    let after := rotation_label providers routes in
    when (negb (bool_decide (old_providers = providers) && bool_decide (old_routes = routes)))
      (store_config mission_id (dset "routes" (JStr routes) (dset "providers" (JStr providers) config))) ;;
    when (truthy_str before && negb (bool_decide (before = after)))
      (mission_event mission_id "rotation-changed"
         [("from", JStr before); ("to", JStr after); ("providers", JStr providers);
          ("routes", JStr routes); ("source", JStr source)]) ;;
    mret (before, after));
  let '(before, after) := labels in
  m ← get_mission mission_id;
  mret (RotationChange (truthy_str before && negb (bool_decide (before = after))) before after m).

(** ** Operation logs *)

Definition record_pruned_operation_log (mission_id path : string) (size_bytes : Z) (sha256 : string) : DB Z :=
  _transaction (
    _mission_row mission_id ;;
    rows ← read (fun d => select (fun o => bool_decide (o_mission o = mission_id) &&
                                           bool_decide (o_logs_path o = Some path)) (operations d));
    for_each rows (fun row =>
      now ← utc_now;
      update_operation (o_id row) (fun o => set_o_updated_at now (set_o_logs_path None o)) ;;
      _event mission_id "operation-log-pruned"
        [("operation_id", JStr (o_id row)); ("path", JStr path); ("size_bytes", JInt size_bytes);
         ("sha256", JStr sha256)] (Some (o_task row)) (Some (o_id row))) ;;
    mret (Z.of_nat (length rows))).

(** The half-open range [prefix <= logs_path < upper], with [upper] the
    prefix whose final ["/"] is replaced by ["0"]. *)
Definition directory_prefix (directory : string) : string :=
  if bool_decide (srev directory = EmptyString) || startswith "/" (srev directory) then directory
  else (directory +:+ "/")%string.
Definition directory_upper (prefix : string) : string :=
  (stake (String.length prefix - 1) prefix +:+ "0")%string.
Definition operation_logs_in_directory (mission_id directory : string) : DB (list (string * Z * string)) :=
  _mission_row mission_id ;;
  let prefix := directory_prefix directory in
  let upper := directory_upper prefix in
  read (fun d => omap (fun o => match o_logs_path o with
      | Some p => if bool_decide (o_mission o = mission_id) && str_leb prefix p && str_ltb p upper
                  then Some (o_id o, o_task o, p) else None
      | None => None
      end) (operations d)).
End store.
