(* ===== verification/StoreApi.v ===== *)
(** * The store as a transition system

    Every method of [BridgeStore] that writes is one constructor of [op];
    [run_op] runs it.  A database is [reachable] when some sequence of calls,
    successful or not, with any readings of clock and uuid4, leads to it from
    the empty database.  The relations below are the frames the components'
    theorems are stated with. *)

From S2P Require Import Prelude Py Vocab States StoreData StoreTasks StoreOps StoreReview StoreLog.
From stdpp Require Import options.
Local Open Scope Z_scope.

Inductive op : Type :=
  | Op_create_mission (name objective cwd : string) (mission_id initial_prompt : option string)
      (initial_acceptance : list string) (config : dict)
  | Op_set_mission_status (mission_id status : string)
  | Op_add_task (mission_id prompt title : string) (priority : Z) (order : option Z)
      (depends_on : list Z) (acceptance : list string)
  | Op_propose_task (mission_id prompt source title : string) (priority : Z)
      (depends_on : list Z) (acceptance : list string)
  | Op_decide_proposal (mission_id : string) (task_id : Z) (accept : bool) (reason : string)
  | Op_add_dependency (mission_id : string) (task_id depends_on : Z)
  | Op_ready_tasks (mission_id : string) (limit : option Z)
  | Op_amend_task (task_id : Z) (args : changes)
  | Op_set_task_priority (task_id priority : Z)
  | Op_reorder_task (task_id ordering : Z)
  | Op_begin_iteration (task_id : Z)
  | Op_set_task_status (task_id : Z) (status : string)
  | Op_enqueue_command (mission_id : string) (payload : dict) (command_id : option string)
  | Op_finish_command (command_id status : string) (result : dict)
  | Op_begin_operation (task_id iteration : Z) (station : string)
  | Op_mark_operation_running (operation_id pane_id : string) (process_pid : option Z)
      (process_start route_id model : string)
  | Op_abort_prepared_operation (operation_id reason : string)
  | Op_record_operation_process (operation_id : string) (process_pid : Z) (process_start : string)
  | Op_record_operation_session (operation_id restoration_state provider : string)
      (session_id cwd source : option string)
  | Op_finish_operation (operation_id : string) (exit_code : Z) (logs_path : option string)
  | Op_reconcile_interrupted_operations (mission_id : string)
  | Op_release_declined_tasks (mission_id : string)
  | Op_continue_task_after_provider_failure (operation_id : string) (max_failures : Z)
  | Op_verify_task (task_id : Z) (evidence : string) (approved : bool) (source : string)
      (metadata : dict) (record_only : bool)
  | Op_reject_task (task_id : Z) (reason origin : string)
  | Op_record_verification_attempt (task_id : Z) (result : dict)
  | Op_release_review_hold (mission_id : string)
  | Op_sync_review_hold_events (mission_id : string)
  | Op_prune_plumbing_events (mission_id : string) (now : option Z)
      (heartbeat_keep_seconds capacity_keep_seconds : Z) (chunk : nat) (budget : Z)
  | Op_record_runtime_event (mission_id kind : string) (data : dict)
  | Op_record_events_pruned (mission_id : string) (r : prune_result)
  | Op_refresh_runtime_event (event_id : Z) (data : dict)
  | Op_set_mission_config_value (mission_id key : string) (value : json) (event_kind : string)
  | Op_set_mission_config_values (mission_id : string) (values : dict) (event_kind : string)
  | Op_set_rotation (mission_id providers routes source : string)
  | Op_record_pruned_operation_log (mission_id path : string) (size_bytes : Z) (sha256 : string)
  | Op_prepare_managed_process (mission_id : string) (task_id : Z) (kind : string)
  | Op_mark_managed_process_running (process_id : string) (process_pid : Z) (process_start : string)
  | Op_finish_managed_process (process_id : string) (exit_code : option Z) (status : string).

Definition ignore {A} (m : DB A) : DB unit := m ;; mret tt.

Definition run_op `{Oracle} `{SE : SqlErrors} (o : op) : DB unit :=
  match o with
  | Op_create_mission n ob c i p a cfg => ignore (create_mission n ob c i p a cfg)
  | Op_set_mission_status m s => set_mission_status m s
  | Op_add_task m p t pr or d a => ignore (add_task m p t pr or d a)
  | Op_propose_task m p s t pr d a => ignore (propose_task m p s t pr d a)
  | Op_decide_proposal m t a r => ignore (decide_proposal m t a r)
  | Op_add_dependency m t d => add_dependency m t d
  | Op_ready_tasks m l => ignore (ready_tasks m l)
  | Op_amend_task t c => ignore (amend_task t c)
  | Op_set_task_priority t p => set_task_priority t p
  | Op_reorder_task t o => reorder_task t o
  | Op_begin_iteration t => ignore (begin_iteration t)
  | Op_set_task_status t s => ignore (set_task_status t s)
  | Op_enqueue_command m p c => ignore (enqueue_command m p c)
  | Op_finish_command c s r => ignore (finish_command c s r)
  | Op_begin_operation t i s => ignore (begin_operation t i s)
  | Op_mark_operation_running o p pid st r m => mark_operation_running o p pid st r m
  | Op_abort_prepared_operation o r => ignore (abort_prepared_operation o r)
  | Op_record_operation_process o p s => record_operation_process o p s
  | Op_record_operation_session o r p s c so => record_operation_session o r p s c so
  | Op_finish_operation o e l => ignore (finish_operation o e l)
  | Op_reconcile_interrupted_operations m => ignore (reconcile_interrupted_operations m)
  | Op_release_declined_tasks m => ignore (release_declined_tasks m)
  | Op_continue_task_after_provider_failure o m => ignore (continue_task_after_provider_failure o m)
  | Op_verify_task t e a s md r => ignore (verify_task t e a s md r)
  | Op_reject_task t r o => ignore (reject_task t r o)
  | Op_record_verification_attempt t r => record_verification_attempt t r
  | Op_release_review_hold m => ignore (release_review_hold m)
  | Op_sync_review_hold_events m => ignore (sync_review_hold_events m)
  | Op_prune_plumbing_events m n h c k b => ignore (prune_plumbing_events m n h c k b)
  | Op_record_runtime_event m k d => ignore (record_runtime_event m k d)
  | Op_record_events_pruned m r => ignore (record_events_pruned m r)
  | Op_refresh_runtime_event e d => ignore (refresh_runtime_event e d)
  | Op_set_mission_config_value m k v e => ignore (set_mission_config_value m k v e)
  | Op_set_mission_config_values m v e => ignore (set_mission_config_values m v e)
  | Op_set_rotation m p r s => ignore (set_rotation m p r s)
  | Op_record_pruned_operation_log m p s h => ignore (record_pruned_operation_log m p s h)
  | Op_prepare_managed_process m t k => ignore (prepare_managed_process m t k)
  | Op_mark_managed_process_running p pid s => ignore (mark_managed_process_running p pid s)
  | Op_finish_managed_process p e s => ignore (finish_managed_process p e s)
  end.

(** One call, whatever its result. *)
Inductive call (d d' : database) : Prop :=
  | call_intro (O : Oracle) (F : SqlErrors) (o : op) (tick : nat) : w_db (run_op o (World d tick)).2 = d' -> call d d'.

Inductive reachable : database -> Prop :=
  | reachable_empty : reachable empty_database
  | reachable_call d d' : reachable d -> call d d' -> reachable d'.

(** A run of calls on one database with one oracle, for examples. *)
Fixpoint run_ops `{Oracle} `{SE : SqlErrors} (os : list op) (w : world) : world :=
  match os with [] => w | o :: os' => run_ops os' (run_op o w).2 end.

Lemma reachable_run_ops `{Oracle} `{SE : SqlErrors} os w : reachable (w_db w) -> reachable (w_db (run_ops os w)).
Proof.
  revert w. induction os as [|o os IH]; intros w Hw; [done|]. apply IH.
  eapply reachable_call; [done|]. apply (call_intro _ _ _ _ o (w_tick w)). by destruct w.
Qed.

(** ** Lifting relations on databases *)

Definition dbrel (R : database -> database -> Prop) (w w' : world) : Prop := R (w_db w) (w_db w').

#[export] Instance dbrel_preorder R `{!PreOrder R} : PreOrder (dbrel R).
Proof. split; unfold dbrel; [intros w; reflexivity|intros w w' w''; apply transitivity]. Qed.

(** Preservation of a predicate, as a preorder. *)
Definition preserves (P : database -> Prop) (d d' : database) : Prop := P d -> P d'.
#[export] Instance preserves_preorder P : PreOrder (preserves P).
Proof. split; unfold preserves; [intros d; auto|intros d d' d''; auto]. Qed.

Section keeps_db.
Context (R : database -> database -> Prop) `{!PreOrder R}.

Lemma keeps_read {A} (f : database -> A) : keeps (dbrel R) (read f).
Proof using All. intros w. unfold dbrel; cbn. reflexivity. Qed.
Lemma keeps_write f : (forall d, R d (f d)) -> keeps (dbrel R) (write f).
Proof using All. intros Hf w. apply Hf. Qed.
Lemma keeps_utc_now `{Oracle} : keeps (dbrel R) utc_now.
Proof using All. intros w. unfold dbrel; cbn. reflexivity. Qed.
Lemma keeps_uuid4_hex `{Oracle} : keeps (dbrel R) uuid4_hex.
Proof using All. intros w. unfold dbrel; cbn. reflexivity. Qed.
Lemma keeps_time_monotonic `{Oracle} : keeps (dbrel R) time_monotonic.
Proof using All. intros w. unfold dbrel; cbn. reflexivity. Qed.
Lemma keeps_transaction `{SE : SqlErrors} {A} (m : DB A) : keeps (dbrel R) m -> keeps (dbrel R) (_transaction m).
Proof using All.
  intros Hm w. specialize (Hm w). unfold _transaction, dbrel in *.
  destruct (m w) as [[a|e] w']; cbn in *; [|reflexivity]. destruct (sql_error w'); [reflexivity|done].
Qed.
Lemma keeps_or_raise {A} (o : option A) e : keeps (dbrel R) (or_raise o e).
Proof using All. destruct o; [apply keeps_ret; exact _|apply keeps_raise; exact _]. Qed.
Lemma keeps_ignore {A} (m : DB A) : keeps (dbrel R) m -> keeps (dbrel R) (ignore m).
Proof using All. intros. apply keeps_bind; [exact _|done|]. intros; apply keeps_ret; exact _. Qed.
End keeps_db.

#[export] Hint Resolve keeps_read keeps_utc_now keeps_uuid4_hex keeps_time_monotonic keeps_or_raise : py_keeps.

Ltac db_keeps_step :=
  match goal with
  | |- keeps _ (_transaction _) => apply keeps_transaction; [exact _|]
  | |- keeps _ (ignore _) => apply keeps_ignore; [exact _|]
  | |- _ => keeps_step
  end.
Ltac solve_db_keeps := repeat db_keeps_step.

(** ** Statements

    [stmt d d']: one INSERT, UPDATE or DELETE the store issues leads from [d]
    to [d'].  The constructors carry what is known at the statement: the
    columns an UPDATE leaves alone and the uniqueness an INSERT has checked.
    Every operation is a finite sequence of statements ([run_op_stmts]), so a
    preorder respected by each statement is respected by every operation. *)

(** The columns no statement ever rewrites. *)
Definition t_identity (t : task_row) : Z * string * Z * Origin * option string * string :=
  (t_id t, t_mission t, t_ordinal t, t_origin t, t_proposed_by t, t_original_prompt t).
Definition m_identity (m : mission_row) : string * string * string * string * string :=
  (m_id m, m_name m, m_objective m, m_cwd m, m_repo_identity m).
Definition o_identity (o : operation_row) : string * string * Z * Z * string :=
  (o_id o, o_mission o, o_task o, o_iteration o, o_station o).
Definition e_identity (e : event_row) : Z * string * option Z * option string * string :=
  (e_id e, e_mission e, e_task e, e_operation e, e_kind e).

Inductive stmt : database -> database -> Prop :=
  | S_event d m k data t o now :
      stmt d (set_event_seq (event_seq d + 1)
                (set_events (events d ++ [Event (event_seq d + 1) m t o k data now]) d))
  | S_update_tasks d p f :
      (forall t, t_identity (f t) = t_identity t) -> stmt d (update_tasks p f d)
  | S_insert_task d t :
      t_id t = task_seq d + 1 ->
      (forall t', t' ∈ tasks d -> t_mission t' = t_mission t -> t_ordinal t' ≠ t_ordinal t) ->
      stmt d (set_mission_task_counts (apply_count_statements t 1 (mission_task_counts d))
                (set_task_seq (task_seq d + 1) (set_tasks (tasks d ++ [t]) d)))
  | S_update_mission d id f :
      (forall m, m_identity (f m) = m_identity m) ->
      stmt d (set_missions (update_where (fun m => bool_decide (m_id m = id)) f (missions d)) d)
  | S_insert_mission d m :
      (forall m', m' ∈ missions d -> m_id m' ≠ m_id m) ->
      stmt d (set_missions (missions d ++ [m]) d)
  | S_insert_dependency d t p :
      (t, p) ∉ task_dependencies d ->
      stmt d (set_task_dependencies (task_dependencies d ++ [(t, p)]) d)
  | S_insert_amendment d a : stmt d (set_amendment_seq (amendment_seq d + 1) (set_amendments (amendments d ++ [a]) d))
  | S_update_amendments d p f : stmt d (set_amendments (update_where p f (amendments d)) d)
  | S_insert_operation d o :
      (forall o', o' ∈ operations d -> o_id o' ≠ o_id o) ->
      stmt d (set_operations (operations d ++ [o]) d)
  | S_update_operation d id f :
      (forall o, o_identity (f o) = o_identity o) ->
      stmt d (set_operations (update_where (fun o => bool_decide (o_id o = id)) f (operations d)) d)
  | S_insert_command d c :
      (forall c', c' ∈ commands d -> c_id c' ≠ c_id c) ->
      stmt d (set_commands (commands d ++ [c]) d)
  | S_update_command d id f :
      (forall c, c_id (f c) = c_id c) ->
      stmt d (set_commands (update_where (fun c => bool_decide (c_id c = id)) f (commands d)) d)
  | S_insert_process d q :
      (forall q', q' ∈ managed_processes d -> p_id q' ≠ p_id q) ->
      stmt d (set_managed_processes (managed_processes d ++ [q]) d)
  | S_update_process d id f :
      (forall q, p_id (f q) = p_id q) ->
      stmt d (set_managed_processes (update_where (fun q => bool_decide (p_id q = id)) f (managed_processes d)) d)
  | S_delete_events d ids : stmt d (delete_events ids d)
  | S_update_events d p f :
      (forall e, e_identity (f e) = e_identity e) ->
      stmt d (set_events (update_where p f (events d)) d).

Abbreviation stmts := (dbrel (rtc stmt)).

Lemma existsb_false {A} (p : A -> bool) l : existsb p l = false -> forall a, a ∈ l -> p a = false.
Proof.
  intros H a Ha. destruct (p a) eqn:E; [|done].
  assert (existsb p l = true) as H'; [|congruence].
  apply existsb_exists. exists a. by rewrite <- list_elem_of_In.
Qed.

Lemma keeps_statement {A} (R : database -> database -> Prop) `{!PreOrder R} (f : database -> result exn (A * database)) :
  (forall d a d', f d = Ok (a, d') -> R d d') -> keeps (dbrel R) (statement f).
Proof.
  intros Hf w. unfold statement, dbrel. destruct (f (w_db w)) as [[a d']|e] eqn:E; cbn; [by eapply Hf|reflexivity].
Qed.

Lemma stmts_one d d' : stmt d d' -> rtc stmt d d'.
Proof. apply rtc_once. Qed.

Ltac by_statement c :=
  apply keeps_statement; [exact _|]; intros ? ? ?; cbn; repeat case_match; intros [= <- <-]; apply stmts_one;
  eapply c; eauto.

Section statements.
Context `{Oracle} `{SE : SqlErrors}.

Lemma stmts_event m k data t o : keeps stmts (_event m k data t o).
Proof.
  unfold _event. apply keeps_bind; [exact _|by apply keeps_utc_now; exact _|intros now].
  apply keeps_write; [exact _|]. intros d. apply stmts_one, (S_event d m k (JObj data) t o now).
Qed.
Lemma stmts_update_task id f :
  (forall t, t_identity (f t) = t_identity t) -> keeps stmts (update_task id f).
Proof. intros Hf. apply keeps_write; [exact _|]. intros d. by apply stmts_one, S_update_tasks. Qed.
Lemma stmts_insert_task mk : (forall i, t_id (mk i) = i) -> keeps stmts (insert_task mk).
Proof.
  intros Hi. apply keeps_statement; [exact _|]. intros d a d'. cbn.
  destruct (existsb _ _) eqn:E; [done|]. intros [= <- <-]. apply stmts_one, S_insert_task; [by rewrite Hi|].
  intros t' Ht' Hm Ho. eapply existsb_false in E; [|done]. cbn in E.
  rewrite Hm, Ho, bool_decide_true, Z.eqb_refl in E; done.
Qed.
Lemma stmts_update_mission id f :
  (forall m, m_identity (f m) = m_identity m) -> keeps stmts (update_mission id f).
Proof. intros Hf. apply keeps_write; [exact _|]. intros d. by apply stmts_one, S_update_mission. Qed.
Lemma stmts_update_mission_status id s now : keeps stmts (update_mission_status id s now).
Proof. by_statement S_update_mission. Qed.
Lemma stmts_insert_mission m : keeps stmts (insert_mission m).
Proof.
  by_statement S_insert_mission. intros m' Hm' Hid.
  eapply existsb_false in H0; [|done]. by apply bool_decide_eq_false in H0.
Qed.
Lemma stmts_insert_dependency t p : keeps stmts (insert_dependency t p).
Proof.
  apply keeps_statement; [exact _|]. intros d a d'. cbn. case_bool_decide; intros [= <- <-]; [done|].
  by apply stmts_one, S_insert_dependency.
Qed.
Lemma stmts_insert_amendment t r c now : keeps stmts (insert_amendment t r c now).
Proof. by_statement S_insert_amendment. Qed.
Lemma stmts_update_amendments p f : keeps stmts (update_amendments p f).
Proof. apply keeps_write; [exact _|]. intros d. by apply stmts_one, S_update_amendments. Qed.
Lemma stmts_insert_operation o : keeps stmts (insert_operation o).
Proof.
  by_statement S_insert_operation. intros o' Ho' Hid.
  eapply existsb_false in H0; [|done]. by apply bool_decide_eq_false in H0.
Qed.
Lemma stmts_update_operation id f :
  (forall o, o_identity (f o) = o_identity o) -> keeps stmts (update_operation id f).
Proof. intros Hf. apply keeps_write; [exact _|]. intros d. by apply stmts_one, S_update_operation. Qed.
Lemma stmts_insert_command c : keeps stmts (insert_command c).
Proof.
  by_statement S_insert_command. intros c' Hc' Hid.
  eapply existsb_false in H0; [|done]. by apply bool_decide_eq_false in H0.
Qed.
Lemma stmts_update_command id f : (forall c, c_id (f c) = c_id c) -> keeps stmts (update_command id f).
Proof. intros Hf. apply keeps_write; [exact _|]. intros d. by apply stmts_one, S_update_command. Qed.
Lemma stmts_insert_process q : keeps stmts (insert_process q).
Proof.
  by_statement S_insert_process. intros c' Hc' Hid.
  eapply existsb_false in H0; [|done]. by apply bool_decide_eq_false in H0.
Qed.
Lemma stmts_update_process id f : (forall q, p_id (f q) = p_id q) -> keeps stmts (update_process id f).
Proof. intros Hf. apply keeps_write; [exact _|]. intros d. by apply stmts_one, S_update_process. Qed.
Lemma stmts_delete_events ids : keeps stmts (write (delete_events ids)).
Proof. apply keeps_write; [exact _|]. intros d. by apply stmts_one, S_delete_events. Qed.
Lemma stmts_update_events p f :
  (forall e, e_identity (f e) = e_identity e) -> keeps stmts (write (fun d => set_events (update_where p f (events d)) d)).
Proof. intros Hf. apply keeps_write; [exact _|]. intros d. by apply stmts_one, S_update_events. Qed.
End statements.

#[export] Hint Resolve stmts_event stmts_update_mission_status stmts_insert_mission stmts_insert_dependency
  stmts_insert_amendment stmts_update_amendments stmts_insert_operation stmts_insert_command
  stmts_insert_process stmts_delete_events : py_keeps.

(** The columns written by an UPDATE are visibly not the identity columns. *)
Ltac same_identity := intros []; unfold amend_columns; cbn; repeat (case_match; cbn); reflexivity.
#[export] Hint Extern 1 (keeps _ (update_task _ _)) => (apply stmts_update_task; same_identity) : py_keeps.
#[export] Hint Extern 1 (keeps _ (insert_task _)) => (apply stmts_insert_task; reflexivity) : py_keeps.
#[export] Hint Extern 1 (keeps _ (update_mission _ _)) => (apply stmts_update_mission; same_identity) : py_keeps.
#[export] Hint Extern 1 (keeps _ (update_operation _ _)) => (apply stmts_update_operation; same_identity) : py_keeps.
#[export] Hint Extern 1 (keeps _ (update_command _ _)) => (apply stmts_update_command; same_identity) : py_keeps.
#[export] Hint Extern 1 (keeps _ (update_process _ _)) => (apply stmts_update_process; same_identity) : py_keeps.
#[export] Hint Extern 1 (keeps _ (write (fun d => set_events _ _))) => (apply stmts_update_events; same_identity) : py_keeps.

(** The text of a method, with the helpers it calls. *)
Ltac unfold_helpers := repeat unfold _mission_row, _task_row, _operation_row, _managed_process_row, task_event,
  mission_event, op_event, get_mission, get_task, get_command, get_operation, get_managed_process,
  _next_ordinal, _dependencies_complete, store_config.
Ltac unfold_methods :=
  repeat unfold create_mission, set_mission_status, add_task, propose_task, decide_proposal, add_dependency, ready_tasks,
    amend_task, set_task_priority, reorder_task, begin_iteration, enqueue_command, finish_command, begin_operation,
    mark_operation_running, abort_prepared_operation, record_operation_process, record_operation_session,
    finish_operation, reconcile_interrupted_operations, release_declined_tasks,
    continue_task_after_provider_failure, verify_task, reject_task, record_verification_attempt,
    release_review_hold, prune_plumbing_events, record_events_pruned, refresh_runtime_event,
    set_mission_config_value, set_mission_config_values, set_rotation, record_pruned_operation_log,
    prepare_managed_process, mark_managed_process_running, finish_managed_process,
    _add_dependency_locked, _apply_pending_amendment, set_task_status, _record_hold_release, review_hold,
    sync_review_hold_events, record_runtime_event; unfold_helpers.

(** Every operation of the store is a sequence of statements. *)
Section ops.
Context `{Oracle} `{SE : SqlErrors}.

Ltac by_statements := unfold_helpers; solve_db_keeps.

Lemma stmts_add_dependency_locked m t p : keeps stmts (_add_dependency_locked m t p).
Proof. unfold _add_dependency_locked. by_statements. Qed.
Lemma stmts_apply_pending_amendment t c e a b : keeps stmts (_apply_pending_amendment t c e a b).
Proof. unfold _apply_pending_amendment. by_statements. Qed.
Lemma stmts_set_task_status t s : keeps stmts (set_task_status t s).
Proof. unfold set_task_status. by_statements. Qed.
Lemma stmts_record_hold_release m t k : keeps stmts (_record_hold_release m t k).
Proof. unfold _record_hold_release. by_statements. Qed.
#[local] Hint Resolve stmts_add_dependency_locked stmts_apply_pending_amendment stmts_set_task_status
  stmts_record_hold_release : py_keeps.
Lemma stmts_review_hold m : keeps stmts (review_hold m).
Proof. unfold review_hold. by_statements. Qed.
#[local] Hint Resolve stmts_review_hold : py_keeps.
Lemma stmts_sync_review_hold_events m : keeps stmts (sync_review_hold_events m).
Proof. unfold sync_review_hold_events. by_statements. Qed.
Lemma stmts_prune_heartbeats n m c k dl del : keeps stmts (prune_heartbeats n m c k dl del).
Proof. revert del. induction n; intros del; cbn [prune_heartbeats]; by_statements. Qed.
Lemma stmts_prune_refreshes n m c k dl l del : keeps stmts (prune_refreshes n m c k dl l del).
Proof. revert l del. induction n; intros l del; cbn [prune_refreshes]; by_statements. Qed.
Lemma stmts_record_runtime_event m k d : keeps stmts (record_runtime_event m k d).
Proof. unfold record_runtime_event. by_statements. Qed.
#[local] Hint Resolve stmts_sync_review_hold_events stmts_prune_heartbeats stmts_prune_refreshes
  stmts_record_runtime_event : py_keeps.

Lemma run_op_stmts o : keeps stmts (run_op o).
Proof. destruct o; cbn [run_op]; unfold_methods; by_statements. Qed.
End ops.
