(* ===== verification/StoreDemo.v ===== *)
(** * A concrete run of the store

    An oracle with a ticking clock and numbered ids, and one mission with two
    tasks taken from creation to completion.  The witnesses evaluate the
    theorems on the databases this run goes through. *)

From S2P Require Import Prelude Py Vocab States StoreData StoreTasks StoreOps StoreReview StoreLog StoreApi.
From stdpp Require Import options.
Local Open Scope Z_scope.

Definition demo_oracle : Oracle := {|
  clock n := 1000 + Z.of_nat n;
  uuid4 n := ("id" +:+ show_Z (Z.of_nat n))%string;
  monotonic n := Z.of_nat n;
  fs_resolve p := Some p;
  git_toplevel p := p;
  float_repr _ := "0.0"%string;
|}.

(** Task 2 waits for task 1; operation [o1] runs task 1 and exits with 0. *)
Definition demo_script : list op := [
  Op_create_mission "demo" "objective" "/r" (Some "m1"%string) (Some "first"%string) ["a"; "b"]%string
    [("native_tui", JBool true)]%string;
  Op_add_task "m1" "second" "" 0 None [1] [];
  Op_set_mission_status "m1" "RUNNING";
  Op_ready_tasks "m1" None;
  Op_begin_operation 1 1 "codex";
  Op_mark_operation_running "id9" "pane" (Some 41) "start" "route" "model";
  Op_add_task "m1" "third" "" 5 None [] [];
  Op_finish_operation "id9" 0 None;
  Op_verify_task 1 "all tests pass" false "verifier" [] false;
  Op_ready_tasks "m1" None;
  Op_set_task_status 2 "CANCELLED";
  Op_propose_task "m1" "idea" "id9" "" 0 [] [] ].

Definition demo_world (k : nat) : world := run_ops (H := demo_oracle) (take k demo_script) (World empty_database 0).
Definition demo (k : nat) : database := w_db (demo_world k).

Lemma demo_world_reachable k : reachable (w_db (demo_world k)).
Proof. apply reachable_run_ops. constructor. Qed.
Lemma demo_reachable k : reachable (demo k).
Proof. apply demo_world_reachable. Qed.

Example demo_length : length (operations (demo 12)) = 1%nat /\ length (tasks (demo 12)) = 4%nat.
Proof. vm_compute. done. Qed.
Example demo_statuses :
  (t_status <$> tasks (demo 12)) = [T_COMPLETED; T_CANCELLED; T_READY; T_QUEUED].
Proof. vm_compute. done. Qed.

(** A mission whose only task is completed, and then the mission. *)
Definition done_script : list op := [
  Op_create_mission "done" "objective" "/s" (Some "m2"%string) (Some "only"%string) [] [];
  Op_set_mission_status "m2" "RUNNING";
  Op_begin_operation 1 1 "codex";
  Op_mark_operation_running "id5" "pane" None "" "route" "model";
  Op_finish_operation "id5" 0 None;
  Op_verify_task 1 "" true "operator" [] false;
  Op_set_mission_status "m2" "COMPLETED" ].
Definition done_world (k : nat) : world := run_ops (H := demo_oracle) (take k done_script) (World empty_database 0).

Lemma done_world_reachable k : reachable (w_db (done_world k)).
Proof. apply reachable_run_ops. constructor. Qed.

Example done_statuses :
  (m_status <$> missions (w_db (done_world 7))) = [M_COMPLETED].
Proof. vm_compute. done. Qed.

(** A mission whose controller has written heartbeats and capacity refreshes. *)
Definition log_script : list op := [
  Op_create_mission "log" "objective" "/t" (Some "m3"%string) None [] [];
  Op_record_runtime_event "m3" "controller-heartbeat" [];
  Op_record_runtime_event "m3" "capacity-refresh" [];
  Op_record_runtime_event "m3" "controller-heartbeat" [];
  Op_record_runtime_event "m3" "capacity-refresh" [];
  Op_record_runtime_event "m3" "capacity-refresh" [];
  Op_record_runtime_event "m3" "controller-heartbeat" [] ].
Definition log_world : world := run_ops (H := demo_oracle) log_script (World empty_database 0).

Lemma log_world_reachable : reachable (w_db log_world).
Proof. apply reachable_run_ops. constructor. Qed.

Example log_world_kinds :
  (e_id <$> events (w_db log_world)) = [1; 2; 3; 4; 5; 6; 7].
Proof. vm_compute. done. Qed.
