(* ===== verification/StoreCounts.v ===== *)
(** * The maintained task counters agree with the tasks table

    The triggers on [tasks] keep [mission_task_counts] equal to a recount in
    every reachable database, so the status page may read the counters. *)

From S2P Require Import Prelude Py Vocab States StoreData StoreTasks StoreApi StoreDemo.
From stdpp Require Import options.
Local Open Scope Z_scope.

(** Counter tables agree when they give every key the same number; a missing
    row counts as zero. *)
Definition counts_equiv (c c' : counts) : Prop := forall m s k, count_at c m s k = count_at c' m s k.

#[export] Instance counts_equiv_equivalence : Equivalence counts_equiv.
Proof.
  split; unfold counts_equiv.
  - intros c m s k. reflexivity.
  - intros c c' H m s k. by rewrite H.
  - intros c c' c'' H H' m s k. by rewrite H.
Qed.

#[export] Instance count_at_proper : Proper (counts_equiv ==> eq ==> eq ==> eq ==> eq) count_at.
Proof. intros c c' Hc m ? <- s ? <- k ? <-. apply Hc. Qed.

(** ** What one row contributes to one counter *)

Definition amount (scope key : string) (s : string * string * Z) : Z :=
  if bool_decide (s.1 = (scope, key)) then s.2 else 0.
Definition contribution (m scope key : string) (t : task_row) : Z :=
  if bool_decide (t_mission t = m) then sumZ (amount scope key) (_count_statements t 1) else 0.
Definition recount (l : list task_row) (m scope key : string) : Z := sumZ (contribution m scope key) l.
Definition counts_exact (d : database) : Prop :=
  forall m s k, count_at (mission_task_counts d) m s k = recount (tasks d) m s k.

Lemma count_at_upsert m c s m' scope key :
  count_at (upsert_count m c s) m' scope key =
  count_at c m' scope key + (if bool_decide (m = m') then amount scope key s else 0).
Proof.
  destruct s as [[sc k] n]. unfold count_at, upsert_count, amount; cbn.
  destruct (decide ((m, sc, k) = (m', scope, key))) as [[= -> -> ->]|Hne].
  - rewrite lookup_insert_eq, !bool_decide_true by done. done.
  - rewrite lookup_insert_ne by done. repeat case_bool_decide; simplify_eq; try done; lia.
Qed.

Lemma count_at_statements m l c m' scope key :
  count_at (foldl (upsert_count m) c l) m' scope key =
  count_at c m' scope key + (if bool_decide (m = m') then sumZ (amount scope key) l else 0).
Proof.
  revert c. induction l as [|s l IH]; intros c; cbn; [case_bool_decide; lia|].
  rewrite IH, count_at_upsert. case_bool_decide; lia.
Qed.

Lemma sumZ_scale {A} (f : A -> Z) z l : sumZ (fun a => z * f a) l = z * sumZ f l.
Proof. induction l as [|x l IH]; cbn; [lia|]. rewrite IH. lia. Qed.

Lemma count_statements_sign t z scope key :
  sumZ (amount scope key) (_count_statements t z) = z * sumZ (amount scope key) (_count_statements t 1).
Proof.
  unfold _count_statements. rewrite !sumZ_app.
  repeat case_match; unfold amount; cbn; repeat case_bool_decide; lia.
Qed.

Lemma count_at_apply t z c m scope key :
  count_at (apply_count_statements t z c) m scope key = count_at c m scope key + z * contribution m scope key t.
Proof.
  unfold apply_count_statements, contribution. rewrite count_at_statements, count_statements_sign.
  case_bool_decide; lia.
Qed.

Lemma contribution_unchanged t t' m scope key :
  counted_columns_changed t t' = false -> t_mission t' = t_mission t ->
  contribution m scope key t' = contribution m scope key t.
Proof.
  unfold counted_columns_changed. intros H Hm. bool_to_prop.
  repeat match goal with H : _ && _ = true |- _ => apply andb_true_iff in H as [H ?] end. bool_to_prop.
  unfold contribution, _count_statements, effective, criteria.
  by repeat match goal with E : _ t = _ t' |- _ => rewrite <- E; clear E end; rewrite Hm.
Qed.

Lemma count_at_trigger t t' c m scope key :
  t_mission t' = t_mission t ->
  count_at (tasks_counts_update t t' c) m scope key =
  count_at c m scope key - contribution m scope key t + contribution m scope key t'.
Proof.
  intros Hm. unfold tasks_counts_update. destruct (counted_columns_changed t t') eqn:E.
  - rewrite !count_at_apply. lia.
  - rewrite (contribution_unchanged t t') by done. lia.
Qed.

(** ** Preservation *)

Lemma count_at_update_all f l c m scope key :
  (forall t, t_mission (f t) = t_mission t) ->
  count_at (foldl (fun c t => tasks_counts_update t (f t) c) c l) m scope key =
  count_at c m scope key - sumZ (contribution m scope key) l + sumZ (fun t => contribution m scope key (f t)) l.
Proof.
  intros Hf. revert c. induction l as [|t l IH]; intros c; cbn; [lia|].
  rewrite IH, count_at_trigger by done. lia.
Qed.

Lemma sumZ_update_where {A} (g : A -> Z) p f l :
  sumZ g (update_where p f l) = sumZ g l - sumZ g (select p l) + sumZ (fun a => g (f a)) (select p l).
Proof.
  unfold update_where, select. induction l as [|x l IH]; [cbn; lia|].
  csimpl. destruct (p x); cbn [sumZ List.filter]; rewrite IH; lia.
Qed.

Lemma update_tasks_exact p f d :
  (forall t, t_mission (f t) = t_mission t) -> counts_exact d -> counts_exact (update_tasks p f d).
Proof.
  intros Hf Hd m s k. cbn. rewrite count_at_update_all by done. unfold recount.
  rewrite sumZ_update_where. specialize (Hd m s k). unfold recount in Hd. lia.
Qed.

Lemma stmt_counts d d' : stmt d d' -> preserves counts_exact d d'.
Proof.
  unfold preserves. destruct 1; try done.
  - apply update_tasks_exact. intros t. specialize (H t). unfold t_identity in H. congruence.
  - intros Hd m s k.
    change (count_at (apply_count_statements t 1 (mission_task_counts d)) m s k = recount (tasks d ++ [t]) m s k).
    rewrite count_at_apply, Hd. unfold recount. rewrite sumZ_app. cbn [sumZ]. lia.
Qed.

Lemma stmts_preserve (P : database -> Prop) d d' :
  (forall d d', stmt d d' -> preserves P d d') -> rtc stmt d d' -> P d -> P d'.
Proof. intros HP. induction 1 as [|d d1 d' Hs _ IH]; [done|]. intros. by apply IH, (HP d d1 Hs). Qed.

Lemma call_stmts d d' : call d d' -> rtc stmt d d'.
Proof. intros [O F o tick <-]. apply (run_op_stmts o (World d tick)). Qed.

(** Invariants of reachable databases from invariants of statements. *)
Lemma reachable_ind_stmt (P : database -> Prop) :
  P empty_database -> (forall d d', stmt d d' -> preserves P d d') -> forall d, reachable d -> P d.
Proof.
  intros H0 HP. induction 1 as [|d d' _ IH Hc]; [done|].
  eapply stmts_preserve; [exact HP|by apply call_stmts|done].
Qed.

Lemma counts_exact_reachable d : reachable d -> counts_exact d.
Proof. apply reachable_ind_stmt; [done|apply stmt_counts]. Qed.

(** ** The specification of [task_counters] *)

Definition mission_queue (m : string) (d : database) : list task_row := select effective (mission_tasks m d).
Definition proposals (m : string) (d : database) : list task_row :=
  select (fun t => bool_decide (t_origin t = Or_agent_proposal)) (mission_tasks m d).
Definition number {A} (p : A -> bool) (l : list A) : Z := Z.of_nat (length (select p l)).
Definition positive (n : Z) : option Z := if 0 <? n then Some n else None.

Lemma sumZ_select {A} (p : A -> bool) (f : A -> Z) l :
  sumZ f (select p l) = sumZ (fun a => if p a then f a else 0) l.
Proof. unfold select. induction l as [|x l IH]; cbn; [done|]. destruct (p x); cbn; rewrite IH; lia. Qed.

Lemma number_sumZ {A} (p : A -> bool) l : number p l = sumZ (fun a => if p a then 1 else 0) l.
Proof.
  unfold number, select. induction l as [|x l IH]; cbn; [done|].
  destruct (p x); cbn [length]; [|lia]. rewrite Nat2Z.inj_succ, IH. lia.
Qed.

Lemma length_sumZ {A} (l : list A) : Z.of_nat (length l) = sumZ (fun _ => 1) l.
Proof. induction l as [|x l IH]; cbn [length sumZ]; [done|]. rewrite Nat2Z.inj_succ, IH. lia. Qed.

Lemma amount_ne scope key scope' key' z : scope' ≠ scope -> amount scope key (scope', key', z) = 0.
Proof. intros H. unfold amount. rewrite bool_decide_false; [done|]. cbn. congruence. Qed.
Lemma amount_eq scope key key' z : amount scope key (scope, key', z) = if bool_decide (key' = key) then z else 0.
Proof. unfold amount; cbn. repeat case_bool_decide; congruence. Qed.
Lemma sumZ_if {A} (f : A -> Z) (b : bool) a : sumZ f (if b then [a] else []) = if b then f a else 0.
Proof. destruct b; cbn; lia. Qed.
Lemma bool_decide_str {A} `{StrEnum A} (a b : A) : bool_decide (str a = str b) = bool_decide (a = b).
Proof. apply bool_decide_ext. split; [apply str_inj|congruence]. Qed.
Lemma bool_decide_proposal a b :
  bool_decide (ProposalStatus_str a = ProposalStatus_str b) = bool_decide (a = b).
Proof. by destruct a, b. Qed.

(** A sum over the tasks of a mission, as a sum over all tasks. *)
Lemma recount_mission d m scope key (g : task_row -> Z) :
  (forall t, sumZ (amount scope key) (_count_statements t 1) = g t) ->
  recount (tasks d) m scope key = sumZ g (mission_tasks m d).
Proof.
  intros Hg. unfold recount, mission_tasks. rewrite sumZ_select. apply sumZ_ext.
  intros t _. unfold contribution. by rewrite Hg.
Qed.

(** Reading one counter: only the statements with that scope count. *)
Ltac one_counter :=
  erewrite recount_mission;
  [|intros t; unfold _count_statements; rewrite !sumZ_app, !sumZ_if; cbn [sumZ];
    repeat match goal with
    | |- context [amount ?sc ?k (?sc', ?k', ?z)] =>
        first [rewrite (amount_ne sc k sc' k' z) by discriminate | rewrite (amount_eq sc k k' z)]
    end; reflexivity];
  unfold mission_queue, proposals; rewrite ?number_sumZ, ?length_sumZ, ?sumZ_select; apply sumZ_ext; intros t _;
  rewrite ?bool_decide_str, ?bool_decide_proposal;
  destruct (effective t), (bool_decide (t_origin t = Or_agent_proposal)); cbn -[criteria Z.mul bool_decide];
  repeat case_bool_decide; simplify_eq; lia.

Lemma recount_total d m : recount (tasks d) m "all" "total" = Z.of_nat (length (mission_tasks m d)).
Proof. one_counter. Qed.
Lemma recount_criteria_total d m : recount (tasks d) m "criteria" "total" = sumZ criteria (mission_queue m d).
Proof. one_counter. Qed.
Lemma recount_criteria_verified d m :
  recount (tasks d) m "criteria" "verified" =
  sumZ criteria (select (fun t => bool_decide (t_status t = T_COMPLETED)) (mission_queue m d)).
Proof. one_counter. Qed.
(** [str] is injective, so counting by status text is counting by status. *)
Lemma recount_status d m k :
  recount (tasks d) m "status" k = number (fun t => bool_decide (str (t_status t) = k)) (mission_queue m d).
Proof. one_counter. Qed.
Lemma recount_proposal d m k :
  recount (tasks d) m "proposal" k =
  number (fun t => bool_decide (ProposalStatus_str (t_proposal t) = k)) (proposals m d).
Proof. one_counter. Qed.

(** ** Reading the counters *)

Lemma scope_counts_lookup c m scope k : scope_counts c m scope !! k = positive (count_at c m scope k).
Proof.
  unfold scope_counts. set (g := fun row : (string * string * string) * Z => _).
  assert (Hg : forall k n, (k, n) ∈ omap g (map_to_list c) <-> c !! (m, scope, k) = Some n /\ 0 < n).
  { intros k0 n. rewrite list_elem_of_omap. split.
    - intros ([[[m' sc'] k'] n'] & Hin & E). unfold g in E. cbn in E.
      destruct (_ && _) eqn:Eb in E; [|done]. injection E as -> ->. bool_to_prop. subst.
      split; [by apply elem_of_map_to_list|done].
    - intros [Hl Hn]. exists ((m, scope, k0), n). split; [by apply elem_of_map_to_list|].
      unfold g; cbn. by rewrite !bool_decide_true, (proj2 (Z.ltb_lt 0 n)). }
  assert (Hnd : NoDup (omap g (map_to_list c)).*1).
  { pose proof (NoDup_fst_map_to_list c) as Hn. revert Hn. clear Hg. generalize (map_to_list c).
    intros l. induction l as [|[[[m' sc'] k'] n'] l IH]; cbn; [intros; apply NoDup_nil_2|].
    intros [Hx Hl]%NoDup_cons. specialize (IH Hl). unfold g at 1. destruct (_ && _) eqn:Eb; [|done].
    cbn. apply NoDup_cons. split; [|done]. bool_to_prop. subst.
    intros ([k2 n2] & E & ([[[m3 sc3] k3] n3] & Hin & E3)%list_elem_of_omap)%list_elem_of_fmap.
    unfold g in E3. cbn in E, E3. destruct (_ && _) eqn:E4 in E3; [|done]. bool_to_prop. simplify_eq.
    apply Hx, list_elem_of_fmap. by exists (m, scope, k2, n2). }
  unfold positive, count_at. destruct (c !! (m, scope, k)) as [n|] eqn:El; cbn.
  - case_match eqn:En.
    + apply elem_of_list_to_map; [done|]. apply Hg. bool_to_prop. done.
    + apply not_elem_of_list_to_map_1. intros ([k2 n2] & E & [H2 Hn]%Hg)%list_elem_of_fmap.
      cbn in E. subst k2. rewrite El in H2. injection H2 as ->. bool_to_prop. lia.
  - apply not_elem_of_list_to_map_1. intros ([k2 n2] & E & [H2 Hn]%Hg)%list_elem_of_fmap. cbn in E. congruence.
Qed.

(** The counters the status page reads agree, in every reachable database,
    with a recount of the mission's tasks: per status and per proposal status
    the positive numbers, the total, and the acceptance criteria of the queue
    and of its completed tasks. *)
Theorem task_counters_correct (d : database) (m : string) :
  reachable d ->
  let r := task_counters m d in
  (forall k, tt_status r !! k = positive (number (fun t => bool_decide (str (t_status t) = k)) (mission_queue m d))) /\
  (forall k, tt_proposal r !! k = positive (number (fun t => bool_decide (ProposalStatus_str (t_proposal t) = k)) (proposals m d))) /\
  tt_total r = Z.of_nat (length (mission_tasks m d)) /\
  tt_criteria_total r = sumZ criteria (mission_queue m d) /\
  tt_criteria_verified r = sumZ criteria (select (fun t => bool_decide (t_status t = T_COMPLETED)) (mission_queue m d)).
Proof.
  intros Hd%counts_exact_reachable. unfold counts_exact in Hd. cbn. split_and!.
  - intros k. by rewrite scope_counts_lookup, Hd, recount_status.
  - intros k. by rewrite scope_counts_lookup, Hd, recount_proposal.
  - by rewrite Hd, recount_total.
  - by rewrite Hd, recount_criteria_total.
  - by rewrite Hd, recount_criteria_verified.
Qed.

Lemma task_counters_correct_witness :
  let r := task_counters "m1" (demo 12) in
  tt_total r = Z.of_nat (length (mission_tasks "m1" (demo 12))) /\ tt_total r = 4 /\
  tt_status r !! "COMPLETED"%string = Some 1 /\ tt_criteria_verified r = 2.
Proof.
  split; [exact (proj1 (proj2 (proj2 (task_counters_correct (demo 12) "m1" (demo_reachable 12)))))|].
  vm_compute. done.
Defined.

(** ** The backfill *)

Lemma count_at_foldl scope (key : task_row -> string) (v : string -> string -> Z) l c m sc k :
  count_at (foldl (fun c t => <[(t_mission t, scope, key t) := v (t_mission t) (key t)]> c) c l) m sc k =
  if bool_decide (sc = scope) && existsb (fun t => bool_decide (t_mission t = m) && bool_decide (key t = k)) l
  then v m k else count_at c m sc k.
Proof.
  revert c. induction l as [|t l IH]; intros c; cbn; [by rewrite andb_false_r|].
  rewrite IH. case_bool_decide as Hs; cbn; [subst sc|unfold count_at; by rewrite lookup_insert_ne by congruence].
  destruct (existsb _ l); [by rewrite orb_true_r|]. rewrite orb_false_r.
  unfold count_at. case_bool_decide as Hm; [subst m|rewrite lookup_insert_ne by congruence; done].
  case_bool_decide as Hk; [subst k|rewrite lookup_insert_ne by congruence; done].
  by rewrite lookup_insert_eq.
Qed.

(** One INSERT ... GROUP BY adds its sums to counters that were zero. *)
Lemma count_at_insert_groups scope key (w : task_row -> Z) agg rows c m sc k :
  (forall l, agg l = sumZ w l) ->
  (sc = scope -> forall t, t ∈ rows -> key t = k -> count_at c m sc k = 0) ->
  count_at (insert_groups scope key agg rows c) m sc k =
  count_at c m sc k +
  (if bool_decide (sc = scope)
   then sumZ (fun t => if bool_decide (t_mission t = m) && bool_decide (key t = k) then w t else 0) rows else 0).
Proof.
  intros Hagg Hc. unfold insert_groups.
  pose proof (count_at_foldl scope key (fun m k : string =>
    agg (select (fun t' => bool_decide (t_mission t' = m) && bool_decide (key t' = k)) rows)) rows c m sc k) as E.
  cbv beta zeta in E |- *. rewrite E. clear E.
  case_bool_decide as Hs; cbn; [|lia]. rewrite Hagg, sumZ_select. destruct (existsb _ _) eqn:E.
  - apply existsb_exists in E as (t & Ht%list_elem_of_In & Hb). bool_to_prop. rewrite (Hc Hs t) by done. lia.
  - rewrite (sumZ_ext _ (fun _ => 0)); [|intros t Ht; by rewrite (existsb_false _ _ E t Ht)].
    assert (Hz : forall l : list task_row, sumZ (fun _ => 0) l = 0) by (induction l; cbn; lia). rewrite Hz. lia.
Qed.

Lemma sumZ_add {A} (f g : A -> Z) l : sumZ f l + sumZ g l = sumZ (fun a => f a + g a) l.
Proof. induction l as [|x l IH]; cbn; lia. Qed.
Lemma sumZ_guard {A} (b : bool) (f : A -> Z) l : (if b then sumZ f l else 0) = sumZ (fun a => if b then f a else 0) l.
Proof. destruct b; [done|]. induction l as [|x l IH]; cbn; lia. Qed.

Lemma sumZ_zero {A} (f : A -> Z) l : (forall a, f a = 0) -> sumZ f l = 0.
Proof. intros Hf. induction l as [|x l IH]; cbn; [done|]. by rewrite Hf, IH. Qed.

Lemma count_at_empty m sc k : count_at ∅ m sc k = 0.
Proof. done. Qed.

Lemma pair_decide (a b c d : string) : bool_decide ((a, b) = (c, d)) = bool_decide (c = a) && bool_decide (b = d).
Proof. repeat case_bool_decide; cbn; naive_solver. Qed.
Lemma if_andb (a b : bool) (x : Z) : (if a && b then x else 0) = if a then if b then x else 0 else 0.
Proof. by destruct a. Qed.
Lemma if_same (a : bool) (x : Z) : (if a then x else x) = x.
Proof. by destruct a. Qed.

(** Expand the five INSERTs; each writes counters the earlier ones left zero. *)
Ltac expand_groups :=
  repeat first
    [ rewrite (count_at_insert_groups _ _ criteria) by (done || groups_zero)
    | rewrite (count_at_insert_groups _ _ (fun _ => 1)) by (done || apply length_sumZ || groups_zero) ]
with groups_zero :=
  let t := fresh "t" in intros -> t _ <-; expand_groups; rewrite count_at_empty;
  repeat match goal with
  | |- context [bool_decide (?a = ?b :> string)] => rewrite (bool_decide_false (a = b)) by done
  end; rewrite ?bool_decide_true by done; rewrite ?Z.add_0_r, ?Z.add_0_l;
  first [done | apply sumZ_zero; intros; by rewrite andb_false_r].

Lemma count_at_rebuild d m sc k : count_at (mission_task_counts (rebuild_task_counts d)) m sc k = recount (tasks d) m sc k.
Proof.
  unfold rebuild_task_counts. cbn [mission_task_counts set_mission_task_counts]. expand_groups.
  rewrite count_at_empty, !sumZ_select, !sumZ_guard, Z.add_0_l, !sumZ_add. apply sumZ_ext. intros t _.
  unfold contribution, _count_statements. rewrite !sumZ_app, !sumZ_if. cbn [sumZ]. unfold amount; cbn [fst snd].
  rewrite !pair_decide, !if_andb, !Z.mul_1_l.
  destruct (bool_decide (t_mission t = m)), (effective t), (bool_decide (t_origin t = Or_agent_proposal)),
    (bool_decide (t_status t = T_COMPLETED)); cbn; rewrite ?if_same; lia.
Qed.

(** C6: Rebuilding the counters from the tasks table, as the migration and the
    repair do, gives in every reachable database the counters the triggers
    have maintained (a missing row counts as zero). *)
Theorem rebuild_agrees_with_triggers (d : database) :
  reachable d -> counts_equiv (mission_task_counts (rebuild_task_counts d)) (mission_task_counts d).
Proof. intros Hd%counts_exact_reachable m s k. by rewrite count_at_rebuild, Hd. Qed.

Lemma rebuild_agrees_with_triggers_witness :
  counts_equiv (mission_task_counts (rebuild_task_counts (demo 12))) (mission_task_counts (demo 12)) /\
  count_at (mission_task_counts (rebuild_task_counts (demo 12))) "m1" "criteria" "verified" = 2.
Proof. split; [exact (rebuild_agrees_with_triggers (demo 12) (demo_reachable 12))|vm_compute; reflexivity]. Defined.
