(* ===== verification/StoreKeys.v ===== *)
(** * Keys, identity columns and the append-only log

    Frames of the store that follow from its statements alone: every key is
    unique, ids only grow, rows never disappear and their identity columns are
    never rewritten. *)

From S2P Require Import Prelude Py Vocab States StoreData StoreTasks StoreLog StoreApi StoreCounts.
From stdpp Require Import options.
Local Open Scope Z_scope.

Record keys_ok (d : database) : Prop := {
  ko_missions : NoDup (m_id <$> missions d);
  ko_tasks : NoDup (t_id <$> tasks d);
  ko_task_seq : forall t, t ∈ tasks d -> 1 <= t_id t <= task_seq d;
  ko_ordinals : NoDup ((fun t => (t_mission t, t_ordinal t)) <$> tasks d);
  ko_dependencies : NoDup (task_dependencies d);
  ko_operations : NoDup (o_id <$> operations d);
  ko_events : StronglySorted Z.lt (e_id <$> events d);
  ko_event_seq : forall e, e ∈ events d -> 1 <= e_id e <= event_seq d;
  ko_commands : NoDup (c_id <$> commands d);
  ko_processes : NoDup (p_id <$> managed_processes d);
  ko_seqs : 0 <= task_seq d /\ 0 <= event_seq d;
}.

Lemma empty_keys_ok : keys_ok empty_database.
Proof. split; cbn; try apply NoDup_nil_2; try constructor; try done; set_solver. Qed.

Lemma StronglySorted_select {A} (key : A -> Z) p (l : list A) :
  StronglySorted Z.lt (key <$> l) -> StronglySorted Z.lt (key <$> select p l).
Proof.
  unfold select. induction l as [|x l IH]; cbn; [done|]. intros Hs.
  apply StronglySorted_inv in Hs as [Hs Hx]. destruct (p x); cbn; [|by apply IH].
  constructor; [by apply IH|]. rewrite Forall_fmap in *. rewrite Forall_forall in *.
  intros y Hy. apply Hx. apply list_elem_of_In in Hy. apply list_elem_of_In. by apply filter_In in Hy as [? _].
Qed.

Lemma StronglySorted_snoc (l : list Z) z :
  StronglySorted Z.lt l -> (forall y, y ∈ l -> y < z) -> StronglySorted Z.lt (l ++ [z]).
Proof.
  induction 1 as [|x l Hs IH Hx]; intros Hz; cbn; [repeat constructor|].
  constructor; [apply IH; set_solver|]. apply Forall_app. split; [done|]. constructor; [apply Hz; set_solver|done].
Qed.

(** The rows an UPDATE leaves behind have the keys they had. *)
Ltac same_keys :=
  match goal with
  | |- context [?g <$> update_where ?p ?f ?l] => rewrite (update_where_map g p f l); [done|]
  end; intros x _; match goal with H : forall y, _ = _ |- _ => specialize (H x) end;
  unfold t_identity, m_identity, o_identity, e_identity in *; congruence.

Lemma update_where_bound {A} (key : A -> Z) (p : A -> bool) f (l : list A) (P : Z -> Prop) :
  (forall a, key (f a) = key a) -> (forall a, a ∈ l -> P (key a)) -> forall a, a ∈ update_where p f l -> P (key a).
Proof.
  intros Hf Hl a (a0 & Ha0 & ->)%elem_of_update_where. destruct (p a0); [rewrite Hf|]; auto.
Qed.

Lemma stmt_keys d d' : stmt d d' -> preserves keys_ok d d'.
Proof.
  intros Hs [K1 K2 K3 K4 K5 K6 K7 K8 K9 K10 [K11 K12]].
  destruct Hs; split; cbn; try done; try same_keys; try lia.
  - rewrite fmap_app. apply StronglySorted_snoc; [done|].
    intros y (e & -> & He)%list_elem_of_fmap. cbn. apply K8 in He. lia.
  - intros e [He| ->%list_elem_of_singleton]%elem_of_app; [apply K8 in He; lia|cbn; lia].
  - apply (update_where_bound t_id p f _ (fun z => 1 <= z <= task_seq d)); [|done].
    intros a. specialize (H a). unfold t_identity in H. congruence.
  - apply NoDup_key_snoc; [done|]. intros b Hb. apply K3 in Hb. lia.
  - intros t' [Ht'| ->%list_elem_of_singleton]%elem_of_app; [apply K3 in Ht'; lia|lia].
  - apply (NoDup_key_snoc (fun t => (t_mission t, t_ordinal t))); [done|]. intros b Hb [= Hm Ho]. by eapply H0.
  - apply NoDup_key_snoc; [done|]. by intros b Hb ?%H.
  - apply NoDup_app. split_and!; [done| |apply NoDup_singleton]. intros x Hx ->%list_elem_of_singleton. done.
  - apply NoDup_key_snoc; [done|]. by intros b Hb ?%H.
  - apply NoDup_key_snoc; [done|]. by intros b Hb ?%H.
  - apply NoDup_key_snoc; [done|]. by intros b Hb ?%H.
  - by apply StronglySorted_select.
  - intros e [He _]%elem_of_select. by apply K8.
  - apply (update_where_bound e_id p f _ (fun z => 1 <= z <= event_seq d)); [|done].
    intros a. specialize (H a). unfold e_identity in H. congruence.
Qed.

Lemma keys_ok_reachable d : reachable d -> keys_ok d.
Proof. apply reachable_ind_stmt; [apply empty_keys_ok|apply stmt_keys]. Qed.

(** ** Lookups under unique keys *)

Lemma find_task_elem d t : NoDup (t_id <$> tasks d) -> t ∈ tasks d -> find_task (t_id t) d = Some t.
Proof.
  intros Hnd Ht. unfold find_task. destruct (first _ _) as [t'|] eqn:E.
  - apply first_Some in E as [Ht' Hid]. bool_to_prop. f_equal. by eapply (NoDup_key_eq t_id).
  - rewrite first_None in E. specialize (E t Ht). cbn in E. by rewrite Z.eqb_refl in E.
Qed.

Lemma find_operation_elem d o : NoDup (o_id <$> operations d) -> o ∈ operations d -> find_operation (o_id o) d = Some o.
Proof.
  intros Hnd Ho. unfold find_operation. destruct (first _ _) as [o'|] eqn:E.
  - apply first_Some in E as [Ho' Hid]. bool_to_prop. f_equal. by eapply (NoDup_key_eq o_id).
  - rewrite first_None in E. specialize (E o Ho). cbn in E. by rewrite bool_decide_true in E.
Qed.
