(* ===== verification/StoreDeps.v ===== *)
(** * The dependency graph: the recursive query and acyclicity

    [ancestors] models the recursive SQL query that collects everything a task
    waits for.  It is the transitive closure of the dependency table, and the
    fuel [length deps] it runs with is always enough. *)

From S2P Require Import Prelude Py Vocab States StoreData StoreTasks.
From stdpp Require Import options.
Local Open Scope Z_scope.

(** [t] waits for [p]. *)
Definition waits (deps : list (Z * Z)) (t p : Z) : Prop := (t, p) ∈ deps.
Definition acyclic (deps : list (Z * Z)) : Prop := forall t, ~ tc (waits deps) t t.

Lemma elem_of_depends_of deps t p : p ∈ depends_of deps t <-> waits deps t p.
Proof.
  unfold depends_of, waits. rewrite list_elem_of_fmap. split.
  - intros ([t' p'] & -> & [Hin Heq]%elem_of_select). cbn in *. bool_to_prop. by subst.
  - intros Hin. exists (t, p). split; [done|]. apply elem_of_select. cbn. by rewrite Z.eqb_refl.
Qed.

Lemma elem_of_fresh_targets deps seen t x :
  x ∈ fresh_targets deps seen t <-> waits deps t x /\ x ∉ seen.
Proof.
  unfold fresh_targets. rewrite elem_of_remove_dups, elem_of_select, elem_of_depends_of.
  rewrite negb_true_iff, bool_decide_eq_false. done.
Qed.

(** The targets still to be found bound the fuel. *)
Definition targets (deps : list (Z * Z)) : list Z := remove_dups (snd <$> deps).

Lemma waits_targets deps t x : waits deps t x -> x ∈ targets deps.
Proof.
  intros H. unfold targets. apply elem_of_remove_dups, list_elem_of_fmap. by exists (t, x).
Qed.

Lemma length_remove_dups_le {A} `{EqDecision A} (l : list A) : (length (remove_dups l) <= length l)%nat.
Proof. induction l as [|x l IH]; cbn; [lia|]. case_decide; cbn; lia. Qed.

Lemma length_targets deps : (length (targets deps) <= length deps)%nat.
Proof. unfold targets. rewrite length_remove_dups_le. by rewrite length_fmap. Qed.

Lemma NoDup_incl_length (l k : list Z) : NoDup l -> l ⊆ k -> (length l <= length k)%nat.
Proof. intros Hl Hk. by apply submseteq_length, NoDup_submseteq. Qed.

(** Loop invariant of the query: the found rows are distinct targets, the rows
    already expanded have all their targets found. *)
Record cte_inv (deps : list (Z * Z)) (queue seen : list Z) : Prop := {
  ci_nodup : NoDup seen;
  ci_targets : seen ⊆ targets deps;
  ci_queue : queue ⊆ seen;
  ci_expanded : forall y x, y ∈ seen -> y ∉ queue -> waits deps y x -> x ∈ seen;
}.

Lemma cte_inv_step deps x queue seen :
  cte_inv deps (x :: queue) seen ->
  cte_inv deps (queue ++ fresh_targets deps seen x) (seen ++ fresh_targets deps seen x).
Proof.
  intros [Hnd Ht Hq He]. split.
  - apply NoDup_app. split_and!; [done| |apply NoDup_remove_dups].
    intros y Hy [_ Hn]%elem_of_fresh_targets. done.
  - intros y [Hy|[Hy _]%elem_of_fresh_targets]%elem_of_app; [by apply Ht|by eapply waits_targets].
  - intros y [Hy|Hy]%elem_of_app; apply elem_of_app; [left; apply Hq; by right|by right].
  - intros y z Hy Hny Hw. rewrite not_elem_of_app in Hny. destruct Hny as [Hny Hnf].
    apply elem_of_app in Hy as [Hy|Hy]; [|done].
    destruct (decide (y = x)) as [->|Hne].
    + destruct (decide (z ∈ seen)); apply elem_of_app; [by left|]. right. by apply elem_of_fresh_targets.
    + apply elem_of_app. left. eapply He; [exact Hy| |done]. rewrite not_elem_of_cons. done.
Qed.

(** With enough fuel the result is closed; it only grows, by waited-for rows. *)
Lemma cte_closed fuel deps queue seen :
  cte_inv deps queue seen -> (length queue + length (targets deps) <= fuel + length seen)%nat ->
  seen ⊆ cte fuel deps queue seen /\
  (forall y x, y ∈ cte fuel deps queue seen -> waits deps y x -> x ∈ cte fuel deps queue seen).
Proof.
  revert queue seen. induction fuel as [|fuel IH]; intros queue seen Hinv Hfuel.
  - pose proof (NoDup_incl_length _ _ (ci_nodup _ _ _ Hinv) (ci_targets _ _ _ Hinv)) as Hlen.
    destruct queue; [|cbn in Hfuel; lia]. cbn. split; [done|].
    intros y x Hy. apply Hinv; [done|]. apply not_elem_of_nil.
  - destruct queue as [|q queue]; cbn.
    + split; [done|]. intros y x Hy. apply Hinv; [done|]. apply not_elem_of_nil.
    + destruct (IH _ _ (cte_inv_step _ _ _ _ Hinv)) as [Hsub Hcl].
      { rewrite !length_app. cbn in Hfuel. lia. }
      split; [|exact Hcl]. intros y Hy. apply Hsub, elem_of_app. by left.
Qed.

Lemma cte_sound fuel deps queue seen x :
  queue ⊆ seen -> x ∈ cte fuel deps queue seen -> x ∈ seen \/ exists y, y ∈ seen /\ tc (waits deps) y x.
Proof.
  revert queue seen. induction fuel as [|fuel IH]; intros queue seen Hq; cbn; [by left|].
  destruct queue as [|q queue]; [by left|]. intros Hx.
  apply IH in Hx; [|set_solver].
  assert (Hnew : forall y, y ∈ seen ++ fresh_targets deps seen q -> y ∈ seen \/ exists z, z ∈ seen /\ tc (waits deps) z y).
  { intros y [Hy|[Hy _]%elem_of_fresh_targets]%elem_of_app; [by left|]. right. exists q.
    split; [apply Hq; by left|by apply tc_once]. }
  destruct Hx as [Hx|(y & Hy & Hyx)]; [by apply Hnew|].
  right. destruct (Hnew y Hy) as [?|(z & Hz & Hzy)]; [eauto|]. exists z. split; [done|]. by etrans.
Qed.

Lemma elem_of_ancestors deps t x : x ∈ ancestors deps t <-> tc (waits deps) t x.
Proof.
  unfold ancestors. set (start := remove_dups (depends_of deps t)).
  assert (Hstart : forall y, y ∈ start <-> waits deps t y).
  { intros y. unfold start. by rewrite elem_of_remove_dups, elem_of_depends_of. }
  split.
  - intros Hx. apply cte_sound in Hx as [Hx|(y & Hy & Hyx)]; [| |done].
    + by apply tc_once, Hstart.
    + eapply tc_l; [by apply Hstart|done].
  - assert (Hinv : cte_inv deps start start).
    { split; [apply NoDup_remove_dups| |done|done]. intros y Hy%Hstart. by eapply waits_targets. }
    destruct (cte_closed (length deps) _ _ _ Hinv) as [Hsub Hcl].
    { pose proof (length_targets deps). lia. }
    intros Htc. assert (Hgen : forall y, tc (waits deps) y x -> (y = t \/ y ∈ cte (length deps) deps start start) ->
      x ∈ cte (length deps) deps start start); [|by eapply Hgen; [|left]].
    clear Htc. intros y. induction 1 as [y x Hw|y z x Hw _ IH]; intros Hy.
    + destruct Hy as [->|Hy]; [by apply Hsub, Hstart|by eapply Hcl].
    + apply IH. right. destruct Hy as [->|Hy]; [by apply Hsub, Hstart|by eapply Hcl].
Qed.

(** ** Adding an edge *)

Lemma tc_snoc_edge deps t p x y :
  tc (waits (deps ++ [(t, p)])) x y ->
  tc (waits deps) x y \/ ((x = t \/ tc (waits deps) x t) /\ (y = p \/ tc (waits deps) p y)).
Proof.
  induction 1 as [x y Hw|x y z Hw _ IH].
  - apply elem_of_app in Hw as [Hw|Hw]; [left; by apply tc_once|].
    apply list_elem_of_singleton in Hw as [= -> ->]. right. split; by left.
  - apply elem_of_app in Hw as [Hw|Hw].
    + destruct IH as [IH|[[->|Hx] Hy]]; [left; by eapply tc_l| |].
      * right. split; [right; by apply tc_once|done].
      * right. split; [right; by eapply tc_l|done].
    + apply list_elem_of_singleton in Hw as [= -> ->]. right. split; [by left|].
      destruct IH as [IH|[_ Hy]]; [by right|done].
Qed.

Lemma acyclic_snoc deps t p :
  acyclic deps -> t ≠ p -> ~ tc (waits deps) p t -> acyclic (deps ++ [(t, p)]).
Proof.
  intros Hac Hne Hn x Hx. apply tc_snoc_edge in Hx as [Hx|[Hx Hp]]; [by eapply Hac|].
  destruct Hx as [->|Hx], Hp as [Hp|Hp].
  - done.
  - done.
  - subst x. by apply Hn.
  - apply Hn. by etrans.
Qed.

(** The recursive query that looks for cycles finds exactly the tasks
    that [t] waits for, directly or through other tasks, within the fuel it is
    given. *)
Theorem dependency_query_closure (deps : list (Z * Z)) (t x : Z) :
  x ∈ ancestors deps t <-> tc (waits deps) t x.
Proof. apply elem_of_ancestors. Qed.
