(* ===== verification/Lifecycle.v ===== *)
(** * The abstract lifecycle machine

    What the store promises about missions, tasks, dependencies and
    operations, without rows, events or SQL: a state of four finite maps, a
    step relation with one constructor per kind of change an operator, the
    scheduler or a provider exit may cause, and the invariant every step
    keeps.  [StoreRefines] proves that every store method is a sequence of
    these steps. *)

From S2P Require Import Prelude Py Vocab States StoreData.
From stdpp Require Import options.
Local Open Scope Z_scope.

Record amission : Type := AMission { am_repo : string; am_status : MissionStatus }.
Record atask : Type := ATask { at_mission : string; at_status : TaskStatus; at_effective : bool }.
Record aop : Type := AOp { ao_mission : string; ao_task : Z; ao_status : OperationStatus }.

(** [l_seq] bounds the task ids handed out; [l_deps t p]: [t] waits for [p]. *)
Record life : Type := Life {
  l_missions : gmap string amission;
  l_tasks : gmap Z atask;
  l_deps : gset (Z * Z);
  l_ops : gmap string aop;
  l_seq : Z;
}.

Definition controlled (s : MissionStatus) : bool := is_in s CONTROLLED_MISSION_STATUSES.
(** The statuses a task only reaches through a provider's exit or the review. *)
Definition settled : list TaskStatus := [T_VERIFYING; T_COMPLETED; T_FAILED].

Definition l_waits (l : life) (t p : Z) : Prop := (t, p) ∈ l_deps l.
Definition l_complete (l : life) (t : Z) : Prop :=
  forall p r, l_waits l t p -> l_tasks l !! p = Some r -> at_status r = T_COMPLETED.
(** Some operation of the task is unresolved. *)
Definition l_busy (l : life) (t : Z) : Prop :=
  exists id o, l_ops l !! id = Some o /\ ao_task o = t /\ active_status (ao_status o) = true.
(** Every effective task of the mission is completed, and there is one. *)
Definition l_all_completed (l : life) (m : string) : Prop :=
  (forall id t, l_tasks l !! id = Some t -> at_mission t = m -> at_effective t = true -> at_status t = T_COMPLETED) /\
  exists id t, l_tasks l !! id = Some t /\ at_mission t = m /\ at_effective t = true.

Definition a_set_status (s : TaskStatus) (t : atask) : atask := ATask (at_mission t) s (at_effective t).
Definition a_accept (t : atask) : atask := ATask (at_mission t) (at_status t) true.
Definition a_set_op (s : OperationStatus) (o : aop) : aop := AOp (ao_mission o) (ao_task o) s.
Definition a_set_mission (s : MissionStatus) (m : amission) : amission := AMission (am_repo m) s.

Definition with_missions (v : gmap string amission) (l : life) : life := Life v (l_tasks l) (l_deps l) (l_ops l) (l_seq l).
Definition with_tasks (v : gmap Z atask) (l : life) : life := Life (l_missions l) v (l_deps l) (l_ops l) (l_seq l).
Definition with_deps (v : gset (Z * Z)) (l : life) : life := Life (l_missions l) (l_tasks l) v (l_ops l) (l_seq l).
Definition with_ops (v : gmap string aop) (l : life) : life := Life (l_missions l) (l_tasks l) (l_deps l) v (l_seq l).
Definition with_seq (v : Z) (l : life) : life := Life (l_missions l) (l_tasks l) (l_deps l) (l_ops l) v.

Definition l_set_task (id : Z) (t : atask) (l : life) : life := with_tasks (<[id := t]> (l_tasks l)) l.
Definition l_set_mission (id : string) (m : amission) (l : life) : life := with_missions (<[id := m]> (l_missions l)) l.
Definition l_set_op (id : string) (o : aop) (l : life) : life := with_ops (<[id := o]> (l_ops l)) l.

(** A task added to a completed mission reopens it. *)
Definition reopened (m : amission) : amission :=
  match am_status m with M_COMPLETED => a_set_mission M_STOPPED m | _ => m end.

(** The statuses a provider's exit may give, before the operator's own pause
    or cancellation of the task is honoured. *)
Definition exit_statuses : list TaskStatus := [T_VERIFYING; T_READY; T_BLOCKED; T_FAILED; T_CANCELLED].
Definition kept_at_exit (s : TaskStatus) : bool := is_in s [T_CANCELLED; T_PAUSED].

(** [v] is the task a running [verify_task] is about: no other method may
    complete a task. *)
Inductive lstep (v : option Z) (l : life) : life -> Prop :=
  | L_new_mission id repo :
      l_missions l !! id = None ->
      lstep v l (l_set_mission id (AMission repo M_CREATED) l)
  | L_mission id m s :
      l_missions l !! id = Some m -> mission_move (am_status m) s ->
      (s = M_COMPLETED -> l_all_completed l id) ->
      (controlled s = true -> forall id' m', l_missions l !! id' = Some m' -> id' ≠ id ->
         controlled (am_status m') = true -> am_repo m' ≠ am_repo m) ->
      lstep v l (l_set_mission id (a_set_mission s m) l)
  | L_new_task mid m :
      l_missions l !! mid = Some m -> am_status m ≠ M_CANCELLED ->
      lstep v l (with_seq (l_seq l + 1) (l_set_mission mid (reopened m)
                 (l_set_task (l_seq l + 1) (ATask mid T_QUEUED true) l)))
  | L_propose mid m :
      l_missions l !! mid = Some m -> am_status m ∉ FINISHED_MISSION_STATUSES ->
      lstep v l (with_seq (l_seq l + 1) (l_set_task (l_seq l + 1) (ATask mid T_QUEUED false) l))
  | L_dependency t p rt rp :
      l_tasks l !! t = Some rt -> l_tasks l !! p = Some rp -> at_mission rt = at_mission rp ->
      at_status rt ∉ [T_RUNNING; T_VERIFYING; T_COMPLETED; T_CANCELLED] ->
      t ≠ p -> ~ tc (l_waits l) p t ->
      lstep v l (with_deps ({[(t, p)]} ∪ l_deps l) l)
  | L_task id t s :
      l_tasks l !! id = Some t -> task_move (at_status t) s -> (s = T_READY -> l_complete l id) ->
      lstep v l (l_set_task id (a_set_status s t) l)
  | L_amend id t :
      l_tasks l !! id = Some t -> at_status t = T_VERIFYING ->
      lstep v l (l_set_task id (a_set_status T_READY t) l)
  | L_release id t :
      l_tasks l !! id = Some t -> at_status t = T_BLOCKED ->
      lstep v l (l_set_task id (a_set_status T_READY t) l)
  | L_retry id t :
      l_tasks l !! id = Some t -> at_status t = T_FAILED -> l_complete l id ->
      lstep v l (l_set_task id (a_set_status T_READY t) l)
  | L_verify id t :
      v = Some id -> l_tasks l !! id = Some t -> at_status t = T_VERIFYING -> l_complete l id ->
      lstep v l (l_set_task id (a_set_status T_COMPLETED t) l)
  | L_accept id t m :
      l_tasks l !! id = Some t -> at_effective t = false ->
      l_missions l !! at_mission t = Some m -> am_status m ∉ FINISHED_MISSION_STATUSES ->
      lstep v l (l_set_task id (a_accept t) l)
  | L_reject id t :
      l_tasks l !! id = Some t -> at_effective t = false ->
      lstep v l (l_set_task id (a_set_status T_CANCELLED t) l)
  | L_begin id t m op :
      l_tasks l !! id = Some t -> l_missions l !! at_mission t = Some m -> am_status m = M_RUNNING ->
      at_status t ∈ [T_QUEUED; T_READY; T_RUNNING] -> at_effective t = true ->
      ~ l_busy l id -> l_complete l id -> l_ops l !! op = None ->
      lstep v l (l_set_op op (AOp (at_mission t) id O_PREPARED) (l_set_task id (a_set_status T_RUNNING t) l))
  | L_run op o t m :
      l_ops l !! op = Some o -> ao_status o = O_PREPARED ->
      l_missions l !! ao_mission o = Some m -> am_status m = M_RUNNING ->
      l_tasks l !! ao_task o = Some t -> at_status t = T_RUNNING ->
      lstep v l (l_set_op op (a_set_op O_RUNNING o) l)
  | L_exit op o t s :
      l_ops l !! op = Some o -> active_status (ao_status o) = true ->
      l_tasks l !! ao_task o = Some t ->
      (if kept_at_exit (at_status t) then s = at_status t else s ∈ exit_statuses) ->
      lstep v l (l_set_task (ao_task o) (a_set_status s t) (l_set_op op (a_set_op O_EXITED o) l))
  | L_interrupt op o t :
      l_ops l !! op = Some o -> active_status (ao_status o) = true ->
      l_tasks l !! ao_task o = Some t ->
      lstep v l (l_set_task (ao_task o) (a_set_status T_BLOCKED t) (l_set_op op (a_set_op O_UNCERTAIN o) l)).

Arguments L_new_mission {v}.
Arguments L_mission {v}.
Arguments L_new_task {v}.
Arguments L_propose {v}.
Arguments L_dependency {v}.
Arguments L_task {v}.
Arguments L_amend {v}.
Arguments L_release {v}.
Arguments L_retry {v}.
Arguments L_verify {v}.
Arguments L_accept {v}.
Arguments L_reject {v}.
Arguments L_begin {v}.
Arguments L_run {v}.
Arguments L_exit {v}.
Arguments L_interrupt {v}.

Abbreviation lsteps v := (rtc (lstep v)).

(** ** The invariant *)

Record lifecycle_ok (l : life) : Prop := {
  lo_seq : forall id t, l_tasks l !! id = Some t -> id <= l_seq l;
  lo_task_mission : forall id t, l_tasks l !! id = Some t -> is_Some (l_missions l !! at_mission t);
  lo_deps : forall t p, l_waits l t p -> exists rt rp,
    l_tasks l !! t = Some rt /\ l_tasks l !! p = Some rp /\ at_mission rt = at_mission rp;
  (** an operation belongs to a task of its mission *)
  lo_op_task : forall id o, l_ops l !! id = Some o -> exists t,
    l_tasks l !! ao_task o = Some t /\ at_mission t = ao_mission o;
  (** at most one unresolved operation per task *)
  lo_one_op : forall id id' o o', l_ops l !! id = Some o -> l_ops l !! id' = Some o' ->
    active_status (ao_status o) = true -> active_status (ao_status o') = true ->
    ao_task o = ao_task o' -> id = id';
  (** a task with an unresolved operation was scheduled and is not settled *)
  lo_busy : forall id t, l_tasks l !! id = Some t -> l_busy l id ->
    at_effective t = true /\ at_status t ∉ settled;
  lo_acyclic : forall t, ~ tc (l_waits l) t t;
  (** what a completed task waited for is completed *)
  lo_completed : forall id t, l_tasks l !! id = Some t -> at_status t = T_COMPLETED -> l_complete l id;
  (** a completed mission has no open work *)
  lo_mission_completed : forall id m, l_missions l !! id = Some m -> am_status m = M_COMPLETED -> l_all_completed l id;
  (** one controlled mission per repository *)
  lo_controlled : forall id id' m m', l_missions l !! id = Some m -> l_missions l !! id' = Some m' ->
    controlled (am_status m) = true -> controlled (am_status m') = true -> am_repo m = am_repo m' -> id = id';
  (** a proposal nobody accepted is never settled *)
  lo_proposal : forall id t, l_tasks l !! id = Some t -> at_effective t = false -> at_status t ∉ settled;
}.

Definition empty_life : life := Life ∅ ∅ ∅ ∅ 0.

Lemma empty_life_ok : lifecycle_ok empty_life.
Proof.
  split; unfold l_waits, l_busy, l_all_completed, empty_life; cbn; intros; simplify_map_eq; try set_solver.
  intros Hc. inversion Hc; set_solver.
Qed.

(** ** Every step keeps the invariant

    The steps decompose into six elementary changes. *)

Lemma l_set_task_lookup id t l id' r :
  l_tasks (l_set_task id t l) !! id' = Some r <-> (id = id' /\ t = r) \/ (id ≠ id' /\ l_tasks l !! id' = Some r).
Proof. apply lookup_insert_Some. Qed.
Lemma l_set_op_lookup id o l id' r :
  l_ops (l_set_op id o l) !! id' = Some r <-> (id = id' /\ o = r) \/ (id ≠ id' /\ l_ops l !! id' = Some r).
Proof. apply lookup_insert_Some. Qed.

Section elementary.
Context (l : life) (Hok : lifecycle_ok l).

Lemma busy_not_settled id t : l_tasks l !! id = Some t -> at_status t ∈ settled -> ~ l_busy l id.
Proof using Hok. intros Ht Hs Hb. by destruct (lo_busy l Hok id t Ht Hb). Qed.

Lemma ok_set_status id t s :
  l_tasks l !! id = Some t ->
  (at_status t = T_COMPLETED -> s = T_COMPLETED) -> (s = T_COMPLETED -> l_complete l id) ->
  (l_busy l id -> s ∉ settled) -> (at_effective t = false -> s ∉ settled) ->
  lifecycle_ok (l_set_task id (a_set_status s t) l).
Proof using Hok.
  intros Ht Hkeep Hcomp Hbusy Hprop.
  assert (Hlook : forall id' r, l_tasks (l_set_task id (a_set_status s t) l) !! id' = Some r ->
    exists r0, l_tasks l !! id' = Some r0 /\ at_mission r = at_mission r0 /\ at_effective r = at_effective r0 /\
      ((id' = id /\ at_status r = s) \/ (id' ≠ id /\ r = r0))).
  { intros id' r [[<- <-]|[Hne Hr]]%l_set_task_lookup; [by eauto 10|]. exists r. eauto 10. }
  assert (Hsome : forall id' r0, l_tasks l !! id' = Some r0 ->
    exists r, l_tasks (l_set_task id (a_set_status s t) l) !! id' = Some r /\ at_mission r = at_mission r0 /\
      at_effective r = at_effective r0).
  { intros id' r0 Hr. destruct (decide (id' = id)) as [->|Hne]; cbn.
    - rewrite lookup_insert_eq. simplify_map_eq. eauto.
    - rewrite lookup_insert_ne by done. eauto. }
  assert (Hdone : forall id' r0 r, l_tasks l !! id' = Some r0 -> at_status r0 = T_COMPLETED ->
    l_tasks (l_set_task id (a_set_status s t) l) !! id' = Some r -> at_status r = T_COMPLETED).
  { intros id' r0 r Hr0 Hc Hr. apply Hlook in Hr as (r0' & Hr0' & _ & _ & [[-> ->]|[_ ->]]); simplify_map_eq; auto. }
  split; cbn -[l_tasks].
  - intros id' r (r0 & Hr0 & _)%Hlook. by eapply (lo_seq l).
  - intros id' r (r0 & Hr0 & -> & _)%Hlook. by eapply (lo_task_mission l).
  - intros t' p Hw. destruct (lo_deps l Hok t' p Hw) as (rt & rp & Hrt & Hrp & Hm).
    destruct (Hsome _ _ Hrt) as (rt' & ? & ? & _), (Hsome _ _ Hrp) as (rp' & ? & ? & _).
    exists rt', rp'. split_and!; congruence.
  - intros id' o Ho. destruct (lo_op_task l Hok id' o Ho) as (r & Hr & Hm).
    destruct (Hsome _ _ Hr) as (r' & ? & ? & _). exists r'. split; congruence.
  - apply (lo_one_op l Hok).
  - intros id' r Hr Hb. apply Hlook in Hr as (r0 & Hr0 & _ & -> & Hcase).
    destruct (lo_busy l Hok id' r0 Hr0 Hb) as [He Hs].
    destruct Hcase as [[-> ->]|[_ ->]]; auto.
  - apply (lo_acyclic l Hok).
  - intros id' r Hr Hc p rp Hw Hrp.
    apply Hlook in Hr as (r0 & Hr0 & _ & _ & Hcase).
    pose proof Hrp as (rp0 & Hrp0 & _)%Hlook. eapply Hdone; [exact Hrp0| |exact Hrp].
    destruct Hcase as [[-> Hs]|[_ ->]]; [eapply Hcomp; [congruence|done..]|].
    by eapply (lo_completed l Hok id' r0).
  - intros m am Ham Hc. destruct (lo_mission_completed l Hok m am Ham Hc) as [Hall (id0 & t0 & Ht0 & Hm0 & He0)].
    split.
    + intros id' r Hr Hm He. pose proof Hr as (r0 & Hr0 & Hmr & Her & _)%Hlook.
      eapply Hdone; [exact Hr0| |exact Hr]. eapply Hall; [done|congruence..].
    + destruct (Hsome _ _ Ht0) as (t1 & ? & ? & ?). exists id0, t1. split_and!; congruence.
  - apply (lo_controlled l Hok).
  - intros id' r (r0 & Hr0 & _ & -> & Hcase)%Hlook He.
    destruct Hcase as [[-> ->]|[_ ->]]; [apply Hprop; congruence|by eapply (lo_proposal l Hok)].
Qed.

(** An existing operation changes status without becoming unresolved again. *)
Lemma ok_set_op id o s :
  l_ops l !! id = Some o -> (active_status s = true -> active_status (ao_status o) = true) ->
  lifecycle_ok (l_set_op id (a_set_op s o) l).
Proof using Hok.
  intros Ho Hact.
  assert (Hlook : forall id' r, l_ops (l_set_op id (a_set_op s o) l) !! id' = Some r -> exists r0,
    l_ops l !! id' = Some r0 /\ ao_mission r = ao_mission r0 /\ ao_task r = ao_task r0 /\
    (active_status (ao_status r) = true -> active_status (ao_status r0) = true)).
  { intros id' r [[<- <-]|[Hne Hr]]%l_set_op_lookup; [|exists r; auto]. exists o. auto. }
  assert (Hbusy : forall t, l_busy (l_set_op id (a_set_op s o) l) t -> l_busy l t).
  { intros t (id' & r & (r0 & Hr0 & _ & Ht & Ha)%Hlook & Hrt & Hra). exists id', r0. split_and!; auto; congruence. }
  split; try apply Hok; cbn -[l_ops l_set_op].
  - intros id' r (r0 & Hr0 & -> & -> & _)%Hlook. by eapply (lo_op_task l Hok).
  - intros id1 id2 o1 o2 (r1 & Hr1 & _ & H1 & A1)%Hlook (r2 & Hr2 & _ & H2 & A2)%Hlook ???.
    eapply (lo_one_op l Hok); eauto. congruence.
  - intros t r Hr Hb%Hbusy. by eapply (lo_busy l Hok).
Qed.

Lemma ok_new_op id t op :
  l_tasks l !! id = Some t -> ~ l_busy l id -> at_effective t = true -> at_status t ∉ settled ->
  l_ops l !! op = None -> lifecycle_ok (l_set_op op (AOp (at_mission t) id O_PREPARED) l).
Proof using Hok.
  intros Ht Hnb He Hs Hop.
  assert (Hlook : forall id' r, l_ops (l_set_op op (AOp (at_mission t) id O_PREPARED) l) !! id' = Some r ->
    (id' = op /\ r = AOp (at_mission t) id O_PREPARED) \/ (id' ≠ op /\ l_ops l !! id' = Some r)).
  { intros id' r [[<- <-]|[Hne Hr]]%l_set_op_lookup; auto. }
  split; try apply Hok; cbn -[l_ops l_set_op].
  - intros id' r [[-> ->]|[_ Hr]]%Hlook; [by exists t|by eapply (lo_op_task l Hok)].
  - intros id1 id2 o1 o2 [[-> ->]|[_ H1]]%Hlook [[-> ->]|[_ H2]]%Hlook A1 A2 Heq; cbn in *.
    + done.
    + destruct Hnb. exists id2, o2. auto.
    + destruct Hnb. exists id1, o1. auto.
    + by eapply (lo_one_op l Hok).
  - intros id' r Hr (op' & o & [[-> ->]|[_ Ho]]%Hlook & Hto & Ha); cbn in *.
    + simplify_map_eq. done.
    + eapply (lo_busy l Hok); [done|]. exists op', o. auto.
Qed.

Lemma ok_set_mission id m' :
  (am_status m' = M_COMPLETED -> l_all_completed l id) ->
  (controlled (am_status m') = true -> forall id2 m2, l_missions l !! id2 = Some m2 -> id2 ≠ id ->
     controlled (am_status m2) = true -> am_repo m2 ≠ am_repo m') ->
  lifecycle_ok (l_set_mission id m' l).
Proof using Hok.
  intros Hcomp Hctl. split; try apply Hok; cbn.
  - intros t r Hr. destruct (lo_task_mission l Hok t r Hr) as [x Hx].
    destruct (decide (at_mission r = id)) as [->|Hne]; [rewrite lookup_insert_eq|rewrite lookup_insert_ne by done]; eauto.
  - intros id1 m1 [[<- <-]|[Hne H1]]%lookup_insert_Some Hs; [by apply Hcomp|by eapply (lo_mission_completed l Hok)].
  - intros id1 id2 m1 m2 [[<- <-]|[Hn1 H1]]%lookup_insert_Some [[<- <-]|[Hn2 H2]]%lookup_insert_Some C1 C2 Heq.
    + done.
    + exfalso. by eapply (Hctl C1 id2 m2).
    + exfalso. by eapply (Hctl C2 id1 m1).
    + by eapply (lo_controlled l Hok).
Qed.

Lemma ok_new_task mid m e :
  l_missions l !! mid = Some m -> (e = true -> am_status m ≠ M_COMPLETED) ->
  lifecycle_ok (with_seq (l_seq l + 1) (l_set_task (l_seq l + 1) (ATask mid T_QUEUED e) l)).
Proof using Hok.
  intros Hm He. set (i := l_seq l + 1).
  assert (Hfresh : forall id r, l_tasks l !! id = Some r -> id ≠ i).
  { intros id r Hr%(lo_seq l Hok). lia. }
  assert (Hnone : l_tasks l !! i = None).
  { apply eq_None_not_Some. intros [r Hr]. by eapply Hfresh. }
  assert (Hlook : forall id r, <[i := ATask mid T_QUEUED e]> (l_tasks l) !! id = Some r ->
    (id = i /\ r = ATask mid T_QUEUED e) \/ (id ≠ i /\ l_tasks l !! id = Some r)).
  { intros id r [[<- <-]|[Hne Hr]]%lookup_insert_Some; auto. }
  assert (Hold : forall id r, l_tasks l !! id = Some r -> <[i := ATask mid T_QUEUED e]> (l_tasks l) !! id = Some r).
  { intros id r Hr. rewrite lookup_insert_ne; [done|]. apply not_eq_sym. by eapply Hfresh. }
  assert (Hnodep : forall t p, l_waits l t p -> t ≠ i /\ p ≠ i).
  { intros t p Hw. destruct (lo_deps l Hok t p Hw) as (? & ? & ? & ? & _). split; by eapply Hfresh. }
  split; try apply Hok; cbn.
  - intros id r [[-> _]|[_ Hr]]%Hlook; [lia|]. apply (lo_seq l Hok) in Hr. lia.
  - intros id r [[-> ->]|[_ Hr]]%Hlook; [by exists m|by eapply (lo_task_mission l Hok)].
  - intros t p Hw. destruct (lo_deps l Hok t p Hw) as (rt & rp & ? & ? & ?). exists rt, rp. auto.
  - intros id o Ho. destruct (lo_op_task l Hok id o Ho) as (r & ? & ?). exists r. auto.
  - intros id r [[-> ->]|[_ Hr]]%Hlook Hb; [|by eapply (lo_busy l Hok)].
    destruct Hb as (op & o & Ho & Hto & _). destruct (lo_op_task l Hok op o Ho) as (r & Hr & _). cbn in *.
    exfalso. eapply Hfresh; [exact Hr|done].
  - intros id r [[-> ->]|[_ Hr]]%Hlook Hs; [done|]. intros p rp Hw [[-> _]|[_ Hrp]]%Hlook.
    + exfalso. by apply (Hnodep id i Hw).
    + by eapply (lo_completed l Hok id r Hr Hs).
  - intros id am Ham Hs. destruct (lo_mission_completed l Hok id am Ham Hs) as [Hall (id0 & t0 & ? & ? & ?)].
    split; [|exists id0, t0; auto].
    intros id' r [[-> ->]|[_ Hr]]%Hlook Hmr Her; cbn in *; [|by eapply Hall].
    subst. simplify_map_eq. exfalso. by apply He.
  - intros id r [[-> ->]|[_ Hr]]%Hlook Hs; [set_solver|by eapply (lo_proposal l Hok)].
Qed.

Lemma ok_new_dependency t p rt rp :
  l_tasks l !! t = Some rt -> l_tasks l !! p = Some rp -> at_mission rt = at_mission rp ->
  at_status rt ≠ T_COMPLETED -> t ≠ p -> ~ tc (l_waits l) p t ->
  lifecycle_ok (with_deps ({[(t, p)]} ∪ l_deps l) l).
Proof using Hok.
  intros Ht Hp Hm Hs Hne Htc.
  assert (Hw : forall x y, l_waits (with_deps ({[(t, p)]} ∪ l_deps l) l) x y -> (x = t /\ y = p) \/ l_waits l x y).
  { unfold l_waits; cbn. intros x y [[= -> ->]%elem_of_singleton|H]%elem_of_union; auto. }
  assert (Hpath : forall x y, tc (l_waits (with_deps ({[(t, p)]} ∪ l_deps l) l)) x y ->
    tc (l_waits l) x y \/ ((x = t \/ tc (l_waits l) x t) /\ (y = p \/ tc (l_waits l) p y))).
  { intros x y. induction 1 as [x y [[-> ->]|H]%Hw|x y z [[-> ->]|H]%Hw _ IH].
    - right. auto.
    - left. by apply tc_once.
    - right. split; [auto|]. destruct IH as [?|[_ ?]]; auto.
    - destruct IH as [IH|[[->|Hx] Hz]]; [left; by eapply tc_l| |].
      + right. split; [right; by apply tc_once|done].
      + right. split; [right; by eapply tc_l|done]. }
  split; try apply Hok.
  - intros x y [[-> ->]|H]%Hw; [exists rt, rp; auto|by apply (lo_deps l Hok)].
  - intros x [Hx|[[->|Hx] [Hy|Hy]]]%Hpath; [by eapply (lo_acyclic l Hok)|done|done|by subst|].
    apply Htc. by etrans.
  - intros id r Hr Hc y ry [[-> ->]|H]%Hw Hry; cbn in *; [congruence|by eapply (lo_completed l Hok id r)].
Qed.

Lemma ok_accept id t m :
  l_tasks l !! id = Some t -> at_effective t = false -> l_missions l !! at_mission t = Some m ->
  am_status m ≠ M_COMPLETED -> lifecycle_ok (l_set_task id (a_accept t) l).
Proof using Hok.
  intros Ht He Hm Hs.
  assert (Hlook : forall id' r, <[id := a_accept t]> (l_tasks l) !! id' = Some r -> exists r0,
    l_tasks l !! id' = Some r0 /\ at_mission r = at_mission r0 /\ at_status r = at_status r0 /\
    ((id' = id /\ at_effective r = true) \/ (id' ≠ id /\ r = r0))).
  { intros id' r [[<- <-]|[Hne Hr]]%lookup_insert_Some; [|by eauto 10]. exists t. auto 10. }
  assert (Hsome : forall id' r0, l_tasks l !! id' = Some r0 -> exists r,
    <[id := a_accept t]> (l_tasks l) !! id' = Some r /\ at_mission r = at_mission r0 /\
    (at_effective r0 = true -> at_effective r = true)).
  { intros id' r0 Hr. destruct (decide (id' = id)) as [->|Hne].
    - rewrite lookup_insert_eq. simplify_map_eq. eauto.
    - rewrite lookup_insert_ne by done. eauto. }
  split; try apply Hok; cbn.
  - intros id' r (r0 & Hr0 & _)%Hlook. by eapply (lo_seq l Hok).
  - intros id' r (r0 & Hr0 & -> & _)%Hlook. by eapply (lo_task_mission l Hok).
  - intros x y Hw. destruct (lo_deps l Hok x y Hw) as (rt & rp & Hrt & Hrp & ?).
    destruct (Hsome _ _ Hrt) as (r1 & ? & ? & _), (Hsome _ _ Hrp) as (r2 & ? & ? & _).
    exists r1, r2. split_and!; congruence.
  - intros id' o Ho. destruct (lo_op_task l Hok id' o Ho) as (r & Hr & ?).
    destruct (Hsome _ _ Hr) as (r' & ? & ? & _). exists r'. split; congruence.
  - intros id' r (r0 & Hr0 & _ & -> & Hcase)%Hlook Hb. destruct (lo_busy l Hok id' r0 Hr0 Hb).
    destruct Hcase as [[-> ->]|[_ ->]]; auto.
  - intros id' r (r0 & Hr0 & _ & Hst & _)%Hlook Hc y ry Hw (ry0 & Hry0 & _ & -> & _)%Hlook.
    eapply (lo_completed l Hok id' r0); eauto. congruence.
  - intros mid am Ham Hc. destruct (lo_mission_completed l Hok mid am Ham Hc) as [Hall (id0 & t0 & Ht0 & Hm0 & He0)].
    split.
    + intros id' r (r0 & Hr0 & Hmr & -> & Hcase)%Hlook Hmid Her. destruct Hcase as [[-> _]|[_ ->]].
      * simplify_map_eq. congruence.
      * by eapply Hall.
    + destruct (Hsome _ _ Ht0) as (r & ? & ? & Her). exists id0, r. split_and!; [done|congruence|auto].
  - intros id' r (r0 & Hr0 & _ & -> & Hcase)%Hlook Her.
    destruct Hcase as [[_ Heff]|[_ ->]]; [congruence|by eapply (lo_proposal l Hok)].
Qed.
End elementary.

Lemma reopened_status m : am_status (reopened m) ≠ M_COMPLETED.
Proof. unfold reopened. destruct (am_status m) eqn:E; cbn; congruence. Qed.
Lemma reopened_controlled m : controlled (am_status (reopened m)) = true -> reopened m = m.
Proof. unfold reopened. by destruct (am_status m). Qed.

Lemma exit_settled_keeps s : s ∈ exit_statuses -> s ≠ T_COMPLETED.
Proof. set_solver. Qed.

Lemma lstep_ok v l l' : lifecycle_ok l -> lstep v l l' -> lifecycle_ok l'.
Proof.
  intros Hok. destruct 1 as [id repo Hn|id m s Hm Hmv Hc Hu|mid m Hm Hs|mid m Hm Hs|t p rt rp Ht Hp Hm Hs Hne Htc
    |id t s Ht Hmv Hr|id t Ht Hs|id t Ht Hs|id t Ht Hs Hc|id t Hv Ht Hs Hc|id t m Ht He Hm Hs|id t Ht He
    |id t m op Ht Hm Hms Hs He Hb Hc Hn|op o t m Ho Hs Hm Hms Ht Hts|op o t s Ho Ha Ht Hs|op o t Ho Ha Ht].
  - by apply ok_set_mission.
  - by apply ok_set_mission.
  - assert (Hok' : lifecycle_ok (l_set_mission mid (reopened m) l)).
    { apply ok_set_mission; [done|intros H; by destruct (reopened_status m)|].
      intros Hctl id2 m2 H2 Hne C2 Heq. pose proof (reopened_controlled m Hctl) as E. rewrite E in *.
      apply Hne. by eapply (lo_controlled l Hok). }
    eapply (ok_new_task _ Hok' mid (reopened m) true); [by cbn; rewrite lookup_insert_eq|].
    intros _. apply reopened_status.
  - eapply (ok_new_task _ Hok mid m false); done.
  - eapply ok_new_dependency; try done. set_solver.
  - apply ok_set_status; auto.
    + intros E. rewrite E in Hmv. apply (task_move_finished _ _ Hmv). set_solver.
    + intros ->. apply task_move_completed in Hmv. by eapply (lo_completed l Hok id t).
    + intros Hb. destruct (lo_busy l Hok id t Ht Hb) as [_ Hns]. clear Hr. destruct s; try set_solver.
      * apply task_move_verifying in Hmv. set_solver.
      * apply task_move_completed in Hmv. set_solver.
      * apply task_move_failed in Hmv. set_solver.
    + intros Hb. pose proof (lo_proposal l Hok id t Ht Hb) as Hns. clear Hr. destruct s; try set_solver.
      * apply task_move_verifying in Hmv. set_solver.
      * apply task_move_completed in Hmv. set_solver.
      * apply task_move_failed in Hmv. set_solver.
  - apply ok_set_status; try done; [congruence|set_solver..].
  - apply ok_set_status; try done; [congruence|set_solver..].
  - apply ok_set_status; try done; [congruence|set_solver..].
  - apply ok_set_status; try done.
    + intros Hb. exfalso. eapply busy_not_settled; [done|exact Ht| |done]. set_solver.
    + intros He. exfalso. pose proof (lo_proposal l Hok id t Ht He). set_solver.
  - eapply ok_accept; try done. set_solver.
  - apply ok_set_status; try done; [|set_solver..].
    intros E. pose proof (lo_proposal l Hok id t Ht He). set_solver.
  - assert (Hok' : lifecycle_ok (l_set_task id (a_set_status T_RUNNING t) l)).
    { apply ok_set_status; try done; [|set_solver..]. intros E. rewrite E in Hs. set_solver. }
    apply (ok_new_op _ Hok' id (a_set_status T_RUNNING t)); try done; [by cbn; rewrite lookup_insert_eq|cbn; set_solver].
  - apply ok_set_op; try done. intros _. by rewrite Hs.
  - assert (Hb : l_busy l (ao_task o)) by (exists op, o; auto).
    destruct (lo_busy l Hok _ _ Ht Hb) as [He Hns].
    assert (Hok' : lifecycle_ok (l_set_op op (a_set_op O_EXITED o) l)) by by apply ok_set_op.
    apply (ok_set_status _ Hok'); try done.
    + intros E. rewrite E in Hns. set_solver.
    + intros ->. destruct (kept_at_exit (at_status t)); set_solver.
    + intros (op' & o' & [[<- <-]|[Hne Ho']]%l_set_op_lookup & Hto & Hao); [done|].
      exfalso. apply Hne. symmetry. eapply (lo_one_op l Hok); eauto.
    + congruence.
  - assert (Hb : l_busy l (ao_task o)) by (exists op, o; auto).
    destruct (lo_busy l Hok _ _ Ht Hb) as [He Hns].
    assert (Hok' : lifecycle_ok (l_set_op op (a_set_op O_UNCERTAIN o) l)) by by apply ok_set_op.
    apply (ok_set_status _ Hok'); try done; [|set_solver..]. intros E. rewrite E in Hns. set_solver.
Qed.

Lemma lsteps_ok v l l' : lsteps v l l' -> lifecycle_ok l -> lifecycle_ok l'.
Proof. induction 1 as [|l l1 l' Hs _ IH]; [done|]. intros Hok. by eapply IH, lstep_ok. Qed.
