(* ===== verification/StoreAbstract.v ===== *)
(** * From the database to the lifecycle machine

    The abstraction function [life_of], the effect of each statement on it,
    and the weakest-precondition rules with which [StoreRefines] walks through
    the store's methods. *)

From S2P Require Import Prelude Py Vocab States StoreData StoreTasks StoreOps StoreLog StoreApi StoreKeys StoreDeps Lifecycle.
From stdpp Require Import options.
Local Open Scope Z_scope.

(** ** Tables as maps *)

Section table.
Context {A B K : Type} `{Countable K} (key : A -> K) (f : A -> B).

(** The first row of a key counts, as in a lookup with LIMIT 1. *)
Definition table (l : list A) : gmap K B := list_to_map ((fun a => (key a, f a)) <$> l).

Lemma table_lookup l k (p : A -> bool) :
  (forall a, p a = bool_decide (key a = k)) -> table l !! k = f <$> first p l.
Proof.
  intros Hp. unfold table. induction l as [|x l IH]; [done|]. csimpl. unfold first in *. cbn. rewrite Hp.
  case_bool_decide as E; [subst; by rewrite lookup_insert_eq|by rewrite lookup_insert_ne].
Qed.

Lemma table_elem l k b : table l !! k = Some b -> exists a, a ∈ l /\ key a = k /\ f a = b.
Proof.
  intros Hb%elem_of_list_to_map_2. apply list_elem_of_fmap in Hb as (a & [= -> ->] & Ha). eauto.
Qed.

Lemma table_update_first l k a0 (p : A -> bool) (g : A -> A) :
  (forall a, p a = bool_decide (key a = k)) -> (forall a, key (g a) = key a) ->
  first p l = Some a0 -> table (update_where p g l) = <[k := f (g a0)]> (table l).
Proof.
  intros Hp Hg Hb. apply map_eq. intros k'. unfold table, update_where, first in *.
  induction l as [|x l IH]; [done|]. cbn in Hb. csimpl. rewrite Hp in *. case_bool_decide as E.
  - injection Hb as <-. rewrite Hg, E.
    destruct (decide (k' = k)) as [->|Hne]; [by rewrite !lookup_insert_eq|].
    rewrite !lookup_insert_ne by done. clear IH. induction l as [|y l IH]; [done|]. csimpl. rewrite Hp.
    case_bool_decide as E'; [rewrite Hg, E', !lookup_insert_ne by done; done|].
    destruct (decide (k' = key y)) as [->|Hy]; [by rewrite !lookup_insert_eq|by rewrite !lookup_insert_ne].
  - specialize (IH Hb). destruct (decide (k' = key x)) as [->|Hne].
    + rewrite (lookup_insert_ne _ k) by done. by rewrite !lookup_insert_eq.
    + rewrite lookup_insert_ne, IH by done. destruct (decide (k' = k)) as [->|Hk].
      * by rewrite !lookup_insert_eq.
      * by rewrite !lookup_insert_ne.
Qed.

Lemma table_update l k b (p : A -> bool) (g : A -> A) (h : B -> B) :
  (forall a, p a = bool_decide (key a = k)) -> (forall a, key (g a) = key a) -> (forall a, f (g a) = h (f a)) ->
  table l !! k = Some b -> table (update_where p g l) = <[k := h b]> (table l).
Proof.
  intros Hp Hg Hh Hb. rewrite (table_lookup l k p Hp) in Hb. destruct (first p l) as [a0|] eqn:E; [|done].
  injection Hb as <-. rewrite <- Hh. by apply table_update_first.
Qed.

Lemma table_snoc l a : table l !! key a = None -> table (l ++ [a]) = <[key a := f a]> (table l).
Proof.
  intros Hn. unfold table in *. rewrite fmap_app, list_to_map_app. cbn. rewrite insert_empty.
  rewrite map_union_comm by by apply map_disjoint_singleton_r. by rewrite <- insert_union_singleton_l.
Qed.
End table.

Lemma table_neutral {A B K} `{Countable K} (key : A -> K) (f : A -> B) (p : A -> bool) (g : A -> A) l :
  (forall a, key (g a) = key a) -> (forall a, f (g a) = f a) ->
  table key f (update_where p g l) = table key f l.
Proof.
  intros Hk Hf. unfold table. f_equal. apply (update_where_map (fun a => (key a, f a))).
  intros a _. by rewrite Hk, Hf.
Qed.

(** ** The abstraction *)

Definition a_mission (m : mission_row) : amission := AMission (m_repo_identity m) (m_status m).
Definition a_task (t : task_row) : atask := ATask (t_mission t) (t_status t) (effective t).
Definition a_op (o : operation_row) : aop := AOp (o_mission o) (o_task o) (o_status o).

Definition life_of (d : database) : life :=
  Life (table m_id a_mission (missions d)) (table t_id a_task (tasks d)) (list_to_set (task_dependencies d))
       (table o_id a_op (operations d)) (task_seq d).

Lemma life_of_mission d id : l_missions (life_of d) !! id = a_mission <$> find_mission id d.
Proof. by apply table_lookup. Qed.
Lemma eqb_bool_decide (x y : Z) : (x =? y) = bool_decide (x = y).
Proof. case_bool_decide; [by apply Z.eqb_eq|by apply Z.eqb_neq]. Qed.
Lemma life_of_task d id : l_tasks (life_of d) !! id = a_task <$> find_task id d.
Proof. apply table_lookup. intros t. apply eqb_bool_decide. Qed.
Lemma life_of_op d id : l_ops (life_of d) !! id = a_op <$> find_operation id d.
Proof. by apply table_lookup. Qed.
Lemma life_of_waits d t p : l_waits (life_of d) t p <-> (t, p) ∈ task_dependencies d.
Proof. unfold l_waits; cbn. by rewrite elem_of_list_to_set. Qed.

Lemma dependencies_complete_spec d id : dependencies_complete d id = true <-> l_complete (life_of d) id.
Proof.
  unfold dependencies_complete, l_complete. rewrite forallb_forall. split.
  - intros Hall p r Hw Hr. rewrite life_of_waits in Hw. rewrite life_of_task in Hr.
    destruct (find_task p d) as [t|] eqn:E; [|done]. injection Hr as <-. cbn.
    specialize (Hall p). rewrite E in Hall.
    by apply (bool_decide_eq_true_1 (t_status t = T_COMPLETED)), Hall, list_elem_of_In, elem_of_depends_of.
  - intros Hc p Hp%list_elem_of_In%elem_of_depends_of. destruct (find_task p d) as [t|] eqn:E; [|done].
    apply bool_decide_eq_true. apply (Hc p (a_task t)); [by apply life_of_waits|by rewrite life_of_task, E].
Qed.

Lemma active_op_none_spec d id :
  first (active_op_of id) (operations d) = None -> ~ l_busy (life_of d) id.
Proof.
  intros Hn (op & o & Ho & Ht & Ha). apply table_elem in Ho as (r & Hr & _ & <-). cbn in *.
  rewrite first_None in Hn. specialize (Hn r Hr). unfold active_op_of, active_op in Hn.
  rewrite Ha, Ht, Z.eqb_refl in Hn. done.
Qed.

Lemma all_completed_spec d m :
  let counted := select effective (mission_tasks m d) in
  counted ≠ [] -> forallb (fun t => bool_decide (t_status t = T_COMPLETED)) counted = true ->
  NoDup (t_id <$> tasks d) -> l_all_completed (life_of d) m.
Proof.
  cbn. intros Hne Hall Hnd. rewrite forallb_forall in Hall. split.
  - intros id t Ht Hm He. apply table_elem in Ht as (r & Hr & _ & <-). cbn in *.
    apply (bool_decide_eq_true_1 (t_status r = T_COMPLETED)), Hall, list_elem_of_In, elem_of_select. split; [|done].
    apply elem_of_select. split; [done|]. by apply bool_decide_eq_true.
  - destruct (select effective (mission_tasks m d)) as [|r l] eqn:E; [done|].
    assert (r ∈ select effective (mission_tasks m d)) as Hin by (rewrite E; left).
    apply elem_of_select in Hin as [[Hin Hm]%elem_of_select He]. apply bool_decide_eq_true in Hm.
    exists (t_id r), (a_task r). split_and!; [|done|done].
    rewrite life_of_task. by rewrite (find_task_elem d r Hnd Hin).
Qed.

Lemma waits_life d x y : tc (l_waits (life_of d)) x y <-> tc (waits (task_dependencies d)) x y.
Proof.
  split; induction 1 as [x y Hw|x y z Hw _ IH].
  - apply tc_once. by apply life_of_waits.
  - eapply tc_l; [by apply life_of_waits|done].
  - apply tc_once. by apply life_of_waits.
  - eapply tc_l; [by apply life_of_waits|done].
Qed.

(** ** Effects of statements *)

Lemma life_update_task d id f h t :
  (forall r, t_id (f r) = t_id r) -> (forall r, a_task (f r) = h (a_task r)) ->
  l_tasks (life_of d) !! id = Some t ->
  life_of (update_tasks (fun r => t_id r =? id) f d) = l_set_task id (h t) (life_of d).
Proof.
  intros Hid Hh Ht. unfold life_of, l_set_task, with_tasks; cbn. f_equal.
  eapply table_update; eauto. intros r. apply eqb_bool_decide.
Qed.

Lemma life_update_op d id f h o :
  (forall r, o_id (f r) = o_id r) -> (forall r, a_op (f r) = h (a_op r)) ->
  l_ops (life_of d) !! id = Some o ->
  life_of (set_operations (update_where (fun r => bool_decide (o_id r = id)) f (operations d)) d) =
  l_set_op id (h o) (life_of d).
Proof.
  intros Hid Hh Ho. unfold life_of, l_set_op, with_ops; cbn. f_equal. eapply table_update; eauto.
Qed.

(** The invariant a method starts from. *)
Definition db_ok (d : database) : Prop := keys_ok d /\ lifecycle_ok (life_of d).
Definition same_life (d d' : database) : Prop := life_of d' = life_of d.

#[export] Instance same_life_preorder : PreOrder same_life.
Proof. split; unfold same_life; [intros d; done|intros d d' d'' H1 H2; by rewrite H2]. Qed.

(** A method refines the machine. *)
Definition refines {A} (v : option Z) (m : DB A) : Prop :=
  forall w, db_ok (w_db w) -> lsteps v (life_of (w_db w)) (life_of (w_db (m w).2)).

Section refines.
Context (v : option Z).
Lemma refines_neutral {A} (m : DB A) : keeps (dbrel same_life) m -> refines v m.
Proof. intros Hm w _. specialize (Hm w). unfold dbrel, same_life in Hm. by rewrite Hm. Qed.

Lemma refines_transaction `{SE : SqlErrors} {A} (m : DB A) :
  (forall w, db_ok (w_db w) -> wp m (fun _ w' => lsteps v (life_of (w_db w)) (life_of (w_db w'))) w) ->
  refines v (_transaction m).
Proof.
  intros Hm w Hok. specialize (Hm w Hok). unfold wp, _transaction in *.
  destruct (m w) as [[a|e] w']; [|done]. by destruct (sql_error w').
Qed.

Lemma refines_bind_l {A B} (m : DB A) (f : A -> DB B) :
  keeps (dbrel eq) m -> (forall a, refines v (f a)) -> refines v (m ≫= f).
Proof.
  intros Hm Hf w Hok. specialize (Hm w). unfold dbrel, mbind, ST_bind in *.
  destruct (m w) as [[a|e] w'] eqn:E; cbn in *; [|by rewrite Hm]. rewrite Hm in *. by apply Hf.
Qed.

Lemma refines_bind_r {A B} (m : DB A) (f : A -> DB B) :
  refines v m -> (forall a, keeps (dbrel same_life) (f a)) -> refines v (m ≫= f).
Proof.
  intros Hm Hf w Hok. specialize (Hm w Hok). unfold mbind, ST_bind in *.
  destruct (m w) as [[a|e] w']; cbn in *; [|done]. specialize (Hf a w'). unfold dbrel, same_life in Hf. by rewrite Hf.
Qed.
End refines.

(** ** Neutral statements *)

Section neutral.
Context `{Oracle} `{SE : SqlErrors}.

Lemma neutral_event m k data t o : keeps (dbrel same_life) (_event m k data t o).
Proof.
  unfold _event. apply keeps_bind; [exact _|apply keeps_utc_now; exact _|intros now].
  apply keeps_write; [exact _|]. intros d. reflexivity.
Qed.
Lemma neutral_update_task id f :
  (forall t, t_id (f t) = t_id t /\ a_task (f t) = a_task t) -> keeps (dbrel same_life) (update_task id f).
Proof.
  intros Hf. apply keeps_write; [exact _|]. intros d. unfold same_life, life_of; cbn. f_equal.
  apply table_neutral; intros t; apply Hf.
Qed.
Lemma neutral_update_mission id f :
  (forall m, m_id (f m) = m_id m /\ a_mission (f m) = a_mission m) -> keeps (dbrel same_life) (update_mission id f).
Proof.
  intros Hf. apply keeps_write; [exact _|]. intros d. unfold same_life, life_of; cbn. f_equal.
  apply table_neutral; intros m; apply Hf.
Qed.
Lemma neutral_update_operation id f :
  (forall o, o_id (f o) = o_id o /\ a_op (f o) = a_op o) -> keeps (dbrel same_life) (update_operation id f).
Proof.
  intros Hf. apply keeps_write; [exact _|]. intros d. unfold same_life, life_of; cbn. f_equal.
  apply table_neutral; intros m; apply Hf.
Qed.
Ltac neutral_statement := apply keeps_statement; [exact _|]; intros ? ? ?; cbn; repeat case_match; by intros [= <- <-].
Lemma neutral_insert_amendment t r c now : keeps (dbrel same_life) (insert_amendment t r c now).
Proof. neutral_statement. Qed.
Lemma neutral_update_amendments p f : keeps (dbrel same_life) (update_amendments p f).
Proof. apply keeps_write; [exact _|]. intros d. reflexivity. Qed.
Lemma neutral_insert_command c : keeps (dbrel same_life) (insert_command c).
Proof. neutral_statement. Qed.
Lemma neutral_update_command id f : keeps (dbrel same_life) (update_command id f).
Proof. apply keeps_write; [exact _|]. intros d. reflexivity. Qed.
Lemma neutral_insert_process c : keeps (dbrel same_life) (insert_process c).
Proof. neutral_statement. Qed.
Lemma neutral_update_process id f : keeps (dbrel same_life) (update_process id f).
Proof. apply keeps_write; [exact _|]. intros d. reflexivity. Qed.
Lemma neutral_delete_events ids : keeps (dbrel same_life) (write (delete_events ids)).
Proof. apply keeps_write; [exact _|]. intros d. reflexivity. Qed.
Lemma neutral_set_events f : keeps (dbrel same_life) (write (fun d => set_events (f d) d)).
Proof. apply keeps_write; [exact _|]. intros d. reflexivity. Qed.
End neutral.

#[export] Hint Resolve neutral_event neutral_insert_amendment neutral_update_amendments neutral_insert_command
  neutral_update_command neutral_insert_process neutral_update_process neutral_delete_events neutral_set_events : py_keeps.
Ltac same_columns := intros []; unfold amend_columns; cbn; repeat (case_match; cbn); split; reflexivity.
#[export] Hint Extern 1 (keeps (dbrel same_life) (update_task _ _)) => (apply neutral_update_task; same_columns) : py_keeps.
#[export] Hint Extern 1 (keeps (dbrel same_life) (update_mission _ _)) => (apply neutral_update_mission; same_columns) : py_keeps.
#[export] Hint Extern 1 (keeps (dbrel same_life) (update_operation _ _)) => (apply neutral_update_operation; same_columns) : py_keeps.

Lemma neutral_apply_pending_amendment `{Oracle} `{SE : SqlErrors} t c e b :
  keeps (dbrel same_life) (_apply_pending_amendment t c e false b).
Proof. unfold _apply_pending_amendment, task_event. solve_db_keeps. Qed.
#[export] Hint Resolve neutral_apply_pending_amendment : py_keeps.

(** ** Weakest preconditions of the store's primitives *)

Section wp_store.
Context `{Oracle} `{SE : SqlErrors}.

Lemma wp_neutral {A} (m : DB A) (Q : A -> world -> Prop) w :
  keeps (dbrel same_life) m -> (forall a w', life_of (w_db w') = life_of (w_db w) -> Q a w') -> wp m Q w.
Proof.
  intros Hm HQ. specialize (Hm w). unfold wp, dbrel, same_life in *. destruct (m w) as [[a|e] w']; [|done]. by apply HQ.
Qed.
Lemma wp_read {A} (f : database -> A) (Q : A -> world -> Prop) w : Q (f (w_db w)) w -> wp (read f) Q w.
Proof. done. Qed.
Lemma wp_transaction {A} (m : DB A) (Q : A -> world -> Prop) w : wp m Q w -> wp (_transaction m) Q w.
Proof. unfold wp, _transaction. destruct (m w) as [[a|e] w']; [|done]. by destruct (sql_error w'). Qed.
Lemma wp_mission_row id (Q : mission_row -> world -> Prop) w :
  (forall m, find_mission id (w_db w) = Some m -> l_missions (life_of (w_db w)) !! id = Some (a_mission m) -> Q m w) ->
  wp (_mission_row id) Q w.
Proof.
  intros HQ. unfold _mission_row. apply wp_bind, wp_read. destruct (find_mission id (w_db w)) as [m|] eqn:E; [|done].
  apply wp_ret, HQ; [done|]. by rewrite life_of_mission, E.
Qed.
Lemma wp_task_row id (Q : task_row -> world -> Prop) w :
  (forall t, find_task id (w_db w) = Some t -> t_id t = id ->
     l_tasks (life_of (w_db w)) !! id = Some (a_task t) -> Q t w) -> wp (_task_row id) Q w.
Proof.
  intros HQ. unfold _task_row. apply wp_bind, wp_read. destruct (find_task id (w_db w)) as [t|] eqn:E; [|done].
  apply wp_ret, HQ; [done| |]; [|by rewrite life_of_task, E].
  unfold find_task in E. apply first_Some in E as [_ E]. by bool_to_prop.
Qed.
Lemma wp_operation_row id (Q : operation_row -> world -> Prop) w :
  (forall o, find_operation id (w_db w) = Some o -> o_id o = id ->
     l_ops (life_of (w_db w)) !! id = Some (a_op o) -> Q o w) -> wp (_operation_row id) Q w.
Proof.
  intros HQ. unfold _operation_row. apply wp_bind, wp_read. destruct (find_operation id (w_db w)) as [o|] eqn:E; [|done].
  apply wp_ret, HQ; [done| |]; [|by rewrite life_of_op, E].
  unfold find_operation in E. apply first_Some in E as [_ E]. by bool_to_prop.
Qed.
Lemma wp_update_task id f h t (Q : unit -> world -> Prop) w :
  l_tasks (life_of (w_db w)) !! id = Some t ->
  (forall r, t_id (f r) = t_id r /\ a_task (f r) = h (a_task r)) ->
  (forall w', life_of (w_db w') = l_set_task id (h t) (life_of (w_db w)) -> Q tt w') ->
  wp (update_task id f) Q w.
Proof.
  intros Ht Hf HQ. apply wp_modify, HQ; cbn [w_db]. apply life_update_task; [apply Hf| |done]. intros r. apply Hf.
Qed.
(** The same for a row read in the same statement sequence. *)
Lemma wp_update_task_row id f r (Q : unit -> world -> Prop) w :
  find_task id (w_db w) = Some r -> (forall r, t_id (f r) = t_id r) ->
  (forall w', life_of (w_db w') = l_set_task id (a_task (f r)) (life_of (w_db w)) -> Q tt w') ->
  wp (update_task id f) Q w.
Proof.
  intros Hr Hf HQ. apply wp_modify, HQ; cbn [w_db]. unfold life_of, l_set_task, with_tasks; cbn. f_equal.
  eapply table_update_first; eauto. intros a. apply eqb_bool_decide.
Qed.
Lemma wp_utc_now (Q : Z -> world -> Prop) w :
  (forall now tick, Q now (World (w_db w) tick)) -> wp utc_now Q w.
Proof. intros HQ. apply HQ. Qed.
Lemma wp_uuid4_hex (Q : string -> world -> Prop) w :
  (forall id tick, Q id (World (w_db w) tick)) -> wp uuid4_hex Q w.
Proof. intros HQ. apply HQ. Qed.
Lemma wp_update_operation id f h o (Q : unit -> world -> Prop) w :
  l_ops (life_of (w_db w)) !! id = Some o ->
  (forall r, o_id (f r) = o_id r /\ a_op (f r) = h (a_op r)) ->
  (forall w', life_of (w_db w') = l_set_op id (h o) (life_of (w_db w)) -> Q tt w') ->
  wp (update_operation id f) Q w.
Proof.
  intros Ho Hf HQ. apply wp_modify, HQ; cbn [w_db]. apply life_update_op; [apply Hf| |done]. intros r. apply Hf.
Qed.
Lemma wp_statement {A} (f : database -> result exn (A * database)) (Q : A -> world -> Prop) w :
  (forall a d, f (w_db w) = Ok (a, d) -> Q a (World d (w_tick w))) -> wp (statement f) Q w.
Proof. intros HQ. unfold wp, statement. destruct (f (w_db w)) as [[a d]|e]; [|done]. by apply HQ. Qed.

Lemma wp_update_mission_status id s now m (Q : unit -> world -> Prop) w :
  l_missions (life_of (w_db w)) !! id = Some m ->
  (forall w', (controlled s = true -> forall id' m', l_missions (life_of (w_db w)) !! id' = Some m' -> id' ≠ id ->
      controlled (am_status m') = true -> am_repo m' ≠ am_repo m) ->
    life_of (w_db w') = l_set_mission id (a_set_mission s m) (life_of (w_db w)) -> Q tt w') ->
  wp (update_mission_status id s now) Q w.
Proof.
  intros Hm HQ. apply wp_statement. intros a d. cbn. destruct (existsb _ _) eqn:E; [done|]. intros [= <- <-].
  apply HQ.
  - intros Hs id' m' Hm' Hne Hc Hrepo.
    apply table_elem in Hm as (r & Hr & Hrid & <-). apply table_elem in Hm' as (r' & Hr' & Hrid' & <-). cbn in *.
    pose proof (existsb_false _ _ E r Hr) as Hx. cbn in Hx. rewrite Hrid, bool_decide_true in Hx by done. cbn in Hx.
    unfold active_mission in Hx at 1. cbn in Hx. unfold controlled in Hs. rewrite Hs in Hx. cbn in Hx.
    pose proof (existsb_false _ _ Hx r' Hr') as Hy. cbn in Hy. unfold active_mission in Hy.
    unfold controlled in Hc. rewrite Hc, Hrid', Hrepo, (bool_decide_false (id' = id)), bool_decide_true in Hy by done. done.
  - unfold life_of, l_set_mission, with_missions; cbn. f_equal. eapply table_update; eauto.
Qed.

Lemma wp_insert_mission m (Q : unit -> world -> Prop) w :
  (forall w', l_missions (life_of (w_db w)) !! m_id m = None ->
    life_of (w_db w') = l_set_mission (m_id m) (a_mission m) (life_of (w_db w)) -> Q tt w') ->
  wp (insert_mission m) Q w.
Proof.
  intros HQ. apply wp_statement. intros a d. cbn. destruct (existsb _ _) eqn:E; [done|]. intros [= <- <-].
  assert (Hn : table m_id a_mission (missions (w_db w)) !! m_id m = None).
  { destruct (table _ _ _ !! _) eqn:El; [|done]. apply table_elem in El as (r & Hr & Hid & _).
    pose proof (existsb_false _ _ E r Hr) as Hx. cbn in Hx. by rewrite bool_decide_true in Hx. }
  apply HQ; [done|]. unfold life_of, l_set_mission, with_missions; cbn. f_equal. by apply table_snoc.
Qed.

Lemma wp_insert_operation o (Q : unit -> world -> Prop) w :
  (forall w', l_ops (life_of (w_db w)) !! o_id o = None ->
    life_of (w_db w') = l_set_op (o_id o) (a_op o) (life_of (w_db w)) -> Q tt w') ->
  wp (insert_operation o) Q w.
Proof.
  intros HQ. apply wp_statement. intros a d. cbn. destruct (existsb _ _) eqn:E; [done|].
  destruct (_ && _); [done|]. intros [= <- <-].
  assert (Hn : table o_id a_op (operations (w_db w)) !! o_id o = None).
  { destruct (table _ _ _ !! _) eqn:El; [|done]. apply table_elem in El as (r & Hr & Hid & _).
    pose proof (existsb_false _ _ E r Hr) as Hx. cbn in Hx. by rewrite bool_decide_true in Hx. }
  apply HQ; [done|]. unfold life_of, l_set_op, with_ops; cbn. f_equal. by apply table_snoc.
Qed.

Lemma wp_insert_task mk (Q : Z -> world -> Prop) w :
  lifecycle_ok (life_of (w_db w)) -> (forall i, t_id (mk i) = i) ->
  (forall i w', i = l_seq (life_of (w_db w)) + 1 ->
    life_of (w_db w') = with_seq i (l_set_task i (a_task (mk i)) (life_of (w_db w))) -> Q i w') ->
  wp (insert_task mk) Q w.
Proof.
  intros Hok Hid HQ. apply wp_statement. intros a d. cbn. destruct (existsb _ _); [done|]. intros [= <- <-].
  apply HQ; [done|]. unfold life_of, with_seq, l_set_task, with_tasks; cbn [w_db l_missions l_tasks l_deps l_ops l_seq
    missions tasks task_dependencies operations task_seq set_tasks set_task_seq set_mission_task_counts]. f_equal.
  rewrite table_snoc; [by rewrite Hid|]. rewrite Hid.
  destruct (table _ _ _ !! _) eqn:El; [|done]. exfalso. apply (lo_seq _ Hok) in El. cbn in El. lia.
Qed.

Lemma wp_insert_dependency t p (Q : unit -> world -> Prop) w :
  (forall w', life_of (w_db w') = with_deps ({[(t, p)]} ∪ l_deps (life_of (w_db w))) (life_of (w_db w)) -> Q tt w') ->
  wp (insert_dependency t p) Q w.
Proof.
  intros HQ. apply wp_statement. intros a d. cbn. intros [= <- <-]. apply HQ.
  case_bool_decide as Hin; unfold life_of, with_deps; cbn; f_equal.
  - apply leibniz_equiv. intros x. rewrite elem_of_union, elem_of_singleton, !elem_of_list_to_set. naive_solver.
  - apply leibniz_equiv. intros x. rewrite elem_of_union, elem_of_singleton, !elem_of_list_to_set, elem_of_app,
      list_elem_of_singleton. naive_solver.
Qed.

Lemma wp_dependencies_complete id (Q : bool -> world -> Prop) w :
  (forall b, (b = true -> l_complete (life_of (w_db w)) id) -> Q b w) -> wp (_dependencies_complete id) Q w.
Proof. intros HQ. apply wp_read, HQ. apply dependencies_complete_spec. Qed.
End wp_store.

(** A loop that consumes its list: the invariant speaks of the rows left. *)
Lemma wp_for_each_rest {E S A} (I : list A -> S -> Prop) (l : list A) (f : A -> ST E S unit) s :
  I l s -> (forall x rest s', I (x :: rest) s' -> wp (f x) (fun _ => I rest) s') ->
  wp (for_each l f) (fun _ => I []) s.
Proof.
  intros HI Hf. revert s HI. induction l as [|x l IH]; intros s HI; cbn; [done|].
  apply wp_bind. eapply wp_mono; [|by apply Hf]. intros ? s'. apply IH.
Qed.
Lemma wp_for_fold_rest {E S A B} (I : list A -> S -> Prop) (l : list A) (f : B -> A -> ST E S B) b s :
  I l s -> (forall b x rest s', I (x :: rest) s' -> wp (f b x) (fun _ => I rest) s') ->
  wp (for_fold l f b) (fun _ => I []) s.
Proof.
  intros HI Hf. revert b s HI. induction l as [|x l IH]; intros b s HI; cbn; [done|].
  apply wp_bind. eapply wp_mono; [|by apply Hf]. intros ? s'. apply IH.
Qed.
