(* ===== verification/StoreRounds.v ===== *)
(** * Review rounds

    A task enters VERIFYING only by the exit of its operation, and leaves it
    with every change of its text: while it stays there its revision does not
    change. *)

From S2P Require Import Prelude Py Vocab States StoreData StoreTasks StoreOps StoreReview StoreLog StoreApi StoreKeys StoreAbstract.
From stdpp Require Import options.
Local Open Scope Z_scope.

(** A row in VERIFYING was there before, with the same revision. *)
Definition row_stays (t t' : task_row) : Prop :=
  t_id t = t_id t' /\ (t_status t' = T_VERIFYING -> t_status t = T_VERIFYING /\ t_revision t = t_revision t').
Definition no_new_round (d d' : database) : Prop :=
  forall t', t' ∈ tasks d' -> t_status t' = T_VERIFYING -> exists t, t ∈ tasks d /\ row_stays t t'.

#[export] Instance no_new_round_preorder : PreOrder no_new_round.
Proof.
  split.
  - intros d t Ht _. by exists t.
  - intros d d1 d2 H1 H2 t2 Ht2 Hv2. destruct (H2 t2 Ht2 Hv2) as (t1 & Ht1 & Hi1 & Hv1). destruct (Hv1 Hv2) as [Hs1 Hr1].
    destruct (H1 t1 Ht1 Hs1) as (t & Ht & Hi & Hv). destruct (Hv Hs1) as [Hs Hr].
    exists t. split; [done|]. split; [congruence|]. intros _. split; [done|congruence].
Qed.

Lemma same_tasks_no_new_round d d' : tasks d' = tasks d -> no_new_round d d'.
Proof. intros E t' Ht' _. rewrite E in Ht'. by exists t'. Qed.

Section statements.
Context `{Oracle} `{SE : SqlErrors}.

Lemma round_event m k data t o : keeps (dbrel no_new_round) (_event m k data t o).
Proof.
  unfold _event. apply keeps_bind; [exact _|apply keeps_utc_now; exact _|intros now].
  apply keeps_write; [exact _|]. intros d. by apply same_tasks_no_new_round.
Qed.
Lemma round_update_task id f : (forall t, row_stays t (f t)) -> keeps (dbrel no_new_round) (update_task id f).
Proof.
  intros Hf. apply keeps_write; [exact _|]. intros d t' Ht' _. cbn in Ht'. unfold update_where in Ht'.
  apply list_elem_of_fmap in Ht' as (t & -> & Ht). exists t. split; [done|]. destruct (_ =? _); [apply Hf|by split].
Qed.
Ltac round_write := apply keeps_write; [exact _|]; intros d; by apply same_tasks_no_new_round.
Ltac round_statement := apply keeps_statement; [exact _|]; intros ? ? ?; cbn; repeat case_match; intros [= <- <-]; by apply same_tasks_no_new_round.

Lemma round_update_mission id f : keeps (dbrel no_new_round) (update_mission id f).
Proof. round_write. Qed.
Lemma round_update_operation id f : keeps (dbrel no_new_round) (update_operation id f).
Proof. round_write. Qed.
Lemma round_update_amendments p f : keeps (dbrel no_new_round) (update_amendments p f).
Proof. round_write. Qed.
Lemma round_update_command id f : keeps (dbrel no_new_round) (update_command id f).
Proof. round_write. Qed.
Lemma round_update_process id f : keeps (dbrel no_new_round) (update_process id f).
Proof. round_write. Qed.
Lemma round_delete_events ids : keeps (dbrel no_new_round) (write (delete_events ids)).
Proof. round_write. Qed.
Lemma round_set_events f : keeps (dbrel no_new_round) (write (fun d => set_events (f d) d)).
Proof. round_write. Qed.
Lemma round_insert_task mk : (forall i, t_status (mk i) <> T_VERIFYING) -> keeps (dbrel no_new_round) (insert_task mk).
Proof.
  intros Hm. apply keeps_statement; [exact _|]. intros d a d'. cbn. case_match; [done|]. intros [= <- <-] t' Ht' Hv.
  cbn in Ht'. apply elem_of_app in Ht' as [Ht'|Ht'%list_elem_of_singleton]; [by exists t'|]. subst t'. by apply Hm in Hv.
Qed.
Lemma round_update_mission_status i s n : keeps (dbrel no_new_round) (update_mission_status i s n).
Proof. round_statement. Qed.
Lemma round_insert_mission m : keeps (dbrel no_new_round) (insert_mission m).
Proof. round_statement. Qed.
Lemma round_insert_dependency t p : keeps (dbrel no_new_round) (insert_dependency t p).
Proof. round_statement. Qed.
Lemma round_insert_amendment t r c n : keeps (dbrel no_new_round) (insert_amendment t r c n).
Proof. round_statement. Qed.
Lemma round_insert_operation o : keeps (dbrel no_new_round) (insert_operation o).
Proof. round_statement. Qed.
Lemma round_insert_command c : keeps (dbrel no_new_round) (insert_command c).
Proof. round_statement. Qed.
Lemma round_insert_process p : keeps (dbrel no_new_round) (insert_process p).
Proof. round_statement. Qed.
End statements.

#[export] Hint Resolve round_event round_update_mission round_update_operation round_update_amendments round_update_command
  round_update_process round_delete_events round_set_events round_update_mission_status round_insert_mission
  round_insert_dependency round_insert_amendment round_insert_operation round_insert_command round_insert_process : py_keeps.
Ltac row_stays := intros []; unfold row_stays, amend_columns; cbn; repeat (case_match; cbn); split; done.
#[export] Hint Extern 1 (keeps (dbrel no_new_round) (update_task _ _)) => (apply round_update_task; row_stays) : py_keeps.
#[export] Hint Extern 1 (keeps (dbrel no_new_round) (insert_task _)) => (apply round_insert_task; done) : py_keeps.

(** ** Frames of a single run *)

Section runs.
Context (R : database -> database -> Prop) `{!PreOrder R}.
Definition runs_in {A} (m : DB A) (w : world) : Prop := dbrel R w (m w).2.

Lemma runs_keeps {A} (m : DB A) w : keeps (dbrel R) m -> runs_in m w.
Proof using Type. intros Hm. apply Hm. Qed.
Lemma runs_bind {A B} (m : DB A) (f : A -> DB B) w :
  runs_in m w -> (forall a w', m w = (Ok a, w') -> runs_in (f a) w') -> runs_in (m ≫= f) w.
Proof using PreOrder0.
  intros Hm Hf. unfold runs_in, mbind, ST_bind, dbrel in *. destruct (m w) as [[a|e] w'] eqn:E; [|exact Hm].
  etrans; [exact Hm|by apply Hf].
Qed.
Lemma runs_transaction `{SE : SqlErrors} {A} (m : DB A) w : runs_in m w -> runs_in (_transaction m) w.
Proof using PreOrder0. unfold runs_in, _transaction, dbrel. destruct (m w) as [[a|e] w']; [destruct (sql_error w'); [|done]|]; intros _; cbn; reflexivity. Qed.
(** A read, and what it found. *)
Lemma runs_task_row {A} id (f : task_row -> DB A) w :
  (forall t, find_task id (w_db w) = Some t -> runs_in (f t) w) -> runs_in (_task_row id ≫= f) w.
Proof using PreOrder0.
  intros Hf. unfold runs_in, _task_row, or_raise, read, gets, mbind, ST_bind, mret, ST_ret in *.
  destruct (find_task id (w_db w)) as [t|]; [by apply Hf|unfold dbrel; cbn; reflexivity].
Qed.
Lemma runs_operation_row {A} id (f : operation_row -> DB A) w :
  (forall o, find_operation id (w_db w) = Some o -> runs_in (f o) w) -> runs_in (_operation_row id ≫= f) w.
Proof using PreOrder0.
  intros Hf. unfold runs_in, _operation_row, or_raise, read, gets, mbind, ST_bind, mret, ST_ret in *.
  destruct (find_operation id (w_db w)) as [o|]; [by apply Hf|unfold dbrel; cbn; reflexivity].
Qed.
Lemma runs_raise_if {A} b e (f : unit -> DB A) w : (b = false -> runs_in (f tt) w) -> runs_in (raise_if b e ≫= f) w.
Proof using PreOrder0. intros Hf. unfold runs_in. destruct b; cbn; [unfold dbrel; cbn; reflexivity|by apply Hf]. Qed.
End runs.

Lemma runs_update_row id f t w : NoDup (t_id <$> tasks (w_db w)) -> find_task id (w_db w) = Some t -> row_stays t (f t) ->
  runs_in no_new_round (update_task id f) w.
Proof.
  intros Hnd Ht Hf. unfold runs_in, dbrel. intros t' Ht' _. cbn in Ht'. apply list_elem_of_fmap in Ht' as (t0 & -> & Ht0).
  exists t0. split; [done|]. destruct (Z.eqb_spec (t_id t0) id) as [<-|]; [|by split].
  rewrite find_task_elem in Ht by done. by simplify_eq.
Qed.

Section special.
Context `{Oracle} `{SE : SqlErrors}.

Lemma no_transition_to_verifying s : is_in T_VERIFYING (TASK_TRANSITIONS s) = false.
Proof. by destruct s. Qed.

Lemma round_set_task_status id s w : NoDup (t_id <$> tasks (w_db w)) -> runs_in no_new_round (set_task_status id s) w.
Proof.
  intros Hnd. unfold set_task_status. destruct (of_string (upper s)) as [status|]; [|apply runs_keeps; solve_db_keeps].
  apply runs_bind; [exact _| |intros; apply runs_keeps; unfold get_task, _task_row; solve_db_keeps].
  apply runs_transaction; [exact _|]. apply runs_task_row; [exact _|]. intros t Ht. cbv zeta.
  apply runs_raise_if; [exact _|]. intros Hg. apply runs_bind; [exact _|apply runs_keeps; unfold _dependencies_complete; solve_db_keeps|].
  intros c w1 E1. assert (w_db w1 = w_db w) as Ew by (unfold _dependencies_complete, read, gets in E1; by simplify_eq).
  apply runs_raise_if; [exact _|]. intros _. apply runs_bind; [exact _|apply runs_keeps; solve_db_keeps|].
  intros now w2 E2. assert (w_db w2 = w_db w) as Ew2 by (unfold utc_now in E2; by simplify_eq).
  apply runs_bind; [exact _| |intros; apply runs_keeps; unfold task_event; solve_db_keeps].
  apply (runs_update_row id _ t); rewrite ?Ew2; [done|done|]. split; [done|]. cbn. intros ->.
  apply andb_false_iff in Hg as [Hg|Hg]; [|by rewrite negb_false_iff, no_transition_to_verifying in Hg].
  apply negb_false_iff, bool_decide_eq_true in Hg. by split.
Qed.

(** An amendment of a task under review ends the round. *)
Definition round_except (id : Z) (d d' : database) : Prop :=
  forall t', t' ∈ tasks d' -> t_id t' <> id -> t' ∈ tasks d.
#[export] Instance round_except_preorder id : PreOrder (round_except id).
Proof. split; [by intros d t|]. intros d d1 d2 H1 H2 t Ht Hi. apply (H1 t); [by apply (H2 t)|done]. Qed.
Definition no_review (id : Z) (d : database) : Prop := forall t, t ∈ tasks d -> t_id t = id -> t_status t <> T_VERIFYING.
Lemma except_no_new_round id d d' : round_except id d d' -> no_review id d' -> no_new_round d d'.
Proof.
  intros He Hn t' Ht' Hv. destruct (decide (t_id t' = id)) as [Hi|Hi]; [by destruct (Hn t' Ht' Hi)|]. exists t'. split; [by apply He|by split].
Qed.

Lemma except_update_task id f : (forall t, t_id (f t) = t_id t) -> keeps (dbrel (round_except id)) (update_task id f).
Proof.
  intros Hf. apply keeps_write; [exact _|]. intros d t' Ht' Hi. cbn in Ht'. apply list_elem_of_fmap in Ht' as (t & -> & Ht).
  destruct (Z.eqb_spec (t_id t) id) as [E|E]; [|done]. by rewrite Hf in Hi.
Qed.
Lemma except_event id m k data t o : keeps (dbrel (round_except id)) (_event m k data t o).
Proof.
  unfold _event. apply keeps_bind; [exact _|apply keeps_utc_now; exact _|intros now].
  apply keeps_write; [exact _|]. by intros d t' Ht'.
Qed.
Lemma except_insert_amendment id t r c n : keeps (dbrel (round_except id)) (insert_amendment t r c n).
Proof. apply keeps_statement; [exact _|]; intros ? ? ?; cbn; repeat case_match; by intros [= <- <-] ?. Qed.
Lemma except_update_amendments id p f : keeps (dbrel (round_except id)) (update_amendments p f).
Proof. apply keeps_write; [exact _|]. by intros d t' Ht'. Qed.
Lemma except_update_operation id i f : keeps (dbrel (round_except id)) (update_operation i f).
Proof. apply keeps_write; [exact _|]. by intros d t' Ht'. Qed.
#[local] Hint Resolve except_event except_insert_amendment except_update_amendments except_update_operation : py_keeps.
#[local] Hint Extern 1 (keeps (dbrel (round_except _)) (update_task _ _)) =>
  (apply except_update_task; intros []; unfold amend_columns; cbn; repeat (case_match; cbn); done) : py_keeps.

Lemma no_review_kept {A} id (m : DB A) (Q : A -> world -> Prop) w : keeps (dbrel no_new_round) m -> no_review id (w_db w) ->
  (forall a w', no_review id (w_db w') -> Q a w') -> wp m Q w.
Proof.
  intros Hm Hn HQ. specialize (Hm w). unfold wp, dbrel in *. destruct (m w) as [[a|e] w']; [|done]. apply HQ.
  intros t Ht Hi Hv. destruct (Hm t Ht Hv) as (t0 & Ht0 & Hi0 & Hs). destruct (Hs Hv) as [Hs0 _]. apply (Hn t0 Ht0); [congruence|done].
Qed.
Lemma wp_true {A} (m : DB A) (Q : A -> world -> Prop) w : (forall a w', Q a w') -> wp m Q w.
Proof. intros HQ. unfold wp. by destruct (m w) as [[a|e] w']. Qed.

Lemma apply_ends_round t c e (Q : unit -> world -> Prop) w : (forall w', no_review (t_id t) (w_db w') -> Q tt w') ->
  wp (_apply_pending_amendment t c e true false) Q w.
Proof.
  intros HQ. unfold _apply_pending_amendment. cbn [andb]. apply wp_bind, wp_true. intros now w1.
  apply wp_bind, wp_modify.
  apply (no_review_kept (t_id t)); [unfold task_event; solve_db_keeps| |by intros []].
  intros t' Ht' Hi. cbn in Ht'. apply list_elem_of_fmap in Ht' as (t0 & -> & Ht0).
  destruct (Z.eqb_spec (t_id t0) (t_id t)) as [E|E]; [|congruence]. done.
Qed.

Lemma round_transaction {A} id (m : DB A) w : runs_in (round_except id) m w -> wp m (fun _ w' => no_review id (w_db w')) w ->
  runs_in no_new_round (_transaction m) w.
Proof.
  unfold runs_in, dbrel, wp, _transaction. destruct (m w) as [[a|e] w']; cbn; [|intros; reflexivity].
  destruct (sql_error w'); cbn; [intros; reflexivity|].
  intros He Hn. by eapply except_no_new_round.
Qed.

Lemma round_apply t c e b : keeps (dbrel no_new_round) (_apply_pending_amendment t c e false b).
Proof. unfold _apply_pending_amendment, task_event. solve_db_keeps. Qed.
#[local] Hint Resolve round_apply : py_keeps.

Lemma round_amend_task id args w : NoDup (t_id <$> tasks (w_db w)) -> runs_in no_new_round (amend_task id args) w.
Proof.
  intros Hnd. unfold amend_task.
  destruct (find_task id (w_db w)) as [t|] eqn:Ht.
  2: { apply runs_transaction; [exact _|]. apply runs_task_row; [exact _|]. intros t Ht'. congruence. }
  assert (t_id t = id) as Hid by (unfold find_task in Ht; apply first_Some in Ht as [_ Hi]; by bool_to_prop).
  destruct (decide (t_status t = T_VERIFYING)) as [Hv|Hv].
  - apply (round_transaction id).
    + apply runs_task_row; [exact _|]. intros t0 Ht0. simplify_eq. apply runs_keeps.
      unfold _apply_pending_amendment, task_event. solve_db_keeps.
    + unfold _task_row. apply wp_bind, wp_bind, wp_read. rewrite Ht. apply wp_ret. cbv zeta. apply wp_bind, wp_raise_if. intros _.
      do 5 (apply wp_bind, wp_true; intros ? ?).
      apply wp_bind, wp_true; intros ? ?. apply wp_bind. rewrite bool_decide_eq_true_2 by done. cbn [when].
      apply apply_ends_round. intros w3 Hn. rewrite Hid in Hn. apply wp_bind.
      apply (no_review_kept id); [unfold task_event; solve_db_keeps|done|]. intros _ w4 Hn4. by apply wp_ret.
  - apply runs_transaction; [exact _|]. apply runs_task_row; [exact _|]. intros t0 Ht0. simplify_eq. cbv zeta.
    apply runs_raise_if; [exact _|]. intros _. apply runs_bind; [exact _|apply runs_keeps; solve_db_keeps|].
    intros now w1 E1. assert (w_db w1 = w_db w) as Ew by (unfold utc_now in E1; by simplify_eq).
    apply runs_bind; [exact _| |].
    + apply (runs_update_row (t_id t) _ t); rewrite ?Ew; [done|done|]. split; [done|]. cbn. done.
    + intros _ w2 _. apply runs_keeps. rewrite (bool_decide_eq_false_2 (t_status t = T_VERIFYING)) by done.
      cbn [when negb andb]. unfold task_event. solve_db_keeps.
Qed.

Lemma keys_after {A} (m : DB A) w r w' : keeps stmts m -> m w = (r, w') -> keys_ok (w_db w) -> keys_ok (w_db w').
Proof.
  intros Hm E. specialize (Hm w). rewrite E in Hm. unfold dbrel in Hm; cbn in Hm.
  induction Hm as [|? ? ? Hst Hs IH]; [done|]. intros Hk. by apply IH, (stmt_keys _ _ Hst).
Qed.

Lemma round_reject_task id reason origin w : keys_ok (w_db w) -> runs_in no_new_round (reject_task id reason origin) w.
Proof.
  intros Hk. unfold reject_task. cbv zeta. apply runs_raise_if; [exact _|]. intros _. apply runs_raise_if; [exact _|]. intros _.
  apply runs_bind; [exact _| |intros; apply runs_keeps; unfold get_task, _task_row; solve_db_keeps].
  apply runs_transaction; [exact _|]. apply runs_task_row; [exact _|]. intros t Ht. apply runs_raise_if; [exact _|]. intros _.
  apply runs_bind; [exact _|apply round_set_task_status, Hk|]. intros a w1 E1.
  apply keys_after in E1; [|apply stmts_set_task_status|done].
  apply runs_bind; [exact _|apply runs_keeps; unfold task_event; solve_db_keeps|]. intros [] w2 E2.
  apply keys_after in E2; [|apply stmts_event|done]. apply round_set_task_status, E2.
Qed.

Lemma round_abort_prepared_operation id reason w : runs_in no_new_round (abort_prepared_operation id reason) w.
Proof.
  unfold abort_prepared_operation.
  apply runs_bind; [exact _| |intros; apply runs_keeps; unfold get_task, _task_row; solve_db_keeps].
  apply runs_transaction; [exact _|].
  apply runs_bind; [exact _|apply runs_keeps; unfold _operation_row; solve_db_keeps|]. intros o w1 _.
  apply runs_raise_if; [exact _|]. intros _.
  apply runs_bind; [exact _|apply runs_keeps; unfold _mission_row; solve_db_keeps|]. intros mi w2 _.
  apply runs_bind; [exact _|apply runs_keeps; unfold _task_row; solve_db_keeps|]. intros t w3 _.
  apply runs_bind; [exact _|apply runs_keeps; solve_db_keeps|]. intros target w4 E4.
  assert (Hne : target <> T_VERIFYING).
  { unfold mret, ST_ret, raise in E4. destruct (is_in (t_status t) _) eqn:Ei; [injection E4 as <- _; intros Hv; by rewrite Hv in Ei|].
    destruct (is_in (m_status mi) _); [by injection E4 as <- _|]. destruct (bool_decide _); [by injection E4 as <- _|discriminate E4]. }
  apply runs_keeps. unfold op_event. repeat (db_keeps_step || idtac).
  all: apply round_update_task; intros []; split; [done|]; cbn; done.
Qed.

(** A provider's exit changes no task but its own. *)
Lemma except_finish_operation id code logs t w :
  (forall o, find_operation id (w_db w) = Some o -> o_task o = t) -> runs_in (round_except t) (finish_operation id code logs) w.
Proof.
  intros Ho. unfold finish_operation.
  apply runs_bind; [exact _| |intros; apply runs_keeps; unfold get_task, _task_row; solve_db_keeps].
  apply runs_transaction; [exact _|]. apply runs_operation_row; [exact _|]. intros o Hf. rewrite (Ho o Hf).
  apply runs_raise_if; [exact _|]. intros _. apply runs_task_row; [exact _|]. intros row Hr.
  assert (t_id row = t) as <- by (unfold find_task in Hr; apply first_Some in Hr as [_ Hi]; by bool_to_prop).
  apply runs_keeps. unfold _apply_pending_amendment, task_event, op_event, _mission_row. solve_db_keeps.
Qed.

(** Every method but the one that records a provider's exit. *)
Definition ends_operation (o : op) : bool := match o with Op_finish_operation _ _ _ => true | _ => false end.
Lemma round_prune_heartbeats n m c k dl del : keeps (dbrel no_new_round) (prune_heartbeats n m c k dl del).
Proof. revert del. induction n; intros del; cbn [prune_heartbeats]; solve_db_keeps. Qed.
Lemma round_prune_refreshes n m c k dl l del : keeps (dbrel no_new_round) (prune_refreshes n m c k dl l del).
Proof. revert l del. induction n; intros l del; cbn [prune_refreshes]; solve_db_keeps. Qed.
#[local] Hint Resolve round_prune_heartbeats round_prune_refreshes : py_keeps.

Lemma run_op_no_new_round o w : keys_ok (w_db w) -> ends_operation o = false -> runs_in no_new_round (run_op o) w.
Proof.
  intros Hk Ho.
  assert (Hi : forall A (m : DB A), runs_in no_new_round m w -> runs_in no_new_round (ignore m) w).
  { intros A m Hm. unfold ignore. apply runs_bind; [exact _|done|]. intros; apply runs_keeps; solve_db_keeps. }
  destruct o; try done; cbn [run_op];
    try (apply Hi; first [apply round_amend_task, Hk | apply round_set_task_status, Hk | apply round_reject_task, Hk | apply round_abort_prepared_operation]);
    apply runs_keeps; unfold_methods; solve_db_keeps.
Qed.
End special.
