(* ===== verification/StoreRefines.v ===== *)
(** * The store refines the lifecycle machine

    Every method of the store, called on a database whose invariant holds,
    moves the abstract state by a sequence of lifecycle steps; an exception
    inside a transaction leaves it where it was. *)

From S2P Require Import Prelude Py Vocab States StoreData StoreTasks StoreOps StoreReview StoreLog StoreApi StoreCounts StoreKeys StoreDeps Lifecycle StoreAbstract.
From stdpp Require Import options.
Local Open Scope Z_scope.

#[local] Arguments life_of : simpl never.

(** Read the abstract state through the statements already executed. *)
Ltac lifeq := cbn [w_db] in *; repeat match goal with H : life_of (w_db ?w) = _ |- context [life_of (w_db ?w)] => rewrite H end.

Ltac lifeq_all := lifeq;
  repeat match goal with
  | E : life_of (w_db ?w) = _, H : context [life_of (w_db ?w)] |- _ => rewrite E in H
  end.

(** Read the guards as propositions. *)
Ltac guards := unfold is_in in *; bool_to_prop.

Ltac wp_step :=
  cbv beta;
  match goal with
  | |- wp (let x := _ in _) _ _ => cbv zeta
  | |- wp (_ ≫= _) _ _ => apply wp_bind
  | |- wp (mret _) _ _ => apply wp_ret
  | |- wp (raise _) _ _ => apply wp_raise
  | |- wp (raise_if _ _) _ _ => apply wp_raise_if; intros ?
  | |- wp (when _ _) _ _ => apply wp_when; intros ?
  | |- wp (read _) _ _ => apply wp_read
  | |- wp (_mission_row _) _ _ => apply wp_mission_row; intros ? ? ?
  | |- wp (_task_row _) _ _ => apply wp_task_row; intros ? ? ? ?
  | |- wp (_operation_row _) _ _ => apply wp_operation_row; intros ? ? ? ?
  | |- wp (_dependencies_complete _) _ _ => apply wp_dependencies_complete; intros ? ?
  | |- wp utc_now _ _ => apply wp_utc_now; intros ? ?; cbn [w_db]
  | |- wp uuid4_hex _ _ => apply wp_uuid4_hex; intros ? ?; cbn [w_db]
  | |- wp (_apply_pending_amendment _ _ _ true _) _ _ => fail 1
  | |- wp (_transaction _) _ _ => apply wp_transaction
  | |- wp (if ?b then _ else _) _ _ => destruct b eqn:?
  | |- wp (match ?x with _ => _ end) _ _ => destruct x eqn:?
  | |- wp _ _ _ => apply wp_neutral; [solve [solve_db_keeps]|intros ? ? ?]
  end.
(** Stop at a statement that changes the abstract state. *)
Ltac wp_run := repeat wp_step.
Ltac same_cols := intros []; unfold amend_columns; cbn; repeat (case_match; cbn); split; reflexivity.
(** [UPDATE tasks SET status=s]: the row is known from its SELECT. *)
Ltac wp_status s :=
  eapply (wp_update_task _ _ (a_set_status s)); [lifeq; eassumption|same_cols|intros ? ?].
Ltac wp_op_status s :=
  eapply (wp_update_operation _ _ (a_set_op s)); [lifeq; eassumption|same_cols|intros ? ?].
(** The end of a method: the steps taken, read off the equations. *)
Ltac steps := lifeq; try done.

Lemma l_set_mission_same id m l : l_missions l !! id = Some m -> l_set_mission id m l = l.
Proof. intros Hm. unfold l_set_mission, with_missions. rewrite insert_id by done. by destruct l. Qed.

(** [if x != y and x not in l: raise ...] *)
Lemma in_or_same {A} `{StrEnum A} (x y : A) l :
  negb (bool_decide (x = y)) && negb (is_in x l) = false -> x = y \/ x ∈ l.
Proof.
  intros Hb. destruct (decide (x = y)); [by left|right]. rewrite bool_decide_false in Hb by done.
  by apply is_in_true, negb_false_iff.
Qed.

Lemma guard_applies (b c : bool) : b && c = false -> b = true -> c = false.
Proof. by destruct b. Qed.

Lemma pending_not_effective t : t_origin t = Or_agent_proposal -> t_proposal t = P_PENDING -> effective t = false.
Proof. unfold effective. by intros -> ->. Qed.

(** In a mission that is not completed, a new task does not touch the mission. *)
Lemma L_new_task_open v l mid m :
  l_missions l !! mid = Some m -> am_status m ≠ M_CANCELLED -> am_status m ≠ M_COMPLETED ->
  lstep v l (with_seq (l_seq l + 1) (l_set_task (l_seq l + 1) (ATask mid T_QUEUED true) l)).
Proof.
  intros Hm Hc Hd. pose proof (L_new_task (v := v) l mid m Hm Hc) as Hs.
  assert (reopened m = m) as E by (unfold reopened; by destruct (am_status m)).
  rewrite E, l_set_mission_same in Hs; done.
Qed.

(** Steps that only add dependencies; they do not look at missions. *)
Inductive ldep (l : life) : life -> Prop :=
  | LDep t p rt rp :
      l_tasks l !! t = Some rt -> l_tasks l !! p = Some rp -> at_mission rt = at_mission rp ->
      at_status rt ∉ [T_RUNNING; T_VERIFYING; T_COMPLETED; T_CANCELLED] ->
      t ≠ p -> ~ tc (l_waits l) p t ->
      ldep l (with_deps ({[(t, p)]} ∪ l_deps l) l).

Lemma ldep_lstep v l l' : ldep l l' -> lstep v l l'.
Proof. destruct 1. by eapply L_dependency. Qed.
Lemma ldeps_missions l l' : rtc ldep l l' -> l_missions l' = l_missions l.
Proof. induction 1 as [|l l1 l' [] _ IH]; [done|]. by rewrite IH. Qed.
Lemma ldeps_frame l l' ms : rtc ldep l l' -> rtc ldep (with_missions ms l) (with_missions ms l').
Proof.
  induction 1 as [|l l1 l' Hd _ IH]; [done|]. eapply rtc_l; [|exact IH].
  destruct Hd as [t p rt rp Ht Hp Hm Hs Hne Htc].
  exact (LDep (with_missions ms l) t p rt rp Ht Hp Hm Hs Hne Htc).
Qed.
Lemma ldeps_lsteps v l l' : rtc ldep l l' -> lsteps v l l'.
Proof. apply rtc_subrel. intros ??. apply ldep_lstep. Qed.

Lemma l_set_mission_over l ms id m : l_missions l = ms -> l_set_mission id m l = with_missions (<[id := m]> ms) l.
Proof. by intros <-. Qed.

(** Completed prerequisites stay completed when an open task changes status. *)
Lemma complete_set_task l id t t' x :
  l_tasks l !! id = Some t -> at_status t ≠ T_COMPLETED -> l_complete l x -> l_complete (l_set_task id t' l) x.
Proof.
  intros Ht Hs Hc p r Hw [[<- <-]|[Hne Hr]]%l_set_task_lookup; [|by eapply Hc].
  destruct Hs. by eapply Hc.
Qed.

(** A loop over rows selected before it: the rows still to come are as they
    were read, and satisfy [P]. *)
Record rows_left (v : option Z) (l0 : life) (P : life -> task_row -> Prop) (rest : list task_row) (w : world) : Prop := {
  rl_steps : lsteps v l0 (life_of (w_db w));
  rl_nodup : NoDup (t_id <$> rest);
  rl_rows : forall r, r ∈ rest -> l_tasks (life_of (w_db w)) !! t_id r = Some (a_task r) /\ P (life_of (w_db w)) r;
}.

Lemma rows_left_step v l0 (P : life -> task_row -> Prop) r rest w w' t :
  rows_left v l0 P (r :: rest) w -> lsteps v (life_of (w_db w)) (life_of (w_db w')) ->
  life_of (w_db w') = l_set_task (t_id r) t (life_of (w_db w)) ->
  (forall x, x ∈ rest -> P (life_of (w_db w)) x -> P (life_of (w_db w')) x) ->
  rows_left v l0 P rest w'.
Proof.
  intros [Hs [Hr Hnd]%NoDup_cons Hrows] Hst E HP. split; [by etrans|done|].
  intros x Hx. destruct (Hrows x) as [Hx1 Hx2]; [by right|]. split; [|by apply HP].
  rewrite E. cbn. rewrite lookup_insert_ne; [done|]. intros Heq. apply Hr. rewrite Heq. by apply list_elem_of_fmap_2.
Qed.

Lemma schedulable_effective t :
  bool_decide (t_origin t = Or_agent_proposal) && negb (bool_decide (t_proposal t = P_ACCEPTED)) = false ->
  at_effective (a_task t) = true.
Proof. unfold a_task, effective; cbn. by destruct (t_origin t), (t_proposal t). Qed.

Lemma l_set_task_twice id t t' op o l :
  l_set_task id t (l_set_op op o (l_set_task id t' l)) = l_set_task id t (l_set_op op o l).
Proof. unfold l_set_task, l_set_op, with_tasks, with_ops; cbn. by rewrite insert_insert_eq. Qed.

Lemma rows_left_tail v l0 P r rest w : rows_left v l0 P (r :: rest) w -> rows_left v l0 P rest w.
Proof.
  intros [Hs [Hr Hnd]%NoDup_cons Hrows]. split; [done..|]. intros x Hx. apply Hrows. by right.
Qed.

(** The same for a loop over unresolved operations. *)
Record ops_left (v : option Z) (l0 : life) (rest : list operation_row) (w : world) : Prop := {
  ol_steps : lsteps v l0 (life_of (w_db w));
  ol_nodup : NoDup (o_id <$> rest);
  ol_rows : forall o, o ∈ rest -> l_ops (life_of (w_db w)) !! o_id o = Some (a_op o) /\ active_op o = true;
}.

Lemma ops_left_step v l0 o rest w w' t s id :
  ops_left v l0 (o :: rest) w -> lsteps v (life_of (w_db w)) (life_of (w_db w')) ->
  life_of (w_db w') = l_set_task id t (l_set_op (o_id o) s (life_of (w_db w))) ->
  ops_left v l0 rest w'.
Proof.
  intros [Hs [Hr Hnd]%NoDup_cons Hrows] Hst E. split; [by etrans|done|].
  intros x Hx. destruct (Hrows x) as [Hx1 Hx2]; [by right|]. split; [|done].
  rewrite E. cbn. rewrite lookup_insert_ne; [done|]. intros Heq. apply Hr. rewrite Heq. by apply list_elem_of_fmap_2.
Qed.

Section refine.
Context `{Oracle} `{SE : SqlErrors} (v : option Z).

(** [pre; with self._transaction(): ...; return self.get_...] *)
Ltac method := repeat (apply refines_bind_l; [solve [solve_db_keeps]|intros ?]);
  try (apply refines_bind_r;
       [|unfold get_mission, get_task, get_command, get_operation, _mission_row, _task_row, _operation_row;
         intros; solve [solve_db_keeps]]);
  try (apply refines_transaction; intros w [Hk Hok]).

Lemma refines_create_mission n ob c i p a cfg : refines v (create_mission n ob c i p a cfg).
Proof.
  unfold create_mission. method. wp_run. apply wp_insert_mission. intros w1 Hn E1. cbn in Hn, E1.
  pose proof (L_new_mission (v := v) _ _ (git_toplevel a1) Hn) as S1.
  wp_run; [|lifeq; by apply rtc_once].
  apply wp_insert_task; [lifeq; by eapply lstep_ok|done|]. intros i0 w2 -> E2. wp_run. lifeq.
  eapply rtc_l; [exact S1|]. apply rtc_once.
  eapply L_new_task_open; [cbn; by rewrite lookup_insert_eq|done..].
Qed.

Lemma refines_set_mission_status m s : refines v (set_mission_status m s).
Proof.
  unfold set_mission_status. destruct (of_string (upper s)) as [st|]; [|by apply refines_neutral; solve_db_keeps].
  method. wp_run. eapply wp_update_mission_status; [lifeq; eassumption|]. intros w1 Hc E1. wp_run. lifeq_all.
  apply rtc_once, L_mission; [done|by apply in_or_same| |exact Hc].
  intros ->. match goal with Hg : _ && _ = false |- _ => apply guard_applies in Hg; [|done] end.
  bool_to_prop. by apply all_completed_spec; [| |apply Hk].
Qed.

(** Adding dependencies: only [l_deps] changes, one edge at a time. *)
Lemma wp_add_dependency_locked m t p (Q : unit -> world -> Prop) w :
  (forall w' rt rp, l_tasks (life_of (w_db w)) !! t = Some rt -> l_tasks (life_of (w_db w)) !! p = Some rp ->
    at_mission rt = at_mission rp -> at_status rt ∉ [T_RUNNING; T_VERIFYING; T_COMPLETED; T_CANCELLED] ->
    t ≠ p -> ~ tc (l_waits (life_of (w_db w))) p t ->
    life_of (w_db w') = with_deps ({[(t, p)]} ∪ l_deps (life_of (w_db w))) (life_of (w_db w)) -> Q tt w') ->
  wp (_add_dependency_locked m t p) Q w.
Proof.
  intros HQ. unfold _add_dependency_locked. wp_run.
  apply wp_insert_dependency. intros w' E. bool_to_prop. eapply HQ; [done..| | |done| |done].
  - cbn. congruence.
  - cbn. unfold is_in in *. bool_to_prop. set_solver.
  - rewrite waits_life, <- elem_of_ancestors. done.
Qed.

Lemma wp_add_dependencies m t ds w :
  wp (for_each ds (fun dep => _add_dependency_locked m t dep))
    (fun _ w' => rtc ldep (life_of (w_db w)) (life_of (w_db w'))) w.
Proof.
  apply (wp_for_each (fun w' => rtc ldep (life_of (w_db w)) (life_of (w_db w')))); [done|].
  intros p w1 _ H1. apply wp_add_dependency_locked.
  intros w2 rt rp ?????? E. eapply rtc_r; [exact H1|]. rewrite E. by eapply LDep.
Qed.

Lemma refines_add_task m p t pr or_ d a : refines v (add_task m p t pr or_ d a).
Proof.
  unfold add_task. method. wp_run.
  match goal with Hx : l_missions _ !! m = Some (a_mission ?r) |- _ => rename r into row, Hx into Hm end.
  apply wp_insert_task; [by lifeq|done|]. intros i w1 -> E1. cbn in E1.
  assert (Hlive : m_status row ≠ M_CANCELLED) by (by bool_to_prop).
  pose proof (L_new_task (v := v) _ _ _ Hm Hlive) as S1.
  apply wp_bind. eapply wp_mono; [|apply wp_add_dependencies]. intros ? w2 Hd. cbv beta in Hd |- *.
  pose proof (ldeps_missions _ _ Hd) as Hms. rewrite E1 in Hms; cbn in Hms.
  pose proof (ldeps_frame _ _ (<[m := reopened (a_mission row)]> (l_missions (life_of (w_db w)))) Hd) as Hfr.
  rewrite E1 in Hfr. apply (ldeps_lsteps v) in Hfr. wp_run.
  - eapply wp_update_mission_status; [lifeq; rewrite Hms; by lifeq|]. intros w3 _ E3. wp_run. lifeq_all. eapply rtc_l; [exact S1|].
    rewrite (l_set_mission_over _ _ _ _ Hms). bool_to_prop.
    replace (a_set_mission M_STOPPED (a_mission row)) with (reopened (a_mission row)); [exact Hfr|].
    unfold reopened; cbn. by match goal with E : m_status row = _ |- _ => rewrite E end.
  - lifeq_all. bool_to_prop. eapply rtc_l; [by eapply L_new_task_open|]. by apply ldeps_lsteps.
Qed.

Lemma refines_propose_task m p s t pr d a : refines v (propose_task m p s t pr d a).
Proof.
  unfold propose_task. method. wp_run.
  match goal with Hx : l_missions _ !! m = Some (a_mission ?r) |- _ => rename r into row, Hx into Hm end.
  apply wp_insert_task; [by lifeq|done|]. intros i w1 -> E1. cbn in E1.
  apply wp_bind. eapply wp_mono; [|apply wp_add_dependencies]. intros ? w2 Hd. cbv beta in Hd |- *.
  wp_run. lifeq_all. guards.
  eapply rtc_l; [eapply L_propose; [exact Hm|done]|]. by apply ldeps_lsteps.
Qed.

Lemma refines_decide_proposal m t a r : refines v (decide_proposal m t a r).
Proof.
  unfold decide_proposal. method. wp_run.
  - eapply (wp_update_task _ _ a_accept); [lifeq; eassumption|intros []; split; unfold a_task, a_accept, effective; cbn; f_equal; by rewrite orb_true_r|].
    intros w1 E1. wp_run. lifeq_all. guards.
    apply rtc_once. eapply L_accept; [done|by apply pending_not_effective|cbn; subst m; eassumption|done].
  - eapply wp_update_task_row; [eassumption|by intros []|]. intros w1 E1. wp_run. lifeq_all. guards.
    replace (a_task _) with (a_set_status T_CANCELLED (a_task t0)).
    2: { unfold a_task, a_set_status; cbn. f_equal. rewrite pending_not_effective by done. unfold effective; cbn.
         by match goal with E : t_origin _ = _ |- _ => rewrite E end. }
    apply rtc_once, L_reject; [done|by apply pending_not_effective].
Qed.

Lemma refines_add_dependency m t p : refines v (add_dependency m t p).
Proof.
  unfold add_dependency. method. apply wp_bind, wp_add_dependency_locked. intros w1 rt rp Ht Hp Hm Hs Hne Htc E1.
  pose proof (L_dependency (v := v) _ _ _ _ _ Ht Hp Hm Hs Hne Htc) as S1.
  wp_run; [|lifeq; by apply rtc_once].
  wp_status T_QUEUED. wp_run. lifeq_all. eapply rtc_l; [exact S1|]. guards.
  match goal with Hx : l_tasks (with_deps _ _) !! t = _ |- _ => cbn in Hx; rewrite Ht in Hx; injection Hx as -> end.
  apply rtc_once, L_task; [done| |done]. cbn. match goal with E : t_status _ = T_READY |- _ => rewrite E end.
  right. cbn. set_solver.
Qed.

(** ** Amendments *)

Lemma wp_apply_and_reset t c e at_ (Q : unit -> world -> Prop) w :
  l_tasks (life_of (w_db w)) !! t_id t = Some at_ ->
  (forall w', life_of (w_db w') = l_set_task (t_id t) (a_set_status T_READY at_) (life_of (w_db w)) -> Q tt w') ->
  wp (_apply_pending_amendment t c e true false) Q w.
Proof.
  intros Ht HQ. unfold _apply_pending_amendment, task_event. cbn [andb]. wp_step. wp_step. wp_step.
  wp_status T_READY. do 5 wp_step. match goal with |- Q ?u _ => destruct u end. apply HQ. by lifeq.
Qed.

Lemma refines_amend_task t c : refines v (amend_task t c).
Proof.
  unfold amend_task. method. wp_run; try by lifeq.
  all: match goal with E : t_id ?r = _ |- wp (_apply_pending_amendment ?r _ _ _ _) _ _ =>
    eapply wp_apply_and_reset; [rewrite E; lifeq; eassumption|]; intros ? ?; rewrite E in * end.
  all: wp_run; lifeq_all; guards; by apply rtc_once, L_amend.
Qed.

Lemma refines_set_task_status t s : refines v (set_task_status t s).
Proof.
  unfold set_task_status. destruct (of_string (upper s)) as [st|]; [|by apply refines_neutral; solve_db_keeps].
  method. wp_run. wp_status st. wp_run. lifeq_all.
  apply rtc_once, L_task; [done|by apply in_or_same|]. intros ->.
  match goal with Hg : _ && negb _ = false |- _ => apply guard_applies in Hg; [|done] end. guards. auto.
Qed.

(** ** Scheduling *)

Lemma refines_ready_tasks m l : refines v (ready_tasks m l).
Proof.
  unfold ready_tasks. method. do 4 wp_step. apply wp_bind.
  set (ready := select _ _).
  eapply wp_mono; [|eapply (wp_for_each_rest (rows_left v (life_of (w_db w)) (fun l r => t_status r = T_QUEUED /\ l_complete l (t_id r))) ready)].
  - intros ? w' Hl. wp_run. apply Hl.
  - split; [done|by apply NoDup_fmap_select, Hk|]. intros r [Hr Hq]%elem_of_select. guards.
    rewrite life_of_task, (find_task_elem _ r) by (done || apply Hk). split; [done|].
    unfold runnable in *. guards. split; [done|]. by apply dependencies_complete_spec.
  - intros r rest w' Hl. destruct (rl_rows _ _ _ _ _ Hl r) as [Ht [Hq Hc]]; [by left|]. wp_run. wp_status T_READY. wp_run.
    eapply rows_left_step; [exact Hl| |by lifeq|].
    + lifeq. apply rtc_once, L_task; [done| |done]. cbn. rewrite Hq. right. cbn. set_solver.
    + intros x _ [Hxq Hxc]. split; [done|]. lifeq. eapply complete_set_task; [done| |done]. cbn. by rewrite Hq.
Qed.

Lemma refines_begin_operation t i st : refines v (begin_operation t i st).
Proof.
  unfold begin_operation. method. wp_run.
  all: guards; wp_status T_RUNNING; wp_run; apply wp_insert_operation; intros w2 Hn E2; wp_run; lifeq_all.
  all: apply rtc_once; eapply L_begin; [done|done|done|set_solver|by apply schedulable_effective| |auto|done].
  all: by apply active_op_none_spec.
Qed.

Lemma refines_mark_operation_running o pane pid st r md : refines v (mark_operation_running o pane pid st r md).
Proof.
  unfold mark_operation_running. method. wp_run. wp_op_status O_RUNNING. wp_run. lifeq_all. guards.
  apply rtc_once. eapply L_run; done.
Qed.

(** The two UPDATEs with which an operation leaves the machine. *)
Ltac wp_exit :=
  wp_op_status O_EXITED; wp_run;
  match goal with
  | E : t_id ?r = _ |- wp (update_task (t_id ?r) (fun t => set_t_updated_at _ (set_t_status ?s t))) _ _ =>
      rewrite E; wp_status s
  end; wp_run; lifeq_all; guards; apply rtc_once; eapply L_exit; [done| |done|].

Lemma refines_abort_prepared_operation o r : refines v (abort_prepared_operation o r).
Proof.
  unfold abort_prepared_operation. method. wp_run; wp_exit.
  all: try (unfold a_op; cbn; by match goal with E : o_status _ = _ |- _ => rewrite E end).
  all: cbn; destruct (t_status t); cbn; set_solver.
Qed.

Lemma exit_allowed e p m s :
  if kept_at_exit s then default (exit_status e p m) (boundary_status s) = s
  else default (exit_status e p m) (boundary_status s) ∈ exit_statuses.
Proof.
  destruct s; cbn; try done; unfold exit_status; repeat case_match; set_solver.
Qed.

Lemma refines_finish_operation o e l : refines v (finish_operation o e l).
Proof.
  unfold finish_operation. method. wp_run.
  - match goal with E : t_id _ = _ |- _ => rename E into Et end.
    eapply wp_apply_and_reset; [rewrite Et; eassumption|]. rewrite Et. intros w1 E1.
    wp_run. wp_op_status O_EXITED. wp_run.
    eapply (wp_update_task _ _ (a_set_status (default (exit_status e (t_pending t) m) (boundary_status (t_status t)))));
      [lifeq; cbn; by rewrite lookup_insert_eq|same_cols|intros w3 E3].
    wp_run. lifeq_all. guards.
    rewrite l_set_task_twice. apply rtc_once, (L_exit _ o (a_op o0) (a_task t)); [done|done|done|]. apply exit_allowed.
  - wp_exit; [done|]. apply exit_allowed.
Qed.

(** ** Recovery *)

Lemma refines_reconcile m : refines v (reconcile_interrupted_operations m).
Proof.
  unfold reconcile_interrupted_operations. method. do 4 wp_step. set (rows := select _ _).
  eapply wp_mono; [|eapply (wp_for_fold_rest (ops_left v (life_of (w_db w))) rows)]; [intros ? w' Hl; apply Hl| |].
  - split; [done|by apply NoDup_fmap_select, Hk|]. intros o [Ho Hq]%elem_of_select. guards.
    split; [|done]. by rewrite life_of_op, (find_operation_elem _ o) by (done || apply Hk).
  - intros n o rest w' Hl. destruct (ol_rows _ _ _ _ Hl o) as [Ho Ha]; [by left|].
    wp_run. wp_op_status O_UNCERTAIN. wp_run.
    match goal with E : t_id _ = _ |- _ => rewrite E end. wp_status T_BLOCKED. wp_run.
    eapply ops_left_step; [exact Hl| |by lifeq].
    lifeq. apply rtc_once. by eapply L_interrupt.
Qed.

Lemma refines_release_declined m : refines v (release_declined_tasks m).
Proof.
  unfold release_declined_tasks. method. do 4 wp_step. set (rows := select _ _).
  eapply wp_mono; [|eapply (wp_for_fold_rest (rows_left v (life_of (w_db w)) (fun _ r => t_status r = T_BLOCKED)) rows)];
    [intros ? w' Hl; apply Hl| |].
  - split; [done|by apply NoDup_fmap_select, Hk|]. intros r [Hr Hq]%elem_of_select. guards.
    split; [|done]. by rewrite life_of_task, (find_task_elem _ r) by (done || apply Hk).
  - intros l r rest w' Hl. destruct (rl_rows _ _ _ _ _ Hl r) as [Ht Hq]; [by left|]. wp_run.
    + wp_status T_READY. wp_run. eapply rows_left_step; [exact Hl| |by lifeq|done].
      lifeq. by apply rtc_once, L_release.
    + by eapply rows_left_tail.
Qed.

Lemma refines_continue o n : refines v (continue_task_after_provider_failure o n).
Proof.
  unfold continue_task_after_provider_failure. method. wp_run; try by lifeq.
  match goal with E : t_id _ = o_task _ |- _ => rewrite E in *; rename E into Et end.
  wp_status T_READY. wp_run. lifeq_all. guards.
  apply rtc_once.
  match goal with E : t_status ?t ∈ _ |- _ => destruct (decide (t_status t = T_FAILED)) as [Ef|Ef] end.
  - apply L_retry; auto.
  - apply L_task; [done| |auto]. cbn.
    assert (t_status t = T_BLOCKED) as -> by set_solver. right. cbn. set_solver.
Qed.

(** ** Review *)

Lemma refines_verify_task t e ap src md ro : refines (Some t) (verify_task t e ap src md ro).
Proof.
  unfold verify_task. method. wp_run; try by lifeq.
  all: wp_status T_COMPLETED; wp_run; lifeq_all; guards; apply rtc_once, L_verify; auto.
Qed.

Lemma wp_set_task_status t s st at_ (Q : task_dict -> world -> Prop) w :
  of_string (upper s) = Some st -> l_tasks (life_of (w_db w)) !! t = Some at_ ->
  st ≠ T_READY -> st ∈ TASK_TRANSITIONS (at_status at_) ->
  (forall d w', life_of (w_db w') = l_set_task t (a_set_status st at_) (life_of (w_db w)) -> Q d w') ->
  wp (set_task_status t s) Q w.
Proof.
  intros Hs Ht Hr Hm HQ. unfold set_task_status. rewrite Hs. wp_run. wp_status st. wp_run.
  unfold get_task. wp_run. apply HQ. lifeq_all. congruence.
Qed.

Lemma refines_reject_task t r o : refines v (reject_task t r o).
Proof.
  unfold reject_task. method. do 4 wp_step. guards.
  apply wp_bind. eapply (wp_set_task_status _ _ T_FAILED); [done|eassumption|done| |].
  { cbn. match goal with E : t_status _ = _ |- _ => rewrite E end. cbn. set_solver. }
  intros _ w1 E1. do 2 wp_step. 
  eapply (wp_set_task_status _ _ T_QUEUED); [done|lifeq; cbn; by rewrite lookup_insert_eq|done| |].
  { cbn. set_solver. }
  intros _ w2 E2. lifeq_all.
  eapply rtc_l; [eapply (L_task _ t (a_task t0) T_FAILED); [done| |done]|].
  { cbn. match goal with E : t_status _ = _ |- _ => rewrite E end. right. cbn. set_solver. }
  apply rtc_once, L_task; [cbn; by rewrite lookup_insert_eq| |done]. right. cbn. set_solver.
Qed.

(** ** The whole interface *)

Lemma neutral_record_hold_release m t k : keeps (dbrel same_life) (_record_hold_release m t k).
Proof. unfold _record_hold_release, get_mission, _mission_row, _task_row, task_event. solve_db_keeps. Qed.
#[local] Hint Resolve neutral_record_hold_release : py_keeps.
Lemma neutral_sync m : keeps (dbrel same_life) (sync_review_hold_events m).
Proof. unfold sync_review_hold_events, review_hold, _mission_row, task_event. solve_db_keeps. Qed.
Lemma neutral_prune_heartbeats n m c k dl del : keeps (dbrel same_life) (prune_heartbeats n m c k dl del).
Proof. revert del. induction n; intros del; cbn [prune_heartbeats]; solve_db_keeps. Qed.
Lemma neutral_prune_refreshes n m c k dl l del : keeps (dbrel same_life) (prune_refreshes n m c k dl l del).
Proof. revert l del. induction n; intros l del; cbn [prune_refreshes]; solve_db_keeps. Qed.
Lemma neutral_record_runtime_event m k d : keeps (dbrel same_life) (record_runtime_event m k d).
Proof. unfold record_runtime_event, mission_event, _mission_row. solve_db_keeps. Qed.
#[local] Hint Resolve neutral_sync neutral_prune_heartbeats neutral_prune_refreshes neutral_record_runtime_event : py_keeps.

Lemma refines_ignore {A} (m : DB A) : refines v m -> refines v (ignore m).
Proof. intros Hm. apply refines_bind_r; [done|]. intros. apply keeps_ret. exact _. Qed.

End refine.

(** The task a call may complete. *)
Definition op_verifies (o : op) : option Z :=
  match o with Op_verify_task t _ _ _ _ _ => Some t | _ => None end.

#[export] Hint Resolve neutral_sync neutral_prune_heartbeats neutral_prune_refreshes neutral_record_runtime_event : py_keeps.
#[export] Hint Resolve refines_create_mission refines_set_mission_status refines_add_task refines_propose_task
  refines_decide_proposal refines_add_dependency refines_ready_tasks refines_amend_task refines_set_task_status
  refines_begin_operation refines_mark_operation_running refines_abort_prepared_operation refines_finish_operation
  refines_reconcile refines_release_declined refines_continue refines_verify_task refines_reject_task : core.

Lemma refines_run_op `{Oracle} `{SE : SqlErrors} o : refines (op_verifies o) (run_op o).
Proof.
  destruct o; cbn [run_op op_verifies]; try apply refines_ignore; auto.
  all: apply refines_neutral;
    unfold set_task_priority, reorder_task, begin_iteration, enqueue_command, finish_command,
      record_operation_process, record_operation_session, record_verification_attempt,
      release_review_hold, prune_plumbing_events, record_events_pruned, refresh_runtime_event,
      set_mission_config_value, set_mission_config_values, set_rotation, record_pruned_operation_log,
      prepare_managed_process, mark_managed_process_running, finish_managed_process;
    repeat unfold _mission_row, _task_row, _operation_row, _managed_process_row, task_event,
      mission_event, op_event, get_mission, get_task, get_command, get_operation, get_managed_process,
      store_config, review_hold; solve_db_keeps.
Qed.

Lemma run_refines `{Oracle} `{SE : SqlErrors} o w :
  db_ok (w_db w) -> lsteps (op_verifies o) (life_of (w_db w)) (life_of (w_db (run_op o w).2)).
Proof. apply refines_run_op. Qed.

Lemma db_ok_reachable d : reachable d -> db_ok d.
Proof.
  intros Hd. split; [by apply keys_ok_reachable|].
  induction Hd as [|d d' Hd IH [O F o tick <-]]; [apply empty_life_ok|].
  eapply lsteps_ok, IH. apply (run_refines o (World d tick)). split; [by apply keys_ok_reachable|done].
Qed.
