(* ===== verification/StoreOperations.v ===== *)
(** * Which operations there are, and which stay resolved

    Only [begin_operation] adds an operation, for the mission of its task; and
    an operation that is resolved once stays so.  So the operations of a mission
    stay resolved as long as nobody begins one of its tasks. *)

From S2P Require Import Prelude Py Vocab States StoreData StoreTasks StoreOps StoreReview StoreLog StoreApi StoreKeys Lifecycle StoreAbstract StoreRefines.
From stdpp Require Import options.
Local Open Scope Z_scope.

(** ** The operations of a mission *)

Section known.
Context `{Oracle} `{SE : SqlErrors} (mission_id : string).

(** Every operation of the mission was there before. *)
Definition ops_known (d d' : database) : Prop :=
  forall o', o' ∈ operations d' -> o_mission o' = mission_id -> exists o, o ∈ operations d /\ o_id o = o_id o' /\ o_mission o = mission_id.
#[export] Instance ops_known_preorder : PreOrder ops_known.
Proof using Type.
  split; unfold ops_known; [intros d o Ho Hm; by exists o|]. intros d1 d2 d3 K1 K2 o' Ho Hm. destruct (K2 o' Ho Hm) as (o2 & Ho2 & Hi2 & Hm2).
  destruct (K1 o2 Ho2 Hm2) as (o1 & ? & ? & ?). exists o1. split_and!; [done|congruence|done].
Qed.
Local Abbreviation known := (dbrel ops_known).

Lemma same_operations_known d d' : operations d' = operations d -> ops_known d d'.
Proof using Type. intros E o Ho Hm. rewrite E in Ho. by exists o. Qed.
Ltac same_rows := intros; apply same_operations_known; reflexivity.
Ltac known_write := apply keeps_write; [exact _|]; same_rows.
Ltac known_statement := apply keeps_statement; [exact _|]; intros ? ? ?; cbn; repeat case_match; intros [= <- <-]; by apply same_operations_known.
Lemma known_event m k data t o : keeps known (_event m k data t o).
Proof using Type. unfold _event. apply keeps_bind; [exact _|apply keeps_utc_now; exact _|]. intros now. known_write. Qed.
Lemma known_update_task id f : keeps known (update_task id f).
Proof using Type. known_write. Qed.
Lemma known_update_mission id f : keeps known (update_mission id f).
Proof using Type. known_write. Qed.
Lemma known_update_amendments p f : keeps known (update_amendments p f).
Proof using Type. known_write. Qed.
Lemma known_update_command id f : keeps known (update_command id f).
Proof using Type. known_write. Qed.
Lemma known_update_process id f : keeps known (update_process id f).
Proof using Type. known_write. Qed.
Lemma known_delete_events ids : keeps known (write (delete_events ids)).
Proof using Type. known_write. Qed.
Lemma known_set_events f : keeps known (write (fun d => set_events (f d) d)).
Proof using Type. known_write. Qed.
Lemma known_insert_task mk : keeps known (insert_task mk).
Proof using Type. known_statement. Qed.
Lemma known_update_mission_status i s n : keeps known (update_mission_status i s n).
Proof using Type. known_statement. Qed.
Lemma known_insert_mission m : keeps known (insert_mission m).
Proof using Type. known_statement. Qed.
Lemma known_insert_dependency t p : keeps known (insert_dependency t p).
Proof using Type. known_statement. Qed.
Lemma known_insert_amendment t r c n : keeps known (insert_amendment t r c n).
Proof using Type. known_statement. Qed.
Lemma known_insert_command c : keeps known (insert_command c).
Proof using Type. known_statement. Qed.
Lemma known_insert_process p : keeps known (insert_process p).
Proof using Type. known_statement. Qed.
Lemma known_update_operation id f : (forall o, o_identity (f o) = o_identity o) -> keeps known (update_operation id f).
Proof using Type.
  intros Hf. apply keeps_write; [exact _|]. intros d o' Ho' Hm. cbn in Ho'. apply elem_of_update_where in Ho' as (o & Ho & ->).
  exists o. specialize (Hf o). unfold o_identity in Hf. destruct (bool_decide _); [|done]. split_and!; [done|congruence|congruence].
Qed.
Lemma known_insert_operation o : o_mission o <> mission_id -> keeps known (insert_operation o).
Proof using Type.
  intros Hm. apply keeps_statement; [exact _|]. intros d a d'. repeat case_match; try done. intros [= <- <-] o' Ho' Hm'. cbn in Ho'.
  apply elem_of_app in Ho' as [Ho'| ->%list_elem_of_singleton]; [by exists o'|done].
Qed.
#[local] Hint Resolve known_event known_update_task known_update_mission known_update_amendments known_update_command known_update_process
  known_delete_events known_set_events known_insert_task known_update_mission_status known_insert_mission known_insert_dependency
  known_insert_amendment known_insert_command known_insert_process : py_keeps.
#[local] Hint Extern 1 (keeps _ (update_operation _ _)) => (apply known_update_operation; same_identity) : py_keeps.

Lemma known_prune_heartbeats n m c k dl del : keeps known (prune_heartbeats n m c k dl del).
Proof using Type. revert del. induction n; intros del; cbn [prune_heartbeats]; solve_db_keeps. Qed.
Lemma known_prune_refreshes n m c k dl l del : keeps known (prune_refreshes n m c k dl l del).
Proof using Type. revert l del. induction n; intros l del; cbn [prune_refreshes]; solve_db_keeps. Qed.
#[local] Hint Resolve known_prune_heartbeats known_prune_refreshes : py_keeps.

(** The call begins a task of the mission. *)
Definition begins (d : database) (o : op) : Prop :=
  match o with Op_begin_operation t _ _ => exists row, find_task t d = Some row /\ t_mission row = mission_id | _ => False end.
Lemma known_begin_operation t i s w : ~ begins (w_db w) (Op_begin_operation t i s) -> ops_known (w_db w) (w_db (begin_operation t i s w).2).
Proof using Type.
  intros Hno. unfold begin_operation. unfold mbind at 1, ST_bind at 1, raise_if at 1. destruct (_ || _); [reflexivity|]. cbn [mret ST_ret].
  unfold _transaction. set (body := _ ≫= _). assert (Hb : ops_known (w_db w) (w_db (body w).2)).
  { unfold body. unfold mbind at 1, ST_bind at 1, _task_row, read, gets, or_raise, mbind at 1, ST_bind at 1.
    destruct (find_task t (w_db w)) as [row|] eqn:Et; [|reflexivity]. cbn [mret ST_ret].
    assert (Hrow : t_mission row <> mission_id) by (intros Hr; apply Hno; by exists row).
    match goal with |- context [(?m ≫= ?f) w] => assert (Hk : keeps known (m ≫= f)) end.
    { assert (Hi : forall id a b c, o_mission (Operation id (t_mission row) t i s None None None None None O_PREPARED None None None a b c) <> mission_id) by done.
      unfold _apply_pending_amendment. unfold_helpers. repeat first [apply known_insert_operation; apply Hi|db_keeps_step]. }
    exact (Hk w). }
  destruct (body w) as [[a|e] w']; cbn [snd w_db] in *; [|reflexivity]. destruct (sql_error w'); [reflexivity|exact Hb].
Qed.
Lemma known_run_op o w : ~ begins (w_db w) o -> ops_known (w_db w) (w_db (run_op o w).2).
Proof using Type.
  intros Hno. destruct o; try (match goal with |- ops_known _ (w_db (run_op ?o w).2) => assert (Hk : keeps known (run_op o)) end;
    [solve [cbn [run_op]; unfold_methods; solve_db_keeps]|exact (Hk w)]).
  pose proof (known_begin_operation task_id iteration station w Hno) as Hk. revert Hk. unfold run_op, ignore, mbind, ST_bind.
  by destruct (begin_operation task_id iteration station w) as [[]].
Qed.
End known.

(** ** Resolved operations *)

(** An operation that is not active stays so. *)
Definition op_resolved (id : string) (l : life) : Prop := exists o, l_ops l !! id = Some o /\ active_status (ao_status o) = false.
Lemma op_resolved_set id id' o o' l : l_ops l !! id' = Some o -> (active_status (ao_status o) = false -> active_status (ao_status o') = false) ->
  op_resolved id l -> op_resolved id (l_set_op id' o' l).
Proof.
  intros Ho Hs (o0 & Hl & Hst). destruct (decide (id' = id)) as [->|Hne].
  - simplify_eq. exists o'. split; [apply lookup_insert_eq|auto].
  - exists o0. split; [|done]. by apply l_set_op_lookup; right.
Qed.
Lemma op_resolved_step v id l l' : lstep v l l' -> op_resolved id l -> op_resolved id l'.
Proof.
  intros Hs Ho. destruct Hs; try exact Ho.
  - destruct Ho as (o0 & Hl & Hst). exists o0. split; [|done]. apply l_set_op_lookup. right. split; [congruence|done].
  - eapply op_resolved_set; [done| |done]. intros Ha. by replace (ao_status o) with O_PREPARED in Ha.
  - change (op_resolved id (l_set_op op (a_set_op O_EXITED o) l)). by eapply op_resolved_set.
  - change (op_resolved id (l_set_op op (a_set_op O_UNCERTAIN o) l)). by eapply op_resolved_set.
Qed.

Definition ops_resolved (mission_id : string) (d : database) : Prop := forall o, o ∈ operations d -> o_mission o = mission_id -> active_op o = false.
Lemma resolved_run_op `{Oracle} `{SE : SqlErrors} mission_id o w : reachable (w_db w) -> ~ begins mission_id (w_db w) o ->
  ops_resolved mission_id (w_db w) -> ops_resolved mission_id (w_db (run_op o w).2).
Proof.
  intros Hr Hno Hres o' Ho' Hm'. destruct (known_run_op mission_id o w Hno o' Ho' Hm') as (o1 & Ho1 & Hid & Hm1).
  assert (Hr' : reachable (w_db (run_op o w).2)) by (eapply reachable_call; [exact Hr|]; destruct w as [d k]; by eapply call_intro).
  assert (H1 : op_resolved (o_id o') (life_of (w_db w))).
  { exists (a_op o1). split; [|by apply Hres]. rewrite life_of_op, <- Hid. by rewrite (find_operation_elem _ _ (ko_operations _ (keys_ok_reachable _ Hr)) Ho1). }
  assert (H2 : op_resolved (o_id o') (life_of (w_db (run_op o w).2))).
  { pose proof (run_refines o w (db_ok_reachable _ Hr)) as Hl. clear -Hl H1. induction Hl as [l|l l1 l' Hs _ IH]; [done|].
    by apply IH, (op_resolved_step _ _ _ _ Hs). }
  destruct H2 as (a & Ha & Hst). rewrite life_of_op in Ha. rewrite (find_operation_elem _ _ (ko_operations _ (keys_ok_reachable _ Hr')) Ho') in Ha.
  injection Ha as <-. exact Hst.
Qed.
