(* ===== verification/StoreLogs.v ===== *)
(** * Rows are permanent and the event log only grows

    Frames of every method: mission, task and operation rows are never deleted
    and keep their identity columns, and every method but pruning and the
    in-place capacity refresh only appends to the event log, with consecutive
    ids. *)

From S2P Require Import Prelude Py Vocab States StoreData StoreTasks StoreOps StoreReview StoreLog StoreApi StoreDemo StoreCounts StoreKeys.
From stdpp Require Import options.
Local Open Scope Z_scope.

(** ** Identity columns *)

Definition identities_kept (d d' : database) : Prop :=
  (t_identity <$> tasks d) `prefix_of` (t_identity <$> tasks d') /\
  (m_identity <$> missions d) `prefix_of` (m_identity <$> missions d') /\
  (o_identity <$> operations d) `prefix_of` (o_identity <$> operations d') /\
  task_dependencies d `prefix_of` task_dependencies d'.

#[export] Instance identities_kept_preorder : PreOrder identities_kept.
Proof.
  split; unfold identities_kept; [intros d; done|].
  intros d d' d'' (?&?&?&?) (?&?&?&?). split_and!; by etrans.
Qed.

Lemma stmt_identities d d' : stmt d d' -> identities_kept d d'.
Proof.
  assert (Hsnoc : forall {A B} (f : A -> B) l a, (f <$> l) `prefix_of` (f <$> (l ++ [a]))).
  { intros A B f l a. rewrite fmap_app. by apply prefix_app_r. }
  assert (Hid : forall {A B} (f : A -> B) p g l, (forall a, f (g a) = f a) -> (f <$> l) `prefix_of` (f <$> update_where p g l)).
  { intros A B f p g l Hg. rewrite (update_where_map f); [done|auto]. }
  destruct 1; unfold identities_kept; cbn; split_and!; auto; by apply prefix_app_r.
Qed.

(** No method of the store, whatever its outcome, deletes a mission, a
    task, a dependency or an operation, or rewrites their identity columns
    (ids, mission, ordinal, origin, original prompt; name, objective,
    directories; iteration, station): the tables only grow at their end. *)
Theorem rows_are_permanent (O : Oracle) (F : SqlErrors) (o : op) (w : world) :
  identities_kept (w_db w) (w_db (run_op o w).2).
Proof.
  pose proof (run_op_stmts o w) as Hs. unfold dbrel in Hs. revert Hs.
  generalize (w_db w), (w_db (run_op o w).2). induction 1 as [d|d d1 d' H1 _ IH]; [done|].
  etrans; [by apply stmt_identities|done].
Qed.

(** In every reachable database mission, task, operation, command and
    process ids and the (mission, ordinal) numbers of tasks are unique, task
    and event ids are between 1 and the highest id handed out, and the event
    log is strictly ordered by id. *)
Theorem keys_unique (d : database) : reachable d -> keys_ok d.
Proof. apply keys_ok_reachable. Qed.

Lemma keys_unique_witness : keys_ok (demo 12) /\ (e_id <$> events (demo 2)) = [1; 2; 3].
Proof. split; [exact (keys_unique (demo 12) (demo_reachable 12))|vm_compute; reflexivity]. Defined.

(** ** The event log *)

(** The new events are appended, with consecutive ids. *)
Definition log_grows (d d' : database) : Prop := exists new,
  events d' = events d ++ new /\
  (e_id <$> new) = seqZ (event_seq d + 1) (Z.of_nat (length new)) /\
  event_seq d' = event_seq d + Z.of_nat (length new).

#[export] Instance log_grows_preorder : PreOrder log_grows.
Proof.
  split.
  - intros d. exists []. by rewrite app_nil_r, Z.add_0_r.
  - intros d d' d'' (n1 & E1 & I1 & S1) (n2 & E2 & I2 & S2). exists (n1 ++ n2).
    rewrite E2, E1, app_assoc, length_app, Nat2Z.inj_add. split_and!; [done| |lia].
    rewrite fmap_app, I1, I2, S1, seqZ_app by lia. do 2 f_equal. lia.
Qed.

Lemma log_same d d' : events d' = events d -> event_seq d' = event_seq d -> log_grows d d'.
Proof. intros E S. exists []. rewrite app_nil_r. cbn. split_and!; [done|done|lia]. Qed.

Section statements.
Context `{Oracle} `{SE : SqlErrors}.

Lemma log_event m k data t o : keeps (dbrel log_grows) (_event m k data t o).
Proof.
  unfold _event. apply keeps_bind; [exact _|apply keeps_utc_now; exact _|intros now].
  apply keeps_write; [exact _|]. intros d.
  exists [Event (event_seq d + 1) m t o k (JObj data) now]. cbn. split_and!; [done| |lia].
  by rewrite seqZ_cons by lia.
Qed.

(** Every other statement leaves the log alone. *)
Ltac log_write := apply keeps_write; [exact _|]; intros d; by apply log_same.
Ltac log_statement := apply keeps_statement; [exact _|]; intros ? ? ?; cbn; repeat case_match; intros [= <- <-]; by apply log_same.

Lemma log_update_task id f : keeps (dbrel log_grows) (update_task id f).
Proof. log_write. Qed.
Lemma log_update_mission id f : keeps (dbrel log_grows) (update_mission id f).
Proof. log_write. Qed.
Lemma log_update_operation id f : keeps (dbrel log_grows) (update_operation id f).
Proof. log_write. Qed.
Lemma log_update_amendments p f : keeps (dbrel log_grows) (update_amendments p f).
Proof. log_write. Qed.
Lemma log_update_command id f : keeps (dbrel log_grows) (update_command id f).
Proof. log_write. Qed.
Lemma log_update_process id f : keeps (dbrel log_grows) (update_process id f).
Proof. log_write. Qed.
Lemma log_insert_task mk : keeps (dbrel log_grows) (insert_task mk).
Proof. log_statement. Qed.
Lemma log_update_mission_status i s n : keeps (dbrel log_grows) (update_mission_status i s n).
Proof. log_statement. Qed.
Lemma log_insert_mission m : keeps (dbrel log_grows) (insert_mission m).
Proof. log_statement. Qed.
Lemma log_insert_dependency t p : keeps (dbrel log_grows) (insert_dependency t p).
Proof. log_statement. Qed.
Lemma log_insert_amendment t r c n : keeps (dbrel log_grows) (insert_amendment t r c n).
Proof. log_statement. Qed.
Lemma log_insert_operation o : keeps (dbrel log_grows) (insert_operation o).
Proof. log_statement. Qed.
Lemma log_insert_command c : keeps (dbrel log_grows) (insert_command c).
Proof. log_statement. Qed.
Lemma log_insert_process p : keeps (dbrel log_grows) (insert_process p).
Proof. log_statement. Qed.
End statements.

#[local] Hint Resolve log_event log_update_task log_update_mission log_update_operation log_update_amendments
  log_update_command log_update_process log_insert_task log_update_mission_status log_insert_mission
  log_insert_dependency log_insert_amendment log_insert_operation log_insert_command log_insert_process : py_keeps.

(** The two methods that change rows of the log. *)
Definition rewrites_log (o : op) : bool :=
  match o with Op_prune_plumbing_events _ _ _ _ _ _ | Op_refresh_runtime_event _ _ => true | _ => false end.

Section ops.
Context `{Oracle} `{SE : SqlErrors}.

Lemma log_run_op o : rewrites_log o = false -> keeps (dbrel log_grows) (run_op o).
Proof.
  destruct o; try done; intros _; cbn [run_op]; unfold_methods; solve_db_keeps.
Qed.
End ops.

(** Every method but pruning and the in-place capacity refresh leaves the
    event log as it is except for events it appends, and numbers those
    consecutively after the highest id ever handed out. *)
Theorem event_log_append_only (O : Oracle) (F : SqlErrors) (o : op) (w : world) :
  rewrites_log o = false -> log_grows (w_db w) (w_db (run_op o w).2).
Proof. intros Ho. apply (log_run_op o Ho w). Qed.

Lemma event_log_append_only_witness :
  log_grows (demo 4) (w_db (run_op (H := demo_oracle) (Op_begin_operation 1 1 "codex") (demo_world 4)).2) /\
  (e_kind <$> drop 5 (events (w_db (run_op (H := demo_oracle) (Op_begin_operation 1 1 "codex") (demo_world 4)).2)))
    = ["operation-prepared"%string].
Proof.
  split; [|vm_compute; reflexivity].
  exact (event_log_append_only demo_oracle no_sql_errors (Op_begin_operation 1 1 "codex") (demo_world 4) eq_refl).
Defined.

(** ** Pruning *)

(** Why an event may go: a newer heartbeat of the mission stays, or a later
    refresh of the same 10-minute bucket stays. *)
Definition is_beat (m : string) (e : event_row) : Prop := e_mission e = m /\ e_kind e = "controller-heartbeat"%string.
Definition is_refresh (m : string) (e : event_row) : Prop := e_mission e = m /\ e_kind e = "capacity-refresh"%string.
Definition removable (m : string) (hb cb : Z) (kept : list event_row) (e : event_row) : Prop :=
  (is_beat m e /\ e_created_at e < hb /\ exists e', e' ∈ kept /\ is_beat m e' /\ e_id e < e_id e') \/
  (is_refresh m e /\ e_created_at e < cb /\
   exists e', e' ∈ kept /\ is_refresh m e' /\ e_id e < e_id e' /\ bucket e = bucket e').

(** [d'] is [d] with some removable events deleted. *)
Definition pruned (m : string) (hb cb : Z) (d d' : database) : Prop :=
  StronglySorted Z.lt (e_id <$> events d) -> exists l,
    d' = set_events l d /\ l `sublist_of` events d /\ StronglySorted Z.lt (e_id <$> l) /\
    forall e, e ∈ events d -> e ∈ l \/ removable m hb cb l e.

#[export] Instance pruned_preorder m hb cb : PreOrder (pruned m hb cb).
Proof.
  split.
  - intros d Hs. exists (events d). split_and!; [by destruct d|done|done|auto].
  - intros d d1 d2 H1 H2 Hs. destruct (H1 Hs) as (l1 & -> & Sub1 & S1 & R1).
    destruct (H2 S1) as (l2 & -> & Sub2 & S2 & R2). cbn in *.
    exists l2. split_and!; [by destruct d|by etrans|done|].
    intros e He. destruct (R1 e He) as [He1|Hr]; [by apply R2|]. right.
    destruct Hr as [(B & C & e' & He' & B' & L)|(B & C & e' & He' & B' & L & Bk)].
    + left. split_and!; [done|done|]. destruct (R2 e' He') as [?|[(_ & _ & e2 & ? & ? & ?)|([_ K] & _)]].
      * eauto.
      * exists e2. split_and!; [done|done|lia].
      * exfalso. destruct B' as [_ K']. congruence.
    + right. split_and!; [done|done|]. destruct (R2 e' He') as [?|[([_ K] & _)|(_ & _ & e2 & ? & ? & ? & ?)]].
      * eauto 6.
      * exfalso. destruct B' as [_ K']. congruence.
      * exists e2. split_and!; [done|done|lia|congruence].
Qed.

Lemma pruned_delete m hb cb ids d :
  (StronglySorted Z.lt (e_id <$> events d) ->
   forall e, e ∈ events d -> e_id e ∈ ids -> removable m hb cb (events (delete_events ids d)) e) ->
  pruned m hb cb d (delete_events ids d).
Proof.
  intros Hr Hs. exists (events (delete_events ids d)). unfold delete_events. split_and!.
  - done.
  - cbn. unfold select. generalize (events d). intros l. induction l as [|x l IH]; cbn; [done|]. case_match; by constructor.
  - cbn. by apply StronglySorted_select.
  - intros e He. destruct (decide (e_id e ∈ ids)) as [Hi|Hi]; [right; by apply Hr|left].
    cbn. apply elem_of_select. split; [done|]. by rewrite bool_decide_false.
Qed.

Lemma sorted_ids_inj (l : list event_row) e e' :
  StronglySorted Z.lt (e_id <$> l) -> e ∈ l -> e' ∈ l -> e_id e = e_id e' -> e = e'.
Proof.
  intros Hs. apply NoDup_key_eq. induction (e_id <$> l) as [|x k IH]; [apply NoDup_nil_2|].
  apply StronglySorted_inv in Hs as [Hs Hx]. apply NoDup_cons. split; [|by apply IH].
  intros Hin. rewrite Forall_forall in Hx. specialize (Hx x Hin). lia.
Qed.

Lemma elem_of_mission_events m k d e : e ∈ mission_events m k d <-> e ∈ events d /\ e_mission e = m /\ e_kind e = k.
Proof. unfold mission_events. rewrite elem_of_select, andb_true_iff, !bool_decide_eq_true. done. Qed.

Lemma pruned_heartbeats m hb cb n d : pruned m hb cb d (delete_events (doomed_heartbeats m hb n d) d).
Proof.
  apply pruned_delete. intros Hs e He Hid.
  set (beats := mission_events m "controller-heartbeat" d) in *.
  assert (Hdoomed : e ∈ beats /\ e_created_at e < hb /\ e_id e < max_event_id beats).
  { unfold doomed_heartbeats in Hid. apply elem_of_take in Hid as (i & Hi%list_elem_of_lookup_2 & _).
    apply list_elem_of_fmap in Hi as (e' & Hee & He'). apply elem_of_sort_by, elem_of_select in He' as [Hb Hc].
    bool_to_prop. assert (e = e') as ->; [|done].
    eapply sorted_ids_inj; [exact Hs|done| |done]. by apply elem_of_mission_events in Hb as [? _]. }
  destruct Hdoomed as (Hb & Hc & Hlt). left. pose proof Hb as [_ Hbe]%elem_of_mission_events.
  split_and!; [done|done|].
  assert (Hmax : max_event_id beats ∈ (e_id <$> beats)).
  { apply coalesce_max_in. intros E. apply fmap_nil_inv in E. rewrite E in Hb. by apply not_elem_of_nil in Hb. }
  apply list_elem_of_fmap in Hmax as (e' & Em & He'). pose proof He' as [Hev Hbe']%elem_of_mission_events.
  exists e'. split_and!; [|done|lia]. unfold delete_events; cbn. apply elem_of_select. split; [done|].
  rewrite negb_true_iff, bool_decide_eq_false. intros Hin.
  apply elem_of_take in Hin as (i & Hi%list_elem_of_lookup_2 & _).
  apply list_elem_of_fmap in Hi as (e2 & E2 & Hin2). apply elem_of_sort_by, elem_of_select in Hin2 as [_ H2].
  bool_to_prop. subst beats. lia.
Qed.

Lemma sorted_in_order (l : list event_row) :
  StronglySorted Z.lt (e_id <$> l) -> StronglySorted (fun a b => event_order a b = true) l.
Proof.
  induction l as [|x l IH]; cbn; [constructor|]. intros [Hs Hx]%StronglySorted_inv. constructor; [by apply IH|].
  rewrite Forall_fmap in Hx. eapply Forall_impl; [exact Hx|]. intros y. cbn. unfold event_order. intros. apply Z.leb_le. lia.
Qed.
Lemma StronglySorted_take (l : list Z) n : StronglySorted Z.lt l -> StronglySorted Z.lt (take n l).
Proof.
  intros Hs. revert n. induction Hs as [|x l Hs IH Hx]; intros [|n]; cbn; try constructor; [by apply IH|].
  by apply Forall_take.
Qed.

(** The old refreshes after [last], oldest first. *)
Definition old_refreshes (m : string) (last cutoff : Z) (d : database) : list event_row :=
  select (fun e => (last <? e_id e) && (e_created_at e <? cutoff)) (mission_events m "capacity-refresh" d).
Lemma capacity_window_take m last cutoff n d :
  StronglySorted Z.lt (e_id <$> events d) -> capacity_window m last cutoff n d = take n (old_refreshes m last cutoff d).
Proof.
  intros Hs. unfold capacity_window. rewrite sort_by_in_order; [done|]. apply sorted_in_order.
  by do 2 apply StronglySorted_select.
Qed.

Lemma doomed_cons e0 e1 rest :
  doomed_refreshes (e0 :: e1 :: rest) =
  if bucket e0 =? bucket e1 then e_id e0 :: doomed_refreshes (e1 :: rest) else doomed_refreshes (e1 :: rest).
Proof. done. Qed.

Lemma doomed_subset rows i : i ∈ doomed_refreshes rows -> i ∈ (e_id <$> rows).
Proof.
  induction rows as [|e [|e' rest] IH]; [done|intros H; by apply not_elem_of_nil in H|].
  rewrite doomed_cons. case_match; [|right; by apply IH].
  intros [->|Hd]%elem_of_cons; [by left|right; by apply IH].
Qed.

Lemma doomed_survivor rows e :
  StronglySorted Z.lt (e_id <$> rows) -> e ∈ rows -> e_id e ∈ doomed_refreshes rows ->
  exists e', e' ∈ rows /\ (e_id e' ∉ doomed_refreshes rows) /\ e_id e < e_id e' /\ bucket e = bucket e'.
Proof.
  revert e. induction rows as [|e0 [|e1 rest] IH]; intros e; [set_solver|intros _ _ H; by apply not_elem_of_nil in H|].
  intros Hs He Hd. rewrite fmap_cons in Hs. apply StronglySorted_inv in Hs as [Hs' Hx].
  assert (Hnot : forall x, x ∈ e1 :: rest -> e_id e0 < e_id x).
  { intros x Hin. rewrite Forall_fmap, Forall_forall in Hx. by apply Hx. }
  assert (Hlift : forall e', e' ∈ e1 :: rest -> e_id e' ∉ doomed_refreshes (e1 :: rest) ->
    e_id e' ∉ doomed_refreshes (e0 :: e1 :: rest)).
  { intros e' He' Hn. rewrite doomed_cons. case_match; [|done]. rewrite not_elem_of_cons. split; [|done].
    apply Hnot in He'. lia. }
  assert (Htail : forall x, x ∈ e1 :: rest -> e_id x ∈ doomed_refreshes (e1 :: rest) ->
    exists e', e' ∈ e0 :: e1 :: rest /\ (e_id e' ∉ doomed_refreshes (e0 :: e1 :: rest)) /\ e_id x < e_id e' /\ bucket x = bucket e').
  { intros x Hin Hdx. destruct (IH x Hs' Hin Hdx) as (e' & ? & ? & ? & ?). exists e'.
    split_and!; [by right|by apply Hlift|done|done]. }
  apply elem_of_cons in He as [->|He].
  - rewrite doomed_cons in Hd. case_match eqn:Eb.
    2: { apply doomed_subset, list_elem_of_fmap in Hd as (x & E & Hin). apply Hnot in Hin. lia. }
    bool_to_prop. assert (H1 : e1 ∈ e1 :: rest) by left.
    destruct (decide (e_id e1 ∈ doomed_refreshes (e1 :: rest))) as [Hd1|Hd1].
    + destruct (Htail e1 H1 Hd1) as (e' & ? & ? & ? & ?). exists e'. apply Hnot in H1. split_and!; [done|done|lia|congruence].
    + exists e1. split_and!; [right; left|by apply Hlift|by apply Hnot|done].
  - apply Htail; [done|]. rewrite doomed_cons in Hd. case_match; [|done].
    apply elem_of_cons in Hd as [Hd|Hd]; [|done]. apply Hnot in He. lia.
Qed.

Lemma pruned_refreshes m hb cb last n d :
  pruned m hb cb d (delete_events (doomed_refreshes (capacity_window m last cb n d)) d).
Proof.
  apply pruned_delete. intros Hs e He Hid. rewrite capacity_window_take in * by done.
  set (rows := take n (old_refreshes m last cb d)) in *.
  assert (Hrows : StronglySorted Z.lt (e_id <$> rows)).
  { unfold rows. rewrite <- firstn_map. apply StronglySorted_take. by do 2 apply StronglySorted_select. }
  assert (Hin : forall x, x ∈ rows -> x ∈ events d /\ is_refresh m x /\ e_created_at x < cb).
  { intros x (i & Hx%list_elem_of_lookup_2 & _)%elem_of_take. apply elem_of_select in Hx as [Hx Hc].
    apply elem_of_mission_events in Hx as [? ?]. by bool_to_prop. }
  pose proof Hid as Hid'. apply doomed_subset, list_elem_of_fmap in Hid' as (e0 & E0 & Hin0).
  assert (e = e0) as <-. { eapply sorted_ids_inj; [exact Hs|done|by apply Hin|done]. }
  destruct (doomed_survivor rows e Hrows Hin0 Hid) as (e' & He' & Hn & Hlt & Hb).
  right. destruct (Hin e Hin0) as (_ & ? & ?). split_and!; [done|done|]. exists e'.
  destruct (Hin e' He') as (? & ? & _). split_and!; [|done..].
  unfold delete_events; cbn. apply elem_of_select. split; [done|]. by rewrite bool_decide_false.
Qed.

Section prune.
Context `{Oracle} `{SE : SqlErrors} (m : string) (hb cb : Z).

Lemma keeps_read_then {A B} (g : database -> A) (f : A -> DB B) (R : database -> database -> Prop) :
  (forall w, dbrel R w (f (g (w_db w)) w).2) -> keeps (dbrel R) (read g ≫= f).
Proof. intros Hf w. apply (Hf w). Qed.

Lemma pruned_prune_heartbeats n c dl del : keeps (dbrel (pruned m hb cb)) (prune_heartbeats n m hb c dl del).
Proof.
  revert del. induction n as [|n IH]; intros del; cbn [prune_heartbeats]; [solve_db_keeps|].
  apply keeps_bind; [exact _| |solve_db_keeps; apply IH].
  apply keeps_transaction; [exact _|]. apply keeps_read_then. intros w. apply pruned_heartbeats.
Qed.

Lemma pruned_prune_refreshes n c dl l del : keeps (dbrel (pruned m hb cb)) (prune_refreshes n m cb c dl l del).
Proof.
  revert l del. induction n as [|n IH]; intros l del; cbn [prune_refreshes]; [solve_db_keeps|].
  apply keeps_read_then. intros w. set (rows := capacity_window _ _ _ _ _). cbv zeta.
  set (k := fun _ : unit => _). set (wh := when _ _).
  assert (Hwh : dbrel (pruned m hb cb) w (wh w).2).
  { unfold wh, when. case_match; [|reflexivity]. unfold dbrel, _transaction, write, modify.
    destruct (sql_error _); [reflexivity|apply pruned_refreshes]. }
  assert (Hk : forall u, keeps (dbrel (pruned m hb cb)) (k u)).
  { intros u. unfold k. solve_db_keeps; apply IH. }
  unfold mbind, ST_bind. destruct (wh w) as [[u|e] w']; [|done]. etrans; [exact Hwh|apply Hk].
Qed.

End prune.

Lemma wp_prune `{Oracle} `{SE : SqlErrors} m now hk ck chunk budget w :
  wp (prune_plumbing_events m now hk ck chunk budget)
    (fun r w' => (exists moment, (forall n, now = Some n -> moment = n) /\
        pr_heartbeat_before r = moment - hk /\ pr_capacity_before r = moment - ck) /\
      pruned m (pr_heartbeat_before r) (pr_capacity_before r) (w_db w) (w_db w')) w.
Proof.
  unfold prune_plumbing_events. apply wp_bind. eapply (wp_keeps (dbrel eq)).
  { unfold _mission_row. solve_db_keeps. }
  intros ? w1 E1. apply wp_bind. eapply (wp_mono _ (fun moment w2 => (forall n, now = Some n -> moment = n) /\ w_db w1 = w_db w2)).
  2: { destruct now as [n|]; [apply wp_ret; naive_solver|]. unfold wp, utc_now. cbn. naive_solver. }
  intros moment w2 [Hm E2]. apply wp_bind. eapply (wp_keeps (dbrel eq)); [solve_db_keeps|]. intros start w3 E3.
  apply wp_bind. eapply (wp_keeps (dbrel eq)); [solve_db_keeps|]. intros fuel w4 E4. unfold dbrel in *.
  assert (Ew : w_db w4 = w_db w) by congruence.
  apply wp_bind. eapply wp_keeps; [apply (pruned_prune_heartbeats m _ (moment - ck))|].
  intros beats w5 H5. unfold dbrel in H5. rewrite Ew in H5.
  destruct (beats.2); [|apply wp_ret; cbn; eauto].
  apply wp_bind. eapply wp_keeps; [apply (pruned_prune_refreshes m (moment - hk))|].
  intros refreshes w6 H6. apply wp_ret; cbn. split; [by exists moment|]. by etrans.
Qed.

(** Also a pass that raises has done no more than prune. *)
Lemma prune_prunes `{Oracle} `{SE : SqlErrors} m now hk ck chunk budget w :
  exists moment, (forall n, now = Some n -> moment = n) /\
    pruned m (moment - hk) (moment - ck) (w_db w) (w_db (prune_plumbing_events m now hk ck chunk budget w).2).
Proof.
  unfold prune_plumbing_events. match goal with |- context [(_mission_row m ≫= fun _ => _ ≫= ?k) w] => set (rest := k) end.
  assert (Hrest : forall moment w2, pruned m (moment - hk) (moment - ck) (w_db w2) (w_db (rest moment w2).2)).
  { intros moment w2. apply (keeps_bind (dbrel (pruned m (moment - hk) (moment - ck))) time_monotonic); [solve_db_keeps|]. intros start.
    apply keeps_bind; [exact _|solve_db_keeps|]. intros fuel. apply keeps_bind; [exact _|apply pruned_prune_heartbeats|]. intros beats.
    destruct (beats.2); [|solve_db_keeps]. apply keeps_bind; [exact _|apply pruned_prune_refreshes|]. intros; solve_db_keeps. }
  assert (Hrow : w_db (_mission_row m w).2 = w_db w) by (unfold _mission_row, mbind, ST_bind, read, gets, or_raise; by destruct (find_mission m (w_db w))).
  unfold mbind, ST_bind. destruct (_mission_row m w) as [[row|e] w1]; cbn [snd] in Hrow.
  2: { exists (default 0 now). split; [by intros n ->|]. cbn [snd]. rewrite Hrow. reflexivity. }
  rewrite <- Hrow. destruct now as [n|]; [exists n; split; [by intros ? [= <-]|apply Hrest]|].
  exists (clock (w_tick w1)). split; [done|]. exact (Hrest (clock (w_tick w1)) (World (w_db w1) (S (w_tick w1)))).
Qed.

(** Pruning deletes nothing but controller bookkeeping: when it returns,
    the other tables are as they were, the log is a sub-list of the old one,
    and every event deleted was a heartbeat of the mission older than the
    heartbeat cutoff with a newer heartbeat kept, or a capacity refresh older
    than the capacity cutoff with a later refresh of its 10-minute bucket kept. *)
Theorem prune_deletes_only_plumbing (O : Oracle) (m : string) (now : option Z) (hk ck budget : Z) (chunk : nat)
    (w w' : world) (r : prune_result) :
  reachable (w_db w) ->
  prune_plumbing_events m now hk ck chunk budget w = (Ok r, w') ->
  (forall n, now = Some n -> pr_heartbeat_before r = n - hk /\ pr_capacity_before r = n - ck) /\
  exists l, w_db w' = set_events l (w_db w) /\ l `sublist_of` events (w_db w) /\
    forall e, e ∈ events (w_db w) -> e ∈ l \/ removable m (pr_heartbeat_before r) (pr_capacity_before r) l e.
Proof.
  intros Hr Hrun. pose proof (wp_prune m now hk ck chunk budget w) as Hwp. unfold wp in Hwp. rewrite Hrun in Hwp.
  destruct Hwp as [(moment & Hm & Eh & Ec) Hp]. split.
  - intros n Hn. rewrite <- (Hm n Hn). done.
  - destruct (Hp (ko_events _ (keys_ok_reachable _ Hr))) as (l & ? & ? & _ & ?). eauto.
Qed.

(** Two of three heartbeats and two of three refreshes go. *)
Lemma prune_deletes_only_plumbing_witness :
  let run := prune_plumbing_events (H := demo_oracle) "m3" (Some 5000) 60 60 1 100 log_world in
  let before := w_db log_world in
  exists l, w_db run.2 = set_events l before /\ l `sublist_of` events before /\ (e_id <$> l) = [1; 6; 7].
Proof.
  cbv zeta. destruct (prune_plumbing_events (H := demo_oracle) "m3" (Some 5000) 60 60 1 100 log_world) as [[r|e] w'] eqn:E.
  - pose proof (prune_deletes_only_plumbing demo_oracle "m3" (Some 5000) 60 60 100 1 log_world w' r log_world_reachable E)
      as [_ (l & Hl & Hsub & _)].
    exists l. split; [exact Hl|]. split; [exact Hsub|].
    replace l with (events (w_db (prune_plumbing_events (H := demo_oracle) "m3" (Some 5000) 60 60 1 100 log_world).2)).
    + vm_compute. reflexivity.
    + rewrite E. cbn. rewrite Hl. reflexivity.
  - exfalso. revert E. vm_compute. discriminate.
Defined.
