(* ===== verification/StoreFuel.v ===== *)
(** * The fuel of the store's loops is enough

    The pruning loops and the splitting into chunks of 500 are not structural;
    with the fuel their definitions pass, more fuel changes nothing, so that
    the results of the model are those of the loops. *)

From S2P Require Import Prelude Py Vocab States StoreData StoreTasks StoreOps StoreReview StoreLog StoreApi StoreKeys StoreLogs.
From stdpp Require Import options.
Local Open Scope Z_scope.

Lemma chunks_of_concat {A} fuel n (l : list A) : (0 < n)%nat -> (length l <= fuel)%nat ->
  concat (chunks_of fuel n l) = l /\ forall c, c ∈ chunks_of fuel n l -> (0 < length c <= n)%nat.
Proof.
  intros Hn. revert l. induction fuel as [|fuel IH]; intros [|x l] Hl; try (cbn in Hl; lia); try (split; [done|intros c Hc; set_solver]).
  cbn [chunks_of concat]. destruct (IH (drop n (x :: l))) as [H1 H2].
  { rewrite length_drop. cbn in *. lia. }
  rewrite H1, take_drop. split; [done|]. intros c [-> | Hc]%elem_of_cons; [|auto]. rewrite length_take. cbn. lia.
Qed.

Lemma select_shrinks {A} (p : A -> bool) l x : x ∈ l -> p x = false -> (length (select p l) < length l)%nat.
Proof.
  intros Hx Hp. induction Hx as [x l|x y l Hx IH]; cbn.
  - rewrite Hp. pose proof (List.filter_length_le p l). unfold select in *. lia.
  - specialize (IH Hp). unfold select in *. destruct (p y); cbn; lia.
Qed.
Lemma select_impl_length {A} (p q : A -> bool) l : (forall x, p x = true -> q x = true) -> (length (select p l) <= length (select q l))%nat.
Proof.
  intros H. induction l as [|x l IH]; [done|]. unfold select in *. cbn. destruct (p x) eqn:Ep; [rewrite (H _ Ep); cbn; lia|].
  destruct (q x); cbn; lia.
Qed.

Lemma select_select_le {A} (p q r : A -> bool) l : (forall x, p x = true -> q x = true) ->
  (length (select p (select r l)) <= length (select p (select q l)))%nat.
Proof.
  intros H. unfold select. induction l as [|x l IH]; [done|]. cbn. specialize (H x).
  destruct (p x) eqn:Ep; [rewrite H by done|]; destruct (r x); try destruct (q x); cbn; rewrite ?Ep; cbn; lia.
Qed.

Section fuel.
Context `{Oracle}.

(** A full window of heartbeats deletes an event. *)
Lemma doomed_heartbeats_shrink m cutoff chunk d : (0 < chunk)%nat ->
  (chunk <= length (doomed_heartbeats m cutoff chunk d))%nat ->
  (length (events (delete_events (doomed_heartbeats m cutoff chunk d) d)) < length (events d))%nat.
Proof.
  intros Hc Hl. destruct (doomed_heartbeats m cutoff chunk d) as [|i ids] eqn:E; [cbn in Hl; lia|].
  assert (Hi : i ∈ doomed_heartbeats m cutoff chunk d) by (rewrite E; by left). revert Hi.
  unfold doomed_heartbeats. intros Hi%elem_of_take. destruct Hi as (k & Hi%list_elem_of_lookup_2 & _).
  apply list_elem_of_fmap in Hi as (e & He & Hin). rewrite elem_of_sort_by, elem_of_select in Hin. destruct Hin as [Hin _].
  unfold mission_events in Hin. apply elem_of_select in Hin as [Hin _].
  unfold delete_events. cbn. eapply select_shrinks; [exact Hin|]. apply negb_false_iff, bool_decide_eq_true. rewrite <-He. by left.
Qed.

Lemma prune_heartbeats_fuel m cutoff chunk deadline f1 f2 deleted w : (0 < chunk)%nat ->
  (length (events (w_db w)) < f1)%nat -> (length (events (w_db w)) < f2)%nat ->
  prune_heartbeats f1 m cutoff chunk deadline deleted w = prune_heartbeats f2 m cutoff chunk deadline deleted w.
Proof.
  intros Hc. revert f2 deleted w. induction f1 as [|f1 IH]; intros [|f2] deleted w H1 H2; [lia..|].
  cbn -[doomed_heartbeats delete_events]. unfold mbind, ST_bind, _transaction, read, write, gets, modify, mret, ST_ret.
  cbn -[doomed_heartbeats delete_events]. set (ids := doomed_heartbeats _ _ _ _).
  change (match chunk with O => false | S m' => (length ids <=? m')%nat end) with (length ids <? chunk)%nat.
  destruct (Nat.ltb_spec (length ids) chunk) as [|Hl]; [done|].
  destruct (_ <=? _); [done|].
  pose proof (doomed_heartbeats_shrink m cutoff chunk (w_db w) Hc Hl) as Hs. fold ids in Hs. apply IH; cbn [w_db]; lia.
Qed.

(** A full window moves the cursor past a refresh. *)
Definition refreshes_after (last_id : Z) (d : database) : nat := length (select (fun e => last_id <? e_id e) (events d)).

Lemma window_advances m last_id cutoff chunk d e : (0 < chunk)%nat -> StronglySorted Z.lt (e_id <$> events d) ->
  (chunk < length (capacity_window m last_id cutoff (S chunk) d))%nat ->
  last (capacity_window m last_id cutoff (S chunk) d) = Some e ->
  forall ids, (refreshes_after (e_id e - 1) (delete_events ids d) < refreshes_after last_id d)%nat.
Proof.
  intros Hc Hs Hl He ids. rewrite capacity_window_take in Hl, He by done.
  set (l := old_refreshes m last_id cutoff d) in *.
  assert (Hsl : StronglySorted Z.lt (e_id <$> l)) by (do 2 apply StronglySorted_select; done).
  destruct l as [|e0 l0] eqn:El; [cbn in Hl; lia|]. cbn [take] in *.
  assert (Hne : take chunk l0 <> []). { intros E. rewrite E in Hl. cbn in Hl. lia. }
  destruct (take chunk l0) as [|e1 l1] eqn:E1; [done|]. change (last (e1 :: l1) = Some e) in He.
  assert (Hin : e ∈ l0).
  { apply last_Some_elem_of in He. rewrite <-E1 in He. apply elem_of_take in He as (k & Hk & _). by eapply list_elem_of_lookup_2. }
  assert (H0 : e0 ∈ events d /\ last_id < e_id e0).
  { assert (H0 : e0 ∈ old_refreshes m last_id cutoff d) by (fold l; rewrite El; by left).
    unfold old_refreshes in H0. rewrite elem_of_select, andb_true_iff, Z.ltb_lt in H0.
    destruct H0 as [H0 [H1 _]]. unfold mission_events in H0. by apply elem_of_select in H0 as [? _]. }
  cbn in Hsl. apply StronglySorted_inv in Hsl as [_ Hx]. rewrite Forall_fmap, Forall_forall in Hx. specialize (Hx e Hin). cbn in Hx.
  unfold refreshes_after, delete_events. cbn [events set_events].
  eapply Nat.le_lt_trans with (m := length (select (fun x => e_id e - 1 <? e_id x) (select (fun x => last_id <? e_id x) (events d)))).
  - apply select_select_le. intros x. rewrite !Z.ltb_lt. lia.
  - eapply select_shrinks with (x := e0); [apply elem_of_select; rewrite Z.ltb_lt; tauto|]. apply Z.ltb_ge. lia.
Qed.

Lemma prune_refreshes_fuel m cutoff chunk deadline f1 f2 last_id deleted w : (0 < chunk)%nat ->
  StronglySorted Z.lt (e_id <$> events (w_db w)) ->
  (refreshes_after last_id (w_db w) < f1)%nat -> (refreshes_after last_id (w_db w) < f2)%nat ->
  prune_refreshes f1 m cutoff chunk deadline last_id deleted w = prune_refreshes f2 m cutoff chunk deadline last_id deleted w.
Proof.
  intros Hc. revert f2 last_id deleted w. induction f1 as [|f1 IH]; intros [|f2] last_id deleted w Hs H1 H2; [lia..|].
  cbn -[capacity_window delete_events last]. unfold mbind, ST_bind, when, _transaction, read, write, gets, modify, mret, ST_ret.
  cbn -[capacity_window delete_events last]. set (rows := capacity_window _ _ _ _ _).
  pose proof (window_advances m last_id cutoff chunk (w_db w)) as Hadv. fold rows in Hadv.
  assert (Hnext : forall ids w', w_db w' = delete_events ids (w_db w) \/ w_db w' = w_db w -> (chunk < length rows)%nat ->
    let next := match last rows with Some e => e_id e - 1 | None => last_id end in
    forall d', prune_refreshes f1 m cutoff chunk deadline next d' w' = prune_refreshes f2 m cutoff chunk deadline next d' w').
  { intros ids w' Hw Hl next d'. destruct (last rows) as [e|] eqn:El; [|apply last_None in El; rewrite El in Hl; cbn in Hl; lia].
    assert (Hw' : exists ids', w_db w' = delete_events ids' (w_db w)).
    { destruct Hw as [-> | ->]; [by eexists|]. exists []. unfold delete_events. destruct (w_db w) as []; unfold set_events; cbn. f_equal.
      symmetry. apply select_all. done. }
    destruct Hw' as [ids' Hw']. specialize (Hadv e Hc Hs Hl eq_refl ids'). rewrite <-Hw' in Hadv.
    apply IH; try (unfold next; lia). rewrite Hw'. unfold delete_events. cbn. by apply StronglySorted_select. }
  destruct (bool_decide _); cbn [negb];
    (destruct (Nat.leb_spec (length rows) chunk) as [|Hl]; [done|]); (destruct (_ <=? _); [done|]).
  - apply (Hnext []); [by right|done].
  - apply (Hnext (doomed_refreshes rows)); [by left|done].
Qed.

(** In a reachable database the fuel [prune_plumbing_events] takes is enough
    for both loops, whatever time the clock leaves them. *)
Lemma prune_fuel_enough m cutoff chunk deadline more last_id deleted w : (0 < chunk)%nat -> reachable (w_db w) ->
  let fuel := S (length (events (w_db w))) in
  prune_heartbeats (fuel + more) m cutoff chunk deadline deleted w = prune_heartbeats fuel m cutoff chunk deadline deleted w /\
  prune_refreshes (fuel + more) m cutoff chunk deadline last_id deleted w = prune_refreshes fuel m cutoff chunk deadline last_id deleted w.
Proof.
  intros Hc Hr fuel. split; [apply prune_heartbeats_fuel; lia|].
  assert (Hle : (refreshes_after last_id (w_db w) <= length (events (w_db w)))%nat) by apply List.filter_length_le.
  apply prune_refreshes_fuel; [done|apply (ko_events _ (keys_ok_reachable _ Hr))|lia..].
Qed.
End fuel.
