(* ===== verification/StoreTheorems.v ===== *)
(** * Safety of missions, tasks and operations

    The lifecycle machine's invariant and its step properties, read back on
    the rows of every reachable database. *)

From S2P Require Import Prelude Py Vocab States StoreData StoreTasks StoreOps StoreReview StoreLog StoreApi StoreDemo StoreCounts StoreKeys StoreDeps Lifecycle StoreAbstract StoreRefines.
From stdpp Require Import options.
Local Open Scope Z_scope.
#[local] Arguments life_of : simpl never.

(** ** Rows and the abstract state *)

Section rows.
Context (d : database) (Hd : db_ok d).

Lemma row_task t : t ∈ tasks d -> l_tasks (life_of d) !! t_id t = Some (a_task t).
Proof using Hd. intros Ht. by rewrite life_of_task, (find_task_elem _ t) by (done || apply Hd). Qed.
Lemma row_op o : o ∈ operations d -> l_ops (life_of d) !! o_id o = Some (a_op o).
Proof using Hd. intros Ho. by rewrite life_of_op, (find_operation_elem _ o) by (done || apply Hd). Qed.
Lemma row_mission m : m ∈ missions d -> l_missions (life_of d) !! m_id m = Some (a_mission m).
Proof using Hd.
  intros Hm. rewrite life_of_mission. unfold find_mission. destruct (first _ _) as [m'|] eqn:E; cbn.
  - apply first_Some in E as [Hm' Hid]. bool_to_prop. do 2 f_equal.
    eapply (NoDup_key_eq m_id); [apply Hd|done..].
  - rewrite first_None in E. specialize (E m Hm). cbn in E. by rewrite bool_decide_true in E.
Qed.
Lemma task_row_of id a : l_tasks (life_of d) !! id = Some a -> exists t, t ∈ tasks d /\ t_id t = id /\ a_task t = a.
Proof. intros H. apply table_elem in H as (t & ? & ? & ?). eauto. Qed.
End rows.

(** ** Properties of single steps *)

Lemma lstep_completed v l l' id t :
  lifecycle_ok l -> lstep v l l' -> l_tasks l !! id = Some t -> at_status t = T_COMPLETED ->
  exists t', l_tasks l' !! id = Some t' /\ at_status t' = T_COMPLETED.
Proof.
  intros Hok Hs Ht Hc.
  assert (Hbusy : forall op o, l_ops l !! op = Some o -> active_status (ao_status o) = true -> ao_task o ≠ id).
  { intros op o Ho Ha <-. destruct (lo_busy l Hok _ _ Ht) as [_ Hn]; [by exists op, o|]. rewrite Hc in Hn. set_solver. }
  assert (Hset : forall id' r, l_tasks l !! id' = Some r -> (id' = id -> at_status r = T_COMPLETED -> False) ->
    forall r', exists t', <[id' := r']> (l_tasks l) !! id = Some t' /\ at_status t' = T_COMPLETED).
  { intros id' r Hr Hne r'. destruct (decide (id' = id)) as [->|Hi].
    - simplify_map_eq. exfalso. eauto.
    - rewrite lookup_insert_ne by done. eauto. }
  destruct Hs as [| |mid m Hm Hn|mid m Hm Hn| |i r s Hr Hmv _|i r Hr Hv|i r Hr Hv|i r Hr Hv|i r _ Hr Hv|i r m Hr He
    |i r Hr He|i r m op Hr _ _ Hv| |op o r s Ho Ha Hr|op o r Ho Ha Hr]; cbn; eauto.
  - rewrite lookup_insert_ne; [eauto|]. apply (lo_seq l Hok) in Ht. lia.
  - rewrite lookup_insert_ne; [eauto|]. apply (lo_seq l Hok) in Ht. lia.
  - destruct (decide (i = id)) as [->|Hi]; [|rewrite lookup_insert_ne by done; eauto].
    rewrite Ht in Hr. injection Hr as <-. rewrite Hc in Hmv. exists (a_set_status s t). split; [by rewrite lookup_insert_eq|].
    cbn. apply (task_move_finished _ _ Hmv). set_solver.
  - eapply Hset; [exact Hr|]. congruence.
  - eapply Hset; [exact Hr|]. congruence.
  - eapply Hset; [exact Hr|]. congruence.
  - eapply Hset; [exact Hr|]. congruence.
  - destruct (decide (i = id)) as [->|Hi]; [|rewrite lookup_insert_ne by done; eauto].
    rewrite Ht in Hr. injection Hr as <-. exists (a_accept t). by rewrite lookup_insert_eq.
  - eapply Hset; [exact Hr|]. intros -> E. pose proof (lo_proposal l Hok _ _ Hr He) as Hn. rewrite E in Hn. set_solver.
  - eapply Hset; [exact Hr|]. intros -> E. rewrite E in Hv. set_solver.
  - eapply Hset; [exact Hr|]. intros E _. by eapply Hbusy.
  - eapply Hset; [exact Hr|]. intros E _. by eapply Hbusy.
Qed.

Lemma lsteps_completed v l l' id t :
  lifecycle_ok l -> lsteps v l l' -> l_tasks l !! id = Some t -> at_status t = T_COMPLETED ->
  exists t', l_tasks l' !! id = Some t' /\ at_status t' = T_COMPLETED.
Proof.
  intros Hok Hs. revert t Hok. induction Hs as [l|l l1 l' H1 _ IH]; intros t Hok Ht Hc; [eauto|].
  destruct (lstep_completed v l l1 id t) as (t1 & Ht1 & Hc1); try done.
  eapply IH; [by eapply lstep_ok|done..].
Qed.

Lemma lstep_new_completion v l l' id t' :
  lstep v l l' -> l_tasks l' !! id = Some t' -> at_status t' = T_COMPLETED ->
  v = Some id \/ exists t, l_tasks l !! id = Some t /\ at_status t = T_COMPLETED.
Proof.
  assert (Hset : forall i r, <[i := r]> (l_tasks l) !! id = Some t' -> at_status t' = T_COMPLETED ->
    (i = id -> at_status r = T_COMPLETED -> v = Some id \/ exists t, l_tasks l !! id = Some t /\ at_status t = T_COMPLETED) ->
    v = Some id \/ exists t, l_tasks l !! id = Some t /\ at_status t = T_COMPLETED).
  { intros i r [[-> ->]|[_ Hr]]%lookup_insert_Some Hc Hi; [by apply Hi|right; eauto]. }
  destruct 1 as [| |mid m Hm Hn|mid m Hm Hn| |i r s Hr Hmv _|i r Hr Hv|i r Hr Hv|i r Hr Hv|i r Hv Hr|i r m Hr He
    |i r Hr He|i r m op Hr _ _ Hv| |op o r s Ho Ha Hr Hx|op o r Ho Ha Hr]; cbn; intros Ht Hc; eauto;
    (eapply Hset; [exact Ht|done|]); try (by intros); cbn; intros <- E; try done; eauto.
  - subst s. apply task_move_completed in Hmv. eauto.
  - destruct (kept_at_exit (at_status r)) eqn:Ek; subst; [rewrite E in Ek; done|set_solver].
Qed.

Lemma lsteps_new_completion v l l' id t' :
  lsteps v l l' -> l_tasks l' !! id = Some t' -> at_status t' = T_COMPLETED ->
  v = Some id \/ exists t, l_tasks l !! id = Some t /\ at_status t = T_COMPLETED.
Proof.
  intros Hs. revert t'. induction Hs as [l|l l1 l' H1 _ IH]; intros t' Ht Hc; [eauto|].
  destruct (IH _ Ht Hc) as [?|(t1 & Ht1 & Hc1)]; [by left|]. by eapply lstep_new_completion.
Qed.

(** ** The theorems *)

(** C1: Every call of a store method on a reachable database, whether it
    returns or raises, moves missions, tasks, dependencies and operations by a
    sequence of steps of the lifecycle machine; only [verify_task] may take
    the step that completes a task, and only for its own task. *)
Theorem store_refines_lifecycle (O : Oracle) (F : SqlErrors) (o : op) (w : world) :
  reachable (w_db w) ->
  lsteps (op_verifies o) (life_of (w_db w)) (life_of (w_db (run_op o w).2)).
Proof. intros Hr. by apply run_refines, db_ok_reachable. Qed.

(** The exit of the provider in the example run is a step of the machine. *)
Lemma store_refines_lifecycle_witness :
  lsteps None (life_of (w_db (demo_world 7))) (life_of (w_db (run_op (H := demo_oracle) (Op_finish_operation "id9" 0 None) (demo_world 7)).2)) /\
  (t_status <$> tasks (w_db (run_op (H := demo_oracle) (Op_finish_operation "id9" 0 None) (demo_world 7)).2))
    = [T_VERIFYING; T_QUEUED; T_QUEUED].
Proof.
  split; [|vm_compute; reflexivity].
  exact (store_refines_lifecycle demo_oracle no_sql_errors (Op_finish_operation "id9" 0 None) (demo_world 7) (demo_world_reachable 7)).
Defined.

(** C2: In every reachable database a task has at most one unresolved
    operation, and a task that has one is an operator's task or an accepted
    proposal, belongs to the operation's mission, and is not VERIFYING,
    COMPLETED or FAILED. *)
Theorem one_unresolved_operation (d : database) :
  reachable d ->
  (forall o o', o ∈ operations d -> o' ∈ operations d -> active_op o = true -> active_op o' = true ->
     o_task o = o_task o' -> o = o') /\
  (forall o, o ∈ operations d -> active_op o = true -> exists t, find_task (o_task o) d = Some t /\
     t_mission t = o_mission o /\ effective t = true /\ t_status t ∉ settled).
Proof.
  intros Hd%db_ok_reachable. pose proof (proj2 Hd) as Hok. split.
  - intros o o' Ho Ho' Ha Ha' Ht. eapply (NoDup_key_eq o_id); [apply Hd|done..|].
    eapply (lo_one_op _ Hok _ _ (a_op o) (a_op o')); try done; by apply row_op.
  - intros o Ho Ha. pose proof (row_op d Hd o Ho) as Hro.
    destruct (lo_op_task _ Hok _ _ Hro) as (r & Hr & Hm). cbn in Hr, Hm. rewrite life_of_task in Hr.
    destruct (find_task (o_task o) d) as [t|] eqn:E; [|done]. injection Hr as <-.
    exists t. split_and!; [done|done|..]; apply (lo_busy _ Hok (o_task o) (a_task t)); try by rewrite life_of_task, E.
    all: by exists (o_id o), (a_op o).
Qed.

Lemma one_unresolved_operation_witness :
  (forall o, o ∈ operations (demo 6) -> active_op o = true -> exists t, find_task (o_task o) (demo 6) = Some t /\
     t_mission t = o_mission o /\ effective t = true /\ t_status t ∉ settled) /\
  (active_op <$> operations (demo 6)) = [true].
Proof.
  split; [|vm_compute; reflexivity]. exact (proj2 (one_unresolved_operation (demo 6) (demo_reachable 6))).
Defined.

(** C4: The dependency table of every reachable database is acyclic, joins
    tasks of one mission, and what a COMPLETED task waits for is COMPLETED. *)
Theorem dependencies_sound (d : database) :
  reachable d ->
  acyclic (task_dependencies d) /\
  forall t p, (t, p) ∈ task_dependencies d -> exists rt rp,
    find_task t d = Some rt /\ find_task p d = Some rp /\ t_mission rt = t_mission rp /\
    (t_status rt = T_COMPLETED -> t_status rp = T_COMPLETED).
Proof.
  intros Hd%db_ok_reachable. pose proof (proj2 Hd) as Hok. split.
  - intros t Ht. apply (lo_acyclic _ Hok t). by apply waits_life.
  - intros t p Hw. apply life_of_waits in Hw. destruct (lo_deps _ Hok t p Hw) as (at_ & ap & Ht & Hp & Hm).
    pose proof Ht as Ht'. pose proof Hp as Hp'. rewrite life_of_task in Ht', Hp'.
    destruct (find_task t d) as [rt|]; [|done]. destruct (find_task p d) as [rp|]; [|done].
    injection Ht' as <-. injection Hp' as <-. exists rt, rp. split_and!; try done.
    intros Hc. by apply (lo_completed _ Hok t (a_task rt) Ht Hc p (a_task rp)).
Qed.

Lemma dependencies_sound_witness : acyclic (task_dependencies (demo 9)) /\ task_dependencies (demo 9) = [(2, 1)].
Proof. split; [|vm_compute; reflexivity]. exact (proj1 (dependencies_sound (demo 9) (demo_reachable 9))). Defined.

(** C5: A COMPLETED mission of a reachable database has at least one task that
    counts, and every task of it that counts (an operator's task or an
    accepted proposal) is COMPLETED. *)
Theorem completed_mission_is_done (d : database) (m : mission_row) :
  reachable d -> m ∈ missions d -> m_status m = M_COMPLETED ->
  (exists t, t ∈ tasks d /\ t_mission t = m_id m /\ effective t = true) /\
  forall t, t ∈ tasks d -> t_mission t = m_id m -> effective t = true -> t_status t = T_COMPLETED.
Proof.
  intros Hd%db_ok_reachable Hm Hs. pose proof (proj2 Hd) as Hok.
  destruct (lo_mission_completed _ Hok _ _ (row_mission d Hd m Hm) Hs) as [Hall (id & a & Ha & Hma & Hea)].
  split.
  - apply task_row_of in Ha as (t & Ht & _ & <-). eauto.
  - intros t Ht Hmt He. apply (Hall _ _ (row_task d Hd t Ht) Hmt He).
Qed.

(** The completed mission of the second run, as read from its table. *)
Definition done_mission : mission_row :=
  default (Mission "" "" "" "" "" [] M_FAILED 0 0) (head (missions (w_db (done_world 7)))).

Lemma completed_mission_is_done_witness :
  m_status done_mission = M_COMPLETED /\
  forall t, t ∈ tasks (w_db (done_world 7)) -> t_mission t = m_id done_mission -> effective t = true ->
  t_status t = T_COMPLETED.
Proof.
  split; [vm_compute; reflexivity|].
  assert (Hm : done_mission ∈ missions (w_db (done_world 7))) by (vm_compute; left).
  assert (Hs : m_status done_mission = M_COMPLETED) by (vm_compute; reflexivity).
  exact (proj2 (completed_mission_is_done _ done_mission (done_world_reachable 7) Hm Hs)).
Defined.

(** At most one mission per repository is RUNNING, PAUSED or STOPPING in a
    reachable database. *)
Theorem one_controlled_mission (d : database) (m m' : mission_row) :
  reachable d -> m ∈ missions d -> m' ∈ missions d -> active_mission m = true -> active_mission m' = true ->
  m_repo_identity m = m_repo_identity m' -> m = m'.
Proof.
  intros Hd%db_ok_reachable Hm Hm' Ha Ha' Hr. pose proof (proj2 Hd) as Hok.
  eapply (NoDup_key_eq m_id); [apply Hd|exact Hm|exact Hm'|].
  by eapply (lo_controlled _ Hok _ _ _ _ (row_mission d Hd m Hm) (row_mission d Hd m' Hm')).
Qed.

Lemma one_controlled_mission_witness :
  let m := default done_mission (head (missions (demo 6))) in
  active_mission m = true /\ forall m', m' ∈ missions (demo 6) -> active_mission m' = true ->
  m_repo_identity m = m_repo_identity m' -> m = m'.
Proof.
  intros m.
  assert (Hm : m ∈ missions (demo 6)) by (vm_compute; left).
  assert (Ha : active_mission m = true) by (vm_compute; reflexivity).
  split; [exact Ha|]. intros m' Hm' Ha' Hr.
  exact (one_controlled_mission (demo 6) m m' (demo_reachable 6) Hm Hm' Ha Ha' Hr).
Defined.

(** A COMPLETED task stays COMPLETED: no method of the store, whatever its
    arguments and outcome, takes a task out of COMPLETED. *)
Theorem completed_is_final (O : Oracle) (F : SqlErrors) (o : op) (w : world) (t : task_row) :
  reachable (w_db w) -> t ∈ tasks (w_db w) -> t_status t = T_COMPLETED ->
  exists t', find_task (t_id t) (w_db (run_op o w).2) = Some t' /\ t_status t' = T_COMPLETED.
Proof.
  intros Hd%db_ok_reachable Ht Hc.
  destruct (lsteps_completed _ _ _ _ _ (proj2 Hd) (run_refines o w Hd) (row_task _ Hd t Ht) Hc) as (a & Ha & Hac).
  rewrite life_of_task in Ha. destruct (find_task _ _) as [t'|]; [|done]. injection Ha as <-. eauto.
Qed.

Lemma completed_is_final_witness :
  exists t', find_task 1 (w_db (run_op (H := demo_oracle) (Op_set_task_status 1 "CANCELLED") (demo_world 9)).2) = Some t' /\
    t_status t' = T_COMPLETED.
Proof.
  pose (t := default (Task 0 "" 0 "" "" "" no_changes 0 0 T_QUEUED 0 [] [] Or_operator P_NONE None 0 0)
               (find_task 1 (w_db (demo_world 9)))).
  assert (Ht : t ∈ tasks (w_db (demo_world 9))) by (vm_compute; left).
  assert (Hc : t_status t = T_COMPLETED) by (vm_compute; reflexivity).
  assert (Hid : t_id t = 1) by (vm_compute; reflexivity).
  pose proof (completed_is_final demo_oracle no_sql_errors (Op_set_task_status 1 "CANCELLED") (demo_world 9) t
    (demo_world_reachable 9) Ht Hc) as Hfinal.
  rewrite Hid in Hfinal. exact Hfinal.
Defined.

(** C3: Only verification completes a task: a task that is COMPLETED after a
    call and was not before is the task of a [verify_task] call. *)
Theorem completion_only_by_verification (O : Oracle) (F : SqlErrors) (o : op) (w : world) (t : task_row) :
  reachable (w_db w) -> t ∈ tasks (w_db (run_op o w).2) -> t_status t = T_COMPLETED ->
  (forall t0, t0 ∈ tasks (w_db w) -> t_id t0 = t_id t -> t_status t0 ≠ T_COMPLETED) ->
  exists evidence approved source metadata record_only,
    o = Op_verify_task (t_id t) evidence approved source metadata record_only.
Proof.
  intros Hr Ht Hc Hnew. pose proof (db_ok_reachable _ Hr) as Hd.
  assert (Hd' : db_ok (w_db (run_op o w).2)).
  { apply db_ok_reachable. eapply reachable_call; [exact Hr|]. by destruct w as [d k]; apply (call_intro _ _ O F o k). }
  destruct (lsteps_new_completion _ _ _ _ _ (run_refines o w Hd) (row_task _ Hd' t Ht) Hc) as [Hv|(a & Ha & Hac)].
  - destruct o; try done. injection Hv as ->. eauto 6.
  - apply task_row_of in Ha as (t0 & Ht0 & Hid & <-). exfalso. by eapply Hnew.
Qed.

Definition verify_first : op := Op_verify_task 1 "all tests pass" false "verifier" [] false.
Lemma completion_only_by_verification_witness :
  exists evidence approved source metadata record_only,
    verify_first = Op_verify_task 1 evidence approved source metadata record_only.
Proof.
  pose (d' := w_db (run_op (H := demo_oracle) verify_first (demo_world 8)).2).
  pose (t := default (Task 0 "" 0 "" "" "" no_changes 0 0 T_QUEUED 0 [] [] Or_operator P_NONE None 0 0) (find_task 1 d')).
  assert (Ht : t ∈ tasks d') by (vm_compute; left).
  assert (Hc : t_status t = T_COMPLETED) by (vm_compute; reflexivity).
  assert (Hid : t_id t = 1) by (vm_compute; reflexivity).
  rewrite <- Hid.
  apply (completion_only_by_verification demo_oracle no_sql_errors verify_first (demo_world 8) t (demo_world_reachable 8) Ht Hc).
  assert (Hall : Forall (fun t0 => t_status t0 ≠ T_COMPLETED) (tasks (w_db (demo_world 8)))).
  { apply (bool_decide_unpack _). vm_compute. exact I. }
  rewrite Forall_forall in Hall. intros t0 Ht0 _. by apply Hall.
Defined.
