(* ===== verification/StoreSpecs.v ===== *)
(** * What each method does

    Functional specifications of the central methods: when they succeed, what
    they return and what they leave behind, row by row.  [twp] is the total
    weakest precondition: the run succeeds and its result satisfies [Q]. *)

From S2P Require Import Prelude Py Vocab States StoreData StoreTasks StoreOps StoreReview StoreLog StoreApi StoreDemo StoreCounts StoreKeys StoreDeps.
From stdpp Require Import options.
Local Open Scope Z_scope.

Section twp_store.
Context `{Oracle}.
Lemma twp_read {A} (f : database -> A) (Q : A -> world -> Prop) w : Q (f (w_db w)) w -> twp (read f) Q w.
Proof. intros HQ. by eexists _, w. Qed.
Lemma twp_utc_now (Q : Z -> world -> Prop) w : (forall now tick, Q now (World (w_db w) tick)) -> twp utc_now Q w.
Proof. intros HQ. eexists _, _. split; [done|]. apply HQ. Qed.
Lemma twp_write f (Q : unit -> world -> Prop) w : Q tt (World (f (w_db w)) (w_tick w)) -> twp (write f) Q w.
Proof. intros HQ. by eexists _, _. Qed.
Lemma twp_transaction {A} (m : DB A) (Q : A -> world -> Prop) w : twp m Q w -> twp (_transaction m) Q w.
Proof. intros (a & w' & E & HQ). exists a, w'. split; [|done]. unfold _transaction. by rewrite E. Qed.
Lemma twp_mission_row id m (Q : mission_row -> world -> Prop) w :
  find_mission id (w_db w) = Some m -> Q m w -> twp (_mission_row id) Q w.
Proof. intros Hm HQ. unfold _mission_row. apply twp_bind, twp_read. rewrite Hm. by apply twp_ret. Qed.
Lemma twp_task_row id t (Q : task_row -> world -> Prop) w :
  find_task id (w_db w) = Some t -> Q t w -> twp (_task_row id) Q w.
Proof. intros Hm HQ. unfold _task_row. apply twp_bind, twp_read. rewrite Hm. by apply twp_ret. Qed.
Lemma twp_operation_row id o (Q : operation_row -> world -> Prop) w :
  find_operation id (w_db w) = Some o -> Q o w -> twp (_operation_row id) Q w.
Proof. intros Hm HQ. unfold _operation_row. apply twp_bind, twp_read. rewrite Hm. by apply twp_ret. Qed.
(** An event is appended; nothing else changes. *)
Lemma twp_event m k data t o (Q : unit -> world -> Prop) w :
  (forall now tick, let d := w_db w in
    Q tt (World (set_event_seq (event_seq d + 1) (set_events (events d ++ [Event (event_seq d + 1) m t o k (JObj data) now]) d)) tick)) ->
  twp (_event m k data t o) Q w.
Proof. intros HQ. unfold _event. apply twp_bind, twp_utc_now. intros now tick. apply twp_write. apply HQ. Qed.
End twp_store.

(** ** Lookups after an UPDATE *)

Lemma first_update {A K} `{EqDecision K} (key : A -> K) (p : A -> bool) f (k k' : K) l :
  (forall a, p a = bool_decide (key a = k)) -> (forall a, key (f a) = key a) ->
  first (fun a => bool_decide (key a = k')) (update_where p f l) =
  if decide (k' = k) then f <$> first (fun a => bool_decide (key a = k')) l
  else first (fun a => bool_decide (key a = k')) l.
Proof.
  intros Hp Hf. unfold first, update_where. induction l as [|x l IH]; [by case_decide|].
  rewrite fmap_cons. cbn [List.find]. rewrite Hp.
  destruct (decide (key x = k)) as [E|E].
  - rewrite (bool_decide_true (key x = k)), Hf, E by done. destruct (decide (k' = k)) as [->|Hne].
    + by rewrite bool_decide_true.
    + by rewrite bool_decide_false.
  - rewrite (bool_decide_false (key x = k)) by done. destruct (decide (k' = k)) as [->|Hne].
    + by rewrite bool_decide_false.
    + by case_bool_decide.
Qed.

Lemma find_task_key id d : find_task id d = first (fun t => bool_decide (t_id t = id)) (tasks d).
Proof.
  unfold find_task, first. induction (tasks d) as [|t l IH]; [done|]. cbn.
  destruct (Z.eqb_spec (t_id t) id); [by rewrite bool_decide_true|by rewrite bool_decide_false].
Qed.

Lemma find_task_update id id' f d :
  (forall t, t_id (f t) = t_id t) ->
  find_task id' (update_tasks (fun t => t_id t =? id) f d) =
  if decide (id' = id) then f <$> find_task id' d else find_task id' d.
Proof.
  intros Hf. rewrite !find_task_key. apply (first_update t_id); [|done].
  intros t. destruct (Z.eqb_spec (t_id t) id); [by rewrite bool_decide_true|by rewrite bool_decide_false].
Qed.
Lemma find_operation_update id id' f d :
  (forall o, o_id (f o) = o_id o) ->
  find_operation id' (set_operations (update_where (fun o => bool_decide (o_id o = id)) f (operations d)) d) =
  if decide (id' = id) then f <$> find_operation id' d else find_operation id' d.
Proof. intros Hf. by apply (first_update o_id). Qed.
Lemma find_task_id id d t : find_task id d = Some t -> t_id t = id.
Proof. unfold find_task. intros [_ E]%first_Some. by bool_to_prop. Qed.

(** Tables a statement does not touch. *)
Create Rewrite HintDb store_frame.
Lemma find_task_set_events i v d : find_task i (set_events v d) = find_task i d.
Proof. done. Qed.
Lemma find_task_set_event_seq i v d : find_task i (set_event_seq v d) = find_task i d.
Proof. done. Qed.
Lemma find_task_set_amendments i v d : find_task i (set_amendments v d) = find_task i d.
Proof. done. Qed.
Lemma find_task_set_operations i v d : find_task i (set_operations v d) = find_task i d.
Proof. done. Qed.
Lemma find_task_set_missions i v d : find_task i (set_missions v d) = find_task i d.
Proof. done. Qed.
Lemma find_operation_set_events i v d : find_operation i (set_events v d) = find_operation i d.
Proof. done. Qed.
Lemma find_operation_set_event_seq i v d : find_operation i (set_event_seq v d) = find_operation i d.
Proof. done. Qed.
Lemma find_operation_set_amendments i v d : find_operation i (set_amendments v d) = find_operation i d.
Proof. done. Qed.
Lemma find_operation_set_missions i v d : find_operation i (set_missions v d) = find_operation i d.
Proof. done. Qed.
Lemma find_operation_update_tasks i p f d : find_operation i (update_tasks p f d) = find_operation i d.
Proof. done. Qed.
Lemma find_mission_set_events i v d : find_mission i (set_events v d) = find_mission i d.
Proof. done. Qed.
Lemma find_mission_set_event_seq i v d : find_mission i (set_event_seq v d) = find_mission i d.
Proof. done. Qed.
Lemma find_mission_set_amendments i v d : find_mission i (set_amendments v d) = find_mission i d.
Proof. done. Qed.
Lemma find_mission_set_operations i v d : find_mission i (set_operations v d) = find_mission i d.
Proof. done. Qed.
Lemma find_mission_update_tasks i p f d : find_mission i (update_tasks p f d) = find_mission i d.
Proof. done. Qed.
#[export] Hint Rewrite find_task_set_events find_task_set_event_seq find_task_set_amendments find_task_set_operations find_task_set_missions find_operation_set_events find_operation_set_event_seq find_operation_set_amendments find_operation_set_missions find_operation_update_tasks find_mission_set_events find_mission_set_event_seq find_mission_set_amendments find_mission_set_operations find_mission_update_tasks : store_frame.
Ltac frame := autorewrite with store_frame.
(** [find_task] and [find_operation] through the UPDATEs of a method. *)
Ltac lookups := cbn [w_db]; repeat first
  [ progress frame
  | rewrite find_task_update by (intros; unfold amend_columns; repeat case_match; reflexivity)
  | rewrite find_operation_update by (intros; reflexivity) ].

(** Walk through a method whose guards are known to hold. *)
Ltac twp_step :=
  cbv beta;
  match goal with
  | |- twp (let x := _ in _) _ _ => cbv zeta
  | |- twp (_ ≫= _) _ _ => apply twp_bind
  | |- twp (mret _) _ _ => apply twp_ret
  | |- twp (read _) _ _ => apply twp_read
  | |- twp utc_now _ _ => apply twp_utc_now; intros ? ?
  | |- twp (_transaction _) _ _ => apply twp_transaction
  | |- twp (op_event _ _ _) _ _ => unfold op_event
  | |- twp (task_event _ _ _ _) _ _ => unfold task_event
  | |- twp (mission_event _ _ _) _ _ => unfold mission_event
  | |- twp (_event _ _ _ _ _) _ _ => apply twp_event; intros ? ?; cbv zeta
  | |- twp (write _) _ _ => apply twp_write
  | |- twp (update_task _ _) _ _ => apply twp_write
  | |- twp (update_operation _ _) _ _ => apply twp_write
  | |- twp (update_amendments _ _) _ _ => apply twp_write
  | |- twp (update_mission _ _) _ _ => apply twp_write
  | |- twp (raise_if _ _) _ _ => apply twp_raise_if
  end.

(** ** The end of an operation *)

Section finish.
Context `{Oracle} (d : database).

(** Applying the pending amendment before verification. *)
Definition amended (t : task_row) : task_row := set_t_pending no_changes (amend_columns (t_pending t) t).

Lemma finish_run id code logs op t m tick :
  find_operation id d = Some op -> active_op op = true ->
  find_task (o_task op) d = Some t -> find_mission (o_mission op) d = Some m ->
  twp (finish_operation id code logs) (fun r w' =>
    (exists op', find_operation id (w_db w') = Some op' /\ o_status op' = O_EXITED /\
       o_exit_code op' = Some code /\ o_logs_path op' = logs /\ o_identity op' = o_identity op) /\
    find_task (o_task op) (w_db w') = Some (td_row r) /\
    t_status (td_row r) = default (exit_status code (t_pending t) m) (boundary_status (t_status t)) /\
    (if (code =? 0) && has_changes (t_pending t)
     then t_pending (td_row r) = no_changes /\ t_prompt (td_row r) = t_prompt (amended t) /\ t_evidence (td_row r) = []
     else t_pending (td_row r) = t_pending t /\ t_prompt (td_row r) = t_prompt t /\ t_evidence (td_row r) = t_evidence t) /\
    (forall id', id' ≠ o_task op -> find_task id' (w_db w') = find_task id' d) /\
    (forall id', id' ≠ id -> find_operation id' (w_db w') = find_operation id' d) /\
    missions (w_db w') = missions d /\ task_dependencies (w_db w') = task_dependencies d) (World d tick).
Proof.
  intros Hop Ha Ht Hm. pose proof (find_task_id _ _ _ Ht) as Hid. unfold finish_operation.
  do 3 twp_step. eapply twp_operation_row; [done|]. do 2 twp_step; [by rewrite Ha|].
  twp_step. eapply twp_task_row; [done|]. twp_step. eapply twp_mission_row; [done|]. repeat twp_step.
  apply twp_when; intros Hb.
  - unfold _apply_pending_amendment. cbn [andb]. repeat twp_step. unfold get_task. twp_step.
    eapply twp_task_row.
    { lookups. rewrite Hid, !decide_True by done. rewrite Ht. reflexivity. }
    twp_step. cbn [td_row _task_dict]. split_and!; lookups.
    + eexists. rewrite decide_True, Hop by done. split_and!; [reflexivity|done..].
    + rewrite Hid, !decide_True by done. by rewrite Ht.
    + done.
    + rewrite Hb. split_and!; reflexivity.
    + intros id' Hne. lookups. by rewrite Hid, !decide_False.
    + intros id' Hne. lookups. by rewrite decide_False.
    + done.
    + done.
  - repeat twp_step. unfold get_task. twp_step. eapply twp_task_row.
    { lookups. rewrite Hid, !decide_True by done. rewrite Ht. reflexivity. }
    twp_step. cbn [td_row _task_dict]. split_and!; lookups.
    + eexists. rewrite decide_True, Hop by done. split_and!; [reflexivity|done..].
    + rewrite Hid, !decide_True by done. by rewrite Ht.
    + done.
    + rewrite Hb. split_and!; reflexivity.
    + intros id' Hne. lookups. by rewrite Hid, !decide_False.
    + intros id' Hne. lookups. by rewrite decide_False.
    + done.
    + done.
Qed.
End finish.

Lemma exit_status_cases code p m :
  (exit_status code p m = T_VERIFYING <-> code = 0 /\ p = no_changes) /\
  (exit_status code p m = T_READY <-> (code = 0 /\ p ≠ no_changes) \/ (code = 143 /\ m_status m ∈ HALTED_MISSION_STATUSES)) /\
  (exit_status code p m = T_BLOCKED <-> code = 75 \/ code = 76) /\
  (exit_status code p m = T_FAILED <->
     code ≠ 0 /\ code ≠ 75 /\ code ≠ 76 /\ ~ (code = 143 /\ m_status m ∈ HALTED_MISSION_STATUSES)).
Proof.
  unfold exit_status, has_changes, is_in, OPERATOR_DECLINED_EXIT_CODE.
  destruct (Z.eqb_spec code 0) as [->|H0]; [case_bool_decide; cbn; split_and!; naive_solver lia|].
  destruct (Z.eqb_spec code 75) as [->|H75]; [cbn; split_and!; naive_solver lia|].
  destruct (Z.eqb_spec code 76) as [->|H76]; [cbn; split_and!; naive_solver lia|]. cbn [orb].
  destruct (Z.eqb_spec code 143) as [->|H143]; cbn [andb]; [case_bool_decide|]; split_and!; naive_solver lia.
Qed.

(** C9: [finish_operation] resolves an operation exactly once.  On an operation
    that is already resolved it raises and changes nothing; on an unresolved one
    it succeeds, records the exit, keeps an operator's pause or cancellation of
    the task, and otherwise moves the task to VERIFYING exactly on exit 0 without
    a pending amendment, to READY exactly on exit 0 with one or on exit 143 of a
    halted mission, to BLOCKED exactly on exits 75 and 76, and to FAILED in all
    other cases.  After exit 0 no amendment is left pending.  No other task,
    operation, mission or dependency changes. *)
Theorem finish_operation_outcome (O : Oracle) (id : string) (code : Z) (logs : option string) (w : world)
    (op : operation_row) (t : task_row) (m : mission_row) :
  find_operation id (w_db w) = Some op -> find_task (o_task op) (w_db w) = Some t ->
  find_mission (o_mission op) (w_db w) = Some m ->
  (active_op op = false -> exists msg, finish_operation id code logs w = (Raise (TransitionError msg), w)) /\
  (active_op op = true -> exists r w', finish_operation id code logs w = (Ok r, w') /\
    let s := t_status (td_row r) in
    let halted := m_status m ∈ HALTED_MISSION_STATUSES in
    find_task (o_task op) (w_db w') = Some (td_row r) /\
    (exists op', find_operation id (w_db w') = Some op' /\ o_status op' = O_EXITED /\
       o_exit_code op' = Some code /\ o_logs_path op' = logs /\ o_identity op' = o_identity op) /\
    (t_status t ∈ [T_CANCELLED; T_PAUSED] -> s = t_status t) /\
    (t_status t ∉ [T_CANCELLED; T_PAUSED] ->
      (s = T_VERIFYING <-> code = 0 /\ t_pending t = no_changes) /\
      (s = T_READY <-> (code = 0 /\ t_pending t ≠ no_changes) \/ (code = 143 /\ halted)) /\
      (s = T_BLOCKED <-> code = 75 \/ code = 76) /\
      (s = T_FAILED <-> code ≠ 0 /\ code ≠ 75 /\ code ≠ 76 /\ ~ (code = 143 /\ halted))) /\
    (code = 0 -> t_pending (td_row r) = no_changes) /\
    (forall id', id' ≠ o_task op -> find_task id' (w_db w') = find_task id' (w_db w)) /\
    (forall id', id' ≠ id -> find_operation id' (w_db w') = find_operation id' (w_db w)) /\
    missions (w_db w') = missions (w_db w) /\ task_dependencies (w_db w') = task_dependencies (w_db w)).
Proof.
  intros Hop Ht Hm. split.
  - intros Ha. eexists. unfold finish_operation, _operation_row, _transaction, read, gets, or_raise, mbind, ST_bind, mret, ST_ret.
    rewrite Hop. cbv beta iota zeta. rewrite Ha. cbn. by destruct w.
  - intros Ha. destruct w as [d tick]. destruct (finish_run d id code logs op t m tick Hop Ha Ht Hm)
      as (r & w' & E & Hop' & Hr & Hs & Hp & Hrest). exists r, w'. split; [done|]. cbv zeta.
    split_and!; try apply Hrest; try done; rewrite ?Hs.
    + by destruct (t_status t); set_solver.
    + intros Hk. assert (boundary_status (t_status t) = None) as -> by (by destruct (t_status t); set_solver).
      cbn. by apply exit_status_cases.
    + intros ->. destruct (has_changes (t_pending t)) eqn:Eh; cbn in Hp; [apply Hp|].
      destruct Hp as [-> _]. unfold has_changes in Eh. by bool_to_prop.
Qed.

(** The example run has a world with a running operation. *)
Lemma demo_running : exists w op t m,
  find_operation "id9" (w_db w) = Some op /\ find_task (o_task op) (w_db w) = Some t /\
  find_mission (o_mission op) (w_db w) = Some m /\ active_op op = true /\ t_status t = T_RUNNING /\ t_pending t = no_changes.
Proof. exists (demo_world 7). do 3 eexists. split_and!; vm_compute; reflexivity. Qed.

Lemma finish_operation_outcome_witness :
  exists w r w', finish_operation (H := demo_oracle) "id9" 0 None w = (Ok r, w') /\ t_status (td_row r) = T_VERIFYING.
Proof.
  destruct demo_running as (w & op & t & m & Eo & Et & Em & Ha & Hs & Hp).
  destruct (proj2 (finish_operation_outcome demo_oracle "id9" 0 None w op t m Eo Et Em) Ha)
    as (r & w' & E & _ & _ & _ & Hopen & _).
  exists w, r, w'. split; [exact E|]. apply Hopen; [|split; [reflexivity|exact Hp]].
  rewrite Hs. set_solver.
Defined.

(** ** Scheduling *)

Lemma twp_for_each_rest {E S A} (I : list A -> S -> Prop) (l : list A) (f : A -> ST E S unit) s :
  I l s -> (forall x rest s', I (x :: rest) s' -> twp (f x) (fun _ => I rest) s') ->
  twp (for_each l f) (fun _ => I []) s.
Proof.
  intros HI Hf. revert s HI. induction l as [|x l IH]; intros s HI; cbn; [by apply twp_ret|].
  apply twp_bind. eapply twp_mono; [|by apply Hf]. intros ? s'. apply IH.
Qed.

(** A loop over the rows of a table that treats them one at a time: the rows
    to come are untouched, the others are related to what they were. *)
Section walk.
Context (R : task_row -> task_row -> Prop) (Rid : forall t t', R t t' -> t_id t' = t_id t).
Definition walked (rest : list task_row) (ts ts' : list task_row) : Prop :=
  Forall2 (fun t t' => if decide (t_id t ∈ t_id <$> rest) then t' = t else R t t') ts ts'.

Lemma walked_start ts rest : (forall t, t ∈ ts -> t_id t ∉ t_id <$> rest -> R t t) -> walked rest ts ts.
Proof using Type.
  intros Hr. apply Forall2_same_length_lookup_2; [done|]. intros i t t' Ht Ht'. assert (t = t') as <- by congruence.
  case_decide; [done|]. apply Hr; [by eapply list_elem_of_lookup_2|done].
Qed.
Lemma walked_all ts ts' : walked [] ts ts' -> Forall2 R ts ts'.
Proof using Type. intros HF. exact HF. Qed.
Lemma walked_skip x rest ts ts' : NoDup (t_id <$> ts) -> x ∈ ts -> R x x -> walked (x :: rest) ts ts' -> walked rest ts ts'.
Proof using Type.
  intros Hnd Hx Hr HF. unfold walked in *. rewrite Forall2_lookup in HF |- *. intros i. specialize (HF i).
  destruct (ts !! i) as [t|] eqn:Et; inversion HF as [? t' Hrel|]; subst; constructor.
  apply list_elem_of_lookup_2 in Et. cbv beta in Hrel |- *.
  destruct (decide (t_id t = t_id x)) as [Hid|Hid].
  - assert (t = x) as -> by (by eapply (NoDup_key_eq t_id)).
    rewrite decide_True in Hrel by (rewrite fmap_cons; left). subst t'. by case_decide.
  - assert (Hne : t_id t ∈ t_id <$> rest <-> t_id t ∈ t_id <$> (x :: rest)) by (rewrite fmap_cons, elem_of_cons; naive_solver).
    by rewrite (decide_ext _ _ _ _ Hne).
Qed.
Lemma walked_update x rest ts ts' f : NoDup (t_id <$> ts) -> x ∈ ts -> t_id x ∉ t_id <$> rest -> R x (f x) ->
  walked (x :: rest) ts ts' -> walked rest ts (update_where (fun t => t_id t =? t_id x) f ts').
Proof using Rid.
  intros Hnd Hx Hrest Hr HF. unfold walked, update_where in *. apply Forall2_fmap_r. rewrite Forall2_lookup in HF |- *. intros i. specialize (HF i).
  destruct (ts !! i) as [t|] eqn:Et; inversion HF as [? t' Hrel|]; subst; constructor.
  apply list_elem_of_lookup_2 in Et. unfold compose. cbv beta in Hrel |- *.
  destruct (decide (t_id t = t_id x)) as [Hid|Hid].
  - assert (t = x) as -> by (by eapply (NoDup_key_eq t_id)).
    rewrite decide_True in Hrel by (rewrite fmap_cons; left). subst t'. by rewrite Z.eqb_refl, decide_False.
  - assert (Hne : t_id t ∈ t_id <$> rest <-> t_id t ∈ t_id <$> (x :: rest)) by (rewrite fmap_cons, elem_of_cons; naive_solver).
    assert (Hid' : t_id t' = t_id t) by (case_decide; [by subst|by apply Rid]).
    rewrite Hid', (proj2 (Z.eqb_neq _ _) Hid). by rewrite (decide_ext _ _ _ _ Hne).
Qed.
(** The current row of one still to come is the one it was. *)
Lemma walked_current x rest ts ts' : NoDup (t_id <$> ts) -> x ∈ ts -> t_id x ∈ t_id <$> rest -> walked rest ts ts' ->
  first (fun t => t_id t =? t_id x) ts' = Some x.
Proof using Rid.
  intros Hnd Hx Hin HF. induction HF as [|t t' ts ts' Hr HF IH]; [by apply not_elem_of_nil in Hx|].
  rewrite fmap_cons in Hnd. apply NoDup_cons in Hnd as [Hn Hnd]. unfold first. cbn [List.find].
  apply elem_of_cons in Hx as [->|Hx].
  - rewrite decide_True in Hr by done. subst t'. by rewrite Z.eqb_refl.
  - assert (Hne : t_id t <> t_id x) by (intros E; apply Hn; rewrite E; by apply list_elem_of_fmap_2).
    assert (Hid : t_id t' = t_id t) by (case_decide; [by subst|by apply Rid]).
    rewrite Hid, (proj2 (Z.eqb_neq _ _) Hne). by apply IH.
Qed.
End walk.

Section ready.
Context `{Oracle} (m : string) (d : database).

(** What [ready_tasks] does to one row, up to its time stamp. *)
Definition promotable (t : task_row) : bool := bool_decide (t_status t = T_QUEUED) && runnable m d t.
Definition promoted (t t' : task_row) : Prop :=
  if promotable t then exists now, t' = set_t_updated_at now (set_t_status T_READY t) else t' = t.

(** The loop invariant: the rows still to come are untouched. *)
Definition promoting (rest : list task_row) (w : world) : Prop :=
  walked promoted rest (tasks d) (tasks (w_db w)) /\
  NoDup (t_id <$> rest) /\ rest ⊆ select promotable (tasks d) /\
  missions (w_db w) = missions d /\ task_dependencies (w_db w) = task_dependencies d /\ operations (w_db w) = operations d.

Lemma promoted_id t t' : promoted t t' -> t_id t' = t_id t.
Proof. unfold promoted. case_match; [intros [? ->]|intros ->]; done. Qed.

Lemma promoting_step x rest w now :
  NoDup (t_id <$> tasks d) -> promoting (x :: rest) w ->
  promoting rest (World (update_tasks (fun t => t_id t =? t_id x) (fun t => set_t_updated_at now (set_t_status T_READY t)) (w_db w)) (w_tick w)).
Proof.
  intros Hnd (HF & [Hx Hr]%NoDup_cons & Hsub & Hm & Hd & Ho). split_and!; cbn; try done; [|set_solver].
  assert (Hxin : x ∈ tasks d /\ promotable x = true) by (apply elem_of_select, Hsub; left).
  apply walked_update; [exact promoted_id|done|apply Hxin|done| |done]. unfold promoted. rewrite (proj2 Hxin). eauto.
Qed.

(** Promotion neither completes a task nor takes it out of COMPLETED. *)
Lemma find_task_promoted ts ts' id :
  Forall2 promoted ts ts' ->
  match first (fun t => t_id t =? id) ts, first (fun t => t_id t =? id) ts' with
  | Some t, Some t' => promoted t t'
  | None, None => True
  | _, _ => False
  end.
Proof.
  unfold first. induction 1 as [|t t' ts ts' Hp HF IH]; cbn; [done|].
  rewrite (promoted_id _ _ Hp). by destruct (t_id t =? id).
Qed.

Lemma promotable_true t :
  promotable t = true <-> t_status t = T_QUEUED /\ t_mission t = m /\ effective t = true /\ dependencies_complete d (t_id t) = true.
Proof. unfold promotable, runnable. rewrite !andb_true_iff, !bool_decide_eq_true. naive_solver. Qed.
Lemma promoted_columns t t' : promoted t t' -> t_mission t' = t_mission t /\ effective t' = effective t.
Proof. unfold promoted. destruct (promotable t); [intros [? ->]|intros ->]; done. Qed.

Lemma runnable_promoted w t t' :
  promoting [] w -> promoted t t' -> runnable m (w_db w) t' = runnable m d t.
Proof.
  intros (HF & _ & _ & _ & Hd & _) Hp.
  assert (HF' : Forall2 promoted (tasks d) (tasks (w_db w))) by exact HF.
  destruct (promoted_columns _ _ Hp) as [Hm He].
  unfold runnable, dependencies_complete. rewrite Hd, Hm, He, (promoted_id _ _ Hp).
  destruct (bool_decide _ && effective t); [cbn [andb]|done].
  induction (depends_of (task_dependencies d) (t_id t)) as [|p l IH]; [done|]. cbn [forallb]. rewrite IH. f_equal.
  pose proof (find_task_promoted _ _ p HF') as Hf. unfold find_task.
  repeat case_match; try done. unfold promoted in Hf. case_match; [destruct Hf as [? ->]|by subst].
  unfold promotable in *. bool_to_prop. cbn. by rewrite !bool_decide_false by congruence.
Qed.

Lemma td_row_task_dicts d0 ts : td_row <$> _task_dicts d0 ts = ts.
Proof. unfold _task_dicts. rewrite <- list_fmap_compose. transitivity (id <$> ts); [by apply list_fmap_ext|apply list_fmap_id]. Qed.

Lemma ready_run limit mi tick :
  NoDup (t_id <$> tasks d) -> find_mission m d = Some mi ->
  twp (ready_tasks m limit) (fun r w' => promoting [] w' /\
    (td_row <$> r) = limited limit (sort_by queue_order
       (select (fun t => bool_decide (t_status t = T_READY) && runnable m (w_db w') t) (tasks (w_db w'))))) (World d tick).
Proof.
  intros Hnd Hmi. unfold ready_tasks. do 2 twp_step. eapply twp_mission_row; [done|]. do 3 twp_step.
  eapply twp_mono; cycle 1.
  - apply (twp_for_each_rest promoting).
    + split_and!; cbn [w_db]; try done.
      * apply walked_start. intros t Ht Hout. unfold promoted.
        destruct (promotable t) eqn:Ep; [|done]. destruct Hout. by apply list_elem_of_fmap_2, elem_of_select.
      * by apply NoDup_fmap_select.
    + intros x rest s' Hp. repeat twp_step. by apply (promoting_step x rest s').
  - intros ? w' Hp. cbv beta. repeat twp_step. split; [exact Hp|]. apply td_row_task_dicts.
Qed.
End ready.

Lemma list_order_total a b : list_order a b = true \/ list_order b a = true.
Proof. unfold list_order. rewrite !orb_true_iff, !andb_true_iff, !Z.ltb_lt, !Z.leb_le, !Z.eqb_eq. lia. Qed.
Lemma queue_order_total a b : queue_order a b = true \/ queue_order b a = true.
Proof. unfold queue_order, list_order. rewrite !orb_true_iff, !andb_true_iff, !orb_true_iff, !andb_true_iff, !Z.ltb_lt, !Z.leb_le, !Z.eqb_eq. lia. Qed.
Lemma queue_order_trans a b c : queue_order a b = true -> queue_order b c = true -> queue_order a c = true.
Proof. unfold queue_order, list_order. rewrite !orb_true_iff, !andb_true_iff, !orb_true_iff, !andb_true_iff, !Z.ltb_lt, !Z.leb_le, !Z.eqb_eq. lia. Qed.

(** C7: [ready_tasks] on a known mission of a reachable database succeeds.  It
    moves to READY exactly the QUEUED tasks of the mission that are the
    operator's or accepted and whose prerequisites are all COMPLETED, and changes
    nothing else of any task; it returns the first [limit] of the list [queue],
    which holds each READY runnable task of the mission once, ordered by
    descending priority, then by ordering, then by id. *)
Theorem ready_tasks_exact (O : Oracle) (m : string) (limit : option Z) (w : world) (mi : mission_row) :
  reachable (w_db w) -> find_mission m (w_db w) = Some mi ->
  exists r w' queue, ready_tasks m limit w = (Ok r, w') /\
    Forall2 (fun t t' =>
      if decide (t_status t = T_QUEUED /\ t_mission t = m /\ effective t = true /\ dependencies_complete (w_db w) (t_id t) = true)
      then exists now, t' = set_t_updated_at now (set_t_status T_READY t) else t' = t) (tasks (w_db w)) (tasks (w_db w')) /\
    (td_row <$> r) = limited limit queue /\ NoDup (t_id <$> queue) /\
    StronglySorted (fun a b => queue_order a b = true) queue /\
    (forall t, t ∈ queue <-> t ∈ tasks (w_db w') /\ t_status t = T_READY /\ t_mission t = m /\ effective t = true /\
       dependencies_complete (w_db w) (t_id t) = true) /\
    missions (w_db w') = missions (w_db w) /\ operations (w_db w') = operations (w_db w) /\
    task_dependencies (w_db w') = task_dependencies (w_db w).
Proof.
  intros Hr Hmi. pose proof (keys_ok_reachable _ Hr) as Hk. destruct w as [d tick]. cbn [w_db] in *.
  destruct (ready_run m d limit mi tick (ko_tasks _ Hk) Hmi) as (r & w' & E & Hp & Hrow).
  pose proof Hp as (HF & _ & _ & Hm & Hd & Ho).
  assert (HF' : Forall2 (promoted m d) (tasks d) (tasks (w_db w'))) by exact HF.
  exists r, w'. eexists. split; [exact E|]. split_and!; [|exact Hrow|..|done|done|done].
  - eapply Forall2_impl; [exact HF'|]. unfold promoted. intros t t'. cbv beta.
    pose proof (promotable_true m d t) as Hpt. case_decide as Hc; destruct (promotable m d t); naive_solver.
  - rewrite sort_by_perm. apply NoDup_fmap_select.
    enough (t_id <$> tasks (w_db w') = t_id <$> tasks d) as -> by apply Hk.
    clear -HF'. induction HF' as [|t t' ts ts' Ht _ IH]; [done|]. cbn. rewrite IH. by rewrite (promoted_id _ _ _ _ Ht).
  - apply sort_by_sorted; [exact queue_order_total|exact queue_order_trans].
  - intros t. rewrite elem_of_sort_by, elem_of_select, andb_true_iff, bool_decide_eq_true.
    enough (Hrun : t ∈ tasks (w_db w') -> runnable m (w_db w') t = true <->
      t_mission t = m /\ effective t = true /\ dependencies_complete d (t_id t) = true) by naive_solver.
    intros Hin. destruct (proj1 (list_elem_of_lookup _ _) Hin) as [i Hi].
    destruct (Forall2_lookup_r _ _ _ _ _ HF' Hi) as (t0 & _ & Ht).
    rewrite (runnable_promoted m d w' t0 t Hp Ht).
    destruct (promoted_columns _ _ _ _ Ht) as [-> ->].
    rewrite (promoted_id _ _ _ _ Ht). unfold runnable. rewrite !andb_true_iff, bool_decide_eq_true. naive_solver.
Qed.

Lemma ready_tasks_exact_witness :
  (exists r w' queue, ready_tasks (H := demo_oracle) "m1" (Some 1) (demo_world 9) = (Ok r, w') /\
     (td_row <$> r) = limited (Some 1) queue) /\
  (t_status <$> tasks (w_db (demo_world 9))) = [T_COMPLETED; T_QUEUED; T_QUEUED] /\
  (t_id <$> (td_row <$> match (ready_tasks (H := demo_oracle) "m1" (Some 1) (demo_world 9)).1 with Ok r => r | Raise _ => [] end)) = [3].
Proof.
  split; [|vm_compute; auto].
  assert (Hm : exists mi, find_mission "m1" (w_db (demo_world 9)) = Some mi) by (eexists; vm_compute; reflexivity).
  destruct Hm as [mi Hm].
  destruct (ready_tasks_exact demo_oracle "m1" (Some 1) (demo_world 9) mi (demo_world_reachable 9) Hm)
    as (r & w' & queue & E & _ & Hrow & _).
  exists r, w', queue. split; [exact E|exact Hrow].
Defined.
