(* ===== verification/StoreAtomic.v ===== *)
(** * Atomicity: a method that raises leaves the database as it was

    [atomic m]: whenever [m] raises, the database is the one [m] started from.
    A transaction is atomic whatever it runs; before it a method only reads,
    and after it a method only reads rows that the transaction has seen. *)

From S2P Require Import Prelude Py Vocab States StoreData StoreTasks StoreOps StoreReview StoreLog StoreApi StoreDemo StoreLogs StoreKeys StoreDeps Lifecycle StoreAbstract.
From stdpp Require Import options.
Local Open Scope Z_scope.

Definition atomic {A} (m : DB A) : Prop := forall w, is_ok (m w).1 = false -> w_db (m w).2 = w_db w.
Definition succeeds {A} (m : DB A) : Prop := forall w, is_ok (m w).1 = true.

(** Rows once present stay present. *)
Definition rows_stay (d d' : database) : Prop :=
  (forall i, is_Some (find_task i d) -> is_Some (find_task i d')) /\
  (forall i, is_Some (find_mission i d) -> is_Some (find_mission i d')) /\
  (forall i, is_Some (find_command i d) -> is_Some (find_command i d')) /\
  (forall i, is_Some (find_process i d) -> is_Some (find_process i d')).

#[export] Instance rows_stay_preorder : PreOrder rows_stay.
Proof. split; unfold rows_stay; [done|]. intros d1 d2 d3. naive_solver. Qed.

Lemma is_Some_first {A} (p : A -> bool) l : is_Some (first p l) <-> exists a, a ∈ l /\ p a = true.
Proof.
  split; [intros [a Ha]; exists a; by apply first_Some|]. intros (a & Ha & Hp).
  destruct (first p l) eqn:E; [eauto|]. rewrite first_None in E. by rewrite E in Hp.
Qed.
Lemma first_stays_app {A} (p : A -> bool) l k : is_Some (first p l) -> is_Some (first p (l ++ k)).
Proof. rewrite !is_Some_first. set_solver. Qed.
Lemma first_stays_update {A} (p q : A -> bool) f l :
  (forall a, p (f a) = p a) -> is_Some (first p l) -> is_Some (first p (update_where q f l)).
Proof.
  intros Hf. rewrite !is_Some_first. intros (a & Ha & Hp). exists (if q a then f a else a).
  split; [apply elem_of_update_where; eauto|]. destruct (q a); [by rewrite Hf|done].
Qed.

Lemma stmt_rows_stay d d' : stmt d d' -> rows_stay d d'.
Proof.
  destruct 1; unfold rows_stay, find_task, find_mission, find_command, find_process; cbn; split_and!;
    auto using first_stays_app; intros i; apply first_stays_update; intros a; specialize (H a).
  - unfold t_identity in H. f_equal. congruence.
  - unfold m_identity in H. apply bool_decide_ext. injection H as -> _. done.
  - apply bool_decide_ext. by rewrite H.
  - apply bool_decide_ext. by rewrite H.
Qed.

Lemma keeps_rows_stay {A} (m : DB A) : keeps stmts m -> keeps (dbrel rows_stay) m.
Proof.
  intros Hm w. specialize (Hm w). unfold dbrel in *. induction Hm as [d|d d1 d' H1 _ IH]; [done|].
  etrans; [by apply stmt_rows_stay|done].
Qed.

(** ** Composition *)

Section atomic.
Context `{Oracle} `{SE : SqlErrors}.

Lemma atomic_transaction {A} (m : DB A) : atomic (_transaction m).
Proof. intros w. unfold _transaction. destruct (m w) as [[a|e] w']; [|done]. by destruct (sql_error w'). Qed.
Lemma atomic_keeps {A} (m : DB A) : keeps (dbrel eq) m -> atomic m.
Proof. intros Hm w _. symmetry. apply Hm. Qed.
Lemma atomic_statement {A} (f : database -> result exn (A * database)) : atomic (statement f).
Proof. intros w. unfold statement. by destruct (f (w_db w)) as [[a d]|e]. Qed.
Lemma atomic_read_bind {A B} (m : DB A) (f : A -> DB B) :
  keeps (dbrel eq) m -> (forall a, atomic (f a)) -> atomic (m ≫= f).
Proof.
  intros Hm Hf w. specialize (Hm w). unfold dbrel in Hm. unfold mbind, ST_bind.
  destruct (m w) as [[a|e] w']; cbn in *; [|done]. intros Hr. rewrite Hm. by apply Hf.
Qed.
(** After [m] has committed, [f] cannot raise. *)
Lemma atomic_then {A B} (m : DB A) (f : A -> DB B) :
  atomic m -> (forall w, wp m (fun a w' => is_ok (f a w').1 = true) w) -> atomic (m ≫= f).
Proof.
  intros Hm Hf w. specialize (Hm w). specialize (Hf w). unfold wp in Hf. unfold mbind, ST_bind.
  destruct (m w) as [[a|e] w']; cbn in *; [congruence|auto].
Qed.
Lemma wp_row {A} (o : database -> option A) e (Q : A -> world -> Prop) w :
  (is_Some (o (w_db w)) -> forall a, Q a w) -> wp (read o ≫= fun r => or_raise r e) Q w.
Proof. intros HQ. unfold wp, mbind, ST_bind, read, gets, or_raise. destruct (o (w_db w)) as [a|]; cbn; [by apply HQ|done]. Qed.
End atomic.

(** ** The methods *)

Section methods.
Context `{Oracle} `{SE : SqlErrors}.

Lemma wp_insert_mission_row m (Q : unit -> world -> Prop) w :
  (forall w', is_Some (find_mission (m_id m) (w_db w')) -> Q tt w') -> wp (insert_mission m) Q w.
Proof.
  intros HQ. unfold wp, insert_mission, statement. destruct (existsb _ _); [done|]. apply HQ.
  unfold find_mission. apply is_Some_first. exists m. cbn. rewrite bool_decide_true by done. set_solver.
Qed.
Lemma wp_insert_command_row c (Q : unit -> world -> Prop) w :
  (forall w', is_Some (find_command (c_id c) (w_db w')) -> Q tt w') -> wp (insert_command c) Q w.
Proof.
  intros HQ. unfold wp, insert_command, statement. destruct (existsb _ _); [done|]. apply HQ.
  unfold find_command. apply is_Some_first. exists c. cbn. rewrite bool_decide_true by done. set_solver.
Qed.

Ltac reads_only := unfold_helpers; solve_db_keeps.
Ltac rows_step :=
  cbv beta;
  match goal with
  | |- forall _, _ => intros ?
  | |- wp (let x := _ in _) _ _ => cbv zeta
  | |- wp (mret _) _ _ => apply wp_ret
  | |- wp (raise _) _ _ => apply wp_raise
  | |- wp (_transaction _) _ _ => apply wp_transaction
  | |- wp (if ?b then _ else _) _ _ => destruct b
  | |- wp (match find_command ?i ?d with _ => _ end) _ _ => destruct (find_command i d) eqn:?
  | |- wp (match ?x with _ => _ end) _ _ => destruct x
  | |- wp (raise_if _ _) _ _ => apply wp_raise_if; intros _
  | |- wp (_task_row _) _ _ => apply wp_row; intros ? ?
  | |- wp (_mission_row _) _ _ => apply wp_row; intros ? ?
  | |- wp (_managed_process_row _) _ _ => apply wp_row; intros ? ?
  | |- wp (get_command _) _ _ => apply wp_row; intros ? ?
  | |- wp (insert_mission _) _ _ => apply wp_insert_mission_row; intros ? ?
  | |- wp (insert_command _) _ _ => apply wp_insert_command_row; intros ? ?
  | |- wp (read (find_command _)) _ _ => apply wp_gets
  | |- wp (_ ≫= _) _ _ => apply wp_bind
  | |- wp _ _ _ => apply (wp_keeps (dbrel rows_stay)); [apply keeps_rows_stay; unfold_methods; solve_db_keeps|intros ? ? ?]
  end.

Lemma get_task_ok i w : is_Some (find_task i (w_db w)) -> is_ok (get_task i w).1 = true.
Proof. intros [t Ht]. unfold get_task, _task_row, mbind, ST_bind. cbn. by rewrite Ht. Qed.
Lemma get_mission_ok i w : is_Some (find_mission i (w_db w)) -> is_ok (get_mission i w).1 = true.
Proof. intros [t Ht]. unfold get_mission, _mission_row, mbind, ST_bind. cbn. by rewrite Ht. Qed.
Lemma get_command_ok i w : is_Some (find_command i (w_db w)) -> is_ok (get_command i w).1 = true.
Proof. intros [t Ht]. unfold get_command, mbind, ST_bind. cbn. by rewrite Ht. Qed.
Lemma get_process_ok i w : is_Some (find_process i (w_db w)) -> is_ok (get_managed_process i w).1 = true.
Proof. intros [t Ht]. unfold get_managed_process, _managed_process_row, mbind, ST_bind. cbn. by rewrite Ht. Qed.
Lemma stays_task i w w' : dbrel rows_stay w w' -> is_Some (find_task i (w_db w)) -> is_Some (find_task i (w_db w')).
Proof. intros Hw. apply Hw. Qed.
Lemma stays_mission i w w' : dbrel rows_stay w w' -> is_Some (find_mission i (w_db w)) -> is_Some (find_mission i (w_db w')).
Proof. intros Hw. apply Hw. Qed.
Lemma stays_command i w w' : dbrel rows_stay w w' -> is_Some (find_command i (w_db w)) -> is_Some (find_command i (w_db w')).
Proof. intros Hw. apply Hw. Qed.
Lemma stays_process i w w' : dbrel rows_stay w w' -> is_Some (find_process i (w_db w)) -> is_Some (find_process i (w_db w')).
Proof. intros Hw. apply Hw. Qed.
Lemma ok_then {A B} (m : DB A) (f : A -> B) w : is_ok (m w).1 = true -> is_ok ((m ≫= fun a => mret (f a)) w).1 = true.
Proof. unfold mbind, ST_bind. by destruct (m w) as [[a|e] w']. Qed.

(** Follow the row from where it was read to the end of the transaction. *)
Ltac row_there :=
  match goal with
  | H : is_Some ?x |- is_Some ?x => exact H
  | E : ?x = Some _ |- is_Some ?x => rewrite E; eexists; reflexivity
  | R : dbrel rows_stay ?w ?w' |- is_Some (find_task _ (w_db ?w')) => apply (stays_task _ w w' R); row_there
  | R : dbrel rows_stay ?w ?w' |- is_Some (find_mission _ (w_db ?w')) => apply (stays_mission _ w w' R); row_there
  | R : dbrel rows_stay ?w ?w' |- is_Some (find_command _ (w_db ?w')) => apply (stays_command _ w w' R); row_there
  | R : dbrel rows_stay ?w ?w' |- is_Some (find_process _ (w_db ?w')) => apply (stays_process _ w w' R); row_there
  end.
Ltac commits :=
  match goal with
  | |- is_ok ((mret _) _).1 = true => reflexivity
  | |- is_ok ((get_task _) _).1 = true => apply get_task_ok; row_there
  | |- is_ok ((get_mission _) _).1 = true => apply get_mission_ok; row_there
  | |- is_ok ((get_command _) _).1 = true => apply get_command_ok; row_there
  | |- is_ok ((get_managed_process _) _).1 = true => apply get_process_ok; row_there
  | |- is_ok ((_ ≫= _) _).1 = true => apply ok_then; commits
  end.

Ltac solve_atomic :=
  repeat match goal with
  | |- forall _, _ => intros ?
  | |- atomic (let x := _ in _) => cbv zeta
  | |- atomic (_transaction _) => apply atomic_transaction
  | |- atomic (match ?x with _ => _ end) => destruct x
  | |- atomic (_transaction _ ≫= _) => apply atomic_then; [apply atomic_transaction|]
  | |- atomic (_ ≫= _) => apply atomic_read_bind; [reads_only|]
  | |- wp _ _ _ => rows_step
  | |- is_ok (_ _).1 = true => solve [commits]
  | |- _ => solve [apply atomic_keeps; reads_only]
  end.

Lemma atomic_ignore {A} (m : DB A) : atomic m -> atomic (ignore m).
Proof. intros Hm. apply atomic_then; [exact Hm|]. intros w. unfold wp. by destruct (m w) as [[a|e] w']. Qed.

Lemma atomic_create_mission n ob c i p a cfg : atomic (create_mission n ob c i p a cfg).
Proof.
  unfold create_mission. do 3 (apply atomic_read_bind; [reads_only|intros ?]). cbv zeta.
  apply atomic_read_bind; [reads_only|intros mid]. solve_atomic.
Qed.
Lemma atomic_enqueue_command m p c : atomic (enqueue_command m p c).
Proof. unfold enqueue_command. apply atomic_read_bind; [destruct (c ≫= opt_str); reads_only|intros cid]. solve_atomic. Qed.
Lemma atomic_sync_review_hold_events m : atomic (sync_review_hold_events m).
Proof. unfold sync_review_hold_events. apply atomic_read_bind; [unfold review_hold; reads_only|intros h]. solve_atomic. Qed.

Lemma atomic_begin_operation i s t : atomic (begin_operation t i s).
Proof. unfold begin_operation. solve_atomic. Qed.

(** The one method that commits more than once. *)
Definition prunes (o : op) : bool := match o with Op_prune_plumbing_events _ _ _ _ _ _ => true | _ => false end.
Lemma run_op_atomic o : prunes o = false -> atomic (run_op o).
Proof.
  destruct o; cbn [run_op prunes]; try discriminate; intros _; try apply atomic_ignore;
    try first [apply atomic_create_mission|apply atomic_enqueue_command|apply atomic_sync_review_hold_events|apply atomic_begin_operation];
    unfold set_mission_status, add_task, propose_task, decide_proposal, add_dependency, ready_tasks,
    amend_task, set_task_priority, reorder_task, begin_iteration, finish_command,
    mark_operation_running, abort_prepared_operation, record_operation_process, record_operation_session,
    finish_operation, reconcile_interrupted_operations, release_declined_tasks,
    continue_task_after_provider_failure, verify_task, reject_task, record_verification_attempt,
    release_review_hold, record_events_pruned, refresh_runtime_event,
    set_mission_config_value, set_mission_config_values, set_rotation, record_pruned_operation_log,
    prepare_managed_process, mark_managed_process_running, finish_managed_process, set_task_status,
    record_runtime_event; solve_atomic.
Qed.
End methods.

(** C10: A store method that raises, be it for a check of its own or for an
    error of SQLite in a transaction, leaves the database exactly as it found
    it: nothing it did before the failure survives.  Only the pruning of old
    events commits more than once; when it raises, the other tables are as they
    were and the events that are gone are ones that pruning may delete. *)
Theorem failed_call_changes_nothing (O : Oracle) (F : SqlErrors) (o : op) (w : world) :
  is_ok (run_op o w).1 = false ->
  match o with
  | Op_prune_plumbing_events m now hk ck chunk budget =>
      reachable (w_db w) ->
      exists moment l, (forall n, now = Some n -> moment = n) /\ w_db (run_op o w).2 = set_events l (w_db w) /\ l `sublist_of` events (w_db w) /\
        forall e, e ∈ events (w_db w) -> e ∈ l \/ removable m (moment - hk) (moment - ck) l e
  | _ => w_db (run_op o w).2 = w_db w
  end.
Proof.
  destruct (prunes o) eqn:Ep; [|pose proof (run_op_atomic o Ep w); by destruct o].
  destruct o; try discriminate. intros _ Hr. destruct (prune_prunes mission_id now heartbeat_keep_seconds capacity_keep_seconds chunk budget w) as (moment & Hm & Hp).
  destruct (Hp (ko_events _ (keys_ok_reachable _ Hr))) as (l & El & Hsub & _ & Hin). exists moment, l. split; [done|]. split; [|done].
  rewrite <- El. unfold run_op, ignore, mbind, ST_bind. by destruct (prune_plumbing_events _ _ _ _ _ _ w) as [[]].
Qed.

(** A task with a dependency on an unknown task: the row inserted before the
    failing dependency is gone.  A pruning that meets a full disk in its second
    transaction: the first one stays. *)
Definition disk_full : SqlErrors :=
  {| sql_error w := if (length (events (w_db w)) <=? 5)%nat then Some (OperationalError "database or disk is full") else None |}.
Lemma failed_call_changes_nothing_witness :
  (exists w, is_ok (run_op (H := demo_oracle) (Op_add_task "m1" "p" "t" 0 None [1; 77] []) w).1 = false /\
    w_db (run_op (H := demo_oracle) (Op_add_task "m1" "p" "t" 0 None [1; 77] []) w).2 = w_db w /\
    length (tasks (w_db w)) = 2%nat) /\
  (let run := run_op (H := demo_oracle) (SE := disk_full) (Op_prune_plumbing_events "m3" (Some 5000) 60 60 1 100) log_world in
   is_ok run.1 = false /\ (length (events (w_db run.2)) < length (events (w_db log_world)))%nat /\ exists l, w_db run.2 = set_events l (w_db log_world)).
Proof.
  split.
  - assert (Hf : exists w, is_ok (run_op (H := demo_oracle) (Op_add_task "m1" "p" "t" 0 None [1; 77] []) w).1 = false /\
      length (tasks (w_db w)) = 2%nat) by (exists (demo_world 2); split; vm_compute; reflexivity).
    destruct Hf as (w & Hf & Hn). exists w. split; [exact Hf|]. split; [|exact Hn].
    exact (failed_call_changes_nothing demo_oracle no_sql_errors _ w Hf).
  - cbv zeta. assert (Hf : is_ok (run_op (H := demo_oracle) (SE := disk_full) (Op_prune_plumbing_events "m3" (Some 5000) 60 60 1 100) log_world).1 = false)
      by (vm_compute; reflexivity).
    split; [exact Hf|]. split; [vm_compute; lia|].
    destruct (failed_call_changes_nothing demo_oracle disk_full _ log_world Hf log_world_reachable) as (moment & l & _ & El & _). by exists l.
Defined.
