(* ===== verification/StoreStarts.v ===== *)
(** * Starting, queueing and recovering work

    When [begin_operation] succeeds and what it leaves behind; the command
    queue answers a repeated request with the row of the first; what
    [reconcile_interrupted_operations] does to an interrupted task. *)

From S2P Require Import Prelude Py Vocab States StoreData StoreTasks StoreOps StoreReview StoreLog StoreApi StoreDemo StoreKeys StoreDeps Lifecycle StoreAbstract StoreRefines StoreSpecs StoreAtomic.
From stdpp Require Import options.
Local Open Scope Z_scope.

Section begin.
Context `{Oracle} (d : database).

(** The documented preconditions of a new operation. *)
Definition may_begin (iteration : Z) (station : string) (t : task_row) (m : mission_row) : Prop :=
  1 <= iteration /\ station ≠ EmptyString /\ m_status m = M_RUNNING /\
  t_status t ∈ [T_QUEUED; T_READY; T_RUNNING] /\ effective t = true /\
  (forall o, o ∈ operations d -> o_task o = t_id t -> active_op o = false) /\
  dependencies_complete d (t_id t) = true.

Lemma guard_effective t :
  bool_decide (t_origin t = Or_agent_proposal) && negb (bool_decide (t_proposal t = P_ACCEPTED)) = negb (effective t).
Proof. unfold effective. destruct (t_origin t), (t_proposal t); reflexivity. Qed.

Lemma no_active_op i :
  first (active_op_of i) (operations d) = None <-> forall o, o ∈ operations d -> o_task o = i -> active_op o = false.
Proof.
  rewrite first_None. unfold active_op_of. split; intros Ha o Ho; specialize (Ha o Ho).
  - intros <-. by rewrite Z.eqb_refl in Ha.
  - destruct (Z.eqb_spec (o_task o) i); [by rewrite Ha|done].
Qed.

Lemma twp_uuid4_hex (Q : string -> world -> Prop) w :
  (forall n, Q (uuid4 n) (World (w_db w) (S n))) -> twp uuid4_hex Q w.
Proof. intros HQ. eexists _, _. split; [done|]. apply HQ. Qed.

Lemma find_operation_insert o i d0 :
  (forall o', o' ∈ operations d0 -> o_id o' ≠ o_id o) ->
  find_operation i (set_operations (operations d0 ++ [o]) d0) = if decide (i = o_id o) then Some o else find_operation i d0.
Proof.
  intros Hf. unfold find_operation, first. cbn. induction (operations d0) as [|x l IH]; cbn.
  - destruct (decide (i = o_id o)); [by rewrite bool_decide_true|by rewrite bool_decide_false].
  - destruct (decide (o_id x = i)) as [Hx|Hx].
    + rewrite bool_decide_true by done. rewrite decide_False; [done|]. intros ->. apply (Hf x); [by left|done].
    + rewrite bool_decide_false by done. apply IH. intros o' Ho'. apply Hf. by right.
Qed.

Lemma twp_insert_operation o (Q : unit -> world -> Prop) w :
  (forall o', o' ∈ operations (w_db w) -> o_id o' ≠ o_id o) ->
  (forall o', o' ∈ operations (w_db w) -> o_task o' = o_task o -> active_op o' = false) ->
  Q tt (World (set_operations (operations (w_db w) ++ [o]) (w_db w)) (w_tick w)) -> twp (insert_operation o) Q w.
Proof.
  intros Hf Ha HQ. eexists tt, _. split; [|exact HQ]. unfold insert_operation, statement.
  rewrite (existsb_none _ (operations (w_db w))) by (intros o' Ho'; apply bool_decide_eq_false; by apply Hf).
  rewrite (existsb_none (active_op_of (o_task o))), andb_false_r; [done|].
  intros o' Ho'. unfold active_op_of. destruct (Z.eqb_spec (o_task o') (o_task o)); [by apply Ha|done].
Qed.

Lemma begin_run tid it st t m tick :
  (forall o n, o ∈ operations d -> o_id o ≠ uuid4 n) ->
  find_task tid d = Some t -> find_mission (t_mission t) d = Some m -> may_begin it st t m ->
  twp (begin_operation tid it st) (fun id w' =>
    (exists now o', find_operation id (w_db w') = Some o' /\
      o' = Operation id (t_mission t) tid it st None None None None None O_PREPARED None None None "unknown" now now) /\
    (exists t', find_task tid (w_db w') = Some t' /\ t_status t' = T_RUNNING /\ t_pending t' = no_changes /\
       t_prompt t' = t_prompt (amended t)) /\
    (forall id', id' ≠ tid -> find_task id' (w_db w') = find_task id' d) /\
    (forall id', id' ≠ id -> find_operation id' (w_db w') = find_operation id' d) /\
    missions (w_db w') = missions d /\ task_dependencies (w_db w') = task_dependencies d) (World d tick).
Proof.
  intros Hu Ht Hm (G1 & G2 & G3 & G4 & G5 & G6 & G7). pose proof (find_task_id _ _ _ Ht) as Hid.
  unfold begin_operation. do 2 twp_step.
  { apply orb_false_intro; [lia|]. unfold truthy_str. by rewrite bool_decide_false. }
  do 2 twp_step. eapply twp_task_row; [done|]. twp_step. eapply twp_mission_row; [done|].
  do 2 twp_step; [by rewrite bool_decide_true by done|]. do 2 twp_step.
  { unfold is_in. by rewrite bool_decide_true. }
  do 2 twp_step; [by rewrite guard_effective, G5|]. do 2 twp_step.
  cbn [w_db]. rewrite (proj2 (no_active_op tid)) by (rewrite <- (find_task_id _ _ _ Ht); exact G6). twp_step.
  unfold _dependencies_complete. do 3 twp_step; [cbn [w_db]; by rewrite <- (find_task_id _ _ _ Ht), G7|]. twp_step.
  apply twp_when; intros Hp; [unfold _apply_pending_amendment; cbn [andb]; repeat twp_step|];
    (apply twp_bind, twp_uuid4_hex || apply twp_uuid4_hex); intros tk; repeat twp_step;
    (apply twp_insert_operation; cbn [w_db o_id o_task]; [intros o' Ho'; by apply Hu|intros o' Ho'; rewrite <- Hid; by apply G6|]);
    repeat twp_step; cbn [w_db].
  all: assert (Hfresh : forall o', o' ∈ operations d -> o_id o' ≠ uuid4 tk) by (intros o' Ho'; by apply Hu).
  all: split_and!; try reflexivity.
  all: try (intros id' Hne; lookups; by rewrite ?Hid, !decide_False by done).
  all: try (intros id' Hne; lookups; rewrite find_operation_insert by exact Hfresh; rewrite decide_False by done; by lookups).
  all: try (eexists _, _; split; [lookups; rewrite find_operation_insert by exact Hfresh; by rewrite decide_True|reflexivity]).
  all: eexists; (split; [lookups; rewrite ?Hid, !decide_True, Ht by done; reflexivity|]).
  - done.
  - unfold has_changes in Hp. bool_to_prop. unfold amended. cbn. by rewrite Hp.
Qed.

(** A call that returns has passed every guard. *)
Lemma begin_guards tid it st t m tick :
  find_task tid d = Some t -> find_mission (t_mission t) d = Some m ->
  wp (begin_operation tid it st) (fun _ _ => may_begin it st t m) (World d tick).
Proof.
  intros Ht Hm. pose proof (find_task_id _ _ _ Ht) as Hid. unfold begin_operation.
  apply wp_bind, wp_raise_if. intros G1. apply wp_transaction, wp_bind, wp_task_row. cbn [w_db]. intros t1 Ht1 _ _.
  assert (t1 = t) as -> by congruence. apply wp_bind, wp_mission_row. intros m1 Hm1 _.
  assert (m1 = m) as -> by (cbn [w_db] in Hm1; congruence).
  apply wp_bind, wp_raise_if. intros G2. apply wp_bind, wp_raise_if. intros G3. apply wp_bind, wp_raise_if. intros G4.
  apply wp_bind, wp_read. cbn [w_db]. destruct (first _ _) eqn:G5; [apply wp_raise|].
  unfold _dependencies_complete. apply wp_bind, wp_read, wp_bind, wp_raise_if. cbn [w_db]. intros G6.
  apply (wp_keeps (fun _ _ => True)); [by intros ?|]. intros ? ? _.
  rewrite guard_effective in G4. rewrite <- Hid, no_active_op in G5. rewrite <- Hid in G6.
  bool_to_prop. split_and!; try done.
  - unfold truthy_str in *. by bool_to_prop.
  - unfold is_in in *. by bool_to_prop.
Qed.
End begin.

(** C8: [begin_operation] on a known task succeeds exactly when the iteration
    is positive, the station is named, the mission is RUNNING, the task is
    QUEUED, READY or RUNNING, is the operator's or accepted, has no unresolved
    operation and waits for nothing.  When it refuses, the database is
    unchanged.  When it succeeds it records one PREPARED operation with the given
    identity under a new id, the task is RUNNING with its pending amendment
    applied, and no other task, operation, mission or dependency changes. *)
Theorem begin_operation_exact (O : Oracle) (tid it : Z) (st : string) (w : world) (t : task_row) (m : mission_row) :
  (forall o n, o ∈ operations (w_db w) -> o_id o ≠ uuid4 n) ->
  find_task tid (w_db w) = Some t -> find_mission (t_mission t) (w_db w) = Some m ->
  (~ may_begin (w_db w) it st t m -> exists e w', begin_operation tid it st w = (Raise e, w') /\ w_db w' = w_db w) /\
  (may_begin (w_db w) it st t m -> exists id w', begin_operation tid it st w = (Ok id, w') /\
    (exists now, find_operation id (w_db w') =
       Some (Operation id (t_mission t) tid it st None None None None None O_PREPARED None None None "unknown" now now)) /\
    (exists t', find_task tid (w_db w') = Some t' /\ t_status t' = T_RUNNING /\ t_pending t' = no_changes /\
       t_prompt t' = default (t_prompt t) (ch_prompt (t_pending t))) /\
    (forall id', id' ≠ tid -> find_task id' (w_db w') = find_task id' (w_db w)) /\
    (forall id', id' ≠ id -> find_operation id' (w_db w') = find_operation id' (w_db w)) /\
    missions (w_db w') = missions (w_db w) /\ task_dependencies (w_db w') = task_dependencies (w_db w)).
Proof.
  intros Hu Ht Hm. destruct w as [d tick]. cbn [w_db] in *. split.
  - intros Hno. pose proof (begin_guards d tid it st t m tick Ht Hm) as Hg.
    pose proof (atomic_begin_operation it st tid (World d tick)) as Ha. unfold wp in Hg.
    destruct (begin_operation tid it st (World d tick)) as [[id|e] w'] eqn:E; [done|].
    exists e, w'. split; [done|]. by apply Ha.
  - intros Hmay. destruct (begin_run d tid it st t m tick Hu Ht Hm Hmay) as (id & w' & E & (now & o' & Ho & ->) & (t' & Ht' & Hs & Hp & Hpr) & Hrest).
    exists id, w'. split; [done|]. split; [eauto|]. split; [|exact Hrest]. exists t'. split_and!; try done.
    rewrite Hpr. unfold amended, amend_columns. by destruct (t_pending t) as [[] [] [] []].
Qed.

Lemma begin_operation_exact_witness :
  exists w id w', begin_operation (H := demo_oracle) 1 1 "codex" w = (Ok id, w') /\ find_operation id (w_db w) = None /\
    (exists t', find_task 1 (w_db w') = Some t' /\ t_status t' = T_RUNNING) /\ operations (w_db w) = [].
Proof.
  assert (Hw : exists w t m, find_task 1 (w_db w) = Some t /\ find_mission (t_mission t) (w_db w) = Some m /\
    m_status m = M_RUNNING /\ t_status t = T_READY /\ effective t = true /\ operations (w_db w) = [] /\
    dependencies_complete (w_db w) (t_id t) = true).
  { exists (demo_world 4). do 2 eexists. split_and!; vm_compute; reflexivity. }
  destruct Hw as (w & t & m & Ht & Hm & Hs & Hr & He & Ho & Hd).
  assert (Hmay : may_begin (w_db w) 1 "codex" t m).
  { unfold may_begin. rewrite Ho, Hr. split_and!; try done; try lia; set_solver. }
  assert (Hu : forall o n, o ∈ operations (w_db w) -> o_id o ≠ uuid4 (Oracle := demo_oracle) n) by (rewrite Ho; set_solver).
  destruct (proj2 (begin_operation_exact demo_oracle 1 1 "codex" w t m Hu Ht Hm) Hmay) as (id & w' & E & _ & (t' & Ht' & Hs' & _) & _).
  exists w, id, w'. split; [exact E|]. split; [unfold find_operation; rewrite Ho; reflexivity|].
  split; [exists t'; split; [exact Ht'|exact Hs']|exact Ho].
Defined.

(** ** Recovery after a controller that died *)

Lemma twp_for_fold_split {E S A B} (I : list A -> list A -> B -> S -> Prop) (l : list A) (f : B -> A -> ST E S B) b s :
  I [] l b s -> (forall h x r b s', I h (x :: r) b s' -> twp (f b x) (fun b' => I (h ++ [x]) r b') s') ->
  twp (for_fold l f b) (fun b' => I l [] b') s.
Proof.
  intros HI Hf. enough (Hgen : forall h, I h l b s -> twp (for_fold l f b) (fun b' => I (h ++ l) [] b') s) by (by apply (Hgen [])).
  clear HI. revert b s.
  induction l as [|x l IH]; intros b s h HI; cbn; [rewrite app_nil_r; by apply twp_ret|].
  apply twp_bind. eapply twp_mono; [|by apply Hf]. intros b' s' HI'.
  replace (h ++ x :: l) with ((h ++ [x]) ++ l) by (by rewrite <- app_assoc). by apply IH.
Qed.

Lemma existsb_select {A} (p q : A -> bool) l : existsb q (select p l) = existsb (fun a => p a && q a) l.
Proof. unfold select. induction l as [|x l IH]; cbn; [done|]. destruct (p x); cbn; by rewrite IH. Qed.

Section reconcile.
Context `{Oracle} (mid : string) (d : database).

(** The operations whose outcome was not committed. *)
Definition interrupted (o : operation_row) : bool := bool_decide (o_mission o = mid) && active_op o.

(** The statuses once the operations [done] have been handled. *)
Definition operation_after (handled : list operation_row) (o : operation_row) : OperationStatus :=
  if decide (o_id o ∈ o_id <$> handled) then O_UNCERTAIN else o_status o.
Definition task_after (handled : list operation_row) (t : task_row) : TaskStatus :=
  if existsb (fun o => o_task o =? t_id t) handled then T_BLOCKED else t_status t.

Record reconciling (handled rest : list operation_row) (count : Z) (w : world) : Prop := {
  rc_count : count = Z.of_nat (length handled);
  rc_rows : rest ⊆ operations d;
  rc_operations : forall o, o ∈ operations d ->
    o_status <$> find_operation (o_id o) (w_db w) = Some (operation_after handled o);
  rc_tasks : forall t, t ∈ tasks d -> t_status <$> find_task (t_id t) (w_db w) = Some (task_after handled t);
}.

Lemma reconciling_step handled x rest count w tx now now' :
  reconciling handled (x :: rest) count w ->
  find_task (o_task x) (w_db w) = Some tx ->
  reconciling (handled ++ [x]) rest (count + 1) (World (update_tasks (fun t => t_id t =? t_id tx) (fun t => set_t_updated_at now (set_t_status T_BLOCKED t))
     (set_operations (update_where (fun o => bool_decide (o_id o = o_id x)) (fun o => set_o_updated_at now (set_o_status O_UNCERTAIN o)) (operations (w_db w))) (w_db w))) now').
Proof.
  intros [Hc Hr Ho Ht] Htx. pose proof (find_task_id _ _ _ Htx) as Hid. split.
  - rewrite length_app. cbn. lia.
  - set_solver.
  - intros o Hin. lookups. specialize (Ho o Hin). unfold operation_after in *.
    destruct (decide (o_id o = o_id x)) as [E|E].
    + rewrite (decide_True _ _ (P := o_id o ∈ _)) by (rewrite fmap_app, E; set_solver).
      destruct (find_operation (o_id o) (w_db w)); done.
    + rewrite Ho. f_equal. apply decide_ext. rewrite fmap_app, elem_of_app. cbn. rewrite list_elem_of_singleton. naive_solver.
  - intros t Hin. lookups. specialize (Ht t Hin). unfold task_after in *. rewrite existsb_app, Hid. cbn.
    rewrite orb_false_r. destruct (decide (t_id t = o_task x)) as [E|E].
    + rewrite <- E, Z.eqb_refl, orb_true_r. destruct (find_task (t_id t) (w_db w)); done.
    + rewrite Ht, (proj2 (Z.eqb_neq (o_task x) (t_id t))), orb_false_r by done. done.
Qed.

Lemma reconciling_event h r n d0 v evs tick tick' :
  reconciling h r n (World d0 tick') -> reconciling h r n (World (set_event_seq v (set_events evs d0)) tick).
Proof. by intros []. Qed.

Lemma reconcile_run mi tick :
  NoDup (t_id <$> tasks d) -> NoDup (o_id <$> operations d) -> find_mission mid d = Some mi ->
  (forall o, o ∈ operations d -> exists t, t ∈ tasks d /\ t_id t = o_task o) ->
  twp (reconcile_interrupted_operations mid) (fun n w' => reconciling (select interrupted (operations d)) [] n w') (World d tick).
Proof.
  intros Hnt Hno Hm Hop. unfold reconcile_interrupted_operations. do 2 twp_step. eapply twp_mission_row; [done|].
  do 2 twp_step. cbn [w_db].
  apply (twp_for_fold_split reconciling).
  - split; [done| | |].
    + intros o [Ho _]%elem_of_select. done.
    + intros o Ho. cbn [w_db]. by rewrite find_operation_elem.
    + intros t Ht. cbn [w_db]. by rewrite find_task_elem.
  - intros h x r n w' Hi. destruct (Hop x) as (t & Ht & Hid); [apply (rc_rows _ _ _ _ Hi); left|].
    pose proof (rc_tasks _ _ _ _ Hi t Ht) as Htx. rewrite Hid in Htx.
    destruct (find_task (o_task x) (w_db w')) as [tx|] eqn:Etx; [|done].
    repeat twp_step. eapply twp_task_row; [done|]. repeat twp_step. apply (reconciling_event _ _ _ _ _ _ _ tick1). by apply (reconciling_step h x r n w' tx).
Qed.
End reconcile.

(** [reconcile_interrupted_operations], which the controller runs when it
    takes over a mission, always succeeds on a reachable database.  It turns
    exactly the mission's unresolved operations into UNCERTAIN, counts them, sets
    exactly their tasks to BLOCKED, and leaves no unresolved operation. *)
Theorem reconcile_blocks_interrupted (O : Oracle) (mid : string) (w : world) (mi : mission_row) :
  reachable (w_db w) -> find_mission mid (w_db w) = Some mi ->
  exists n w', reconcile_interrupted_operations mid w = (Ok n, w') /\
    n = Z.of_nat (length (select (interrupted mid) (operations (w_db w)))) /\
    (forall o, o ∈ operations (w_db w) -> o_status <$> find_operation (o_id o) (w_db w') =
       Some (if interrupted mid o then O_UNCERTAIN else o_status o)) /\
    (forall t, t ∈ tasks (w_db w) -> t_status <$> find_task (t_id t) (w_db w') =
       Some (if existsb (fun o => interrupted mid o && (o_task o =? t_id t)) (operations (w_db w)) then T_BLOCKED else t_status t)).
Proof.
  intros Hr Hm. pose proof (keys_ok_reachable _ Hr) as Hk. destruct (db_ok_reachable _ Hr) as [Hd Hok]. destruct w as [d tick]. cbn [w_db] in *.
  destruct (reconcile_run mid d mi tick (ko_tasks _ Hk) (ko_operations _ Hk) Hm) as (n & w' & E & Hi).
  { intros o Ho. pose proof (find_operation_elem d o (ko_operations _ Hk) Ho) as Hfo.
    destruct (lo_op_task _ Hok (o_id o) (a_op o)) as (r & Hr' & _); [by rewrite life_of_op, Hfo|].
    rewrite life_of_task in Hr'. destruct (find_task _ d) as [t|] eqn:Et; [|done]. exists t.
    unfold find_task in Et. apply first_Some in Et as [? ?]. by bool_to_prop. }
  exists n, w'. split; [done|]. split; [apply Hi|]. split.
  - intros o Ho. rewrite (rc_operations _ _ _ _ _ Hi o Ho). f_equal. unfold operation_after.
    destruct (interrupted mid o) eqn:Ei.
    + apply decide_True. by apply list_elem_of_fmap_2, elem_of_select.
    + apply decide_False. intros (o' & Eo & [Ho' Ei']%elem_of_select)%list_elem_of_fmap.
      assert (o = o') as -> by (by eapply (NoDup_key_eq o_id); [apply Hk|..]). congruence.
  - intros t Ht. rewrite (rc_tasks _ _ _ _ _ Hi t Ht). f_equal. unfold task_after.
    by rewrite existsb_select.
Qed.

Lemma reconcile_blocks_interrupted_witness :
  exists w n w', reconcile_interrupted_operations (H := demo_oracle) "m1" w = (Ok n, w') /\ n = 1 /\
    length (operations (w_db w)) = 1%nat.
Proof.
  assert (Hw : exists w mi, reachable (w_db w) /\ find_mission "m1" (w_db w) = Some mi /\
    length (select (interrupted "m1") (operations (w_db w))) = 1%nat /\ length (operations (w_db w)) = 1%nat).
  { exists (demo_world 7). eexists. split; [apply demo_world_reachable|]. split_and!; vm_compute; reflexivity. }
  destruct Hw as (w & mi & Hr & Hm & Hn & Hl).
  destruct (reconcile_blocks_interrupted demo_oracle "m1" w mi Hr Hm) as (n & w' & E & En & _).
  exists w, n, w'. split; [exact E|]. rewrite En, Hn. split; [reflexivity|exact Hl].
Defined.

(** The operator cancels a task while its provider runs, and the controller
    dies before the exit is committed: recovery sets the CANCELLED task to
    BLOCKED, a move [TASK_TRANSITIONS] rules out, while [finish_operation] would
    have kept the cancellation. *)
Theorem reconcile_revives_cancelled_task :
  let cancelled := run_ops (H := demo_oracle) (take 6 demo_script ++ [Op_set_task_status 1 "CANCELLED"]) (World empty_database 0) in
  let recovered := run_op (H := demo_oracle) (Op_reconcile_interrupted_operations "m1") cancelled in
  let finished := run_op (H := demo_oracle) (Op_finish_operation "id9" 143 None) cancelled in
  t_status <$> find_task 1 (w_db cancelled) = Some T_CANCELLED /\ TASK_TRANSITIONS T_CANCELLED = [] /\
  t_status <$> find_task 1 (w_db finished.2) = Some T_CANCELLED /\
  t_status <$> find_task 1 (w_db recovered.2) = Some T_BLOCKED.
Proof. vm_compute. auto. Qed.

(** ** The command queue *)

Section commands.
Context `{Oracle}.

Lemma find_command_insert c i d :
  find_command (c_id c) d = None ->
  find_command i (set_commands (commands d ++ [c]) d) = if decide (i = c_id c) then Some c else find_command i d.
Proof.
  unfold find_command, first. cbn. induction (commands d) as [|x l IH]; cbn; intros Hn.
  - destruct (decide (i = c_id c)); [by rewrite bool_decide_true|by rewrite bool_decide_false].
  - destruct (decide (c_id x = c_id c)) as [Hx|Hx]; [by rewrite bool_decide_true in Hn|].
    rewrite bool_decide_false in Hn by done. destruct (decide (c_id x = i)) as [Hi|Hi].
    + rewrite bool_decide_true by done. rewrite decide_False; [done|congruence].
    + rewrite bool_decide_false by done. by apply IH.
Qed.
Lemma find_command_update i i' f d :
  (forall c, c_id (f c) = c_id c) ->
  find_command i' (set_commands (update_where (fun c => bool_decide (c_id c = i)) f (commands d)) d) =
  if decide (i' = i) then f <$> find_command i' d else find_command i' d.
Proof. intros Hf. by apply (first_update c_id). Qed.

Lemma id_pattern_opt_str cid : id_pattern cid = true -> opt_str cid = Some cid.
Proof. unfold id_pattern, opt_str. intros Hp. bool_to_prop. by case_match. Qed.

(** A request whose id is in the table is answered from it. *)
Lemma enqueue_known m p cid w c :
  id_pattern cid = true -> find_command cid (w_db w) = Some c ->
  (is_Some (find_mission m (w_db w)) /\ c_mission c = m /\ json_text_eqb (c_payload c) (JObj p) = true ->
     exists tick, enqueue_command m p (Some cid) w = (Ok c, World (w_db w) tick)) /\
  (c_mission c ≠ m \/ json_text_eqb (c_payload c) (JObj p) = false ->
     exists e tick, enqueue_command m p (Some cid) w = (Raise e, World (w_db w) tick)).
Proof.
  intros Hp Hc. unfold enqueue_command, _transaction, _mission_row, get_command, or_raise, raise_if, read, gets, utc_now, raise, mbind, ST_bind, mret, ST_ret.
  cbn [option_bind sql_error no_sql_errors]. rewrite (id_pattern_opt_str _ Hp), Hp. cbn [negb w_db].
  split.
  - intros ([mi Hm] & Hmc & Hj). rewrite Hm. cbn [w_db]. rewrite Hc. cbn beta iota zeta. rewrite Hmc, Hj, bool_decide_true by done.
    cbn [negb orb w_db]. rewrite Hc. eauto.
  - intros Hbad. destruct (find_mission m (w_db w)); [|eauto]. cbn [w_db]. rewrite Hc.
    assert (negb (bool_decide (c_mission c = m)) || negb (json_text_eqb (c_payload c) (JObj p)) = true) as ->; [|eauto].
    destruct Hbad as [Hne| ->]; [by rewrite bool_decide_false|by rewrite orb_true_r].
Qed.

(** The accepted request is in the table. *)
Lemma enqueue_stores m p cid row w w1 :
  id_pattern cid = true -> enqueue_command m p (Some cid) w = (Ok row, w1) ->
  find_command cid (w_db w1) = Some row /\ is_Some (find_mission m (w_db w1)) /\
  c_mission row = m /\ json_text_eqb (c_payload row) (JObj p) = true.
Proof.
  intros Hp. unfold enqueue_command, _transaction, _mission_row, get_command, or_raise, raise_if, read, gets, utc_now, raise, mbind, ST_bind, mret, ST_ret.
  cbn [option_bind sql_error no_sql_errors]. rewrite (id_pattern_opt_str _ Hp), Hp. cbn [negb w_db].
  destruct (find_mission m (w_db w)) as [mi|] eqn:Hm; [|done]. cbn [w_db].
  destruct (find_command cid (w_db w)) as [c|] eqn:Hc.
  - destruct (negb _ || negb _) eqn:Eb; [done|]. cbn [w_db]. rewrite Hc. intros [= <- <-]. cbn [w_db].
    apply orb_false_iff in Eb as [Eb1 Eb2]. apply negb_false_iff in Eb1, Eb2. apply bool_decide_eq_true in Eb1. eauto.
  - unfold insert_command, statement, mission_event, _event, utc_now, write, modify, mbind, ST_bind. cbn [c_id w_db].
    rewrite existsb_none by (intros c Hin; unfold find_command in Hc; rewrite first_None in Hc; by apply (Hc c)).
    cbn [w_db w_tick]. intros E.
    assert (Hf : forall v evs cmd d0, find_command cid d0 = None -> c_id cmd = cid ->
      find_command cid (set_event_seq v (set_events evs (set_commands (commands d0 ++ [cmd]) d0))) = Some cmd).
    { intros v evs cmd d0 Hn Hid. change (find_command cid (set_commands (commands d0 ++ [cmd]) d0) = Some cmd).
      rewrite find_command_insert by (by rewrite Hid). by rewrite decide_True. }
    rewrite Hf in E by done. injection E as <- <-. cbn [w_db c_mission c_payload]. rewrite Hf by done.
    split_and!; [done|by exists mi|done|]. unfold json_text_eqb. by apply json_eqb_eq.
Qed.
End commands.

(** A command id names one request.  Once [enqueue_command] has accepted
    an id, the same request under that id is answered with the stored row and
    changes nothing, and any other request under it is refused and changes
    nothing. *)
Theorem enqueue_command_once (O : Oracle) (m : string) (p : dict) (cid : string) (row : command_row) (w w1 : world) :
  truthy_str cid = true -> enqueue_command m p (Some cid) w = (Ok row, w1) ->
  (exists w2, enqueue_command m p (Some cid) w1 = (Ok row, w2) /\ w_db w2 = w_db w1) /\
  (forall m' p', m' ≠ m \/ json_text_eqb (JObj p) (JObj p') = false ->
     exists e w2, enqueue_command m' p' (Some cid) w1 = (Raise e, w2) /\ w_db w2 = w_db w1).
Proof.
  intros Ht E. assert (Hp : id_pattern cid = true).
  { destruct (id_pattern cid) eqn:Hp; [done|]. exfalso. revert E. unfold enqueue_command, opt_str. cbn [mbind option_bind]. rewrite Ht.
    unfold mbind, ST_bind, mret, ST_ret, raise_if. by rewrite Hp. }
  destruct (enqueue_stores _ _ _ _ _ _ Hp E) as (Hc & Hm & Hmc & Hj). split.
  - destruct (proj1 (enqueue_known m p cid w1 row Hp Hc)) as [tick E2]; [done|]. eauto.
  - intros m' p' Hbad. destruct (proj2 (enqueue_known m' p' cid w1 row Hp Hc)) as (e & tick & E2); [|eauto].
    destruct Hbad as [Hne|Hne]; [left; congruence|right]. unfold json_text_eqb in *. apply json_eqb_eq in Hj. by rewrite Hj.
Qed.

Lemma enqueue_command_once_witness :
  exists w w2 row, enqueue_command (H := demo_oracle) "m1" [("action", JStr "pause")]%string (Some "c-1"%string) w = (Ok row, w2) /\
    w_db w2 = w_db w /\ length (commands (w_db w)) = 1%nat.
Proof.
  assert (He : exists w0 row w1, enqueue_command (H := demo_oracle) "m1" [("action", JStr "pause")]%string (Some "c-1"%string) w0 = (Ok row, w1) /\
    length (commands (w_db w1)) = 1%nat).
  { exists (demo_world 1). do 2 eexists. split; vm_compute; reflexivity. }
  destruct He as (w0 & row & w1 & E & Hl).
  destruct (proj1 (enqueue_command_once demo_oracle "m1" _ "c-1" row w0 w1 eq_refl E)) as (w2 & E2 & Hd).
  exists w1, w2, row. split; [exact E2|]. split; [exact Hd|exact Hl].
Defined.
