(* ===== verification/Capacity.v ===== *)
(** * Provider capacity ([capacity.py])

    A provider describes its capacity as a list of scopes; [decide] answers
    whether the provider may be used now and, if not, when to ask again.
    [decide] writes [ready] and [reason] into the scope objects of the snapshot
    it is given, so the scopes of a snapshot are cells of one list and a
    decision refers to them by position (each object occurs once in its
    snapshot). *)

From S2P Require Import Prelude Py.
From stdpp Require Import options.
Local Open Scope Z_scope.

(** ** Vocabulary *)

Definition PROVIDER_CODEX : string := "codex".
Definition PROVIDER_CLAUDE : string := "claude".
Definition PROVIDER_COPILOT : string := "copilot".
Definition PROVIDER_KILO : string := "kilo".
Definition PROVIDER_OPENCODE : string := "opencode".
Definition PROVIDER_MINIMAX : string := "minimax".
Definition PROVIDER_ZAI : string := "zai".
Definition ALL_PROVIDERS : list string :=
  [PROVIDER_CLAUDE; PROVIDER_CODEX; PROVIDER_COPILOT; PROVIDER_KILO; PROVIDER_MINIMAX; PROVIDER_OPENCODE; PROVIDER_ZAI].

Definition SCOPE_AUTO : string := "auto".
Definition SCOPE_5H : string := "5h".
Definition SCOPE_WEEKLY : string := "weekly".
Definition SCOPE_MONTHLY : string := "monthly".
Definition SCOPE_BALANCE : string := "balance".
Definition SCOPE_BUDGET : string := "budget".
Definition SCOPE_BYOK : string := "byok".
Definition SCOPE_UNGATED : string := "ungated".
Definition SCOPE_SUBSCRIPTION : string := "subscription".
Definition ALL_SCOPES : list string :=
  [SCOPE_AUTO; SCOPE_5H; SCOPE_WEEKLY; SCOPE_MONTHLY; SCOPE_BALANCE; SCOPE_BUDGET; SCOPE_BYOK; SCOPE_UNGATED; SCOPE_SUBSCRIPTION].

Definition PROVIDER_SCOPES : list (string * list string) := [
  (PROVIDER_CODEX, [SCOPE_AUTO; SCOPE_5H; SCOPE_WEEKLY]);
  (PROVIDER_CLAUDE, [SCOPE_AUTO; SCOPE_5H; SCOPE_WEEKLY]);
  (PROVIDER_COPILOT, [SCOPE_AUTO; SCOPE_MONTHLY]);
  (PROVIDER_KILO, [SCOPE_AUTO; SCOPE_BALANCE; SCOPE_BUDGET; SCOPE_BYOK; SCOPE_UNGATED]);
  (PROVIDER_OPENCODE, [SCOPE_AUTO; SCOPE_BALANCE; SCOPE_BUDGET; SCOPE_BYOK; SCOPE_UNGATED]);
  (PROVIDER_MINIMAX, [SCOPE_AUTO; SCOPE_5H; SCOPE_WEEKLY]);
  (PROVIDER_ZAI, [SCOPE_AUTO; SCOPE_5H; SCOPE_WEEKLY]) ].

Module CapacityKind.
Definition RESET_WINDOW : string := "reset_window".
Definition BALANCE : string := "balance".
Definition BUDGET : string := "budget".
Definition UNGATED : string := "ungated".
Definition UNKNOWN : string := "unknown".
Definition OPAQUE : string := "opaque".
End CapacityKind.
Definition ALL_KINDS : list string :=
  [CapacityKind.RESET_WINDOW; CapacityKind.BALANCE; CapacityKind.BUDGET; CapacityKind.UNGATED; CapacityKind.UNKNOWN; CapacityKind.OPAQUE].

(** ** Scopes, snapshots and decisions *)

Record CapacityScope : Type := Scope {
  s_name : string;
  s_kind : string;
  s_ready : bool;
  s_reason : string;
  s_remaining_percent : option pyfloat;
  s_reset_epoch : option Z;
  s_resets_at : json;
  s_remaining_amount : option pyfloat;
  s_total_amount : option pyfloat;
  s_currency : option string;
  s_label : option string;
  s_source : string;
  s_extras : dict;
}.

(** [s.ready = False; s.reason = reason] *)
Definition mark_blocked (reason : string) (s : CapacityScope) : CapacityScope :=
  Scope (s_name s) (s_kind s) false reason (s_remaining_percent s) (s_reset_epoch s) (s_resets_at s)
    (s_remaining_amount s) (s_total_amount s) (s_currency s) (s_label s) (s_source s) (s_extras s).

Record ProviderSnapshot : Type := Snapshot {
  ps_provider : string;
  ps_available : bool;
  ps_reason : string;
  ps_source : string;
  ps_selected_model : option string;
  ps_scopes : list CapacityScope;
  ps_model_scopes : list CapacityScope;
}.
Definition set_ps_scopes (v : list CapacityScope) (p : ProviderSnapshot) : ProviderSnapshot :=
  Snapshot (ps_provider p) (ps_available p) (ps_reason p) (ps_source p) (ps_selected_model p) v (ps_model_scopes p).

(** [d_scopes] and [d_exhausted] are positions in the snapshot's scopes. *)
Record UsageDecision : Type := Decision_ {
  d_provider : string;
  d_usable : bool;
  d_reason : string;
  d_wait_until : option Z;
  d_scopes : list nat;
  d_exhausted : list nat;
}.

(** ** Validation of the requested scope *)

Definition valid_scopes_for_provider (provider : string) : list string :=
  match List.find (fun kv => bool_decide (kv.1 = provider)) PROVIDER_SCOPES with
  | Some kv => kv.2
  | None => [SCOPE_AUTO]
  end.
Definition is_known_scope (value : string) : bool := bool_decide (value ∈ ALL_SCOPES).
Definition validate_scope (provider scope : string) : result string string :=
  if negb (is_known_scope scope) then Raise ("invalid --scope: " +:+ scope)
  else if negb (bool_decide (scope ∈ valid_scopes_for_provider provider))
  then Raise ("--scope '" +:+ scope +:+ "' is not valid for " +:+ provider +:+ " (use one of: " +:+
         join ", " (sort_by str_leb (valid_scopes_for_provider provider)) +:+ ")")
  else Ok scope.

(** The positions of the scopes the argument selects. *)
Definition effective_scopes (snapshot : ProviderSnapshot) (scope : string) : list nat :=
  if bool_decide (scope = SCOPE_AUTO) then seq 0 (length (ps_scopes snapshot))
  else (fun iv => iv.1) <$> List.filter (fun iv => bool_decide (s_name iv.2 = scope)) (zip (seq 0 (length (ps_scopes snapshot))) (ps_scopes snapshot)).

(** ** The decision *)

(** [(is_blocked, reason, future_wait_epoch)] *)
Definition _scope_blocked (scope : CapacityScope) (min_percent min_amount : pyfloat) (now : Z) : bool * string * option Z :=
  let kind := s_kind scope in
  if bool_decide (kind = CapacityKind.UNGATED) then (false, EmptyString, None)
  else if bool_decide (kind = CapacityKind.UNKNOWN) then (true, "inconclusive-usage"%string, None)
  else if bool_decide (kind = CapacityKind.OPAQUE) then (false, EmptyString, None)
  else if bool_decide (kind = CapacityKind.RESET_WINDOW) then
    match s_remaining_percent scope with
    | None => (true, "inconclusive-usage"%string, None)
    | Some rem =>
        if match s_reset_epoch scope with Some e => e <=? now | None => false end then (false, EmptyString, None)
        else if fle rem min_percent then (true, "rate-limited"%string, s_reset_epoch scope)
        else (false, EmptyString, None)
    end
  else if bool_decide (kind = CapacityKind.BUDGET) then
    match s_remaining_percent scope with
    | None => (true, "inconclusive-usage"%string, None)
    | Some rem =>
        if match s_reset_epoch scope with Some e => e <=? now | None => false end then (false, EmptyString, None)
        else if fle rem min_percent then (true, "budget-exhausted"%string, s_reset_epoch scope)
        else (false, EmptyString, None)
    end
  else if bool_decide (kind = CapacityKind.BALANCE) then
    match s_remaining_amount scope with
    | None => (true, "inconclusive-usage"%string, None)
    | Some amount => if flt amount min_amount then (true, "insufficient-balance"%string, None) else (false, EmptyString, None)
    end
  else (true, "unsupported-scope"%string, None).

Definition _combined_block_reason (blocked : list CapacityScope) : string :=
  match blocked with
  | [] => "blocked"
  | [s] => if truthy_str (s_reason s) then s_reason s else "blocked"
  | _ =>
      let all_of k := forallb (fun s => bool_decide (s_kind s = k)) blocked in
      let some_of k := existsb (fun s => bool_decide (s_kind s = k)) blocked in
      if all_of CapacityKind.RESET_WINDOW then "rate-limited"
      else if all_of CapacityKind.BUDGET then "budget-exhausted"
      else if all_of CapacityKind.BALANCE then "insufficient-balance"
      else if all_of CapacityKind.OPAQUE then "blocked"
      else if some_of CapacityKind.BALANCE then "insufficient-balance"
      else if some_of CapacityKind.BUDGET then "budget-exhausted"
      else if some_of CapacityKind.RESET_WINDOW then "rate-limited"
      else "blocked"
  end%string.

Definition is_undetermined_reason (reason : string) : bool :=
  negb (bool_decide (reason ∈ ["rate-limited"; "budget-exhausted"; "insufficient-balance"]%string)).

(** A scope without usable data. *)
Definition inconclusive (s : CapacityScope) : bool :=
  bool_decide (s_kind s = CapacityKind.UNKNOWN) || bool_decide (s_reason s = "inconclusive-usage"%string).

(** The loop over the known scopes: the cells, the blocked positions and the
    future resets so far. *)
Definition block_step (min_percent min_amount : pyfloat) (now : Z)
    (acc : list CapacityScope * list nat * list Z) (i : nat) : list CapacityScope * list nat * list Z :=
  let '(cells, blocked, future_wait) := acc in
  match cells !! i with
  | None => acc
  | Some s =>
      match _scope_blocked s min_percent min_amount now with
      | (false, _, _) => acc
      | (true, reason, wait) =>
          (<[i := mark_blocked reason s]> cells, blocked ++ [i],
           match wait with Some e => future_wait ++ [e] | None => future_wait end)
      end
  end.

Definition capacity_decide (snapshot : ProviderSnapshot) (scope : string) (min_remaining_percent min_remaining_amount : pyfloat)
    (poll_interval : Z) (cli_present : bool) (now : Z) : UsageDecision * ProviderSnapshot :=
  let poll := Z.max 1 poll_interval in
  let every := seq 0 (length (ps_scopes snapshot)) in
  let no reason scopes := (Decision_ (ps_provider snapshot) false reason (Some (now + poll)) scopes [], snapshot) in
  if negb (ps_available snapshot) then no (if truthy_str (ps_reason snapshot) then ps_reason snapshot else "unavailable"%string) every
  else if negb cli_present then no "missing-cli"%string every
  else
    let scopes := effective_scopes snapshot scope in
    if bool_decide (scopes = []) then no "unsupported-scope"%string every
    else
      let known := List.filter (fun i => match ps_scopes snapshot !! i with Some s => negb (inconclusive s) | None => false end) scopes in
      if bool_decide (known = []) then no "inconclusive-usage"%string scopes
      else
        let '(cells, blocked, future_wait) :=
          foldl (block_step min_remaining_percent min_remaining_amount now) (ps_scopes snapshot, [], []) known in
        let snapshot' := set_ps_scopes cells snapshot in
        if bool_decide (blocked = []) then (Decision_ (ps_provider snapshot) true "usable" None scopes [], snapshot')
        else
          let wait_until := match future_wait with [] => now + poll | _ => coalesce_max future_wait end in
          (Decision_ (ps_provider snapshot) false (_combined_block_reason (omap (fun i => cells !! i) blocked)) (Some wait_until) scopes blocked, snapshot').

(** ** What the loop computes *)

Section loop.
Context (min_percent min_amount : pyfloat) (now : Z).
Implicit Types (cells : list CapacityScope) (l : list nat).

Definition outcome cells (i : nat) : bool * string * option Z :=
  match cells !! i with Some s => _scope_blocked s min_percent min_amount now | None => (false, EmptyString, None) end.
Definition is_blocked cells (i : nat) : bool := (outcome cells i).1.1.
Definition marked cells (i : nat) : option CapacityScope :=
  if is_blocked cells i then mark_blocked (outcome cells i).1.2 <$> cells !! i else cells !! i.

Lemma block_step_eq cells blocked waits i :
  exists cells', block_step min_percent min_amount now (cells, blocked, waits) i =
    (cells', blocked ++ (if is_blocked cells i then [i] else []), waits ++ option_list (if is_blocked cells i then (outcome cells i).2 else None)) /\
    cells' !! i = marked cells i /\ forall j, j ≠ i -> cells' !! j = cells !! j.
Proof.
  unfold marked, block_step, is_blocked, outcome. destruct (cells !! i) as [s|] eqn:E.
  - destruct (_scope_blocked s _ _ _) as [[[] reason] wait]; cbn.
    + eexists. split; [|split].
      * f_equal. destruct wait; cbn; [done|by rewrite app_nil_r].
      * rewrite list_lookup_insert_eq; [done|]. by eapply lookup_lt_Some.
      * intros j Hj. by rewrite list_lookup_insert_ne.
    + exists cells. by rewrite !app_nil_r.
  - exists cells. by rewrite !app_nil_r.
Qed.

Lemma block_fold l cells blocked waits :
  NoDup l -> exists cells', foldl (block_step min_percent min_amount now) (cells, blocked, waits) l =
    (cells', blocked ++ List.filter (is_blocked cells) l,
     waits ++ omap (fun i => if is_blocked cells i then (outcome cells i).2 else None) l) /\
    (forall i, i ∈ l -> cells' !! i = marked cells i) /\ (forall i, i ∉ l -> cells' !! i = cells !! i).
Proof.
  revert cells blocked waits. induction l as [|i l IH]; intros cells blocked waits; cbn [foldl List.filter omap list_omap].
  - intros _. exists cells. rewrite !app_nil_r. split_and!; [done|set_solver|done].
  - intros [Hi Hl]%NoDup_cons. destruct (block_step_eq cells blocked waits i) as (c1 & -> & Hc1 & Hne).
    destruct (IH c1 (blocked ++ (if is_blocked cells i then [i] else [])) (waits ++ option_list (if is_blocked cells i then (outcome cells i).2 else None)) Hl) as (c2 & -> & Hin & Hout).
    exists c2.
    assert (Hsame : forall j, j ∈ l -> outcome c1 j = outcome cells j).
    { intros j Hj. unfold outcome. rewrite Hne; [done|]. intros ->. done. }
    assert (Hb : List.filter (is_blocked c1) l = List.filter (is_blocked cells) l).
    { apply filter_ext_in. intros j Hj%list_elem_of_In. unfold is_blocked. by rewrite Hsame. }
    assert (Hw : omap (fun i => if is_blocked c1 i then (outcome c1 i).2 else None) l = omap (fun i => if is_blocked cells i then (outcome cells i).2 else None) l).
    { apply list_omap_ext, Forall_Forall2_diag, Forall_forall. intros j Hj. unfold is_blocked. by rewrite Hsame. }
    split_and!.
    + rewrite Hb, Hw, <- !app_assoc. do 2 f_equal; [by destruct (is_blocked cells i)|].
      destruct (is_blocked cells i); cbn; [|done]. by destruct (outcome cells i).2.
    + intros j [->|Hj]%elem_of_cons; [rewrite Hout by done; exact Hc1|].
      rewrite Hin by done. unfold marked, is_blocked. rewrite Hsame by done. by rewrite Hne by (intros ->; done).
    + intros j [Hji Hjl]%not_elem_of_cons. rewrite Hout by done. by apply Hne.
Qed.
End loop.

(** ** Correctness of the decision *)

Definition selected (snapshot : ProviderSnapshot) (scope : string) (i : nat) (s : CapacityScope) : Prop :=
  ps_scopes snapshot !! i = Some s /\ (scope = SCOPE_AUTO \/ s_name s = scope).

Lemma zip_seq_lookup {A} (l : list A) i s : (i, s) ∈ zip (seq 0 (length l)) l <-> l !! i = Some s.
Proof.
  rewrite list_elem_of_lookup. split.
  - intros (k & Hk). apply lookup_zip_Some in Hk as [Hs Hl]. apply lookup_seq in Hs as [-> _]. done.
  - intros Hl. exists i. apply lookup_zip_Some. split; [|done]. apply lookup_seq. split; [done|]. by eapply lookup_lt_Some.
Qed.

Lemma elem_of_effective_scopes snapshot scope i :
  i ∈ effective_scopes snapshot scope <-> exists s, selected snapshot scope i s.
Proof.
  unfold effective_scopes, selected. case_bool_decide as Ha.
  - rewrite elem_of_seq. split.
    + intros [_ Hi]. destruct (lookup_lt_is_Some_2 (ps_scopes snapshot) i) as [s Hs]; [lia|]. eauto.
    + intros (s & Hs & _). apply lookup_lt_Some in Hs. lia.
  - rewrite list_elem_of_fmap. split.
    + intros ([j s] & -> & Hin). apply (elem_of_select (fun iv => bool_decide (s_name iv.2 = scope))) in Hin as [Hz Hn].
      apply zip_seq_lookup in Hz. bool_to_prop. eauto.
    + intros (s & Hs & [?|Hn]); [done|]. exists (i, s). split; [done|].
      apply (elem_of_select (fun iv => bool_decide (s_name iv.2 = scope))). split; [by apply zip_seq_lookup|].
      by apply bool_decide_eq_true.
Qed.

Lemma NoDup_effective_scopes snapshot scope : NoDup (effective_scopes snapshot scope).
Proof.
  unfold effective_scopes. case_bool_decide; [apply NoDup_seq|].
  apply (NoDup_fmap_select fst). replace (fst <$> _) with (seq 0 (length (ps_scopes snapshot))); [apply NoDup_seq|].
  symmetry. apply fst_zip. by rewrite length_seq.
Qed.

Definition known_scopes (snapshot : ProviderSnapshot) (scope : string) : list nat :=
  List.filter (fun i => match ps_scopes snapshot !! i with Some s => negb (inconclusive s) | None => false end)
    (effective_scopes snapshot scope).

Lemma elem_of_known_scopes snapshot scope i :
  i ∈ known_scopes snapshot scope <-> exists s, selected snapshot scope i s /\ inconclusive s = false.
Proof.
  unfold known_scopes. rewrite (elem_of_select (fun i => match ps_scopes snapshot !! i with Some s => negb (inconclusive s) | None => false end)), elem_of_effective_scopes. split.
  - intros [(s & Hs) Hn]. exists s. split; [done|]. destruct Hs as [Hs _]. rewrite Hs in Hn. by bool_to_prop.
  - intros (s & Hs & Hn). split; [eauto|]. destruct Hs as [-> _]. by rewrite Hn.
Qed.

Lemma NoDup_known_scopes snapshot scope : NoDup (known_scopes snapshot scope).
Proof.
  unfold known_scopes. rewrite <- (list_fmap_id (List.filter _ _)). apply (NoDup_fmap_select id). rewrite list_fmap_id. apply NoDup_effective_scopes.
Qed.

Section decision.
Context (sn : ProviderSnapshot) (sc : string) (mp ma : pyfloat) (poll : Z) (cli : bool) (now : Z).

Abbreviation run := (capacity_decide sn sc mp ma poll cli now).
Definition blocks (s : CapacityScope) : bool := (_scope_blocked s mp ma now).1.1.

(** Nothing to decide on: ask again after the poll interval. *)
Lemma decide_without_data :
  ps_available sn = false \/ cli = false \/ known_scopes sn sc = [] ->
  exists r scopes, run = (Decision_ (ps_provider sn) false r (Some (now + Z.max 1 poll)) scopes [], sn).
Proof.
  unfold capacity_decide. fold (known_scopes sn sc). destruct (ps_available sn); [|eauto]. destruct cli; [|eauto]. cbn [negb].
  intros [?|[?|Hk]]; try done. case_bool_decide; [eauto|]. rewrite bool_decide_true by done. eauto.
Qed.

Lemma data_or_not :
  (ps_available sn = true /\ cli = true /\ known_scopes sn sc ≠ []) \/
  (ps_available sn = false \/ cli = false \/ known_scopes sn sc = []).
Proof. destruct (ps_available sn), cli, (known_scopes sn sc); naive_solver. Qed.

Lemma decide_with_data :
  ps_available sn = true -> cli = true -> known_scopes sn sc ≠ [] ->
  let blocked := List.filter (is_blocked mp ma now (ps_scopes sn)) (known_scopes sn sc) in
  let waits := omap (fun i => if is_blocked mp ma now (ps_scopes sn) i then (outcome mp ma now (ps_scopes sn) i).2 else None) (known_scopes sn sc) in
  exists r cells, run = (Decision_ (ps_provider sn) (bool_decide (blocked = [])) r
      (if bool_decide (blocked = []) then None
       else Some match waits with [] => now + Z.max 1 poll | _ => coalesce_max waits end) (effective_scopes sn sc) blocked, set_ps_scopes cells sn) /\
    (forall i, i ∈ known_scopes sn sc -> cells !! i = marked mp ma now (ps_scopes sn) i) /\
    (forall i, i ∉ known_scopes sn sc -> cells !! i = ps_scopes sn !! i).
Proof.
  intros Ha Hc Hk blocked waits. unfold capacity_decide. fold (known_scopes sn sc). rewrite Ha, Hc. cbn [negb].
  rewrite bool_decide_false by (intros E; apply Hk; unfold known_scopes; by rewrite E).
  rewrite (bool_decide_false (known_scopes sn sc = [])) by done.
  destruct (block_fold mp ma now (known_scopes sn sc) (ps_scopes sn) [] [] (NoDup_known_scopes sn sc)) as (cells & -> & Hin & Hout).
  cbn [app]. fold blocked waits. case_bool_decide as Hb; [rewrite Hb|]; eexists _, cells; (split; [reflexivity|done]).
Qed.

Lemma is_blocked_selected i s : selected sn sc i s -> is_blocked mp ma now (ps_scopes sn) i = blocks s.
Proof. intros [Hs _]. unfold is_blocked, outcome, blocks. by rewrite Hs. Qed.

Lemma no_blocked_known :
  List.filter (is_blocked mp ma now (ps_scopes sn)) (known_scopes sn sc) = [] <->
  forall i s, selected sn sc i s -> inconclusive s = false -> blocks s = false.
Proof.
  split.
  - intros Hn i s Hs Hc. rewrite <- (is_blocked_selected i s Hs). destruct (is_blocked _ _ _ _ i) eqn:E; [|done].
    assert (Hin : i ∈ List.filter (is_blocked mp ma now (ps_scopes sn)) (known_scopes sn sc)).
    { apply (elem_of_select (is_blocked mp ma now (ps_scopes sn))). split; [apply elem_of_known_scopes; eauto|done]. }
    rewrite Hn in Hin. set_solver.
  - intros Hall. destruct (List.filter _ _) as [|i l] eqn:E; [done|]. exfalso.
    assert (Hin : i ∈ List.filter (is_blocked mp ma now (ps_scopes sn)) (known_scopes sn sc)) by (rewrite E; left).
    apply (elem_of_select (is_blocked mp ma now (ps_scopes sn))) in Hin as [(s & Hs & Hc)%elem_of_known_scopes Hb].
    rewrite (is_blocked_selected i s Hs), (Hall i s) in Hb; done.
Qed.
End decision.

(** A window that blocks names only a reset that is still to come. *)
Lemma scope_blocked_future s mp ma now r e : _scope_blocked s mp ma now = (true, r, Some e) -> now < e.
Proof.
  unfold _scope_blocked. destruct (s_reset_epoch s) as [e'|]; repeat case_match; intros [= _ ->]; lia.
Qed.

(** C30: [decide] calls a provider usable exactly when it is available, its
    command is installed, some selected scope has conclusive data, and none of the
    selected conclusive scopes blocks. *)
Theorem decide_usable_exact (sn : ProviderSnapshot) (sc : string) (mp ma : pyfloat) (poll : Z) (cli : bool) (now : Z) :
  d_usable (capacity_decide sn sc mp ma poll cli now).1 = true <->
  ps_available sn = true /\ cli = true /\
  (exists i s, selected sn sc i s /\ inconclusive s = false) /\
  (forall i s, selected sn sc i s -> inconclusive s = false -> blocks mp ma now s = false).
Proof.
  destruct (data_or_not sn sc cli) as [(Ha & Hc & Hk)|Hno].
  - destruct (decide_with_data sn sc mp ma poll cli now Ha Hc Hk) as (r & cells & -> & _). cbn. rewrite bool_decide_eq_true, no_blocked_known.
    split; [|naive_solver]. intros Hall. split_and!; try done.
    destruct (known_scopes sn sc) as [|i l] eqn:E; [done|]. exists i.
    apply elem_of_known_scopes. rewrite E. left.
  - destruct (decide_without_data sn sc mp ma poll cli now Hno) as (r & scopes & ->).
    split; [done|]. intros (Ha & Hc & (i & s & Hs & Hi) & _). destruct Hno as [?|[?|E]]; [congruence..|].
    assert (Hin : i ∈ known_scopes sn sc) by (apply elem_of_known_scopes; eauto). rewrite E in Hin. set_solver.
Qed.

(** An unusable decision always names a later time to ask again, at most
    the poll interval away when no reset is known, and not before every reset that
    a blocking scope waits for; a usable decision names none. *)
Theorem decide_wait_bounds (sn : ProviderSnapshot) (sc : string) (mp ma : pyfloat) (poll : Z) (cli : bool) (now : Z) :
  let d := (capacity_decide sn sc mp ma poll cli now).1 in
  (d_usable d = true -> d_wait_until d = None /\ d_exhausted d = []) /\
  (d_usable d = false -> exists t, d_wait_until d = Some t /\ now < t /\
     (forall i s r e, i ∈ d_exhausted d -> ps_scopes sn !! i = Some s ->
        _scope_blocked s mp ma now = (true, r, Some e) -> e <= t) /\
     (t ≠ now + Z.max 1 poll -> exists i s r, i ∈ d_exhausted d /\ ps_scopes sn !! i = Some s /\
        _scope_blocked s mp ma now = (true, r, Some t))).
Proof.
  cbv zeta.
  destruct (data_or_not sn sc cli) as [(Ha & Hc & Hk)|Hno].
  - destruct (decide_with_data sn sc mp ma poll cli now Ha Hc Hk) as (r & cells & -> & _). cbn [fst d_usable d_wait_until d_exhausted].
    set (blocked := List.filter _ _). set (waits := omap _ _).
    assert (Hw : forall e, e ∈ waits <-> exists i s r, i ∈ blocked /\ ps_scopes sn !! i = Some s /\ _scope_blocked s mp ma now = (true, r, Some e)).
    { intros e. unfold waits, blocked. rewrite list_elem_of_omap. split.
      - intros (i & Hi & E). destruct (is_blocked mp ma now (ps_scopes sn) i) eqn:Eb; [|done].
        unfold is_blocked, outcome in Eb, E. destruct (ps_scopes sn !! i) as [s|] eqn:Es; [|done].
        destruct (_scope_blocked s mp ma now) as [[b r'] w] eqn:Eo. cbn in Eb, E. subst. exists i, s, r'.
        split_and!; [|done|done]. apply (elem_of_select (is_blocked mp ma now (ps_scopes sn))). split; [done|].
        unfold is_blocked, outcome. by rewrite Es, Eo.
      - intros (i & s & r' & Hi & Es & Eo). apply (elem_of_select (is_blocked mp ma now (ps_scopes sn))) in Hi as [Hi Hb].
        exists i. split; [done|]. rewrite Hb. unfold outcome. by rewrite Es, Eo. }
    case_bool_decide as Hb.
    + split; [by rewrite Hb|done].
    + split; [done|]. intros _. eexists. split; [reflexivity|]. destruct waits as [|e0 ws] eqn:Ew.
      * split; [lia|]. split; [|done]. intros i s r' e Hi Hs Ho. assert (He : e ∈ @nil Z) by (apply Hw; eauto 8). set_solver.
      * assert (Hmax : coalesce_max (e0 :: ws) ∈ e0 :: ws) by (by apply coalesce_max_in). split_and!.
        -- apply Hw in Hmax as (i & s & r' & _ & _ & Ho). by eapply scope_blocked_future.
        -- intros i s r' e Hi Hs Ho. apply coalesce_max_ge, Hw. eauto 8.
        -- intros _. by apply Hw.
  - destruct (decide_without_data sn sc mp ma poll cli now Hno) as (r & scopes & ->).
    cbn. split; [done|]. intros _. eexists. split; [done|]. split_and!; [lia|set_solver|done].
Qed.

(** ** What [decide] writes into the snapshot *)

(** [decide] writes into the caller's snapshot: exactly the scopes it
    reports as exhausted become not ready with the reason they block for; every
    other scope object, and the rest of the snapshot, is left alone. *)
Theorem decide_marks_exhausted (sn : ProviderSnapshot) (sc : string) (mp ma : pyfloat) (poll : Z) (cli : bool) (now : Z) :
  let d := (capacity_decide sn sc mp ma poll cli now).1 in
  let sn' := (capacity_decide sn sc mp ma poll cli now).2 in
  sn' = set_ps_scopes (ps_scopes sn') sn /\
  (forall i, i ∈ d_exhausted d -> exists s, selected sn sc i s /\ inconclusive s = false /\ blocks mp ma now s = true /\
     ps_scopes sn' !! i = Some (mark_blocked (_scope_blocked s mp ma now).1.2 s)) /\
  (forall i, i ∉ d_exhausted d -> ps_scopes sn' !! i = ps_scopes sn !! i).
Proof.
  cbv zeta.
  destruct (data_or_not sn sc cli) as [(Ha & Hc & Hk)|Hno].
  - destruct (decide_with_data sn sc mp ma poll cli now Ha Hc Hk) as (r & cells & -> & Hin & Hout).
    cbn [fst snd d_exhausted ps_scopes set_ps_scopes]. split_and!; [done| |].
    + intros i [Hi Hb]%(elem_of_select (is_blocked mp ma now (ps_scopes sn))). pose proof Hi as (s & Hs & Hi')%elem_of_known_scopes.
      exists s. rewrite (is_blocked_selected sn sc mp ma now i s Hs) in Hb. split_and!; try done.
      rewrite Hin by done. unfold marked. rewrite (is_blocked_selected sn sc mp ma now i s Hs), Hb.
      unfold outcome. destruct Hs as [-> _]. done.
    + intros i Hi. destruct (decide (i ∈ known_scopes sn sc)) as [Hkn|Hkn]; [|by apply Hout].
      rewrite Hin by done. unfold marked. destruct (is_blocked _ _ _ _ i) eqn:Eb; [|done].
      destruct Hi. by apply (elem_of_select (is_blocked mp ma now (ps_scopes sn))).
  - destruct (decide_without_data sn sc mp ma poll cli now Hno) as (r & scopes & ->).
    cbn. split_and!; [by destruct sn|set_solver|done].
Qed.

(** The mark is visible to the next call: a window without numbers blocks the
    first time and counts as inconclusive, so no longer blocks, the second. *)
Example decide_second_call :
  let scope n p := Scope n CapacityKind.RESET_WINDOW true "" p None JNull None None None None "" [] in
  let sn := Snapshot "codex" true "" "" None [scope SCOPE_5H None; scope SCOPE_WEEKLY (Some (float_of_Z 50))] [] in
  let first_call := capacity_decide sn SCOPE_AUTO (float_of_Z 5) (float_of_Z 5) 60 true 1000 in
  let second_call := capacity_decide first_call.2 SCOPE_AUTO (float_of_Z 5) (float_of_Z 5) 60 true 1000 in
  d_usable first_call.1 = false /\ d_usable second_call.1 = true.
Proof. vm_compute. done. Qed.
