(* ===== verification/WebSocket.v ===== *)
(** * The WebSocket client ([bridge_ws.py])

    The socket is a list of receive events: chunks of bytes, time-outs, and the
    end of the list for a closed connection.  [sendall] takes its outcomes from a
    list, and records the frames it sent whole.  [urandom] is [os.urandom(4)]. *)

From S2P Require Import Prelude Bytes.
From stdpp Require Import options.
Local Open Scope Z_scope.

Definition OP_CONT : Z := 0x0.
Definition OP_TEXT : Z := 0x1.
Definition OP_BINARY : Z := 0x2.
Definition OP_CLOSE : Z := 0x8.
Definition OP_PING : Z := 0x9.
Definition OP_PONG : Z := 0xA.
Definition known_opcodes : list Z := [OP_CONT; OP_TEXT; OP_BINARY; OP_CLOSE; OP_PING; OP_PONG].

Inductive ws_exn : Type :=
  | WebSocketError (msg : string)
  | WebSocketClosed (code : Z) (reason : bytes)
  | SocketTimeout
  | SocketError
  | OutOfFuel.

Inductive recv_event : Type := Chunk (bs : bytes) | Timeout.
Inductive send_event : Type := SendOk | SendTimeout | SendFailed.

Record WebSocketClient : Type := Client {
  k_input : list recv_event;
  k_sends : list send_event;
  k_sent : list bytes;
  k_tick : nat;
  max_message : Z;
  closed : bool;
}.
Definition set_input (v : list recv_event) (c : WebSocketClient) : WebSocketClient :=
  Client v (k_sends c) (k_sent c) (k_tick c) (max_message c) (closed c).
Definition set_closed (c : WebSocketClient) : WebSocketClient :=
  Client (k_input c) (k_sends c) (k_sent c) (k_tick c) (max_message c) true.

Abbreviation WS := (ST ws_exn WebSocketClient).

(** ** Frames *)

Definition encode_frame (opcode : Z) (payload : bytes) (mask fin : bool) (key : bytes) : bytes :=
  let length := Z.of_nat (length payload) in
  let mask_bit := if mask then 0x80 else 0 in
  let header := [Z.lor (if fin then 0x80 else 0) opcode] ++
    (if length <? 126 then [Z.lor mask_bit length]
     else if length <? Z.shiftl 1 16 then [Z.lor mask_bit 126] ++ be_encode 2 length
     else [Z.lor mask_bit 127] ++ be_encode 8 length) in
  if mask then header ++ key ++ xor_mask key payload else header ++ payload.

(** [_read_exact]: [recv] returns at most what is asked for; an empty answer is
    the end of the connection. *)
Fixpoint read_exact (count : nat) (input : list recv_event) : result ws_exn bytes * list recv_event :=
  match count with
  | O => (Ok [], input)
  | S _ =>
      match input with
      | [] | Chunk [] :: _ => (Raise (WebSocketClosed 1006 (b_ "connection lost")), input)
      | Timeout :: input' => (Raise SocketTimeout, input')
      | Chunk bs :: input' =>
          if (count <? length bs)%nat then (Ok (take count bs), Chunk (drop count bs) :: input')
          else match read_exact (count - length bs) input' with
               | (Ok more, rest) => (Ok (bs ++ more), rest)
               | (Raise e, rest) => (Raise e, rest)
               end
      end
  end.

Record Frame : Type := MkFrame { f_fin : bool; f_opcode : Z; f_payload : bytes }.

Abbreviation Reader := (ST ws_exn (list recv_event)).
Definition _read_exact (count : Z) : Reader bytes := read_exact (Z.to_nat count).

Definition read_frame (max_payload : Z) (expect_masked : bool) : Reader Frame :=
  header ← _read_exact 2;
  let first := nth 0 header 0 in
  let second := nth 1 header 0 in
  raise_if (negb (Z.land first 0x70 =? 0)) (WebSocketError "reserved bits set without a negotiated extension") ;;
  let opcode := Z.land first 0x0F in
  raise_if (negb (bool_decide (opcode ∈ known_opcodes))) (WebSocketError ("unknown opcode " +:+ pretty opcode)) ;;
  let masked := negb (Z.land second 0x80 =? 0) in
  raise_if (negb (eqb masked expect_masked)) (WebSocketError "frame masking does not match the peer role") ;;
  let short := Z.land second 0x7F in
  length ← (if short =? 126 then b ← _read_exact 2; mret (be_decode b)
            else if short =? 127 then b ← _read_exact 8; mret (be_decode b)
            else mret short);
  raise_if ((OP_CLOSE <=? opcode) && ((125 <? length) || (Z.land first 0x80 =? 0)))
    (WebSocketError "control frames must be final and at most 125 bytes") ;;
  raise_if (max_payload <? length)
    (WebSocketError ("frame of " +:+ pretty length +:+ " bytes exceeds the " +:+ pretty max_payload +:+ "-byte limit")) ;;
  key ← (if masked then _read_exact 4 else mret []);
  payload ← _read_exact length;
  mret (MkFrame (negb (Z.land first 0x80 =? 0)) opcode (if masked then xor_mask key payload else payload)).

(** ** The client *)

Section client.
Context (urandom : nat -> bytes).

Definition on_input {A} (m : Reader A) : WS A := fun c =>
  let '(r, input) := m (k_input c) in (r, set_input input c).

(** [self.sock.sendall(frame)]: the next outcome, success when none is left. *)
Definition sendall (frame : bytes) : WS unit := fun c =>
  let sends := tail (k_sends c) in
  match default SendOk (head (k_sends c)) with
  | SendOk => (Ok tt, Client (k_input c) sends (k_sent c ++ [frame]) (k_tick c) (max_message c) (closed c))
  | SendTimeout => (Raise SocketTimeout, Client (k_input c) sends (k_sent c) (k_tick c) (max_message c) (closed c))
  | SendFailed => (Raise SocketError, Client (k_input c) sends (k_sent c) (k_tick c) (max_message c) (closed c))
  end.
Definition random_key : WS bytes := fun c =>
  (Ok (urandom (k_tick c)), Client (k_input c) (k_sends c) (k_sent c) (S (k_tick c)) (max_message c) (closed c)).

Definition _send (opcode : Z) (payload : bytes) : WS unit :=
  c ← gets id;
  raise_if (closed c) (WebSocketClosed 1006 (b_ "connection already closed")) ;;
  key ← random_key;
  sendall (encode_frame opcode payload true true key).

Definition send_text (s : text) : WS unit := _send OP_TEXT (utf8_encode s).
Definition ping (payload : bytes) : WS unit := _send OP_PING payload.

(** An [OSError] of the closing frame is swallowed. *)
Definition close (code : Z) (reason : text) : WS unit := fun c =>
  if closed c then (Ok tt, c)
  else
    let frame key := encode_frame OP_CLOSE (be_encode 2 code ++ take 120 (utf8_encode reason)) true true key in
    (Ok tt, set_closed ((key ← random_key; sendall (frame key)) c).2).

(** [except (socket.timeout, TimeoutError)] around one step of the loop. *)
Definition or_timeout {A} (m : WS A) (parts : bytes) (k : A -> WS (option text)) : WS (option text) := fun c =>
  match m c with
  | (Raise SocketTimeout, c') =>
      (if bool_decide (parts = []) then Ok None else Raise (WebSocketError "timed out inside a fragmented message"), c')
  | (Raise e, c') => (Raise e, c')
  | (Ok a, c') => k a c'
  end.

Fixpoint receive_loop (fuel : nat) (parts : bytes) (opcode_seen : option Z) : WS (option text) :=
  match fuel with
  | O => raise OutOfFuel
  | S fuel' =>
      c ← gets id;
      or_timeout (on_input (read_frame (max_message c) false)) parts (fun frame =>
        if f_opcode frame =? OP_PING then
          or_timeout (_send OP_PONG (f_payload frame)) parts (fun _ => receive_loop fuel' parts opcode_seen)
        else if f_opcode frame =? OP_PONG then receive_loop fuel' parts opcode_seen
        else if f_opcode frame =? OP_CLOSE then
          let code := if (2 <=? length (f_payload frame))%nat then be_decode (take 2 (f_payload frame)) else 1005 in
          close (if bool_decide (code ∈ [1005; 1006]) then 1000 else code) [] ;;
          raise (WebSocketClosed code (drop 2 (f_payload frame)))
        else
          raise_if ((f_opcode frame =? OP_CONT) && bool_decide (opcode_seen = None))
            (WebSocketError "continuation frame without a message") ;;
          raise_if (bool_decide (f_opcode frame ∈ [OP_TEXT; OP_BINARY]) && negb (bool_decide (opcode_seen = None)))
            (WebSocketError "new message before the previous one finished") ;;
          let opcode_seen := if f_opcode frame =? OP_CONT then opcode_seen else Some (f_opcode frame) in
          let parts := parts ++ f_payload frame in
          raise_if (max_message c <? Z.of_nat (length parts)) (WebSocketError "message exceeds the size limit") ;;
          if f_fin frame then
            raise_if (negb (bool_decide (opcode_seen = Some OP_TEXT)))
              (WebSocketError "binary messages are not used by this protocol") ;;
            match utf8_decode parts with
            | Some s => mret (Some s)
            | None => raise (WebSocketError "text message is not valid UTF-8")
            end
          else receive_loop fuel' parts opcode_seen)
  end.

(** Each frame takes at least two bytes off the input. *)
Definition input_size (input : list recv_event) : nat :=
  sum_list (map (fun e => match e with Chunk bs => length bs | Timeout => 0%nat end) input).
Definition receive_text : WS (option text) :=
  c ← gets id;
  raise_if (closed c) SocketError ;;
  receive_loop (S (input_size (k_input c))) [] None.
End client.

(** ** Reading what was written *)

(** A peer that delivers only data, in chunks of any size. *)
Definition quiet (input : list recv_event) : Prop := Forall (fun e => exists bs, e = Chunk bs /\ bs ≠ []) input.
Definition content (input : list recv_event) : bytes :=
  concat (map (fun e => match e with Chunk bs => bs | Timeout => [] end) input).

Lemma read_exact_quiet n input data rest :
  quiet input -> content input = data ++ rest -> length data = n ->
  exists input', read_exact n input = (Ok data, input') /\ quiet input' /\ content input' = rest.
Proof.
  revert n data. induction input as [|e input IH]; intros n data Hq Hc Hn.
  - destruct data; [|done]. cbn in *. subst. exists []. done.
  - destruct n as [|n]; [destruct data; [|done]; eexists; split; [reflexivity|done]|].
    apply Forall_cons in Hq as [(bs & -> & Hbs) Hq]. cbn [content map concat] in Hc. fold (content input) in Hc.
    destruct bs as [|b bs]; [done|]. cbn [read_exact].
    destruct (Nat.ltb_spec (S n) (length (b :: bs))) as [Hlt|Hle].
    + assert (data = take (S n) (b :: bs)) as ->.
      { rewrite <- (take_app_le (b :: bs) (content input)) by (cbn in *; lia). rewrite Hc, take_app_length'; done. }
      eexists. split; [reflexivity|]. split.
      * constructor; [|done]. eexists. split; [done|]. intros E%(f_equal length). rewrite length_drop in E. cbn in *. lia.
      * cbn [content map concat]. fold (content input). rewrite <- (drop_app_le (b :: bs) (content input)) by (cbn in *; lia).
        rewrite Hc, drop_app_length'; done.
    + assert (Hd : data = (b :: bs) ++ drop (length (b :: bs)) data).
      { rewrite <- (take_drop (length (b :: bs)) data) at 1. f_equal.
        rewrite <- (take_app_le data rest) by lia. by rewrite <- Hc, take_app_length. }
      destruct (IH (S n - length (b :: bs))%nat (drop (length (b :: bs)) data)) as (input' & -> & Hq' & Hc'); [done| | |].
      * rewrite Hd, <- app_assoc in Hc. by apply app_inv_head in Hc.
      * rewrite length_drop. lia.
      * exists input'. split_and!; [|done|done]. by rewrite <- Hd.
Qed.

Lemma twp_read_exact n data rest (Q : bytes -> list recv_event -> Prop) input :
  quiet input -> content input = data ++ rest -> Z.of_nat (length data) = n ->
  (forall input', quiet input' -> content input' = rest -> Q data input') -> twp (_read_exact n) Q input.
Proof.
  intros Hq Hc Hn HQ. destruct (read_exact_quiet (Z.to_nat n) input data rest Hq Hc) as (input' & E & Hq' & Hc'); [lia|].
  exists data, input'. auto.
Qed.

Lemma range_check (P : Z -> bool) n : forallb P (seqZ 0 n) = true -> forall z, 0 <= z < n -> P z = true.
Proof.
  intros Hf z Hz. rewrite forallb_forall in Hf. apply Hf, list_elem_of_In, elem_of_seqZ. lia.
Qed.

(** The second header byte carries the mask bit and seven bits of length. *)
Lemma second_byte (masked : bool) len : 0 <= len < 128 ->
  negb (Z.land (Z.lor (if masked then 0x80 else 0) len) 0x80 =? 0) = masked /\
  Z.land (Z.lor (if masked then 0x80 else 0) len) 0x7F = len.
Proof.
  intros Hl. pose proof (range_check (fun len =>
    eqb (negb (Z.land (Z.lor (if masked then 0x80 else 0) len) 0x80 =? 0)) masked &&
    (Z.land (Z.lor (if masked then 0x80 else 0) len) 0x7F =? len)) 128) as Hr.
  specialize (Hr ltac:(destruct masked; vm_compute; reflexivity) len Hl). cbv beta in Hr.
  apply andb_true_iff in Hr as [H1%eqb_prop H2%Z.eqb_eq]. done.
Qed.

(** The first one the FIN bit and the opcode. *)
Lemma first_byte (fin : bool) op : op ∈ known_opcodes ->
  Z.land (Z.lor (if fin then 0x80 else 0) op) 0x70 = 0 /\ Z.land (Z.lor (if fin then 0x80 else 0) op) 0x0F = op /\
  negb (Z.land (Z.lor (if fin then 0x80 else 0) op) 0x80 =? 0) = fin.
Proof. unfold known_opcodes. rewrite !elem_of_cons, elem_of_nil. intros Hop. destruct fin; naive_solver. Qed.

(** A frame a peer may send: control frames are final and short. *)
Definition sendable (fin : bool) (op : Z) (payload : bytes) : Prop :=
  op ∈ known_opcodes /\ Z.of_nat (length payload) < 2 ^ 64 /\
  (OP_CLOSE <= op -> fin = true /\ (length payload <= 125)%nat).

(** The bytes of a frame: two header bytes, the extended length, then the body. *)
Lemma encode_frame_shape fin op payload masked key :
  exists short ext, encode_frame op payload masked fin key =
    [Z.lor (if fin then 0x80 else 0) op; Z.lor (if masked then 0x80 else 0) short] ++ ext ++
    (if masked then key ++ xor_mask key payload else payload) /\ 0 <= short < 128 /\
    let len := Z.of_nat (length payload) in
    (len < 2 ^ 64 -> (short = len /\ ext = [] /\ short < 126) \/ (short = 126 /\ ext = be_encode 2 len /\ len < 2 ^ 16) \/
     (short = 127 /\ ext = be_encode 8 len)).
Proof.
  unfold encode_frame. destruct (Z.ltb_spec (Z.of_nat (length payload)) 126).
  - exists (Z.of_nat (length payload)), []. split; [by destruct masked|]. split; [lia|]. cbv zeta. intros _. left. split_and!; (done || lia).
  - destruct (Z.ltb_spec (Z.of_nat (length payload)) (Z.shiftl 1 16)) as [Hs|Hs].
    + exists 126, (be_encode 2 (Z.of_nat (length payload))). split; [destruct masked; cbn; by rewrite <- ?app_assoc|].
      split; [lia|]. cbv zeta. intros _. right; left. split_and!; (done || (change (2 ^ 16) with (Z.shiftl 1 16); lia)).
    + exists 127, (be_encode 8 (Z.of_nat (length payload))). split; [destruct masked; cbn; by rewrite <- ?app_assoc|].
      split; [lia|]. cbv zeta. intros _. right; right. done.
Qed.

Lemma twp_length short ext len rest (Q : Z -> list recv_event -> Prop) input :
  (short = len /\ ext = [] /\ short < 126) \/ (short = 126 /\ ext = be_encode 2 len /\ len < 2 ^ 16) \/ (short = 127 /\ ext = be_encode 8 len) ->
  0 <= len < 2 ^ 64 -> quiet input -> content input = ext ++ rest ->
  (forall input', quiet input' -> content input' = rest -> Q len input') ->
  twp (if short =? 126 then b ← _read_exact 2; mret (be_decode b)
       else if short =? 127 then b ← _read_exact 8; mret (be_decode b) else mret short : Reader Z) Q input.
Proof.
  intros [(-> & -> & Hs)|[(-> & -> & Hs)|(-> & ->)]] Hl Hq Hc HQ.
  - rewrite (proj2 (Z.eqb_neq len 126)), (proj2 (Z.eqb_neq len 127)) by lia. by apply twp_ret, HQ.
  - apply twp_bind. eapply twp_read_exact; [done|exact Hc|by rewrite length_be_encode|]. intros i1 Hq1 Hc1. apply twp_ret.
    rewrite be_roundtrip by (change (256 ^ Z.of_nat 2) with (2 ^ 16); lia). by apply HQ.
  - apply twp_bind. eapply twp_read_exact; [done|exact Hc|by rewrite length_be_encode|]. intros i1 Hq1 Hc1. apply twp_ret.
    rewrite be_roundtrip by (change (256 ^ Z.of_nat 8) with (2 ^ 64); lia). by apply HQ.
Qed.

Lemma twp_read_frame fin op payload masked key rest max_payload (Q : Frame -> list recv_event -> Prop) input :
  sendable fin op payload -> length key = 4%nat -> Z.of_nat (length payload) <= max_payload ->
  quiet input -> content input = encode_frame op payload masked fin key ++ rest ->
  (forall input', quiet input' -> content input' = rest -> Q (MkFrame fin op payload) input') ->
  twp (read_frame max_payload masked) Q input.
Proof.
  intros (Hop & Hlen & Hctl) Hkey Hmax Hq Hc HQ.
  destruct (encode_frame_shape fin op payload masked key) as (short & ext & E & Hshort & Hext). specialize (Hext Hlen).
  rewrite E, <- !app_assoc in Hc. destruct (second_byte masked short Hshort) as [S1 S2]. destruct (first_byte fin op Hop) as (F1 & F2 & F3).
  unfold read_frame. apply twp_bind. eapply twp_read_exact; [done|exact Hc|done|]. intros i1 Hq1 Hc1. cbv zeta. cbn [nth].
  rewrite S2, F2. rewrite F1, S1. cbn [Z.eqb negb]. apply twp_bind, twp_raise_if; [done|].
  apply twp_bind, twp_raise_if; [by rewrite bool_decide_true|]. apply twp_bind, twp_raise_if; [by destruct masked|].
  apply twp_bind. eapply twp_length; [exact Hext|lia|exact Hq1|exact Hc1|]. intros i2 Hq2 Hc2.
  apply twp_bind, twp_raise_if.
  { destruct (Z.leb_spec OP_CLOSE op) as [Hle|]; [|done]. destruct (Hctl Hle) as [-> ?]. apply negb_true_iff in F3. rewrite F3.
    cbn. rewrite orb_false_r. lia. }
  apply twp_bind, twp_raise_if; [lia|]. rewrite F3. destruct masked; cbn [eqb].
  - apply twp_bind. rewrite <- app_assoc in Hc2. eapply twp_read_exact; [exact Hq2|exact Hc2|lia|]. intros i3 Hq3 Hc3.
    apply twp_bind. eapply twp_read_exact; [exact Hq3|exact Hc3|by rewrite length_xor_mask|]. intros i4 Hq4 Hc4.
    apply twp_ret. rewrite xor_mask_involutive. by apply HQ.
  - apply twp_bind, twp_ret, twp_bind. eapply twp_read_exact; [exact Hq2|exact Hc2|done|]. intros i4 Hq4 Hc4.
    apply twp_ret. by apply HQ.
Qed.

(** C31: Reading undoes writing.  However the network cuts the bytes into
    chunks, [read_frame] returns the frame [encode_frame] wrote - every opcode,
    masked or not, with each of the three length encodings - and leaves exactly
    the bytes that follow it. *)
Theorem read_frame_encode_frame (fin : bool) (op : Z) (payload key rest : bytes) (masked : bool) (max_payload : Z) (input : list recv_event) :
  sendable fin op payload -> length key = 4%nat -> Z.of_nat (length payload) <= max_payload ->
  quiet input -> content input = encode_frame op payload masked fin key ++ rest ->
  exists input', read_frame max_payload masked input = (Ok (MkFrame fin op payload), input') /\
    quiet input' /\ content input' = rest.
Proof.
  intros Hs Hk Hm Hq Hc.
  destruct (twp_read_frame fin op payload masked key rest max_payload (fun f i => f = MkFrame fin op payload /\ quiet i /\ content i = rest) input)
    as (f & i & E & -> & Hq' & Hc'); auto. eauto.
Qed.

Lemma read_frame_encode_frame_witness :
  let input := [Chunk [0x81]; Chunk [0x83; 1]; Chunk [2; 3; 4; 0x49; 0x6b]; Chunk [0x22; 0x81; 0x00]] in
  encode_frame OP_TEXT (b_ "Hi!") true true [1; 2; 3; 4] = [0x81; 0x83; 1; 2; 3; 4; 0x49; 0x6b; 0x22] /\
  exists input', read_frame 100 true input = (Ok (MkFrame true OP_TEXT (b_ "Hi!")), input') /\ quiet input' /\ content input' = [0x81; 0x00].
Proof.
  split; [vm_compute; reflexivity|].
  apply (read_frame_encode_frame true OP_TEXT (b_ "Hi!") [1; 2; 3; 4] [0x81; 0x00] true 100); try (vm_compute; reflexivity).
  - split; [unfold known_opcodes; set_solver|]. split; [vm_compute; reflexivity|]. vm_compute. intros []. done.
  - vm_compute. done.
  - repeat constructor; eexists; (split; [reflexivity|done]).
Defined.

(** ** Receiving a message *)

(** The frames of one text message: a TEXT frame and continuations, the last
    one final, with pings and pongs in between. *)
Inductive carries : bool -> list Frame -> bytes -> Prop :=
  | carries_last started p : carries started [MkFrame true (if started then OP_CONT else OP_TEXT) p] p
  | carries_more started p fs data :
      carries true fs data -> carries started (MkFrame false (if started then OP_CONT else OP_TEXT) p :: fs) (p ++ data)
  | carries_control started op p fs data :
      op ∈ [OP_PING; OP_PONG] -> (length p <= 125)%nat -> carries started fs data ->
      carries started (MkFrame true op p :: fs) data.

(** What a server sends: unmasked frames. *)
Definition wire (fs : list Frame) : bytes := concat (map (fun f => encode_frame (f_opcode f) (f_payload f) false (f_fin f) []) fs).
Definition pings (fs : list Frame) : list bytes := map f_payload (List.filter (fun f => f_opcode f =? OP_PING) fs).

(** What the client answers: one masked pong per ping, with fresh keys. *)
Fixpoint pongs (urandom : nat -> bytes) (tick : nat) (ps : list bytes) : list bytes :=
  match ps with [] => [] | p :: ps' => encode_frame OP_PONG p true true (urandom tick) :: pongs urandom (S tick) ps' end.

Lemma length_encode_frame op p masked fin key : (2 <= length (encode_frame op p masked fin key))%nat.
Proof. destruct (encode_frame_shape fin op p masked key) as (short & ext & -> & _). cbn. lia. Qed.
Lemma length_wire fs : (2 * length fs <= length (wire fs))%nat.
Proof.
  induction fs as [|f fs IH]; [cbn; lia|].
  change (wire (f :: fs)) with (encode_frame (f_opcode f) (f_payload f) false (f_fin f) [] ++ wire fs). rewrite length_app. cbn [length].
  pose proof (length_encode_frame (f_opcode f) (f_payload f) false (f_fin f) []). lia.
Qed.
Lemma input_size_content input : input_size input = length (content input).
Proof. induction input as [|[bs|] input IH]; cbn; [done| |done]. fold (content input). unfold input_size in IH. by rewrite length_app, IH. Qed.

Section receive.
Context (urandom : nat -> bytes).

Definition idle (c : WebSocketClient) : Prop := closed c = false /\ k_sends c = [] /\ quiet (k_input c).

(** One frame of the wire, read by the client. *)
Lemma read_from_wire c f fs rest :
  idle c -> sendable (f_fin f) (f_opcode f) (f_payload f) -> Z.of_nat (length (f_payload f)) <= max_message c ->
  content (k_input c) = wire (f :: fs) ++ rest ->
  exists c1, on_input (read_frame (max_message c) false) c = (Ok f, c1) /\ idle c1 /\ content (k_input c1) = wire fs ++ rest /\
    max_message c1 = max_message c /\ k_sent c1 = k_sent c /\ k_tick c1 = k_tick c.
Proof.
  intros (Hcl & Hs & Hq) Hf Hm Hc. cbn [wire map concat] in Hc. fold (wire fs) in Hc. rewrite <- app_assoc in Hc.
  assert (Hc' : content (k_input c) = encode_frame (f_opcode f) (f_payload f) false (f_fin f) [0; 0; 0; 0] ++ (wire fs ++ rest)) by exact Hc.
  destruct (twp_read_frame (f_fin f) (f_opcode f) (f_payload f) false [0; 0; 0; 0] (wire fs ++ rest) (max_message c)
    (fun f' i => f' = f /\ quiet i /\ content i = wire fs ++ rest) (k_input c)) as (f' & i & E & -> & Hq' & Hc''); auto.
  { intros i Hi Hci. by destruct f. }
  exists (set_input i c). unfold on_input. by rewrite E.
Qed.

Lemma send_ok op p c :
  closed c = false -> k_sends c = [] ->
  _send urandom op p c = (Ok tt, Client (k_input c) [] (k_sent c ++ [encode_frame op p true true (urandom (k_tick c))])
    (S (k_tick c)) (max_message c) false).
Proof. intros Hcl Hs. unfold _send, mbind, ST_bind, gets. cbn. rewrite Hcl. cbn. by rewrite Hs, Hcl. Qed.

Lemma or_timeout_ok {A} (m : WS A) parts k c a c1 : m c = (Ok a, c1) -> or_timeout m parts k c = k a c1.
Proof. unfold or_timeout. by intros ->. Qed.

Lemma receive_loop_step fuel parts seen c :
  receive_loop urandom (S fuel) parts seen c =
  or_timeout (on_input (read_frame (max_message c) false)) parts (fun frame =>
    if f_opcode frame =? OP_PING then
      or_timeout (_send urandom OP_PONG (f_payload frame)) parts (fun _ => receive_loop urandom fuel parts seen)
    else if f_opcode frame =? OP_PONG then receive_loop urandom fuel parts seen
    else if f_opcode frame =? OP_CLOSE then
      let code := if (2 <=? length (f_payload frame))%nat then be_decode (take 2 (f_payload frame)) else 1005 in
      close urandom (if bool_decide (code ∈ [1005; 1006]) then 1000 else code) [] ;;
      raise (WebSocketClosed code (drop 2 (f_payload frame)))
    else
      raise_if ((f_opcode frame =? OP_CONT) && bool_decide (seen = None)) (WebSocketError "continuation frame without a message") ;;
      raise_if (bool_decide (f_opcode frame ∈ [OP_TEXT; OP_BINARY]) && negb (bool_decide (seen = None)))
        (WebSocketError "new message before the previous one finished") ;;
      let seen := if f_opcode frame =? OP_CONT then seen else Some (f_opcode frame) in
      let parts := parts ++ f_payload frame in
      raise_if (max_message c <? Z.of_nat (length parts)) (WebSocketError "message exceeds the size limit") ;;
      if f_fin frame then
        raise_if (negb (bool_decide (seen = Some OP_TEXT))) (WebSocketError "binary messages are not used by this protocol") ;;
        match utf8_decode parts with
        | Some s => mret (Some s)
        | None => raise (WebSocketError "text message is not valid UTF-8")
        end
      else receive_loop urandom fuel parts seen) c.
Proof. reflexivity. Qed.

(** One frame of the message, by kind. *)
Lemma receive_data (started : bool) fuel parts c c1 fin p :
  on_input (read_frame (max_message c) false) c = (Ok (MkFrame fin (if started then OP_CONT else OP_TEXT) p), c1) ->
  Z.of_nat (length (parts ++ p)) <= max_message c ->
  receive_loop urandom (S fuel) parts (if started then Some OP_TEXT else None) c =
    if fin then
      match utf8_decode (parts ++ p) with
      | Some s => (Ok (Some s), c1)
      | None => (Raise (WebSocketError "text message is not valid UTF-8"), c1)
      end
    else receive_loop urandom fuel (parts ++ p) (Some OP_TEXT) c1.
Proof.
  intros E Hsz. rewrite receive_loop_step, (or_timeout_ok _ _ _ _ _ _ E).
  destruct started; unfold mbind, ST_bind, raise_if; cbn [f_opcode f_payload f_fin];
    rewrite (proj2 (Z.ltb_ge _ _)) by lia; (destruct fin; [|reflexivity]); cbn; by destruct (utf8_decode (parts ++ p)).
Qed.
Lemma receive_ping fuel parts seen c c1 fin p :
  on_input (read_frame (max_message c) false) c = (Ok (MkFrame fin OP_PING p), c1) -> closed c1 = false -> k_sends c1 = [] ->
  receive_loop urandom (S fuel) parts seen c = receive_loop urandom fuel parts seen
    (Client (k_input c1) [] (k_sent c1 ++ [encode_frame OP_PONG p true true (urandom (k_tick c1))]) (S (k_tick c1)) (max_message c1) false).
Proof.
  intros E Hcl Hs. rewrite receive_loop_step, (or_timeout_ok _ _ _ _ _ _ E). cbn [f_opcode f_payload Z.eqb]. rewrite Z.eqb_refl.
  by rewrite (or_timeout_ok _ _ _ _ _ _ (send_ok OP_PONG p c1 Hcl Hs)).
Qed.
Lemma receive_pong fuel parts seen c c1 fin p :
  on_input (read_frame (max_message c) false) c = (Ok (MkFrame fin OP_PONG p), c1) ->
  receive_loop urandom (S fuel) parts seen c = receive_loop urandom fuel parts seen c1.
Proof. intros E. by rewrite receive_loop_step, (or_timeout_ok _ _ _ _ _ _ E). Qed.

Lemma sendable_data (started fin : bool) p m :
  Z.of_nat (length p) <= m -> m < 2 ^ 64 -> sendable fin (if started then OP_CONT else OP_TEXT) p.
Proof. intros Hp Hm. unfold sendable, known_opcodes. destruct started; (split_and!; [set_solver|lia|by intros []]). Qed.
Lemma pings_data (started fin : bool) p fs : pings (MkFrame fin (if started then OP_CONT else OP_TEXT) p :: fs) = pings fs.
Proof. by destruct started. Qed.

Lemma receive_loop_delivers rest s started fs data :
  carries started fs data -> forall fuel c parts,
  idle c -> content (k_input c) = wire fs ++ rest -> (length fs <= fuel)%nat ->
  125 <= max_message c < 2 ^ 64 -> Z.of_nat (length (parts ++ data)) <= max_message c ->
  utf8_decode (parts ++ data) = Some s ->
  exists c', receive_loop urandom fuel parts (if started then Some OP_TEXT else None) c = (Ok (Some s), c') /\
    content (k_input c') = rest /\ closed c' = false /\ k_sent c' = k_sent c ++ pongs urandom (k_tick c) (pings fs).
Proof.
  induction 1 as [started p|started p fs data Hca IH|started op p fs data Hop Hlen Hca IH];
    intros [|fuel] c parts Hi Hc Hf Hm Hsz Hd; try (cbn in Hf; lia); cbn [length] in Hf; rewrite length_app in Hsz.
  - destruct (read_from_wire c (MkFrame true (if started then OP_CONT else OP_TEXT) p) [] rest Hi) as (c1 & E & Hi1 & Hc1 & Hm1 & Hs1 & Ht1);
      [apply (sendable_data started true p (max_message c)); lia|cbn [f_payload]; lia|exact Hc|].
    rewrite (receive_data started fuel parts c c1 true p E), Hd by (rewrite length_app; lia).
    exists c1. split_and!; [done|exact Hc1|apply Hi1|]. by rewrite Hs1, pings_data, app_nil_r.
  - rewrite length_app in Hsz.
    destruct (read_from_wire c (MkFrame false (if started then OP_CONT else OP_TEXT) p) fs rest Hi) as (c1 & E & Hi1 & Hc1 & Hm1 & Hs1 & Ht1);
      [apply (sendable_data started false p (max_message c)); lia|cbn [f_payload]; lia|exact Hc|].
    rewrite (receive_data started fuel parts c c1 false p E) by (rewrite length_app; lia).
    destruct (IH fuel c1 (parts ++ p)) as (c' & E' & Hr);
      [exact Hi1|exact Hc1|lia|by rewrite Hm1|rewrite Hm1, !length_app; lia|by rewrite <- app_assoc|].
    exists c'. split; [exact E'|]. by rewrite Hs1, Ht1, <- (pings_data started false p) in Hr.
  - assert (Hop' : op = OP_PING \/ op = OP_PONG) by set_solver.
    destruct (read_from_wire c (MkFrame true op p) fs rest Hi) as (c1 & E & (I1 & I2 & I3) & Hc1 & Hm1 & Hs1 & Ht1);
      [unfold sendable, known_opcodes; cbn [f_fin f_opcode f_payload]; split_and!; [set_solver|lia|auto]|cbn [f_payload]; lia|exact Hc|].
    destruct Hop' as [->| ->].
    + rewrite (receive_ping fuel parts _ c c1 true p E I1 I2).
      match goal with |- context [receive_loop _ _ _ _ ?c2] => destruct (IH fuel c2 parts) as (c' & E' & Hr1 & Hr2 & Hr3) end;
        [done|exact Hc1|lia|cbn; by rewrite Hm1|cbn; rewrite Hm1, length_app; lia|exact Hd|].
      exists c'. split; [exact E'|]. split_and!; [done|done|]. rewrite Hr3. cbn. by rewrite Hs1, Ht1, <- app_assoc.
    + rewrite (receive_pong fuel parts _ c c1 true p E).
      destruct (IH fuel c1 parts) as (c' & E' & Hr); [done|exact Hc1|lia|by rewrite Hm1|rewrite Hm1, length_app; lia|exact Hd|].
      exists c'. split; [exact E'|]. by rewrite Hs1, Ht1 in Hr.
Qed.
End receive.

(** A text message arrives whole.  When the server sends it as one TEXT
    frame and any number of continuations, with pings and pongs in between and cut
    into chunks anywhere, [receive_text] returns it, answers every ping with one
    pong of the same payload in order, and leaves the bytes after the message. *)
Theorem receive_text_delivers (urandom : nat -> bytes) (c : WebSocketClient) (fs : list Frame) (data rest : bytes) (s : text) :
  idle c -> content (k_input c) = wire fs ++ rest -> carries false fs data -> utf8_decode data = Some s ->
  125 <= max_message c < 2 ^ 64 -> Z.of_nat (length data) <= max_message c ->
  exists c', receive_text urandom c = (Ok (Some s), c') /\ content (k_input c') = rest /\ closed c' = false /\
    k_sent c' = k_sent c ++ pongs urandom (k_tick c) (pings fs).
Proof.
  intros Hi Hc Hca Hd Hm Hl. unfold receive_text, mbind, ST_bind, gets, raise_if, id. rewrite (proj1 Hi). cbn [mret ST_ret].
  apply (receive_loop_delivers urandom rest s false fs data Hca _ c []); try done.
  rewrite input_size_content, Hc, length_app. pose proof (length_wire fs). lia.
Qed.

Lemma receive_text_delivers_witness :
  let fs := [MkFrame false OP_TEXT (b_ "ab"); MkFrame true OP_PING (b_ "p"); MkFrame true OP_CONT (b_ "c")] in
  let c := Client [Chunk (take 3 (wire fs)); Chunk (drop 3 (wire fs) ++ b_ "x")] [] [] 0 1000 false in
  exists c', receive_text (fun _ => [1; 2; 3; 4]) c = (Ok (Some (b_ "abc")), c') /\ content (k_input c') = b_ "x" /\
    k_sent c' = [encode_frame OP_PONG (b_ "p") true true [1; 2; 3; 4]].
Proof.
  intros fs c. destruct (receive_text_delivers (fun _ => [1; 2; 3; 4]) c fs (b_ "abc") (b_ "x") (b_ "abc")) as (c' & E & Hc & _ & Hs).
  - split; [reflexivity|]. split; [reflexivity|]. repeat constructor; eexists; (split; [reflexivity|done]).
  - vm_compute. reflexivity.
  - apply (carries_more false (b_ "ab") _ (b_ "c")), (carries_control true OP_PING (b_ "p")); [set_solver|vm_compute; lia|].
    apply (carries_last true (b_ "c")).
  - vm_compute. reflexivity.
  - cbn. lia.
  - vm_compute. done.
  - exists c'. split; [exact E|]. split; [exact Hc|exact Hs].
Defined.

(** ** Bounds and termination, whatever the peer sends *)

(** Bytes are bytes, and each frame shortens the input by at least two. *)
Definition byte_input (input : list recv_event) : Prop := Forall (fun e => match e with Chunk bs => Forall is_byte bs | Timeout => True end) input.

Lemma read_exact_input n input r input' :
  read_exact n input = (r, input') ->
  (byte_input input -> byte_input input' /\ forall bs, r = Ok bs -> Forall is_byte bs) /\
  (input_size input' <= input_size input)%nat /\ (forall bs, r = Ok bs -> (input_size input' + n = input_size input)%nat /\ length bs = n).
Proof.
  revert n r input'. induction input as [|e input IH]; intros [|n] r input'; cbn [read_exact].
  - intros [= <- <-]. split_and!; [intros; split; [done|by intros ? [= <-]]|done|by intros ? [= <-]].
  - intros [= <- <-]. split_and!; [done|done|done].
  - destruct e; intros [= <- <-]; (split_and!; [intros; split; [done|by intros ? [= <-]]|done|intros ? [= <-]; split; [lia|done]]).
  - destruct e as [[|b bs]|]; [intros [= <- <-]; split_and!; done| |intros [= <- <-]; split_and!; [|done|done]].
    2: { intros Hb. by apply Forall_cons in Hb as [_ Hb]. }
    destruct (Nat.ltb_spec (S n) (length (b :: bs))) as [Hlt|Hle].
    + intros [= <- <-]. assert (Hlen : length (b :: take n bs) = S n) by (cbn in *; rewrite length_take; lia).
      split_and!.
      * intros Hb. apply Forall_cons in Hb as [Hb Hi]. split.
        -- constructor; [|done]. by apply (Forall_drop _ (S n)) in Hb.
        -- intros ? [= <-]. by apply (Forall_take _ (S n)) in Hb.
      * unfold input_size. cbn. rewrite length_drop. lia.
      * intros ? [= <-]. split; [|done]. unfold input_size. cbn. rewrite length_drop. cbn in *. lia.
    + destruct (read_exact (S n - length (b :: bs)) input) as [[more|e] i] eqn:E; intros [= <- <-];
        destruct (IH _ _ _ E) as (H1 & H2 & H3); split_and!.
      * intros Hb. apply Forall_cons in Hb as [Hb Hi]. destruct (H1 Hi) as [Hi' Hm]. split; [done|].
        intros ? [= <-]. change (b :: bs ++ more) with ((b :: bs) ++ more). apply Forall_app. split; [done|by apply Hm].
      * unfold input_size in *. cbn. lia.
      * intros ? [= <-]. destruct (H3 more eq_refl) as [H4 H5]. change (b :: bs ++ more) with ((b :: bs) ++ more).
        rewrite length_app. unfold input_size in *. cbn in *. lia.
      * intros Hb. apply Forall_cons in Hb as [Hb Hi]. destruct (H1 Hi) as [Hi' Hm]. split; [done|done].
      * unfold input_size in *. cbn. lia.
      * done.
Qed.

Definition consumed (n : nat) (i i' : list recv_event) : Prop :=
  (input_size i' + n <= input_size i)%nat /\ (byte_input i -> byte_input i').

Lemma wp_read_exact n (Q : bytes -> list recv_event -> Prop) i :
  (forall bs i', consumed (Z.to_nat n) i i' -> (byte_input i -> Forall is_byte bs) -> length bs = Z.to_nat n -> Q bs i') ->
  wp (_read_exact n) Q i.
Proof.
  intros HQ. unfold wp, _read_exact. destruct (read_exact (Z.to_nat n) i) as [[bs|e] i'] eqn:E; [|done].
  destruct (read_exact_input _ _ _ _ E) as (H1 & _ & H3). destruct (H3 bs eq_refl) as [H4 H5].
  apply HQ; [split; [lia|by intros Hb; apply H1]|intros Hb; by apply H1|done].
Qed.

Lemma consumed_trans n m i1 i2 i3 : consumed n i1 i2 -> consumed m i2 i3 -> consumed n i1 i3.
Proof. intros [? ?] [? ?]. split; [lia|auto]. Qed.

Lemma wp_read_frame max_payload i :
  wp (read_frame max_payload false) (fun f i' => consumed 2 i i' /\ (byte_input i -> Forall is_byte (f_payload f)) /\
    f_opcode f ∈ known_opcodes) i.
Proof.
  unfold read_frame. apply wp_bind, wp_read_exact. intros header i1 H1 _ _. cbv zeta.
  apply wp_bind, wp_raise_if. intros _. apply wp_bind, wp_raise_if. intros Hop. apply wp_bind, wp_raise_if. intros Hmask.
  apply negb_false_iff, eqb_prop in Hmask. rewrite Hmask.
  apply wp_bind. apply (wp_mono _ (fun _ i2 => consumed 2 i i2)).
  { intros len i2 H2. apply wp_bind, wp_raise_if. intros _. apply wp_bind, wp_raise_if. intros _.
    apply wp_bind, wp_ret, wp_bind, wp_read_exact. intros payload i3 H3 Hb _. apply wp_ret. cbn [f_payload f_opcode].
    split; [by eapply consumed_trans|]. split; [intros Hi; apply Hb, H2, Hi|].
    apply negb_false_iff in Hop. by apply bool_decide_eq_true in Hop. }
  repeat case_match; [apply wp_bind, wp_read_exact..|]; intros; apply wp_ret; try (by eapply consumed_trans). done.
Qed.

(** Nothing but the loop runs out of fuel. *)
Definition fueled {S A} (m : ST ws_exn S A) : Prop := forall s, (m s).1 ≠ Raise OutOfFuel.
Lemma fueled_bind {S A B} (m : ST ws_exn S A) (f : A -> ST ws_exn S B) : fueled m -> (forall a, fueled (f a)) -> fueled (m ≫= f).
Proof.
  intros Hm Hf s. specialize (Hm s). unfold mbind, ST_bind. destruct (m s) as [[a|e] s']; cbn in *; [apply Hf|congruence].
Qed.
Lemma fueled_ret {S A} (a : A) : fueled (mret a : ST ws_exn S A).
Proof. done. Qed.
Lemma fueled_raise_if {S} b msg : fueled (raise_if b (WebSocketError msg) : ST ws_exn S unit).
Proof. by destruct b. Qed.
Lemma fueled_read_exact n : fueled (_read_exact n).
Proof.
  intros i. unfold _read_exact. generalize (Z.to_nat n). clear n. induction i as [|e i IH]; intros [|n]; cbn [read_exact]; try done;
    (destruct e as [[|b bs]|]; try done); destruct (_ <? _)%nat; [done|].
  specialize (IH (S n - length (b :: bs))%nat). by destruct (read_exact _ i) as [[]].
Qed.
Create HintDb ws_fuel.
#[local] Hint Resolve fueled_bind fueled_ret fueled_raise_if fueled_read_exact : ws_fuel.
Lemma fueled_read_frame max_payload masked : fueled (read_frame max_payload masked).
Proof.
  unfold read_frame. repeat (apply fueled_bind; [|intros ?]; cbv zeta; auto with ws_fuel); repeat case_match; auto with ws_fuel.
Qed.

Section bounds.
Context (urandom : nat -> bytes).

(** An outcome of [receive_text] that respects the limit. *)
Definition within (limit : Z) (bytes_ok : Prop) (r : result ws_exn (option text)) : Prop :=
  match r with
  | Ok (Some s) => bytes_ok -> utf8_size s <= limit
  | Raise OutOfFuel => False
  | _ => True
  end.

Lemma send_keeps op p c :
  k_input (_send urandom op p c).2 = k_input c /\ max_message (_send urandom op p c).2 = max_message c /\
  (_send urandom op p c).1 ≠ Raise OutOfFuel.
Proof.
  unfold _send, mbind, ST_bind, gets, raise_if, id. destruct (closed c); [done|]. cbn.
  destruct (k_sends c) as [|[] l]; done.
Qed.
Lemma close_ok code reason c : (close urandom code reason c).1 = Ok tt.
Proof. unfold close. by destruct (closed c). Qed.

Lemma or_timeout_within {A} (m : WS A) parts k c limit P :
  ((m c).1 ≠ Raise OutOfFuel) -> (forall a, (m c).1 = Ok a -> within limit P (k a (m c).2).1) -> within limit P (or_timeout m parts k c).1.
Proof.
  intros Hm Hk. unfold or_timeout. destruct (m c) as [[a|[]] c1]; cbn in *; try done; [by apply Hk|by case_bool_decide].
Qed.

Lemma within_raise_if b msg (k : unit -> WS (option text)) c limit P :
  (b = false -> within limit P (k tt c).1) -> within limit P ((raise_if b (WebSocketError msg) ≫= k) c).1.
Proof. destruct b; cbn; [done|]. intros H. by apply H. Qed.

Lemma receive_loop_within limit P fuel c parts seen :
  (input_size (k_input c) < fuel)%nat -> max_message c = limit -> (P -> byte_input (k_input c) /\ Forall is_byte parts) ->
  within limit P (receive_loop urandom fuel parts seen c).1.
Proof.
  revert c parts seen. induction fuel as [|fuel IH]; intros c parts seen Hf Hm HP; [lia|].
  rewrite receive_loop_step. apply or_timeout_within.
  { unfold on_input. pose proof (fueled_read_frame (max_message c) false (k_input c)) as Hn. by destruct (read_frame _ _ _). }
  intros frame E. unfold on_input in E |- *. pose proof (wp_read_frame (max_message c) (k_input c)) as Hw. unfold wp in Hw.
  destruct (read_frame (max_message c) false (k_input c)) as [r i1]. cbn in E. subst r. destruct Hw as ([Hlt Hby] & Hpay & Hop).
  set (c1 := set_input i1 c). cbn [snd]. change i1 with (k_input c1) in Hlt, Hby. change (max_message c) with (max_message c1) in Hm.
  assert (Hnext : forall c2 parts' seen', k_input c2 = k_input c1 -> max_message c2 = max_message c1 -> (P -> Forall is_byte parts') ->
    within limit P (receive_loop urandom fuel parts' seen' c2).1).
  { intros c2 parts' seen' Hi2 Hm2 Hp2. apply IH; [rewrite Hi2; lia|by rewrite Hm2|]. intros HP'. rewrite Hi2. split; [by apply Hby, HP|auto]. }
  assert (Hparts : P -> Forall is_byte parts) by (intros HP'; by apply HP).
  destruct (f_opcode frame =? OP_PING).
  { destruct (send_keeps OP_PONG (f_payload frame) c1) as (K1 & K2 & K3). apply or_timeout_within; [done|]. intros _ _. by apply Hnext. }
  destruct (f_opcode frame =? OP_PONG); [by apply Hnext|].
  destruct (f_opcode frame =? OP_CLOSE).
  { cbv zeta. unfold mbind, ST_bind, raise.
    match goal with |- context [close _ ?code ?r c1] => pose proof (close_ok code r c1) as Hcl; destruct (close _ code r c1) as [r0 c2] end.
    cbn in Hcl. by rewrite Hcl. }
  apply within_raise_if. intros _. apply within_raise_if. intros _. cbv zeta. apply within_raise_if. intros Hsz.
  assert (Hp2 : P -> Forall is_byte (parts ++ f_payload frame)).
  { intros HP'. apply Forall_app. split; [auto|]. by apply Hpay, HP. }
  destruct (f_fin frame); [|by apply Hnext].
  apply within_raise_if. intros _. destruct (utf8_decode _) as [s|] eqn:Ed; [|done].
  cbn. intros HP'. rewrite (utf8_decode_size _ _ (Hp2 HP') Ed). cbn in Hm. lia.
Qed.
End bounds.

(** Whatever the server sends and however it is cut, [receive_text]
    terminates (the fuel it runs with is never used up), and a message it returns
    is valid UTF-8 of at most [max_message] bytes. *)
Theorem receive_text_bounded (urandom : nat -> bytes) (c : WebSocketClient) :
  (receive_text urandom c).1 ≠ Raise OutOfFuel /\
  forall s, (receive_text urandom c).1 = Ok (Some s) -> byte_input (k_input c) -> utf8_size s <= max_message c.
Proof.
  assert (Hw : within (max_message c) (byte_input (k_input c)) (receive_text urandom c).1).
  { unfold receive_text, mbind, ST_bind, gets, raise_if, id. destruct (closed c); [done|]. cbn [mret ST_ret].
    apply receive_loop_within; [lia|done|]. intros Hb. split; [done|constructor]. }
  split.
  - intros E. by rewrite E in Hw.
  - intros s E Hb. rewrite E in Hw. by apply Hw.
Qed.

(** A time-out inside a frame loses the bytes of the frame that were already
    read: the worker, which polls with a short time-out, then takes the rest of
    the frame for a new one.  Here the server sends one valid message whose bytes
    arrive in two pieces with one poll in between. *)
Theorem timeout_loses_frame_bytes (urandom : nat -> bytes) :
  let message := encode_frame OP_TEXT (b_ "hi!") false true [] in
  let c := Client [Chunk (take 3 message); Timeout; Chunk (drop 3 message)] [] [] 0 1000 false in
  let c' := Client [Chunk message] [] [] 0 1000 false in
  (receive_text urandom c').1 = Ok (Some (b_ "hi!")) /\
  (receive_text urandom c).1 = Ok None /\
  (receive_text urandom (receive_text urandom c).2).1 = Raise (WebSocketError "reserved bits set without a negotiated extension").
Proof. vm_compute. done. Qed.
