(* ===== verification/Input.v ===== *)
(** * Terminal input ([bridge_input.py])

    The bracketed-paste decoder as a record with one function, [feed], for the
    chunks a terminal delivers; the text buffer of the forms; and the mapping
    between code points and terminal cells.  The width classes of a character
    come from [unicodedata] and are parameters. *)

From S2P Require Import Prelude Bytes.
From stdpp Require Import options.
Local Open Scope Z_scope.

(** ** Searching in bytes *)

Fixpoint starts_with (sub s : bytes) : bool :=
  match sub, s with
  | [], _ => true
  | a :: sub', b :: s' => (a =? b) && starts_with sub' s'
  | _ :: _, [] => false
  end.
(** [s.find(sub, start)] for a non-empty [sub], [None] for -1. *)
Fixpoint find_at (sub s : bytes) (i : nat) : option nat :=
  if starts_with sub s then Some i
  else match s with [] => None | _ :: s' => find_at sub s' (S i) end.
Definition find_from (sub s : bytes) (start : nat) : option nat := find_at sub (drop start s) start.
(** [del s[:-keep]] when [s] is longer than [keep]. *)
Definition keep_last (keep : nat) (s : bytes) : bytes := drop (length s - keep) s.

(** ** Newlines *)

Fixpoint normalize_paste_newlines (s : text) : text :=
  match s with
  | [] => []
  | c :: s' =>
      (if (c =? 13) && negb (match s' with d :: _ => d =? 10 | [] => false end) then 10 else c) :: normalize_paste_newlines s'
  end.

(** ** Bracketed paste *)

Definition START : bytes := [27; 91; 50; 48; 48; 126].
Definition END_ : bytes := [27; 91; 50; 48; 49; 126].

Record BracketedPaste : Type := Paste {
  bp_max_bytes : Z;
  bp_pending : bytes;
  bp_active : bool;
  bp_discarding : bool;
  bp_interrupted : bool;
  bp_done : bool;
  bp_scan_from : nat;
  bp_received : nat;
  bp_error : string;
}.
Definition new_paste (max_bytes : Z) : BracketedPaste := Paste max_bytes [] false false false false 0 0 "".

Definition waiting (b : BracketedPaste) : bool := negb (bool_decide (bp_pending b = [])) || bp_active b.
Definition reset (b : BracketedPaste) : BracketedPaste := new_paste (bp_max_bytes b).
Definition interrupt (b : BracketedPaste) : BracketedPaste :=
  Paste (bp_max_bytes b) (bp_pending b) (bp_active b) true true (bp_done b) (bp_scan_from b) (bp_received b) "Incomplete paste discarded".
(** [self.reset()] followed by [self.error = e; self.done = True]. *)
Definition finished (e : string) (b : BracketedPaste) : BracketedPaste :=
  Paste (bp_max_bytes b) [] false false false true 0 0 e.

Definition too_large (received : nat) (max_bytes : Z) : string :=
  "paste received " +:+ pretty (Z.of_nat received) +:+ " bytes; limit is " +:+ pretty max_bytes.

(** The longest proper prefix of [END] the pending bytes end with. *)
Definition overlap_of (pending : bytes) : nat :=
  foldl (fun overlap count => if bool_decide (keep_last count pending = take count END_) then count else overlap) 0%nat
    (seq 1 (Nat.min (length END_ - 1) (length pending))).

(** Everything after the START marker has been seen. *)
Definition feed_active (b : BracketedPaste) (pending : bytes) : option text * BracketedPaste :=
  let keep := (length END_ - 1)%nat in
  let search_from := (bp_scan_from b - (length END_ - 1))%nat in
  let end_ := find_from END_ pending search_from in
  if bp_discarding b then
    match end_ with
    | Some e =>
        (None, finished (if bp_interrupted b then "Incomplete paste discarded"
                         else too_large (bp_received b + e) (bp_max_bytes b)) b)
    | None =>
        let kept := if (keep <? length pending)%nat then keep_last keep pending else pending in
        (None, Paste (bp_max_bytes b) kept true true (bp_interrupted b) (bp_done b) (length kept)
                 (if (keep <? length pending)%nat then bp_received b + (length pending - keep) else bp_received b) (bp_error b))
    end
  else
    match end_ with
    | None =>
        if bp_max_bytes b <? Z.of_nat (length pending - overlap_of pending) then
          let kept := if (keep <? length pending)%nat then keep_last keep pending else pending in
          (None, Paste (bp_max_bytes b) kept true true (bp_interrupted b) (bp_done b) (length kept) (length pending - keep) "")
        else (None, Paste (bp_max_bytes b) pending true false (bp_interrupted b) (bp_done b) (length pending) (bp_received b) (bp_error b))
    | Some e =>
        let payload := take e pending in
        if bp_max_bytes b <? Z.of_nat (length payload) then (None, finished (too_large (length payload) (bp_max_bytes b)) b)
        else match utf8_decode payload with
             | Some s => (Some (normalize_paste_newlines s), finished "" b)
             | None => (None, finished "paste ended with incomplete or invalid UTF-8" b)
             end
    end.

Definition feed (b : BracketedPaste) (chunk : bytes) : option text * BracketedPaste :=
  let pending := bp_pending b ++ chunk in
  if bp_active b then feed_active b pending
  else
    match find_from START pending 0 with
    | None =>
        let keep := (length START - 1)%nat in
        (None, Paste (bp_max_bytes b) (if (keep <? length pending)%nat then keep_last keep pending else pending) false
                 (bp_discarding b) (bp_interrupted b) (bp_done b) (bp_scan_from b) (bp_received b) (bp_error b))
    | Some start => feed_active b (drop (start + length START) pending)
    end.

(** ** Occurrences *)

Definition occurs (sub s : bytes) (n : nat) : Prop := sub `prefix_of` drop n s.
(** [n] is the first position at or after [start]. *)
Definition first_at (sub s : bytes) (start n : nat) : Prop :=
  (start <= n)%nat /\ occurs sub s n /\ forall m, (start <= m < n)%nat -> ~ occurs sub s m.

Lemma starts_with_prefix sub s : starts_with sub s = true <-> sub `prefix_of` s.
Proof.
  revert s. induction sub as [|a sub IH]; intros s; [split; [intros _; apply prefix_nil|by destruct s]|].
  destruct s as [|b s]; cbn; [split; [done|by intros ?%prefix_nil_not]|].
  rewrite andb_true_iff, Z.eqb_eq, IH. split; [by intros [-> ?]; apply prefix_cons|].
  intros Hp. split; [by eapply prefix_cons_inv_1|by eapply prefix_cons_inv_2].
Qed.

Lemma occurs_length sub s n : occurs sub s n -> sub ≠ [] -> (n + length sub <= length s)%nat.
Proof.
  intros Ho%prefix_length Hn. rewrite length_drop in Ho. destruct sub; [done|]. cbn in *. lia.
Qed.
Lemma occurs_drop sub s k n : occurs sub (drop k s) n <-> occurs sub s (k + n).
Proof. unfold occurs. by rewrite drop_drop. Qed.
Lemma occurs_app_l sub s t n : occurs sub s n -> (n <= length s)%nat -> occurs sub (s ++ t) n.
Proof. unfold occurs. intros [k Hk] Hn. rewrite drop_app_le, Hk by done. exists (k ++ t). by rewrite app_assoc. Qed.
Lemma occurs_app_inv sub s t n : occurs sub (s ++ t) n -> (n + length sub <= length s)%nat -> occurs sub s n.
Proof.
  unfold occurs. intros [k Hk] Hn. rewrite drop_app_le in Hk by lia.
  exists (drop (length sub) (drop n s)). symmetry.
  apply (f_equal (take (length sub))) in Hk. rewrite take_app_length, take_app_le in Hk by (rewrite length_drop; lia).
  rewrite <- Hk at 1. apply take_drop.
Qed.
Lemma occurs_middle pre sub t : occurs sub (pre ++ sub ++ t) (length pre).
Proof. unfold occurs. rewrite drop_app_length. by exists t. Qed.

Lemma find_at_spec sub s i :
  sub ≠ [] ->
  match find_at sub s i with
  | Some n => (i <= n)%nat /\ occurs sub s (n - i) /\ forall m, (m < n - i)%nat -> ~ occurs sub s m
  | None => forall m, ~ occurs sub s m
  end.
Proof.
  intros Hsub. revert i. induction s as [|x s IH]; intros i; cbn [find_at].
  - destruct (starts_with sub []) eqn:E; [apply starts_with_prefix, prefix_nil_inv in E; done|].
    intros m Ho%occurs_length; [|done]. destruct sub; cbn in *; [done|lia].
  - destruct (starts_with sub (x :: s)) eqn:E.
    + rewrite Nat.sub_diag. split_and!; [lia|by apply starts_with_prefix|lia].
    + assert (H0 : ~ occurs sub (x :: s) 0) by (intros Ho%starts_with_prefix; cbn [drop] in Ho; congruence).
      specialize (IH (S i)). destruct (find_at sub s (S i)) as [n|].
      * destruct IH as (Hn & Ho & Hmin). split; [lia|]. replace (n - i)%nat with (S (n - S i)) by lia. split; [exact Ho|].
        intros [|m] Hm; [done|]. apply (Hmin m). lia.
      * intros [|m]; [done|]. apply (IH m).
Qed.

Lemma find_from_Some sub s start n : sub ≠ [] -> find_from sub s start = Some n <-> first_at sub s start n.
Proof.
  intros Hs. unfold find_from. pose proof (find_at_spec sub (drop start s) start Hs) as Hf. destruct (find_at _ _ _) as [k|].
  - destruct Hf as (Hk & Ho & Hmin). rewrite occurs_drop in Ho. replace (start + (k - start))%nat with k in Ho by lia.
    assert (Hfirst : first_at sub s start k).
    { split_and!; [done|done|]. intros m Hm Hom. apply (Hmin (m - start)%nat); [lia|]. rewrite occurs_drop.
      by replace (start + (m - start))%nat with m by lia. }
    split; [by intros [= ->]|]. intros (Hn & Hon & Hnmin). f_equal.
    destruct (lt_eq_lt_dec k n) as [[Hlt|]|Hlt]; [|done|]; exfalso.
    + apply (Hnmin k); [lia|done].
    + apply (proj2 (proj2 Hfirst) n); [lia|done].
  - split; [done|]. intros (Hn & Ho & _). exfalso. apply (Hf (n - start)%nat). rewrite occurs_drop.
    by replace (start + (n - start))%nat with n by lia.
Qed.
Lemma find_from_None sub s start : sub ≠ [] -> find_from sub s start = None <-> forall m, (start <= m)%nat -> ~ occurs sub s m.
Proof.
  intros Hs. unfold find_from. pose proof (find_at_spec sub (drop start s) start Hs) as Hf. destruct (find_at _ _ _) as [k|].
  - split; [done|]. intros Hno. destruct Hf as (Hk & Ho & _). rewrite occurs_drop in Ho. exfalso. eapply Hno; [|exact Ho]. lia.
  - split; [|done]. intros _ m Hm Ho. apply (Hf (m - start)%nat). rewrite occurs_drop.
    by replace (start + (m - start))%nat with m by lia.
Qed.

(** Searching the part of a stream that is still kept. *)
Lemma find_suffix sub whole q c d s0 n :
  sub ≠ [] -> first_at sub whole 0 n -> (q ++ c) `prefix_of` whole -> (d <= length q)%nat -> (d <= n)%nat -> (s0 <= n - d)%nat ->
  find_from sub (drop d q ++ c) s0 = if decide (n + length sub <= length (q ++ c))%nat then Some (n - d)%nat else None.
Proof.
  intros Hs (_ & Ho & Hmin) [r Hw] Hdq Hdn Hs0. rewrite <- (drop_app_le q c) by done.
  assert (Hiff : forall m, occurs sub (drop d (q ++ c)) m <-> occurs sub whole (d + m) /\ (d + m + length sub <= length (q ++ c))%nat).
  { intros m. rewrite occurs_drop. split.
    - intros Hm. pose proof (occurs_length _ _ _ Hm Hs). split; [|done]. rewrite Hw. apply occurs_app_l; [done|lia].
    - intros [Hm Hle]. rewrite Hw in Hm. by apply occurs_app_inv in Hm. }
  case_decide as Hle.
  - apply find_from_Some; [done|]. split_and!; [done| |].
    + apply Hiff. replace (d + (n - d))%nat with n by lia. done.
    + intros m Hm Hom. apply Hiff in Hom as [Hom _]. apply (Hmin (d + m)%nat); [lia|done].
  - apply find_from_None; [done|]. intros m _ Hom. apply Hiff in Hom as [Hom Hl].
    destruct (decide (d + m < n)%nat) as [Hlt|]; [|lia]. apply (Hmin (d + m)%nat); [lia|done].
Qed.

(** The overlap counts the END bytes already received. *)
Lemma overlap_le u k : (k <= 5)%nat -> (k <= length u)%nat -> keep_last k u = take k END_ -> (k <= overlap_of u)%nat.
Proof.
  intros Hk Hu E. destruct k as [|k]; [lia|]. unfold overlap_of.
  assert (Hmono : forall l acc, (forall x, x ∈ l -> (acc <= x)%nat) -> StronglySorted le l ->
    (acc <= foldl (fun overlap count => if bool_decide (keep_last count u = take count END_) then count else overlap) acc l)%nat).
  { induction l as [|x l IH]; intros acc Ha Hl; cbn; [lia|]. apply StronglySorted_inv in Hl as [Hl Hx]. rewrite Forall_forall in Hx.
    case_bool_decide; [|apply IH; [intros; apply Ha; by right|done]].
    transitivity x; [apply Ha; left|]. apply IH; [|done]. intros y Hy. by apply Hx. }
  assert (Hgen : forall l acc, StronglySorted le l -> S k ∈ l ->
    (S k <= foldl (fun overlap count => if bool_decide (keep_last count u = take count END_) then count else overlap) acc l)%nat).
  { induction l as [|x l IH]; intros acc Hl Hin; [set_solver|]. cbn. apply StronglySorted_inv in Hl as [Hl Hx].
    rewrite Forall_forall in Hx. apply elem_of_cons in Hin as [<-|Hin]; [|by apply IH].
    rewrite bool_decide_true by done. apply Hmono; [|done]. intros y Hy. by apply Hx. }
  apply Hgen; [|apply elem_of_seq; change (length END_ - 1)%nat with 5%nat; lia].
  set (n := Nat.min _ _). clearbody n. generalize 1%nat. clear. induction n as [|n IH]; intros i; cbn; constructor; [done|].
  apply Forall_forall. intros y Hy%elem_of_seq. lia.
Qed.

(** ** A whole transaction *)

Section transaction.
Context (max_bytes : Z) (p : bytes).
Context (Hend : first_at END_ (p ++ END_) 0 (length p)).

Definition concluded : option text * BracketedPaste :=
  if max_bytes <? Z.of_nat (length p) then (None, finished (too_large (length p) max_bytes) (new_paste max_bytes))
  else match utf8_decode p with
       | Some s => (Some (normalize_paste_newlines s), finished "" (new_paste max_bytes))
       | None => (None, finished "paste ended with incomplete or invalid UTF-8" (new_paste max_bytes))
       end.

(** [u] of the body [p ++ END] has been received: all of it is pending, or it
    is being discarded because the payload is too large. *)
Definition collecting (u : bytes) (b : BracketedPaste) : Prop :=
  exists scan, b = Paste max_bytes u true false false false scan 0 "" /\ (scan <= length u)%nat.
Definition dropping (u : bytes) (b : BracketedPaste) : Prop :=
  exists scan, b = Paste max_bytes (keep_last 5 u) true true false false scan (length u - 5) "" /\
    (scan <= 5)%nat /\ max_bytes < Z.of_nat (length p).

(** Every END byte received so far overlaps. *)
Lemma overlap_received u : u `prefix_of` (p ++ END_) -> (length u < length p + 6)%nat -> (length u - overlap_of u <= length p)%nat.
Proof.
  intros [r Hu] Hl. destruct (decide (length u <= length p)%nat); [lia|].
  remember (length u - length p)%nat as k eqn:Ek.
  assert (E : u = p ++ take k END_).
  { apply (f_equal (take (length u))) in Hu. rewrite take_app_length, take_app, take_ge in Hu by lia. by rewrite <- Ek in Hu. }
  assert (Hk : keep_last k u = take k END_).
  { unfold keep_last. replace (length u - k)%nat with (length p) by lia. rewrite E. by rewrite drop_app_length. }
  pose proof (overlap_le u k ltac:(lia) ltac:(lia) Hk). lia.
Qed.

Lemma kept_is_keep_last k u : (if (k <? length u)%nat then keep_last k u else u) = keep_last k u.
Proof.
  destruct (Nat.ltb_spec k (length u)); [done|]. unfold keep_last. by replace (length u - k)%nat with 0%nat by lia.
Qed.
Lemma keep_last_app k u c : keep_last k (keep_last k u ++ c) = keep_last k (u ++ c).
Proof.
  unfold keep_last. rewrite <- drop_app_le, drop_drop, length_drop, !length_app by lia. f_equal. lia.
Qed.
Lemma length_keep_last k u : length (keep_last k u) = Nat.min k (length u).
Proof. unfold keep_last. rewrite length_drop. lia. Qed.

Definition advanced (u : bytes) (r : option text * BracketedPaste) : Prop :=
  if decide (length u < length p + 6)%nat then exists b, r = (None, b) /\ (collecting u b \/ dropping u b) else r = concluded.

(** More of the body arrives, while it is collected. *)
Lemma feed_collecting q active u c scan :
  (u ++ c) `prefix_of` (p ++ END_) -> (length u < length p + 6)%nat -> (scan <= length u)%nat ->
  advanced (u ++ c) (feed_active (Paste max_bytes q active false false false scan 0 "") (u ++ c)).
Proof using Hend.
  intros Hpre Hu Hscan. unfold feed_active, advanced. cbn [bp_discarding bp_scan_from bp_max_bytes].
  pose proof (find_suffix END_ (p ++ END_) u c 0 (scan - (length END_ - 1)) (length p)) as Hf.
  rewrite drop_0, Nat.sub_0_r in Hf. rewrite Hf by (done || change (length END_) with 6%nat; lia). clear Hf.
  change (length END_) with 6%nat. change (6 - 1)%nat with 5%nat.
  destruct (decide (length (u ++ c) < length p + 6)%nat) as [Hlt|Hge].
  - rewrite decide_False by lia. pose proof (overlap_received (u ++ c) Hpre Hlt) as Hov.
    destruct (Z.ltb_spec max_bytes (Z.of_nat (length (u ++ c) - overlap_of (u ++ c)))) as [Hbig|Hok].
    + eexists. split; [reflexivity|]. right. rewrite kept_is_keep_last. eexists. split; [reflexivity|].
      rewrite length_keep_last. lia.
    + eexists. split; [reflexivity|]. left. by eexists.
  - rewrite decide_True by lia.
    assert (Htake : take (length p) (u ++ c) = p).
    { destruct Hpre as [r Hr]. apply (f_equal (take (length p))) in Hr. rewrite take_app_length in Hr. by rewrite take_app_le in Hr by lia. }
    rewrite Htake. unfold concluded. destruct (max_bytes <? _); [done|]. by destruct (utf8_decode p).
Qed.

(** More of the body arrives, while it is discarded. *)
Lemma feed_dropping u c b :
  dropping u b -> (u ++ c) `prefix_of` (p ++ END_) -> (length u < length p + 6)%nat -> advanced (u ++ c) (feed_active b (bp_pending b ++ c)).
Proof using Hend.
  intros (scan & -> & Hscan & Hbig) Hpre Hu. unfold feed_active, advanced. cbn [bp_discarding bp_scan_from bp_max_bytes bp_pending bp_interrupted bp_received].
  change (find_from END_ (keep_last 5 u ++ c)) with (find_from END_ (drop (length u - 5) u ++ c)).
  rewrite (find_suffix END_ (p ++ END_) u c _ _ (length p)) by (done || change (length END_) with 6%nat; lia).
  change (length END_) with 6%nat. change (6 - 1)%nat with 5%nat.
  destruct (decide (length (u ++ c) < length p + 6)%nat) as [Hlt|Hge].
  - rewrite decide_False by lia. eexists. split; [reflexivity|]. right. rewrite kept_is_keep_last, keep_last_app.
    eexists. split; [|split; [|done]].
    + f_equal. rewrite !length_app, length_keep_last. destruct (Nat.ltb_spec 5 (Nat.min 5 (length u) + length c)); lia.
    + rewrite length_keep_last. lia.
  - rewrite decide_True by lia. unfold concluded. rewrite (proj2 (Z.ltb_lt _ _) Hbig).
    replace (length u - 5 + (length p - (length u - 5)))%nat with (length p) by lia. done.
Qed.
End transaction.

(** Every chunk the terminal delivers, in order. *)
Fixpoint feed_all (b : BracketedPaste) (chunks : list bytes) : list (option text) * BracketedPaste :=
  match chunks with
  | [] => ([], b)
  | c :: chunks' => let '(r, b1) := feed b c in let '(rs, b2) := feed_all b1 chunks' in (r :: rs, b2)
  end.

Section stream.
Context (max_bytes : Z) (pre p : bytes).
Context (Hstart : first_at START (pre ++ START) 0 (length pre)) (Hend : first_at END_ (p ++ END_) 0 (length p)).

Definition stream : bytes := pre ++ START ++ p ++ END_.

Definition received_so_far (v : bytes) (b : BracketedPaste) : Prop :=
  if decide (length v < length pre + 6)%nat then b = Paste max_bytes (keep_last 5 v) false false false false 0 0 ""
  else collecting max_bytes (drop (length pre + 6) v) b \/ dropping max_bytes p (drop (length pre + 6) v) b.

Lemma start_first : first_at START stream 0 (length pre).
Proof using Hstart.
  destruct Hstart as (_ & Ho & Hmin). split_and!; [lia|apply occurs_middle|]. intros m Hm Hom. apply (Hmin m Hm).
  unfold stream in Hom. rewrite app_assoc in Hom. apply occurs_app_inv in Hom; [done|].
  rewrite length_app. change (length START) with 6%nat. lia.
Qed.

Lemma body_prefix v : v `prefix_of` stream -> drop (length pre + 6) v `prefix_of` (p ++ END_).
Proof using All.
  intros [r Hr]. destruct (decide (length v < length pre + 6)%nat) as [Hlt|Hge]; [rewrite drop_ge by lia; apply prefix_nil|].
  exists r. rewrite <- drop_app_le, <- Hr by lia. unfold stream. rewrite app_assoc, drop_app_length'; [done|]. by rewrite length_app.
Qed.

Lemma feed_advances v c b :
  received_so_far v b -> (v ++ c) `prefix_of` stream -> (length v < length stream)%nat ->
  if decide (length (v ++ c) < length stream)%nat then exists b', feed b c = (None, b') /\ received_so_far (v ++ c) b'
  else feed b c = concluded max_bytes p.
Proof using Hstart Hend.
  intros Hb Hpre Hv. set (n := (length pre + 6)%nat) in *. pose proof (body_prefix _ Hpre) as Hbody. fold n in Hbody.
  assert (Hlen : length stream = (n + (length p + 6))%nat) by (unfold stream, n; rewrite !length_app; cbn; lia).
  assert (Hgo : forall w, (n <= length w)%nat -> forall r, advanced max_bytes p (drop n w) r ->
    if decide (length w < length stream)%nat then exists b', r = (None, b') /\ received_so_far w b' else r = concluded max_bytes p).
  { intros w Hw r Hr. unfold advanced in Hr. rewrite length_drop in Hr. case_decide as H1; case_decide as H2; try lia; [|done].
    destruct Hr as (b' & -> & Hb'). exists b'. split; [done|]. unfold received_so_far. rewrite decide_False by lia. done. }
  unfold received_so_far in Hb. fold n in Hb. case_decide as Hn.
  - subst b. unfold feed. cbn [bp_active bp_pending].
    assert (E : keep_last 5 v ++ c = drop (length v - 5) (v ++ c)) by (unfold keep_last; by rewrite drop_app_le by lia).
    change (find_from START (keep_last 5 v ++ c)) with (find_from START (drop (length v - 5) v ++ c)).
    rewrite (find_suffix START stream v c _ _ (length pre)) by (apply start_first || done || lia).
    change (length START) with 6%nat. change (6 - 1)%nat with 5%nat. fold n. destruct (decide (n <= length (v ++ c))%nat) as [Hst|Hst].
    + rewrite E, drop_drop. replace (length v - 5 + (length pre - (length v - 5) + 6))%nat with n by lia.
      apply Hgo; [done|]. apply (feed_collecting max_bytes p Hend _ false [] (drop n (v ++ c)) 0); cbn; [done|lia|lia].
    + rewrite decide_True by lia. eexists. split; [reflexivity|]. unfold received_so_far. rewrite decide_True by lia.
      by rewrite kept_is_keep_last, keep_last_app.
  - assert (Hd : drop n (v ++ c) = drop n v ++ c) by (by rewrite drop_app_le by lia).
    assert (Hl : (length (drop n v) < length p + 6)%nat) by (rewrite length_drop; lia).
    apply Hgo; [rewrite length_app; lia|]. rewrite Hd in *. unfold feed. destruct Hb as [(scan & -> & Hs)|Hb].
    + cbn [bp_active bp_pending]. apply (feed_collecting max_bytes p Hend); done.
    + pose proof Hb as (scan & -> & _). cbn [bp_active]. by apply (feed_dropping max_bytes p Hend _ _ _ Hb).
Qed.
End stream.

(** C32: A paste transaction survives any chunking of the terminal's input: when
    the start marker, a payload without an end marker and the end marker
    arrive after other bytes, cut anywhere, every chunk but the last returns
    nothing and the last returns the payload's text with lone carriage returns
    as newlines - or the size or UTF-8 error - and nothing stays pending. *)
Theorem paste_survives_chunking (max_bytes : Z) (pre p : bytes) (chunks : list bytes) (final : bytes) :
  first_at START (pre ++ START) 0 (length pre) -> first_at END_ (p ++ END_) 0 (length p) ->
  concat chunks ++ final = pre ++ START ++ p ++ END_ -> final ≠ [] ->
  exists b, feed_all (new_paste max_bytes) chunks = (replicate (length chunks) None, b) /\
    feed b final =
      (if max_bytes <? Z.of_nat (length p) then (None, finished (too_large (length p) max_bytes) (new_paste max_bytes))
       else match utf8_decode p with
            | Some s => (Some (normalize_paste_newlines s), finished "" (new_paste max_bytes))
            | None => (None, finished "paste ended with incomplete or invalid UTF-8" (new_paste max_bytes))
            end).
Proof.
  intros Hs He Hall Hf.
  enough (H : forall v b, received_so_far max_bytes pre p v b -> v ++ concat chunks ++ final = stream pre p ->
    exists b', feed_all b chunks = (replicate (length chunks) None, b') /\ feed b' final = concluded max_bytes p).
  { apply (H []); [|done]. unfold received_so_far. rewrite decide_True by (cbn; lia). done. }
  clear Hall. assert (Hfl : (0 < length final)%nat) by (destruct final; [done|cbn; lia]).
  induction chunks as [|c chunks IH]; intros v b Hb Hall.
  - exists b. split; [done|]. cbn in Hall.
    pose proof (feed_advances max_bytes pre p Hs He v final b Hb) as Hadv. rewrite Hall, decide_False in Hadv by lia.
    apply Hadv; [done|]. rewrite <- Hall, length_app. lia.
  - cbn [concat] in Hall. rewrite <- (app_assoc c) in Hall.
    pose proof (f_equal length Hall) as Hl. rewrite !length_app in Hl.
    pose proof (feed_advances max_bytes pre p Hs He v c b Hb) as Hadv. rewrite decide_True in Hadv by (rewrite length_app; lia).
    destruct Hadv as (b1 & E1 & Hb1); [rewrite <- Hall, app_assoc; apply prefix_app_r; done|lia|].
    destruct (IH (v ++ c) b1 Hb1) as (b2 & E2 & E3); [by rewrite <- app_assoc|].
    exists b2. split; [|done]. cbn [feed_all]. rewrite E1, E2. done.
Qed.

Lemma paste_survives_chunking_witness :
  exists b, feed_all (new_paste 100) [b_ "x" ++ [27; 91; 50]; [48; 48; 126; 104; 13]; [105; 27; 91; 50]] = ([None; None; None], b) /\
    feed b [48; 49; 126] = (Some [104; 10; 105], finished "" (new_paste 100)).
Proof.
  destruct (paste_survives_chunking 100 (b_ "x") [104; 13; 105] [b_ "x" ++ [27; 91; 50]; [48; 48; 126; 104; 13]; [105; 27; 91; 50]] [48; 49; 126])
    as (b & E1 & E2).
  - apply find_from_Some; [done|reflexivity].
  - apply find_from_Some; [done|reflexivity].
  - reflexivity.
  - done.
  - exists b. split; [exact E1|]. rewrite E2. reflexivity.
Defined.

(** ** The text buffer

    A cursor is a Python integer and slices are Python slices; the
    well-formedness invariant [wf_buffer] shows the negative cases are never
    reached.  [encode("utf-8")] raises on a lone surrogate. *)

(** [s[:i]] and [s[i:]]. *)
Definition slice_index (s : text) (i : Z) : nat := Z.to_nat (if i <? 0 then Z.of_nat (length s) + i else i).
Definition upto (s : text) (i : Z) : text := take (slice_index s i) s.
Definition onward (s : text) (i : Z) : text := drop (slice_index s i) s.

Record TextBuffer : Type := Buffer { tb_text : text; tb_cursor : Z; tb_max_bytes : Z }.
Inductive buffer_exn : Type := UnicodeEncodeError.
Abbreviation BT := (ST buffer_exn TextBuffer).

(** The constructor with [__post_init__]. *)
Definition TextBuffer_init (s : text) (cursor max_bytes : Z) : TextBuffer :=
  Buffer s (Z.min (Z.max 0 cursor) (Z.of_nat (length s))) max_bytes.

Definition encoded_size (s : text) : BT Z := if forallb is_scalar s then mret (utf8_size s) else raise UnicodeEncodeError.
Definition size_bytes (b : TextBuffer) : result buffer_exn Z * TextBuffer := encoded_size (tb_text b) b.
Definition lines (b : TextBuffer) : nat := S (length (filter (fun c => c = 10) (tb_text b))).
Definition candidate_text (value : text) (b : TextBuffer) : text := upto (tb_text b) (tb_cursor b) ++ value ++ onward (tb_text b) (tb_cursor b).
Definition commit (candidate value : text) (b : TextBuffer) : TextBuffer :=
  Buffer candidate (tb_cursor b + Z.of_nat (length value)) (tb_max_bytes b).

Definition insert_text (value : text) : BT bool :=
  candidate ← gets (candidate_text value);
  size ← encoded_size candidate;
  max_bytes ← gets tb_max_bytes;
  if max_bytes <? size then mret false
  else modify (commit candidate value) ;; mret true.

Definition paste (value : text) : BT (bool * Z) :=
  received ← encoded_size value;
  candidate ← gets (candidate_text value);
  size ← encoded_size candidate;
  max_bytes ← gets tb_max_bytes;
  if max_bytes <? size then mret (false, received)
  else modify (commit candidate value) ;; mret (true, received).

Definition move (offset : Z) (b : TextBuffer) : TextBuffer :=
  Buffer (tb_text b) (Z.min (Z.of_nat (length (tb_text b))) (Z.max 0 offset)) (tb_max_bytes b).
Definition backspace (b : TextBuffer) : TextBuffer :=
  if tb_cursor b =? 0 then b
  else Buffer (upto (tb_text b) (tb_cursor b - 1) ++ onward (tb_text b) (tb_cursor b)) (tb_cursor b - 1) (tb_max_bytes b).
Definition delete_char (b : TextBuffer) : TextBuffer :=
  if tb_cursor b <? Z.of_nat (length (tb_text b))
  then Buffer (upto (tb_text b) (tb_cursor b) ++ onward (tb_text b) (tb_cursor b + 1)) (tb_cursor b) (tb_max_bytes b) else b.
Definition clear (b : TextBuffer) : TextBuffer := Buffer [] 0 (tb_max_bytes b).

(** One call on a buffer, and what it answers. *)
Inductive edit : Type :=
  | EInsert (value : text) | EPaste (value : text) | EMove (offset : Z) | EBackspace | EDelete | EClear.
Inductive answer : Type := Done | Accepted (ok : bool) (received : Z) | Failed.

Definition answered {A} (f : A -> answer) (r : result buffer_exn A) : answer := match r with Ok a => f a | Raise _ => Failed end.
Definition run_edit (e : edit) (b : TextBuffer) : answer * TextBuffer :=
  match e with
  | EInsert v => let '(r, b') := insert_text v b in (answered (fun ok => Accepted ok (utf8_size v)) r, b')
  | EPaste v => let '(r, b') := paste v b in (answered (fun '(ok, n) => Accepted ok n) r, b')
  | EMove o => (Done, move o b)
  | EBackspace => (Done, backspace b)
  | EDelete => (Done, delete_char b)
  | EClear => (Done, clear b)
  end.

(** The specification: a zipper, the text before and the text after the caret. *)
Record zipper : Type := Zipper { before : text; after : text }.
Definition whole (z : zipper) : text := before z ++ after z.
Definition zip_insert (max_bytes : Z) (v : text) (z : zipper) : answer * zipper :=
  if negb (forallb is_scalar v) then (Failed, z)
  else if max_bytes <? utf8_size v + utf8_size (whole z) then (Accepted false (utf8_size v), z)
  else (Accepted true (utf8_size v), Zipper (before z ++ v) (after z)).
Definition zip_edit (max_bytes : Z) (e : edit) (z : zipper) : answer * zipper :=
  match e with
  | EInsert v | EPaste v => zip_insert max_bytes v z
  | EMove o => (Done, Zipper (take (Z.to_nat o) (whole z)) (drop (Z.to_nat o) (whole z)))
  | EBackspace => (Done, Zipper (take (length (before z) - 1) (before z)) (after z))
  | EDelete => (Done, Zipper (before z) (drop 1 (after z)))
  | EClear => (Done, Zipper [] [])
  end.

Fixpoint run_all {S} (step : edit -> S -> answer * S) (es : list edit) (s : S) : list answer * S :=
  match es with
  | [] => ([], s)
  | e :: es' => let '(a, s1) := step e s in let '(r, s2) := run_all step es' s1 in (a :: r, s2)
  end.

Definition shows (max_bytes : Z) (z : zipper) (b : TextBuffer) : Prop :=
  b = Buffer (whole z) (Z.of_nat (length (before z))) max_bytes /\ forallb is_scalar (whole z) = true /\ utf8_size (whole z) <= max_bytes.

Lemma utf8_size_app s t : utf8_size (s ++ t) = utf8_size s + utf8_size t.
Proof. unfold utf8_size, utf8_encode. rewrite bind_app, length_app. lia. Qed.
Lemma upto_at (s t : text) : upto (s ++ t) (Z.of_nat (length s)) = s.
Proof. unfold upto, slice_index. rewrite (proj2 (Z.ltb_ge _ _)), Nat2Z.id by lia. apply take_app_length. Qed.
Lemma onward_at (s t : text) : onward (s ++ t) (Z.of_nat (length s)) = t.
Proof. unfold onward, slice_index. rewrite (proj2 (Z.ltb_ge _ _)), Nat2Z.id by lia. apply drop_app_length. Qed.

Lemma zip_insert_shows max_bytes v z b :
  shows max_bytes z b ->
  forall r b', (r, b') = insert_text v b ->
  answered (fun ok => Accepted ok (utf8_size v)) r = (zip_insert max_bytes v z).1 /\ shows max_bytes (zip_insert max_bytes v z).2 b'.
Proof.
  intros (-> & Hs & Hm) r b' E. destruct z as [l a]. unfold whole in *. cbn [before after] in *.
  rewrite forallb_app in Hs. apply andb_true_iff in Hs as [Hl Ha]. rewrite utf8_size_app in Hm.
  unfold insert_text, mbind, ST_bind, mret, ST_ret, gets, candidate_text, encoded_size, commit in E. cbn [tb_text tb_cursor tb_max_bytes] in E.
  rewrite upto_at, onward_at, !forallb_app, Hl, Ha, andb_true_r in E. cbn [andb] in E.
  unfold zip_insert, whole. cbn [before after]. rewrite utf8_size_app.
  destruct (forallb is_scalar v) eqn:Hv; cbn in E; simplify_eq; cbn.
  - rewrite !utf8_size_app in E. replace (utf8_size l + (utf8_size v + utf8_size a)) with (utf8_size v + (utf8_size l + utf8_size a)) in E by lia.
    revert E. destruct (Z.ltb_spec max_bytes (utf8_size v + (utf8_size l + utf8_size a))); cbn; intros E; simplify_eq; cbn; (split; [done|]); unfold shows, whole; cbn.
    + rewrite forallb_app, utf8_size_app, Hl, Ha. auto.
    + rewrite !utf8_size_app, length_app, <- app_assoc, !forallb_app, Hl, Ha, Hv. split_and!; [f_equal; lia|done|lia].
  - split; [done|]. unfold shows, whole; cbn. rewrite forallb_app, utf8_size_app, Hl, Ha. auto.
Qed.

Lemma paste_is_insert v b :
  match insert_text v b with
  | (Ok ok, b') => paste v b = (if forallb is_scalar v then Ok (ok, utf8_size v) else Raise UnicodeEncodeError, if forallb is_scalar v then b' else b)
  | (Raise e, b') => paste v b = (Raise e, b')
  end.
Proof.
  unfold paste, insert_text, mbind, ST_bind, gets, encoded_size.
  destruct (forallb is_scalar (candidate_text v b)) eqn:Hc.
  - assert (Hv : forallb is_scalar v = true).
    { unfold candidate_text in Hc. rewrite !forallb_app in Hc. by bool_to_prop. }
    rewrite Hv. cbn. rewrite Hc. cbn. by destruct (_ <? _).
  - cbn. destruct (forallb is_scalar v); [|done]. cbn. by rewrite Hc.
Qed.

Lemma shows_sizes max_bytes z b :
  b = Buffer (whole z) (Z.of_nat (length (before z))) max_bytes ->
  (exists z0, forallb is_scalar (whole z0) = true /\ utf8_size (whole z0) <= max_bytes /\ whole z `sublist_of` whole z0) ->
  shows max_bytes z b.
Proof.
  intros -> (z0 & Hs & Hm & Hsub). split_and!; [done| |].
  - apply forallb_forall. intros c Hc%list_elem_of_In. rewrite forallb_forall in Hs.
    by apply Hs, list_elem_of_In, (elem_of_sublist _ _ _ Hc).
  - etransitivity; [|exact Hm]. clear -Hsub. induction Hsub as [|c l k _ IH|c l k _ IH]; [done| |];
      unfold utf8_size, utf8_encode in *; cbn [mbind list_bind]; rewrite ?length_app; lia.
Qed.

Lemma edit_shows max_bytes e z b :
  shows max_bytes z b -> (run_edit e b).1 = (zip_edit max_bytes e z).1 /\ shows max_bytes (zip_edit max_bytes e z).2 (run_edit e b).2.
Proof.
  intros Hb. destruct e as [v|v|o| | |]; cbn [run_edit zip_edit].
  - destruct (insert_text v b) as [r b'] eqn:E. by apply (zip_insert_shows _ v z b Hb).
  - pose proof (paste_is_insert v b) as Hp. destruct (insert_text v b) as [r b'] eqn:E. symmetry in E.
    pose proof (zip_insert_shows _ v z b Hb r b' E) as [Ha Hs]. destruct r as [ok|[]]; cbn in Ha; rewrite Hp; [|by split].
    unfold zip_insert in *. destruct (forallb is_scalar v); cbn in *; [|done]. by destruct (_ <? _).
  - split; [done|]. destruct Hb as (-> & Hs & Hm). apply shows_sizes.
    + unfold move, whole at 3. cbn. rewrite take_drop. f_equal. rewrite length_take. lia.
    + exists z. unfold whole at 3. cbn. by rewrite take_drop.
  - split; [done|]. destruct Hb as (-> & Hs & Hm). destruct z as [l a]. apply shows_sizes.
    + unfold backspace, whole. cbn. destruct (Z.eqb_spec (Z.of_nat (length l)) 0) as [E|E].
      * destruct l; [done|cbn in E; lia].
      * rewrite onward_at. f_equal; [|rewrite length_take; lia]. f_equal. unfold upto, slice_index.
        rewrite (proj2 (Z.ltb_ge _ _)), take_app_le by lia. f_equal. lia.
    + exists (Zipper l a). split_and!; [done|done|]. unfold whole. cbn. apply sublist_app; [apply sublist_take|done].
  - split; [done|]. destruct Hb as (-> & Hs & Hm). destruct z as [l a]. apply shows_sizes.
    + unfold delete_char, whole. cbn. rewrite length_app. destruct a as [|c a]; cbn.
      * rewrite (proj2 (Z.ltb_ge _ _)) by lia. done.
      * rewrite (proj2 (Z.ltb_lt _ _)) by lia. rewrite upto_at. f_equal. f_equal. unfold onward, slice_index.
        rewrite (proj2 (Z.ltb_ge _ _)) by lia. replace (Z.to_nat _) with (length l + 1)%nat by lia. by rewrite drop_app_add.
    + exists (Zipper l a). split_and!; [done|done|]. unfold whole. cbn. apply sublist_app; [done|apply sublist_drop].
  - split; [done|]. destruct Hb as (-> & Hs & Hm). apply shows_sizes; [done|]. exists z. split_and!; [done|done|apply sublist_nil_l].
Qed.

(** C33: The text buffer refines a zipper: after any sequence of edits on a new
    buffer, its text and cursor are those of a (text before, text after the
    caret) pair edited by the obvious list operations, every answer agrees -
    an insertion is refused exactly when the result would exceed [max_bytes]
    or has no UTF-8 encoding - and the size stays within [max_bytes]. *)
Theorem text_buffer_refines_zipper (s : text) (cursor max_bytes : Z) (es : list edit) :
  forallb is_scalar s = true -> utf8_size s <= max_bytes ->
  let z0 := Zipper (take (Z.to_nat cursor) s) (drop (Z.to_nat cursor) s) in
  let '(answers, b) := run_all run_edit es (TextBuffer_init s cursor max_bytes) in
  let '(expected, z) := run_all (zip_edit max_bytes) es z0 in
  answers = expected /\ tb_text b = before z ++ after z /\ tb_cursor b = Z.of_nat (length (before z)) /\
  0 <= tb_cursor b <= Z.of_nat (length (tb_text b)) /\ size_bytes b = (Ok (utf8_size (tb_text b)), b) /\ utf8_size (tb_text b) <= max_bytes.
Proof.
  intros Hs Hm z0. assert (H0 : shows max_bytes z0 (TextBuffer_init s cursor max_bytes)).
  { unfold shows, TextBuffer_init, whole, z0. cbn. rewrite take_drop. split_and!; [|done|done]. f_equal. rewrite length_take. lia. }
  revert H0. generalize z0 (TextBuffer_init s cursor max_bytes). clear. induction es as [|e es IH]; intros z b Hb; cbn [run_all].
  - destruct Hb as (-> & Hs & Hm). unfold size_bytes, encoded_size. cbn. rewrite Hs. unfold whole. rewrite length_app.
    split_and!; try done; lia.
  - destruct (edit_shows max_bytes e z b Hb) as [Ha Hn]. destruct (run_edit e b) as [a1 b1], (zip_edit max_bytes e z) as [a2 z1]. cbn in *.
    specialize (IH z1 b1 Hn). destruct (run_all run_edit es b1) as [r1 b2], (run_all (zip_edit max_bytes) es z1) as [r2 z2].
    destruct IH as (-> & IH). by rewrite Ha.
Qed.

Lemma text_buffer_refines_zipper_witness :
  let '(answers, b) := run_all run_edit [EMove 1; EInsert [0x20AC]; EPaste [55; 56]; EBackspace] (TextBuffer_init [97; 98] (-3) 6) in
  let '(expected, z) := run_all (zip_edit 6) [EMove 1; EInsert [0x20AC]; EPaste [55; 56]; EBackspace] (Zipper [] [97; 98]) in
  answers = expected /\ tb_text b = before z ++ after z /\ tb_cursor b = Z.of_nat (length (before z)) /\
  0 <= tb_cursor b <= Z.of_nat (length (tb_text b)) /\ size_bytes b = (Ok (utf8_size (tb_text b)), b) /\ utf8_size (tb_text b) <= 6.
Proof. apply (text_buffer_refines_zipper [97; 98] (-3) 6 [EMove 1; EInsert [0x20AC]; EPaste [55; 56]; EBackspace]); [reflexivity|done]. Defined.

(** ** Terminal cells

    [unicodedata]'s tables are parameters. *)

Section cells.
Context (combining : Z -> Z) (category east_asian_width : Z -> string).

Definition zero_width (c : Z) : bool := negb (combining c =? 0) || bool_decide (category c ∈ ["Cf"; "Mn"; "Me"]%string).
Definition glyph_width (c : Z) : Z := if bool_decide (east_asian_width c ∈ ["W"; "F"]%string) || (0x1F300 <=? c) then 2 else 1.
Definition printable_ascii (c : Z) : bool := (32 <=? c) && (c <=? 126).

Definition measure_step (width c : Z) : Z :=
  if printable_ascii c then width + 1
  else if c =? 9 then width + (8 - width mod 8)
  else if zero_width c then width
  else width + glyph_width c.
Definition _measure_cell_width (s : text) : Z := foldl measure_step 0 s.
(** The cache of short texts changes nothing. *)
Definition cell_width (s : text) : Z :=
  if forallb printable_ascii s then Z.of_nat (length s) else _measure_cell_width s.

(** [str.expandtabs(8)]: the column restarts after a line break. *)
Fixpoint expandtabs_from (column : nat) (s : text) : text :=
  match s with
  | [] => []
  | c :: s' =>
      if c =? 9 then replicate (8 - column mod 8) 32 ++ expandtabs_from (column + (8 - column mod 8)) s'
      else c :: expandtabs_from (if (c =? 10) || (c =? 13) then 0 else S column) s'
  end.
Definition expandtabs : text -> text := expandtabs_from 0.

Fixpoint slice_loop (start width position : Z) (included : bool) (s : text) : text :=
  match s with
  | [] => []
  | c :: s' =>
      let amount := cell_width [c] in
      if amount =? 0 then (if included then [c] else []) ++ slice_loop start width position included s'
      else if start + width <=? position then []
      else
        let inside := (start <=? position) && (position + amount <=? start + width) in
        (if inside then [c]
         else if (position <? start + width) && (start <? position + amount)
              then replicate (Z.to_nat (Z.min (position + amount) (start + width) - Z.max position start)) 32 else [])
        ++ slice_loop start width (position + amount) inside s'
  end.
Definition _cell_slice_measured (s : text) (start width : Z) : text := slice_loop start width 0 false (expandtabs s).
Definition cell_slice (s : text) (start width : Z) : text :=
  if (0 <=? start) && forallb printable_ascii s then take (Z.to_nat (Z.max 0 width)) (drop (Z.to_nat start) s)
  else _cell_slice_measured s start width.

Definition input_view (s : text) (cursor width0 : Z) : text * Z :=
  let width := Z.max 1 width0 in
  let caret := cell_width (take (Z.to_nat (Z.max 0 cursor)) s) in
  let start := Z.max 0 (caret - width + 1) in
  (cell_slice s start (width - 1), Z.min (width - 1) (caret - start)).

Fixpoint offset_loop (target cells : Z) (index : nat) (s : text) : nat :=
  match s with
  | [] => index
  | c :: s' =>
      let amount := if c =? 9 then 8 - cells mod 8 else cell_width [c] in
      if target <? cells + amount then index else offset_loop target (cells + amount) (S index) s'
  end.
Definition offset_for_cells (s : text) (target : Z) : nat := offset_loop target 0 0 s.

Definition wrap_step (width : Z) (rc : Z * Z) (c : Z) : Z * Z :=
  let '(row, cells) := rc in
  let amount := if c =? 9 then 8 - cells mod 8 else if zero_width c then 0 else glyph_width c in
  let '(row, cells) := if width <? cells + amount then (row + 1, 0) else (row, cells) in
  let cells := cells + amount in
  if width <=? cells then (row + 1, 0) else (row, cells).
Definition wrapped_row_for_column (s : text) (column width0 : Z) : Z * Z :=
  foldl (wrap_step (Z.max 1 width0)) (0, 0) (take (Z.to_nat (Z.max 0 column)) s).

(** Widths of texts without tabs add up. *)
Definition char_width (c : Z) : Z := if printable_ascii c then 1 else if zero_width c then 0 else glyph_width c.
Definition no_tab (c : Z) : bool := negb (c =? 9).

Lemma char_width_nonneg c : 0 <= char_width c <= 2.
Proof. unfold char_width, glyph_width. repeat case_match; lia. Qed.
Lemma measure_no_tabs s w : forallb no_tab s = true -> foldl measure_step w s = w + sumZ char_width s.
Proof.
  revert w. induction s as [|c s IH]; intros w; cbn [forallb foldl sumZ]; [intros _; lia|].
  intros [Hc Hs]%andb_true_iff. rewrite IH by done. unfold measure_step, char_width. unfold no_tab in Hc.
  apply negb_true_iff in Hc. rewrite Hc. repeat case_match; lia.
Qed.
Lemma printable_width s : forallb printable_ascii s = true -> sumZ char_width s = Z.of_nat (length s) /\ forallb no_tab s = true.
Proof.
  induction s as [|c s IH]; cbn; [done|]. intros [Hc Hs]%andb_true_iff. destruct (IH Hs) as [-> ->].
  unfold char_width at 1. rewrite Hc. unfold no_tab, printable_ascii in *. bool_to_prop. rewrite (proj2 (Z.eqb_neq _ _)) by lia. cbn. split; [lia|done].
Qed.
(** The shortcut for plain text measures the same. *)
Lemma cell_width_measured s : cell_width s = _measure_cell_width s.
Proof.
  unfold cell_width, _measure_cell_width. destruct (forallb printable_ascii s) eqn:E; [|done].
  destruct (printable_width s E) as [H1 H2]. rewrite measure_no_tabs by done. lia.
Qed.
Lemma cell_width_sum s : forallb no_tab s = true -> cell_width s = sumZ char_width s.
Proof. intros H. rewrite cell_width_measured. unfold _measure_cell_width. by rewrite measure_no_tabs. Qed.
Lemma expandtabs_no_tab k s : forallb no_tab (expandtabs_from k s) = true.
Proof.
  revert k. induction s as [|c s IH]; intros k; cbn [expandtabs_from]; [done|]. destruct (Z.eqb_spec c 9).
  - rewrite forallb_app, IH, andb_true_r. generalize (8 - k mod 8)%nat. induction n; cbn; auto.
  - cbn. rewrite IH, andb_true_r. unfold no_tab. by rewrite (proj2 (Z.eqb_neq _ _)).
Qed.
Lemma sum_spaces n : sumZ char_width (replicate n 32) = Z.of_nat n.
Proof. induction n as [|n IH]; [done|]. cbn [replicate sumZ]. rewrite IH. change (char_width 32) with 1. lia. Qed.
Lemma spaces_no_tab n : forallb no_tab (replicate n 32) = true.
Proof. by induction n. Qed.
Lemma sum_nonneg s : 0 <= sumZ char_width s.
Proof. induction s as [|c s IH]; cbn; [lia|]. pose proof (char_width_nonneg c). lia. Qed.

Lemma slice_loop_width start width s included position :
  0 <= start -> 0 <= width -> 0 <= position -> forallb no_tab s = true ->
  let r := slice_loop start width position included s in
  forallb no_tab r = true /\
  sumZ char_width r = Z.max 0 (Z.min (position + sumZ char_width s) (start + width) - Z.max position start).
Proof.
  intros Hst Hw. revert included position. induction s as [|c s IH]; intros included position Hp Hs; cbn [slice_loop sumZ].
  - split; [done|]. lia.
  - cbn [forallb] in Hs. apply andb_true_iff in Hs as [Hc Hs]. pose proof (char_width_nonneg c) as Hcw. pose proof (sum_nonneg s) as Hsum.
    assert (Ha : cell_width [c] = char_width c) by (rewrite cell_width_sum; cbn; [lia|by rewrite Hc]). rewrite Ha.
    destruct (Z.eqb_spec (char_width c) 0) as [H0|H0].
    + destruct (IH included position Hp Hs) as [I1 I2]. destruct included; cbn; rewrite ?Hc, ?I1, ?I2, ?H0; (split; [done|lia]).
    + destruct (Z.leb_spec (start + width) position); [cbn; split; [done|lia]|].
      destruct (IH ((start <=? position) && (position + char_width c <=? start + width)) (position + char_width c) ltac:(lia) Hs) as [I1 I2].
      rewrite forallb_app, sumZ_app, I1, I2.
      destruct (Z.leb_spec start position), (Z.leb_spec (position + char_width c) (start + width)); cbn [andb];
        [cbn; rewrite Hc; split; [done|lia]| | |];
        (destruct (Z.ltb_spec position (start + width)), (Z.ltb_spec start (position + char_width c)); cbn [andb]; try lia;
         (rewrite spaces_no_tab, sum_spaces || cbn [forallb sumZ]); (split; [done|lia])).
Qed.

(** A slice of a line is exactly as wide on the screen as the part of the
    line it covers: between cell [start] and [start + width], cut at the end
    of the text - wide characters cut by an edge become spaces - and the
    shortcut for plain text agrees. *)
Theorem cell_slice_width (s : text) (start width : Z) :
  0 <= start -> 0 <= width ->
  cell_width (cell_slice s start width) = Z.max 0 (Z.min (cell_width (expandtabs s)) (start + width) - start).
Proof.
  intros Hst Hw. unfold cell_slice. rewrite (proj2 (Z.leb_le 0 start)) by done. cbn [andb].
  rewrite (cell_width_sum (expandtabs s)) by apply expandtabs_no_tab.
  destruct (forallb printable_ascii s) eqn:E.
  - assert (Hx : forall k, expandtabs_from k s = s).
    { clear -E. induction s as [|c s IH]; intros k; cbn in *; [done|]. apply andb_true_iff in E as [Hc Hs].
      unfold printable_ascii in Hc. bool_to_prop. rewrite (proj2 (Z.eqb_neq c 9)) by lia. by rewrite IH. }
    unfold expandtabs. rewrite Hx. destruct (printable_width s E) as [-> _].
    unfold cell_width. assert (Ht : forallb printable_ascii (take (Z.to_nat (Z.max 0 width)) (drop (Z.to_nat start) s)) = true).
    { apply forallb_forall. intros c Hc%list_elem_of_In. rewrite forallb_forall in E. apply E, list_elem_of_In.
      eapply elem_of_sublist; [exact Hc|]. etransitivity; [apply sublist_take|apply sublist_drop]. }
    rewrite Ht, length_take, length_drop. lia.
  - unfold _cell_slice_measured. destruct (slice_loop_width start width (expandtabs s) false 0 Hst Hw ltac:(lia) (expandtabs_no_tab _ _)) as [I1 I2].
    rewrite cell_width_sum, I2 by done. lia.
Qed.

(** The wrapped position of a column is inside the screen: its cell lies in
    [0, width), and the rows never decrease as the column grows. *)
Theorem wrapped_position_bounds (s : text) (column width : Z) :
  let '(row, cells) := wrapped_row_for_column s column width in
  0 <= row /\ 0 <= cells < Z.max 1 width /\
  forall column', column <= column' -> row <= (wrapped_row_for_column s column' width).1.
Proof.
  unfold wrapped_row_for_column. set (w := Z.max 1 width).
  assert (Hrun : forall l rc, 0 <= rc.1 -> 0 <= rc.2 < w ->
    rc.1 <= (foldl (wrap_step w) rc l).1 /\ 0 <= (foldl (wrap_step w) rc l).2 < w).
  { induction l as [|c l IH]; intros [row cells] Hr Hc; cbn [foldl]; [cbn in *; lia|].
    assert (Hstep : row <= (wrap_step w (row, cells) c).1 /\ 0 <= (wrap_step w (row, cells) c).2 < w).
    { unfold wrap_step, glyph_width. cbn in Hc. pose proof (Z.mod_pos_bound cells 8 ltac:(lia)).
      repeat case_match; simplify_eq; cbn; bool_to_prop; lia. }
    destruct (IH (wrap_step w (row, cells) c)); cbn in *; [lia|lia|]. lia. }
  set (n := Z.to_nat (Z.max 0 column)). destruct (foldl _ _ (take n s)) as [row cells] eqn:E.
  destruct (Hrun (take n s) (0, 0)) as [H1 H2]; [cbn; lia|cbn; lia|]. rewrite E in H1, H2. cbn in H1, H2.
  split_and!; [lia|lia|lia|]. intros column' Hle.
  assert (Ht : take (Z.to_nat (Z.max 0 column')) s = take n s ++ take (Z.to_nat (Z.max 0 column') - n) (drop n s)).
  { rewrite take_take_drop. f_equal. lia. }
  rewrite Ht, foldl_app, E. by apply (Hrun _ (row, cells)).
Qed.
End cells.

Lemma cell_slice_width_witness :
  let combining c := if c =? 0x301 then 230 else 0 in
  let category c := if c =? 0x301 then "Mn"%string else "Lo"%string in
  let east c := if c =? 0x4F60 then "W"%string else "N"%string in
  cell_width combining category east (cell_slice combining category east [0x4F60; 0x4F60; 9; 97; 0x301] 1 8) =
  Z.max 0 (Z.min (cell_width combining category east (expandtabs [0x4F60; 0x4F60; 9; 97; 0x301])) (1 + 8) - 1).
Proof. intros. apply cell_slice_width; done. Defined.
