(* ===== verification/TerminalStream.v ===== *)
(** * The station's output stream ([bridge_terminal_stream.py], first half)

    tmux control-mode decoding, the line splitter of [TmuxPaneSource] and the
    screen snapshot, all on byte lists. *)

From S2P Require Import Prelude Bytes Input.
From stdpp Require Import options.
Local Open Scope Z_scope.

(** ** Control-mode escaping *)

Definition octal_digit (b : Z) : bool := (0x30 <=? b) && (b <=? 0x37).
(** [int(digits, 8) & 0xFF] *)
Definition octal_value (a b c : Z) : Z := Z.land ((a - 0x30) * 64 + (b - 0x30) * 8 + (c - 0x30)) 0xFF.

Fixpoint decode_control_output (escaped : bytes) : bytes :=
  match escaped with
  | [] => []
  | byte :: rest =>
      match rest with
      | a :: b :: c :: rest' =>
          if (byte =? 0x5C) && (octal_digit a && octal_digit b && octal_digit c)
          then octal_value a b c :: decode_control_output rest'
          else byte :: decode_control_output rest
      | _ => byte :: decode_control_output rest
      end
  end.

(** ** Lines *)

(** [s.rstrip(b"\r\n")] *)
Fixpoint rstrip_crlf (s : bytes) : bytes :=
  match s with
  | [] => []
  | b :: s' => match rstrip_crlf s' with
               | [] => if (b =? 13) || (b =? 10) then [] else [b]
               | r => b :: r
               end
  end.
(** [s.split(sep, 1)[1]], [None] when [sep] does not occur. *)
Definition after_first (sep s : bytes) : option bytes :=
  (fun n => drop (n + length sep) s) <$> find_from sep s 0.

Definition parse_control_line (line pane : bytes) : option bytes :=
  let prefix := b_ "%output " ++ pane ++ b_ " " in
  if starts_with prefix line then Some (decode_control_output (rstrip_crlf (drop (length prefix) line)))
  else
    let extended := b_ "%extended-output " ++ pane ++ b_ " " in
    if starts_with extended line then
      match after_first (b_ " : ") line with
      | Some data => Some (decode_control_output (rstrip_crlf data))
      | None => None
      end
    else None.

(** [s.split(b"\n")] as the complete lines and the rest. *)
Fixpoint split_lines (s : bytes) : list bytes * bytes :=
  match s with
  | [] => ([], [])
  | b :: s' =>
      let '(ls, rest) := split_lines s' in
      if b =? 10 then ([] :: ls, rest)
      else match ls with
           | [] => ([], b :: rest)
           | l :: ls' => ((b :: l) :: ls', rest)
           end
  end.

(** ** [TmuxPaneSource.read_output] and [take_resync] *)

Record TmuxPaneSource : Type := Pane { ps_buffer : bytes; ps_paused : bool }.

Inductive line_kind : Type := Output (data : bytes) | Pause | Exit | Ignored.
Definition line_of (pane line : bytes) : line_kind :=
  match parse_control_line line pane with
  | Some data => Output data
  | None => if starts_with (b_ "%pause " ++ pane) line then Pause
            else if starts_with (b_ "%exit") line then Exit else Ignored
  end.

(** The [for] loop; [None] once the client ended. *)
Fixpoint read_lines (pane : bytes) (lines : list bytes) (out : bytes) (paused : bool) : option bytes * bool :=
  match lines with
  | [] => (Some out, paused)
  | line :: lines' =>
      match line_of pane line with
      | Output data => read_lines pane lines' (out ++ data) paused
      | Pause => read_lines pane lines' out true
      | Exit => (None, paused)
      | Ignored => read_lines pane lines' out paused
      end
  end.

(** What [select] and [os.read] deliver: nothing yet, or bytes (empty at the end). *)
Definition read_output (pane : bytes) (readable : option bytes) (s : TmuxPaneSource) : option bytes * TmuxPaneSource :=
  match readable with
  | None => (Some [], s)
  | Some [] => (None, s)
  | Some chunk =>
      let '(lines, rest) := split_lines (ps_buffer s ++ chunk) in
      let '(out, paused) := read_lines pane lines [] (ps_paused s) in
      (out, Pane rest paused)
  end.

(** The flag and whether [refresh-client -A ...:continue] is written. *)
Definition take_resync (s : TmuxPaneSource) : bool * TmuxPaneSource :=
  if ps_paused s then (true, Pane (ps_buffer s) false) else (false, s).

(** ** Snapshots *)

Definition CLEAR_SCREEN : bytes := b_ (String (Ascii.ascii_of_nat 27) "[H") ++ b_ (String (Ascii.ascii_of_nat 27) "[2J").

(** [s.encode("utf-8", "replace")] *)
Definition utf8_encode_replace (s : text) : bytes := utf8_encode ((fun c => if is_scalar c then c else 63) <$> s).
(** [s.replace("\n", "\r\n")] *)
Definition crlf (s : text) : text := s ≫= fun c => if c =? 10 then [13; 10] else [c].
Definition without_last_newline (s : text) : text :=
  match last s with Some 10 => take (length s - 1) s | _ => s end.
Definition snapshot_bytes (s : text) (column row : Z) : bytes :=
  utf8_encode_replace (crlf (without_last_newline s)) ++
  [27; 91] ++ b_ (pretty (row + 1)) ++ b_ ";" ++ b_ (pretty (column + 1)) ++ b_ "H".

(** ** Decoding undoes escaping *)

(** tmux writes a byte either as it is or as a backslash and three octal
    digits; which bytes it escapes is its choice, the backslash always. *)
Definition octal_escape (b : Z) : bytes := [0x5C; 0x30 + b / 64; 0x30 + (b / 8) mod 8; 0x30 + b mod 8].
Definition tmux_escape (escapes : Z -> bool) (s : bytes) : bytes :=
  s ≫= fun b => if escapes b then octal_escape b else [b].

Lemma octal_escape_value b : is_byte b ->
  octal_digit (0x30 + b / 64) && octal_digit (0x30 + (b / 8) mod 8) && octal_digit (0x30 + b mod 8) = true /\
  octal_value (0x30 + b / 64) (0x30 + (b / 8) mod 8) (0x30 + b mod 8) = b.
Proof.
  intros Hb. assert (H : forall n, (n < 256)%nat ->
    octal_digit (0x30 + Z.of_nat n / 64) && octal_digit (0x30 + (Z.of_nat n / 8) mod 8) && octal_digit (0x30 + Z.of_nat n mod 8) &&
    (octal_value (0x30 + Z.of_nat n / 64) (0x30 + (Z.of_nat n / 8) mod 8) (0x30 + Z.of_nat n mod 8) =? Z.of_nat n) = true).
  { assert (Hall : forallb (fun n => octal_digit (0x30 + Z.of_nat n / 64) && octal_digit (0x30 + (Z.of_nat n / 8) mod 8) && octal_digit (0x30 + Z.of_nat n mod 8) &&
      (octal_value (0x30 + Z.of_nat n / 64) (0x30 + (Z.of_nat n / 8) mod 8) (0x30 + Z.of_nat n mod 8) =? Z.of_nat n)) (seq 0 256) = true) by (vm_compute; reflexivity).
    rewrite forallb_forall in Hall. intros n Hn. apply Hall, in_seq. lia. }
  unfold is_byte in Hb. specialize (H (Z.to_nat b) ltac:(lia)). rewrite Z2Nat.id in H by lia.
  apply andb_true_iff in H as [H1 H2%Z.eqb_eq]. done.
Qed.

Lemma decode_escape_byte escapes b r : is_byte b -> escapes 0x5C = true ->
  decode_control_output ((if escapes b then octal_escape b else [b]) ++ r) = b :: decode_control_output r.
Proof.
  intros Hb Hesc. destruct (escapes b) eqn:E.
  - destruct (octal_escape_value b Hb) as [Hd Hv]. unfold octal_escape. cbn [app decode_control_output].
    rewrite Hd, Hv. done.
  - assert (Hne : (b =? 0x5C) = false) by (apply Z.eqb_neq; congruence).
    cbn [app decode_control_output]. rewrite Hne. cbn [andb]. by destruct r as [|? [|? [|? ?]]].
Qed.

Lemma decode_escape escapes s r : Forall is_byte s -> escapes 0x5C = true ->
  decode_control_output (tmux_escape escapes s ++ r) = s ++ decode_control_output r.
Proof.
  intros Hs Hesc. induction Hs as [|b s Hb Hs IH]; [done|]. unfold tmux_escape in *. cbn [mbind list_bind].
  rewrite <- (app_assoc _ _ r), decode_escape_byte by done. by rewrite IH.
Qed.

(** ** Chunks of a stream *)

Fixpoint read_all (pane : bytes) (chunks : list bytes) (s : TmuxPaneSource) : option bytes * TmuxPaneSource :=
  match chunks with
  | [] => (Some [], s)
  | c :: chunks' =>
      match read_output pane (Some c) s with
      | (Some out, s1) =>
          match read_all pane chunks' s1 with
          | (Some out', s2) => (Some (out ++ out'), s2)
          | r => r
          end
      | r => r
      end
  end.

Lemma split_lines_app s t :
  split_lines (s ++ t) = (let '(ls, rest) := split_lines s in let '(ls', rest') := split_lines (rest ++ t) in (ls ++ ls', rest')).
Proof.
  induction s as [|b s IH]; cbn [app split_lines]; [by destruct (split_lines t)|]. rewrite IH.
  destruct (split_lines s) as [ls rest] eqn:E1. destruct (split_lines (rest ++ t)) as [ls' rest'] eqn:E2. destruct (Z.eqb_spec b 10) as [->|Hb].
  - by rewrite E2.
  - destruct ls as [|l ls]; cbn [app].
    + cbn [app split_lines]. rewrite E2, (proj2 (Z.eqb_neq b 10)) by done. by destruct ls'.
    + by rewrite E2.
Qed.
Lemma split_lines_no_newline s : Forall (fun b => b ≠ 10) s -> split_lines s = ([], s).
Proof. induction 1 as [|b s Hb _ IH]; [done|]. cbn. by rewrite IH, (proj2 (Z.eqb_neq b 10)). Qed.
Lemma split_lines_rest s : Forall (fun b => b ≠ 10) (split_lines s).2.
Proof.
  induction s as [|b s IH]; cbn; [constructor|]. destruct (split_lines s) as [ls rest]. cbn in IH.
  destruct (Z.eqb_spec b 10); [done|]. destruct ls; cbn; [by constructor|done].
Qed.
Lemma split_lines_cons l r : Forall (fun b => b ≠ 10) l -> split_lines (l ++ 10 :: r) = (l :: (split_lines r).1, (split_lines r).2).
Proof.
  induction 1 as [|b l Hb _ IH]; cbn; [by destruct (split_lines r)|]. by rewrite IH, (proj2 (Z.eqb_neq b 10)).
Qed.
Lemma split_lines_join ls rest :
  Forall (fun l => Forall (fun b => b ≠ 10) l) ls -> Forall (fun b => b ≠ 10) rest ->
  split_lines (concat ((fun l => l ++ [10]) <$> ls) ++ rest) = (ls, rest).
Proof.
  intros Hls Hr. induction Hls as [|l ls Hl _ IH]; [by apply split_lines_no_newline|].
  cbn [fmap list_fmap concat]. rewrite <- !app_assoc. cbn [app]. by rewrite split_lines_cons, IH.
Qed.

Lemma read_lines_app pane ls ks out paused :
  read_lines pane (ls ++ ks) out paused =
  match read_lines pane ls out paused with
  | (Some out', paused') => read_lines pane ks out' paused'
  | r => r
  end.
Proof. revert out paused. induction ls as [|l ls IH]; intros out paused; cbn; [done|]. by destruct (line_of pane l). Qed.
Lemma read_lines_out pane ls out paused :
  read_lines pane ls out paused =
  match read_lines pane ls [] paused with (Some o, q) => (Some (out ++ o), q) | r => r end.
Proof.
  revert out paused. induction ls as [|l ls IH]; intros out paused; cbn; [by rewrite app_nil_r|].
  destruct (line_of pane l) as [d| | |]; [|apply IH|done|apply IH]. rewrite (IH (out ++ d)), (IH d).
  destruct (read_lines pane ls [] paused) as [[o|] q]; [by rewrite app_assoc|done].
Qed.

Lemma read_all_once pane chunks s :
  Forall (fun c => c ≠ []) chunks -> Forall (fun b => b ≠ 10) (ps_buffer s) ->
  match read_lines pane (split_lines (ps_buffer s ++ concat chunks)).1 [] (ps_paused s) with
  | (Some out, paused) => read_all pane chunks s = (Some out, Pane (split_lines (ps_buffer s ++ concat chunks)).2 paused)
  | (None, paused) => exists rest, read_all pane chunks s = (None, Pane rest paused)
  end.
Proof.
  intros Hc. revert s. induction Hc as [|c chunks Hc _ IH]; intros s Hb; cbn [concat read_all].
  - rewrite app_nil_r, split_lines_no_newline by done. cbn. by destruct s.
  - rewrite app_assoc, split_lines_app. unfold read_output. destruct c as [|x c]; [done|].
    pose proof (split_lines_rest (ps_buffer s ++ x :: c)) as Hrest. destruct (split_lines (ps_buffer s ++ x :: c)) as [ls rest]. cbn [snd] in Hrest.
    destruct (read_lines pane ls [] (ps_paused s)) as [[out|] paused] eqn:E1.
    + specialize (IH (Pane rest paused) Hrest). cbn [ps_buffer ps_paused] in IH. destruct (split_lines (rest ++ concat chunks)) as [ls' rest'].
      cbn [fst snd] in *. rewrite read_lines_app, E1, read_lines_out.
      destruct (read_lines pane ls' [] paused) as [[o|] q]; [by rewrite IH|]. destruct IH as [r ->]. by exists r.
    + destruct (split_lines (rest ++ concat chunks)) as [ls' rest']. cbn [fst snd]. rewrite read_lines_app, E1. by exists rest.
Qed.

(** ** A control-mode stream *)

(** What tmux writes, by the pane it is about; any other line is a notice. *)
Inductive control_item : Type :=
  | IOutput (p data : bytes) | IExtended (p age data : bytes) | IPause (p : bytes) | INotice (line : bytes).
(** The name of a pane, such as [%3]. *)
Definition pane_id (p : bytes) : Prop := exists digits, p = 37 :: digits /\ Forall (fun b => 48 <= b <= 57) digits.
Definition KEYWORDS : list bytes := [b_ "%output "; b_ "%extended-output "; b_ "%pause "; b_ "%exit"].

Section stream.
Context (pane : bytes) (escapes : Z -> bool).

Definition control_line (it : control_item) : bytes :=
  match it with
  | IOutput p d => b_ "%output " ++ (p ++ b_ " ") ++ tmux_escape escapes d
  | IExtended p age d => b_ "%extended-output " ++ (p ++ b_ " ") ++ age ++ b_ " : " ++ tmux_escape escapes d
  | IPause p => b_ "%pause " ++ p
  | INotice line => line
  end.
Definition item_ok (it : control_item) : Prop :=
  match it with
  | IOutput p d => pane_id p /\ Forall is_byte d
  | IExtended p age d => pane_id p /\ Forall is_byte d /\ Forall (fun b => b ≠ 58 /\ b ≠ 10) age
  | IPause p => pane_id p
  | INotice line => Forall (fun k => ~ k `prefix_of` line) KEYWORDS /\ Forall (fun b => b ≠ 10) line
  end.
(** What is written for the pane itself. *)
Definition item_data (it : control_item) : bytes :=
  match it with IOutput p d | IExtended p _ d => if bool_decide (p = pane) then d else [] | _ => [] end.
(** A pause of the pane - or of one whose name begins with its name: the code
    compares no further. *)
Definition is_pause (it : control_item) : bool := match it with IPause p => bool_decide (pane `prefix_of` p) | _ => false end.
Definition control_stream (items : list control_item) : bytes := concat ((fun l => l ++ [10]) <$> (control_line <$> items)).

(** The documented escaping: the backslash and every control byte. *)
Context (Hesc : forall b, 0 <= b < 32 \/ b = 0x5C -> escapes b = true).
Context (Hpane : pane_id pane).

Lemma pane_id_chars p : pane_id p -> Forall (fun b => b ≠ 58 /\ b ≠ 10 /\ b ≠ 32) p.
Proof. intros (ds & -> & Hd). constructor; [done|]. eapply Forall_impl; [exact Hd|]. cbn. lia. Qed.
Lemma space_ends p q r r' : Forall (fun b => b ≠ 32) p -> Forall (fun b => b ≠ 32) q -> p ++ 32 :: r = q ++ 32 :: r' -> p = q.
Proof.
  revert q. induction p as [|x p IH]; intros [|y q] Hp Hq E; cbn in E; [done| | |].
  - injection E as <- _. by apply Forall_cons in Hq as [? _].
  - injection E as -> _. by apply Forall_cons in Hp as [? _].
  - injection E as <- E. apply Forall_cons in Hp as [_ Hp]. apply Forall_cons in Hq as [_ Hq]. f_equal. by apply IH.
Qed.
(** The line of another pane does not begin with this one's name. *)
Lemma other_pane p r : pane_id p -> p ≠ pane -> starts_with (pane ++ b_ " ") ((p ++ b_ " ") ++ r) = false.
Proof using Hpane.
  clear escapes Hesc. intros Hp Hne. destruct (starts_with _ _) eqn:E; [|done]. apply starts_with_prefix in E as [k E]. exfalso. apply Hne.
  rewrite <- !app_assoc in E. cbn [b_ app] in E. symmetry in E. apply space_ends in E; [by symmetry in E| |].
  - eapply Forall_impl; [exact (pane_id_chars pane Hpane)|]. cbn. tauto.
  - eapply Forall_impl; [exact (pane_id_chars p Hp)|]. cbn. tauto.
Qed.
Lemma no_prefix k m line : ~ k `prefix_of` line -> starts_with (k ++ m) line = false.
Proof.
  intros Hn. destruct (starts_with _ _) eqn:E; [|done]. apply starts_with_prefix in E as [r ->]. destruct Hn. rewrite <- app_assoc. by apply prefix_app_r.
Qed.
Lemma starts_with_common k a l : starts_with (k ++ a) (k ++ l) = starts_with a l.
Proof. induction k as [|x k IH]; [done|]. cbn. by rewrite Z.eqb_refl. Qed.

Lemma starts_with_app p r : starts_with p (p ++ r) = true.
Proof. apply starts_with_prefix. by apply prefix_app_r. Qed.
Lemma rstrip_clean s : Forall (fun b => b ≠ 10 /\ b ≠ 13) s -> rstrip_crlf s = s.
Proof.
  induction 1 as [|b s [H10 H13] _ IH]; [done|]. cbn. rewrite IH. destruct s; [|done].
  by rewrite (proj2 (Z.eqb_neq b 13)), (proj2 (Z.eqb_neq b 10)).
Qed.
Lemma escape_clean s : Forall is_byte s -> Forall (fun b => b ≠ 10 /\ b ≠ 13) (tmux_escape escapes s).
Proof using Hesc.
  intros Hs. apply Forall_bind. eapply Forall_impl; [exact Hs|]. intros b Hb. unfold compose. destruct (escapes b) eqn:E.
  - unfold is_byte in Hb. pose proof (Z.div_pos b 64 ltac:(lia) ltac:(lia)). pose proof (Z.mod_pos_bound (b / 8) 8 ltac:(lia)). pose proof (Z.mod_pos_bound b 8 ltac:(lia)).
    unfold octal_escape. repeat (apply Forall_cons; split; [split; lia|]). constructor.
  - constructor; [|constructor]. assert (Hn : ~ (0 <= b < 32)) by (intros H; rewrite Hesc in E by lia; done). lia.
Qed.
Lemma decode_line d : Forall is_byte d -> decode_control_output (rstrip_crlf (tmux_escape escapes d)) = d.
Proof using Hesc.
  intros Hd. rewrite rstrip_clean by by apply escape_clean. rewrite <- (app_nil_r (tmux_escape _ _)), decode_escape by auto. apply app_nil_r.
Qed.

Lemma after_first_colon age d : Forall (fun b => b ≠ 58) age -> after_first (b_ " : ") (age ++ b_ " : " ++ d) = Some d.
Proof.
  intros Ha. unfold after_first. rewrite (proj2 (find_from_Some (b_ " : ") _ 0 (length age) ltac:(done))).
  - cbn [fmap option_fmap option_map]. f_equal. rewrite app_assoc. apply drop_app_length'. by rewrite length_app.
  - split_and!; [lia|apply occurs_middle|]. intros m [_ Hm] [k Hk]. change (b_ " : ") with [32; 58; 32] in Hk.
    assert (E1 : (age ++ [32; 58; 32] ++ d) !! S m = Some 58).
    { pose proof (f_equal (lookup 1%nat) Hk) as E. rewrite lookup_drop, Nat.add_1_r in E. exact E. }
    destruct (decide (S m < length age)%nat) as [Hl|Hl].
    + rewrite lookup_app_l in E1 by done. rewrite Forall_lookup in Ha. by apply (Ha _ _ E1).
    + assert (Em : S m = length age) by lia. rewrite Em, lookup_app_r in E1 by lia. rewrite Nat.sub_diag in E1. by cbn in E1.
Qed.

Lemma parse_output p d : pane_id p -> Forall is_byte d ->
  parse_control_line (control_line (IOutput p d)) pane = if bool_decide (p = pane) then Some d else None.
Proof using Hesc Hpane.
  intros Hp Hd. cbn [control_line]. unfold parse_control_line. cbv zeta. case_bool_decide as E.
  - subst p. rewrite starts_with_common, starts_with_app, (app_assoc (b_ "%output ") (pane ++ b_ " ")), drop_app_length. by rewrite decode_line.
  - rewrite starts_with_common, other_pane by done.
    change (starts_with (b_ "%extended-output " ++ pane ++ b_ " ") _) with false. done.
Qed.
Lemma parse_extended p age d : pane_id p -> Forall is_byte d -> Forall (fun b => b ≠ 58 /\ b ≠ 10) age ->
  parse_control_line (control_line (IExtended p age d)) pane = if bool_decide (p = pane) then Some d else None.
Proof using Hesc Hpane.
  intros Hp Hd Ha. cbn [control_line]. unfold parse_control_line. cbv zeta.
  change (starts_with (b_ "%output " ++ pane ++ b_ " ") _) with false. cbv iota. rewrite starts_with_common. case_bool_decide as E.
  - subst p. rewrite starts_with_app, !app_assoc, <- (app_assoc (_ ++ age)).
    rewrite after_first_colon, decode_line; [done|done|]. rewrite !Forall_app. split_and!; [by repeat constructor| |by repeat constructor|].
    + eapply Forall_impl; [exact (pane_id_chars pane Hpane)|]. cbn. tauto.
    + eapply Forall_impl; [exact Ha|]. by intros b [? _].
  - by rewrite other_pane.
Qed.
Lemma line_of_item it : item_ok it ->
  line_of pane (control_line it) =
  match it with
  | IOutput p d | IExtended p _ d => if bool_decide (p = pane) then Output d else Ignored
  | IPause p => if is_pause it then Pause else Ignored
  | INotice _ => Ignored
  end.
Proof using Hesc Hpane.
  destruct it as [p d|p age d|p|line]; cbn [item_ok]; unfold line_of.
  - intros [Hp Hd]. rewrite parse_output by done. case_bool_decide; done.
  - intros (Hp & Hd & Ha). rewrite parse_extended by done. case_bool_decide; [done|]. done.
  - intros Hp. unfold parse_control_line. cbn [control_line is_pause].
    change (starts_with (b_ "%output " ++ pane ++ b_ " ") _) with false. change (starts_with (b_ "%extended-output " ++ pane ++ b_ " ") _) with false.
    cbv iota. rewrite starts_with_common. case_bool_decide as E; [by rewrite (proj2 (starts_with_prefix pane p) E)|].
    destruct (starts_with pane p) eqn:Es; [by apply starts_with_prefix in Es|]. done.
  - intros [Hk _]. unfold KEYWORDS in Hk. apply Forall_cons in Hk as [H1 Hk]. apply Forall_cons in Hk as [H2 Hk].
    apply Forall_cons in Hk as [H3 Hk]. apply Forall_cons in Hk as [H4 _]. cbn [control_line]. unfold parse_control_line. cbv zeta.
    rewrite !no_prefix by done. rewrite <- (app_nil_r (b_ "%exit")). by rewrite no_prefix.
Qed.

Lemma line_no_newline it : item_ok it -> Forall (fun b => b ≠ 10) (control_line it).
Proof using Hesc.
  clear Hpane. assert (Hq : forall p, pane_id p -> Forall (fun b => b ≠ 10) p).
  { intros p Hp. eapply Forall_impl; [exact (pane_id_chars p Hp)|]. cbn. tauto. }
  assert (He : forall d, Forall is_byte d -> Forall (fun b => b ≠ 10) (tmux_escape escapes d)).
  { intros d Hd%escape_clean. eapply Forall_impl; [exact Hd|]. by intros b [? _]. }
  destruct it as [p d|p age d|p|line]; cbn [control_line item_ok]; rewrite ?Forall_app.
  - intros [Hp Hd]. split_and!; [by repeat constructor|by apply Hq|by repeat constructor|by apply He].
  - intros (Hp & Hd & Ha). split_and!; [by repeat constructor|by apply Hq|by repeat constructor| |by repeat constructor|by apply He].
    eapply Forall_impl; [exact Ha|]. by intros b [_ ?].
  - intros Hp. split; [by repeat constructor|by apply Hq].
  - by intros [_ H].
Qed.

Lemma read_items items out paused : Forall item_ok items ->
  read_lines pane (control_line <$> items) out paused = (Some (out ++ concat (item_data <$> items)), paused || existsb is_pause items).
Proof using Hesc Hpane.
  intros Hi. revert out paused. induction Hi as [|it items Hit _ IH]; intros out paused; cbn [fmap list_fmap read_lines concat existsb].
  - by rewrite app_nil_r, orb_false_r.
  - rewrite (line_of_item it Hit). destruct it as [p d|p age d|p|line]; cbn [item_data is_pause].
    1,2: case_bool_decide; rewrite IH, ?app_assoc; cbn; by rewrite ?app_nil_r.
    + case_bool_decide; rewrite IH; cbn; by rewrite ?orb_true_r.
    + by rewrite IH.
Qed.
End stream.

(** C34: Station output survives the control protocol and any chunking: when
    tmux writes output and pauses of any panes and other notices - escaping
    control bytes and backslashes - and the pipe cuts the stream anywhere, the
    reads together return exactly the bytes written for this pane, and nothing
    of any other; the pause flag is set exactly when a pause line named this
    pane, or one whose name begins with its name; and no partial line is left. *)
Theorem pane_output_survives (pane : bytes) (escapes : Z -> bool) (items : list control_item) (chunks : list bytes) :
  (forall b, 0 <= b < 32 \/ b = 0x5C -> escapes b = true) -> pane_id pane ->
  Forall item_ok items -> Forall (fun c => c ≠ []) chunks -> concat chunks = control_stream escapes items ->
  read_all pane chunks (Pane [] false) = (Some (concat (item_data pane <$> items)), Pane [] (existsb (is_pause pane) items)).
Proof.
  intros Hesc Hpane Hi Hc Hall. pose proof (read_all_once pane chunks (Pane [] false) Hc ltac:(constructor)) as H.
  cbn [ps_buffer ps_paused app] in H. rewrite Hall in H. unfold control_stream in H.
  rewrite <- (app_nil_r (concat _)), split_lines_join in H.
  - cbn [fst snd] in H. by rewrite (read_items pane escapes Hesc Hpane items [] false Hi) in H.
  - apply Forall_fmap. eapply Forall_impl; [exact Hi|]. intros it Hit. by apply line_no_newline.
  - constructor.
Qed.

Lemma pane_output_survives_witness :
  let escapes b := (b <? 32) || (b =? 0x5C) in
  read_all (b_ "%3") [b_ "%output %3 a\03"; b_ "3"; [10] ++ b_ "%pause %3" ++ [10]; b_ "%output %4 b" ++ [10]; b_ "%output %30 c" ++ [10] ++ b_ "%end" ++ [10]] (Pane [] false)
    = (Some [97; 27], Pane [] true).
Proof.
  intros escapes. apply (pane_output_survives (b_ "%3") escapes
    [IOutput (b_ "%3") [97; 27]; IPause (b_ "%3"); IOutput (b_ "%4") [98]; IOutput (b_ "%30") [99]; INotice (b_ "%end")]).
  - unfold escapes. intros b [H| ->]; [rewrite (proj2 (Z.ltb_lt b 32)) by lia; done|done].
  - exists [51]. split; [done|]. by repeat constructor.
  - repeat (constructor; [|]); try constructor; cbn;
      first [by exists [51]; split; [done|repeat constructor]|by exists [52]; split; [done|repeat constructor]|by exists [51; 48]; split; [done|repeat constructor]
            |repeat constructor; by intros [? ?]|by repeat constructor].
  - repeat constructor; done.
  - reflexivity.
Defined.

(** The pause of another pane whose name begins with this one's is taken for
    its own. *)
Example pause_of_another_pane : (read_output (b_ "%3") (Some (b_ "%pause %30" ++ [10])) (Pane [] false)).2 = Pane [] true.
Proof. vm_compute. reflexivity. Qed.
