(* ===== verification/TerminalSession.v ===== *)
(** * Remote terminal sessions ([bridge_terminal_stream.py], second half, and
    the launcher of [bridge_worker.py])

    Every session runs in a thread of its own; the threads share the writer
    registry and the launcher's stop flags.  A thread's code is a [proc]: the
    calls it makes on the station, its connection, the registry and the flags,
    one after the other, with a continuation for every answer.  Threads
    interleave call by call ([tstep]); a call may raise. *)

From Stdlib Require Import QArith.
From S2P Require Import Prelude Py Bytes TerminalStream.
From stdpp Require Import options.
Local Open Scope Z_scope.

(** ** The writer registry *)

Abbreviation registry := (gmap string string).
Definition acquire (mission_id session_id : string) (w : registry) : bool * registry :=
  match w !! mission_id with
  | None => (true, <[mission_id := session_id]> w)
  | Some holder => if bool_decide (holder = session_id) then (true, <[mission_id := session_id]> w) else (false, w)
  end.
Definition release (mission_id session_id : string) (w : registry) : registry :=
  if bool_decide (w !! mission_id = Some session_id) then delete mission_id w else w.

(** ** Calls and threads *)

Record exn : Type := Exn { exn_name : string; exn_str : string }.

Inductive op : Type :=
  | OpenSource | Connect
  | LocalClients | PaneSize | Snapshot | ReadOutput | TakeResync
  | SendInput (data : bytes) | ResizePane (columns rows : Z) | CloseSource
  | SendText (frame : json) | ReceiveText | CloseConnection
  | TerminalStatus (state mode reason : string) | Audit (bytes writes : Z)
  | Acquire | Release | StopIsSet | Clock | PopStop.
Definition answer (o : op) : Type :=
  match o with
  | LocalClients => Z
  | PaneSize => Z * Z
  | Snapshot => bytes
  | ReadOutput => option bytes
  | TakeResync | Acquire | StopIsSet => bool
  | ReceiveText => option string
  | Clock => Q
  | _ => unit
  end.

Inductive proc (A : Type) : Type :=
  | Ret (a : A)
  | Act (o : op) (k : result exn (answer o) -> proc A).
Arguments Ret {A} a.
Arguments Act {A} o k.

Fixpoint pbind {A B} (p : proc A) (f : A -> proc B) : proc B :=
  match p with Ret a => f a | Act o k => Act o (fun r => pbind (k r) f) end.

(** Code with a local state [S] and exceptions. *)
Definition prog (S A : Type) : Type := S -> proc (result exn A * S).
#[export] Instance prog_ret S : MRet (prog S) := fun A a s => Ret (Ok a, s).
#[export] Instance prog_bind S : MBind (prog S) := fun A B f m s =>
  pbind (m s) (fun '(r, s') => match r with Ok a => f a s' | Raise e => Ret (Raise e, s') end).

Definition act {S} (o : op) : prog S (answer o) := fun s => Act o (fun r => Ret (r, s)).
Definition get {S} : prog S S := fun s => Ret (Ok s, s).
Definition put {S} (s : S) : prog S unit := fun _ => Ret (Ok tt, s).
(** [try: m except Exception as exc: h] *)
Definition try_except {S A} (m : prog S A) (h : exn -> prog S A) : prog S A := fun s =>
  pbind (m s) (fun '(r, s') => match r with Ok a => Ret (Ok a, s') | Raise e => h e s' end).
(** [try: m finally: f] *)
Definition try_finally {S A} (m : prog S A) (f : prog S unit) : prog S A := fun s =>
  pbind (m s) (fun '(r, s') => pbind (f s') (fun '(r2, s2) => match r2 with Ok _ => Ret (r, s2) | Raise e => Ret (Raise e, s2) end)).
(** A call of code with a state of its own. *)
Definition with_object {S T A} (t : T) (m : prog T A) : prog S (A * T) := fun s =>
  pbind (m t) (fun '(r, t') => match r with Ok a => Ret (Ok (a, t'), s) | Raise e => Ret (Raise e, s) end).

(** ** [TerminalSession] *)

Record TerminalSession : Type := Session {
  wants_write : bool;
  mode : string;
  reason : string;
  size : Z * Z;
  input_bytes : Z;
  input_frames : Z;
}.
Definition TerminalSession_init (requested_mode : string) (allow_write : bool) : TerminalSession :=
  Session (bool_decide (requested_mode = "write"%string) && allow_write) "view"
    (if bool_decide (requested_mode = "view"%string) then "" else if allow_write then "" else "this worker accepts read-only remote control")
    (0, 0) 0 0.

Definition MAX_INPUT : Z := 64 * 1024.
Definition WRITER_CHECK_SECONDS : Q := 1.

Section session.
(** [json.loads] and [base64], [None] for [ValueError]. *)
Context (json_loads : string -> option json) (b64encode : bytes -> string) (b64decode : string -> option bytes).

Abbreviation SP := (prog TerminalSession).

Definition _output (data : bytes) : SP unit :=
  match data with
  | [] => mret tt
  | _ => act (SendText (JObj [("t"%string, JStr "o"); ("d"%string, JStr (b64encode data))]))
  end.

Definition _refresh_role : SP unit :=
  self ← get;
  mr ← (if wants_write self then
          clients ← act LocalClients;
          if negb (clients =? 0) then
            act Release ;; mret ("view"%string, "a local terminal is attached to this station; viewing only"%string)
          else
            acquired ← act Acquire;
            if (acquired : bool) then mret ("write"%string, EmptyString)
            else mret ("view"%string, "another session holds the writer role; viewing only"%string)
        else mret ("view"%string, reason self));
  sz ← act PaneSize;
  if bool_decide ((mr, sz) = ((mode self, reason self), size self)) then mret tt
  else
    let resized := bool_decide (size self ≠ (0, 0)) && bool_decide (sz ≠ size self) in
    put (Session (wants_write self) mr.1 mr.2 sz (input_bytes self) (input_frames self)) ;;
    act (SendText (JObj [("t"%string, JStr "s"); ("cols"%string, JInt sz.1); ("rows"%string, JInt sz.2); ("mode"%string, JStr mr.1); ("reason"%string, JStr mr.2)])) ;;
    if resized then snap ← act Snapshot; _output (CLEAR_SCREEN ++ snap) else mret tt.

(** [isinstance(v, int)] includes the booleans; [not isinstance(columns, bool)]
    is asked of the columns only. *)
Definition int_like (o : option json) : option Z :=
  match o with Some (JInt z) => Some z | Some (JBool b) => Some (Z.b2z b) | _ => None end.
Definition not_bool (o : option json) : bool := match o with Some (JBool _) => false | _ => true end.
Definition in_1000 (z : Z) : bool := (1 <=? z) && (z <=? 1000).

Definition _handle_frame (text : string) : SP unit :=
  match json_loads text with
  | Some (JObj frame) =>
      self ← get;
      let writing := bool_decide (mode self = "write"%string) in
      if bool_decide (dget "t" frame = Some (JStr "i")) && writing && (match dget "d" frame with Some (JStr _) => true | _ => false end) then
        match dget "d" frame with
        | Some (JStr d) =>
            match b64decode d with
            | None => mret tt
            | Some data =>
                if (0 <? Z.of_nat (length data)) && (Z.of_nat (length data) <=? MAX_INPUT) then
                  clients ← act LocalClients;
                  if negb (clients =? 0) then _refresh_role
                  else
                    act (SendInput data) ;;
                    put (Session (wants_write self) (mode self) (reason self) (size self)
                           (input_bytes self + Z.of_nat (length data)) (input_frames self + 1))
                else mret tt
            end
        | _ => mret tt
        end
      else if bool_decide (dget "t" frame = Some (JStr "r")) && writing then
        match int_like (dget "cols" frame), int_like (dget "rows" frame) with
        | Some columns, Some rows =>
            if not_bool (dget "cols" frame) && in_1000 columns && in_1000 rows then
              clients ← act LocalClients;
              if clients =? 0 then act (ResizePane columns rows) ;; _refresh_role else mret tt
            else mret tt
        | _, _ => mret tt
        end
      else mret tt
  | _ => mret tt
  end.

(** The [while] loop; the stop event is set after at most [n] rounds. *)
Fixpoint stream_loop (n : nat) (last_check : Q) : SP string :=
  match n with
  | O => mret "closed"%string
  | S n' =>
      stop ← act StopIsSet;
      if (stop : bool) then mret "closed"%string
      else
        data ← act ReadOutput;
        match (data : option bytes) with
        | None => mret "station ended"%string
        | Some data =>
            lagging ← act TakeResync;
            data ← (if (lagging : bool) then snap ← act Snapshot; mret (CLEAR_SCREEN ++ snap) else mret data);
            _output data ;;
            text ← act ReceiveText;
            (match (text : option string) with Some text => _handle_frame text | None => mret tt end) ;;
            now ← act Clock;
            if Qle_bool WRITER_CHECK_SECONDS (now - last_check)%Q then _refresh_role ;; stream_loop n' now
            else stream_loop n' last_check
        end
  end.

Definition run (n : nat) : SP string :=
  reason ← try_except
    (_refresh_role ;; snap ← act Snapshot; _output (CLEAR_SCREEN ++ snap) ;; last_check ← act Clock; stream_loop n last_check)
    (fun exc => mret (exn_name exc));
  act Release ;;
  try_except (act (SendText (JObj [("t"%string, JStr "x"); ("reason"%string, JStr reason)]))) (fun _ => mret tt) ;;
  act CloseSource ;;
  act CloseConnection ;;
  mret reason.

(** [TerminalLauncher._run]: the code of a session's thread. *)
Definition launcher_run (n : nat) (requested_mode : string) (allow_write : bool) : prog unit unit :=
  try_finally
    (opened ← try_except (act OpenSource ;; mret true)
       (fun exc => act (TerminalStatus "refused" "view" (let s := stake 200 (exn_str exc) in if truthy_str s then s else exn_name exc)) ;; mret false);
     if (opened : bool) then
       connected ← try_except (act Connect ;; mret true)
         (fun exc => act CloseSource ;; act (TerminalStatus "refused" "view" ("terminal connection failed: " +:+ exn_name exc)) ;; mret false);
       if (connected : bool) then
         let terminal := TerminalSession_init requested_mode allow_write in
         act (TerminalStatus "opened" (if bool_decide (requested_mode = "write"%string) && allow_write then "write" else "view") (reason terminal)) ;;
         '(ended, terminal) ← with_object terminal (run n);
         act (Audit (input_bytes terminal) (input_frames terminal)) ;;
         act (TerminalStatus "closed" "view" ended)
       else mret tt
     else mret tt)
    (act PopStop).
End session.

(** ** All sessions of a worker *)

Inductive exchange : Type := Exchange (o : op) (r : result exn (answer o)).
Record thread : Type := Thread {
  th_session : string;
  th_mission : string;
  th_prev : option exchange;
  th_proc : proc (result exn unit * unit);
}.
Record worker : Type := Worker { writers : registry; stops : gmap string bool; threads : list thread }.
Definition new_worker : worker := Worker ∅ ∅ [].

Section worker.
Context (json_loads : string -> option json) (b64encode : bytes -> string) (b64decode : string -> option bytes).

(** [TerminalLauncher.open]; [n] bounds the rounds of the session. *)
Definition launcher_open (n : nat) (session_id mission_id mode : string) (allow_write : bool) (w : worker) : bool * worker :=
  if bool_decide (is_Some (stops w !! session_id)) || (16 <=? Z.of_nat (base.size (stops w))) then (false, w)
  else (true, Worker (writers w) (<[session_id := false]> (stops w))
    (threads w ++ [Thread session_id mission_id None (launcher_run json_loads b64encode b64decode n mode allow_write tt)])).
(** [TerminalLauncher.close] *)
Definition launcher_close (session_id : string) (w : worker) : worker :=
  match stops w !! session_id with
  | Some _ => Worker (writers w) (<[session_id := true]> (stops w)) (threads w)
  | None => w
  end.

(** What a call of a thread does to the shared state, and the answers it may
    get: the station and the connection answer anything or raise. *)
Definition effect (sid mid : string) (o : op) (w : worker) : worker :=
  match o with
  | Acquire => Worker (acquire mid sid (writers w)).2 (stops w) (threads w)
  | Release => Worker (release mid sid (writers w)) (stops w) (threads w)
  | PopStop => Worker (writers w) (delete sid (stops w)) (threads w)
  | _ => w
  end.
Definition answers (sid mid : string) (o : op) (w : worker) : result exn (answer o) -> Prop :=
  match o return result exn (answer o) -> Prop with
  | Acquire => fun r => r = Ok (acquire mid sid (writers w)).1
  | Release | PopStop => fun r => r = Ok tt
  | StopIsSet => fun r => r = Ok (default true (stops w !! sid))
  | Clock => fun r => is_ok r = true
  | _ => fun _ => True
  end.
Definition set_thread (i : nat) (t : thread) (w : worker) : worker := Worker (writers w) (stops w) (<[i := t]> (threads w)).

(** Thread [i] makes its next call [o] and gets the answer [r]. *)
Definition calls (i : nat) (o : op) (r : result exn (answer o)) (w w' : worker) : Prop :=
  exists t k, threads w !! i = Some t /\ th_proc t = Act o k /\ answers (th_session t) (th_mission t) o w r /\
    w' = set_thread i (Thread (th_session t) (th_mission t) (Some (Exchange o r)) (k r)) (effect (th_session t) (th_mission t) o w).

Inductive tstep (w : worker) : worker -> Prop :=
  | step_open n sid mid m aw : tstep w (launcher_open n sid mid m aw w).2
  | step_close sid : tstep w (launcher_close sid w)
  | step_call i o r w' : calls i o r w w' -> tstep w w'.
Definition reachable_worker : worker -> Prop := rtc tstep new_worker.

(** ** A logic for threads

    A ghost state follows what a thread may rely on: that it holds the writer
    role, that its last call found no local client, and that its stop flag is
    still registered.  [safe] says every call a thread can ever make is
    allowed in the ghost state it is made in. *)

Record ghost : Type := Ghost { holds : bool; alone : bool; live : bool }.

Definition allowed (g : ghost) (o : op) : Prop :=
  live g = true /\
  match o with
  | SendInput _ | ResizePane _ _ => holds g = true /\ alone g = true
  | PopStop => holds g = false
  | _ => True
  end.
Definition afterwards (g : ghost) (o : op) : result exn (answer o) -> ghost :=
  match o return result exn (answer o) -> ghost with
  | LocalClients => fun r => Ghost (holds g) (match r with Ok n => n =? 0 | Raise _ => false end) (live g)
  | Acquire => fun r => Ghost (match r with Ok b => b | Raise _ => false end) false (live g)
  | Release => fun _ => Ghost false false (live g)
  | PopStop => fun _ => Ghost (holds g) false false
  | _ => fun _ => Ghost (holds g) false (live g)
  end.

Fixpoint safe {A} (Q : A -> ghost -> Prop) (g : ghost) (p : proc A) : Prop :=
  match p with
  | Ret a => Q a g
  | Act o k => allowed g o /\ forall r, safe Q (afterwards g o r) (k r)
  end.

Lemma safe_mono {A} (Q Q' : A -> ghost -> Prop) g p : (forall a g, Q a g -> Q' a g) -> safe Q g p -> safe Q' g p.
Proof.
  intros HQ. revert g. induction p as [a|o k IH]; intros g; cbn; [apply HQ|]. intros [Ha Hk]. split; [done|]. intros r. by apply IH.
Qed.
Lemma safe_bind {A B} (Q : B -> ghost -> Prop) (p : proc A) (f : A -> proc B) g :
  safe (fun a g => safe Q g (f a)) g p -> safe Q g (pbind p f).
Proof.
  revert g. induction p as [a|o k IH]; intros g; cbn; [done|]. intros [Ha Hk]. split; [done|]. intros r. by apply IH.
Qed.

(** Outcomes of code with a local state. *)
Definition spec {S A} (m : prog S A) (Q : result exn A -> S -> ghost -> Prop) (s : S) (g : ghost) : Prop :=
  safe (fun '(r, s') g' => Q r s' g') g (m s).

Section spec.
Context {S : Type}.
Lemma spec_ret {A} (a : A) (Q : result exn A -> S -> ghost -> Prop) s g : Q (Ok a) s g -> spec (mret a) Q s g.
Proof. done. Qed.
Lemma spec_get (Q : result exn S -> S -> ghost -> Prop) s g : Q (Ok s) s g -> spec get Q s g.
Proof. done. Qed.
Lemma spec_put (s1 : S) (Q : result exn unit -> S -> ghost -> Prop) s g : Q (Ok tt) s1 g -> spec (put s1) Q s g.
Proof. done. Qed.
Lemma spec_act (o : op) (Q : result exn (answer o) -> S -> ghost -> Prop) s g :
  allowed g o -> (forall r, Q r s (afterwards g o r)) -> spec (act o) Q s g.
Proof. by split. Qed.
Lemma spec_mono {A} (m : prog S A) (Q Q' : result exn A -> S -> ghost -> Prop) s g :
  (forall r s g, Q r s g -> Q' r s g) -> spec m Q s g -> spec m Q' s g.
Proof. intros HQ. apply safe_mono. intros [r s'] g'. apply HQ. Qed.
Lemma spec_bind {A B} (m : prog S A) (f : A -> prog S B) (Q : result exn B -> S -> ghost -> Prop) s g :
  spec m (fun r s' g' => match r with Ok a => spec (f a) Q s' g' | Raise e => Q (Raise e) s' g' end) s g -> spec (m ≫= f) Q s g.
Proof. intros H. apply safe_bind. eapply safe_mono; [|exact H]. by intros [[a|e] s'] g'. Qed.
Lemma spec_try {A} (m : prog S A) (h : exn -> prog S A) (Q : result exn A -> S -> ghost -> Prop) s g :
  spec m (fun r s' g' => match r with Ok a => Q (Ok a) s' g' | Raise e => spec (h e) Q s' g' end) s g -> spec (try_except m h) Q s g.
Proof. intros H. apply safe_bind. eapply safe_mono; [|exact H]. by intros [[a|e] s'] g'. Qed.
Lemma spec_finally {A} (m : prog S A) (f : prog S unit) (Q : result exn A -> S -> ghost -> Prop) s g :
  spec m (fun r s' g' => spec f (fun r2 s2 g2 => match r2 with Ok _ => Q r s2 g2 | Raise e => Q (Raise e) s2 g2 end) s' g') s g -> spec (try_finally m f) Q s g.
Proof.
  intros H. apply safe_bind. eapply safe_mono; [|exact H]. intros [r s'] g' Hf. apply safe_bind.
  eapply safe_mono; [|exact Hf]. by intros [[a|e] s2] g2.
Qed.
Lemma spec_object {T A} (t : T) (m : prog T A) (Q : result exn (A * T) -> S -> ghost -> Prop) s g :
  spec m (fun r t' g' => match r with Ok a => Q (Ok (a, t')) s g' | Raise e => Q (Raise e) s g' end) t g -> spec (with_object t m) Q s g.
Proof. intros H. apply safe_bind. eapply safe_mono; [|exact H]. by intros [[a|e] t'] g'. Qed.
End spec.

(** Walk through the code of a session. *)
Ltac spec_step :=
  match goal with
  | |- forall _, _ => intros ?
  | |- spec (_ ≫= _) _ _ _ => apply spec_bind
  | |- spec (mret _) _ _ _ => apply spec_ret
  | |- spec get _ _ _ => apply spec_get
  | |- spec (put _) _ _ _ => apply spec_put
  | |- spec (act _) _ _ _ => apply spec_act; [by repeat split|intros [?|?]]
  | |- spec (try_except _ _) _ _ _ => apply spec_try
  | |- spec (let x := _ in _) _ _ _ => cbv zeta
  | |- spec (if ?b then _ else _) _ _ _ => destruct b eqn:?
  | |- spec (match ?x with _ => _ end) _ _ _ => destruct x eqn:?
  | |- spec (let '(_, _) := ?x in _) _ _ _ => destruct x
  end.
Ltac spec_steps := repeat spec_step.

(** A session that is in write mode holds the writer role. *)
Definition mode_sound (s : TerminalSession) (g : ghost) : Prop := live g = true /\ (mode s = "write"%string -> holds g = true).
Definition keeps_mode {A} (r : result exn A) (s : TerminalSession) (g : ghost) : Prop :=
  match r with Ok _ => mode_sound s g | Raise _ => live g = true end.

Lemma spec_output data s g : mode_sound s g -> spec (_output b64encode data) keeps_mode s g.
Proof. intros [Hl Hm]. unfold _output. spec_steps; cbn; auto; by split. Qed.
#[local] Opaque _output.
Lemma spec_refresh s g : live g = true -> spec (_refresh_role b64encode) keeps_mode s g.
Proof.
  intros Hl. unfold _refresh_role. spec_steps; try (apply spec_output); cbn in *; unfold mode_sound; cbn.
  all: try done.
  all: bool_to_prop; simplify_eq; split; [done|]; congruence.
Qed.

Lemma spec_handle text s g : mode_sound s g -> spec (_handle_frame json_loads b64encode b64decode text) keeps_mode s g.
Proof.
  intros [Hl Hm]. unfold _handle_frame. repeat first [apply spec_refresh; assumption|spec_step].
  all: cbn in *; unfold mode_sound; cbn; try done.
  all: bool_to_prop; split;
    [split; [done|]; cbn; split; [by apply Hm|by apply Z.eqb_eq]|intros [?|?]; [|done]].
  - by split.
  - by apply spec_refresh.
Qed.

Lemma spec_loop n last s g : mode_sound s g ->
  spec (stream_loop json_loads b64encode b64decode n last) (fun _ _ g => live g = true) s g.
Proof.
  revert last s g. induction n as [|n IH]; intros last s g Hm; [by destruct Hm|]. cbn [stream_loop].
  assert (Hl : live g = true) by by destruct Hm.
  assert (Hmono : forall A (m : prog TerminalSession A) (f : A -> prog TerminalSession string) s g,
    spec m keeps_mode s g -> (forall a s g, mode_sound s g -> spec (f a) (fun _ _ g => live g = true) s g) ->
    spec (m ≫= f) (fun _ _ g => live g = true) s g).
  { intros A m f s0 g0 H Hf. apply spec_bind. eapply spec_mono; [|exact H]. intros [a|e] s1 g1 H1; [by apply Hf|done]. }
  assert (Hstep : forall o, match o with SendInput _ | ResizePane _ _ | PopStop | Acquire | Release => False | _ => True end ->
    forall s g, mode_sound s g -> spec (act o : prog TerminalSession _) keeps_mode s g).
  { intros o Ho s0 g0 [Hl0 Hm0]. apply spec_act; [by destruct o|]. intros [r|e]; destruct o; try done; by split. }
  apply Hmono; [by apply Hstep|]. intros stop s1 g1 Hm1. destruct stop; [by destruct Hm1|].
  apply Hmono; [by apply Hstep|]. intros [data|] s2 g2 Hm2; [|by destruct Hm2].
  apply Hmono; [by apply Hstep|]. intros lagging s3 g3 Hm3.
  apply Hmono.
  { destruct lagging; [|by apply spec_ret]. apply spec_bind. eapply spec_mono; [|by apply Hstep]. by intros [?|?] ? ?. }
  intros d s4 g4 Hm4. apply Hmono; [by apply spec_output|]. intros _ s5 g5 Hm5.
  apply Hmono; [by apply Hstep|]. intros text s6 g6 Hm6.
  apply Hmono; [destruct text; [by apply spec_handle|by apply spec_ret]|]. intros _ s7 g7 Hm7.
  apply Hmono; [by apply Hstep|]. intros now s8 g8 Hm8.
  destruct (Qle_bool _ _); [|by apply IH]. apply Hmono; [apply spec_refresh; by destruct Hm8|]. intros _. apply IH.
Qed.

Definition released {A} (r : result exn A) (s : TerminalSession) (g : ghost) : Prop := live g = true /\ holds g = false.
Lemma spec_run n s g : live g = true -> spec (run json_loads b64encode b64decode n) released s g.
Proof.
  intros Hl. unfold run. apply spec_bind, spec_try.
  assert (H : spec (_refresh_role b64encode ;; snap ← act Snapshot; _output b64encode (CLEAR_SCREEN ++ snap) ;; last_check ← act Clock;
      stream_loop json_loads b64encode b64decode n last_check) (fun _ _ g => live g = true) s g).
  { apply spec_bind. eapply spec_mono; [|by apply spec_refresh]. intros [[]|e] s1 g1; cbn; [|done]. intros [Hl1 Hm1].
    apply spec_bind, spec_act; [done|]. intros [snap|e]; cbv beta iota; [|done].
    apply spec_bind. eapply spec_mono; [|apply spec_output; by split]. intros [[]|e] s2 g2; cbn; [|done]. intros [Hl2 Hm2].
    apply spec_bind, spec_act; [done|]. intros [now|e]; cbn; [|done]. by apply spec_loop. }
  eapply spec_mono; [|exact H]. clear. intros r s g Hl.
  assert (Hrest : forall reason s g, live g = true -> spec (act Release ;;
     try_except (act (SendText (JObj [("t"%string, JStr "x"); ("reason"%string, JStr reason)]))) (fun _ => mret tt) ;;
     act CloseSource ;; act CloseConnection ;; mret reason) released s g).
  { clear. intros reason s g Hl. spec_steps; done. }
  destruct r as [a|e]; [by apply Hrest|]. apply spec_ret. by apply Hrest.
Qed.

Lemma spec_launcher n m aw g : live g = true -> holds g = false ->
  spec (launcher_run json_loads b64encode b64decode n m aw) (fun _ _ g => live g = false /\ holds g = false) tt g.
Proof.
  intros Hl Hh. unfold launcher_run. apply spec_finally.
  eapply (spec_mono _ (fun _ _ g => live g = true /\ holds g = false)).
  { intros r s g1 [Hl1 Hh1]. apply spec_act; [done|]. intros [?|?]; cbn; done. }
  repeat first [apply spec_object; eapply spec_mono; [|by apply spec_run]; intros [?|?] ? ? [? ?]|spec_step]; try done.
Qed.
(** ** The invariant of all threads *)

Record worker_inv (w : worker) (gs : list ghost) : Prop := {
  wi_length : length gs = length (threads w);
  wi_safe i t g : threads w !! i = Some t -> gs !! i = Some g -> safe (fun _ g => live g = false /\ holds g = false) g (th_proc t);
  wi_alone i t g : threads w !! i = Some t -> gs !! i = Some g -> alone g = true -> th_prev t = Some (Exchange LocalClients (Ok 0));
  wi_flag i t g : threads w !! i = Some t -> gs !! i = Some g -> live g = true -> is_Some (stops w !! th_session t);
  wi_holds i t g : threads w !! i = Some t -> gs !! i = Some g -> holds g = true ->
    live g = true /\ writers w !! th_mission t = Some (th_session t);
  wi_distinct i j t u g h : threads w !! i = Some t -> gs !! i = Some g -> threads w !! j = Some u -> gs !! j = Some h ->
    live g = true -> live h = true -> th_session t = th_session u -> i = j;
  wi_writer m s : writers w !! m = Some s ->
    exists i t g, threads w !! i = Some t /\ gs !! i = Some g /\ live g = true /\ holds g = true /\ th_session t = s /\ th_mission t = m;
}.

(** What a call changes for its own thread. *)
Lemma afterwards_live g o r : live g = true -> live (afterwards g o r) = match o with PopStop => false | _ => true end.
Proof. by destruct o. Qed.
Lemma afterwards_alone g o r : alone (afterwards g o r) = true -> Exchange o r = Exchange LocalClients (Ok 0).
Proof. destruct o; cbn; try done. destruct r as [n|e]; [|done]. by intros ->%Z.eqb_eq. Qed.
Lemma effect_stops sid mid o w s : s ≠ sid \/ o ≠ PopStop -> is_Some (stops w !! s) -> is_Some (stops (effect sid mid o w) !! s).
Proof. intros Hne Hs. destruct o; cbn; try done. rewrite lookup_delete_ne; [done|]. intros ->. by destruct Hne. Qed.
Lemma effect_threads sid mid o w : threads (effect sid mid o w) = threads w.
Proof. by destruct o. Qed.
(** The role a thread holds is the registry's, and others' entries stay. *)
Lemma effect_own sid mid o w r g :
  answers sid mid o w r -> allowed g o -> (holds g = true -> writers w !! mid = Some sid) ->
  holds (afterwards g o r) = true -> writers (effect sid mid o w) !! mid = Some sid /\ (o = PopStop -> False).
Proof.
  intros Hr Ha Hh Hafter. destruct o; cbn in *; try (split; [by apply Hh|done]); try done.
  - subst r. unfold acquire in *. destruct (writers w !! mid) as [h|] eqn:E; cbn in *; [|by simplify_map_eq].
    case_bool_decide; cbn in *; [|done]. by simplify_map_eq.
  - destruct Ha as [_ Ha]. congruence.
Qed.
Lemma effect_other sid mid o w m s : s ≠ sid -> writers (effect sid mid o w) !! m = Some s <-> writers w !! m = Some s.
Proof.
  intros Hs. destruct o; cbn; try done.
  - unfold acquire. destruct (writers w !! mid) as [h|] eqn:E; [case_bool_decide; cbn; [|done]|cbn];
      (destruct (decide (m = mid)) as [->|]; simplify_map_eq; [|done]); split; congruence.
  - unfold release. case_bool_decide as E; [|done]. destruct (decide (m = mid)) as [->|]; simplify_map_eq; [|done]. split; congruence.
Qed.
Lemma effect_mine sid mid o w r g m :
  answers sid mid o w r -> allowed g o -> writers (effect sid mid o w) !! m = Some sid -> (writers w !! m = Some sid -> m = mid /\ holds g = true) ->
  m = mid /\ holds (afterwards g o r) = true /\ o ≠ PopStop.
Proof.
  intros Hr Ha Hw Hm. destruct o; cbn in *; try (split_and!; [by apply Hm|by apply Hm|done]).
  - subst r. unfold acquire in *. destruct (writers w !! mid) as [h|] eqn:E.
    + case_bool_decide as Eh; cbn in *.
      * destruct (decide (m = mid)) as [->|Hne]; [done|]. rewrite lookup_insert_ne in Hw by done. exfalso. by apply Hne, Hm.
      * destruct (Hm Hw) as [-> _]. congruence.
    + cbn in *. destruct (decide (m = mid)) as [->|Hne]; [done|]. rewrite lookup_insert_ne in Hw by done. exfalso. by apply Hne, Hm.
  - exfalso. unfold release in Hw. case_bool_decide as E.
    + destruct (decide (m = mid)) as [->|Hne]; [by simplify_map_eq|]. rewrite lookup_delete_ne in Hw by done. by apply Hne, Hm.
    + destruct (Hm Hw) as [-> _]. done.
  - destruct Ha as [_ Ha]. destruct (Hm Hw). congruence.
Qed.

Lemma worker_inv_new : worker_inv new_worker [].
Proof. split; cbn; intros; simplify_map_eq; done. Qed.

Lemma worker_inv_open n sid mid m aw w gs : worker_inv w gs -> exists gs', worker_inv (launcher_open n sid mid m aw w).2 gs'.
Proof.
  intros I. unfold launcher_open. destruct (bool_decide _ || _) eqn:E; [by exists gs|]. bool_to_prop.
  exists (gs ++ [Ghost false false true]). pose proof (wi_length w gs I) as Hlen.
  assert (Hsplit : forall i t g, (threads w ++ [Thread sid mid None (launcher_run json_loads b64encode b64decode n m aw tt)]) !! i = Some t ->
    (gs ++ [Ghost false false true]) !! i = Some g ->
    (threads w !! i = Some t /\ gs !! i = Some g /\ (i < length gs)%nat) \/
    (i = length gs /\ t = Thread sid mid None (launcher_run json_loads b64encode b64decode n m aw tt) /\ g = Ghost false false true)).
  { intros i t g Ht Hg. destruct (decide (i < length gs)%nat).
    - left. rewrite lookup_app_l in Ht by lia. rewrite lookup_app_l in Hg by lia. done.
    - right. apply lookup_lt_Some in Ht as Hi. rewrite length_app in Hi. cbn in Hi. assert (i = length gs) as -> by lia.
      rewrite lookup_app_r in Ht by lia. rewrite lookup_app_r in Hg by done. rewrite <- Hlen, Nat.sub_diag in Ht. rewrite Nat.sub_diag in Hg. apply list_lookup_singleton_Some in Ht as [_ <-]. by apply list_lookup_singleton_Some in Hg as [_ <-]. }
  split; cbn [threads writers stops snd].
  - rewrite !length_app, Hlen. done.
  - intros i t g Ht Hg. destruct (Hsplit i t g Ht Hg) as [(Ht' & Hg' & _)|(-> & -> & ->)]; [by eapply wi_safe|].
    pose proof (spec_launcher n m aw (Ghost false false true) eq_refl eq_refl) as Hs. eapply safe_mono; [|exact Hs]. by intros [r []] g.
  - intros i t g Ht Hg. destruct (Hsplit i t g Ht Hg) as [(Ht' & Hg' & _)|(-> & -> & ->)]; [by eapply wi_alone|done].
  - intros i t g Ht Hg Hl. destruct (Hsplit i t g Ht Hg) as [(Ht' & Hg' & _)|(-> & -> & ->)].
    + destruct (decide (th_session t = sid)) as [->|]; [by simplify_map_eq|]. rewrite lookup_insert_ne by done. by eapply wi_flag.
    + cbn. by simplify_map_eq.
  - intros i t g Ht Hg Hh. destruct (Hsplit i t g Ht Hg) as [(Ht' & Hg' & _)|(-> & -> & ->)]; [by eapply wi_holds|done].
  - intros i j t u g h Ht Hg Hu Hh Hlg Hlh Heq.
    destruct (Hsplit i t g Ht Hg) as [(Ht' & Hg' & _)|(-> & -> & ->)], (Hsplit j u h Hu Hh) as [(Hu' & Hh' & _)|(-> & -> & ->)]; cbn in *; [by eapply wi_distinct| | |done].
    + destruct (wi_flag w gs I i t g Ht' Hg' Hlg) as [? Hf]. rewrite Heq in Hf. rewrite Hf in *. by destruct H.
    + destruct (wi_flag w gs I j u h Hu' Hh' Hlh) as [? Hf]. rewrite <- Heq in Hf. rewrite Hf in *. by destruct H.
  - intros m' s Hw. destruct (wi_writer w gs I m' s Hw) as (i & t & g & Ht & Hg & ?). exists i, t, g.
    apply lookup_lt_Some in Hg as Hi. split; [by apply lookup_app_l_Some|]. split; [by apply lookup_app_l_Some|done].
Qed.

Lemma worker_inv_close sid w gs : worker_inv w gs -> worker_inv (launcher_close sid w) gs.
Proof.
  intros I. unfold launcher_close. destruct (stops w !! sid) eqn:E; [|done]. destruct I. split; cbn; try done.
  intros i t g Ht Hg Hl. destruct (decide (th_session t = sid)) as [->|]; [by simplify_map_eq|].
  rewrite lookup_insert_ne by done. eauto.
Qed.

Lemma worker_inv_call i o r w w' gs : worker_inv w gs -> calls i o r w w' ->
  exists g, gs !! i = Some g /\ allowed g o /\ worker_inv w' (<[i := afterwards g o r]> gs).
Proof.
  intros I (t & k & Ht & Hp & Hr & ->). pose proof (wi_length w gs I) as Hlen.
  apply lookup_lt_Some in Ht as Hi. destruct (lookup_lt_is_Some_2 gs i ltac:(lia)) as [g Hg].
  pose proof (wi_safe w gs I i t g Ht Hg) as Hsafe. rewrite Hp in Hsafe. destruct Hsafe as [Ha Hk]. specialize (Hk r).
  assert (Hl : live g = true) by apply Ha. exists g. split_and!; [done|done|].
  assert (Hg' : <[i := afterwards g o r]> gs !! i = Some (afterwards g o r)) by (apply list_lookup_insert_eq; lia).
  assert (Hcase : forall j u h, <[i := Thread (th_session t) (th_mission t) (Some (Exchange o r)) (k r)]> (threads w) !! j = Some u -> <[i := afterwards g o r]> gs !! j = Some h ->
    (j = i /\ u = Thread (th_session t) (th_mission t) (Some (Exchange o r)) (k r) /\ h = afterwards g o r) \/
    (j ≠ i /\ threads w !! j = Some u /\ gs !! j = Some h)).
  { intros j u h Hu Hh. destruct (decide (j = i)) as [->|Hne].
    - left. rewrite list_lookup_insert_eq in Hu by lia. by simplify_eq.
    - right. rewrite list_lookup_insert_ne in Hu by done. rewrite list_lookup_insert_ne in Hh by done. done. }
  assert (Hother : forall j u h, j ≠ i -> threads w !! j = Some u -> gs !! j = Some h -> live h = true -> th_session u ≠ th_session t).
  { intros j u h Hne Hu Hh Hlh E. apply Hne. by eapply (wi_distinct w gs I j i u t). }
  assert (Hsame : effect (th_session t) (th_mission t) o w = effect (th_session t) (th_mission t) o w) by done.
  split; unfold set_thread; cbn [threads writers stops]; rewrite ?effect_threads.
  - by rewrite !length_insert.
  - intros j u h Hu Hh. destruct (Hcase j u h Hu Hh) as [(-> & -> & ->)|(Hne & Hu' & Hh')]; [exact Hk|by eapply wi_safe].
  - intros j u h Hu Hh. destruct (Hcase j u h Hu Hh) as [(-> & -> & ->)|(Hne & Hu' & Hh')]; [|by eapply wi_alone].
    intros Hal. cbn [th_prev]. f_equal. by apply (afterwards_alone g).
  - intros j u h Hu Hh Hlh. destruct (Hcase j u h Hu Hh) as [(-> & -> & ->)|(Hne & Hu' & Hh')]; apply effect_stops; cbn.
    + right. rewrite afterwards_live in Hlh by done. by destruct o.
    + by eapply wi_flag.
    + left. by eapply Hother.
    + by eapply wi_flag.
  - intros j u h Hu Hh Hhh. destruct (Hcase j u h Hu Hh) as [(-> & -> & ->)|(Hne & Hu' & Hh')]; cbn [th_mission th_session].
    + destruct (effect_own _ _ _ w r g Hr Ha (fun H => proj2 (wi_holds w gs I i t g Ht Hg H)) Hhh) as [Hw Hpop].
      split; [|done]. rewrite afterwards_live by done. destruct o; try done.
    + destruct (wi_holds w gs I j u h Hu' Hh' Hhh) as [Hlh Hw]. split; [done|]. apply effect_other; [by eapply Hother|done].
  - intros j j' u u' h h' Hu Hh Hu' Hh' Hlh Hlh' E.
    assert (Hpop : live (afterwards g o r) = true -> live g = true) by (by rewrite Hl).
    destruct (Hcase j u h Hu Hh) as [(-> & -> & ->)|(Hne & Hu1 & Hh1)], (Hcase j' u' h' Hu' Hh') as [(-> & -> & ->)|(Hne' & Hu1' & Hh1')]; cbn in *; [done| | |by eapply wi_distinct].
    + by eapply (wi_distinct w gs I i j' t u').
    + by eapply (wi_distinct w gs I j i u t).
  - intros m s Hw. destruct (decide (s = th_session t)) as [->|Hne].
    + destruct (effect_mine _ _ _ w r g m Hr Ha Hw) as (-> & Hhold & Hpop).
      { intros Hm. destruct (wi_writer w gs I m _ Hm) as (j & u & h & Hu & Hh & Hlh & Hhh & Es & Em).
        assert (j = i) as -> by (by eapply (wi_distinct w gs I j i u t)). simplify_eq. done. }
      exists i, (Thread (th_session t) (th_mission t) (Some (Exchange o r)) (k r)), (afterwards g o r).
      split_and!; [apply list_lookup_insert_eq; lia|done| |done|done|done]. rewrite afterwards_live by done. by destruct o.
    + apply effect_other in Hw; [|done]. destruct (wi_writer w gs I m s Hw) as (j & u & h & Hu & Hh & Hlh & Hhh & Es & Em).
      assert (j ≠ i) by (intros ->; simplify_eq). exists j, u, h. rewrite !list_lookup_insert_ne by done. done.
Qed.

Lemma worker_inv_reachable w : reachable_worker w -> exists gs, worker_inv w gs.
Proof.
  intros H. apply (rtc_ind_r (fun w => exists gs, worker_inv w gs) new_worker) in H; [done|exists []; apply worker_inv_new|].
  intros w1 w2 _ Hs [gs I]. destruct Hs as [n sid mid m aw|sid|i o r w' Hc].
  - by eapply worker_inv_open.
  - exists gs. by apply worker_inv_close.
  - destruct (worker_inv_call i o r w1 w' gs I Hc) as (g & _ & _ & I'). by exists (<[i := afterwards g o r]> gs).
Qed.
End worker.

(** The calls that write to a station. *)
Definition types (o : op) : bool := match o with SendInput _ | ResizePane _ _ => true | _ => false end.

Lemma types_allowed g o : types o = true -> allowed g o -> holds g = true /\ alone g = true.
Proof. destruct o; try done; intros _ Ha; apply Ha. Qed.

(** C35: Typing reaches a station only from its writer: whatever sessions are
    opened and however their threads interleave, when a thread sends input to
    a station or resizes it, the registry names that thread's session as the
    mission's writer, no other thread can make such a call for the mission in
    that state, and the call just before found no local terminal attached. *)
Theorem only_the_writer_types json_loads b64encode b64decode (w w' : worker) (i : nat) (o : op) (r : result exn (answer o)) :
  reachable_worker json_loads b64encode b64decode w -> calls i o r w w' -> types o = true ->
  exists t, threads w !! i = Some t /\ writers w !! th_mission t = Some (th_session t) /\ th_prev t = Some (Exchange LocalClients (Ok 0)) /\
    forall j o' r' w'' u, calls j o' r' w w'' -> types o' = true -> threads w !! j = Some u -> th_mission u = th_mission t -> j = i.
Proof.
  intros Hw Hc Ho. destruct (worker_inv_reachable _ _ _ w Hw) as [gs I].
  destruct (worker_inv_call i o r w w' gs I Hc) as (g & Hg & Ha & _). destruct Hc as (t & k & Ht & _). exists t.
  destruct (types_allowed g o Ho Ha) as [Hh Hal].
  destruct (wi_holds w gs I i t g Ht Hg Hh) as [Hl Hwr]. split_and!; [done|done|by eapply wi_alone|].
  intros j o' r' w'' u Hc' Ho' Hu Em. destruct (worker_inv_call j o' r' w w'' gs I Hc') as (h & Hgh & Ha' & _).
  destruct (types_allowed h o' Ho' Ha') as [Hh' _]. destruct (wi_holds w gs I j u h Hu Hgh Hh') as [Hl' Hwr'].
  rewrite Em, Hwr in Hwr'. injection Hwr' as E. by eapply (wi_distinct w gs I j i u t).
Qed.

(** The writer role never outlives its session: in every reachable state
    the session the registry names as a mission's writer is a session of that
    mission whose thread is still running, with its stop flag registered. *)
Theorem writer_is_a_running_session json_loads b64encode b64decode (w : worker) (mission session : string) :
  reachable_worker json_loads b64encode b64decode w -> writers w !! mission = Some session ->
  is_Some (stops w !! session) /\
  exists i t o k, threads w !! i = Some t /\ th_session t = session /\ th_mission t = mission /\ th_proc t = Act o k.
Proof.
  intros Hw Hm. destruct (worker_inv_reachable _ _ _ w Hw) as [gs I].
  destruct (wi_writer w gs I mission session Hm) as (i & t & g & Ht & Hg & Hl & Hh & <- & <-).
  split; [by eapply wi_flag|]. pose proof (wi_safe w gs I i t g Ht Hg) as Hs.
  destruct (th_proc t) as [a|o k] eqn:E; [cbn in Hs; destruct Hs; congruence|]. by exists i, t, o, k.
Qed.

(** ** A run *)

(** The answer of the shared state, and of an oracle for the outside. *)
Definition reply (f : forall o, result exn (answer o)) (sid mid : string) (o : op) (w : worker) : result exn (answer o) :=
  match o return result exn (answer o) -> result exn (answer o) with
  | Acquire => fun _ => Ok (acquire mid sid (writers w)).1
  | Release | PopStop => fun _ => Ok tt
  | StopIsSet => fun _ => Ok (default true (stops w !! sid))
  | Clock => fun _ => Ok 0%Q
  | _ => fun r => r
  end (f o).
Definition drive (f : forall o, result exn (answer o)) (i : nat) (w : worker) : worker :=
  match threads w !! i with
  | Some t =>
      match th_proc t with
      | Act o k =>
          let r := reply f (th_session t) (th_mission t) o w in
          set_thread i (Thread (th_session t) (th_mission t) (Some (Exchange o r)) (k r)) (effect (th_session t) (th_mission t) o w)
      | Ret _ => w
      end
  | None => w
  end.
Definition next_call (i : nat) (w : worker) : option op :=
  t ← threads w !! i; match th_proc t with Act o _ => Some o | Ret _ => None end.

Lemma reply_answers f sid mid o w : answers sid mid o w (reply f sid mid o w).
Proof. by destruct o. Qed.
Lemma next_call_calls f i w o : next_call i w = Some o -> exists r, calls i o r w (drive f i w).
Proof.
  unfold next_call, drive. destruct (threads w !! i) as [t|] eqn:Ht; [|done]. cbn. destruct (th_proc t) as [a|o' k] eqn:E; [done|].
  intros [= <-]. exists (reply f (th_session t) (th_mission t) o' w). exists t, k. split_and!; [done|done|apply reply_answers|done].
Qed.
Lemma drive_reachable jl be bd f i w : reachable_worker jl be bd w -> reachable_worker jl be bd (drive f i w).
Proof.
  intros Hw. destruct (next_call i w) as [o|] eqn:E.
  - destruct (next_call_calls f i w o E) as [r Hr]. eapply rtc_r; [exact Hw|by eapply step_call].
  - unfold next_call, drive in *. destruct (threads w !! i) as [t|]; [|done]. cbn in E. by destruct (th_proc t).
Qed.

Definition demo_answers (o : op) : result exn (answer o) :=
  match o with
  | LocalClients => Ok 0
  | PaneSize => Ok (80, 24)
  | Snapshot => Ok (b_ "$")
  | ReadOutput => Ok (Some [])
  | TakeResync => Ok false
  | ReceiveText => Ok (Some "frame"%string)
  | OpenSource | Connect | SendInput _ | ResizePane _ _ | CloseSource | SendText _ | CloseConnection | TerminalStatus _ _ _ | Audit _ _ | Release | PopStop => Ok tt
  | Acquire | StopIsSet => Ok false
  | Clock => Ok 0%Q
  end.
Definition demo_loads (s : string) : option json := Some (JObj [("t"%string, JStr "i"); ("d"%string, JStr "bHM=")]).
Definition demo_worker (n : nat) : worker :=
  Nat.iter n (drive demo_answers 0) (launcher_open demo_loads (fun _ => EmptyString) (fun _ => Some (b_ "ls")) 2 "s1" "m1" "write" true new_worker).2.

Lemma demo_worker_reachable n : reachable_worker demo_loads (fun _ => EmptyString) (fun _ => Some (b_ "ls")) (demo_worker n).
Proof. induction n as [|n IH]; [apply rtc_once, step_open|]. by apply drive_reachable. Qed.

Lemma only_the_writer_types_witness :
  exists t, threads (demo_worker 15) !! 0%nat = Some t /\ writers (demo_worker 15) !! th_mission t = Some (th_session t) /\
    th_prev t = Some (Exchange LocalClients (Ok 0)).
Proof.
  assert (H : next_call 0 (demo_worker 15) = Some (SendInput (b_ "ls"))) by (vm_compute; reflexivity).
  apply (next_call_calls demo_answers) in H as [r Hr].
  destruct (only_the_writer_types _ _ _ _ _ _ _ _ (demo_worker_reachable 15) Hr eq_refl) as (t & H1 & H2 & H3 & _).
  exact (ex_intro _ t (conj H1 (conj H2 H3))).
Defined.

Lemma writer_is_a_running_session_witness :
  is_Some (stops (demo_worker 15) !! "s1"%string) /\
  exists i t o k, threads (demo_worker 15) !! i = Some t /\ th_session t = "s1"%string /\ th_mission t = "m1"%string /\ th_proc t = Act o k.
Proof.
  assert (H : writers (demo_worker 15) !! "m1"%string = Some "s1"%string) by (vm_compute; reflexivity).
  exact (writer_is_a_running_session _ _ _ _ "m1" "s1" (demo_worker_reachable 15) H).
Defined.
