(* ===== verification/Redraw.v ===== *)
(** * Redraw scheduling ([bridge_redraw.py])

    Times are rationals.  [BackgroundReload] is a machine with two threads: the
    screen loop, whose [poll] takes the lock once and then decides on a new
    read, and the reader it starts, which loads, publishes under the lock and
    sets the done flag.  One [event] is one such step; the events of a run say
    how the threads interleave and what the outside answers. *)

From Stdlib Require Import QArith Qround.
From S2P Require Import Prelude Py.
From stdpp Require Import options.
Local Open Scope Z_scope.

(** ** Timed text *)

Definition MIN_WAIT_SECONDS : Q := 2 # 100.
Definition MAX_WAIT_SECONDS : Q := 1.

Definition qmin (a b : Q) : Q := if Qle_bool a b then a else b.
Definition qmax (a b : Q) : Q := if Qle_bool b a then a else b.
Definition least (l : list Q) : option Q := match l with [] => None | q :: l' => Some (foldl qmin q l') end.

Record TimedElements : Type := Timed { after : option Q; age_steps : option Z }.
Definition no_text : TimedElements := Timed None None.
Definition wall (seconds : Q) (t : TimedElements) : TimedElements :=
  Timed (Some (match after t with None => seconds | Some a => qmin a seconds end)) (age_steps t).
Definition steps_of (value : Z) : Z := if value <? 59 then 1 else 60 - value mod 60.
Definition age (value : Z) (t : TimedElements) : TimedElements :=
  Timed (after t) (Some (match age_steps t with None => steps_of value | Some s => Z.min s (steps_of value) end)).

(** [int(q)] truncates. *)
Definition int_of (q : Q) : Z := Z.quot (Qnum q) (Zpos (Qden q)).
Definition next_deadline (now : Q) (age_origin : option Q) (t : TimedElements) : option Q :=
  least ((match after t with Some a => [(now + qmax MIN_WAIT_SECONDS a)%Q] | None => [] end) ++
         (match age_steps t with
          | Some s => [match age_origin with
                       | None => (now + inject_Z s)%Q
                       | Some origin => qmax (now + MIN_WAIT_SECONDS)%Q (origin + inject_Z (int_of (now - origin)) + inject_Z s)%Q
                       end]
          | None => []
          end)).

Record RedrawPlanner : Type := Planner { dirty : bool; deadline : option Q }.
Definition new_planner : RedrawPlanner := Planner true None.
Definition mark (p : RedrawPlanner) : RedrawPlanner := Planner true (deadline p).
Definition should_draw (now : Q) (p : RedrawPlanner) : bool :=
  dirty p || match deadline p with Some d => Qle_bool d now | None => false end.
Definition drawn (d : option Q) (p : RedrawPlanner) : RedrawPlanner := Planner false d.
Definition planner_wait (now : Q) (others : list (option Q)) (p : RedrawPlanner) : Q :=
  let waits := omap id others ++ match deadline p with Some d => [(d - now)%Q] | None => [] end in
  if dirty p then 0%Q
  else match least waits with Some w => qmin MAX_WAIT_SECONDS (qmax 0 w) | None => MAX_WAIT_SECONDS end.

Definition timeout_ms (seconds : Q) : Z := Z.max 1 (int_of (seconds * 1000 + (999 # 1000))%Q).
Definition probe_interval (now : Q) (last_input : option Q) (fast slow after : Q) : Q :=
  match last_input with
  | Some l => if Qle_bool after (now - l)%Q then slow else fast
  | None => fast
  end.

(** ** The ages a screen shows ([common.fmt_duration], [bridge_tui._age]) *)

(** The parts [fmt_duration] joins with spaces, and [_span] splits again. *)
Definition duration_parts (total : Z) : list string :=
  if total <=? 0 then ["0m"%string]
  else
    let days := total / 86400 in
    let rem := total mod 86400 in
    let hours := rem / 3600 in
    let mins := (rem mod 3600) / 60 in
    let parts := (if negb (days =? 0) then [show_Z days +:+ "d"] else []) ++
                 (if negb (hours =? 0) || negb (days =? 0) then [show_Z hours +:+ "h"] else []) in
    parts ++ (if negb (mins =? 0) || bool_decide (parts = []) then [show_Z mins +:+ "m"] else []).
Definition fmt_duration (total : Z) : string := join " " (duration_parts total).
Definition _span (total : Z) (units : nat) : string := join " " (take units (duration_parts total)).
(** The text of an age, and the report made while it is drawn. *)
Definition _age (seconds : option Z) (t : TimedElements) : string * TimedElements :=
  match seconds with
  | None => ("—"%string, t)
  | Some value => (if value <? 60 then show_Z (Z.max 0 value) +:+ "s" else _span value 2, age (Z.max 0 value) t)
  end.
(** [_aged_snapshot]: the console advances the ages of a snapshot itself. *)
Definition aged (origin t : Q) (value : Z) : Z := value + Z.max 0 (int_of (t - origin)%Q).

(** Drawing a frame's ages one after the other. *)
Fixpoint draw_ages (origin now : Q) (values : list Z) (t : TimedElements) : list string * TimedElements :=
  match values with
  | [] => ([], t)
  | v :: values' =>
      let '(text, t) := _age (Some (aged origin now v)) t in
      let '(texts, t) := draw_ages origin now values' t in
      (text :: texts, t)
  end.

(** ** [BackgroundReload] *)

Section reload.
Context {D : Type}.

(** The reader thread of read number [wr_read]. *)
Inductive phase : Type :=
  | Loading
  | Loaded (ok : bool) (value : D)
  | Published
  | Finished.
Record reader : Type := Reader { rd_read : nat; rd_generation : nat; rd_phase : phase }.
(** The screen loop is between calls, or in [poll] past the lock. *)
Inductive main_thread : Type := Idle | Polling (now : Q) (last_input : option Q).

Record BackgroundReload : Type := Reload {
  br_probe : bool;  (** a probe is given *)
  br_fast : Q; br_slow : Q; br_after : Q;
  br_forced : bool;
  br_seen : option Z;
  br_rebase : bool;
  br_next_probe : Q;
  br_generation : nat;
  br_reads : nat;  (** reads started so far *)
  br_thread : option reader;
  br_result : option (nat * nat * bool * D);  (** generation, read, ok, value *)
  br_main : main_thread;
}.
Definition new_reload (probe : bool) (fast slow after : Q) : BackgroundReload :=
  Reload probe fast slow after true None false 0 0 0 None None Idle.

Definition set_result (res : option (nat * nat * bool * D)) (b : BackgroundReload) : BackgroundReload :=
  Reload (br_probe b) (br_fast b) (br_slow b) (br_after b) (br_forced b) (br_seen b) (br_rebase b) (br_next_probe b)
    (br_generation b) (br_reads b) (br_thread b) res (br_main b).
Definition set_thread (t : option reader) (b : BackgroundReload) : BackgroundReload :=
  Reload (br_probe b) (br_fast b) (br_slow b) (br_after b) (br_forced b) (br_seen b) (br_rebase b) (br_next_probe b)
    (br_generation b) (br_reads b) t (br_result b) (br_main b).
Definition set_main (m : main_thread) (b : BackgroundReload) : BackgroundReload :=
  Reload (br_probe b) (br_fast b) (br_slow b) (br_after b) (br_forced b) (br_seen b) (br_rebase b) (br_next_probe b)
    (br_generation b) (br_reads b) (br_thread b) (br_result b) m.

Definition request (b : BackgroundReload) : BackgroundReload :=
  Reload (br_probe b) (br_fast b) (br_slow b) (br_after b) true (br_seen b) (br_rebase b) (br_next_probe b)
    (br_generation b) (br_reads b) (br_thread b) (br_result b) (br_main b).
Definition invalidate (b : BackgroundReload) : BackgroundReload :=
  Reload (br_probe b) (br_fast b) (br_slow b) (br_after b) true (br_seen b) (br_rebase b) (br_next_probe b)
    (S (br_generation b)) (br_reads b) (br_thread b) None (br_main b).

Definition running (b : BackgroundReload) : bool :=
  match br_thread b with Some (Reader _ _ Finished) | None => false | Some _ => true end.
Definition wake_in (now : Q) (b : BackgroundReload) : option Q :=
  if match br_result b with Some _ => true | None => false end || br_forced b then Some 0%Q
  else if running b then Some (5 # 100)%Q
  else if br_probe b then Some (qmax 0 (br_next_probe b - now)%Q) else None.

(** [poll] up to the end of its critical section, and the branch that returns
    a finished read; [reading] is what the probe answers when it is called. *)
Definition poll_take (now : Q) (last_input : option Q) (hold : bool) (reading : option Z) (b : BackgroundReload)
  : option (nat * bool * D) * BackgroundReload :=
  if hold then (None, b)
  else
    match br_result b with
    | Some (_, read, ok, value) =>
        let rebased := br_rebase b && br_probe b in
        (Some (read, ok, value),
         Reload (br_probe b) (br_fast b) (br_slow b) (br_after b) (br_forced b)
           (if ok then (if rebased then reading else br_seen b) else None)
           (if rebased then false else br_rebase b)
           (if ok then br_next_probe b else qmax (br_next_probe b) (now + br_slow b)%Q)
           (br_generation b) (br_reads b) (br_thread b) None Idle)
    | None => (None, set_main (Polling now last_input) b)
    end.

Definition _start (b : BackgroundReload) : BackgroundReload :=
  Reload (br_probe b) (br_fast b) (br_slow b) (br_after b) (br_forced b) (br_seen b) (br_rebase b) (br_next_probe b)
    (br_generation b) (S (br_reads b)) (Some (Reader (S (br_reads b)) (br_generation b) Loading)) (br_result b) (br_main b).

Definition z_eqb_opt (a b : option Z) : bool := bool_decide (a = b).
(** The rest of [poll]. *)
Definition poll_rest (reading : option Z) (b : BackgroundReload) : BackgroundReload :=
  match br_main b with
  | Idle => b
  | Polling now last_input =>
      let b := set_main Idle b in
      if running b then b
      else
        let probing := br_probe b && (br_forced b || Qle_bool (br_next_probe b) now) in
        let reading := if probing then reading else None in
        let next_probe :=
          if probing then (now + match reading with Some _ => probe_interval now last_input (br_fast b) (br_slow b) (br_after b) | None => br_slow b end)%Q
          else br_next_probe b in
        let due := br_forced b || (probing && (bool_decide (reading = None) || negb (bool_decide (reading = br_seen b)))) in
        if due then
          _start (Reload (br_probe b) (br_fast b) (br_slow b) (br_after b) false reading (br_probe b && bool_decide (reading = None)) next_probe
                   (br_generation b) (br_reads b) (br_thread b) (br_result b) Idle)
        else Reload (br_probe b) (br_fast b) (br_slow b) (br_after b) (br_forced b) (br_seen b) (br_rebase b) next_probe
               (br_generation b) (br_reads b) (br_thread b) (br_result b) Idle
  end.

(** The next step of [work]; [loaded] is what [load] gives. *)
Definition work (loaded : bool * D) (b : BackgroundReload) : BackgroundReload :=
  match br_thread b with
  | Some (Reader n g Loading) => set_thread (Some (Reader n g (Loaded loaded.1 loaded.2))) b
  | Some (Reader n g (Loaded ok value)) =>
      set_thread (Some (Reader n g Published)) (if bool_decide (g = br_generation b) then set_result (Some (g, n, ok, value)) b else b)
  | Some (Reader n g Published) => set_thread (Some (Reader n g Finished)) b
  | _ => b
  end.

Inductive event : Type :=
  | ERequest | EInvalidate
  | EPoll (now : Q) (last_input : option Q) (hold : bool) (reading : option Z)
  | EPollRest (reading : option Z)
  | EWork (loaded : bool * D).

(** The screen loop makes no other call while it is in [poll]. *)
Definition react (e : event) (b : BackgroundReload) : option (nat * bool * D) * BackgroundReload :=
  match e, br_main b with
  | ERequest, Idle => (None, request b)
  | EInvalidate, Idle => (None, invalidate b)
  | EPoll now last_input hold reading, Idle => poll_take now last_input hold reading b
  | EPollRest reading, Polling _ _ => (None, poll_rest reading b)
  | EWork loaded, _ => (None, work loaded b)
  | _, _ => (None, b)
  end.

(** The state after the first [n] events, and what event [n] returns. *)
Fixpoint state_at (b : BackgroundReload) (ev : nat -> event) (n : nat) : BackgroundReload :=
  match n with O => b | S n' => (react (ev n') (state_at b ev n')).2 end.
Definition returned (b : BackgroundReload) (ev : nat -> event) (n : nat) : option (nat * bool * D) := (react (ev n) (state_at b ev n)).1.

(** ** Runs *)

Section run.
Context (b0 : BackgroundReload) (ev : nat -> event).
Abbreviation st := (state_at b0 ev).

Definition invalidated (m : nat) : Prop := ev m = EInvalidate /\ br_main (st m) = Idle.
Definition none_between (s n : nat) : Prop := forall m, (s <= m < n)%nat -> ~ invalidated m.
(** Event [s] starts read [r], event [k] is its call of [load]. *)
Definition starts_read (s r : nat) : Prop := br_reads (st s) = (r - 1)%nat /\ br_reads (st (S s)) = r /\ (0 < r)%nat.
Definition loads (k r : nat) (ok : bool) (value : D) : Prop :=
  ev k = EWork (ok, value) /\ exists g, br_thread (st k) = Some (Reader r g Loading).

Definition read_since (n r : nat) (fresh : Prop) (loaded : option (bool * D)) : Prop :=
  exists s, (s < n)%nat /\ starts_read s r /\ (fresh -> none_between s n) /\
    forall ok value, loaded = Some (ok, value) -> exists k, (s < k < n)%nat /\ loads k r ok value.

Definition loaded_of (p : phase) : option (bool * D) := match p with Loaded ok v => Some (ok, v) | _ => None end.
Record reads_inv (n : nat) : Prop := {
  ri_thread r g p : br_thread (st n) = Some (Reader r g p) ->
    (g <= br_generation (st n))%nat /\ read_since n r (g = br_generation (st n)) (loaded_of p);
  ri_result g r ok v : br_result (st n) = Some (g, r, ok, v) -> read_since n r True (Some (ok, v));
}.

Lemma none_between_S s n : none_between s n -> ~ invalidated n -> none_between s (S n).
Proof. intros Hs Hn m Hm. destruct (decide (m = n)) as [->|]; [done|]. apply Hs. lia. Qed.
Lemma read_since_S n r (F F' : Prop) l l' :
  read_since n r F l -> (F' -> F /\ ~ invalidated n) -> (l' = l \/ l' = None) -> read_since (S n) r F' l'.
Proof.
  intros (s & Hs & Hst & Hf & Hl) HF Hll. exists s. split_and!; [lia|done| |].
  - intros [HF1 Hn]%HF. apply none_between_S; auto.
  - intros ok v E. destruct Hll as [->| ->]; [|done]. destruct (Hl ok v E) as (k & Hk & Hload). exists k. split; [lia|done].
Qed.

Lemma st_S n : st (S n) = (react (ev n) (st n)).2.
Proof. done. Qed.

(** An event that neither invalidates, publishes nor starts a read. *)
Lemma reads_inv_quiet n :
  reads_inv n -> ~ invalidated n -> br_generation (st (S n)) = br_generation (st n) ->
  (br_thread (st (S n)) = br_thread (st n) \/ (exists r g p, br_thread (st n) = Some (Reader r g p) /\ (br_thread (st (S n)) = Some (Reader r g Published) \/ br_thread (st (S n)) = Some (Reader r g Finished)))) ->
  (br_result (st (S n)) = br_result (st n) \/ br_result (st (S n)) = None) -> reads_inv (S n).
Proof.
  intros [It Ir] Hn Hg Ht Hr. split.
  - intros r g p E. rewrite Hg.
    assert (exists p0, br_thread (st n) = Some (Reader r g p0) /\ (loaded_of p = loaded_of p0 \/ loaded_of p = None)) as (p0 & E0 & Hp).
    { destruct Ht as [Ht|(r0 & g0 & p0 & E0 & [Ht|Ht])]; rewrite Ht in E; [exists p; auto| |]; simplify_eq; exists p0; auto. }
    destruct (It r g p0 E0) as [H1 H2]. split; [done|]. eapply read_since_S; [exact H2|by intros ->|done].
  - intros g r ok v E. destruct Hr as [Hr|Hr]; rewrite Hr in E; [|done]. eapply read_since_S; [by eapply Ir|done|by left].
Qed.

Lemma reads_inv_step n : reads_inv n -> reads_inv (S n).
Proof.
  intros I. destruct (ev n) as [| |now li hold reading|reading|[ok0 v0]] eqn:Ee.
  - apply reads_inv_quiet; [done|by intros [? _]; congruence| | |]; rewrite st_S, Ee; cbn; destruct (br_main (st n)); cbn; auto.
  - destruct (br_main (st n)) as [|now li] eqn:Em.
    + destruct I as [It Ir]. split; rewrite st_S, Ee; cbn; rewrite Em; cbn; [|done].
      intros r g p E. destruct (It r g p E) as [H1 H2]. split; [lia|]. eapply read_since_S; [exact H2|intros; lia|by left].
    + apply reads_inv_quiet; [done|intros [? ?]; congruence| | |]; rewrite st_S, Ee; cbn; rewrite Em; cbn; auto.
  - apply reads_inv_quiet; [done|by intros [? _]; congruence| | |]; rewrite st_S, Ee; cbn; destruct (br_main (st n)); cbn; auto;
      unfold poll_take; destruct hold; cbn; auto; destruct (br_result (st n)) as [[[[? ?] ?] ?]|] eqn:Er; cbn; rewrite ?Er; auto.
  - assert (Hn : ~ invalidated n) by (intros [? _]; congruence).
    destruct (br_main (st n)) as [|now li] eqn:Em; [apply reads_inv_quiet; [done|done| | |]; rewrite st_S, Ee; cbn; rewrite Em; auto|].
    destruct (decide (br_reads (st (S n)) = br_reads (st n))) as [Hs|Hs].
    + apply reads_inv_quiet; [done|done| | |]; revert Hs; rewrite st_S, Ee; cbn; rewrite Em; cbn; unfold poll_rest; rewrite Em;
        destruct (running _); cbn; auto; destruct (_ || _); cbn; auto; lia.
    + assert (Hst : br_generation (st (S n)) = br_generation (st n) /\ br_reads (st (S n)) = S (br_reads (st n)) /\
        br_thread (st (S n)) = Some (Reader (S (br_reads (st n))) (br_generation (st n)) Loading) /\ br_result (st (S n)) = br_result (st n)).
      { revert Hs. rewrite st_S, Ee. cbn. rewrite Em. cbn. unfold poll_rest. rewrite Em. destruct (running _); cbn; [done|]. destruct (_ || _); cbn; done. }
      destruct Hst as (Hg & Hr & Ht & Hres), I as [It Ir]. split.
      * rewrite Ht, Hg. intros r g p [= <- <- <-]. split; [done|]. exists n. split_and!; [lia| | |done].
        -- split_and!; [lia|done|lia].
        -- intros _ m Hm. assert (m = n) as -> by lia. done.
      * rewrite Hres. intros g r ok v E. eapply read_since_S; [by eapply Ir|done|by left].
  - assert (Hn : ~ invalidated n) by (intros [? _]; congruence).
    assert (Est : st (S n) = work (ok0, v0) (st n)) by (rewrite st_S, Ee; cbn; by destruct (br_main (st n))). unfold work in Est.
    destruct (br_thread (st n)) as [[r g [|ok v| |]]|] eqn:Et; [| |apply reads_inv_quiet; try done; rewrite Est; cbn; eauto 10|..];
      [| |apply reads_inv_quiet; try done; rewrite ?Est, ?Et; auto..].
    + destruct I as [It Ir]. destruct (It r g Loading Et) as [H1 (s & Hs & Hst & Hf & _)]. split; rewrite Est; cbn.
      * intros r' g' p' [= <- <- <-]. split; [done|]. exists s. split_and!; [lia|done| |].
        -- intros F. apply none_between_S; auto.
        -- intros ok v [= <- <-]. exists n. split; [lia|]. split; [done|by exists g].
      * intros g' r' ok v E. eapply read_since_S; [by eapply Ir|done|by left].
    + destruct I as [It Ir]. destruct (It r g (Loaded ok v) Et) as [H1 H2]. split; rewrite Est; cbn.
      * intros r' g' p' E. assert (E' : r' = r /\ g' = g /\ p' = Published) by (case_bool_decide; cbn in E; by simplify_eq).
        destruct E' as (-> & -> & ->). split; [by case_bool_decide|]. eapply read_since_S; [exact H2| |by right].
        case_bool_decide; cbn; auto.
      * intros g' r' ok' v' E. case_bool_decide as Eg; cbn in E.
        -- simplify_eq. eapply read_since_S; [exact H2|by intros _|by left].
        -- eapply read_since_S; [by eapply Ir|done|by left].
Qed.
End run.

Lemma reads_inv_all probe fast slow after ev n : reads_inv (new_reload probe fast slow after) ev n.
Proof. induction n as [|n IH]; [by split|]. by apply reads_inv_step. Qed.

(** ** Leads-to *)

(** While [Φ] holds, the rank never grows, and an event that helps at the
    current rank lowers it; helpful events keep coming. *)
Lemma leads_to (s : nat -> BackgroundReload) (ev : nat -> event) (μ : BackgroundReload -> nat) (Φ : BackgroundReload -> Prop)
    (goal : nat -> Prop) (helps : nat -> event -> bool) (n : nat) :
  (forall m, (n <= m)%nat -> Φ (s m) ->
    goal m \/ (Φ (s (S m)) /\ ((μ (s (S m)) < μ (s m))%nat \/ (μ (s (S m)) = μ (s m) /\ helps (μ (s m)) (ev m) = false)))) ->
  (forall k m, exists m', (m <= m')%nat /\ helps k (ev m') = true) ->
  Φ (s n) -> exists m, (n <= m)%nat /\ goal m.
Proof.
  intros Hstep Hfair. remember (μ (s n)) as k eqn:Ek. revert n Ek Hstep.
  induction k as [k IH] using lt_wf_ind. intros n -> Hstep HΦ. destruct (Hfair (μ (s n)) n) as (m' & Hm' & Hh).
  remember (m' - n)%nat as d eqn:Ed. revert n IH Hstep HΦ Hm' Hh Ed. induction d as [|d IHd]; intros n IH Hstep HΦ Hm' Hh Ed.
  - assert (m' = n) as -> by lia. destruct (Hstep n ltac:(lia) HΦ) as [Hg|(HΦ' & [Hlt|[_ E]])]; [by exists n| |congruence].
    destruct (IH _ Hlt (S n) eq_refl) as (m & Hm & Hg); [intros; apply Hstep; [lia|done]|done|]. exists m. split; [lia|done].
  - destruct (Hstep n ltac:(lia) HΦ) as [Hg|(HΦ' & [Hlt|[E _]])]; [by exists n| |].
    + destruct (IH _ Hlt (S n) eq_refl) as (m & Hm & Hg); [intros; apply Hstep; [lia|done]|done|]. exists m. split; [lia|done].
    + destruct (IHd (S n)) as (m & Hm & Hg); [by rewrite E|intros; apply Hstep; [lia|done]|done|lia|by rewrite E|lia|]. exists m. split; [lia|done].
Qed.

Definition is_poll (e : event) : bool := match e with EPoll _ _ hold _ => negb hold | _ => false end.
Definition is_rest (e : event) : bool := match e with EPollRest _ => true | _ => false end.
Definition is_work (e : event) : bool := match e with EWork _ => true | _ => false end.
(** The screen loop keeps polling, without holding, and the reader thread is
    scheduled again and again. *)
Definition infinitely_often (p : event -> bool) (ev : nat -> event) : Prop := forall n, exists m, (n <= m)%nat /\ p (ev m) = true.
Definition fair (ev : nat -> event) : Prop := infinitely_often is_poll ev /\ infinitely_often is_rest ev /\ infinitely_often is_work ev.

Definition helps (k : nat) (e : event) : bool :=
  match k with 1%nat | 4%nat => is_rest e | 2%nat | 3%nat => is_poll e | _ => is_work e end.
Lemma fair_helps ev : fair ev -> forall k m, exists m', (m <= m')%nat /\ helps k (ev m') = true.
Proof. intros (H1 & H2 & H3) k m. destruct k as [|[|[|[|[|k]]]]]; cbn; auto. Qed.

(** Waiting for the read to start: first the reader in flight finishes. *)
Definition rank_start (b : BackgroundReload) : nat :=
  match br_thread b with
  | Some (Reader _ _ Loading) => 13
  | Some (Reader _ _ (Loaded _ _)) => 12
  | Some (Reader _ _ Published) => 11
  | _ => match br_main b with Polling _ _ => 1 | Idle => match br_result b with Some _ => 3 | None => 2 end end
  end.
Definition wants_read (N : nat) (b : BackgroundReload) : Prop := br_forced b = true /\ (N <= br_reads b)%nat.

Definition newer (N : nat) (b : BackgroundReload) : bool :=
  match br_result b with Some (_, r, _, _) => (N <? r)%nat | None => false end.
(** Waiting for the read to be returned. *)
Definition rank_return (N : nat) (b : BackgroundReload) : nat :=
  if newer N b then match br_main b with Polling _ _ => 4 | Idle => 2 end
  else match br_thread b with Some (Reader _ _ Loading) => 13 | _ => 12 end.
Definition reading (N : nat) (b : BackgroundReload) : Prop :=
  (N <= br_reads b)%nat /\ exists r p, br_thread b = Some (Reader r (br_generation b) p) /\ (N < r)%nat /\
    (newer N b = true \/ match p with Loading | Loaded _ _ => True | _ => False end).

Lemma start_step (N : nat) (b : BackgroundReload) (e : event) :
  wants_read N b -> (e = EInvalidate -> False) ->
  let b' := (react e b).2 in
  reading N b' \/ (wants_read N b' /\ ((rank_start b' < rank_start b)%nat \/ (rank_start b' = rank_start b /\ helps (rank_start b) e = false))).
Proof.
  intros [Hf HN] Hne. destruct e as [| |now li hold rd|rd|[ok v]]; [| |destruct hold|..]; try (by destruct Hne); cbn [react];
    destruct b as [pb fa sl af fo se re np gen rds th res [|now' li']]; cbn in *; subst fo; cbn.
  all: unfold wants_read, poll_rest, work, poll_take, rank_start; cbn.
  all: destruct th as [[r g [|ok' v'| |]]|]; cbn; try (destruct res as [[[[? ?] ?] ?]|]); cbn; try (case_bool_decide; cbn); auto 10 with lia.
  all: try (left; split; cbn; [lia|]; eexists _, Loading; split; [reflexivity|]; split; [lia|by right]).
  all: right; (split; [done|]); auto with lia.
Qed.

#[local] Arguments Nat.ltb : simpl never.
#[local] Arguments Nat.leb : simpl never.
Lemma return_step (N : nat) (b : BackgroundReload) (e : event) :
  reading N b -> (e = EInvalidate -> False) ->
  let '(out, b') := react e b in
  (exists r ok v, out = Some (r, ok, v) /\ (N < r)%nat) \/
  (reading N b' /\ ((rank_return N b' < rank_return N b)%nat \/ (rank_return N b' = rank_return N b /\ helps (rank_return N b) e = false))).
Proof.
  intros (HN & r & p & Ht & Hr & Hp) Hne.
  destruct e as [| |now li hold rd|rd|[ok v]]; [| |destruct hold|..]; try (by destruct Hne); cbn [react];
    destruct b as [pb fa sl af fo se re np gen rds th res [|now' li']]; cbn in *; subst th; cbn.
  all: unfold reading, rank_return, newer, poll_rest, work, poll_take in *; cbn in *.
  all: destruct res as [[[[g0 r0] ok0] v0]|]; cbn in *; try (destruct (Nat.ltb_spec N r0)); cbn in *.
  all: destruct p as [|ok' v'| |]; cbn in *; try (rewrite bool_decide_true by done; cbn).
  all: try (match goal with |- context [if (?fo || ?x) then _ else _] => destruct (fo || x) end; cbn).
  all: try (left; do 3 eexists; split; [reflexivity|done]).
  all: try (destruct Hp as [Hp|Hp]; [discriminate Hp|]); try done.
  all: try (right; split; [split; [lia|]; do 2 eexists; split; [reflexivity|]; split; [lia|]; auto|]; auto with lia).
  all: repeat match goal with |- context [(?y <? ?x)%nat] => destruct (Nat.ltb_spec y x) end; auto with lia.
Qed.

(** A requested read is always answered: if the screen loop keeps polling
    without holding and the reader thread keeps being scheduled, then after a
    request - and as long as nothing is invalidated - some later [poll]
    returns the outcome of a read that was started after the request. *)
Theorem requested_read_is_returned (b : BackgroundReload) (ev : nat -> event) (n : nat) :
  fair ev -> br_forced (state_at b ev n) = true -> (forall m, (n <= m)%nat -> ev m ≠ EInvalidate) ->
  exists m r ok value, (n <= m)%nat /\ returned b ev m = Some (r, ok, value) /\ (br_reads (state_at b ev n) < r)%nat.
Proof.
  intros Hfair Hf Hinv. pose proof (fair_helps ev Hfair) as Hh. set (N := br_reads (state_at b ev n)).
  destruct (leads_to (state_at b ev) ev rank_start (wants_read N) (fun m => reading N (state_at b ev (S m))) helps n) as (m & Hm & Hread).
  - intros m Hm HΦ. rewrite st_S. destruct (start_step N _ (ev m) HΦ (Hinv m Hm)) as [?|?]; auto.
  - done.
  - by split.
  - destruct (leads_to (state_at b ev) ev (rank_return N) (reading N)
      (fun m => exists r ok v, returned b ev m = Some (r, ok, v) /\ (N < r)%nat) helps (S m)) as (k & Hk & r & ok & v & E & Hr).
    + intros k Hk HΦ. pose proof (return_step N _ (ev k) HΦ (Hinv k ltac:(lia))) as Hs. unfold returned. rewrite st_S.
      destruct (react (ev k) (state_at b ev k)) as [out b']. cbn. destruct Hs as [?|?]; auto.
    + done.
    + done.
    + exists k, r, ok, v. split; [lia|done].
Qed.

(** A result that predates an invalidation is never applied: whatever
    [poll] returns comes from a read that started, and called [load], after
    the last [invalidate]. *)
Theorem invalidated_reads_are_dropped (probe : bool) (fast slow after : Q) (ev : nat -> event) (n r : nat) (ok : bool) (value : D) :
  let b := new_reload probe fast slow after in
  returned b ev n = Some (r, ok, value) ->
  exists s k, (s < k < n)%nat /\ starts_read b ev s r /\ loads b ev k r ok value /\ none_between b ev s n.
Proof.
  intros b. unfold returned. destruct (ev n) as [| |now li hold rd|rd|l] eqn:Ee; cbn; destruct (br_main (state_at b ev n)) eqn:Em; try done.
  unfold poll_take. destruct hold; [done|]. destruct (br_result (state_at b ev n)) as [[[[g r'] ok'] v']|] eqn:Er; [|done]. cbn. intros [= -> -> ->].
  destruct (ri_result b ev n (reads_inv_all probe fast slow after ev n) _ _ _ _ Er) as (s & Hs & Hst & Hf & Hl).
  destruct (Hl ok value eq_refl) as (k & Hk & Hload). exists s, k. split_and!; [lia|lia|done|done|by apply Hf].
Qed.
End reload.
Arguments BackgroundReload D : clear implicits.
Arguments event D : clear implicits.

(** ** Nothing drawn goes stale *)

Definition age_text (value : Z) : string := (_age (Some value) no_text).1.

Lemma age_text_draw value t : (_age (Some value) t).1 = age_text value.
Proof. done. Qed.
Lemma duration_parts_minute a b : 60 <= a -> 60 <= b -> a / 60 = b / 60 -> duration_parts a = duration_parts b.
Proof.
  intros Ha Hb E. unfold duration_parts. rewrite !(proj2 (Z.leb_gt _ 0)) by lia.
  assert (E1 : a / 86400 = b / 86400) by (Z.to_euclidean_division_equations; lia).
  assert (E2 : (a mod 86400) / 3600 = (b mod 86400) / 3600) by (Z.to_euclidean_division_equations; lia).
  assert (E3 : (a mod 86400) mod 3600 / 60 = (b mod 86400) mod 3600 / 60) by (Z.to_euclidean_division_equations; lia).
  by rewrite E1, E2, E3.
Qed.
(** [steps_of] counts how long the text stays. *)
Lemma age_text_stays a b : a <= b < a + steps_of (Z.max 0 a) -> age_text b = age_text a.
Proof.
  unfold steps_of, age_text, _age. cbn [fst]. destruct (Z.ltb_spec (Z.max 0 a) 59); intros H'.
  - by assert (b = a) as -> by lia.
  - destruct (decide (a = 59)) as [->|Hne].
    + change (60 - Z.max 0 59 mod 60) with 1 in H'. by assert (b = 59) as -> by lia.
    + rewrite !(proj2 (Z.ltb_ge _ 60)) by lia. unfold _span. do 2 f_equal. apply duration_parts_minute; [lia|lia|].
      rewrite Z.max_r in H' by lia. Z.to_euclidean_division_equations; lia.
Qed.

Lemma qmin_le_l a b : (qmin a b <= a)%Q.
Proof. unfold qmin. destruct (Qle_bool a b) eqn:E; [apply Qle_refl|]. apply Qlt_le_weak, Qnot_le_lt. intros H%Qle_bool_iff. congruence. Qed.
Lemma qmin_le_r a b : (qmin a b <= b)%Q.
Proof. unfold qmin. destruct (Qle_bool a b) eqn:E; [by apply Qle_bool_iff|apply Qle_refl]. Qed.
Lemma qmax_lub a b c : (a <= c)%Q -> (b <= c)%Q -> (qmax a b <= c)%Q.
Proof. unfold qmax. by destruct (Qle_bool b a). Qed.
Lemma qmax_le_l a b : (a <= qmax a b)%Q.
Proof. unfold qmax. destruct (Qle_bool b a) eqn:E; [apply Qle_refl|]. apply Qlt_le_weak, Qnot_le_lt. intros H%Qle_bool_iff. congruence. Qed.
Lemma qmax_le_r a b : (b <= qmax a b)%Q.
Proof. unfold qmax. destruct (Qle_bool b a) eqn:E; [by apply Qle_bool_iff|apply Qle_refl]. Qed.
Lemma least_le l q : q ∈ l -> exists m, least l = Some m /\ (m <= q)%Q.
Proof.
  destruct l as [|x l]; [by intros ?%not_elem_of_nil|]. intros Hq. cbn. eexists. split; [reflexivity|].
  assert (H : forall l x, (foldl qmin x l <= x)%Q /\ forall q, q ∈ l -> (foldl qmin x l <= q)%Q).
  { clear. induction l as [|y l IH]; intros x; cbn; [split; [apply Qle_refl|by intros ? ?%not_elem_of_nil]|].
    destruct (IH (qmin x y)) as [H1 H2]. split; [eapply Qle_trans; [exact H1|apply qmin_le_l]|].
    intros q [->|Hq]%elem_of_cons; [eapply Qle_trans; [exact H1|apply qmin_le_r]|by apply H2]. }
  destruct (H l x) as [H1 H2]. apply elem_of_cons in Hq as [->|Hq]; [done|by apply H2].
Qed.

Lemma draw_ages_steps origin now values t v :
  (v ∈ values -> exists s, age_steps (draw_ages origin now values t).2 = Some s /\ s <= steps_of (Z.max 0 (aged origin now v))) /\
  (forall s, age_steps t = Some s -> exists s', age_steps (draw_ages origin now values t).2 = Some s' /\ s' <= s).
Proof.
  revert t. induction values as [|x values IH]; intros t; cbn [draw_ages].
  - split; [by intros ?%not_elem_of_nil|]. intros s E. exists s. split; [done|lia].
  - destruct (_age (Some (aged origin now x)) t) as [text t1] eqn:E1. destruct (draw_ages origin now values t1) as [texts t2] eqn:E2.
    destruct (IH t1) as [I1 I2]. rewrite E2 in I1, I2. cbn [snd] in *. unfold _age, age in E1. injection E1 as <- <-. cbn [age_steps] in I2.
    destruct (I2 _ eq_refl) as (s' & Es & Hs). split.
    + intros [->|Hv]%elem_of_cons; [|by apply I1]. exists s'. split; [done|]. destruct (age_steps t); lia.
    + intros s E. rewrite E in Hs. exists s'. split; [done|lia].
Qed.

Lemma int_of_floor q : (0 <= q)%Q -> int_of q = Qfloor q.
Proof. destruct q as [n d]. unfold Qle, int_of, Qfloor. cbn. intros Hn. apply Z.quot_div_nonneg; lia. Qed.
Lemma minus_nonneg a b : (a <= b)%Q -> (0 <= b - a)%Q.
Proof. intros H. unfold Qminus. by rewrite <- Qle_minus_iff. Qed.
(** An age text can only change once [steps_of] whole seconds have passed. *)
Lemma age_changes_after (origin now t : Q) (v s : Z) :
  (origin <= now)%Q -> (now <= t)%Q -> s <= steps_of (Z.max 0 (aged origin now v)) ->
  age_text (aged origin t v) ≠ age_text (aged origin now v) -> (origin + inject_Z (int_of (now - origin)) + inject_Z s <= t)%Q.
Proof.
  intros Ho Hn Hs Hne. assert (Hot : (origin <= t)%Q) by (eapply Qle_trans; eassumption).
  pose proof (minus_nonneg _ _ Ho) as Hno. pose proof (minus_nonneg _ _ Hot) as Hto.
  unfold aged in *. rewrite !int_of_floor in * by done.
  assert (Hmono : Qfloor (now - origin) <= Qfloor (t - origin)) by (apply Qfloor_resp_le, Qplus_le_compat; [done|apply Qle_refl]).
  assert (H0 : 0 <= Qfloor (now - origin)) by (apply (Qfloor_resp_le 0); done).
  assert (Hk : Qfloor (now - origin) + s <= Qfloor (t - origin)).
  { apply Z.nlt_ge. intros Hlt. apply Hne, age_text_stays. lia. }
  pose proof (Qfloor_le (t - origin)) as Hfl. rewrite Zle_Qle, inject_Z_plus in Hk.
  assert (E : (t == origin + (t - origin))%Q) by ring. rewrite E, <- Qplus_assoc. apply Qplus_le_compat; [apply Qle_refl|].
  eapply Qle_trans; eassumption.
Qed.

(** No age on the screen goes stale: if a frame drawn at [now] shows the
    ages of a snapshot and one of those texts is different at a later time
    [t], the planner repaints by then - by [t], or within the minimal wait. *)
Theorem ages_repaint_in_time (origin now t : Q) (values : list Z) (v : Z) (p : RedrawPlanner) :
  (origin <= now)%Q -> (now <= t)%Q -> v ∈ values ->
  age_text (aged origin t v) ≠ age_text (aged origin now v) ->
  should_draw (qmax t (now + MIN_WAIT_SECONDS)%Q) (drawn (next_deadline now (Some origin) (draw_ages origin now values no_text).2) p) = true.
Proof.
  intros Ho Hn Hv Hne. destruct (draw_ages_steps origin now values no_text v) as [Hs _]. destruct (Hs Hv) as (s & Es & Hle). clear Hs.
  unfold next_deadline, should_draw, drawn. rewrite Es. cbn [dirty deadline orb].
  pose proof (age_changes_after origin now t v s Ho Hn Hle Hne) as Hchange.
  set (change := qmax (now + MIN_WAIT_SECONDS)%Q (origin + inject_Z (int_of (now - origin)) + inject_Z s)%Q) in *.
  match goal with |- context [least ?l] => destruct (least_le l change) as (m & -> & Hm) end; [set_solver|].
  apply Qle_bool_iff. eapply Qle_trans; [exact Hm|]. apply qmax_lub; [apply qmax_le_r|].
  eapply Qle_trans; [exact Hchange|apply qmax_le_l].
Qed.

Lemma ages_repaint_in_time_witness :
  age_text (aged 10 (73 # 1) 0) = "1m"%string /\ age_text (aged 10 (41 # 2) 0) = "10s"%string /\
  should_draw (qmax (73 # 1) ((41 # 2) + MIN_WAIT_SECONDS)%Q) (drawn (next_deadline (41 # 2) (Some 10%Q) (draw_ages 10 (41 # 2) [0; 400] no_text).2) new_planner) = true.
Proof.
  split_and!; [reflexivity|reflexivity|]. apply (ages_repaint_in_time 10 (41 # 2) (73 # 1) [0; 400] 0); [done|done|set_solver|by vm_compute].
Defined.

(** ** Witnesses of the reload theorems: polls and reader steps in turn *)

Definition demo_events (n : nat) : event nat :=
  match (n mod 3)%nat with 0%nat => EPoll 0 None false None | 1%nat => EPollRest None | _ => EWork (true, n) end.
Lemma demo_fair : fair demo_events.
Proof.
  assert (H : forall i p, (i < 3)%nat -> (forall n, (n mod 3 = i)%nat -> p (demo_events n) = true) -> infinitely_often p demo_events).
  { intros i p Hi Hp n. exists (3 * n + i)%nat. split; [lia|]. apply Hp. rewrite Nat.mul_comm, Nat.add_comm, Nat.Div0.mod_add. apply Nat.mod_small. lia. }
  split_and!; [apply (H 0%nat)|apply (H 1%nat)|apply (H 2%nat)]; try lia; intros n E; unfold demo_events; by rewrite E.
Qed.

Lemma requested_read_is_returned_witness :
  exists m r ok value, (4 <= m)%nat /\ returned (request (new_reload false 1 1 1)) demo_events m = Some (r, ok, value) /\
    (br_reads (state_at (request (new_reload false 1 1 1)) demo_events 0) < r)%nat.
Proof.
  destruct (requested_read_is_returned (request (new_reload false 1 1 1)) demo_events 0 demo_fair eq_refl) as (m & r & ok & v & Hm & E & Hr).
  - intros m _. unfold demo_events. by destruct (m mod 3)%nat as [|[|?]].
  - exists m, r, ok, v. split_and!; [|done|done]. destruct m as [|[|[|[|m]]]]; [discriminate E..|lia].
Defined.
Lemma invalidated_reads_are_dropped_witness :
  let b := new_reload false 1 1 1 in
  exists s k, (s < k < 6)%nat /\ starts_read b demo_events s 1 /\ loads b demo_events k 1 true 2%nat /\ none_between b demo_events s 6.
Proof. apply (invalidated_reads_are_dropped false 1 1 1 demo_events 6 1 true 2%nat). reflexivity. Defined.
