(* ===== verification/Commands.v ===== *)
(** * The typed command layer ([bridge_commands.py])

    Requests and results as records with their JSON forms, the catalog of
    operations with its typed parameters, parameter validation, and
    [dispatch] and [execute].  The store and the handlers a request reaches
    are the class [CommandEnv]; [repr] is Python's, and only ever appears in
    messages. *)

From S2P Require Import Prelude Py StoreOps.
From stdpp Require Import options.
Local Open Scope Z_scope.

Definition COMMAND_SCHEMA_VERSION : Z := 1.
Definition LOCAL_TARGET : string := "local".
Definition ALL_TARGET : string := "all".
Definition _INT64_MIN : Z := - 2 ^ 63.
Definition _INT64_MAX : Z := 2 ^ 63 - 1.
Definition OUTCOMES : list string := ["ok"; "accepted"; "applied"; "rejected"; "failed"; "uncertain"]%string.

(** ** Failures *)

Record CommandFailure : Type := Failure { cf_code : string; cf_message : string; cf_details : dict }.
Inductive cmd_exn : Type :=
  | ECommandFailure (f : CommandFailure)
  | EMissionNotFound (message : string)
  | EKeyError (argument : option string)
  | ETransitionError (message : string)
  | EValueError (message : string)
  | EOther (type_name : string).
Definition fail {A} (code message : string) : result CommandFailure A := Raise (Failure code message []).

Record CommandError : Type := Error { ce_code : string; ce_message : string; ce_details : dict }.
Definition CommandError_to_json (e : CommandError) : json :=
  JObj [("code"%string, JStr (ce_code e)); ("message"%string, JStr (ce_message e)); ("details"%string, JObj (ce_details e))].

(** ** Requests and results *)

Record CommandRequest : Type := Request {
  rq_operation : string;
  rq_params : dict;
  rq_mission_id : option string;
  rq_target : string;
  rq_request_id : string;
}.
Definition CommandRequest_to_json (r : CommandRequest) : json :=
  JObj [("schema_version"%string, JInt COMMAND_SCHEMA_VERSION); ("operation"%string, JStr (rq_operation r)); ("params"%string, JObj (rq_params r));
        ("mission_id"%string, jopt_str (rq_mission_id r)); ("target"%string, JStr (rq_target r)); ("request_id"%string, JStr (rq_request_id r))].

Record CommandResult : Type := Result {
  rs_request_id : string;
  rs_operation : string;
  rs_outcome : string;
  rs_result : option dict;
  rs_error : option CommandError;
}.
Definition CommandResult_to_json (r : CommandResult) : json :=
  JObj [("schema_version"%string, JInt COMMAND_SCHEMA_VERSION); ("request_id"%string, JStr (rs_request_id r)); ("operation"%string, JStr (rs_operation r));
        ("outcome"%string, JStr (rs_outcome r)); ("result"%string, match rs_result r with Some d => JObj d | None => JNull end);
        ("error"%string, match rs_error r with Some e => CommandError_to_json e | None => JNull end)].

(** [sorted(set(d) - names)] *)
Definition unknown_keys (d : dict) (names : list string) : list string :=
  sort_by str_leb (List.filter (fun k => negb (bool_decide (k ∈ names))) d.*1).
Definition joined (names : list string) : string := join ", " names.
Definition REQUEST_FIELDS : list string := ["schema_version"; "operation"; "params"; "mission_id"; "target"; "request_id"]%string.

(** A string or null, [None] for anything else. *)
Definition str_or_none (v : json) : option (option string) :=
  match v with JNull => Some None | JStr s => Some (Some s) | _ => None end.

Section messages.
Context (repr : json -> string).

Definition from_json (value : json) : result CommandFailure CommandRequest :=
  match value with
  | JObj d =>
      let version := default JNull (dget "schema_version" d) in
      if negb (py_eqb version (JInt COMMAND_SCHEMA_VERSION)) then
        Raise (Failure "unsupported-version" ("unsupported command schema version " +:+ repr version) [("supported"%string, JList [JInt COMMAND_SCHEMA_VERSION])])
      else
        match unknown_keys d REQUEST_FIELDS with
        | [] =>
            match dget "operation" d, default (JObj []) (dget "params" d) with
            | Some (JStr operation), JObj params =>
                match str_or_none (default JNull (dget "mission_id" d)) with
                | Some mission_id =>
                    match default (JStr LOCAL_TARGET) (dget "target" d), dget "request_id" d with
                    | JStr target, Some (JStr request_id) => Ok (Request operation params mission_id target request_id)
                    | _, _ => fail "invalid-request" "target and request_id must be strings"
                    end
                | None => fail "invalid-request" "mission_id must be a string"
                end
            | _, _ => fail "invalid-request" "operation must be a string and params an object"
            end
        | unknown => fail "invalid-request" ("unknown request fields: " +:+ joined unknown)
        end
  | _ => fail "invalid-request" "request must be a JSON object"
  end.

(** [[A-Za-z0-9_.-]{1,128}] *)
Definition request_id_pattern (s : string) : bool := id_pattern s && (slen s <=? 128).
Definition _validate_request_id (request_id : string) : result CommandFailure unit :=
  if request_id_pattern request_id then Ok tt
  else fail "invalid-request" "request_id must be 1-128 characters of letters, digits, '.', '_' or '-'".
(** [[a-z0-9][a-z0-9-]{0,62}] *)
Definition lower_digit (c : Ascii.ascii) : bool := is_digit c || ((97 <=? code c) && (code c <=? 122)).
Definition target_name (s : string) : bool :=
  match s with
  | EmptyString => false
  | String c s' => lower_digit c && sforall (fun c => lower_digit c || (code c =? 45)) s' && (slen s' <=? 62)
  end.
Definition validate_target (name : string) : result CommandFailure string :=
  if bool_decide (name ∈ [LOCAL_TARGET; ALL_TARGET]) || target_name name then Ok name
  else fail "invalid-target" ("invalid target name " +:+ repr (JStr name) +:+ ": use lowercase letters, digits and '-'").

(** ** Parameters *)

Inductive kind : Type := KStr | KInt | KBool | KList.
#[export] Instance kind_eq_dec : EqDecision kind.
Proof. solve_decision. Defined.
Definition kind_name (k : kind) : string := match k with KStr => "str" | KInt => "int" | KBool => "bool" | KList => "list" end.

Record Param : Type := MkParam { p_kind : kind; p_required : bool; p_default : json; p_item : option kind }.
Record OperationSpec : Type := Spec {
  sp_operation : string;
  sp_summary : string;
  sp_mutating : bool;
  sp_needs_mission : bool;
  sp_params : list (string * Param);
}.

Definition _is_kind (value : json) (k : kind) : bool :=
  match value, k with
  | JStr _, KStr | JInt _, KInt | JBool _, KBool | JList _, KList => true
  | _, _ => false
  end.
Definition in_int64 (v : json) : bool := match v with JInt z => (_INT64_MIN <=? z) && (z <=? _INT64_MAX) | _ => true end.
Definition elements (v : json) : list json := match v with JList l => l | _ => [] end.
Definition numbers_of (p : Param) (v : json) : list json :=
  if bool_decide (p_kind p = KInt) then [v] else if bool_decide (p_item p = Some KInt) then elements v else [].

(** One turn of the loop over [spec.params]. *)
Definition validated_param (operation : string) (raw : dict) (name : string) (p : Param) : result CommandFailure json :=
  match dget name raw with
  | None | Some JNull =>
      if p_required p then fail "invalid-argument" (operation +:+ ": parameter '" +:+ name +:+ "' is required") else Ok (p_default p)
  | Some value =>
      if negb (_is_kind value (p_kind p)) then
        fail "invalid-argument" (operation +:+ ": parameter '" +:+ name +:+ "' must be " +:+ kind_name (p_kind p))
      else
        match p_item p with
        | Some item =>
            if negb (forallb (fun e => _is_kind e item) (elements value)) then
              fail "invalid-argument" (operation +:+ ": parameter '" +:+ name +:+ "' must be a list of " +:+ kind_name item)
            else if forallb in_int64 (numbers_of p value) then Ok value
            else fail "invalid-argument" (operation +:+ ": parameter '" +:+ name +:+ "' is out of range")
        | None =>
            if forallb in_int64 (numbers_of p value) then Ok value
            else fail "invalid-argument" (operation +:+ ": parameter '" +:+ name +:+ "' is out of range")
        end
  end.
Fixpoint validated_loop (operation : string) (raw : dict) (params : list (string * Param)) : result CommandFailure dict :=
  match params with
  | [] => Ok []
  | (name, p) :: params' =>
      v ← validated_param operation raw name p;
      values ← validated_loop operation raw params';
      Ok ((name, v) :: values)
  end.
Definition _validated_params (spec : OperationSpec) (raw : dict) : result CommandFailure dict :=
  match unknown_keys raw (sp_params spec).*1 with
  | [] => validated_loop (sp_operation spec) raw (sp_params spec)
  | unknown =>
      if bool_decide (sp_operation spec = "mission.create"%string) then
        Raise (Failure "unsupported-remote-option" ("mission.create does not support remote option(s): " +:+ joined unknown)
          [("options"%string, JList (JStr <$> unknown))])
      else fail "invalid-argument" (sp_operation spec +:+ ": unknown parameters: " +:+ joined unknown)
  end.

(** ** The catalog *)

Definition _NO_PARAMS : list (string * Param) := [].
Definition _TASK_SELECTOR : list (string * Param) := [("task_id"%string, MkParam KInt false JNull None); ("task_number"%string, MkParam KInt false JNull None)].
Definition _task_op (operation summary : string) (extra : list (string * Param)) : OperationSpec :=
  Spec operation summary true true (_TASK_SELECTOR ++ extra ++ [("expected_revision"%string, MkParam KInt false JNull None)]).

Local Open Scope string_scope.
Definition OPERATIONS : list OperationSpec :=
  [
   Spec "mission.list" "List missions on this worker" false false ([("include_config", MkParam KBool false (JBool false) None)]);
   Spec "mission.create" "Create a mission and its first task on this worker" true false ([("prompt", MkParam KStr true JNull None);
     ("cwd", MkParam KStr true JNull None); ("name", MkParam KStr false (JStr EmptyString) None); ("acceptance", MkParam KList false (JList []) (Some KStr));
     ("providers", MkParam KStr false JNull None); ("routes", MkParam KStr false JNull None); ("headless", MkParam KBool false (JBool false) None);
     ("native_tui", MkParam KBool false (JBool false) None); ("teams", MkParam KStr false JNull None); ("token_spend", MkParam KStr false JNull None);
     ("trust_folder", MkParam KBool false (JBool false) None); ("unsupported_options", MkParam KList false (JList []) (Some KStr))]);
   Spec "mission.status" "Show one mission's status projection" false true (_NO_PARAMS);
   Spec "mission.settings.get" "Read a mission's saved execution settings" false true (_NO_PARAMS);
   Spec "mission.settings.patch" "Update mission execution settings" true true ([("auto_continue", MkParam KBool false JNull None);
     ("teams", MkParam KBool false JNull None); ("token_spend", MkParam KStr false JNull None); ("suspend_when_rate_limited", MkParam KBool false JNull None);
     ("colour", MkParam KStr false JNull None)]);
   Spec "mission.steer" "Queue typed steering for a mission task or safe boundary" true true ([("kind", MkParam KStr true JNull None);
     ("task", MkParam KInt false JNull None); ("task_id", MkParam KInt false JNull None); ("route", MkParam KStr false JNull None);
     ("prompt", MkParam KStr false (JStr EmptyString) None)]);
   Spec "mission.finish" "Ask the active native provider to exit safely" true true (_NO_PARAMS);
   Spec "mission.rotation.get" "Read a mission's saved provider rotation" false true (_NO_PARAMS);
   Spec "mission.rotation.put" "Update a mission's saved provider rotation" true true ([("set", MkParam KStr false JNull None);
     ("routes", MkParam KStr false JNull None); ("providers", MkParam KStr false JNull None)]);
   Spec "mission.agents" "Read bounded live operation and child-agent metadata" false false ([("mission", MkParam KStr false JNull None)]);
   Spec "mission.events" "Page a mission's durable events after a cursor" false true ([("after", MkParam KInt false (JInt 0) None);
     ("limit", MkParam KInt false (JInt 50) None)]);
   Spec "mission.start" "Start a mission controller on this worker" true true ([("headless", MkParam KBool false JNull None);
     ("native_tui", MkParam KBool false JNull None); ("providers", MkParam KStr false JNull None); ("routes", MkParam KStr false JNull None)]);
   Spec "mission.suspend_until_credits" "Suspend this worker until the mission's selected capacity resets" true true (_NO_PARAMS);
   Spec "worker.restore" "Restore this worker's Bridge database from a backup" true false ([("input", MkParam KStr true JNull None)]);
   Spec "mission.pause" "Pause autonomous scheduling" true true (_NO_PARAMS);
   Spec "mission.resume" "Resume mission scheduling" true true (_NO_PARAMS);
   Spec "mission.stop" "Stop a mission after the current step, or terminate owned work when forced" true true ([("force", MkParam KBool false (JBool false) None)]);
   Spec "mission.cancel" "Cancel a mission" true true (_NO_PARAMS);
   Spec "mission.continue" "Release a held checkpoint" true true (_NO_PARAMS);
   Spec "task.list" "Page a mission's tasks in scheduling order" false true ([("limit", MkParam KInt false (JInt 50) None);
     ("offset", MkParam KInt false (JInt 0) None); ("all", MkParam KBool false (JBool false) None)]);
   Spec "task.show" "Show one task" false true (_TASK_SELECTOR);
   Spec "task.add" "Add a task" true true ([("prompt", MkParam KStr true JNull None); ("title", MkParam KStr false (JStr EmptyString) None);
     ("priority", MkParam KInt false (JInt 0) None); ("order", MkParam KInt false JNull None); ("depends_on", MkParam KList false (JList []) (Some KInt));
     ("depends_on_numbers", MkParam KList false (JList []) (Some KInt)); ("acceptance", MkParam KList false (JList []) (Some KStr))]);
   _task_op "task.amend" "Amend a task prompt; creates a new revision" ([("prompt", MkParam KStr true JNull None)]);
   _task_op "task.verify" "Record verification evidence; approve completes the task" ([("evidence", MkParam KStr false (JStr EmptyString) None);
     ("approved", MkParam KBool false (JBool false) None)]);
   _task_op "task.reject" "Reject a task result" ([("reason", MkParam KStr true JNull None)]);
   _task_op "task.priority" "Set task priority" ([("priority", MkParam KInt true JNull None)]);
   _task_op "task.reorder" "Set task order among equal priorities" ([("order", MkParam KInt true JNull None)]);
   _task_op "task.dependency" "Add a prerequisite task" ([("depends_on", MkParam KInt false JNull None); ("depends_on_number", MkParam KInt false JNull None)]);
   Spec "proposal.list" "List agent proposals" false true ([("status", MkParam KStr false (JStr "PENDING") None); ("limit", MkParam KInt false (JInt 100) None);
     ("after", MkParam KInt false (JInt 0) None)]);
   Spec "proposal.create" "Create an agent-originated task proposal" true true ([("source_operation_id", MkParam KStr true JNull None);
     ("prompt", MkParam KStr true JNull None); ("title", MkParam KStr false (JStr EmptyString) None); ("priority", MkParam KInt false (JInt 0) None);
     ("depends_on", MkParam KList false (JList []) (Some KInt)); ("acceptance", MkParam KList false (JList []) (Some KStr))]);
   Spec "proposal.accept" "Accept a pending proposal" true true (_TASK_SELECTOR ++ [("reason", MkParam KStr false (JStr EmptyString) None)]);
   Spec "proposal.reject" "Reject a pending proposal" true true (_TASK_SELECTOR ++ [("reason", MkParam KStr false (JStr EmptyString) None)]);
   Spec "worker.doctor" "Read bounded local worker diagnostics" false false ([("mission", MkParam KStr false JNull None)]);
   Spec "worker.audit" "Read the local worker security audit log" false false ([("limit", MkParam KInt false (JInt 50) None)]);
   Spec "worker.gc" "Close idle stations for finished missions" true false (_NO_PARAMS);
   Spec "session.list" "List provider sessions (operations) of this worker's missions" false false ([("mission", MkParam KStr false JNull None);
     ("limit", MkParam KInt false (JInt 100) None); ("offset", MkParam KInt false (JInt 0) None)]);
   Spec "usage.snapshot" "Provider capacity snapshot as llm-usage reports it" false false (_NO_PARAMS);
   Spec "proposal.decide" "Accept or reject an agent proposal" true true (_TASK_SELECTOR ++ [("accept", MkParam KBool true JNull None);
     ("reason", MkParam KStr false (JStr EmptyString) None)]);
   _task_op "task.pause" "Pause a task" ([]);
   _task_op "task.resume" "Resume a paused task" ([]);
   _task_op "task.cancel" "Cancel a task" ([]);
   _task_op "task.retry" "Retry a failed task" ([])
  ].
Local Close Scope string_scope.

(** [OPERATIONS.get(operation)] *)
Definition find_operation (operation : string) : option OperationSpec := first (fun s => bool_decide (sp_operation s = operation)) OPERATIONS.
Definition catalog_entry (s : OperationSpec) : json :=
  JObj [("operation"%string, JStr (sp_operation s)); ("summary"%string, JStr (sp_summary s)); ("mutating"%string, JBool (sp_mutating s));
        ("needs_mission"%string, JBool (sp_needs_mission s));
        ("params"%string, JObj ((fun np => (np.1, JObj [("type"%string, JStr (kind_name (p_kind np.2))); ("required"%string, JBool (p_required np.2))])) <$> sp_params s))].
Definition operation_catalog : list json := catalog_entry <$> OPERATIONS.
Definition lookup (operation : string) : result CommandFailure OperationSpec :=
  match find_operation operation with
  | Some s => Ok s
  | None => Raise (Failure "unsupported-operation" ("unsupported operation " +:+ repr (JStr operation))
                    [("supported"%string, JList (JStr <$> sort_by str_leb (sp_operation <$> OPERATIONS)))])
  end.

(** ** Dispatch *)

(** What a request reaches: the store [dispatch] opens, the lookups it makes
    there, and the handlers, called with or without the read-only store. *)
Class CommandEnv (W : Type) := {
  open_reader : ST cmd_exn W unit;
  resolve_mission_ref : string -> ST cmd_exn W string;
  ordinal_task_id : string -> Z -> ST cmd_exn W Z;
  handler : OperationSpec -> bool -> CommandRequest -> dict -> ST cmd_exn W dict;
}.

Definition lift_failure {W A} (r : result CommandFailure A) : ST cmd_exn W A :=
  lift_result (match r with Ok a => Ok a | Raise f => Raise (ECommandFailure f) end).
Definition command_failure {W A} (code message : string) : ST cmd_exn W A := raise (ECommandFailure (Failure code message [])).
(** [str(exc).strip] of both kinds of quotes, for the message of a lookup failure. *)
Definition is_quote (c : Ascii.ascii) : bool := (code c =? 39) || (code c =? 34).
Definition strip_quotes (s : string) : string := rstrip_by is_quote (lstrip_by is_quote s).

(** [params.pop(name)] *)
Definition dpop (name : string) (d : dict) : dict := List.filter (fun kv => negb (bool_decide (kv.1 = name))) d.

Section dispatch.
Context {W : Type} `{!CommandEnv W}.

(** [str] of a lookup's exception; a [KeyError]'s is the repr of its argument. *)
Definition not_found_message (e : cmd_exn) : option string :=
  match e with
  | EKeyError a => Some (match a with Some m => repr (JStr m) | None => EmptyString end)
  | ETransitionError m | EValueError m | EMissionNotFound m => Some m
  | _ => None
  end.

Definition _resolve_task_number (spec : OperationSpec) (request : CommandRequest) (params : dict) : ST cmd_exn W dict :=
  let number := default JNull (dget "task_number" params) in
  let params := dpop "task_number" params in
  let task_id := default JNull (dget "task_id" params) in
  match number, task_id with
  | JNull, JNull => command_failure "invalid-argument" (sp_operation spec +:+ ": give exactly one of task_id or task_number")
  | JNull, _ => mret params
  | JInt n, JNull =>
      match rq_mission_id request with
      | None => raise (EOther "AssertionError")
      | Some m => fun w =>
          match ordinal_task_id m n w with
          | (Ok id, w') => (Ok (dset "task_id" (JInt id) params), w')
          | (Raise e, w') =>
              match not_found_message e with
              | Some message => (Raise (ECommandFailure (Failure "not-found" (strip_quotes message) [])), w')
              | None => (Raise e, w')
              end
          end
      end
  | _, _ => command_failure "invalid-argument" (sp_operation spec +:+ ": give exactly one of task_id or task_number")
  end.

Definition missing_mission (request : CommandRequest) : bool := match rq_mission_id request with Some m => negb (truthy_str m) | None => true end.

Definition dispatch (request : CommandRequest) : ST cmd_exn W dict :=
  spec ← lift_failure (lookup (rq_operation request));
  lift_failure (_validate_request_id (rq_request_id request)) ;;
  if negb (bool_decide (rq_target request = LOCAL_TARGET)) then
    command_failure "invalid-target" ("dispatch runs local requests only, not target " +:+ repr (JStr (rq_target request)))
  else
    params ← lift_failure (_validated_params spec (rq_params request));
    if sp_needs_mission spec && missing_mission request then command_failure "invalid-argument" (sp_operation spec +:+ ": mission_id is required")
    else
      open_reader ;;
      request ← (match sp_needs_mission spec, rq_mission_id request with
                 | true, Some ref =>
                     m ← resolve_mission_ref ref;
                     mret (Request (rq_operation request) (rq_params request) (Some m) (rq_target request) (rq_request_id request))
                 | _, _ => mret request
                 end);
      params ← (if bool_decide ("task_number"%string ∈ (sp_params spec).*1) then _resolve_task_number spec request params else mret params);
      handler spec (negb (sp_mutating spec)) request params.

Definition outcome_of (spec : OperationSpec) (res : dict) : string :=
  if negb (sp_mutating spec) then "ok"
  else
    let status := upper (match dget "status" res with Some (JStr s) => s | Some v => repr v | None => EmptyString end) in
    if bool_decide (status = "QUEUED"%string) then "accepted"
    else if bool_decide (status ∈ ["REJECTED"; "FAILED"]%string) then lower status
    else if bool_decide (status = "REFUSED"%string) then "rejected"
    else "applied".

Definition error_for (e : cmd_exn) : CommandError :=
  match e with
  | ECommandFailure f => Error (cf_code f) (cf_message f) (cf_details f)
  | EMissionNotFound m => Error "not-found" m []
  | EKeyError a => Error "not-found" (default "not found" a) []
  | ETransitionError m => Error "conflict" m []
  | EValueError m => Error "invalid-argument" m []
  | EOther name => Error "internal" (name +:+ " while executing the command") []
  end.

(** [str(v)] of a result field. *)
Definition str_of (v : json) : string := match v with JStr s => s | _ => repr v end.
(** [None] when [detail] has no [get]: [AttributeError]. *)
Definition rejection (res : dict) : option CommandError :=
  let of_detail detail :=
    Error (str_of (default (default (JStr "rejected") (dget "reason" detail)) (dget "code" detail)))
          (str_of (default (default (JStr "rejected") (dget "message" detail)) (dget "error" detail))) [] in
  match dget "result" res with
  | Some v => if truthy v then match v with JObj detail => Some (of_detail detail) | _ => None end else Some (of_detail res)
  | None => Some (of_detail res)
  end.

Definition failed (request : CommandRequest) (outcome : string) (e : cmd_exn) : result cmd_exn CommandResult :=
  Ok (Result (rq_request_id request) (rq_operation request) outcome None (Some (error_for e))).
Definition execute (request : CommandRequest) : ST cmd_exn W CommandResult := fun w =>
  match lookup (rq_operation request) with
  | Raise f => (failed request "rejected" (ECommandFailure f), w)
  | Ok spec =>
      match dispatch request w with
      | (Raise (EOther name), w') => (failed request (if sp_mutating spec then "uncertain" else "failed") (EOther name), w')
      | (Raise e, w') => (failed request "rejected" e, w')
      | (Ok res, w') =>
          let outcome := outcome_of spec res in
          if bool_decide (outcome = "rejected"%string) then
            match rejection res with
            | Some e => (Ok (Result (rq_request_id request) (rq_operation request) outcome (Some res) (Some e)), w')
            | None => (Raise (EOther "AttributeError"), w')
            end
          else (Ok (Result (rq_request_id request) (rq_operation request) outcome (Some res) None), w')
      end
  end.
End dispatch.
End messages.

(** ** Typed parameters *)

(** What the handler finds under a parameter, given what the request says. *)
Definition has_kind (k : kind) (v : json) : Prop :=
  match k with
  | KStr => exists s, v = JStr s
  | KInt => exists z, v = JInt z
  | KBool => exists b, v = JBool b
  | KList => exists l, v = JList l
  end.
Definition int64 (v : json) : Prop := forall z, v = JInt z -> - 2 ^ 63 <= z < 2 ^ 63.
Definition well_typed (p : Param) (v : json) : Prop :=
  has_kind (p_kind p) v /\ int64 v /\
  forall item, p_item p = Some item -> Forall (fun e => has_kind item e /\ int64 e) (elements v).
Definition param_value (p : Param) (given : option json) (v : json) : Prop :=
  ((given = None \/ given = Some JNull) /\ p_required p = false /\ v = p_default p) \/
  (given = Some v /\ v ≠ JNull /\ well_typed p v).
(** Only lists have an element type. *)
Definition param_ok (p : Param) : bool := match p_item p with Some _ => bool_decide (p_kind p = KList) | None => true end.

Lemma is_kind_iff v k : _is_kind v k = true <-> has_kind k v.
Proof. destruct k, v; cbn; split; try done; try (by intros [? ?]); intros _; eauto. Qed.
Lemma in_int64_iff v : in_int64 v = true <-> int64 v.
Proof.
  unfold int64, in_int64, _INT64_MIN, _INT64_MAX. destruct v; try (split; [intros _ ? [=]|done]).
  rewrite andb_true_iff, !Z.leb_le. split; [intros H z' [= <-]; lia|]. intros H. specialize (H _ eq_refl). lia.
Qed.

Lemma validated_param_iff operation raw name p v : param_ok p = true ->
  validated_param operation raw name p = Ok v <-> param_value p (dget name raw) v.
Proof.
  intros Hok. unfold validated_param, param_value, fail.
  assert (Hgiven : forall value, value ≠ JNull ->
    (if negb (_is_kind value (p_kind p)) then Raise (Failure "invalid-argument" (operation +:+ ": parameter '" +:+ name +:+ "' must be " +:+ kind_name (p_kind p)) [])
     else match p_item p with
        | Some item =>
            if negb (forallb (fun e => _is_kind e item) (elements value)) then
              Raise (Failure "invalid-argument" (operation +:+ ": parameter '" +:+ name +:+ "' must be a list of " +:+ kind_name item) [])
            else if forallb in_int64 (numbers_of p value) then Ok value
            else Raise (Failure "invalid-argument" (operation +:+ ": parameter '" +:+ name +:+ "' is out of range") [])
        | None =>
            if forallb in_int64 (numbers_of p value) then Ok value
            else Raise (Failure "invalid-argument" (operation +:+ ": parameter '" +:+ name +:+ "' is out of range") [])
        end) = Ok v <-> value = v /\ well_typed p value).
  { intros value Hnull. unfold well_typed. rewrite <- is_kind_iff. destruct (_is_kind value (p_kind p)) eqn:Ek; cbn; [|split; [done|intros (_ & ? & _); done]].
    unfold param_ok in Hok. destruct (p_item p) as [item|] eqn:Ei.
    - bool_to_prop. unfold numbers_of. rewrite Ei, Hok, bool_decide_false by done.
      assert (Hv : int64 value) by (rewrite Hok in Ek; destruct value; try done; by intros ? [=]).
      assert (Hel : forallb (fun e => _is_kind e item) (elements value) = true /\
          forallb in_int64 (if bool_decide (Some item = Some KInt) then elements value else []) = true <->
          Forall (fun e => has_kind item e /\ int64 e) (elements value)).
      { rewrite !forallb_forall, Forall_forall. setoid_rewrite <- list_elem_of_In. split.
        - intros [H1 H2] e He. specialize (H1 e He) as H1'. apply is_kind_iff in H1' as Hk. split; [done|].
          case_bool_decide as Hi; [by apply in_int64_iff, H2|]. destruct item, e; try done; by intros ? [=].
        - intros H. split; [intros e He; by apply is_kind_iff, H|]. case_bool_decide; [|by intros ? ?%not_elem_of_nil].
          intros e He. by apply in_int64_iff, H. }
      destruct (forallb (fun e => _is_kind e item) (elements value)) eqn:E1; cbn.
      + destruct (forallb in_int64 _) eqn:E2.
        * split; [intros [= ->]; split_and!; [done|done|done|]; intros ? [= <-]; by apply Hel|by intros (-> & _)].
        * split; [done|]. intros (_ & _ & _ & H). specialize (H item eq_refl). apply Hel in H as [_ H]. congruence.
      + split; [done|]. intros (_ & _ & _ & H). specialize (H item eq_refl). apply Hel in H as [H _]. congruence.
    - unfold numbers_of. rewrite Ei, (bool_decide_false (None = Some KInt)) by done.
      assert (Hn : forallb in_int64 (if bool_decide (p_kind p = KInt) then [value] else []) = true <-> int64 value).
      { case_bool_decide as Hi; cbn; [rewrite andb_true_r; apply in_int64_iff|]. split; [|done]. intros _.
        destruct value; try (by intros ? [=]). exfalso. by destruct (p_kind p). }
      destruct (forallb in_int64 _) eqn:E2.
      + split; [intros [= ->]; split_and!; [done|done|by apply Hn|done]|by intros (-> & _)].
      + split; [done|]. intros (_ & _ & H & _). apply Hn in H. congruence. }
  destruct (dget name raw) as [value|].
  - destruct (decide (value = JNull)) as [->|Hnull].
    + destruct (p_required p).
      * split; [done|]. intros [(_ & ? & _)|([= <-] & ? & _)]; done.
      * split; [intros [= <-]; left; auto|]. intros [(_ & _ & ->)|([= <-] & ? & _)]; done.
    + transitivity (value = v /\ well_typed p value); [rewrite <- (Hgiven value Hnull); by destruct value|]. split.
      * intros [<- Hw]. right. auto.
      * intros [([|] & _ & _)|([= <-] & _ & Hw)]; simplify_eq; done.
  - destruct (p_required p).
    + split; [done|]. intros [(_ & ? & _)|(? & _)]; done.
    + split; [intros [= <-]; left; auto|]. intros [(_ & _ & ->)|(? & _)]; done.
Qed.

Lemma unknown_keys_nil d names : unknown_keys d names = [] <-> forall k, k ∈ d.*1 -> k ∈ names.
Proof.
  unfold unknown_keys. split.
  - intros E k Hk. destruct (decide (k ∈ names)) as [|Hn]; [done|]. exfalso.
    assert (Hin : k ∈ sort_by str_leb (List.filter (fun k => negb (bool_decide (k ∈ names))) d.*1)).
    { apply elem_of_sort_by, list_elem_of_In, filter_In. split; [by apply list_elem_of_In|]. by rewrite bool_decide_false. }
    rewrite E in Hin. by apply not_elem_of_nil in Hin.
  - intros H. destruct (sort_by _ _) as [|k l] eqn:E; [done|]. exfalso.
    assert (Hin : k ∈ k :: l) by left. rewrite <- E in Hin. apply elem_of_sort_by, list_elem_of_In, filter_In in Hin as [Hk Hn].
    rewrite bool_decide_true in Hn; [done|]. by apply H, list_elem_of_In.
Qed.

Lemma validated_loop_iff operation raw params values : forallb (fun np => param_ok np.2) params = true ->
  validated_loop operation raw params = Ok values <->
  Forall2 (fun np kv => kv.1 = np.1 /\ param_value np.2 (dget np.1 raw) kv.2) params values.
Proof.
  revert values. induction params as [|[name p] params IH]; intros values Hok; cbn [validated_loop forallb] in *.
  - split; [by intros [= <-]|by intros ->%Forall2_nil_inv_l].
  - cbn [snd] in Hok. apply andb_true_iff in Hok as [Hp Hok]. unfold mbind, result_bind.
    destruct (validated_param operation raw name p) as [v|e] eqn:E.
    + apply (validated_param_iff _ _ _ _ _ Hp) in E as Hv. destruct (validated_loop operation raw params) as [vs|e] eqn:E2.
      * split.
        -- intros [= <-]. constructor; [done|]. by apply IH.
        -- intros ([k' v'] & vs' & [Hk Hv'] & Hvs & ->)%Forall2_cons_inv_l. cbn in *. subst k'.
           apply (validated_param_iff operation raw name p v' Hp) in Hv'. apply (IH vs' Hok) in Hvs. congruence.
      * split; [done|]. intros (kv & vs' & _ & Hvs & ->)%Forall2_cons_inv_l. apply (IH vs' Hok) in Hvs. congruence.
    + split; [done|]. intros ([k' v'] & vs' & [Hk Hv'] & _ & ->)%Forall2_cons_inv_l. cbn in *.
      apply (validated_param_iff operation raw name p v' Hp) in Hv'. congruence.
Qed.

(** Every list-typed parameter of the catalog says so, and no two operations
    share a name. *)
Lemma catalog_ok : forallb (fun s => forallb (fun np => param_ok np.2) (sp_params s)) OPERATIONS = true.
Proof. by vm_compute. Qed.
Lemma find_operation_in operation s : find_operation operation = Some s -> s ∈ OPERATIONS /\ sp_operation s = operation.
Proof. intros [H1 H2]%first_Some. split; [done|]. by apply bool_decide_eq_true in H2. Qed.

(** The parameters a handler receives are typed as the catalog declares:
    validation of a request for a catalogued operation succeeds exactly when
    it names no unknown parameter and every declared one is present with its
    declared kind - never a boolean for a number, every integer within 64
    bits, every list element of the declared kind - or is absent or null and
    optional; the result lists every declared parameter once, in order, with
    the given value or the default. *)
Theorem validated_params_typed (operation : string) (spec : OperationSpec) (raw values : dict) :
  find_operation operation = Some spec ->
  (_validated_params spec raw = Ok values <->
   (forall name, name ∈ raw.*1 -> name ∈ (sp_params spec).*1) /\
   Forall2 (fun np kv => kv.1 = np.1 /\ param_value np.2 (dget np.1 raw) kv.2) (sp_params spec) values).
Proof.
  intros [Hin Hop]%find_operation_in. unfold _validated_params, fail.
  pose proof catalog_ok as Hcat. rewrite forallb_forall in Hcat. specialize (Hcat spec (proj1 (list_elem_of_In _ _) Hin)).
  pose proof (unknown_keys_nil raw (sp_params spec).*1) as Hun. destruct (unknown_keys raw (sp_params spec).*1) as [|u us].
  - rewrite (validated_loop_iff _ _ _ _ Hcat). split; [|by intros [_ ?]]. intros H. split; [by apply Hun|done].
  - split; [by case_bool_decide|]. intros [H _]. apply Hun in H. done.
Qed.

Lemma validated_params_typed_witness :
  let spec := default (Spec "" "" false false []) (find_operation "task.list") in
  _validated_params spec [("limit"%string, JInt 5)] = Ok [("limit"%string, JInt 5); ("offset"%string, JInt 0); ("all"%string, JBool false)].
Proof.
  apply (validated_params_typed "task.list"); [by vm_compute|]. split.
  - intros name. by intros [->|?%not_elem_of_nil]%elem_of_cons; [vm_compute; left|].
  - constructor; [split; [done|right]|constructor; [split; [done|by left; auto]|constructor; [split; [done|by left; auto]|constructor]]].
    split; [done|split; [done|unfold well_typed; cbn]]. split_and!; [by exists 5| |by intros ? [=]]. intros z [= <-]. lia.
Defined.

(** Executing a request always accounts for it: the result names the
    request and an outcome of the vocabulary; an error is reported exactly
    with the outcomes rejected (a refused request or handler), failed and
    uncertain when the code raised; a read that succeeds is "ok"; and only a
    mutating operation that died of an unexpected exception is "uncertain". *)
Theorem execute_accounts_for_request (repr : json -> string) {W : Type} `{!CommandEnv W} (request : CommandRequest) (w w' : W) (r : CommandResult) :
  execute repr request w = (Ok r, w') ->
  rs_request_id r = rq_request_id request /\ rs_operation r = rq_operation request /\ rs_outcome r ∈ OUTCOMES /\
  (rs_result r = None -> exists e, (dispatch repr request w).1 = Raise e /\ rs_error r = Some (error_for e) /\
     rs_outcome r = match e with
                    | EOther _ => (if match find_operation (rq_operation request) with Some s => sp_mutating s | None => false end then "uncertain" else "failed")%string
                    | _ => "rejected"%string
                    end) /\
  (forall res, rs_result r = Some res -> (dispatch repr request w).1 = Ok res /\ rs_outcome r ≠ "uncertain"%string /\
     (rs_error r = None <-> rs_outcome r ≠ "rejected"%string) /\
     (rs_outcome r = "ok"%string <-> exists s, find_operation (rq_operation request) = Some s /\ sp_mutating s = false)).
Proof.
  unfold execute, lookup. destruct (find_operation (rq_operation request)) as [spec|] eqn:Ef.
  - destruct (dispatch repr request w) as [[res|e] w1] eqn:Ed.
    + assert (Hout : outcome_of repr spec res ∈ OUTCOMES /\ outcome_of repr spec res ≠ "uncertain"%string /\ (outcome_of repr spec res = "ok"%string <-> sp_mutating spec = false)).
      { unfold outcome_of, OUTCOMES. destruct (sp_mutating spec); cbn [negb]; [|split_and!; [set_solver|done|done]].
        set (status := upper _). clearbody status. repeat case_bool_decide.
        - split_and!; [set_solver|done|done].
        - assert (status = "REJECTED" \/ status = "FAILED")%string as [-> | ->] by set_solver; (split_and!; [vm_compute; set_solver|done|done]).
        - split_and!; [set_solver|done|done].
        - split_and!; [set_solver|done|done]. }
      destruct Hout as (H1 & H2 & H3).
      assert (Hread : outcome_of repr spec res = "ok"%string <-> exists s, Some spec = Some s /\ sp_mutating s = false).
      { rewrite H3. split; [by exists spec|]. by intros (s & [= <-] & ?). }
      case_bool_decide as Hrej; [destruct (rejection repr res); [|done]|]; intros [= <- <-]; cbn;
        (split_and!; [done|done|done|done|]; intros ? [= <-]; split_and!; [done|done|(split; [done|congruence]) || (split; congruence)|done]).
    + destruct e; intros [= <- <-]; cbn; (split_and!; [done|done|unfold OUTCOMES; try (destruct (sp_mutating spec)); set_solver| |done]);
        intros _; eexists; (split_and!; [reflexivity|done|done]).
  - intros [= <- <-]. cbn. split_and!; [done|done|unfold OUTCOMES; set_solver| |done]. intros _.
    eexists. unfold dispatch, lift_failure, lift_result, lookup, mbind, ST_bind. rewrite Ef. cbn. split_and!; [reflexivity|done|done].
Qed.

Lemma execute_accounts_for_request_witness :
  let env := Build_CommandEnv nat (mret tt) (fun ref => mret ref) (fun _ n => mret n)
               (fun _ _ _ params => modify S ;; mret [("status"%string, JStr "queued"); ("params"%string, JObj params)]) in
  let request := Request "task.pause" [("task_number"%string, JInt 3)] (Some "m1"%string) "local" "r-1" in
  exists r, execute (W := nat) (fun _ => EmptyString) request 0%nat = (Ok r, 1%nat) /\ rs_outcome r = "accepted"%string /\ rs_request_id r = "r-1"%string.
Proof.
  intros env request. destruct (execute (W := nat) (fun _ => EmptyString) request 0%nat) as [[r|e] w'] eqn:E; [|vm_compute in E; discriminate E].
  destruct (execute_accounts_for_request (fun _ => EmptyString) request 0%nat w' r E) as (H1 & _).
  exists r. vm_compute in E. injection E as <- <-. by split.
Defined.
