(* ===== verification/Protocol.v ===== *)
(** * The worker-coordinator protocol ([bridge_protocol.py])

    Envelopes and payload validation.  Decoding either gives a message, or
    raises [ProtocolError], or - for the values Python cannot hash - another
    exception.  [json.loads] and [repr] are parameters.  Characters are below
    256: [utf8_len] counts one or two bytes each, and no text holds a lone
    surrogate, for which [str.encode] raises UnicodeEncodeError in the checks
    of [host_name] and [allow_root]. *)

From S2P Require Import Prelude Py Bytes Commands.
From stdpp Require Import options.
Local Open Scope Z_scope.

Definition PROTOCOL_VERSION : Z := 1.
Definition SUPPORTED_VERSIONS : list Z := [1].
Definition MAX_MESSAGE_BYTES : Z := 1024 * 1024.
Definition MAX_EVENTS_PER_BATCH : Z := 500.
Definition _ENVELOPE_FIELDS : list string := ["v"; "type"; "id"; "worker_id"; "generation"; "payload"]%string.

Definition MESSAGE_FIELDS : list (string * (list string * list string)) :=
  [("hello", (["worker_id"; "name"; "software_version"; "protocol_versions"; "platform"; "capabilities"; "missions"; "event_cursor"], ["host_name"; "worker_policy"]));
   ("welcome", (["generation"; "protocol_version"; "event_cursor"], []));
   ("command", (["schema_version"; "operation"; "params"; "mission_id"; "target"; "request_id"], []));
   ("command.ack", (["request_id"; "status"], []));
   ("command.result", (["schema_version"; "request_id"; "operation"; "outcome"; "result"; "error"], []));
   ("events", (["after"; "through"; "events"], ["mission_cursor"; "missions"]));
   ("events.nack", (["expected_after"], []));
   ("terminal.open", (["session_id"; "mission_id"; "mode"; "cols"; "rows"], []));
   ("terminal.close", (["session_id"], []));
   ("terminal.status", (["session_id"; "state"; "mode"; "reason"], []));
   ("ping", ([], []));
   ("pong", ([], []));
   ("error", (["code"; "message"], ["details"; "in_reply_to"]))]%string.
Definition fields_of (k : string) : option (list string * list string) := snd <$> first (fun e => bool_decide (e.1 = k)) MESSAGE_FIELDS.

Record Message : Type := Msg {
  ms_type : string;
  ms_worker_id : string;
  ms_generation : Z;
  ms_payload : dict;
  ms_id : string;
  ms_v : json;
}.

Inductive proto_exn : Type :=
  | ProtocolError (f : CommandFailure)
  | EUnhashable  (** [TypeError]: a list or an object where a set is asked *)
  | EUnicodeEncode
  | EKeyError.  (** [MESSAGE_FIELDS[kind]] of an unknown type *)
Abbreviation PR := (result proto_exn).
Definition perror {A} (code message : string) : PR A := Raise (ProtocolError (Failure code message [])).
Definition invalid {A} (message : string) : PR A := perror "invalid-message" message.
(** [if not b: raise ProtocolError("invalid-message", message)] *)
Definition require (b : bool) (message : string) : PR unit := if b then Ok tt else invalid message.

Definition envelope (m : Message) : json :=
  JObj [("v"%string, ms_v m); ("type"%string, JStr (ms_type m)); ("id"%string, JStr (ms_id m)); ("worker_id"%string, JStr (ms_worker_id m));
        ("generation"%string, JInt (ms_generation m)); ("payload"%string, JObj (ms_payload m))].
Definition encode (float_repr : pyfloat -> string) (m : Message) : PR string :=
  let text := json_dumps true float_repr (envelope m) in
  if MAX_MESSAGE_BYTES <? slen text then
    perror "message-too-large" (ms_type m +:+ " message exceeds " +:+ show_Z MAX_MESSAGE_BYTES +:+ " bytes")
  else Ok text.

Definition _int (value : option json) (name : string) (minimum : Z) : PR Z :=
  match value with
  | Some (JInt z) => if minimum <=? z then Ok z else invalid (name +:+ " must be an integer >= " +:+ show_Z minimum)
  | _ => invalid (name +:+ " must be an integer >= " +:+ show_Z minimum)
  end.
(** [value not in {names}]: a list or an object is not hashable. *)
Definition hashable (v : json) : bool := match v with JList _ | JObj _ => false | _ => true end.
Definition member (v : json) (names : list string) (message : string) : PR unit :=
  if negb (hashable v) then Raise EUnhashable
  else require (match v with JStr s => bool_decide (s ∈ names) | _ => false end) message.

Definition is_str (v : option json) : bool := match v with Some (JStr _) => true | _ => false end.
Definition is_list (v : option json) : bool := match v with Some (JList _) => true | _ => false end.
Definition id_128 (v : option json) : bool := match v with Some (JStr s) => request_id_pattern s | _ => false end.
Definition is_dict (v : json) : bool := match v with JObj _ => true | _ => false end.
Definition at_most (n : Z) {A} (l : list A) : bool := Z.of_nat (length l) <=? n.
Definition control_char (c : Ascii.ascii) : bool := (code c <? 32) || (code c =? 127).
Definition supported (v : json) : bool := existsb (fun n => py_eqb v (JInt n)) SUPPORTED_VERSIONS.

(** [payload[k]] of a field known to be present. *)
Definition field (k : string) (d : dict) : json := default JNull (dget k d).

(** The loop over the events of a batch. *)
Fixpoint events_loop (previous through : Z) (events : list json) : PR unit :=
  match events with
  | [] => Ok tt
  | JObj event :: events' =>
      event_id ← _int (dget "id" event) "event id" 1;
      require (negb ((event_id <=? previous) || (through <? event_id))) "event ids must ascend within (after, through]" ;;
      events_loop event_id through events'
  | _ :: _ => invalid "each event must be an object"
  end.

Definition check_events (payload : dict) : PR unit :=
  after ← _int (dget "after" payload) "after" 0;
  through ← _int (dget "through" payload) "through" 0;
  match dget "events" payload with
  | Some (JList events) =>
      require (at_most MAX_EVENTS_PER_BATCH events) "events must be a list of at most 500" ;;
      events_loop after through events ;;
      (match dget "missions" payload with
       | None => Ok tt
       | Some (JList missions) => require (at_most 10000 missions && forallb is_dict missions) "missions must be a list of at most 10000 objects"
       | Some _ => invalid "missions must be a list of at most 10000 objects"
       end) ;;
      (match dget "mission_cursor" payload with
       | None => Ok tt
       | Some c => cursor ← _int (Some c) "mission_cursor" 0; require (cursor <=? through) "mission_cursor must not be greater than through"
       end) ;;
      require (after <=? through) "through must not be below after"
  | _ => invalid "events must be a list of at most 500"
  end.

Definition POLICY_FLAGS : list string := ["allow_control"; "allow_terminal_view"; "allow_create"; "allow_power"; "allow_restore"]%string.
Definition is_bool (v : option json) : bool := match v with Some (JBool _) => true | _ => false end.
Definition good_root (v : json) : bool := match v with JStr s => truthy_str s && (utf8_len s <=? 4096) | _ => false end.
Definition good_host_name (v : json) : bool :=
  match v with JStr s => truthy_str s && (utf8_len s <=? 255) && negb (sexists control_char s) | _ => false end.
Definition not_null (v : option json) : option json := match v with Some JNull => None | _ => v end.

Definition check_hello (payload : dict) : PR unit :=
  _int (dget "event_cursor" payload) "event_cursor" 0 ;;
  require (is_list (dget "capabilities" payload) && is_list (dget "missions" payload)) "hello: capabilities and missions must be lists" ;;
  (match not_null (dget "host_name" payload) with
   | None => Ok tt
   | Some h => require (good_host_name h) "hello: host_name must be 1-255 bytes without control characters"
   end) ;;
  (match not_null (dget "worker_policy" payload) with
   | None => Ok tt
   | Some (JObj policy) =>
       require (forallb (fun k => is_bool (dget k policy)) POLICY_FLAGS) "hello: worker_policy must contain boolean opt-in fields" ;;
       (match dget "allow_root" policy with
        | Some (JList roots) => require (at_most 32 roots && forallb good_root roots) "hello: worker_policy.allow_root must contain at most 32 paths of 1-4096 bytes"
        | _ => invalid "hello: worker_policy.allow_root must contain at most 32 paths of 1-4096 bytes"
        end)
   | Some _ => invalid "hello: worker_policy must contain boolean opt-in fields"
   end).

Definition check_terminal (kind : string) (payload : dict) : PR unit :=
  require (id_128 (dget "session_id" payload)) "session_id must be 1-128 characters of [A-Za-z0-9_.-]" ;;
  if bool_decide (kind = "terminal.open"%string) then
    require (is_str (dget "mission_id" payload)) "terminal.open: bad mission_id or mode" ;;
    member (field "mode" payload) ["view"; "write"] "terminal.open: bad mission_id or mode" ;;
    cols ← _int (dget "cols" payload) "cols" 1; require (cols <=? 1000) "cols must be at most 1000" ;;
    rows ← _int (dget "rows" payload) "rows" 1; require (rows <=? 1000) "rows must be at most 1000"
  else if bool_decide (kind = "terminal.status"%string) then
    member (field "state" payload) ["opened"; "refused"; "closed"] "terminal.status: bad state, mode or reason" ;;
    member (field "mode" payload) ["view"; "write"] "terminal.status: bad state, mode or reason" ;;
    require (is_str (dget "reason" payload)) "terminal.status: bad state, mode or reason"
  else Ok tt.

Section decode.
Context (json_loads : bytes -> option json) (repr : json -> string).

Definition check_fields (kind : string) (payload : dict) (required optional : list string) : PR unit :=
  let missing := sort_by str_leb (List.filter (fun k => negb (dmem k payload)) required) in
  let unknown := unknown_keys payload (required ++ optional) in
  match missing, unknown with
  | [], [] => Ok tt
  | _, _ => invalid (kind +:+ ": missing " +:+ repr (JList (JStr <$> missing)) +:+ " unknown " +:+ repr (JList (JStr <$> unknown)))
  end.

(** The branch of [_validate_payload] for a message type. *)
Definition check_kind (kind : string) (payload : dict) : PR unit :=
  if bool_decide (kind = "command"%string) then
    match from_json repr (JObj payload) with Ok _ => Ok tt | Raise f => Raise (ProtocolError f) end
  else if bool_decide (kind = "command.ack"%string) then
    member (field "status" payload) ["received"; "duplicate"] "command.ack: bad status or request_id" ;;
    require (is_str (dget "request_id" payload)) "command.ack: bad status or request_id"
  else if bool_decide (kind = "events"%string) then check_events payload
  else if bool_decide (kind = "events.nack"%string) then _int (dget "expected_after" payload) "expected_after" 0 ;; Ok tt
  else if bool_decide (kind = "welcome"%string) then
    _int (dget "generation" payload) "generation" 1 ;;
    _int (dget "event_cursor" payload) "event_cursor" 0 ;;
    if supported (field "protocol_version" payload) then Ok tt
    else perror "unsupported-version" ("protocol version " +:+ repr (field "protocol_version" payload) +:+ " is not supported")
  else if bool_decide (kind = "hello"%string) then check_hello payload
  else if startswith "terminal." kind then check_terminal kind payload
  else if bool_decide (kind = "error"%string) then
    require (is_str (dget "code" payload) && is_str (dget "message" payload)) "error: code and message must be strings"
  else Ok tt.

Definition _validate_payload (kind : string) (payload : dict) : PR unit :=
  match fields_of kind with
  | Some (required, optional) => check_fields kind payload required optional ;; check_kind kind payload
  | None => Raise EKeyError
  end.

Definition same_keys (d : dict) (names : list string) : bool :=
  forallb (fun k => dmem k d) names && forallb (fun kv => bool_decide (kv.1 ∈ names)) d.

Inductive source : Type := FromText (s : text) | FromBytes (b : bytes).
Definition raw_bytes (src : source) : PR bytes :=
  match src with
  | FromText s => if forallb is_scalar s then Ok (utf8_encode s) else Raise EUnicodeEncode
  | FromBytes b => Ok b
  end.

Definition decode (src : source) : PR Message :=
  raw ← raw_bytes src;
  if MAX_MESSAGE_BYTES <? Z.of_nat (length raw) then perror "message-too-large" ("message exceeds " +:+ show_Z MAX_MESSAGE_BYTES +:+ " bytes")
  else
    match json_loads raw with
    | None => invalid "message is not valid UTF-8 JSON"
    | Some (JObj value) =>
        require (same_keys value _ENVELOPE_FIELDS) ("envelope must have exactly the fields " +:+ repr (JList (JStr <$> sort_by str_leb _ENVELOPE_FIELDS))) ;;
        (if supported (field "v" value) then Ok tt
         else Raise (ProtocolError (Failure "unsupported-version" ("protocol version " +:+ repr (field "v" value) +:+ " is not supported")
                [("supported"%string, JList (JInt <$> SUPPORTED_VERSIONS))]))) ;;
        if negb (hashable (field "type" value)) then Raise EUnhashable
        else
          match field "type" value with
          | JStr kind =>
              if bool_decide (fields_of kind = None) then perror "unsupported-message" ("unsupported message type " +:+ repr (JStr kind))
              else
                require (id_128 (dget "id" value)) "id must be 1-128 characters of [A-Za-z0-9_.-]" ;;
                require (id_128 (dget "worker_id" value)) "worker_id must be 1-128 characters of [A-Za-z0-9_.-]" ;;
                generation ← _int (dget "generation" value) "generation" 0;
                match dget "payload" value, dget "id" value, dget "worker_id" value with
                | Some (JObj payload), Some (JStr id), Some (JStr worker_id) =>
                    _validate_payload kind payload ;;
                    Ok (Msg kind worker_id generation payload id (field "v" value))
                | _, _, _ => invalid "payload must be an object"
                end
          | other => perror "unsupported-message" ("unsupported message type " +:+ repr other)
          end
    | Some _ => invalid ("envelope must have exactly the fields " +:+ repr (JList (JStr <$> sort_by str_leb _ENVELOPE_FIELDS)))
    end.
End decode.

(** ** What a valid message is *)

Definition has_str (k : string) (d : dict) : Prop := exists s, dget k d = Some (JStr s).
Definition has_int (k : string) (minimum : Z) (d : dict) (z : Z) : Prop := dget k d = Some (JInt z) /\ minimum <= z.
Definition has_one_of (k : string) (names : list string) (d : dict) : Prop := exists s, dget k d = Some (JStr s) /\ s ∈ names.
Definition has_id (k : string) (d : dict) : Prop := exists s, dget k d = Some (JStr s) /\ request_id_pattern s = true.
Definition has_list (k : string) (d : dict) (l : list json) : Prop := dget k d = Some (JList l).

Definition event_ids (events : list json) (ids : list Z) : Prop :=
  Forall2 (fun e id => exists d, e = JObj d /\ has_int "id" 1 d id) events ids.
(** Ids ascend strictly within [(after, through]]. *)
Definition ascending (after through : Z) (ids : list Z) : Prop := Sorted Z.lt ids /\ Forall (fun id => after < id <= through) ids.

Definition valid_events (d : dict) : Prop :=
  exists after through events ids,
    has_int "after" 0 d after /\ has_int "through" 0 d through /\ after <= through /\
    has_list "events" d events /\ Z.of_nat (length events) <= 500 /\ event_ids events ids /\ ascending after through ids /\
    (dget "missions" d = None \/ exists l, has_list "missions" d l /\ Z.of_nat (length l) <= 10000 /\ Forall (fun m => exists o, m = JObj o) l) /\
    (dget "mission_cursor" d = None \/ exists c, has_int "mission_cursor" 0 d c /\ c <= through).
Definition valid_policy (p : json) : Prop :=
  exists d roots, p = JObj d /\ Forall (fun k => exists b, dget k d = Some (JBool b)) POLICY_FLAGS /\ has_list "allow_root" d roots /\
    Z.of_nat (length roots) <= 32 /\ Forall (fun r => exists s, r = JStr s /\ s ≠ EmptyString /\ utf8_len s <= 4096) roots.
Definition valid_hello (d : dict) : Prop :=
  (exists c, has_int "event_cursor" 0 d c) /\ (exists l, has_list "capabilities" d l) /\ (exists l, has_list "missions" d l) /\
  (forall h, not_null (dget "host_name" d) = Some h -> good_host_name h = true) /\
  (forall p, not_null (dget "worker_policy" d) = Some p -> valid_policy p).
Definition valid_terminal (kind : string) (d : dict) : Prop :=
  has_id "session_id" d /\
  (kind = "terminal.open"%string ->
    has_str "mission_id" d /\ has_one_of "mode" ["view"; "write"]%string d /\
    (exists cols, has_int "cols" 1 d cols /\ cols <= 1000) /\ exists rows, has_int "rows" 1 d rows /\ rows <= 1000) /\
  (kind = "terminal.status"%string ->
    has_one_of "state" ["opened"; "refused"; "closed"]%string d /\ has_one_of "mode" ["view"; "write"]%string d /\ has_str "reason" d).

Lemma require_ok {A} b msg (m : PR A) x : (require b msg ;; m) = Ok x <-> b = true /\ m = Ok x.
Proof. destruct b; cbn; naive_solver. Qed.
Lemma require_last b msg : require b msg = Ok tt <-> b = true.
Proof. by destruct b. Qed.
Lemma int_ok {A} o name lo (f : Z -> PR A) x : (z ← _int o name lo; f z) = Ok x <-> exists z, o = Some (JInt z) /\ lo <= z /\ f z = Ok x.
Proof.
  unfold _int. destruct o as [[| |z| | | |]|]; cbn; try (split; [done|naive_solver]). destruct (Z.leb_spec lo z); cbn.
  - split; [by exists z|]. intros (z' & [= <-] & _ & ?). done.
  - split; [done|]. intros (z' & [= <-] & ? & _). lia.
Qed.
Lemma member_ok {A} v names msg (m : PR A) x : (member v names msg ;; m) = Ok x <-> (exists s, v = JStr s /\ s ∈ names) /\ m = Ok x.
Proof.
  unfold member. destruct v; cbn; try (split; [done|naive_solver]). case_bool_decide; cbn; [|split; [done|naive_solver]].
  split; [intros; split; [eauto|done]|by intros [_ ?]].
Qed.
Lemma field_str k d s : field k d = JStr s <-> dget k d = Some (JStr s).
Proof. unfold field. destruct (dget k d) as [v|]; cbn; split; congruence. Qed.
Lemma is_str_iff k d : is_str (dget k d) = true <-> has_str k d.
Proof. unfold has_str, is_str. destruct (dget k d) as [[]|]; naive_solver. Qed.
Lemma is_list_iff k d : is_list (dget k d) = true <-> exists l, has_list k d l.
Proof. unfold has_list, is_list. destruct (dget k d) as [[]|]; naive_solver. Qed.
Lemma id_128_iff k d : id_128 (dget k d) = true <-> has_id k d.
Proof. unfold has_id, id_128. destruct (dget k d) as [[]|]; naive_solver. Qed.

Lemma events_loop_ok previous through events :
  events_loop previous through events = Ok tt <-> exists ids, event_ids events ids /\ ascending previous through ids.
Proof.
  revert previous. induction events as [|e events IH]; intros previous; cbn [events_loop].
  - split; [intros _; exists []; split; [constructor|split; constructor]|done].
  - split.
    + destruct e as [| | | | | |d]; try done. rewrite int_ok. intros (id & Hid & Hlo & H). apply require_ok in H as [Hb H].
      apply negb_true_iff, orb_false_iff in Hb as [H1%Z.leb_gt H2%Z.ltb_ge]. apply IH in H as (ids & Hids & Hs & Hf). exists (id :: ids). split.
      * constructor; [by exists d|done].
      * split.
        -- constructor; [done|]. destruct ids as [|id2 ids]; constructor. apply Forall_inv in Hf. lia.
        -- constructor; [lia|]. eapply Forall_impl; [exact Hf|]. cbn. lia.
    + intros (ids & (id & ids' & (d & -> & Hid & Hlo) & Hids & ->)%Forall2_cons_inv_l & Hs & Hf). apply int_ok. exists id. split_and!; [done|done|].
      apply Forall_cons in Hf as [Hin Hf]. apply require_ok. split.
      { apply negb_true_iff, orb_false_iff. split; [apply Z.leb_gt; lia|apply Z.ltb_ge; lia]. }
      apply IH. exists ids'. split; [done|]. apply Sorted_extends in Hs as Hx; [|intros ???; lia]. apply Sorted_inv in Hs as [Hs _].
      split; [done|]. apply Forall_forall. intros y Hy. rewrite Forall_forall in Hf. rewrite Forall_forall in Hx. specialize (Hf y Hy). specialize (Hx y Hy). lia.
Qed.

Lemma check_events_ok d : check_events d = Ok tt <-> valid_events d.
Proof.
  unfold check_events, valid_events, has_int, has_list. rewrite int_ok. setoid_rewrite int_ok. split.
  - intros (after & Ha & Ha0 & through & Ht & Ht0 & H). destruct (dget "events" d) as [[| | | | |events|]|] eqn:Ee; try done.
    apply require_ok in H as [Hn H]. destruct (events_loop after through events) as [[]|] eqn:El; [|done]. apply events_loop_ok in El as (ids & Hids & Hasc).
    cbn [mbind result_bind] in H. destruct (match dget "missions" d with None => Ok tt | Some _ => _ end) as [[]|] eqn:Em in H; [|done].
    cbn [mbind result_bind] in H. destruct (match dget "mission_cursor" d with None => Ok tt | Some _ => _ end) as [[]|] eqn:Ec in H; [|done].
    cbn [mbind result_bind] in H. apply require_last, Z.leb_le in H. exists after, through, events, ids. split_and!; try done.
    + by apply Z.leb_le in Hn.
    + destruct (dget "missions" d) as [[| | | | |l|]|]; try done; [right|by left]. apply require_last, andb_true_iff in Em as [H1 H2]. exists l. split_and!; [done|by apply Z.leb_le in H1|].
      apply Forall_forall. intros m Hm. rewrite forallb_forall in H2. specialize (H2 m (proj1 (list_elem_of_In _ _) Hm)). destruct m; try done. eauto.
    + destruct (dget "mission_cursor" d) as [c|]; [right|by left]. apply int_ok in Ec as (z & [= ->] & Hz & Hle%require_last%Z.leb_le). by exists z.
  - intros (after & through & events & ids & [Ha Ha0] & [Ht Ht0] & Hle & He & Hn & Hids & Hasc & Hm & Hc).
    exists after. split_and!; [done|done|]. exists through. split_and!; [done|done|]. rewrite He. apply require_ok. split; [by apply Z.leb_le|].
    rewrite (proj2 (events_loop_ok after through events)) by eauto. cbn [mbind result_bind].
    assert (Em : match dget "missions" d with None => Ok tt | Some (JList missions) => require (at_most 10000 missions && forallb is_dict missions) "missions must be a list of at most 10000 objects" | Some _ => invalid "missions must be a list of at most 10000 objects" end = Ok tt).
    { destruct Hm as [->|(l & -> & Hl & Hd)]; [done|]. apply require_last, andb_true_iff. split; [by apply Z.leb_le|].
      apply forallb_forall. intros m Hm%list_elem_of_In. rewrite Forall_forall in Hd. by destruct (Hd m Hm) as [o ->]. }
    rewrite Em. cbn [mbind result_bind].
    assert (Ec : match dget "mission_cursor" d with None => Ok tt | Some c => cursor ← _int (Some c) "mission_cursor" 0; require (cursor <=? through) "mission_cursor must not be greater than through" end = Ok tt).
    { destruct Hc as [->|(c & [-> Hc0] & Hc)]; [done|]. apply int_ok. exists c. split_and!; [done|done|]. by apply require_last, Z.leb_le. }
    rewrite Ec. cbn [mbind result_bind]. by apply require_last, Z.leb_le.
Qed.

Lemma good_policy_iff p :
  (match p with
   | JObj policy =>
       require (forallb (fun k => is_bool (dget k policy)) POLICY_FLAGS) "hello: worker_policy must contain boolean opt-in fields" ;;
       (match dget "allow_root" policy with
        | Some (JList roots) => require (at_most 32 roots && forallb good_root roots) "hello: worker_policy.allow_root must contain at most 32 paths of 1-4096 bytes"
        | _ => invalid "hello: worker_policy.allow_root must contain at most 32 paths of 1-4096 bytes"
        end)
   | _ => invalid "hello: worker_policy must contain boolean opt-in fields"
   end) = Ok tt <-> valid_policy p.
Proof.
  unfold valid_policy, has_list. destruct p as [| | | | | |policy]; try (split; [done|naive_solver]).
  assert (Hf : forallb (fun k => is_bool (dget k policy)) POLICY_FLAGS = true <-> Forall (fun k => exists b, dget k policy = Some (JBool b)) POLICY_FLAGS).
  { rewrite forallb_forall, Forall_forall. setoid_rewrite <- list_elem_of_In. apply forall_proper. intros k.
    apply forall_proper. intros _. unfold is_bool. destruct (dget k policy) as [[]|]; naive_solver. }
  assert (Hr : forall roots, forallb good_root roots = true <-> Forall (fun r => exists s, r = JStr s /\ s ≠ EmptyString /\ utf8_len s <= 4096) roots).
  { intros roots. rewrite forallb_forall, Forall_forall. setoid_rewrite <- list_elem_of_In. apply forall_proper. intros r.
    apply forall_proper. intros _. unfold good_root, truthy_str. destruct r; try (split; [done|by intros (? & [=] & _)]).
    rewrite andb_true_iff, negb_true_iff, bool_decide_eq_false, Z.leb_le. split; [eauto|by intros (? & [= <-] & ?)]. }
  rewrite require_ok, Hf. split.
  - intros [H1 H2]. exists policy. destruct (dget "allow_root" policy) as [[| | | | |roots|]|]; try done.
    apply require_last, andb_true_iff in H2 as [H2 H3]. exists roots. split_and!; [done|done|done|by apply Z.leb_le in H2|by apply Hr].
  - intros (d & roots & [= <-] & H1 & -> & H2 & H3). split; [done|]. apply require_last, andb_true_iff. split; [by apply Z.leb_le|by apply Hr].
Qed.

Lemma bind_unit_ok (m1 m2 : PR unit) : (m1 ;; m2) = Ok tt <-> m1 = Ok tt /\ m2 = Ok tt.
Proof. destruct m1 as [[]|e]; cbn; naive_solver. Qed.

Lemma check_hello_ok d : check_hello d = Ok tt <-> valid_hello d.
Proof.
  unfold check_hello, valid_hello, has_int. rewrite int_ok. setoid_rewrite require_ok. setoid_rewrite andb_true_iff. setoid_rewrite is_list_iff.
  setoid_rewrite bind_unit_ok. split.
  - intros (c & Hc & Hc0 & [H1 H2] & Hh & Hp). split_and!; [by exists c|done|done| |].
    + intros h E. rewrite E in Hh. by apply require_last in Hh.
    + intros p E. rewrite E in Hp. by apply good_policy_iff.
  - intros ((c & Hc & Hc0) & H1 & H2 & Hh & Hp). exists c. split_and!; [done|done|done|done| |].
    + destruct (not_null _) as [h|]; [|done]. by apply require_last, Hh.
    + destruct (not_null (dget "worker_policy" d)) as [p|]; [|done]. specialize (Hp p eq_refl). apply good_policy_iff in Hp. by destruct p.
Qed.

Lemma has_one_of_iff k names d : (exists s, field k d = JStr s /\ s ∈ names) <-> has_one_of k names d.
Proof. unfold has_one_of. by setoid_rewrite field_str. Qed.

Lemma check_terminal_ok kind d : check_terminal kind d = Ok tt <-> valid_terminal kind d.
Proof.
  unfold check_terminal, valid_terminal, has_int. rewrite require_ok, id_128_iff. apply and_iff_compat_l.
  case_bool_decide as Eo; [subst kind|case_bool_decide as Es].
  - rewrite require_ok, is_str_iff, member_ok, has_one_of_iff, int_ok. setoid_rewrite require_ok. setoid_rewrite int_ok. setoid_rewrite require_last. setoid_rewrite Z.leb_le.
    split; [naive_solver|]. intros [H _]. destruct (H eq_refl) as (H1 & H2 & (c & [] & ?) & (r & [] & ?)). naive_solver.
  - subst kind. rewrite member_ok, member_ok, !has_one_of_iff, require_last, is_str_iff. naive_solver.
  - naive_solver.
Qed.

Section exact.
Context (json_loads : bytes -> option json) (repr : json -> string).

Definition valid_kind (kind : string) (d : dict) : Prop :=
  if bool_decide (kind = "command"%string) then exists r, from_json repr (JObj d) = Ok r
  else if bool_decide (kind = "command.ack"%string) then has_one_of "status" ["received"; "duplicate"]%string d /\ has_str "request_id" d
  else if bool_decide (kind = "events"%string) then valid_events d
  else if bool_decide (kind = "events.nack"%string) then exists n, has_int "expected_after" 0 d n
  else if bool_decide (kind = "welcome"%string) then
    (exists g, has_int "generation" 1 d g) /\ (exists c, has_int "event_cursor" 0 d c) /\ supported (field "protocol_version" d) = true
  else if bool_decide (kind = "hello"%string) then valid_hello d
  else if startswith "terminal." kind then valid_terminal kind d
  else if bool_decide (kind = "error"%string) then has_str "code" d /\ has_str "message" d
  else True.

Lemma check_kind_ok kind d : check_kind repr kind d = Ok tt <-> valid_kind kind d.
Proof.
  unfold check_kind, valid_kind, has_int. case_bool_decide.
  { destruct (from_json repr (JObj d)); naive_solver. }
  case_bool_decide; [by rewrite member_ok, has_one_of_iff, require_last, is_str_iff|].
  case_bool_decide; [apply check_events_ok|].
  case_bool_decide; [rewrite int_ok; naive_solver|].
  case_bool_decide.
  { rewrite int_ok. setoid_rewrite int_ok. destruct (supported _); naive_solver. }
  case_bool_decide; [apply check_hello_ok|].
  destruct (startswith _ _); [apply check_terminal_ok|].
  case_bool_decide; [by rewrite require_last, andb_true_iff, !is_str_iff|done].
Qed.

(** The fields of a payload: all the required ones, and no others but the
    optional ones. *)
Definition valid_fields (kind : string) (d : dict) : Prop :=
  exists required optional, fields_of kind = Some (required, optional) /\
    (forall k, k ∈ required -> k ∈ d.*1) /\ (forall k, k ∈ d.*1 -> k ∈ required ++ optional).

Lemma dmem_keys k (d : dict) : dmem k d = true <-> k ∈ d.*1.
Proof.
  unfold dmem. induction d as [|[k' v] d IH]; cbn; [split; [done|by intros ?%not_elem_of_nil]|]. case_bool_decide as E.
  - subst. split; [by left|done].
  - rewrite IH, elem_of_cons. split; [auto|by intros [->|?]].
Qed.
Lemma check_fields_ok kind d required optional :
  check_fields repr kind d required optional = Ok tt <-> (forall k, k ∈ required -> k ∈ d.*1) /\ (forall k, k ∈ d.*1 -> k ∈ required ++ optional).
Proof.
  unfold check_fields. rewrite <- (unknown_keys_nil d (required ++ optional)).
  assert (Hm : sort_by str_leb (List.filter (fun k => negb (dmem k d)) required) = [] <-> forall k, k ∈ required -> k ∈ d.*1).
  { split.
    - intros E k Hk. apply dmem_keys. destruct (dmem k d) eqn:Ed; [done|]. exfalso.
      assert (Hin : k ∈ sort_by str_leb (List.filter (fun k => negb (dmem k d)) required)).
      { apply elem_of_sort_by, list_elem_of_In, filter_In. split; [by apply list_elem_of_In|by rewrite Ed]. }
      rewrite E in Hin. by apply not_elem_of_nil in Hin.
    - intros H. destruct (sort_by _ _) as [|k l] eqn:E; [done|]. exfalso.
      assert (Hin : k ∈ k :: l) by left. rewrite <- E in Hin. apply elem_of_sort_by, list_elem_of_In, filter_In in Hin as [Hk Hn].
      apply list_elem_of_In, H, dmem_keys in Hk. by rewrite Hk in Hn. }
  rewrite <- Hm. destruct (sort_by _ _), (unknown_keys _ _); naive_solver.
Qed.
Lemma validate_payload_ok kind d : _validate_payload repr kind d = Ok tt <-> valid_fields kind d /\ valid_kind kind d.
Proof.
  unfold _validate_payload, valid_fields. destruct (fields_of kind) as [[required optional]|]; [|naive_solver].
  rewrite bind_unit_ok, check_fields_ok, check_kind_ok. naive_solver.
Qed.

Definition valid_message (m : Message) : Prop :=
  supported (ms_v m) = true /\ request_id_pattern (ms_id m) = true /\ request_id_pattern (ms_worker_id m) = true /\ 0 <= ms_generation m /\
  valid_fields (ms_type m) (ms_payload m) /\ valid_kind (ms_type m) (ms_payload m).
(** An object with exactly the envelope's fields, holding the message. *)
Definition envelope_of (value : dict) (m : Message) : Prop :=
  (forall k, k ∈ value.*1 <-> k ∈ _ENVELOPE_FIELDS) /\ dget "v" value = Some (ms_v m) /\ dget "type" value = Some (JStr (ms_type m)) /\
  dget "id" value = Some (JStr (ms_id m)) /\ dget "worker_id" value = Some (JStr (ms_worker_id m)) /\
  dget "generation" value = Some (JInt (ms_generation m)) /\ dget "payload" value = Some (JObj (ms_payload m)).

Lemma same_keys_iff d names : same_keys d names = true <-> forall k, k ∈ d.*1 <-> k ∈ names.
Proof.
  unfold same_keys. rewrite andb_true_iff, !forallb_forall. split.
  - intros [H1 H2] k. split.
    + intros (kv & -> & Hkv)%list_elem_of_fmap. apply list_elem_of_In in Hkv. by apply H2, bool_decide_eq_true in Hkv.
    + intros Hk%list_elem_of_In. by apply dmem_keys, H1.
  - intros H. split.
    + intros k Hk%list_elem_of_In. by apply dmem_keys, H.
    + intros kv Hkv%list_elem_of_In. apply bool_decide_eq_true, H. by apply list_elem_of_fmap_2.
Qed.
Lemma keys_dget k (d : dict) : k ∈ d.*1 -> exists v, dget k d = Some v.
Proof. rewrite <- dmem_keys. unfold dmem. by destruct (dget k d) as [v|]; [exists v|]. Qed.

(** C36: Decoding accepts exactly the well-typed messages: it returns a message
    if and only if the input encodes to at most 1 MiB of JSON for an object
    with exactly the envelope's fields, of a supported version and a known
    type, with well-formed ids and generation, whose payload has the fields
    and the field types of its type - in an events batch the ids ascend
    strictly within (after, through] and no cursor passes [through]. *)
Theorem decode_accepts_exactly (src : source) (m : Message) :
  decode json_loads repr src = Ok m <->
  exists raw value, raw_bytes src = Ok raw /\ Z.of_nat (length raw) <= MAX_MESSAGE_BYTES /\ json_loads raw = Some (JObj value) /\
    envelope_of value m /\ valid_message m.
Proof.
  unfold decode. destruct (raw_bytes src) as [raw|e] eqn:Er; [|cbn; naive_solver]. cbn [mbind result_bind].
  destruct (Z.ltb_spec MAX_MESSAGE_BYTES (Z.of_nat (length raw))) as [Hbig|Hsmall].
  { split; [done|]. intros (raw' & value & [= <-] & ? & _). lia. }
  destruct (json_loads raw) as [[| | | | | |value]|] eqn:Ej; try (split; [done|intros (raw' & value' & [= <-] & _ & ? & _); congruence]).
  unfold envelope_of, valid_message. rewrite require_ok, same_keys_iff. split.
  - intros [Hk H]. destruct (supported (field "v" value)) eqn:Ev; [|done]. cbn [mbind result_bind] in H.
    destruct (negb (hashable (field "type" value))) eqn:Eh; [done|]. destruct (field "type" value) as [| | | |kind| |] eqn:Et; try done.
    apply field_str in Et. case_bool_decide as Ef; [done|]. apply require_ok in H as [Hid H]. apply require_ok in H as [Hw H].
    apply id_128_iff in Hid as (id & Hid & Hidp). apply id_128_iff in Hw as (w & Hw & Hwp).
    apply int_ok in H as (g & Hg & Hg0 & H). rewrite Hid, Hw in H. destruct (dget "payload" value) as [[| | | | | |payload]|] eqn:Ep; try done.
    destruct (_validate_payload repr kind payload) as [[]|] eqn:Evp; [|done]. cbn in H. injection H as <-. apply validate_payload_ok in Evp as [Hf Hvk].
    exists raw, value. cbn. split_and!; try done. unfold field in Ev |- *. destruct (keys_dget "v" value) as [v Hv]; [apply Hk; left|]. by rewrite Hv.
  - intros (raw' & value' & [= <-] & _ & Ej' & (Hk & Hv & Ht & Hid & Hw & Hg & Hp) & Hsv & Hidp & Hwp & Hg0 & Hf & Hvk). simplify_eq.
    split; [done|]. unfold field. rewrite Hv, Ht, Hid, Hw, Hg, Hp. cbn [default id from_option]. rewrite Hsv. cbn [mbind result_bind hashable negb].
    rewrite bool_decide_false by (destruct Hf as (? & ? & Hfo & _); congruence).
    unfold id_128. rewrite Hidp, Hwp. cbn [require mbind result_bind]. unfold _int. rewrite (proj2 (Z.leb_le _ _) Hg0). cbn [mbind result_bind].
    rewrite (proj2 (validate_payload_ok _ _)) by done. cbn. by destruct m.
Qed.
End exact.

(** ** What else decoding can raise *)

Definition raises_only {A} (P : proto_exn -> Prop) (m : PR A) : Prop := forall e, m = Raise e -> P e.
Definition unhashable_field (d : dict) (k : string) : Prop := k ∈ ["status"; "mode"; "state"]%string /\ hashable (field k d) = false.
Definition payload_failure (d : dict) (e : proto_exn) : Prop :=
  match e with ProtocolError _ => True | EUnhashable => exists k, unhashable_field d k | _ => False end.

Section raises.
Context (d : dict).
Abbreviation RO := (raises_only (payload_failure d)).
Lemma ro_bind {A B} (m : PR A) (f : A -> PR B) : RO m -> (forall a, RO (f a)) -> RO (m ≫= f).
Proof. intros Hm Hf e. destruct m as [a|e']; cbn; [apply Hf|]. intros [= ->]. by apply Hm. Qed.
Lemma ro_ok {A} (a : A) : RO (Ok a).
Proof. by intros e. Qed.
Lemma ro_protocol {A} f : RO (Raise (ProtocolError f) : PR A).
Proof. by intros e [= <-]. Qed.
Lemma ro_require b msg : RO (require b msg).
Proof. destruct b; [apply ro_ok|apply ro_protocol]. Qed.
Lemma ro_int o name lo : RO (_int o name lo).
Proof. unfold _int. destruct o as [[]|]; try apply ro_protocol. case_match; [apply ro_ok|apply ro_protocol]. Qed.
Lemma ro_member k names msg : k ∈ ["status"; "mode"; "state"]%string -> RO (member (field k d) names msg).
Proof.
  intros Hk. unfold member. destruct (hashable (field k d)) eqn:E; [apply ro_require|]. intros e [= <-]. by exists k.
Qed.
Lemma ro_events previous through events : RO (events_loop previous through events).
Proof.
  revert previous. induction events as [|e events IH]; intros previous; cbn [events_loop]; [apply ro_ok|].
  destruct e; try apply ro_protocol. apply ro_bind; [apply ro_int|]. intros id. apply ro_bind; [apply ro_require|]. intros _. apply IH.
Qed.
End raises.

Ltac ro_step :=
  match goal with
  | |- forall _, _ => intros ?
  | |- raises_only _ (_ ≫= _) => apply ro_bind
  | |- raises_only _ (Ok _) => apply ro_ok
  | |- raises_only _ (invalid _) => apply ro_protocol
  | |- raises_only _ (perror _ _) => apply ro_protocol
  | |- raises_only _ (Raise (ProtocolError _)) => apply ro_protocol
  | |- raises_only _ (require _ _) => apply ro_require
  | |- raises_only _ (_int _ _ _) => apply ro_int
  | |- raises_only _ (member _ _ _) => apply ro_member; set_solver
  | |- raises_only _ (events_loop _ _ _) => apply ro_events
  | |- raises_only _ (if ?b then _ else _) => destruct b
  | |- raises_only _ (match ?x with _ => _ end) => destruct x
  end.

Section failures.
Context (json_loads : bytes -> option json) (repr : json -> string).

Lemma payload_failures kind d : fields_of kind ≠ None -> raises_only (payload_failure d) (_validate_payload repr kind d).
Proof.
  intros Hk. unfold _validate_payload. destruct (fields_of kind) as [[required optional]|]; [|done].
  unfold check_fields, check_kind, check_events, check_hello, check_terminal. repeat ro_step.
Qed.

(** Decoding fails with a [ProtocolError] for every input it rejects but
    two kinds: text with a lone surrogate, and a list or an object where a
    set of names is asked - as the message type, or as the status, mode or
    state of a payload - which raises [TypeError] instead; an envelope whose
    type is such a value always does. *)
Theorem decode_failures (src : source) :
  (forall e, decode json_loads repr src = Raise e ->
     match e with
     | ProtocolError _ => True
     | EUnicodeEncode => exists s, src = FromText s /\ forallb is_scalar s = false
     | EUnhashable => exists raw value, raw_bytes src = Ok raw /\ json_loads raw = Some (JObj value) /\
         (hashable (field "type" value) = false \/ exists payload k, dget "payload" value = Some (JObj payload) /\ unhashable_field payload k)
     | EKeyError => False
     end) /\
  (forall raw value, raw_bytes src = Ok raw -> Z.of_nat (length raw) <= MAX_MESSAGE_BYTES -> json_loads raw = Some (JObj value) ->
     (forall k, k ∈ value.*1 <-> k ∈ _ENVELOPE_FIELDS) -> supported (field "v" value) = true -> hashable (field "type" value) = false ->
     decode json_loads repr src = Raise EUnhashable).
Proof.
  split.
  - intros e. unfold decode. destruct (raw_bytes src) as [raw|e'] eqn:Er.
    + cbn [mbind result_bind]. destruct (_ <? _); [by intros [= <-]|]. destruct (json_loads raw) as [[| | | | | |value]|] eqn:Ej; try (by intros [= <-]).
      destruct (same_keys _ _); [|by intros [= <-]]. cbn [require mbind result_bind]. destruct (supported _); [|by intros [= <-]].
      cbn [mbind result_bind]. destruct (hashable (field "type" value)) eqn:Eh; cbn [negb].
      2:{ intros [= <-]. exists raw, value. split_and!; [done|done|by left]. }
      destruct (field "type" value) as [| | | |kind| |]; try (by intros [= <-]). case_bool_decide as Ef; [by intros [= <-]|].
      destruct (id_128 (dget "id" value)); [|by intros [= <-]]. destruct (id_128 (dget "worker_id" value)); [|by intros [= <-]]. cbn [require mbind result_bind].
      destruct (_int (dget "generation" value) "generation" 0) as [g|e'] eqn:Eg; cbn [mbind result_bind].
      2:{ intros [= <-]. apply (ro_int [] _ _ _) in Eg. destruct e'; try done. by destruct Eg as (k & Hk & [=]). }
      destruct (dget "payload" value) as [[| | | | | |payload]|] eqn:Ep; try (by intros [= <-]).
      destruct (dget "id" value) as [[]|]; try (by intros [= <-]). destruct (dget "worker_id" value) as [[]|]; try (by intros [= <-]).
      destruct (_validate_payload repr kind payload) as [[]|e'] eqn:Ev; cbn [mbind result_bind]; [done|]. intros [= <-].
      apply (payload_failures kind payload Ef) in Ev. destruct e'; try done. destruct Ev as [k Hk]. exists raw, value. split_and!; [done|done|right; eauto].
    + intros [= <-]. destruct src as [s|b]; cbn in Er; [|done]. destruct (forallb is_scalar s) eqn:Es; [done|]. injection Er as <-. by exists s.
  - intros raw value Er Hlen Ej Hk Hv Hh. unfold decode. rewrite Er. cbn [mbind result_bind]. rewrite (proj2 (Z.ltb_ge _ _)) by done. rewrite Ej.
    rewrite (proj2 (same_keys_iff _ _) Hk). cbn [require mbind result_bind]. rewrite Hv. cbn [mbind result_bind]. by rewrite Hh.
Qed.
End failures.

Definition demo_envelope (type : json) : dict :=
  [("v"%string, JInt 1); ("type"%string, type); ("id"%string, JStr "i"); ("worker_id"%string, JStr "w"); ("generation"%string, JInt 1); ("payload"%string, JObj [])].
Lemma decode_failures_witness :
  decode (fun _ => Some (JObj (demo_envelope (JList [])))) (fun _ => EmptyString) (FromBytes []) = Raise EUnhashable.
Proof.
  apply (proj2 (decode_failures (fun _ => Some (JObj (demo_envelope (JList [])))) (fun _ => EmptyString) (FromBytes [])) [] (demo_envelope (JList [])));
    [reflexivity|done|reflexivity| |reflexivity|reflexivity].
  intros k. cbn. set_solver.
Defined.
