(* ===== verification/Worker.v ===== *)
(** * The worker session: event replication ([bridge_worker.py])

    [WorkerSession]'s replication half: which events a batch carries, the
    mission summaries that go with it, and the cursor protocol - one batch in
    flight, fenced by a ping.  JSON text lengths, time stamps and the provider
    question of [bridge_monitor] are parameters. *)

From Stdlib Require Import QArith.
From S2P Require Import Prelude Py Vocab StoreData StoreTasks StoreLog Protocol.
From stdpp Require Import options.
Local Open Scope Z_scope.

Definition EVENT_BATCH : Z := 25.
Definition EVENT_BATCH_BYTES : Z := 16 * 1024.
Definition EVENT_SCAN_ROWS : Z := 400.
Definition EVENT_RATE_BYTES_PER_SECOND : Z := 20 * 1024.
Definition UNREPLICATED_EVENT_KINDS : list string := [EventKind_str K_CONTROLLER_HEARTBEAT].
Definition LATEST_ONLY_EVENT_KINDS : list string := [EventKind_str K_CAPACITY_REFRESH].
Definition MISSION_QUESTION_REFRESH_SECS : Q := 5.
Definition MAX_QUESTION_MISSIONS_PER_REFRESH : nat := 64.

Record InFlightBatch : Type := InFlight { if_seq : Z; if_after : Z; if_through : Z }.

Record WorkerSession : Type := Session {
  ws_max_generation : Z;
  ws_generation : Z;
  ws_cursor : option Z;
  ws_inflight : option InFlightBatch;
  ws_send_not_before : Q;
  ws_batch_seq : Z;
  ws_pending_pongs : list Z;
  ws_close_reason : option string;
  ws_last_question_refresh : Q;
  ws_last_question_mission_id : option string;
  ws_mission_questions : gmap string (option json);
}.
Definition WorkerSession_init (max_generation : Z) : WorkerSession := Session max_generation 0 None None 0 0 [] None 0 None ∅.

Definition set_replication (cursor : option Z) (inflight : option InFlightBatch) (s : WorkerSession) : WorkerSession :=
  Session (ws_max_generation s) (ws_generation s) cursor inflight (ws_send_not_before s) (ws_batch_seq s) (ws_pending_pongs s)
    (ws_close_reason s) (ws_last_question_refresh s) (ws_last_question_mission_id s) (ws_mission_questions s).
Definition set_pongs (p : list Z) (s : WorkerSession) : WorkerSession :=
  Session (ws_max_generation s) (ws_generation s) (ws_cursor s) (ws_inflight s) (ws_send_not_before s) (ws_batch_seq s) p
    (ws_close_reason s) (ws_last_question_refresh s) (ws_last_question_mission_id s) (ws_mission_questions s).
Definition set_questions (refresh : Q) (last_id : option string) (q : gmap string (option json)) (s : WorkerSession) : WorkerSession :=
  Session (ws_max_generation s) (ws_generation s) (ws_cursor s) (ws_inflight s) (ws_send_not_before s) (ws_batch_seq s) (ws_pending_pongs s)
    (ws_close_reason s) refresh last_id q.

(** ** The cursor protocol *)

(** [deque(maxlen=64).append] drops the oldest entry of a full deque. *)
Definition append_bounded (x : Z) (l : list Z) : list Z := drop (length l + 1 - 64) (l ++ [x]).
Definition ping (fences : Z) (s : WorkerSession) : WorkerSession := set_pongs (append_bounded fences (ws_pending_pongs s)) s.
Definition barrier_fence (s : WorkerSession) : Z := match ws_inflight s with Some b => if_seq b | None => 0 end.
Definition barrier_ping (s : WorkerSession) : WorkerSession := ping (barrier_fence s) s.

Definition _pong (s : WorkerSession) : WorkerSession :=
  let fenced := match ws_pending_pongs s with f :: _ => f | [] => 0 end in
  let s := set_pongs (tail (ws_pending_pongs s)) s in
  match ws_inflight s with
  | Some b => if negb (fenced =? 0) && (if_seq b =? fenced) then set_replication (Some (if_through b)) None s else s
  | None => s
  end.
Definition _nack (expected_after : Z) (s : WorkerSession) : WorkerSession :=
  match ws_inflight s with
  | None => s
  | Some b => if expected_after =? if_after b then s else set_replication (Some expected_after) None s
  end.
(** The [welcome] branch of [handle]; true when the generation is accepted. *)
Definition handle_welcome (generation event_cursor : Z) (s : WorkerSession) : bool * WorkerSession :=
  if generation <=? ws_max_generation s then
    (false, Session (ws_max_generation s) (ws_generation s) (ws_cursor s) (ws_inflight s) (ws_send_not_before s) (ws_batch_seq s) (ws_pending_pongs s)
       (Some "stale generation in welcome"%string) (ws_last_question_refresh s) (ws_last_question_mission_id s) (ws_mission_questions s))
  else
    (true, Session generation generation (Some event_cursor) None 0 (ws_batch_seq s) []
       (ws_close_reason s) (ws_last_question_refresh s) (ws_last_question_mission_id s) (ws_mission_questions s)).
(** What [run] resets before it says hello on a new connection. *)
Definition new_connection (s : WorkerSession) : WorkerSession :=
  Session (ws_max_generation s) 0 None None (ws_send_not_before s) (ws_batch_seq s) (ws_pending_pongs s)
    None (ws_last_question_refresh s) (ws_last_question_mission_id s) (ws_mission_questions s).

(** ** Batches *)

Record batch : Type := Batch { b_after : Z; b_through : Z; b_events : list event_row; b_missions : list json }.
Inductive worker_exn : Type := WKeyError | WProtocolError (e : proto_exn).

Section batches.
Context (event_json : event_row -> json) (timestamp : Z -> json) (float_repr : pyfloat -> string) (worker_id message_id : string).
Context (provider_question : database -> string -> option json).

(** [len(json.dumps(event, separators=(",", ":")))] *)
Definition event_weight (e : event_row) : Z := slen (json_text true float_repr (event_json e)).

(** A refresh of a mission that a newer one supersedes; the code remembers the
    newest id of each mission it asked for. *)
Definition superseded (d : database) (e : event_row) : bool :=
  bool_decide (e_kind e ∈ LATEST_ONLY_EVENT_KINDS) && truthy_str (e_mission e) &&
  (e_id e <? latest_event_id (e_mission e) [e_kind e] d).
Definition skipped (d : database) (e : event_row) : bool := bool_decide (e_kind e ∈ UNREPLICATED_EVENT_KINDS) || superseded d e.
Definition batch_full (selected : list event_row) (size weight : Z) : bool :=
  negb (bool_decide (selected = [])) &&
  ((Z.min EVENT_BATCH MAX_EVENTS_PER_BATCH <=? Z.of_nat (length selected)) || (EVENT_BATCH_BYTES <? size + weight)).

Fixpoint scan_loop (d : database) (selected : list event_row) (size through : Z) (rows : list event_row) : list event_row * Z :=
  match rows with
  | [] => (selected, through)
  | event :: rows' =>
      if skipped d event then scan_loop d selected size (e_id event) rows'
      else
        let weight := event_weight event in
        if batch_full selected size weight then (selected, through)
        else scan_loop d (selected ++ [event]) (size + weight) (e_id event) rows'
  end.
(** [store.events_since(after, limit)] of a legal limit. *)
Definition scanned_rows (after : Z) (d : database) : list event_row :=
  limited (Some (Z.min EVENT_SCAN_ROWS 1000)) (sort_by event_order (select (fun e => after <? e_id e) (events d))).
Definition _replicable_events (d : database) (after : Z) : list event_row * Z := scan_loop d [] 0 after (scanned_rows after d).

(** ** Mission summaries *)

Definition native_tui (row : mission_row) : bool := bool_decide (dget "native_tui" (m_config row) = Some (JBool true)).
Definition running_native (row : mission_row) : bool := bool_decide (m_status row = M_RUNNING) && native_tui row.
Definition folder_name (cwd : string) : string :=
  match last (path_parts cwd) with Some n => if bool_decide (n = "/"%string) then EmptyString else n | None => EmptyString end.

Definition _mission_summary (d : database) (row : mission_row) (s : WorkerSession) : json * WorkerSession :=
  let summary := [("id"%string, JStr (m_id row)); ("name"%string, JStr (m_name row)); ("status"%string, JStr (MissionStatus_str (m_status row)));
                  ("folder"%string, JStr (folder_name (m_cwd row))); ("updated_at"%string, timestamp (m_updated_at row))] in
  let questions q := set_questions (ws_last_question_refresh s) (ws_last_question_mission_id s) q s in
  if running_native row then
    let question := provider_question d (m_id row) in
    (JObj (summary ++ [("needs_you"%string, default JNull question)]), questions (<[m_id row := question]> (ws_mission_questions s)))
  else match ws_mission_questions s !! m_id row with
       | Some _ => (JObj (summary ++ [("needs_you"%string, JNull)]), questions (delete (m_id row) (ws_mission_questions s)))
       | None => (JObj summary, s)
       end.

Fixpoint rotate_after (last_id : string) (rows : list mission_row) : option (list mission_row) :=
  match rows with
  | [] => None
  | r :: rows' => if str_ltb last_id (m_id r) then Some rows else rotate_after last_id rows'
  end.
(** The rows from the first id after the last one asked, then the others. *)
Definition _question_refresh_batch (rows : list mission_row) (last_id : option string) : list mission_row * option string :=
  let ordered := sort_by (fun a b => str_leb (m_id a) (m_id b)) rows in
  match ordered with
  | [] => ([], last_id)
  | _ =>
      let rotated := match last_id with
                     | Some l => match rotate_after l ordered with
                                 | Some rest => rest ++ take (length ordered - length rest) ordered
                                 | None => ordered
                                 end
                     | None => ordered
                     end in
      let chosen := take MAX_QUESTION_MISSIONS_PER_REFRESH rotated in
      (chosen, m_id <$> last chosen)
  end.

(** [candidate_rows.update(...)] keeps the position of a known key. *)
Definition add_candidate (rows : list mission_row) (row : mission_row) : list mission_row :=
  if existsb (fun r => bool_decide (m_id r = m_id row)) rows
  then (fun r => if bool_decide (m_id r = m_id row) then row else r) <$> rows else rows ++ [row].

Fixpoint summary_loop (d : database) (event_mission_ids : list string) (rows : list mission_row) (s : WorkerSession) : list json * WorkerSession :=
  match rows with
  | [] => ([], s)
  | row :: rows' =>
      let previous := default None (ws_mission_questions s !! m_id row) in
      let '(summary, s) := _mission_summary d row s in
      let current := default None (ws_mission_questions s !! m_id row) in
      let '(missions, s) := summary_loop d event_mission_ids rows' s in
      (if bool_decide (m_id row ∈ event_mission_ids) || negb (bool_decide (current = previous)) then summary :: missions else missions, s)
  end.

(** [store.get_mission] of every id; an unknown one is a [KeyError]. *)
Fixpoint get_missions (d : database) (ids : list string) : option (list mission_row) :=
  match ids with
  | [] => Some []
  | i :: ids' => row ← find_mission i d; rows ← get_missions d ids'; Some (row :: rows)
  end.

Definition batch_message (s : WorkerSession) (b : batch) : Message :=
  Msg "events" worker_id (ws_generation s)
    [("after"%string, JInt (b_after b)); ("through"%string, JInt (b_through b)); ("events"%string, JList (event_json <$> b_events b));
     ("mission_cursor"%string, JInt (b_through b)); ("missions"%string, JList (b_missions b))] message_id (JInt PROTOCOL_VERSION).

(** The session once the batch is counted as sent; its rate cap needs the
    encoded size, so a message over the limit raises after the batch is
    marked in flight. *)
Definition mark_inflight (moment : Q) (b : batch) (s : WorkerSession) : result worker_exn (option batch) * WorkerSession :=
  let s := Session (ws_max_generation s) (ws_generation s) (ws_cursor s) (Some (InFlight (ws_batch_seq s + 1) (b_after b) (b_through b))) (ws_send_not_before s)
             (ws_batch_seq s + 1) (ws_pending_pongs s) (ws_close_reason s) (ws_last_question_refresh s) (ws_last_question_mission_id s) (ws_mission_questions s) in
  match encode float_repr (batch_message s b) with
  | Raise e => (Raise (WProtocolError e), s)
  | Ok text =>
      (Ok (Some b), Session (ws_max_generation s) (ws_generation s) (ws_cursor s) (ws_inflight s)
         (moment + inject_Z (slen text) / inject_Z EVENT_RATE_BYTES_PER_SECOND)%Q (ws_batch_seq s) (ws_pending_pongs s) (ws_close_reason s)
         (ws_last_question_refresh s) (ws_last_question_mission_id s) (ws_mission_questions s))
  end.

Definition next_events (moment : Q) (d : database) (s : WorkerSession) : result worker_exn (option batch) * WorkerSession :=
  match ws_cursor s, ws_inflight s with
  | Some cursor, None =>
      if negb (Qle_bool (ws_send_not_before s) moment) then (Ok None, s)
      else
        let '(evs, through) := _replicable_events d cursor in
        let refresh_questions := Qle_bool MISSION_QUESTION_REFRESH_SECS (moment - ws_last_question_refresh s)%Q in
        if (through =? cursor) && negb refresh_questions then (Ok None, s)
        else
          let event_mission_ids := List.filter truthy_str (e_mission <$> evs) in
          match get_missions d (sort_by str_leb (remove_dups event_mission_ids)) with
          | None => (Raise WKeyError, s)
          | Some rows =>
              let '(rows, s) :=
                if refresh_questions then
                  let '(active, last_id) := _question_refresh_batch (select running_native (list_missions d)) (ws_last_question_mission_id s) in
                  (foldl add_candidate rows active, set_questions moment last_id (ws_mission_questions s) s)
                else (rows, s) in
              let '(missions, s) := summary_loop d event_mission_ids rows s in
              if (through =? cursor) && bool_decide (missions = []) then (Ok None, s)
              else mark_inflight moment (Batch cursor through evs missions) s
          end
  | _, _ => (Ok None, s)
  end.
End batches.
