(* ===== verification/ReplicationLog.v ===== *)
(** * What a batch carries ([bridge_worker.py], [_replicable_events])

    The facts event replication needs of the log: how every store method may
    change it, and which of its events one batch accounts for. *)

From S2P Require Import Prelude Py Vocab StoreData StoreTasks StoreOps StoreReview StoreLog StoreApi StoreDemo StoreCounts StoreKeys StoreLogs Protocol Worker.
From stdpp Require Import options.
Local Open Scope Z_scope.

(** ** How the log evolves *)

Definition log_ok (d : database) : Prop :=
  StronglySorted Z.lt (e_id <$> events d) /\ (forall e, e ∈ events d -> 1 <= e_id e <= event_seq d) /\ 0 <= event_seq d.

Lemma log_ok_reachable d : reachable d -> log_ok d.
Proof. intros H%keys_ok_reachable. split_and!; apply H. Qed.

(** The event, or a newer one of its mission and kind, is still there. *)
Definition survives (d' : database) (e : event_row) : Prop :=
  exists e', e' ∈ events d' /\ e_mission e' = e_mission e /\ e_kind e' = e_kind e /\ e_id e <= e_id e'.

Definition evolves (d d' : database) : Prop :=
  event_seq d <= event_seq d' /\
  (forall e', e' ∈ events d' -> e_id e' <= event_seq d -> exists e, e ∈ events d /\ e_identity e = e_identity e') /\
  forall e, e ∈ events d -> survives d' e.
Definition evolving (d d' : database) : Prop := log_ok d -> log_ok d' /\ evolves d d'.

#[export] Instance evolves_preorder : PreOrder evolves.
Proof.
  split.
  - intros d. split_and!; [lia|eauto|]. intros e He. exists e. split_and!; auto; lia.
  - intros d d1 d2 (S1 & B1 & F1) (S2 & B2 & F2). split_and!; [lia| |].
    + intros e2 He2 Hle. destruct (B2 e2 He2) as (e1 & He1 & E1); [lia|].
      destruct (B1 e1 He1) as (e & He & E). { injection E1 as -> ?. done. } exists e. split; [done|congruence].
    + intros e He. destruct (F1 e He) as (e1 & He1 & M1 & K1 & L1). destruct (F2 e1 He1) as (e2 & He2 & M2 & K2 & L2).
      exists e2. split_and!; [done|congruence|congruence|lia].
Qed.
#[export] Instance evolving_preorder : PreOrder evolving.
Proof.
  split; [intros d Hd; by split|]. intros d d1 d2 H1 H2 Hd.
  destruct (H1 Hd) as [Hd1 E1]. destruct (H2 Hd1) as [Hd2 E2]. split; [done|by etrans].
Qed.

Lemma StronglySorted_seqZ (m : Z) (n : nat) : StronglySorted Z.lt (seqZ m (Z.of_nat n)).
Proof.
  revert m. induction n as [|n IH]; intros m; [constructor|]. rewrite seqZ_cons by lia.
  replace (Z.pred (Z.of_nat (S n))) with (Z.of_nat n) by lia. constructor; [apply IH|].
  apply Forall_forall. intros x Hx%elem_of_seqZ. lia.
Qed.

Lemma grows_evolving d d' : log_grows d d' -> evolving d d'.
Proof.
  intros (new & E & I & S) (Hs & Hb & H0).
  assert (Hnew : forall e, e ∈ new -> event_seq d < e_id e <= event_seq d').
  { intros e He. apply (list_elem_of_fmap_2 e_id) in He. rewrite I in He. apply elem_of_seqZ in He. lia. }
  split; [split_and!; [| |lia]|split_and!; [lia| |]]; unfold survives; rewrite E.
  - rewrite fmap_app. apply StronglySorted_app_2; [|done|by rewrite I; apply StronglySorted_seqZ].
    intros x y (e & -> & He)%list_elem_of_fmap (e' & -> & He')%list_elem_of_fmap.
    specialize (Hb e He). specialize (Hnew e' He'). lia.
  - intros e [He|He]%elem_of_app; [specialize (Hb e He)|specialize (Hnew e He)]; lia.
  - intros e' [He|He]%elem_of_app Hle; [eauto|]. specialize (Hnew e' He). lia.
  - intros e He. exists e. split_and!; auto; [set_solver|lia].
Qed.

Lemma pruned_evolving m hb cb d d' : pruned m hb cb d d' -> evolving d d'.
Proof.
  intros Hp (Hs & Hb & H0). destruct (Hp Hs) as (l & -> & Hsub & Hsl & Hr). split; [split_and!|split_and!]; cbn; [done| |lia|lia| |].
  - intros e He. apply Hb. by eapply elem_of_submseteq, sublist_submseteq.
  - intros e He _. exists e. split; [by eapply elem_of_submseteq, sublist_submseteq|done].
  - intros e He. destruct (Hr e He) as [Hl|[((M & K) & _ & e' & He' & (M' & K') & L)|((M & K) & _ & e' & He' & (M' & K') & L & _)]].
    + exists e. split_and!; auto; lia.
    + exists e'. cbn. split_and!; [done|congruence|congruence|lia].
    + exists e'. cbn. split_and!; [done|congruence|congruence|lia].
Qed.

Lemma rewritten_evolving p f d : (forall e, e_identity (f e) = e_identity e) -> evolving d (set_events (update_where p f (events d)) d).
Proof.
  intros Hf (Hs & Hb & H0).
  assert (Hid : forall e, e_id (f e) = e_id e) by (intros e; by injection (Hf e)).
  split; [split_and!|split_and!]; cbn; [|  |lia|lia| |].
  - rewrite (update_where_map e_id); auto.
  - intros e (e0 & He & ->)%elem_of_update_where. case_match; rewrite ?Hid; auto.
  - intros e' (e & He & ->)%elem_of_update_where _. exists e. split; [done|]. case_match; [by rewrite Hf|done].
  - intros e He. exists (if p e then f e else e). split_and!.
    + apply elem_of_update_where. eauto.
    + case_match; [by injection (Hf e)|done].
    + case_match; [by injection (Hf e)|done].
    + case_match; [rewrite Hid|]; lia.
Qed.

Lemma keeps_mono {A} (R R' : database -> database -> Prop) (m : DB A) :
  (forall d d', R d d' -> R' d d') -> keeps (dbrel R) m -> keeps (dbrel R') m.
Proof. intros HR Hm w. apply HR, Hm. Qed.

Section ops.
Context `{Oracle} `{SE : SqlErrors}.

Lemma prune_evolving m now hk ck chunk budget : keeps (dbrel evolving) (prune_plumbing_events m now hk ck chunk budget).
Proof.
  assert (Hb : forall n c dl del k, keeps (dbrel evolving) (prune_heartbeats n m k c dl del)).
  { intros. eapply keeps_mono; [|apply (pruned_prune_heartbeats m k 0)]. apply pruned_evolving. }
  assert (Hr : forall n c dl l del k, keeps (dbrel evolving) (prune_refreshes n m k c dl l del)).
  { intros. eapply keeps_mono; [|apply (pruned_prune_refreshes m 0 k)]. apply pruned_evolving. }
  unfold prune_plumbing_events, _mission_row. solve_db_keeps; eauto.
Qed.

Lemma refresh_evolving i data : keeps (dbrel evolving) (refresh_runtime_event i data).
Proof.
  unfold refresh_runtime_event. solve_db_keeps. intros d. by apply rewritten_evolving.
Qed.

Lemma run_op_evolving o : keeps (dbrel evolving) (run_op o).
Proof.
  destruct (rewrites_log o) eqn:E; [|eapply keeps_mono; [apply grows_evolving|by apply log_run_op]].
  destruct o; try done; cbn [run_op].
  - apply keeps_ignore; [exact _|apply prune_evolving].
  - apply keeps_ignore; [exact _|apply refresh_evolving].
Qed.
End ops.

(** Every call of the store, whatever its outcome. *)
Lemma call_evolves d d' : reachable d -> call d d' -> evolves d d'.
Proof. intros Hr [O F o tick <-]. apply (run_op_evolving o (World d tick)). by apply log_ok_reachable. Qed.

(** ** The newest event of a kind *)

Lemma latest_event_sorted m k d : log_ok d -> latest_event m k d = last (mission_events m k d).
Proof.
  intros (Hs & _). unfold latest_event. rewrite (sort_by_in_order event_order); [done|].
  apply sorted_in_order. unfold mission_events. by apply StronglySorted_select.
Qed.

Lemma sorted_last (l : list event_row) x e : StronglySorted Z.lt (e_id <$> l) -> last l = Some x -> e ∈ l -> e_id e <= e_id x.
Proof.
  intros Hs (l' & ->)%last_Some He. rewrite fmap_app in Hs. apply elem_of_app in He as [He|He].
  - enough (e_id e < e_id x) by lia. eapply StronglySorted_app_1_elem_of; [exact Hs|by apply list_elem_of_fmap_2|apply list_elem_of_here].
  - apply list_elem_of_singleton in He as ->. lia.
Qed.

Lemma latest_event_id_spec m k d : log_ok d ->
  (forall e, e ∈ events d -> e_mission e = m -> e_kind e = k -> e_id e <= latest_event_id m [k] d) /\
  (0 < latest_event_id m [k] d ->
   exists e, e ∈ events d /\ e_mission e = m /\ e_kind e = k /\ e_id e = latest_event_id m [k] d).
Proof.
  intros Hok. pose proof Hok as (Hs & Hb & _). unfold latest_event_id. cbn [foldl]. rewrite latest_event_sorted by done.
  destruct (last (mission_events m k d)) as [x|] eqn:E.
  - assert (Hx : x ∈ mission_events m k d) by (apply last_Some in E as (l & ->); set_solver).
    pose proof Hx as (Hx1 & Hx2 & Hx3)%elem_of_mission_events. specialize (Hb x Hx1). split.
    + intros e He Hm Hk. enough (e_id e <= e_id x) by lia. eapply sorted_last; [|exact E|by apply elem_of_mission_events].
      unfold mission_events. by apply StronglySorted_select.
    + intros _. exists x. split_and!; auto. lia.
  - apply last_None in E. split; [|lia]. intros e He Hm Hk. exfalso.
    assert (H : e ∈ mission_events m k d) by (by apply elem_of_mission_events). rewrite E in H. by apply not_elem_of_nil in H.
Qed.

(** Superseded: a newer refresh of the same mission is in the log. *)
Lemma superseded_iff d e : log_ok d -> 0 <= e_id e ->
  superseded d e = true <->
  e_kind e = "capacity-refresh"%string /\ e_mission e ≠ ""%string /\
  exists e', e' ∈ events d /\ e_mission e' = e_mission e /\ e_kind e' = e_kind e /\ e_id e < e_id e'.
Proof.
  intros Hok Hpos. unfold superseded, truthy_str. rewrite !andb_true_iff, bool_decide_eq_true, negb_true_iff, bool_decide_eq_false, Z.ltb_lt.
  destruct (latest_event_id_spec (e_mission e) (e_kind e) d Hok) as [Hle Hex]. unfold LATEST_ONLY_EVENT_KINDS; cbn [EventKind_str]. rewrite list_elem_of_singleton.
  split.
  - intros [[Hk Hm] Hlt]. split_and!; [done|done|]. destruct (Hex ltac:(lia)) as (e' & ? & ? & ? & ?). exists e'. split_and!; auto; lia.
  - intros (Hk & Hm & e' & He' & M & K & L). split; [done|]. specialize (Hle e' He' M K). lia.
Qed.

Lemma skipped_identity d e e' : e_identity e = e_identity e' -> skipped d e = skipped d e'.
Proof. intros [= E1 E2 _ _ E3]. unfold skipped, superseded. by rewrite E1, E2, E3. Qed.

(** What one batch need not carry, no later one needs to. *)
Lemma skipped_stays d d' e : log_ok d -> log_ok d' -> evolves d d' -> 0 <= e_id e -> skipped d e = true -> skipped d' e = true.
Proof.
  intros Hok Hok' (_ & _ & Hs) Hpos. unfold skipped. rewrite !orb_true_iff. intros [Hk|Hsup]; [by left|right].
  apply superseded_iff in Hsup as (Hk & Hm & e1 & H1 & M1 & K1 & L1); [|done..]. apply superseded_iff; [done..|].
  destruct (Hs e1 H1) as (e2 & H2 & M2 & K2 & L2). split_and!; [done|done|]. exists e2. split_and!; [done|congruence|congruence|lia].
Qed.

(** ** One scan *)

Section scan.
Context (event_json : event_row -> json) (float_repr : pyfloat -> string) (d : database).
Local Abbreviation weight := (event_weight event_json float_repr).
Local Abbreviation scan := (scan_loop event_json float_repr d).
Local Abbreviation wanted := (select (fun e => negb (skipped d e))).

(** The rows a scan got through: what it selected, and where it stopped. *)
Lemma scan_loop_spec selected size through rows :
  exists pre suf, rows = pre ++ suf /\
    scan selected size through rows = (selected ++ wanted pre, default through (e_id <$> last pre)) /\
    match suf with
    | [] => True
    | e :: _ => skipped d e = false /\ batch_full (selected ++ wanted pre) (size + sumZ weight (wanted pre)) (weight e) = true
    end.
Proof.
  revert selected size through. induction rows as [|e rows IH]; intros selected size through; cbn [scan_loop].
  - exists [], []. cbn. by rewrite app_nil_r.
  - destruct (skipped d e) eqn:Hsk.
    + destruct (IH selected size (e_id e)) as (pre & suf & -> & -> & Hend). exists (e :: pre), suf. cbn. rewrite Hsk; cbn.
      split_and!; [done| |done]. rewrite last_cons. by destruct (last pre).
    + destruct (batch_full selected size (weight e)) eqn:Hf.
      * exists [], (e :: rows). cbn. rewrite app_nil_r, Z.add_0_r. auto.
      * destruct (IH (selected ++ [e]) (size + weight e) (e_id e)) as (pre & suf & -> & -> & Hend). exists (e :: pre), suf.
        cbn. rewrite Hsk; cbn. rewrite <- app_assoc in *. cbn in *. split_and!; [done| |].
        -- rewrite last_cons. by destruct (last pre).
        -- destruct suf; [done|]. by rewrite Z.add_assoc.
Qed.

(** The caps: at most 25 events, and 16 KiB unless it is a single event. *)
Definition within_caps (selected : list event_row) : Prop :=
  Z.of_nat (length selected) <= EVENT_BATCH /\ (sumZ weight selected <= EVENT_BATCH_BYTES \/ length selected = 1%nat).

Lemma scan_loop_caps selected through rows : within_caps selected ->
  within_caps (scan selected (sumZ weight selected) through rows).1.
Proof.
  revert selected through. induction rows as [|e rows IH]; intros selected through Hc; cbn [scan_loop]; [done|].
  destruct (skipped d e); [by apply IH|]. destruct (batch_full _ _ _) eqn:Hf; [done|].
  specialize (IH (selected ++ [e]) (e_id e)). rewrite sumZ_app in IH. cbn in IH. rewrite Z.add_0_r in IH. apply IH.
  unfold within_caps. rewrite length_app, sumZ_app. cbn. unfold batch_full in Hf.
  apply andb_false_iff in Hf as [Hf|Hf].
  - apply negb_false_iff, bool_decide_eq_true in Hf as ->. cbn. split; [done|by right].
  - apply orb_false_iff in Hf as [H1%Z.leb_gt H2%Z.ltb_ge]. unfold EVENT_BATCH, MAX_EVENTS_PER_BATCH in *. lia.
Qed.
End scan.

Definition in_batch (after through : Z) (d : database) (e : event_row) : bool :=
  (after <? e_id e) && (e_id e <=? through) && negb (skipped d e).

Lemma select_app {A} (p : A -> bool) l k : select p (l ++ k) = select p l ++ select p k.
Proof. apply List.filter_app. Qed.
Lemma select_none {A} (p : A -> bool) l : (forall a, a ∈ l -> p a = false) -> select p l = [].
Proof. induction l as [|a l IH]; intros H; cbn; [done|]. rewrite (H a ltac:(set_solver)). apply IH. set_solver. Qed.
Lemma select_and {A} (p q r : A -> bool) l : (forall a, a ∈ l -> r a = p a && q a) -> select r l = select q (select p l).
Proof.
  unfold select. induction l as [|a l IH]; intros H; cbn; [done|]. rewrite (H a ltac:(set_solver)), (IH ltac:(set_solver)). by destruct (p a).
Qed.

Lemma sorted_split (pre suf : list event_row) e z : StronglySorted Z.lt (e_id <$> pre ++ suf) -> e_id <$> last pre = Some z ->
  (e ∈ pre -> e_id e <= z) /\ (e ∈ suf -> z < e_id e).
Proof.
  intros Hs Hl. destruct (last pre) as [x|] eqn:E; [injection Hl as <-|done]. rewrite fmap_app in Hs. split; intros He.
  - eapply sorted_last; [by eapply StronglySorted_app_1_l|done|done].
  - eapply StronglySorted_app_1_elem_of; [exact Hs| |by apply list_elem_of_fmap_2].
    apply list_elem_of_fmap_2. apply last_Some in E as (l & ->). set_solver.
Qed.

(** The rows [scanned_rows] leaves for a later scan. *)
Lemma scanned_rows_prefix d after : log_ok d ->
  exists rest, select (fun e => after <? e_id e) (events d) = scanned_rows after d ++ rest /\
    (scanned_rows after d = [] -> rest = []).
Proof.
  intros (Hs & _). unfold scanned_rows. rewrite (sort_by_in_order event_order) by (by apply sorted_in_order, StronglySorted_select).
  set (l := select _ _). unfold limited. set (n := Z.to_nat _).
  exists (drop n l). split; [by rewrite take_drop|]. intros E. destruct l as [|x l]; [by rewrite drop_nil|].
  subst n. cbn in E. discriminate.
Qed.

Section batches.
Context (event_json : event_row -> json) (float_repr : pyfloat -> string).

Lemma replicable_spec d after : log_ok d ->
  let '(selected, through) := _replicable_events event_json float_repr d after in
  after <= through /\ selected = select (in_batch after through d) (events d) /\
  (through = after <-> forall e, e ∈ events d -> e_id e <= after) /\
  (after < through -> exists e, e ∈ events d /\ e_id e = through) /\
  within_caps event_json float_repr selected.
Proof.
  intros Hok. pose proof Hok as (Hs & Hb & _).
  destruct (scanned_rows_prefix d after Hok) as (rest & Hrows & Hrest).
  pose proof (scan_loop_caps event_json float_repr d [] after (scanned_rows after d)) as Hcaps. cbn [sumZ] in Hcaps.
  unfold _replicable_events.
  destruct (scan_loop_spec event_json float_repr d [] 0 after (scanned_rows after d)) as (pre & suf & E & Hscan & Hend).
  rewrite Hscan in *. cbn [app] in *. rewrite E, <- app_assoc in Hrows. cbn zeta iota beta.
  assert (Hnew : forall e, e ∈ pre ++ suf ++ rest <-> e ∈ events d /\ after < e_id e).
  { intros e. rewrite <- Hrows, elem_of_select, Z.ltb_lt. done. }
  assert (Hsort : StronglySorted Z.lt (e_id <$> pre ++ suf ++ rest)) by (rewrite <- Hrows; by apply StronglySorted_select).
  assert (Hcut : forall e, e ∈ events d -> after < e_id e -> e ∈ pre <-> e_id e <= default after (e_id <$> last pre)).
  { intros e He Hlt. destruct (last pre) as [x|] eqn:El; cbn.
    - destruct (sorted_split pre (suf ++ rest) e (e_id x) Hsort) as [H1 H2]; [by rewrite El|].
      split; [done|]. intros Hle. pose proof (proj2 (Hnew e) (conj He Hlt)) as [?|H]%elem_of_app; [done|]. specialize (H2 H). lia.
    - apply last_None in El as ->. split; [by intros ?%not_elem_of_nil|lia]. }
  assert (Hlast : after < default after (e_id <$> last pre) \/ pre = [] /\ last pre = None).
  { destruct (last pre) as [x|] eqn:El; cbn; [left|right; by apply last_None in El].
    apply (Hnew x). apply last_Some in El as (l & ->). set_solver. }
  split_and!.
  - destruct Hlast as [?|[_ ->]]; cbn; lia.
  - rewrite (select_and (fun e => after <? e_id e) (fun e => (e_id e <=? default after (e_id <$> last pre)) && negb (skipped d e))
      (in_batch after (default after (e_id <$> last pre)) d)).
    2: { intros e _. unfold in_batch. by rewrite andb_assoc. }
    rewrite Hrows, select_app, (select_none _ (suf ++ rest)), app_nil_r.
    + rewrite (select_and (fun e => e_id e <=? default after (e_id <$> last pre)) (fun e => negb (skipped d e))
        (fun e => (e_id e <=? default after (e_id <$> last pre)) && negb (skipped d e))) by done.
      f_equal. symmetry. apply select_all. intros e He. apply Z.leb_le.
      apply Hcut; [apply (Hnew e); set_solver..|done].
    + intros e He. apply andb_false_iff. left. apply Z.leb_gt.
      destruct (Hnew e) as [Hin _]. destruct Hin as [Hin Hlt]; [set_solver|].
      apply Z.lt_nge. intros Hle. apply Hcut in Hle; [|done..].
      destruct (last pre) as [x|] eqn:El; [|apply last_None in El as ->; by apply not_elem_of_nil in Hle].
      destruct (sorted_split pre (suf ++ rest) e (e_id x) Hsort) as [H1 H2]; [by rewrite El|].
      specialize (H1 Hle). specialize (H2 He). lia.
  - split.
    + intros Hz. destruct Hlast as [?|[-> _]]; [lia|]. cbn in *.
      assert (suf = []) as ->. { destruct suf; [done|]. by destruct Hend as [_ Hf]. }
      rewrite Hrest in * by done. intros e He. apply Z.le_ngt. intros Hlt. by apply (not_elem_of_nil e), Hnew.
    + intros H. destruct Hlast as [Hlt|[_ ->]]; [|done]. destruct (last pre) as [x|] eqn:El; cbn in *; [|done].
      assert (Hx : x ∈ events d) by (apply (Hnew x); apply last_Some in El as (l & ->); set_solver). specialize (H x Hx). lia.
  - intros Hlt. destruct (last pre) as [x|] eqn:El; cbn in *; [|lia]. exists x. split; [|done].
    apply (Hnew x). apply last_Some in El as (l & ->). set_solver.
  - apply Hcaps. unfold within_caps. cbn. split; [done|by left].
Qed.
End batches.

(** A batch accounts for the event log exactly: on every reachable
    database it carries, in order, precisely the events between the cursor and
    the new cursor that are not heartbeats or superseded capacity refreshes;
    the cursor never moves back, moves whenever anything newer is in the log,
    and stops at an event of the log; and a batch holds at most 25 events and
    16 KiB, or a single larger event. *)
Theorem batch_accounts_for_log (event_json : event_row -> json) (float_repr : pyfloat -> string) (d : database) (after : Z) :
  reachable d ->
  let '(selected, through) := _replicable_events event_json float_repr d after in
  after <= through /\ selected = select (in_batch after through d) (events d) /\
  (through = after <-> forall e, e ∈ events d -> e_id e <= after) /\
  (after < through -> exists e, e ∈ events d /\ e_id e = through) /\
  within_caps event_json float_repr selected.
Proof. intros Hr. by apply replicable_spec, log_ok_reachable. Qed.

(** Of two heartbeats and three refreshes of a mission, only the newest refresh goes. *)
Lemma batch_accounts_for_log_witness :
  (let '(selected, through) := _replicable_events (fun _ => JNull) (fun _ => EmptyString) (w_db log_world) 1 in
   1 <= through /\ selected = select (in_batch 1 through (w_db log_world)) (events (w_db log_world))) /\
  (let '(selected, through) := _replicable_events (fun _ => JNull) (fun _ => EmptyString) (w_db log_world) 1 in
   (e_id <$> selected, through)) = ([6], 7).
Proof.
  split; [|vm_compute; reflexivity].
  pose proof (batch_accounts_for_log (fun _ => JNull) (fun _ => EmptyString) (w_db log_world) 1 log_world_reachable) as H.
  destruct (_replicable_events _ _ _ _) as [selected through]. destruct H as (H1 & H2 & _). split; [exact H1|exact H2].
Defined.
