(* ===== verification/Replication.v ===== *)
(** * Event replication between a worker and the coordinator

    The worker session of [bridge_worker.py] against the coordinator of
    [src/coordinator/src] over connections that deliver in order but may break
    at any time, while the controllers keep writing to the worker's database.
    Messages that neither side's replication state depends on (commands,
    results, terminal statuses, errors) are left out. *)

From Stdlib Require Import QArith.
From S2P Require Import Prelude Py Vocab StoreData StoreTasks StoreOps StoreReview StoreLog StoreApi StoreDemo StoreCounts StoreKeys StoreLogs Protocol Worker ReplicationLog.
From stdpp Require Import options.
Local Open Scope Z_scope.

(** ** The coordinator ([db.rs], [ws_worker.rs]) *)

(** The row of one worker, its stored events and mission summaries. *)
Record coordinator : Type := Coordinator {
  co_generation : Z;
  co_cursor : Z;
  co_mission_cursor : Z;
  co_events : list event_row;
  co_missions : list (string * json);
}.

Definition insert_or_replace (e : event_row) (l : list event_row) : list event_row :=
  select (fun x => negb (e_id x =? e_id e)) l ++ [e].
Definition mission_key (m : json) : option string :=
  match m with JObj d => match dget "id" d with Some (JStr i) => Some i | _ => None end | _ => None end.
Definition store_mission (l : list (string * json)) (m : json) : list (string * json) :=
  match mission_key m with Some i => List.filter (fun x => negb (bool_decide (x.1 = i))) l ++ [(i, m)] | None => l end.

(** The DELETE that keeps the newest [max] events. *)
Definition retire (max : nat) (l : list event_row) : list event_row :=
  match sort_by newest_first l !! max with
  | Some e => select (fun x => negb (e_id x <=? e_id e)) l
  | None => l
  end.

Definition events_store (max : nat) (b : batch) (c : coordinator) : option Z * coordinator :=
  if negb (b_after b =? co_cursor c) then (Some (co_cursor c), c)
  else (None, Coordinator (co_generation c) (b_through b) (b_through b)
                (retire max (foldl (fun l e => insert_or_replace e l) (co_events c) (b_events b)))
                (foldl store_mission (co_missions c) (b_missions b))).

(** A hello takes the next generation and replaces the mission index. *)
Definition worker_hello (missions : list json) (c : coordinator) : coordinator :=
  Coordinator (co_generation c + 1) (co_cursor c) (co_cursor c) (co_events c) (foldl store_mission [] missions).

(** ** Messages *)

(** A ping carries no data; [fence] is the number [ping] queued for it and
    stands for its position on the connection.  No handler reads it. *)
Inductive up_msg : Type := UEvents (generation : Z) (b : batch) | UPing (generation fence : Z).
Inductive down_msg : Type := DWelcome (generation cursor : Z) | DNack (expected_after : Z) | DPong (fence : Z).

(** [handle] of the coordinator, on the connection of one generation. *)
Definition coordinator_handle (max : nat) (generation : Z) (m : up_msg) (c : coordinator) : list down_msg * coordinator :=
  match m with
  | UPing g f => (if g =? generation then [DPong f] else [], c)
  | UEvents g b =>
      if g =? generation then
        let '(nack, c) := events_store max b c in
        (match nack with Some z => [DNack z] | None => [] end, c)
      else ([], c)
  end.

(** [WorkerSession.handle] on the messages above; false when it asks to close. *)
Definition worker_handle (m : down_msg) (s : WorkerSession) : bool * WorkerSession :=
  match m with
  | DWelcome g z => handle_welcome g z s
  | DPong _ => (true, if ws_generation s =? 0 then s else _pong s)
  | DNack z => (true, if ws_generation s =? 0 then s else _nack z s)
  end.

(** ** The system *)

Record system : Type := System {
  sy_db : database;
  sy_worker : WorkerSession;
  sy_coordinator : coordinator;
  sy_up : list up_msg;
  sy_down : list down_msg;
  sy_stale : list (Z * up_msg);
}.

Section system.
Context (event_json : event_row -> json) (timestamp : Z -> json) (float_repr : pyfloat -> string) (worker_id : string).
Context (provider_question : database -> string -> option json) (max : nat).

Definition worker_events (message_id : string) : Q -> database -> WorkerSession -> result worker_exn (option batch) * WorkerSession :=
  next_events event_json timestamp float_repr worker_id message_id provider_question.

(** One step.  [stale] holds what was sent on earlier connections: the
    coordinator may still read any of it, under that connection's generation,
    and its answers go nowhere.  Fewer than 64 pings are unanswered at a time. *)
Inductive sstep (y : system) : system -> Prop :=
  | step_store d' : call (sy_db y) d' ->
      sstep y (System d' (sy_worker y) (sy_coordinator y) (sy_up y) (sy_down y) (sy_stale y))
  | step_events message_id moment b s' :
      worker_events message_id moment (sy_db y) (sy_worker y) = (Ok (Some b), s') ->
      (length (ws_pending_pongs s') < 64)%nat ->
      sstep y (System (sy_db y) (barrier_ping s') (sy_coordinator y)
                 (sy_up y ++ [UEvents (ws_generation s') b; UPing (ws_generation s') (barrier_fence s')]) (sy_down y) (sy_stale y))
  | step_no_events message_id moment s' :
      worker_events message_id moment (sy_db y) (sy_worker y) = (Ok None, s') ->
      sstep y (System (sy_db y) s' (sy_coordinator y) (sy_up y) (sy_down y) (sy_stale y))
  | step_ping : ws_generation (sy_worker y) ≠ 0 -> (length (ws_pending_pongs (sy_worker y)) < 64)%nat ->
      sstep y (System (sy_db y) (ping 0 (sy_worker y)) (sy_coordinator y)
                 (sy_up y ++ [UPing (ws_generation (sy_worker y)) 0]) (sy_down y) (sy_stale y))
  | step_coordinator m up :
      sy_up y = m :: up ->
      let rc := coordinator_handle max (co_generation (sy_coordinator y)) m (sy_coordinator y) in
      sstep y (System (sy_db y) (sy_worker y) rc.2 up (sy_down y ++ rc.1) (sy_stale y))
  | step_worker m down :
      sy_down y = m :: down ->
      sstep y (System (sy_db y) (worker_handle m (sy_worker y)).2 (sy_coordinator y) (sy_up y) down (sy_stale y))
  | step_stale g m before after :
      sy_stale y = before ++ (g, m) :: after ->
      sstep y (System (sy_db y) (sy_worker y) (coordinator_handle max g m (sy_coordinator y)).2 (sy_up y) (sy_down y) (before ++ after))
  | step_reconnect missions s' :
      (s' = sy_worker y \/ exists message_id moment e,
         worker_events message_id moment (sy_db y) (sy_worker y) = (Raise e, s')) ->
      let c := worker_hello missions (sy_coordinator y) in
      sstep y (System (sy_db y) (new_connection s') c [] [DWelcome (co_generation c) (co_cursor c)]
                 (sy_stale y ++ ((fun m => (co_generation (sy_coordinator y), m)) <$> sy_up y))).

Definition start (max_generation : Z) : system :=
  System empty_database (WorkerSession_init max_generation) (Coordinator 0 0 0 [] []) [] [] [].
Definition reachable_system (y : system) : Prop := exists g, rtc sstep (start g) y.

(** ** What [next_events] leaves alone *)

Definition replication (s : WorkerSession) : Z * Z * option Z * option InFlightBatch * Z * list Z :=
  (ws_max_generation s, ws_generation s, ws_cursor s, ws_inflight s, ws_batch_seq s, ws_pending_pongs s).

Lemma mission_summary_replication d row s :
  replication (_mission_summary timestamp provider_question d row s).2 = replication s.
Proof. unfold _mission_summary. by repeat case_match. Qed.
Lemma summary_loop_replication d ids rows s :
  replication (summary_loop timestamp provider_question d ids rows s).2 = replication s.
Proof.
  revert s. induction rows as [|row rows IH]; intros s; [done|]. cbn [summary_loop].
  pose proof (mission_summary_replication d row s) as H. destruct (_mission_summary _ _ _ _ _) as [m s1]. cbn in H.
  specialize (IH s1). destruct (summary_loop _ _ _ _ _ _) as [ms s2]. cbn in *. congruence.
Qed.

Definition sent (d : database) (s s' : WorkerSession) (b : batch) : Prop := exists c,
  ws_cursor s = Some c /\ ws_inflight s = None /\ b_after b = c /\
  _replicable_events event_json float_repr d c = (b_events b, b_through b) /\
  replication s' = (ws_max_generation s, ws_generation s, Some c, Some (InFlight (ws_batch_seq s + 1) c (b_through b)),
                    ws_batch_seq s + 1, ws_pending_pongs s).

Lemma worker_events_spec message_id moment d s r s' : worker_events message_id moment d s = (r, s') ->
  match r with
  | Ok (Some b) => sent d s s' b
  | Ok None => replication s' = replication s
  | Raise _ => ws_batch_seq s <= ws_batch_seq s'
  end.
Proof.
  unfold worker_events, next_events. destruct (ws_cursor s) as [c|] eqn:Ec; [|by intros [= <- <-]].
  destruct (ws_inflight s) as [b|] eqn:Ei; [by intros [= <- <-]|].
  destruct (negb _); [by intros [= <- <-]|]. destruct (_replicable_events _ _ _ _) as [evs through] eqn:Er.
  set (refresh := Qle_bool _ _). destruct (_ && negb refresh); [by intros [= <- <-]|].
  destruct (get_missions _ _) as [rows|]; [|intros [= <- <-]; cbn; lia].
  set (p := if refresh then _ else _).
  assert (Hp : replication p.2 = replication s).
  { unfold p. destruct refresh; [|done]. by destruct (_question_refresh_batch _ _). }
  destruct p as [rows1 s1]. cbn in Hp.
  pose proof (summary_loop_replication d (List.filter truthy_str (e_mission <$> evs)) rows1 s1) as Hl.
  destruct (summary_loop _ _ _ _ _ _) as [missions s2]. cbn in Hl.
  assert (H2 : replication s2 = replication s) by congruence.
  destruct (_ && _); [by intros [= <- <-]|]. unfold mark_inflight.
  injection H2 as H1 H2' H3 H4 H5 H6. destruct (encode _ _); intros [= <- <-].
  - exists c. cbn. rewrite H1, H2', H5, H6, H3, Ec. done.
  - cbn. lia.
Qed.
End system.

(** ** Batches and what the coordinator stores *)

Definition heartbeat (e : event_row) : Prop := e_kind e ∈ UNREPLICATED_EVENT_KINDS.
Definition same_event (l : list event_row) (e : event_row) : Prop := exists e', e' ∈ l /\ e_identity e' = e_identity e.

Record batch_ok (d : database) (b : batch) : Prop := {
  bo_range : b_after b <= b_through b <= event_seq d;
  bo_sorted : StronglySorted Z.lt (e_id <$> b_events b);
  bo_events : forall e, e ∈ b_events b -> b_after b < e_id e <= b_through b /\ ~ heartbeat e;
  bo_covers : forall e, e ∈ events d -> b_after b < e_id e <= b_through b -> skipped d e = false -> same_event (b_events b) e;
}.

(** The event is stored, or [max] newer ones are and it is retired. *)
Definition stored (max : nat) (c : coordinator) (e : event_row) : Prop :=
  same_event (co_events c) e \/ (length (co_events c) = max /\ forall e', e' ∈ co_events c -> e_id e < e_id e').

Record stored_ok (max : nat) (d : database) (c : coordinator) : Prop := {
  so_cursor : co_cursor c <= event_seq d;
  so_sorted : StronglySorted Z.lt (e_id <$> co_events c);
  so_events : forall e, e ∈ co_events c -> e_id e <= co_cursor c /\ ~ heartbeat e;
  so_length : (length (co_events c) <= max)%nat;
  so_covers : forall e, e ∈ events d -> e_id e <= co_cursor c -> skipped d e = false -> stored max c e;
}.

Lemma same_event_identity l e e' : e_identity e = e_identity e' -> same_event l e -> same_event l e'.
Proof. intros E (x & Hx & Ex). exists x. split; [done|congruence]. Qed.

(** Coverage up to a cursor survives every change of the log. *)
Lemma covers_evolves (P : event_row -> Prop) d d' lo hi : log_ok d -> log_ok d' -> evolves d d' -> hi <= event_seq d ->
  (forall e e', e_identity e = e_identity e' -> P e -> P e') ->
  (forall e, e ∈ events d -> lo < e_id e <= hi -> skipped d e = false -> P e) ->
  (forall e, e ∈ events d' -> lo < e_id e <= hi -> skipped d' e = false -> P e).
Proof.
  intros Hok Hok' Hev Hhi HP H e' He' Hr Hs. destruct (proj1 (proj2 Hev) e' He') as (e & He & E); [lia|].
  assert (Eid : e_id e = e_id e') by (by injection E). apply (HP e); [done|]. apply H; [done|lia|].
  rewrite (skipped_identity d e e') by done. destruct (skipped d e') eqn:K; [|done].
  rewrite (skipped_stays d d' e') in Hs; [done..| |done].
  destruct Hok' as (_ & Hb & _). specialize (Hb e' He'). lia.
Qed.

Lemma batch_ok_evolves d d' b : log_ok d -> log_ok d' -> evolves d d' -> batch_ok d b -> batch_ok d' b.
Proof.
  intros Hok Hok' Hev [H1 H2 H3 H4]. pose proof (proj1 Hev). split; [lia|done|done|].
  apply (covers_evolves _ d); [done..|lia|apply same_event_identity|done].
Qed.

Lemma stored_ok_evolves max d d' c : log_ok d -> log_ok d' -> evolves d d' -> stored_ok max d c -> stored_ok max d' c.
Proof.
  intros Hok Hok' Hev [H1 H2 H3 H4 H5]. pose proof (proj1 Hev). split; [lia|done|done|done|].
  intros e He Hle Hs. apply (covers_evolves (stored max c) d d' 0 (co_cursor c)); [done..| | |done| |done].
  - intros e1 e2 E [Hc|[Hl Hn]]; [left; by eapply same_event_identity|right]. split; [done|].
    assert (e_id e1 = e_id e2) as <- by (by injection E). done.
  - intros e1 He1 Hr Hs1. apply H5; [done|lia|done].
  - destruct Hok' as (_ & Hb & _). specialize (Hb e He). lia.
Qed.

Lemma sent_ok event_json float_repr d s s' b : log_ok d -> (forall c, ws_cursor s = Some c -> c <= event_seq d) ->
  sent event_json float_repr d s s' b -> batch_ok d b.
Proof.
  intros Hok Hc (c & Ec & _ & Ea & Er & _). pose proof (replicable_spec event_json float_repr d c Hok) as H. rewrite Er in H.
  destruct H as (H1 & H2 & _ & H3 & _). specialize (Hc c Ec). pose proof Hok as (Hs & Hb & _). split.
  - split; [lia|]. destruct (decide (c < b_through b)) as [Hlt|]; [|lia]. destruct (H3 Hlt) as (e & He & <-). by apply Hb.
  - rewrite H2. by apply StronglySorted_select.
  - intros e He. rewrite H2 in He. apply elem_of_select in He as [He Hi]. unfold in_batch in Hi. bool_to_prop.
    split; [lia|]. unfold heartbeat. unfold skipped in *. intros Hk. by rewrite bool_decide_true in * by done.
  - intros e He Hr Hs'. exists e. split; [|done]. rewrite H2. apply elem_of_select. split; [done|]. unfold in_batch.
    rewrite Hs', <- Ea. cbn. rewrite !andb_true_iff, Z.ltb_lt, Z.leb_le. done.
Qed.

(** ** The coordinator's table *)

Lemma inserts_append (es l : list event_row) : StronglySorted Z.lt (e_id <$> l ++ es) ->
  foldl (fun l e => insert_or_replace e l) l es = l ++ es.
Proof.
  revert l. induction es as [|e es IH]; intros l Hs; cbn; [by rewrite app_nil_r|].
  assert (E : insert_or_replace e l = l ++ [e]).
  { unfold insert_or_replace. f_equal. apply select_all. intros x Hx. apply negb_true_iff, Z.eqb_neq.
    rewrite fmap_app in Hs. enough (e_id x < e_id e) by lia.
    eapply StronglySorted_app_1_elem_of; [exact Hs|by apply list_elem_of_fmap_2|apply list_elem_of_here]. }
  rewrite E, IH, <- app_assoc; [done|]. by rewrite <- app_assoc.
Qed.

Lemma newest_first_reverse (l : list event_row) : StronglySorted Z.lt (e_id <$> l) -> sort_by newest_first l = reverse l.
Proof.
  induction l as [|x l IH] using rev_ind; intros Hs; [done|]. rewrite reverse_snoc. rewrite fmap_app in Hs.
  rewrite <- IH by (by eapply StronglySorted_app_1_l). clear IH.
  assert (Hx : forall y, y ∈ l -> e_id y < e_id x).
  { intros y Hy. eapply StronglySorted_app_1_elem_of; [exact Hs|by apply list_elem_of_fmap_2|apply list_elem_of_here]. }
  clear Hs. induction l as [|y l IH]; [done|].
  change (sort_by newest_first ((y :: l) ++ [x])) with (insert_by newest_first y (sort_by newest_first (l ++ [x]))).
  rewrite IH by (intros z Hz; apply Hx; set_solver). cbn [insert_by]. unfold newest_first at 1.
  replace (e_id x <=? e_id y) with false; [done|]. symmetry. apply Z.leb_gt. apply Hx. set_solver.
Qed.

Lemma retire_spec max (l : list event_row) : StronglySorted Z.lt (e_id <$> l) ->
  exists old, l = old ++ retire max l /\ (length (retire max l) <= max)%nat /\ (old = [] \/ length (retire max l) = max).
Proof.
  intros Hs. unfold retire. rewrite newest_first_reverse by done. destruct (reverse l !! max) as [e|] eqn:E.
  - pose proof (lookup_lt_Some _ _ _ E) as Hlt. rewrite length_reverse in Hlt. rewrite reverse_lookup in E by done.
    set (n := (length l - S max)%nat) in *. pose proof (take_drop_middle _ _ _ E) as El.
    exists (take (S n) l). replace (select _ l) with (drop (S n) l).
    + rewrite take_drop, length_drop. split_and!; [done|lia|right; lia].
    + rewrite <- El at 2. rewrite <- El, fmap_app in Hs. cbn in Hs. rewrite select_app. rewrite (select_none _ (take n l)).
      * change (e :: drop (S n) l) with ([e] ++ drop (S n) l). rewrite select_app, (select_none _ [e]), select_all; [done| |].
        -- intros x Hx. apply negb_true_iff, Z.leb_gt. apply StronglySorted_app_1_r, StronglySorted_inv in Hs as [_ Hf].
           rewrite Forall_forall in Hf. apply Hf. by apply list_elem_of_fmap_2.
        -- intros x ->%list_elem_of_singleton. by rewrite Z.leb_refl.
      * intros x Hx. apply negb_false_iff, Z.leb_le. enough (e_id x < e_id e) by lia.
        eapply StronglySorted_app_1_elem_of; [exact Hs|by apply list_elem_of_fmap_2|apply list_elem_of_here].
  - exists []. apply lookup_ge_None in E. rewrite length_reverse in E. split_and!; auto.
Qed.

Lemma events_store_ok max d b c : batch_ok d b -> stored_ok max d c ->
  stored_ok max d (events_store max b c).2 /\
  (events_store max b c).1 = (if b_after b =? co_cursor c then None else Some (co_cursor c)) /\
  co_cursor (events_store max b c).2 = (if b_after b =? co_cursor c then b_through b else co_cursor c).
Proof.
  intros [B1 B2 B3 B4] [S1 S2 S3 S4 S5]. unfold events_store. destruct (Z.eqb_spec (b_after b) (co_cursor c)) as [Ea|]; cbn; [|done].
  split; [|done].
  assert (Hs : StronglySorted Z.lt (e_id <$> co_events c ++ b_events b)).
  { rewrite fmap_app. apply StronglySorted_app_2; [|done..].
    intros x y (e & -> & He)%list_elem_of_fmap (e' & -> & He')%list_elem_of_fmap.
    apply S3 in He as [? _]. apply B3 in He' as [? _]. lia. }
  rewrite inserts_append by done. destruct (retire_spec max _ Hs) as (old & El & Hlen & Hold).
  set (kept := retire max (co_events c ++ b_events b)) in *.
  assert (Hin : forall e, e ∈ co_events c ++ b_events b -> e ∈ kept \/ (length kept = max /\ forall e', e' ∈ kept -> e_id e < e_id e')).
  { intros e He. rewrite El in He. apply elem_of_app in He as [He|He]; [right|by left].
    destruct Hold as [->|Hmax]; [by apply not_elem_of_nil in He|]. split; [done|]. intros e' He'.
    rewrite El, fmap_app in Hs. eapply StronglySorted_app_1_elem_of; [exact Hs|by apply list_elem_of_fmap_2..]. }
  assert (Hsub : forall e, e ∈ kept -> e ∈ co_events c ++ b_events b) by (intros e He; rewrite El; set_solver).
  split; cbn.
  - lia.
  - rewrite El, fmap_app in Hs. by eapply StronglySorted_app_1_r.
  - intros e [He|He]%Hsub%elem_of_app; [apply S3 in He as [? ?]|apply B3 in He as [? ?]]; split; auto; lia.
  - done.
  - intros e He Hle Hsk. unfold stored; cbn [co_events].
    assert (H : (exists e', e' ∈ co_events c ++ b_events b /\ e_identity e' = e_identity e) \/
      length (co_events c) = max /\ (forall e', e' ∈ co_events c -> e_id e < e_id e') /\ e_id e <= co_cursor c).
    { destruct (Z.le_gt_cases (e_id e) (co_cursor c)) as [Hc|Hc].
      - destruct (S5 e He Hc Hsk) as [(e' & He' & E)|[? ?]]; [left|by right]. exists e'. split; [set_solver|done].
      - destruct (B4 e He) as (e' & He' & E); [lia|done|]. left. exists e'. split; [set_solver|done]. }
    destruct H as [(e' & He' & E)|(Hl & Hn & Hc)].
    + destruct (Hin e' He') as [Hk|[Hm Hnewer]]; [left; by exists e'|right].
      assert (e_id e' = e_id e) as <- by (by injection E). done.
    + right. split.
      * destruct Hold as [->|Hm]; [|done]. cbn in El. rewrite <- El, length_app in Hlen. rewrite <- El, length_app. lia.
      * intros e' [He'|He']%Hsub%elem_of_app; [by apply Hn|]. apply B3 in He' as [? _]. lia.
Qed.

(** ** The connection *)

Definition up_fence (m : up_msg) : option Z := match m with UPing _ f => Some f | _ => None end.
Definition down_fence (m : down_msg) : option Z := match m with DPong f => Some f | _ => None end.
Abbreviation up_fences := (omap up_fence).
Abbreviation down_fences := (omap down_fence).

(** Where the batch in flight is: still on its way with its ping behind it,
    accepted, or refused with the nack ahead of the pong. *)
Inductive in_flight (b : InFlightBatch) (cursor generation : Z) (up : list up_msg) (down : list down_msg) : Prop :=
  | on_its_way u1 m u2 :
      up = u1 ++ UEvents generation m :: UPing generation (if_seq b) :: u2 -> b_after m = if_after b -> b_through m = if_through b ->
      if_seq b ∉ down_fences down -> if_seq b ∉ up_fences u1 -> in_flight b cursor generation up down
  | accepted : if_through b <= cursor -> in_flight b cursor generation up down
  | refused d1 z d2 : down = d1 ++ DNack z :: d2 -> z ≠ if_after b -> if_seq b ∉ down_fences d1 -> in_flight b cursor generation up down.

Definition down_ok (cursor : Z) (m : down_msg) : Prop :=
  match m with DWelcome _ _ => False | DNack z => z <= cursor | DPong _ => True end.
Definition up_generation (m : up_msg) : Z := match m with UEvents g _ | UPing g _ => g end.

Record connected (s : WorkerSession) (c : coordinator) (up : list up_msg) (down : list down_msg) : Prop := {
  cn_generation : ws_generation s = co_generation c /\ ws_generation s ≠ 0;
  cn_cursor : exists z, ws_cursor s = Some z /\ z <= co_cursor c;
  cn_down : Forall (down_ok (co_cursor c)) down;
  cn_up : Forall (fun m => up_generation m = co_generation c) up;
  cn_pongs : ws_pending_pongs s = down_fences down ++ up_fences up;
  cn_seqs : 0 <= ws_batch_seq s /\ Forall (fun f => f <= ws_batch_seq s) (ws_pending_pongs s);
  cn_inflight : forall b, ws_inflight s = Some b ->
    ws_cursor s = Some (if_after b) /\ if_seq b = ws_batch_seq s /\ in_flight b (co_cursor c) (co_generation c) up down;
}.

Record waiting_welcome (s : WorkerSession) (c : coordinator) (up : list up_msg) (down : list down_msg) : Prop := {
  ww_state : ws_generation s = 0 /\ ws_cursor s = None /\ ws_inflight s = None /\ 0 <= ws_batch_seq s;
  ww_up : up = [];
  ww_down : down = [] \/ exists z, z <= co_cursor c /\ 0 < co_generation c /\ down = [DWelcome (co_generation c) z];
}.

Definition connection_ok (s : WorkerSession) (c : coordinator) (up : list up_msg) (down : list down_msg) : Prop :=
  waiting_welcome s c up down \/ connected s c up down.

Definition msg_ok (d : database) (m : up_msg) : Prop := match m with UEvents _ b => batch_ok d b | UPing _ _ => True end.

(** A later state of the coordinator in the same generation keeps the rest. *)
Definition advances (c c' : coordinator) : Prop := co_generation c' = co_generation c /\ co_cursor c <= co_cursor c'.

Lemma in_flight_advances b z z' g up down : z <= z' -> in_flight b z g up down -> in_flight b z' g up down.
Proof. intros Hz []; [by eapply on_its_way|apply accepted; lia|by eapply refused]. Qed.

Lemma connection_advances s c c' up down : advances c c' -> connection_ok s c up down -> connection_ok s c' up down.
Proof.
  intros [Eg Hc] [[W1 W2 W3]|[C1 C2 C3 C4 C5 C6 C7]]; [left|right].
  - split; [done|done|]. destruct W3 as [->|(z & ? & ? & ->)]; [by left|right]. exists z. rewrite Eg. split; [lia|done].
  - split; try done.
    + by rewrite Eg.
    + destruct C2 as (z & ? & ?). exists z. split; [done|lia].
    + eapply Forall_impl; [exact C3|]. intros [| |]; cbn; lia.
    + by rewrite Eg.
    + intros b Hb. destruct (C7 b Hb) as (? & ? & ?). split_and!; [done|done|]. rewrite Eg. by eapply in_flight_advances.
Qed.

(** What the worker's session does between messages. *)
Lemma connection_replication s s' c up down : replication s' = replication s -> connection_ok s c up down -> connection_ok s' c up down.
Proof.
  intros [= E1 E2 E3 E4 E5 E6] [[W1 W2 W3]|[C1 C2 C3 C4 C5 C6 C7]]; [left|right]; split; rewrite ?E2, ?E3, ?E4, ?E5, ?E6; done.
Qed.

Lemma append_bounded_room x l : (length l < 64)%nat -> append_bounded x l = l ++ [x].
Proof. intros Hl. unfold append_bounded. by replace (length l + 1 - 64)%nat with 0%nat by lia. Qed.

Lemma connection_ping f s c up down : (length (ws_pending_pongs s) < 64)%nat -> f <= ws_batch_seq s ->
  connected s c up down -> connected (ping f s) c (up ++ [UPing (ws_generation s) f]) down.
Proof.
  intros Hl Hf [C1 C2 C3 C4 C5 C6 C7]. split; cbn; try done.
  - apply Forall_app. split; [done|]. repeat constructor. by destruct C1.
  - rewrite append_bounded_room by done. rewrite C5, omap_app. cbn. by rewrite app_assoc.
  - rewrite append_bounded_room by done. split; [by destruct C6|]. apply Forall_app. split; [by destruct C6|]. by repeat constructor.
  - intros b Hb. destruct (C7 b Hb) as (? & ? & Hfl). split_and!; [done|done|].
    destruct Hfl as [u1 m u2 -> ? ? ? ?|?|? ? ? -> ? ?]; [|by apply accepted|by eapply refused].
    eapply (on_its_way _ _ _ _ _ u1 m (u2 ++ _)); [by rewrite <- app_assoc|done..].
Qed.

Lemma connection_sent event_json float_repr d s s' b c up down : (length (ws_pending_pongs s') < 64)%nat ->
  sent event_json float_repr d s s' b -> connection_ok s c up down ->
  connected (barrier_ping s') c (up ++ [UEvents (ws_generation s') b; UPing (ws_generation s') (barrier_fence s')]) down.
Proof.
  intros Hl (z & Ez & Ei & Ea & _ & [= E1 E2 E3 E4 E5 E6]) [[(_ & W & _) _ _]|[C1 C2 C3 C4 C5 C6 C7]]; [congruence|].
  unfold barrier_ping, barrier_fence. rewrite E4. cbn [if_seq]. split; cbn.
  - by rewrite E2.
  - by rewrite E3, <- Ez.
  - done.
  - apply Forall_app. split; [done|]. rewrite E2. repeat constructor; by destruct C1.
  - rewrite append_bounded_room by done. rewrite E6, C5, omap_app. cbn. by rewrite app_assoc.
  - rewrite append_bounded_room by done. rewrite E5, E6. destruct C6 as [C6 C6']. split; [lia|]. apply Forall_app. split; [|by repeat constructor].
    eapply Forall_impl; [exact C6'|]. cbn. lia.
  - intros b' Hb'. rewrite E4 in Hb'. injection Hb' as <-. cbn. rewrite E3, E5. split_and!; [done|done|].
    assert (Hfresh : ws_batch_seq s + 1 ∉ down_fences down ++ up_fences up).
    { rewrite <- C5. intros Hin. destruct C6 as [_ C6]. rewrite Forall_forall in C6. specialize (C6 _ Hin). lia. }
    apply not_elem_of_app in Hfresh as [? ?]. destruct C1 as [C1 _].
    apply (on_its_way _ _ _ _ _ up b []); [by rewrite E2, C1|done..].
Qed.

(** The coordinator reads the head of the connection. *)
Lemma coordinator_handle_ok max d g m c : msg_ok d m -> stored_ok max d c ->
  let rc := coordinator_handle max g m c in
  stored_ok max d rc.2 /\ advances c rc.2.
Proof.
  intros Hm Hc. destruct m as [g' b|g' f]; cbn; [|by split; [|split]].
  destruct (g' =? g); [|by split; [|split]]. pose proof (events_store_ok max d b c Hm Hc) as (H1 & H2 & H3).
  assert (Hg : co_generation (events_store max b c).2 = co_generation c) by (unfold events_store; by case_match).
  destruct (events_store max b c) as [nack c']. cbn in *. split; [done|]. split; [done|]. rewrite H3.
  destruct (Z.eqb_spec (b_after b) (co_cursor c)); [|lia]. destruct Hm as [? _ _ _]. lia.
Qed.

Lemma connection_coordinator max d m s c up down : msg_ok d m -> stored_ok max d c ->
  connection_ok s c (m :: up) down ->
  let rc := coordinator_handle max (co_generation c) m c in
  connection_ok s rc.2 up (down ++ rc.1).
Proof.
  intros Hm Hst [[_ W _]|Hcn]; [done|]. pose proof (coordinator_handle_ok max d (co_generation c) m c Hm Hst) as [_ Hadv].
  cbv zeta in *. right. destruct m as [g b|g f]; cbn in *.
  - pose proof Hcn as [_ _ _ C4 _ _ _]. apply Forall_cons in C4 as [Hg C4]. cbn in Hg. subst g. rewrite Z.eqb_refl in *.
    pose proof (events_store_ok max d b c Hm Hst) as (_ & Hr & Hcur).
    destruct (connection_advances s c _ _ down Hadv (or_intror Hcn)) as [[_ W _]|[C1' C2' C3' C4' C5' C6' C7']]; [done|].
    destruct Hcn as [C1 C2 C3 _ C5 C6 C7].
    destruct (events_store max b c) as [nack c'] eqn:Ees. cbn in *. destruct Hadv as [Eg Hle].
    subst nack. split; cbn; try done.
    + apply Forall_app. split; [done|]. destruct (_ =? _); repeat constructor. cbn. lia.
    + by apply Forall_cons in C4' as [_ ?].
    + rewrite C5, omap_app. cbn. destruct (_ =? _); cbn; by rewrite app_nil_r.
    + intros bf Hbf. destruct (C7 bf Hbf) as (? & ? & Hfl). split_and!; [done|done|].
      destruct Hfl as [[|u u1] m u2 Eu Ea Et Hd Hu|?|d1 z d2 -> ? ?].
      * cbn in Eu. injection Eu as -> ->. destruct (Z.eqb_spec (b_after m) (co_cursor c)) as [Eac|Nac].
        -- apply accepted. lia.
        -- eapply (refused _ _ _ _ _ down (co_cursor c) []); [done|lia|done].
      * cbn in Eu. injection Eu as <- ->. cbn in Hu. eapply (on_its_way _ _ _ _ _ u1 m u2); [by rewrite Eg|done|done| |done].
        rewrite omap_app. apply not_elem_of_app. split; [done|]. destruct (_ =? _); apply not_elem_of_nil.
      * apply accepted. lia.
      * eapply (refused _ _ _ _ _ d1 z (d2 ++ _)); [by rewrite <- app_assoc|done..].
  - destruct Hcn as [C1 C2 C3 C4 C5 C6 C7]. apply Forall_cons in C4 as [Hg C4]. cbn in Hg. rewrite Hg, Z.eqb_refl. split; cbn; try done.
    + apply Forall_app. split; [done|]. by repeat constructor.
    + rewrite C5, omap_app. cbn. by rewrite <- app_assoc.
    + intros bf Hbf. destruct (C7 bf Hbf) as (? & ? & Hfl). split_and!; [done|done|].
      destruct Hfl as [[|u u1] m u2 Eu Ea Et Hd Hu|?|d1 z d2 -> ? ?]; [done| | |].
      * cbn in Eu. injection Eu as <- ->. cbn in Hu. apply not_elem_of_cons in Hu as [? ?].
        eapply (on_its_way _ _ _ _ _ u1 m u2); [done|done|done| |done].
        rewrite omap_app. cbn. apply not_elem_of_app. split; [done|]. by apply not_elem_of_cons; split; [|apply not_elem_of_nil].
      * by apply accepted.
      * eapply (refused _ _ _ _ _ d1 z (d2 ++ _)); [by rewrite <- app_assoc|done..].
Qed.

(** The worker reads the head of the connection. *)
Lemma connection_worker m s c up down :
  connection_ok s c up (m :: down) -> connection_ok (worker_handle m s).2 c up down.
Proof.
  intros [[(W1 & W2 & W3 & W4) -> [?|(z & Hz & Hg & [= -> ->])]]|Hcn]; [done| |].
  - cbn. unfold handle_welcome. destruct (Z.leb_spec (co_generation c) (ws_max_generation s)); cbn.
    + left. split; [done|done|by left].
    + right. split; cbn; try done; [lia|by eexists].
  - right. destruct Hcn as [(C1 & C1') (z & Ez & Hz) C3 C4 C5 C6 C7].
    apply Forall_cons in C3 as [Hm C3]. destruct m as [? ?|n|f]; [done| |]; cbn; rewrite (proj2 (Z.eqb_neq _ _) C1').
    + cbn in Hm. unfold _nack. destruct (ws_inflight s) as [b|] eqn:Ei; [destruct (Z.eqb_spec n (if_after b)) as [En|En]|].
      * split; try done; [by eexists|]. intros b' Hb. rewrite Ei in Hb. injection Hb as <-. destruct (C7 b eq_refl) as (? & ? & Hfl).
        split_and!; [done|done|]. destruct Hfl as [u1 m u2 -> ? ? ? ?|?|[|? d1] z' d2 Ed ? Hd]; [by eapply on_its_way|by apply accepted| |].
        -- cbn in Ed. injection Ed as -> ->. done.
        -- cbn in Ed. injection Ed as <- ->. by eapply refused.
      * split; cbn; try done. by exists n.
      * split; try done; [by eexists|]. intros b Hb. congruence.
    + cbn in C5. unfold _pong. rewrite C5. cbn. destruct C6 as [C6 C6']. rewrite C5 in C6'. apply Forall_cons in C6' as [Hf C6'].
      destruct (ws_inflight s) as [b|] eqn:Ei; [|split; cbn; try done; [by eexists|by rewrite Ei]].
      destruct (C7 b eq_refl) as (Hb1 & Hb2 & Hfl).
      destruct (negb (f =? 0) && (if_seq b =? f)) eqn:Ef; bool_to_prop.
      * split; cbn; try done. exists (if_through b). split; [done|].
        destruct Hfl as [u1 m u2 -> _ _ Hd _|?|[|? d1] z' d2 Ed ? Hd]; [|done|by cbn in Ed|].
        -- cbn in Hd. by apply not_elem_of_cons in Hd as [? _].
        -- cbn in Ed. injection Ed as <- ->. cbn in Hd. by apply not_elem_of_cons in Hd as [? _].
      * split; cbn; try done; [by exists z|]. intros b' Hb'. rewrite Ei in Hb'. injection Hb' as <-. split_and!; [done|done|].
        destruct Hfl as [u1 m u2 -> ? ? Hd ?|?|[|? d1] z' d2 Ed ? Hd]; [|by apply accepted|by cbn in Ed|].
        -- cbn in Hd. apply not_elem_of_cons in Hd as [? ?]. by eapply on_its_way.
        -- cbn in Ed. injection Ed as <- ->. cbn in Hd. apply not_elem_of_cons in Hd as [? ?]. by eapply refused.
Qed.

(** ** Every reachable state *)

Record system_ok (max : nat) (y : system) : Prop := {
  sk_db : reachable (sy_db y);
  sk_generation : 0 <= co_generation (sy_coordinator y);
  sk_stored : stored_ok max (sy_db y) (sy_coordinator y);
  sk_connection : connection_ok (sy_worker y) (sy_coordinator y) (sy_up y) (sy_down y);
  sk_up : Forall (msg_ok (sy_db y)) (sy_up y);
  sk_stale : Forall (fun gm => msg_ok (sy_db y) gm.2) (sy_stale y);
}.

Lemma connection_cursor s c up down z : connection_ok s c up down -> ws_cursor s = Some z -> z <= co_cursor c.
Proof. intros [[(_ & W & _) _ _]|[_ (z' & E & H) _ _ _ _ _]] Ez; [congruence|]. rewrite E in Ez. by injection Ez as <-. Qed.
Lemma connection_seq s c up down : connection_ok s c up down -> 0 <= ws_batch_seq s.
Proof. intros [[(_ & _ & _ & W) _ _]|[_ _ _ _ _ [W _] _]]; done. Qed.

Section invariant.
Context (event_json : event_row -> json) (timestamp : Z -> json) (float_repr : pyfloat -> string) (worker_id : string).
Context (provider_question : database -> string -> option json) (max : nat).
Local Abbreviation step := (sstep event_json timestamp float_repr worker_id provider_question max).

Lemma start_ok g : system_ok max (start g).
Proof.
  split; cbn; [constructor|done| | |constructor|constructor].
  - split; cbn; [lia|constructor|by intros e He%not_elem_of_nil|lia|by intros e He%not_elem_of_nil].
  - left. split; [done|done|by left].
Qed.

Lemma step_ok y y' : step y y' -> system_ok max y -> system_ok max y'.
Proof.
  intros Hstep [K1 K2 K3 K4 K5 K6]. pose proof (log_ok_reachable _ K1) as Hok.
  destruct Hstep as [d' Hcall|message_id moment b s' He Hl|message_id moment s' He|Hg Hl|m up Eu rc|m down Ed|g m before after Es|missions s' Hs c].
  - pose proof (call_evolves _ _ K1 Hcall) as Hev. assert (K1' : reachable d') by (by eapply reachable_call).
    pose proof (log_ok_reachable _ K1') as Hok'.
    assert (Hm : forall m, msg_ok (sy_db y) m -> msg_ok d' m) by (intros [? b|]; [by apply batch_ok_evolves|done]).
    split; cbn; [done|done|by apply (stored_ok_evolves _ (sy_db y))|done| |].
    + eapply Forall_impl; [exact K5|exact Hm].
    + eapply Forall_impl; [exact K6|]. intros ?. apply Hm.
  - apply worker_events_spec in He. split; cbn; [done|done|done| | |done].
    + right. by eapply connection_sent.
    + apply Forall_app. split; [done|]. apply Forall_cons. split; [|by repeat constructor]. cbn. eapply sent_ok; [done| |exact He].
      intros z Hz. pose proof (connection_cursor _ _ _ _ _ K4 Hz). destruct K3. lia.
  - apply worker_events_spec in He. split; cbn; [done|done|done| |done|done]. by eapply connection_replication.
  - destruct K4 as [[(? & _) _ _]|K4]; [done|]. split; cbn; [done|done|done| | |done].
    + right. apply connection_ping; [done| |done]. by destruct K4 as [_ _ _ _ _ [? _] _].
    + apply Forall_app. split; [done|]. by repeat constructor.
  - rewrite Eu in *. apply Forall_cons in K5 as [Hm K5].
    pose proof (coordinator_handle_ok max (sy_db y) (co_generation (sy_coordinator y)) m (sy_coordinator y) Hm K3) as [H1 [H2 _]].
    split; cbn [sy_db sy_worker sy_coordinator sy_up sy_down sy_stale]; [done|subst rc; by rewrite H2|done|by eapply connection_coordinator|done|done].
  - rewrite Ed in K4. apply connection_worker in K4. by split.
  - rewrite Es in K6. apply Forall_app in K6 as [K6a [Hm K6b]%Forall_cons].
    pose proof (coordinator_handle_ok max (sy_db y) g m (sy_coordinator y) Hm K3) as [H1 H2].
    split; cbn [sy_db sy_worker sy_coordinator sy_up sy_down sy_stale];
      [done|by rewrite (proj1 H2)|done|by eapply connection_advances|done|by apply Forall_app].
  - assert (Hseq : 0 <= ws_batch_seq s').
    { pose proof (connection_seq _ _ _ _ K4). destruct Hs as [->|(message_id & moment & e & He)]; [done|]. apply worker_events_spec in He. lia. }
    split; cbn; [done|lia| | |constructor|].
    + destruct K3. by split.
    + left. split; [done|done|right]. exists (co_cursor (sy_coordinator y)). subst c. cbn. split_and!; [lia|lia|done].
    + apply Forall_app. split; [done|]. by apply Forall_fmap.
Qed.

Lemma reachable_system_ok y : reachable_system event_json timestamp float_repr worker_id provider_question max y -> system_ok max y.
Proof.
  intros (g & Hy). remember (start g) as y0 eqn:E. pose proof (start_ok g) as H0. rewrite <- E in H0. clear E.
  induction Hy as [|y0 y1 y Hs _ IH]; [done|]. by apply IH, (step_ok y0).
Qed.
End invariant.

(** C37: Replication is exactly-once and complete: in every state the worker,
    the coordinator and the connections between them can reach - connections
    break at any time, messages of old connections may still be read, and the
    controllers keep writing, pruning and refreshing events - the coordinator
    stores each event once, in order, never a heartbeat, and every event of
    the worker's log up to the coordinator's cursor that is not a superseded
    refresh or a heartbeat is stored, unless [max] newer ones are and it was
    retired. *)
Theorem replication_is_complete (event_json : event_row -> json) (timestamp : Z -> json) (float_repr : pyfloat -> string) (worker_id : string)
    (provider_question : database -> string -> option json) (max : nat) (y : system) :
  reachable_system event_json timestamp float_repr worker_id provider_question max y ->
  let c := sy_coordinator y in
  StronglySorted Z.lt (e_id <$> co_events c) /\ (length (co_events c) <= max)%nat /\
  (forall e, e ∈ co_events c -> e_id e <= co_cursor c /\ ~ heartbeat e) /\
  co_cursor c <= event_seq (sy_db y) /\
  forall e, e ∈ events (sy_db y) -> e_id e <= co_cursor c -> skipped (sy_db y) e = false -> stored max c e.
Proof. intros [_ _ [H1 H2 H3 H4 H5] _ _ _]%reachable_system_ok. done. Qed.

(** The worker never takes an unstored event for stored: in every reachable
    state the cursor from which it sends the next batch is one the
    coordinator has reached, so everything it will not send again is stored
    (or superseded, or retired).  The pong behind a batch is what makes it so:
    a refused batch's nack always arrives first. *)
Theorem confirmed_events_are_stored (event_json : event_row -> json) (timestamp : Z -> json) (float_repr : pyfloat -> string) (worker_id : string)
    (provider_question : database -> string -> option json) (max : nat) (y : system) (z : Z) :
  reachable_system event_json timestamp float_repr worker_id provider_question max y ->
  ws_cursor (sy_worker y) = Some z ->
  z <= co_cursor (sy_coordinator y) /\
  forall e, e ∈ events (sy_db y) -> e_id e <= z -> skipped (sy_db y) e = false -> stored max (sy_coordinator y) e.
Proof.
  intros [_ _ [_ _ _ _ H5] K _ _]%reachable_system_ok Hz. pose proof (connection_cursor _ _ _ _ _ K Hz) as Hle.
  split; [done|]. intros e He Hez. apply H5; [done|lia].
Qed.

(** ** A run, for the witnesses *)

Definition no_json : event_row -> json := fun _ => JNull.
Definition no_question : database -> string -> option json := fun _ _ => None.
Definition no_float : pyfloat -> string := fun _ => EmptyString.

Definition demo_send (moment : Q) (y : system) : system :=
  match worker_events no_json JInt no_float "w1" no_question "i1" moment (sy_db y) (sy_worker y) with
  | (Ok (Some b), s') =>
      System (sy_db y) (barrier_ping s') (sy_coordinator y)
        (sy_up y ++ [UEvents (ws_generation s') b; UPing (ws_generation s') (barrier_fence s')]) (sy_down y) (sy_stale y)
  | _ => y
  end.
Definition demo_read_up (y : system) : system :=
  match sy_up y with
  | m :: up => let rc := coordinator_handle 1 (co_generation (sy_coordinator y)) m (sy_coordinator y) in
               System (sy_db y) (sy_worker y) rc.2 up (sy_down y ++ rc.1) (sy_stale y)
  | [] => y
  end.
Definition demo_read_down (y : system) : system :=
  match sy_down y with
  | m :: down => System (sy_db y) (worker_handle m (sy_worker y)).2 (sy_coordinator y) (sy_up y) down (sy_stale y)
  | [] => y
  end.
Definition demo_reconnect (y : system) : system :=
  let c := worker_hello [] (sy_coordinator y) in
  System (sy_db y) (new_connection (sy_worker y)) c [] [DWelcome (co_generation c) (co_cursor c)]
    (sy_stale y ++ ((fun m => (co_generation (sy_coordinator y), m)) <$> sy_up y)).
Definition demo_log (y : system) : system := System (w_db log_world) (sy_worker y) (sy_coordinator y) (sy_up y) (sy_down y) (sy_stale y).

Local Abbreviation steps := (rtc (sstep no_json JInt no_float "w1" no_question 1)).

Lemma demo_send_steps moment y : (length (ws_pending_pongs (sy_worker y)) < 64)%nat -> steps y (demo_send moment y).
Proof.
  intros Hl. unfold demo_send. destruct (worker_events _ _ _ _ _ _ _ _) as [[[b|]|e] s'] eqn:E; try reflexivity.
  apply rtc_once. eapply step_events; [exact E|]. apply worker_events_spec in E as (c & _ & _ & _ & _ & [= _ _ _ _ _ ->]). done.
Qed.
Lemma demo_read_up_steps y : steps y (demo_read_up y).
Proof. unfold demo_read_up. destruct (sy_up y) as [|m up] eqn:E; [reflexivity|]. apply rtc_once. by apply step_coordinator. Qed.
Lemma demo_read_down_steps y : steps y (demo_read_down y).
Proof. unfold demo_read_down. destruct (sy_down y) as [|m down] eqn:E; [reflexivity|]. apply rtc_once. by apply step_worker. Qed.
Lemma demo_reconnect_steps y : steps y (demo_reconnect y).
Proof. apply rtc_once. eapply step_reconnect. by left. Qed.
Lemma store_steps d d' s c up down st : reachable d' -> d = empty_database -> steps (System d s c up down st) (System d' s c up down st).
Proof.
  intros Hr ->. induction Hr as [|d1 d2 Hd1 IH Hc]; [reflexivity|]. eapply rtc_r; [exact IH|].
  by apply (step_store _ _ _ _ _ _ (System d1 s c up down st)).
Qed.

Definition demo_read_stale (y : system) : system :=
  match sy_stale y with
  | (g, m) :: st => System (sy_db y) (sy_worker y) (coordinator_handle 1 g m (sy_coordinator y)).2 (sy_up y) (sy_down y) st
  | [] => y
  end.
Lemma demo_read_stale_steps y : steps y (demo_read_stale y).
Proof.
  unfold demo_read_stale. destruct (sy_stale y) as [|[g m] st] eqn:E; [reflexivity|]. apply rtc_once.
  by apply (step_stale _ _ _ _ _ _ y g m [] st).
Qed.

(** [log_world] is written, the worker connects and sends; the connection
    breaks, and the coordinator reads the batch from it only after the worker
    has sent it again: the second copy is refused, and the nack, which arrives
    before the pong, moves the worker on. *)
Definition demo_resent : system :=
  demo_send 20 (demo_read_down (demo_reconnect (demo_send 10 (demo_read_down (demo_reconnect (demo_log (start 0))))))).
Definition demo_system : system := demo_read_down (demo_read_down (demo_read_up (demo_read_up (demo_read_stale demo_resent)))).

Lemma demo_resent_reachable : reachable_system no_json JInt no_float "w1" no_question 1 demo_resent.
Proof.
  exists 0. unfold demo_resent.
  do 2 (etrans; [|apply demo_send_steps; vm_compute; lia]; etrans; [|apply demo_read_down_steps]; etrans; [|apply demo_reconnect_steps]).
  by apply store_steps; [apply log_world_reachable|].
Qed.
Lemma demo_system_reachable : reachable_system no_json JInt no_float "w1" no_question 1 demo_system.
Proof.
  destruct demo_resent_reachable as (g & Hg). exists g. etrans; [exact Hg|]. unfold demo_system.
  do 2 (etrans; [|apply demo_read_down_steps]). do 2 (etrans; [|apply demo_read_up_steps]). apply demo_read_stale_steps.
Qed.

Lemma replication_is_complete_witness :
  (forall e, e ∈ events (sy_db demo_system) -> e_id e <= 7 -> skipped (sy_db demo_system) e = false -> stored 1 (sy_coordinator demo_system) e) /\
  (e_id <$> co_events (sy_coordinator demo_system)) = [6] /\ co_cursor (sy_coordinator demo_system) = 7.
Proof.
  split; [|vm_compute; split; reflexivity].
  exact (proj2 (proj2 (proj2 (proj2 (replication_is_complete no_json JInt no_float "w1" no_question 1 demo_system demo_system_reachable))))).
Defined.

Lemma confirmed_events_are_stored_witness :
  ws_cursor (sy_worker demo_system) = Some 7 /\ ws_inflight (sy_worker demo_resent) = Some (InFlight 2 0 7) /\
  7 <= co_cursor (sy_coordinator demo_system).
Proof.
  assert (H : ws_cursor (sy_worker demo_system) = Some 7) by (vm_compute; reflexivity).
  split; [exact H|]. split; [vm_compute; reflexivity|].
  exact (proj1 (confirmed_events_are_stored no_json JInt no_float "w1" no_question 1 demo_system 7 demo_system_reachable H)).
Defined.
