(* ===== verification/WorkerPolicy.v ===== *)
(** * What a worker does with a coordinator message ([bridge_worker.py])

    [WorkerSession.handle] and below it the policy that decides which remote
    commands may run: generations, opt-in flags and enrolled roots.  The
    command layer, the store's look-ups, the terminal launcher and the file
    system's path resolution are the environment; the audit file is not
    modelled. *)

From Stdlib Require Import QArith Ascii.
From S2P Require Import Prelude Py Vocab StoreData StoreTasks StoreOps Commands Protocol Worker.
From stdpp Require Import options.
Local Open Scope Z_scope.

Record WorkerConfig : Type := Config {
  wc_worker_id : string;
  wc_name : string;
  wc_coordinator_url : string;
  wc_token : string;
  wc_allow_control : bool;
  wc_allow_terminal_view : bool;
  wc_allow_create : bool;
  wc_allow_roots : list string;
  wc_allow_power : bool;
  wc_allow_restore : bool;
  wc_client_certificate : bool;
}.
Definition terminal_view (c : WorkerConfig) : bool := wc_allow_control c || wc_allow_terminal_view c.
Definition public (c : WorkerConfig) (max_generation : Z) : json :=
  JObj [("worker_id"%string, JStr (wc_worker_id c)); ("name"%string, JStr (wc_name c)); ("coordinator_url"%string, JStr (wc_coordinator_url c));
        ("allow_control"%string, JBool (wc_allow_control c)); ("allow_terminal_view"%string, JBool (terminal_view c));
        ("max_generation"%string, JInt max_generation);
        ("allow_create"%string, JBool (wc_allow_create c)); ("allow_root"%string, JList (JStr <$> wc_allow_roots c));
        ("allow_power"%string, JBool (wc_allow_power c)); ("allow_restore"%string, JBool (wc_allow_restore c));
        ("mutual_tls"%string, JBool (wc_client_certificate c))].

(** What a worker reaches besides the command layer. *)
Class WorkerEnv (W : Type) := {
  command_recorded : string -> W -> bool;
  mission_cwd : string -> W -> result cmd_exn json;
  known_mission : string -> W -> option string;
  save_generation : Z -> W -> W;
  terminal_launcher : bool;
  open_terminal : string -> string -> string -> bool -> W -> W;
  close_terminal : string -> W -> W;
}.

Lemma is_prefix_spec xs ys : is_prefix xs ys = true <-> exists below, ys = xs ++ below.
Proof.
  revert ys. induction xs as [|x xs IH]; intros ys; cbn; [split; [by exists ys|done]|].
  destruct ys as [|y ys]; [split; [done|by intros [? ?]]|]. rewrite andb_true_iff, bool_decide_eq_true, IH. split.
  - intros [-> [below ->]]. by exists below.
  - intros [below [= -> ->]]. eauto.
Qed.

Section paths.
(** [Path(p).expanduser().resolve()] and [Path(p).resolve(strict=True)];
    [None] where the call raises. *)
Context (resolve resolve_strict : string -> option string).

Fixpoint roots_loop (candidate : string) (roots : list string) : bool :=
  match roots with
  | [] => false
  | root :: roots' =>
      match resolve_strict root with
      | None => false
      | Some canonical_root =>
          if negb (path_eqb canonical_root root) then roots_loop candidate roots'
          else is_relative_to candidate canonical_root  (* [relative_to] raises when it is not *)
      end
  end.
Definition _path_allowed (path : string) (roots : list string) : bool :=
  match roots with
  | [] => false
  | _ => match resolve path with None => false | Some candidate => roots_loop candidate roots end
  end.

(** What the enrolled roots allow, stated on the components of the paths: what
    [path] resolves to is a root or lies below it, that root resolves to
    itself, and every root enrolled before it resolves to something else (it
    has since been moved or replaced by a link).  The roots enrolled after it do
    not count: [relative_to] raises for a path outside the first one still in
    place, and the [except] around the whole loop answers no. *)
Definition in_place (root : string) : Prop := exists c, resolve_strict root = Some c /\ path_parts c = path_parts root.
Definition moved_away (root : string) : Prop := exists c, resolve_strict root = Some c /\ path_parts c ≠ path_parts root.
Definition inside (path : string) (roots : list string) : Prop :=
  exists candidate before root after below,
    resolve path = Some candidate /\ roots = before ++ root :: after /\ Forall moved_away before /\ in_place root /\
    path_parts candidate = path_parts root ++ below.

Lemma path_eqb_parts p q : path_eqb p q = true <-> path_parts p = path_parts q.
Proof. unfold path_eqb. apply bool_decide_eq_true. Qed.

Lemma path_allowed_exact path roots : _path_allowed path roots = true <-> inside path roots.
Proof.
  unfold _path_allowed, inside. destruct (resolve path) as [candidate|]; [|split; [by destruct roots|by intros (?&?&?&?&?&?&_)]].
  transitivity (roots_loop candidate roots = true); [by destruct roots|].
  split.
  - induction roots as [|root roots IH]; cbn; [done|]. destruct (resolve_strict root) as [c|] eqn:Er; [|done].
    destruct (path_eqb c root) eqn:Ep; cbn.
    + apply path_eqb_parts in Ep. unfold is_relative_to. rewrite is_prefix_spec, Ep. intros [below Hb].
      exists candidate, [], root, roots, below. split_and!; [done|done|constructor|by exists c|done].
    + intros (cand & before & root' & after & below & [= <-] & -> & Hm & H)%IH. exists candidate, (root :: before), root', after, below.
      split_and!; try done; [|by destruct H as (?&?)..]. constructor; [|done]. exists c. split; [done|]. intros He%path_eqb_parts. congruence.
  - intros (cand & before & root & after & below & [= <-] & -> & Hm & (c & Er & Ep) & Hb).
    induction Hm as [|r before (c' & Hc' & Hp') _ IH]; cbn.
    + rewrite Er, (proj2 (path_eqb_parts c root)) by done. cbn. unfold is_relative_to. rewrite is_prefix_spec, Ep, Hb. by exists below.
    + rewrite Hc'. destruct (path_eqb c' r) eqn:E; [by apply path_eqb_parts in E|done].
Qed.
End paths.

(** [[._-]] splits; [$] also matches before a final newline. *)
Definition POWER_WORDS : list string := ["power"; "poweroff"; "poweron"; "suspend"; "shutdown"; "reboot"]%string.
Definition name_parts (s : string) : list string := (split_char "."%char s ≫= split_char "_"%char) ≫= split_char "-"%char.
Definition power_operation (operation : string) : bool :=
  existsb (fun p => bool_decide (p ∈ POWER_WORDS)) (name_parts operation) ||
  match last (name_parts operation) with
  | Some p => existsb (fun word => bool_decide (p = word +:+ String (Ascii.ascii_of_nat 10) EmptyString)) POWER_WORDS
  | None => false
  end.

Definition forbidden (message : string) : CommandError := Error "forbidden" message [].

Section session.
Context {W : Type} `{!CommandEnv W} `{!WorkerEnv W}.
Context (repr : json -> string) (casefold : string -> string) (resolve resolve_strict : string -> option string).
Context (config : WorkerConfig) (fresh : nat -> string).
Local Abbreviation path_allowed := (_path_allowed resolve resolve_strict).

Definition allowed_path (v : option json) : bool :=
  match v with Some (JStr p) => path_allowed p (wc_allow_roots config) | _ => false end.

Definition create_error (operation : string) (params : dict) : option CommandError :=
  if bool_decide (operation ∈ ["mission.create"; "create"]%string) then
    if negb (wc_allow_create config) then Some (forbidden "this worker has not opted in to remote mission creation")
    else if negb (allowed_path (dget "cwd" params)) then Some (forbidden "mission creation must use a path inside an enrolled allowed root")
    else None
  else None.
Definition restore_error (operation : string) (params : dict) : option CommandError :=
  if bool_decide (operation ∈ ["worker.restore"; "restore"]%string) then
    if negb (wc_allow_restore config) then Some (forbidden "this worker has not opted in to remote restore")
    else if negb (allowed_path (dget "input" params)) then Some (forbidden "restore input must be inside an enrolled allowed root")
    else None
  else None.
Definition power_error (operation : string) : option CommandError :=
  if bool_decide (operation ∈ ["mission.suspend_until_credits"; "power"]%string) || power_operation operation then
    if negb (wc_allow_power config) then Some (forbidden "this worker has not opted in to remote power operations") else None
  else None.
(** [store.get_mission] raises for an unknown mission. *)
Definition start_error (operation : string) (mission_id : option string) (w : W) : result cmd_exn (option CommandError) :=
  match mission_id with
  | Some m =>
      if bool_decide (operation = "mission.start"%string) && negb (bool_decide (wc_allow_roots config = [])) && truthy_str m then
        match mission_cwd m w with
        | Raise e => Raise e
        | Ok cwd => Ok (if allowed_path (Some cwd) then None else Some (forbidden "mission is outside this worker's enrolled allowed roots"))
        end
      else Ok None
  | None => Ok None
  end.
Definition _policy_error (request : CommandRequest) : ST cmd_exn W (option CommandError) := fun w =>
  let operation := casefold (rq_operation request) in
  match create_error operation (rq_params request), restore_error operation (rq_params request), power_error operation with
  | Some e, _, _ | None, Some e, _ | None, None, Some e => (Ok (Some e), w)
  | None, None, None => (start_error operation (rq_mission_id request) w, w)
  end.

Definition _specific_mutation_opted_in (operation : string) : bool :=
  (bool_decide (operation = "mission.create"%string) && wc_allow_create config) ||
  (bool_decide (operation = "mission.suspend_until_credits"%string) && wc_allow_power config) ||
  (bool_decide (operation = "worker.restore"%string) && wc_allow_restore config).

Definition message (s : WorkerSession) (n : nat) (kind : string) (payload : dict) : Message :=
  Msg kind (wc_worker_id config) (ws_generation s) payload (fresh n) (JInt PROTOCOL_VERSION).
Definition error (s : WorkerSession) (code text in_reply_to : string) : Message :=
  message s 0 "error" ([("code"%string, JStr code); ("message"%string, JStr text)] ++
    (if truthy_str in_reply_to then [("in_reply_to"%string, JStr in_reply_to)] else [])).

Definition to_local (request : CommandRequest) : CommandRequest :=
  Request (rq_operation request) (rq_params request) (rq_mission_id request) LOCAL_TARGET (rq_request_id request).
Definition refused (request : CommandRequest) (e : CommandError) : CommandResult :=
  Result (rq_request_id request) (rq_operation request) "rejected" None (Some e).

Definition answer (s : WorkerSession) (ack : Message) (r : CommandResult) : list Message :=
  [ack; message s 1 "command.result" (match CommandResult_to_json r with JObj d => d | _ => [] end)].

Definition _command (s : WorkerSession) (request : CommandRequest) : ST cmd_exn W (list Message) := fun w =>
  let spec := find_operation (rq_operation request) in
  let mutating := match spec with Some sp => sp_mutating sp | None => false end in
  let duplicate := mutating && command_recorded (rq_request_id request) w in
  let ack := message s 0 "command.ack" [("request_id"%string, JStr (rq_request_id request));
                                        ("status"%string, JStr (if duplicate then "duplicate" else "received"))] in
  match _policy_error request w with
  | (Raise e, w) => (Raise e, w)
  | (Ok (Some e), w) => (Ok (answer s ack (refused request e)), w)
  | (Ok None, w) =>
      if mutating && negb (wc_allow_control config) && negb (_specific_mutation_opted_in (rq_operation request))
      then (Ok (answer s ack (refused request (forbidden "this worker accepts read-only remote operations"))), w)
      else match execute repr (to_local request) w with
           | (Ok r, w) => (Ok (answer s ack r), w)
           | (Raise e, w) => (Raise e, w)
           end
  end.

Definition _terminal_refused (s : WorkerSession) (session_id reason : string) : Message :=
  message s 0 "terminal.status" [("session_id"%string, JStr session_id); ("state"%string, JStr "refused"); ("mode"%string, JStr "view"); ("reason"%string, JStr reason)].
Definition _terminal_open (s : WorkerSession) (session_id mission_id mode : string) (w : W) : list Message * W :=
  if negb terminal_launcher then ([_terminal_refused s session_id "terminal access is not available on this worker"], w)
  else if negb (terminal_view config) then
    ([_terminal_refused s session_id "this worker does not share terminals; enrol it with --allow-terminal-view or --allow-control"], w)
  else match known_mission mission_id w with
       | None => ([_terminal_refused s session_id "unknown mission"], w)
       | Some known => ([], open_terminal session_id known mode (wc_allow_control config) w)
       end.

(** A field [decode] has checked. *)
Definition int_field (k : string) (m : Message) : Z := match dget k (ms_payload m) with Some (JInt z) => z | _ => 0 end.
Definition str_field (k : string) (m : Message) : string := match dget k (ms_payload m) with Some (JStr s) => s | _ => EmptyString end.

Definition handle (m : Message) : ST cmd_exn (WorkerSession * W) (list Message) := fun '(s, w) =>
  let kind := ms_type m in
  if bool_decide (kind = "welcome"%string) then
    let '(accepted, s') := handle_welcome (int_field "generation" m) (int_field "event_cursor" m) s in
    if accepted then (Ok [], (s', save_generation (int_field "generation" m) w))
    else (Ok [error s' "stale-generation" ("generation " +:+ show_Z (int_field "generation" m) +:+ " is not newer than " +:+ show_Z (ws_max_generation s)) (ms_id m)], (s', w))
  else if bool_decide (kind = "error"%string) then (Ok [], (s, w))
  else if ws_generation s =? 0 then (Ok [error s "not-welcomed" (kind +:+ " before welcome") (ms_id m)], (s, w))
  else if bool_decide (kind = "ping"%string) then (Ok [message s 0 "pong" []], (s, w))
  else if bool_decide (kind = "pong"%string) then (Ok [], (_pong s, w))
  else if bool_decide (kind = "events.nack"%string) then (Ok [], (_nack (int_field "expected_after" m) s, w))
  else if bool_decide (kind = "terminal.open"%string) then
    let '(replies, w) := _terminal_open s (str_field "session_id" m) (str_field "mission_id" m) (str_field "mode" m) w in (Ok replies, (s, w))
  else if bool_decide (kind = "terminal.close"%string) then
    (Ok [], (s, if terminal_launcher then close_terminal (str_field "session_id" m) w else w))
  else if negb (bool_decide (kind = "command"%string)) then (Ok [error s "unsupported-message" ("workers do not accept " +:+ kind) (ms_id m)], (s, w))
  else if negb (ms_generation m =? ws_generation s) || (ms_generation m <? ws_max_generation s) then
    (Ok [error s "stale-generation" "command from an older coordinator connection" (ms_id m)], (s, w))
  else match from_json repr (JObj (ms_payload m)) with
       | Raise f => (Raise (ECommandFailure f), (s, w))
       | Ok request => let '(r, w) := _command s request w in (r, (s, w))
       end.

(** The operations [hello] advertises. *)
Definition advertised (spec : OperationSpec) : bool :=
  (negb (sp_mutating spec) || wc_allow_control config || _specific_mutation_opted_in (sp_operation spec)) &&
  (negb (bool_decide (sp_operation spec = "mission.create"%string)) || wc_allow_create config) &&
  (negb (bool_decide (sp_operation spec = "mission.suspend_until_credits"%string)) || wc_allow_power config) &&
  (negb (bool_decide (sp_operation spec = "worker.restore"%string)) || wc_allow_restore config).

(** ** What the policy permits *)

Definition own_opt_in : list string := ["mission.create"; "mission.suspend_until_credits"; "worker.restore"]%string.
Definition names_inside (v : option json) : Prop := exists p, v = Some (JStr p) /\ inside resolve resolve_strict p (wc_allow_roots config).
Definition starts_in_roots (request : CommandRequest) (w : W) : Prop :=
  rq_operation request = "mission.start"%string -> wc_allow_roots config ≠ [] ->
  forall m, rq_mission_id request = Some m -> m ≠ ""%string ->
  exists cwd, mission_cwd m w = Ok cwd /\ names_inside (Some cwd).
Definition permitted (request : CommandRequest) (w : W) : Prop :=
  let operation := rq_operation request in
  (operation ∉ own_opt_in -> wc_allow_control config = true) /\
  (operation = "mission.create"%string -> wc_allow_create config = true /\ names_inside (dget "cwd" (rq_params request))) /\
  (operation = "worker.restore"%string -> wc_allow_restore config = true /\ names_inside (dget "input" (rq_params request))) /\
  (operation = "mission.suspend_until_credits"%string -> wc_allow_power config = true) /\
  starts_in_roots request w.
Lemma names_inside_allowed v : names_inside v <-> allowed_path v = true.
Proof using Type.
  clear repr casefold fresh. unfold names_inside, allowed_path. split.
  - intros (p & -> & H). by apply path_allowed_exact.
  - destruct v as [[]|]; try done. intros H%path_allowed_exact. eauto.
Qed.
Lemma permitted_allowed request w : permitted request w <->
  (rq_operation request ∉ own_opt_in -> wc_allow_control config = true) /\
  (rq_operation request = "mission.create"%string -> wc_allow_create config = true /\ allowed_path (dget "cwd" (rq_params request)) = true) /\
  (rq_operation request = "worker.restore"%string -> wc_allow_restore config = true /\ allowed_path (dget "input" (rq_params request)) = true) /\
  (rq_operation request = "mission.suspend_until_credits"%string -> wc_allow_power config = true) /\
  (rq_operation request = "mission.start"%string -> wc_allow_roots config ≠ [] ->
   forall m, rq_mission_id request = Some m -> m ≠ ""%string -> exists cwd, mission_cwd m w = Ok cwd /\ allowed_path (Some cwd) = true).
Proof using Type.
  clear repr casefold fresh. unfold permitted, starts_in_roots. by setoid_rewrite names_inside_allowed.
Qed.

(** What the code's tests on the name come to for an operation of the catalog. *)
Definition plain_name (s : string) : bool := sforall (fun c => (code c <? 128) && bool_decide (lower_char c = c)) s.
Definition catalog_names_ok : bool :=
  forallb (fun sp =>
    let o := sp_operation sp in
    plain_name o && Bool.eqb (bool_decide (o ∈ ["mission.create"; "create"]%string)) (bool_decide (o = "mission.create"%string)) &&
    Bool.eqb (bool_decide (o ∈ ["worker.restore"; "restore"]%string)) (bool_decide (o = "worker.restore"%string)) &&
    Bool.eqb (bool_decide (o ∈ ["mission.suspend_until_credits"; "power"]%string) || power_operation o)
      (bool_decide (o = "mission.suspend_until_credits"%string))) OPERATIONS.
Lemma catalog_names : catalog_names_ok = true.
Proof. vm_compute. reflexivity. Qed.

Hypothesis casefold_plain : forall s, plain_name s = true -> casefold s = s.

Lemma start_error_other operation mission_id w : operation ≠ "mission.start"%string -> start_error operation mission_id w = Ok None.
Proof. intros Hne. unfold start_error. destruct mission_id; [|done]. by rewrite bool_decide_false. Qed.

(** The answer of the policy, for each family of operations. *)
Definition policy_answer (request : CommandRequest) (w : W) (r : result cmd_exn (option CommandError)) : Prop :=
  match r with
  | Raise e => ~ permitted request w /\ exists m, rq_operation request = "mission.start"%string /\ rq_mission_id request = Some m /\ mission_cwd m w = Raise e
  | Ok (Some e) => ~ permitted request w /\ ce_code e = "forbidden"%string /\ rq_operation request ∈ "mission.start"%string :: own_opt_in
  | Ok None => permitted request w <-> (wc_allow_control config || _specific_mutation_opted_in (rq_operation request)) = true
  end.

Lemma create_answer request w : rq_operation request = "mission.create"%string ->
  policy_answer request w (Ok (if negb (wc_allow_create config) then Some (forbidden "this worker has not opted in to remote mission creation")
    else if negb (allowed_path (dget "cwd" (rq_params request))) then Some (forbidden "mission creation must use a path inside an enrolled allowed root") else None)).
Proof.
  clear casefold_plain casefold repr fresh. intros E. pose proof (permitted_allowed request w) as Hp. unfold policy_answer, starts_in_roots, _specific_mutation_opted_in in *. rewrite E in *.
  destruct (wc_allow_create config); cbn; [|split_and!; [|done|set_solver]; intros (_ & H & _)%Hp; by destruct H].
  destruct (allowed_path (dget "cwd" _)); cbn; [|split_and!; [|done|set_solver]; intros (_ & H & _)%Hp; by destruct H].
  rewrite orb_true_r. split; [done|]. intros _. apply Hp. split_and!; try done. unfold own_opt_in. set_solver.
Qed.
Lemma restore_answer request w : rq_operation request = "worker.restore"%string ->
  policy_answer request w (Ok (if negb (wc_allow_restore config) then Some (forbidden "this worker has not opted in to remote restore")
    else if negb (allowed_path (dget "input" (rq_params request))) then Some (forbidden "restore input must be inside an enrolled allowed root") else None)).
Proof.
  clear casefold_plain casefold repr fresh. intros E. pose proof (permitted_allowed request w) as Hp. unfold policy_answer, starts_in_roots, _specific_mutation_opted_in in *. rewrite E in *.
  destruct (wc_allow_restore config); cbn; [|split_and!; [|done|set_solver]; intros (_ & _ & H & _)%Hp; by destruct H].
  destruct (allowed_path (dget "input" _)); cbn; [|split_and!; [|done|set_solver]; intros (_ & _ & H & _)%Hp; by destruct H].
  rewrite !orb_true_r. split; [done|]. intros _. apply Hp. split_and!; try done. unfold own_opt_in. set_solver.
Qed.
Lemma power_answer request w : rq_operation request = "mission.suspend_until_credits"%string ->
  policy_answer request w (Ok (if negb (wc_allow_power config) then Some (forbidden "this worker has not opted in to remote power operations") else None)).
Proof.
  clear casefold_plain casefold repr fresh. intros E. pose proof (permitted_allowed request w) as Hp. unfold policy_answer, starts_in_roots, _specific_mutation_opted_in in *. rewrite E in *.
  destruct (wc_allow_power config); cbn; [|split_and!; [|done|set_solver]; intros (_ & _ & _ & H & _)%Hp; by specialize (H eq_refl)].
  rewrite !orb_true_r. split; [done|]. intros _. apply Hp. split_and!; try done. unfold own_opt_in. set_solver.
Qed.
Lemma other_answer request w : rq_operation request ∉ own_opt_in ->
  policy_answer request w (start_error (rq_operation request) (rq_mission_id request) w).
Proof.
  clear casefold_plain casefold repr fresh. intros Hn. assert (Hs : _specific_mutation_opted_in (rq_operation request) = false).
  { unfold _specific_mutation_opted_in, own_opt_in in *. rewrite !bool_decide_false by set_solver. done. }
  pose proof (permitted_allowed request w) as Hp. set (starts := _ -> wc_allow_roots config ≠ [] -> _) in Hp.
  assert (Hq : permitted request w <-> wc_allow_control config = true /\ starts).
  { rewrite Hp. clear Hp. split; [intros (H & _ & _ & _ & ?); split; [by apply H|done]|].
    intros [? ?]. split_and!; try done; intros E; exfalso; apply Hn; rewrite E; unfold own_opt_in; set_solver. }
  clear Hp. rename Hq into Hp. unfold policy_answer. rewrite Hs, orb_false_r. unfold start_error, starts in *.
  destruct (rq_mission_id request) as [m|]; [|rewrite Hp; split; [by intros [? _]|by intros]].
  destruct (bool_decide _ && negb _ && truthy_str m) eqn:Ec.
  - apply andb_true_iff in Ec as [[Eo Er]%andb_true_iff Et]. unfold truthy_str in Et. bool_to_prop.
    destruct (mission_cwd m w) as [cwd|e] eqn:Ecwd.
    + destruct (allowed_path (Some cwd)) eqn:Ea; [|split_and!; [|done|rewrite Eo; set_solver]]; rewrite Hp.
      * split; [by intros [? _]|]. intros ?. split; [done|]. intros _ _ m' [= <-] _. eauto.
      * intros [_ H]. destruct (H Eo Er m eq_refl Et) as (c & Hc & Hac). congruence.
    + split; [|eauto]. rewrite Hp. intros [_ H]. destruct (H Eo Er m eq_refl Et) as (c & Hc & Hac). congruence.
  - rewrite Hp. split; [by intros [? _]|]. intros ?. split; [done|]. intros Eo Er m' [= <-] Et. exfalso.
    unfold truthy_str in Ec. by rewrite (bool_decide_true _ Eo), (bool_decide_false _ Er), (bool_decide_false _ Et) in Ec.
Qed.

Lemma policy_cases request spec w : find_operation (rq_operation request) = Some spec ->
  (_policy_error request w).2 = w /\ policy_answer request w (_policy_error request w).1.
Proof using casefold_plain.
  intros Hf. apply find_operation_in in Hf as [Hin Ho].
  pose proof catalog_names as Hn. unfold catalog_names_ok in Hn. rewrite forallb_forall in Hn.
  specialize (Hn spec (proj1 (list_elem_of_In _ _) Hin)). rewrite Ho in Hn. cbv zeta in Hn.
  apply andb_true_iff in Hn as [Hn Hpow%Bool.eqb_prop]. apply andb_true_iff in Hn as [Hn Hres%Bool.eqb_prop].
  apply andb_true_iff in Hn as [Hplain Hcre%Bool.eqb_prop].
  unfold _policy_error, create_error, restore_error, power_error. rewrite casefold_plain by done. rewrite Hcre, Hres, Hpow.
  destruct (decide (rq_operation request = "mission.create"%string)) as [E1|N1]; [|destruct (decide (rq_operation request = "worker.restore"%string)) as [E2|N2];
    [|destruct (decide (rq_operation request = "mission.suspend_until_credits"%string)) as [E3|N3]]].
  - pose proof (create_answer request w E1) as H. rewrite (bool_decide_true (rq_operation request = "mission.create"%string)), (bool_decide_false (rq_operation request = "worker.restore"%string)), (bool_decide_false (rq_operation request = "mission.suspend_until_credits"%string)),
      start_error_other by congruence.
    revert H. by repeat case_match.
  - pose proof (restore_answer request w E2) as H. rewrite (bool_decide_false (rq_operation request = "mission.create"%string)), (bool_decide_true (rq_operation request = "worker.restore"%string)), (bool_decide_false (rq_operation request = "mission.suspend_until_credits"%string)),
      start_error_other by congruence.
    revert H. by repeat case_match.
  - pose proof (power_answer request w E3) as H. rewrite (bool_decide_false (rq_operation request = "mission.create"%string)), (bool_decide_false (rq_operation request = "worker.restore"%string)), (bool_decide_true (rq_operation request = "mission.suspend_until_credits"%string)),
      start_error_other by congruence.
    revert H. by repeat case_match.
  - rewrite !bool_decide_false by done. split; [done|]. apply other_answer. unfold own_opt_in. set_solver.
Qed.

(** Every operation that only reads can run without an opt-in. *)
Lemma reads_unguarded spec : spec ∈ OPERATIONS -> sp_mutating spec = false -> sp_operation spec ∉ "mission.start"%string :: own_opt_in.
Proof.
  clear casefold_plain casefold repr fresh. intros Hin Hm.
  assert (Hc : forallb (fun sp => sp_mutating sp || negb (bool_decide (sp_operation sp ∈ "mission.start"%string :: own_opt_in))) OPERATIONS = true)
    by (vm_compute; reflexivity).
  rewrite forallb_forall in Hc. specialize (Hc spec (proj1 (list_elem_of_In _ _) Hin)). rewrite Hm in Hc. cbn in Hc.
  apply negb_true_iff in Hc. by apply bool_decide_eq_false in Hc.
Qed.

Definition forbidden_answer (s : WorkerSession) (request : CommandRequest) (r : result cmd_exn (list Message)) : Prop :=
  exists ack e, r = Ok (answer s ack (refused request e)) /\ ce_code e = "forbidden"%string.
Definition unknown_mission (request : CommandRequest) (w : W) (r : result cmd_exn (list Message)) : Prop :=
  exists m e, rq_operation request = "mission.start"%string /\ rq_mission_id request = Some m /\ mission_cwd m w = Raise e /\ r = Raise e.
Definition executed (s : WorkerSession) (request : CommandRequest) (w w' : W) (r : result cmd_exn (list Message)) : Prop :=
  exists res, execute repr (to_local request) w = (res, w') /\
    match res with Ok a => exists ack, r = Ok (answer s ack a) | Raise e => r = Raise e end.

(** [_command] either refuses and changes nothing, or runs the request. *)
Lemma command_cases s request w r w' : _command s request w = (r, w') ->
  match find_operation (rq_operation request) with
  | None => w' = w
  | Some spec =>
      (sp_mutating spec = true /\ ~ permitted request w /\ w' = w /\ (forbidden_answer s request r \/ unknown_mission request w r)) \/
      ((sp_mutating spec = true -> permitted request w) /\ executed s request w w' r)
  end.
Proof using casefold_plain.
  unfold _command. destruct (find_operation _) as [spec|] eqn:Ef.
  - destruct (policy_cases request spec w Ef) as [Hw Hp]. destruct (_policy_error request w) as [[[e|]|e] w1]; cbn in Hw, Hp; subst w1.
    + intros [= <- <-]. left. destruct Hp as (Hnp & Hc & Hin). destruct (sp_mutating spec) eqn:Em.
      * split_and!; [done..|left]. by do 2 eexists.
      * exfalso. pose proof (find_operation_in _ _ Ef) as [Hop Ho]. by rewrite <- Ho in Hin; apply (reads_unguarded spec).
    + destruct (sp_mutating spec) eqn:Em; cbn [andb].
      * rewrite <- negb_orb. destruct (wc_allow_control config || _) eqn:Ec; cbn [negb].
        -- destruct (execute _ _ _) as [[res|e] w1] eqn:Ex; intros [= <- <-]; right; (split; [intros; by apply Hp|eexists; split; [done|cbn; eauto]]).
        -- intros [= <- <-]. left. split_and!; [done| |done|left]; [|by do 2 eexists]. intros H%Hp. done.
      * destruct (execute _ _ _) as [[res|e] w1] eqn:Ex; intros [= <- <-]; right; (split; [done|eexists; split; [done|cbn; eauto]]).
    + intros [= <- <-]. left. destruct Hp as (Hnp & m & Eo & Emi & Ec). split_and!; [|done|done|right; by do 2 eexists].
      pose proof (find_operation_in _ _ Ef) as [Hop Ho]. destruct (sp_mutating spec) eqn:Em; [done|]. exfalso.
      apply (reads_unguarded spec Hop Em). rewrite Ho, Eo. apply list_elem_of_here.
  - assert (Hpe : (_policy_error request w).2 = w) by (unfold _policy_error; by repeat case_match).
    destruct (_policy_error request w) as [[[e|]|e] w1]; cbn in Hpe; subst w1; cbn; [by intros [= _ <-]| |by intros [= _ <-]].
    unfold execute, lookup. cbn [rq_operation to_local]. rewrite Ef. by intros [= _ <-].
Qed.

(** A command of the current connection. *)
Definition current (s : WorkerSession) (m : Message) : Prop :=
  ws_generation s ≠ 0 /\ ms_generation m = ws_generation s /\ ws_max_generation s <= ms_generation m.

Lemma handle_command m s w r s' w' : ms_type m = "command"%string -> handle m (s, w) = (r, (s', w')) ->
  s' = s /\
  ((~ current s m /\ w' = w /\ exists code text, r = Ok [error s code text (ms_id m)] /\ code ∈ ["not-welcomed"; "stale-generation"]%string) \/
   (current s m /\ match from_json repr (JObj (ms_payload m)) with
                   | Raise f => w' = w /\ r = Raise (ECommandFailure f)
                   | Ok request => _command s request w = (r, w')
                   end)).
Proof using Type.
  clear casefold_plain. intros Hk. unfold handle. rewrite Hk. rewrite !bool_decide_false by done. cbn [negb]. rewrite (bool_decide_true (_ = _)) by done. cbn [negb].
  unfold current. destruct (Z.eqb_spec (ws_generation s) 0) as [E0|N0].
  { intros [= <- <- <-]. split; [done|left]. split_and!; [by intros []|done|]. do 2 eexists. split; [done|set_solver]. }
  destruct (Z.eqb_spec (ms_generation m) (ws_generation s)) as [Eg|Ng]; cbn [negb orb].
  2: { intros [= <- <- <-]. split; [done|left]. split_and!; [by intros (_ & ? & _)|done|]. do 2 eexists. split; [done|set_solver]. }
  destruct (Z.ltb_spec (ms_generation m) (ws_max_generation s)).
  { intros [= <- <- <-]. split; [done|left]. split_and!; [lia|done|]. do 2 eexists. split; [done|set_solver]. }
  destruct (from_json _ _) as [request|f]; [|intros [= <- <- <-]; split; [done|right]; by split_and!].
  destruct (_command s request w) as [r1 w1]. intros [= <- <- <-]. split; [done|right]. by split_and!.
Qed.
End session.

(** C38: A coordinator command reaches the command layer only on the connection
    it was sent on and, if it changes anything, only when the worker's own
    enrolment permits it - remote control or, for creation, restore and power,
    that operation's own opt-in, with the paths it names and the checkout of a
    mission it starts resolving into the first enrolled root that is still in
    place ([inside]).  Any other command changes nothing: it is answered with
    [forbidden], with an error when it belongs to an older connection, or, for
    the start of a mission the store does not know while roots are enrolled,
    with no answer at all: the look-up's exception leaves [handle] and the
    connection drops. *)
Theorem only_permitted_commands_run {W : Type} `{!CommandEnv W} `{!WorkerEnv W} (repr : json -> string) (casefold : string -> string)
    (resolve resolve_strict : string -> option string) (config : WorkerConfig) (fresh : nat -> string)
    (m : Message) (s s' : WorkerSession) (w w' : W) (r : result cmd_exn (list Message)) :
  (forall o, plain_name o = true -> casefold o = o) ->
  ms_type m = "command"%string ->
  handle repr casefold resolve resolve_strict config fresh m (s, w) = (r, (s', w')) ->
  s' = s /\
  ((~ current s m /\ w' = w /\ exists code text, r = Ok [error config fresh s code text (ms_id m)] /\ code ∈ ["not-welcomed"; "stale-generation"]%string) \/
   (current s m /\
    match from_json repr (JObj (ms_payload m)) with
    | Raise f => w' = w /\ r = Raise (ECommandFailure f)
    | Ok request =>
        match find_operation (rq_operation request) with
        | None => w' = w
        | Some spec =>
            (sp_mutating spec = true /\ ~ permitted resolve resolve_strict config request w /\ w' = w /\
               (forbidden_answer config fresh s request r \/ unknown_mission request w r)) \/
            ((sp_mutating spec = true -> permitted resolve resolve_strict config request w) /\ executed repr config fresh s request w w' r)
        end
    end)).
Proof.
  intros Hc Hk Hh. apply handle_command in Hh as [-> H]; [|done]. split; [done|].
  destruct H as [H|[Hcur H]]; [by left|right]. split; [done|]. destruct (from_json _ _) as [request|f]; [|done].
  by apply command_cases in H.
Qed.

(** A read-only worker that lets the coordinator create missions under /srv/a. *)
Lemma lower_plain o : plain_name o = true -> lower o = o.
Proof.
  unfold plain_name, lower. induction o as [|c o IH]; cbn; [done|]. intros [[_ Hc]%andb_true_iff Ho]%andb_true_iff. bool_to_prop. by rewrite Hc, IH.
Qed.
#[local] Instance counting_commands : CommandEnv nat := {
  open_reader := mret tt; resolve_mission_ref := mret; ordinal_task_id := fun _ z => mret z; handler := fun _ _ _ _ n => (Ok [], S n) }.
#[local] Instance counting_worker : WorkerEnv nat := {
  command_recorded := fun _ _ => false; mission_cwd := fun _ _ => Raise (Commands.EKeyError None); known_mission := fun _ _ => None;
  save_generation := fun _ n => n; terminal_launcher := false; open_terminal := fun _ _ _ _ n => n; close_terminal := fun _ n => n }.
Definition demo_config : WorkerConfig := Config "w1" "laptop" "wss://c" "secret" false false true ["/srv/a"; "/srv/b"]%string false false false.
Definition demo_session : WorkerSession := (handle_welcome 3 0 (WorkerSession_init 2)).2.
Definition demo_command (operation : string) (params : dict) : Message :=
  Msg "command" "w1" 3 [("schema_version"%string, JInt 1); ("operation"%string, JStr operation); ("params"%string, JObj params);
    ("mission_id"%string, JStr "m1"); ("target"%string, JStr "laptop"); ("request_id"%string, JStr "r1")] "i1" (JInt 1).
Definition demo_create (cwd : string) : Message := demo_command "mission.create" [("prompt"%string, JStr "p"); ("cwd"%string, JStr cwd)].
Definition demo_handle (m : Message) : result cmd_exn (list Message) * (WorkerSession * nat) :=
  handle (fun _ => EmptyString) lower Some Some demo_config (fun _ => "i2"%string) m (demo_session, 5%nat).

Lemma only_permitted_commands_run_witness :
  (demo_handle (demo_create "/srv/a/x")).2.1 = demo_session /\
  (demo_handle (demo_create "/srv/a/x")).2.2 = 6%nat /\ (demo_handle (demo_create "/srv/c")).2.2 = 5%nat /\
  (demo_handle (demo_command "mission.pause" [])).2.2 = 5%nat.
Proof.
  split; [|split; [|split]; vm_compute; reflexivity].
  destruct (demo_handle (demo_create "/srv/a/x")) as [r [s' w']] eqn:E. unfold demo_handle in E. cbn [fst snd].
  exact (proj1 (only_permitted_commands_run (fun _ => EmptyString) lower Some Some demo_config (fun _ => "i2"%string) (demo_create "/srv/a/x")
    demo_session s' 5%nat w' r lower_plain eq_refl E)).
Defined.

(** A path in the second enrolled root is refused. *)
Example second_root_refused : _path_allowed Some Some "/srv/b/x" (wc_allow_roots demo_config) = false.
Proof. vm_compute. reflexivity. Qed.
