(* ===== verification/Selection.v ===== *)
(** * Choosing the provider of the next iteration ([ralph_robin.py])

    [select_provider] and [select_route] with the selectors they try in turn.
    A decision is the dictionary [usage_snapshot_and_decision] returned for an
    entry of the rotation, in rotation order.  [fl] rounds an exact quotient or
    difference to a double; nothing is assumed of it.  [monthly_days] is the
    length of the current month that [copilot_monthly_window_days] computes. *)

From Stdlib Require Import QArith.
From S2P Require Import Prelude Py.
From stdpp Require Import options.
Local Open Scope Z_scope.

(** [isinstance(x, int)] includes the booleans. *)
Definition as_int (j : json) : option Z := match j with JInt z => Some z | JBool b => Some (Z.b2z b) | _ => None end.

(** ** Capacity scores *)

Definition _NON_PLAN_RANKING_SCOPES : list string := ["5h"%string].
Definition _SCOPE_PERIOD_DAYS : list (string * Q) :=
  [("5h"%string, 5 # 24); ("weekly"%string, 7 # 1); ("monthly"%string, 30 # 1); ("budget"%string, 30 # 1)]%Q.

Section scores.
Context (fl : Q -> Q) (now : Z) (monthly_days : Q).

Definition fsub (a : pyfloat) (b : Q) : pyfloat := match a with Fin q => Fin (fl (q - b)) | _ => a end.
Definition fdiv (a : pyfloat) (b : Q) : pyfloat := match a with Fin q => Fin (fl (q / b)) | _ => a end.
(** [float(rem)] of an int or a float. *)
Definition to_float (j : json) : option pyfloat :=
  match j with JInt z => Some (Fin (fl (inject_Z z))) | _ => jnum j end.
Definition text_of (j : option json) : string := match j with Some (JStr s) => s | _ => EmptyString end.

Definition _scope_pace_remaining (window : dict) : option pyfloat :=
  let kind := match dget "kind" window with Some (JStr k) => if truthy_str k then k else "reset_window"%string | _ => "reset_window"%string end in
  if bool_decide (kind ∈ ["balance"; "ungated"; "unknown"]%string) then None
  else
    rem ← dget "remaining" window ≫= to_float;
    match dget "reset_epoch" window ≫= as_int with
    | Some reset_epoch =>
        if now <? reset_epoch then
          let days_left := fl (inject_Z (reset_epoch - now) / 86400) in
          let name := text_of (dget "name" window) in
          let total_days := if bool_decide (name = "monthly"%string) then Some monthly_days
                            else snd <$> first (fun e => bool_decide (e.1 = name)) _SCOPE_PERIOD_DAYS in
          match total_days with
          | Some total => if Qle_bool total 0 then Some (fdiv rem (if Qle_bool 1 days_left then days_left else 1))
                          else Some (fsub rem (fl (fl (days_left / total) * 100)))
          | None => Some (fdiv rem (if Qle_bool 1 days_left then days_left else 1))
          end
        else Some (fdiv rem 7)
    | None => Some (fdiv rem 7)
    end.

(** The lowest score so far, and a further window. *)
Definition lower_pace (binding : option pyfloat) (window : json) : option pyfloat :=
  match window with
  | JObj w =>
      if bool_decide (text_of (dget "name" w) ∈ _NON_PLAN_RANKING_SCOPES) then binding
      else match _scope_pace_remaining w, binding with
           | None, _ => binding
           | Some score, None => Some score
           | Some score, Some b => if flt score b then Some score else Some b
           end
  | _ => binding
  end.
Definition _binding_plan_pace (windows : option json) : option pyfloat :=
  match windows with Some (JList l) => foldl lower_pace None l | _ => None end.
Definition remaining_daily_capacity (decision : dict) : option pyfloat := _binding_plan_pace (dget "windows" decision).
Definition _route_remaining_daily_capacity (decision : dict) : option pyfloat := _binding_plan_pace (dget "windows" decision).
End scores.

(** ** Reading a decision *)

Definition usable (d : dict) : bool := bool_decide (dget "usable" d = Some (JBool true)).
Definition reason_in (names : list string) (d : dict) : bool :=
  match dget "reason" d with Some (JStr r) => bool_decide (r ∈ names) | _ => false end.
Definition wait_until (d : dict) : option Z := dget "wait_until" d ≫= as_int.
Definition decision_has_blocked_scope (d : dict) (scope_name : string) : bool :=
  match dget "exhausted" d with
  | Some (JList l) => existsb (fun w => match w with JObj o => bool_decide (dget "name" o = Some (JStr scope_name)) | _ => false end) l
  | _ => false
  end.
Definition weekly_window_exhausted (d : dict) : bool := decision_has_blocked_scope d "weekly".
Definition even_burn_candidate (d : dict) : bool :=
  usable d || (reason_in ["rate-limited"%string] d && negb (weekly_window_exhausted d)) ||
  (reason_in ["budget-exhausted"%string] d && negb (decision_has_blocked_scope d "budget")).

Definition rotation_order_indices (length current_index : nat) : list nat :=
  (fun i => (current_index + i) mod length)%nat <$> seq 0 length.

(** ** The selectors *)

(** [scored.sort(reverse=True); scored[0]] on (score, ..., -rank, index). *)
Definition scored_lt (a b : pyfloat * nat * nat) : bool :=
  if feq a.1.1 b.1.1 then ((b.1.2 <? a.1.2) || ((b.1.2 =? a.1.2) && (a.2 <? b.2)))%nat else flt a.1.1 b.1.1.
Definition best_scored (l : list (pyfloat * nat * nat)) : option nat :=
  snd <$> head (sort_by (fun a b => negb (scored_lt a b)) l).

(** [rotation_rank[i]] *)
Definition rotation_rank (length current_index i : nat) : nat :=
  match list_find (eq i) (rotation_order_indices length current_index) with Some (rank, _) => rank | None => 0%nat end.

Section select.
Context (decisions : list dict) (keys : list string) (current_index : nat) (skipped : gset string).
Context (capacity_fn : dict -> option pyfloat).

Definition dec_at (i : nat) : dict := default [] (decisions !! i).
Definition key_at (i : nat) : string := default EmptyString (keys !! i).
Definition active (i : nat) : bool := negb (bool_decide (key_at i ∈ skipped)).
Definition ready (i : nat) : bool := usable (dec_at i) && active i.
Definition indices : list nat := seq 0 (length keys).
Definition ranked (candidates : list nat) : list (pyfloat * nat * nat) :=
  omap (fun i => (fun score => (score, rotation_rank (length keys) current_index i, i)) <$> capacity_fn (dec_at i)) candidates.

Definition even_burn_index : option nat :=
  let rankable := List.filter (fun i => active i && bool_decide (is_Some (capacity_fn (dec_at i))) && even_burn_candidate (dec_at i)) indices in
  if (length rankable <? 2)%nat then None
  else
    let ready_ones := List.filter (fun i => usable (dec_at i)) rankable in
    if (length ready_ones <? 2)%nat then None else best_scored (ranked ready_ones).

Definition _even_burn_route_index : option nat :=
  let rankable := List.filter (fun i => active i && bool_decide (is_Some (capacity_fn (dec_at i)))) indices in
  if (length rankable <? 2)%nat then None
  else
    let ready_ones := List.filter (fun i => usable (dec_at i)) rankable in
    if (length ready_ones <? 2)%nat then None else best_scored (ranked ready_ones).

Definition _count_for (completed_counts : gmap string Z) (key : string) : Z := Z.max 0 (default 0 (completed_counts !! key)).

Definition mixed_capacity_fair_index (completed_counts : gmap string Z) : option nat :=
  let usable_ones := List.filter (fun i => active i && ((i <? length decisions)%nat && usable (dec_at i))) indices in
  let rankable i := bool_decide (is_Some (capacity_fn (dec_at i))) in
  if negb (existsb rankable usable_ones) || forallb rankable usable_ones then None
  else
    let count i := _count_for completed_counts (key_at i) in
    match usable_ones with
    | [] => None
    | i0 :: rest =>
        let min_count := foldl Z.min (count i0) (count <$> rest) in
        let tied := List.filter (fun i => count i =? min_count) usable_ones in
        let tied_rankable := List.filter rankable tied in
        let in_rotation := first (fun i => bool_decide (i ∈ tied)) (rotation_order_indices (length keys) current_index) in
        if (2 <=? length tied_rankable)%nat then best_scored (ranked tied_rankable)
        else match in_rotation with Some i => Some i | None => head tied end
    end.

(** ** Selections *)

Record selection : Type := Selection {
  sel_index : option nat;
  sel_reason : string;
  sel_all_rate_limited : bool;
}.

(** The blocked entry that recovers first, and when. *)
Definition soonest_step (blocked_reasons : list string) (best : option (nat * Z)) (i : nat) : option (nat * Z) :=
  match wait_until (dec_at i) with
  | Some w =>
      if reason_in blocked_reasons (dec_at i) then
        match best with
        | None => Some (i, w)
        | Some (_, bw) => if w <? bw then Some (i, w) else best
        end
      else best
  | None => best
  end.
Definition soonest (blocked_reasons : list string) (candidates : list nat) : option (nat * Z) := foldl (soonest_step blocked_reasons) None candidates.

Definition fallback (all_limited : bool) (best : option (nat * Z)) : selection :=
  match best with
  | Some (i, _) => Selection (Some i) "all-unusable" all_limited
  | None =>
      match first active (rotation_order_indices (length keys) current_index) with
      | Some i => Selection (Some i) "all-unusable" false
      | None => Selection None "all-skipped" false
      end
  end.

(** The current entry, or the next ready one in rotation order. *)
Definition keep_or_advance : option selection :=
  if ready current_index then Some (Selection (Some current_index) "current-usable" false)
  else (fun i => Selection (Some i) "advanced-to-usable" false) <$>
       first ready (tail (rotation_order_indices (length keys) current_index)).

Definition BLOCKED_PROVIDER : list string := ["rate-limited"; "budget-exhausted"; "insufficient-balance"]%string.
Definition BLOCKED_ROUTE : list string := ["rate-limited"; "budget-exhausted"; "insufficient-balance"; "blocked"; "missing-cli"]%string.

Definition select_route (even_burn : bool) (completed_counts : gmap string Z) : selection :=
  match (if even_burn then mixed_capacity_fair_index completed_counts else None), (if even_burn then _even_burn_route_index else None), keep_or_advance with
  | Some i, _, _ => Selection (Some i) "fair-rotation" false
  | None, Some i, _ => Selection (Some i) "even-burn" false
  | None, None, Some s => s
  | None, None, None =>
      let best := soonest BLOCKED_ROUTE (List.filter active indices) in
      fallback (bool_decide (is_Some best)) best
  end.

(** [routes]: whether [cfg.routes] is not empty. *)
Definition select_provider (routes even_burn : bool) (completed_counts : gmap string Z) : selection :=
  if routes then select_route even_burn completed_counts else
  match (if even_burn then mixed_capacity_fair_index completed_counts else None), (if even_burn then even_burn_index else None), keep_or_advance with
  | Some i, _, _ => Selection (Some i) "fair-rotation" false
  | None, Some i, _ => Selection (Some i) "even-burn" false
  | None, None, Some s => s
  | None, None, None =>
      match first (fun i => active i && negb (reason_in BLOCKED_PROVIDER (dec_at i))) (rotation_order_indices (length keys) current_index) with
      | Some i => Selection (Some i) "advanced-to-undetermined" false
      | None =>
          let actives := List.filter active indices in
          let all_active_blocked := negb (bool_decide (actives = [])) &&
            forallb (fun i => reason_in BLOCKED_PROVIDER (dec_at i) && bool_decide (is_Some (wait_until (dec_at i)))) actives in
          let best := soonest BLOCKED_PROVIDER actives in
          fallback (all_active_blocked && bool_decide (is_Some best)) best
      end
  end.
End select.

(** ** Lemmas on the rotation order *)

Lemma elem_of_rotation n c i : (0 < n)%nat -> i ∈ rotation_order_indices n c <-> (i < n)%nat.
Proof.
  intros Hn. unfold rotation_order_indices. rewrite list_elem_of_fmap. split.
  - intros (k & -> & _). apply Nat.mod_upper_bound. lia.
  - intros Hi. exists ((i + (n - c mod n)) mod n)%nat. split.
    + rewrite <-Nat.Div0.add_mod_idemp_l, <-Nat.Div0.add_mod. rewrite <-Nat.Div0.add_mod_idemp_l.
      pose proof (Nat.mod_upper_bound c n ltac:(lia)). pose proof (Nat.div_mod_eq c n) as Hc.
      replace (c mod n + (i + (n - c mod n)))%nat with (i + 1 * n)%nat by lia.
      rewrite Nat.Div0.mod_add. symmetry. by apply Nat.mod_small.
    + apply elem_of_seq. pose proof (Nat.mod_upper_bound (i + (n - c mod n)) n ltac:(lia)). lia.
Qed.

Lemma rotation_head n c : (c < n)%nat -> rotation_order_indices n c = c :: tail (rotation_order_indices n c).
Proof.
  intros Hc. unfold rotation_order_indices. destruct n as [|n]; [lia|]. cbn [seq fmap list_fmap tail].
  rewrite Nat.add_0_r, Nat.mod_small by lia. done.
Qed.

(** ** Lemmas on the selectors *)

Lemma best_scored_elem l i : best_scored l = Some i -> exists e, e ∈ l /\ e.2 = i.
Proof.
  unfold best_scored. intros (e & He & ->)%fmap_Some. exists e. split; [|done].
  apply head_Some_elem_of in He. by apply elem_of_sort_by in He.
Qed.
Lemma best_scored_is_Some l : l <> [] -> is_Some (best_scored l).
Proof.
  intros Hl. unfold best_scored. destruct (sort_by _ l) as [|e l'] eqn:E; [|by eexists].
  destruct l as [|x l]; [done|]. pose proof (elem_of_sort_by (fun a b => negb (scored_lt a b)) x (x :: l)) as [_ H].
  rewrite E in H. specialize (H ltac:(set_solver)). set_solver.
Qed.
Lemma elem_of_List_filter {A} (p : A -> bool) l x : x ∈ List.filter p l <-> x ∈ l /\ p x = true.
Proof. by rewrite !list_elem_of_In, filter_In. Qed.

Section select_lemmas.
Context (decisions : list dict) (keys : list string) (current_index : nat) (skipped : gset string).
Context (capacity_fn : dict -> option pyfloat).
Local Abbreviation dec_at := (dec_at decisions).
Local Abbreviation active := (active keys skipped).
Local Abbreviation ready := (ready decisions keys skipped).
Local Abbreviation ranked := (ranked decisions keys current_index capacity_fn).

Lemma elem_of_ranked l e : e ∈ ranked l -> e.2 ∈ l.
Proof. unfold Selection.ranked. intros (i & Hi & He)%list_elem_of_omap. apply fmap_Some in He as (s & _ & ->). done. Qed.
Lemma best_ranked_elem l i : best_scored (ranked l) = Some i -> i ∈ l.
Proof. intros (e & He & <-)%best_scored_elem. by apply elem_of_ranked. Qed.

Lemma mixed_ready counts i :
  mixed_capacity_fair_index decisions keys current_index skipped capacity_fn counts = Some i ->
  ready i = true /\ (i < length keys)%nat.
Proof.
  unfold mixed_capacity_fair_index. set (usable_ones := List.filter _ (indices keys)).
  assert (Hin : forall j, j ∈ usable_ones -> ready j = true /\ (j < length keys)%nat).
  { intros j (Hj & Hp)%elem_of_List_filter. apply elem_of_seq in Hj. unfold Selection.ready.
    apply andb_true_iff in Hp as [-> [_ ->]%andb_true_iff]. split; [done|lia]. }
  clearbody usable_ones. destruct (_ || _); [done|]. destruct usable_ones as [|i0 rest]; [done|].
  set (tied := List.filter _ (i0 :: rest)).
  assert (Ht : forall j, j ∈ tied -> ready j = true /\ (j < length keys)%nat).
  { intros j (Hj & _)%elem_of_List_filter. auto. }
  clearbody tied. destruct (2 <=? _)%nat.
  - intros [H _]%best_ranked_elem%elem_of_List_filter. by apply Ht.
  - destruct (first _ _) as [j|] eqn:Ej; intros Hi.
    + simplify_eq. apply first_Some in Ej as [_ Hj%bool_decide_eq_true]. auto.
    + apply Ht. by apply head_Some_elem_of.
Qed.

(** The extra condition of [even_burn_index] never decides anything. *)
Lemma even_burn_ready :
  even_burn_index decisions keys current_index skipped capacity_fn = _even_burn_route_index decisions keys current_index skipped capacity_fn.
Proof.
  unfold even_burn_index, _even_burn_route_index.
  set (p := fun i => active i && bool_decide (is_Some (capacity_fn (dec_at i)))).
  assert (Hf : forall l, List.filter (fun i => usable (dec_at i)) (List.filter (fun i => p i && even_burn_candidate (dec_at i)) l)
                    = List.filter (fun i => usable (dec_at i)) (List.filter p l)).
  { induction l as [|x l IH]; [done|]. cbn. destruct (p x) eqn:Ep; cbn; [|done].
    destruct (even_burn_candidate (dec_at x)) eqn:Ec; cbn; [by rewrite IH|].
    destruct (usable (dec_at x)) eqn:Eu; [|done]. unfold even_burn_candidate in Ec. by rewrite Eu in Ec. }
  assert (Hle : forall (q : nat -> bool) l, (length (List.filter q l) <= length l)%nat) by (intros; apply filter_length_le).
  pose proof (Hle (fun i => usable (dec_at i)) (List.filter p (indices keys))) as H1.
  pose proof (Hle (fun i => usable (dec_at i)) (List.filter (fun i => p i && even_burn_candidate (dec_at i)) (indices keys))) as H2.
  rewrite Hf in H2 |- *. set (r := List.filter (fun i => usable (dec_at i)) (List.filter p (indices keys))) in *.
  set (m1 := length (List.filter _ (indices keys))) in H2 |- *. set (m2 := length (List.filter p (indices keys))) in *.
  destruct (Nat.ltb_spec (length r) 2) as [Hr|Hr]; [by destruct (m1 <? 2)%nat, (m2 <? 2)%nat|].
  by rewrite !(proj2 (Nat.ltb_ge _ _)) by lia.
Qed.

Lemma even_burn_sound i :
  _even_burn_route_index decisions keys current_index skipped capacity_fn = Some i -> ready i = true /\ (i < length keys)%nat.
Proof.
  unfold _even_burn_route_index. destruct (_ <? 2)%nat; [done|]. destruct (_ <? 2)%nat; [done|].
  intros H%best_ranked_elem. apply elem_of_List_filter in H as [H Hu]. apply elem_of_List_filter in H as [H Ha].
  apply elem_of_seq in H. apply andb_true_iff in Ha as [Ha _]. unfold Selection.ready. rewrite Hu, Ha. split; [done|lia].
Qed.

Context (current_ok : (current_index < length keys)%nat).

Lemma keep_or_advance_sound s :
  keep_or_advance decisions keys current_index skipped = Some s ->
  exists i r, s = Selection (Some i) r false /\ ready i = true /\ (i < length keys)%nat.
Proof using current_ok.
  unfold keep_or_advance. destruct (ready current_index) eqn:E.
  - intros [= <-]. by eexists _, _.
  - intros (i & Hi & ->)%fmap_Some. apply first_Some in Hi as [Hi Hr]. eexists _, _. split; [done|]. split; [done|].
    rewrite <-elem_of_rotation with (c := current_index) by lia. rewrite rotation_head by done. by right.
Qed.
Lemma keep_or_advance_none i :
  keep_or_advance decisions keys current_index skipped = None -> (i < length keys)%nat -> ready i = false.
Proof using current_ok.
  unfold keep_or_advance. destruct (ready current_index) eqn:E; [done|]. intros Hn%fmap_None Hi.
  rewrite <-elem_of_rotation with (c := current_index) in Hi by lia. rewrite rotation_head in Hi by done.
  apply elem_of_cons in Hi as [-> | Hi]; [done|]. destruct (ready i) eqn:Er; [|done].
  rewrite first_None in Hn. by rewrite (Hn i Hi) in Er.
Qed.

Lemma first_active_none : first active (rotation_order_indices (length keys) current_index) = None <-> forall i, (i < length keys)%nat -> active i = false.
Proof using current_ok.
  split.
  - intros Hn i Hi. rewrite first_None in Hn. apply Hn, elem_of_rotation; lia.
  - intros Ha. destruct (first _ _) eqn:E; [|done]. apply first_Some in E as [Hi Hr].
    apply elem_of_rotation in Hi; [|lia]. by rewrite Ha in Hr.
Qed.
End select_lemmas.

(** ** What is selected *)

Section selected.
Context (decisions : list dict) (keys : list string) (current_index : nat) (skipped : gset string).
Context (capacity_fn : dict -> option pyfloat) (routes even_burn : bool) (counts : gmap string Z).
Local Abbreviation dec_at := (dec_at decisions).
Local Abbreviation active := (active keys skipped).
Local Abbreviation ready := (ready decisions keys skipped).
Local Abbreviation chosen := (select_provider decisions keys current_index skipped capacity_fn routes even_burn counts).
Definition waiting (reasons : list string) (i : nat) : bool := reason_in reasons (dec_at i) && bool_decide (is_Some (wait_until (dec_at i))).
(** The last resort, when nothing is ready. *)
Definition unready : selection :=
  if routes then
    let best := soonest decisions BLOCKED_ROUTE (List.filter active (indices keys)) in
    fallback keys current_index skipped (bool_decide (is_Some best)) best
  else select_provider decisions keys current_index skipped capacity_fn false false counts.

Lemma soonest_spec reasons l : soonest decisions reasons l = None <-> forall i, i ∈ l -> waiting reasons i = false.
Proof.
  unfold soonest.
  assert (H : forall b, foldl (soonest_step decisions reasons) b l = None <-> b = None /\ forall i, i ∈ l -> waiting reasons i = false).
  { induction l as [|x l IH]; intros b; cbn; [set_solver|]. rewrite IH. unfold waiting at 2.
    split.
    - intros [Hs Hl]. revert Hs. unfold soonest_step. destruct (wait_until (dec_at x)) as [w|] eqn:Ew.
      + destruct (reason_in reasons (dec_at x)) eqn:Er; [destruct b as [[]|]; [destruct (_ <? _)|]; done|].
        intros ->. split; [done|]. intros i [-> | Hi]%elem_of_cons; [by rewrite Er|]. by apply Hl.
      + intros ->. split; [done|]. intros i [-> | Hi]%elem_of_cons; [by rewrite Ew, andb_false_r|]. by apply Hl.
    - intros [-> Hl]. split; [|intros i Hi; apply (Hl i); by right].
      specialize (Hl x ltac:(by left)). unfold soonest_step. destruct (wait_until (dec_at x)) as [w|]; [|done].
      destruct (reason_in _ _); [done|done]. }
  rewrite H. naive_solver.
Qed.
Lemma soonest_elem reasons l i w : soonest decisions reasons l = Some (i, w) -> i ∈ l.
Proof.
  unfold soonest. assert (H : forall b, foldl (soonest_step decisions reasons) b l = Some (i, w) -> b = Some (i, w) \/ i ∈ l).
  { induction l as [|x l IH]; intros b; cbn; [auto|]. intros [Hb|?]%IH; [|right; by right].
    revert Hb. unfold soonest_step. destruct (wait_until _); [|auto]. destruct (reason_in _ _); [|auto].
    destruct b as [[j bw]|]; [destruct (_ <? _)|]; intros; simplify_eq; auto; right; by left. }
  intros [?|?]%H; done.
Qed.

Lemma elem_of_actives i : i ∈ List.filter active (indices keys) <-> (i < length keys)%nat /\ active i = true.
Proof. rewrite elem_of_List_filter. unfold indices. rewrite elem_of_seq. split; intros [? ?]; split; auto; lia. Qed.

Context (current_ok : (current_index < length keys)%nat).

Lemma fallback_sound all_limited best :
  (forall i w, best = Some (i, w) -> (i < length keys)%nat /\ active i = true) ->
  let s := fallback keys current_index skipped all_limited best in
  (forall i, sel_index s = Some i -> (i < length keys)%nat /\ active i = true) /\
  (sel_index s = None -> forall i, (i < length keys)%nat -> active i = false).
Proof using current_ok.
  intros Hb. unfold fallback. destruct best as [[i w]|].
  - cbn. split; [|done]. intros j [= <-]. eauto.
  - destruct (first _ _) as [i|] eqn:E.
    + cbn. split; [|done]. intros j [= <-]. apply first_Some in E as [Hi Ha]. rewrite elem_of_rotation in Hi by lia. done.
    + cbn. split; [done|]. intros _. by apply (first_active_none keys current_index skipped current_ok).
Qed.

(** Whatever the mode: a ready entry without suspension, or the last resort. *)
Lemma select_cases :
  (exists i r, chosen = Selection (Some i) r false /\ ready i = true /\ (i < length keys)%nat) \/
  (chosen = unready /\ forall i, (i < length keys)%nat -> ready i = false).
Proof using current_ok.
  destruct (keep_or_advance decisions keys current_index skipped) as [s|] eqn:Ek.
  - left. assert (Hs := Ek). apply keep_or_advance_sound in Hs as (k & r & -> & Hk & Hkl); [|done].
    unfold select_provider, select_route. rewrite Ek, even_burn_ready.
    destruct even_burn; [|destruct routes; eauto 6].
    destruct (mixed_capacity_fair_index _ _ _ _ _ _) as [i|] eqn:Em.
    { apply mixed_ready in Em as []. destruct routes; eauto 6. }
    destruct (_even_burn_route_index _ _ _ _ _) as [i|] eqn:Ee.
    { apply even_burn_sound in Ee as []. destruct routes; eauto 6. }
    destruct routes; eauto 6.
  - assert (Hno : forall i, (i < length keys)%nat -> ready i = false) by (intros i Hi; exact (keep_or_advance_none decisions keys current_index skipped current_ok i Ek Hi)).
    right. split; [|done]. unfold unready, select_provider, select_route. rewrite Ek, even_burn_ready.
    destruct even_burn; [|by destruct routes].
    destruct (mixed_capacity_fair_index _ _ _ _ _ _) as [i|] eqn:Em.
    { apply mixed_ready in Em as [? H]. by rewrite Hno in *. }
    destruct (_even_burn_route_index _ _ _ _ _) as [i|] eqn:Ee.
    { apply even_burn_sound in Ee as [? H]. by rewrite Hno in *. }
    by destruct routes.
Qed.
End selected.

Section selected_theorems.
Context (decisions : list dict) (keys : list string) (current_index : nat) (skipped : gset string).
Context (capacity_fn : dict -> option pyfloat) (routes even_burn : bool) (counts : gmap string Z).
Context (current_ok : (current_index < length keys)%nat).
Local Abbreviation dec_at := (dec_at decisions).
Local Abbreviation active := (active keys skipped).
Local Abbreviation ready := (ready decisions keys skipped).
Local Abbreviation chosen := (select_provider decisions keys current_index skipped capacity_fn routes even_burn counts).

(** The last resort: an active entry, if there is one. *)
Lemma unready_sound :
  (forall i, (i < length keys)%nat -> ready i = false) ->
  let s := unready decisions keys current_index skipped capacity_fn routes counts in
  (forall i, sel_index s = Some i -> (i < length keys)%nat /\ active i = true) /\
  (sel_index s = None -> forall i, (i < length keys)%nat -> active i = false) /\
  (sel_all_rate_limited s = true <->
    if routes then exists i, (i < length keys)%nat /\ active i = true /\ waiting decisions BLOCKED_ROUTE i = true
    else (exists i, (i < length keys)%nat /\ active i = true) /\
         forall i, (i < length keys)%nat -> active i = true -> waiting decisions BLOCKED_PROVIDER i = true).
Proof using current_ok.
  intros Hno. unfold unready.
  assert (Hb : forall reasons i w, soonest decisions reasons (List.filter active (indices keys)) = Some (i, w) -> (i < length keys)%nat /\ active i = true).
  { intros reasons i w H%soonest_elem. by apply elem_of_actives in H. }
  destruct routes.
  - cbn zeta. match goal with |- context [fallback _ _ _ ?b ?o] => destruct (fallback_sound keys current_index skipped current_ok b o (Hb _)) as [H1 H2] end.
    split; [exact H1|]. split; [exact H2|].
    destruct (soonest _ _ _) as [[i w]|] eqn:Es.
    + rewrite bool_decide_eq_true_2 by done. cbn. split; [intros _|done].
      destruct (existsb (fun i => waiting decisions BLOCKED_ROUTE i) (List.filter active (indices keys))) eqn:Ex.
      * apply existsb_exists in Ex as (j & Hj & Hw). rewrite <-list_elem_of_In, elem_of_actives in Hj. naive_solver.
      * assert (Hn : soonest decisions BLOCKED_ROUTE (List.filter active (indices keys)) = None); [|congruence].
        apply soonest_spec. intros j Hj. destruct (waiting _ _ j) eqn:Ew; [|done].
        by rewrite (proj2 (existsb_exists _ _)) in Ex; [|exists j; rewrite <-list_elem_of_In].
    + rewrite bool_decide_eq_false_2 by (intros []; done). unfold fallback. split; [by destruct (first _ _)|].
      intros (j & Hj & Ha & Hw). rewrite soonest_spec in Es. rewrite Es in Hw; [done|]. by apply elem_of_actives.
  - cbn zeta. unfold select_provider.
    destruct (keep_or_advance decisions keys current_index skipped) as [s|] eqn:Ek.
    { apply keep_or_advance_sound in Ek as (i & r & _ & Hi & Hl); [|done]. by rewrite Hno in Hi. }
    destruct (first _ _) as [i|] eqn:Ef; cbn -[fallback].
    + apply first_Some in Ef as [Hi [Ha Hr]%andb_true_iff]. rewrite elem_of_rotation in Hi by lia.
      split; [by intros j [= <-]|]. split; [done|]. split; [done|]. intros [_ H]. specialize (H i Hi Ha).
      unfold waiting in H. apply andb_true_iff in H as [H _]. by rewrite H in Hr.
    + match goal with |- context [fallback _ _ _ ?b ?o] => destruct (fallback_sound keys current_index skipped current_ok b o (Hb _)) as [H1 H2] end.
      split; [exact H1|]. split; [exact H2|]. clear H1 H2.
      destruct (soonest _ _ _) as [[i w]|] eqn:Es.
      * rewrite (bool_decide_eq_true_2 (is_Some (Some (i, w)))) by done. rewrite andb_true_r. cbn.
        apply soonest_elem, elem_of_actives in Es as [Hi Ha].
        rewrite andb_true_iff, negb_true_iff, bool_decide_eq_false, forallb_forall. split.
        { intros [_ Hall]. split; [by exists i|]. intros j Hj Haj. apply Hall. rewrite <-list_elem_of_In. by apply elem_of_actives. }
        { intros [_ Hall]. split.
          - intros Hnil. assert (Hin : i ∈ List.filter active (indices keys)) by (by apply elem_of_actives). rewrite Hnil in Hin. set_solver.
          - intros j Hj. rewrite <-list_elem_of_In, elem_of_actives in Hj. destruct Hj. by apply Hall. }
      * rewrite (bool_decide_eq_false_2 (is_Some None)) by (intros []; done). rewrite andb_false_r. unfold fallback.
        split; [by destruct (first active _)|]. intros [(j & Hj & Ha) Hall]. rewrite soonest_spec in Es.
        specialize (Hall j Hj Ha). by rewrite Es in Hall by (by apply elem_of_actives).
Qed.

Lemma usable_or_active :
  (forall i, sel_index chosen = Some i -> (i < length keys)%nat /\ active i = true) /\
  (sel_index chosen = None -> forall i, (i < length keys)%nat -> active i = false).
Proof using current_ok.
  destruct (select_cases decisions keys current_index skipped capacity_fn routes even_burn counts current_ok) as [(i & r & -> & Hr & Hi)|[-> Hno]].
  - cbn. split; [|done]. intros j [= <-]. by apply andb_true_iff in Hr as [_ ?].
  - by destruct (unready_sound Hno) as (H1 & H2 & _).
Qed.
End selected_theorems.

(** ** Fair turns *)

(** [completed_counts[key] = _count_for(completed_counts, key) + 1] *)
Definition complete (counts : gmap string Z) (key : string) : gmap string Z := <[key := _count_for counts key + 1]> counts.

Lemma fold_min_le l x y : y ∈ x :: l -> foldl Z.min x l <= y.
Proof.
  assert (H : forall z, foldl Z.min z l <= z /\ forall w, w ∈ l -> foldl Z.min z l <= w).
  { induction l as [|a l IH]; intros z; cbn; [split; [lia|set_solver]|]. destruct (IH (Z.min z a)) as [H1 H2].
    split; [lia|]. intros w [-> | Hw]%elem_of_cons; [lia|auto]. }
  destruct (H x) as [H1 H2]. intros [-> | Hy]%elem_of_cons; auto.
Qed.

Lemma fold_min_in l x : foldl Z.min x l = x \/ foldl Z.min x l ∈ l.
Proof.
  revert x. induction l as [|a l IH]; intros x; cbn; [by left|].
  destruct (IH (Z.min x a)) as [-> | H]; [|right; by right].
  destruct (Z.min_spec x a) as [[_ ->]|[_ ->]]; [by left|right; by left].
Qed.

Section fair.
Context (decisions : list dict) (keys : list string) (skipped : gset string) (capacity_fn : dict -> option pyfloat).
Local Abbreviation ready := (ready decisions keys skipped).
Local Abbreviation key_at := (key_at keys).
Local Abbreviation mixed := (fun counts current_index => mixed_capacity_fair_index decisions keys current_index skipped capacity_fn counts).

(** [k] turns of the fair selector, each completed by the entry selected, while
    the decisions stay the same; the loop stays on the entry that ran. *)
Fixpoint fair_turns (k : nat) (st : gmap string Z * nat) : option (gmap string Z * nat) :=
  match k with
  | O => Some st
  | S k' => i ← mixed st.1 st.2; fair_turns k' (complete st.1 (key_at i), i)
  end.
Definition ready_entries : list nat := List.filter ready (indices keys).
Definition turns_of (counts : gmap string Z) (i : nat) : Z := _count_for counts (key_at i).

Lemma elem_of_ready_entries i : i ∈ ready_entries <-> (i < length keys)%nat /\ ready i = true.
Proof. unfold ready_entries. rewrite elem_of_List_filter. unfold indices. rewrite elem_of_seq. split; intros [? ?]; split; auto; lia. Qed.
Context (len_ok : length decisions = length keys).

Lemma ready_entries_usable :
  List.filter (fun i => active keys skipped i && ((i <? length decisions)%nat && usable (dec_at decisions i))) (indices keys) = ready_entries.
Proof using len_ok.
  unfold ready_entries, indices. apply filter_ext_in. intros i Hi%in_seq. unfold Selection.ready.
  rewrite (proj2 (Nat.ltb_lt i _)) by lia. cbn. apply andb_comm.
Qed.
(** The entry selected has run no more often than any other ready one. *)
Lemma mixed_least counts c i j : mixed counts c = Some i -> j ∈ ready_entries -> turns_of counts i <= turns_of counts j.
Proof using len_ok.
  unfold mixed_capacity_fair_index. rewrite ready_entries_usable. destruct (_ || _); [done|].
  destruct ready_entries as [|i0 rest] eqn:E; [done|]. set (m := foldl Z.min _ _). intros Hi Hj.
  assert (Ht : forall x, x ∈ List.filter (fun i => _count_for counts (key_at i) =? m) (i0 :: rest) -> turns_of counts x = m).
  { intros x [_ Hx%Z.eqb_eq]%elem_of_List_filter. done. }
  assert (Him : turns_of counts i = m).
  { apply Ht. revert Hi. destruct (2 <=? _)%nat; [by intros [? _]%best_ranked_elem%elem_of_List_filter|].
    destruct (first _ _) as [x|] eqn:Ex; [|by apply head_Some_elem_of].
    intros [= <-]. by apply first_Some in Ex as [_ Hx%bool_decide_eq_true]. }
  rewrite Him. apply fold_min_le. unfold turns_of.
  apply elem_of_cons in Hj as [-> | Hj]; [left|right]. exact (list_elem_of_fmap_2 (fun i => _count_for counts (key_at i)) _ _ Hj).
Qed.

Context (nodup_keys : NoDup keys).

Lemma turns_of_complete counts i j : (i < length keys)%nat -> (j < length keys)%nat ->
  turns_of (complete counts (key_at i)) j = turns_of counts j + (if decide (i = j) then 1 else 0).
Proof using nodup_keys len_ok.
  intros Hi Hj. unfold turns_of, complete, _count_for at 1. destruct (decide (i = j)) as [<-|Hne].
  - rewrite lookup_insert_eq. cbn. unfold _count_for. lia.
  - rewrite lookup_insert_ne; [unfold _count_for; lia|]. unfold Selection.key_at. intros He. apply Hne.
    apply lookup_lt_is_Some in Hi as [x Hx], Hj as [y Hy]. rewrite Hx, Hy in He. cbn in He. subst. by eapply NoDup_lookup.
Qed.

Definition total (counts : gmap string Z) (l : list nat) : Z := foldr (fun i z => turns_of counts i + z) 0 l.
Lemma total_cons counts i l : total counts (i :: l) = turns_of counts i + total counts l.
Proof using Type. done. Qed.
Lemma total_complete counts i l : (i < length keys)%nat -> (forall j, j ∈ l -> (j < length keys)%nat) -> NoDup l ->
  total (complete counts (key_at i)) l = total counts l + (if decide (i ∈ l) then 1 else 0).
Proof using nodup_keys len_ok.
  intros Hi Hl Hnd. induction Hnd as [|j l Hj Hnd IH]; [by rewrite decide_False by set_solver|].
  rewrite !total_cons, IH by set_solver. rewrite turns_of_complete by set_solver.
  destruct (decide (i = j)) as [<-|Hne].
  - rewrite (decide_False (P := i ∈ l)), decide_True by set_solver. lia.
  - destruct (decide (i ∈ l)); [rewrite decide_True by set_solver|rewrite decide_False by set_solver]; lia.
Qed.

(** The spread stays at most one, and a turn adds one. *)
Definition balanced (counts : gmap string Z) : Prop :=
  forall i j, i ∈ ready_entries -> j ∈ ready_entries -> turns_of counts i <= turns_of counts j + 1.

Lemma mixed_in_ready counts c i : mixed counts c = Some i -> i ∈ ready_entries.
Proof using Type. intros []%mixed_ready. by apply elem_of_ready_entries. Qed.

Lemma fair_turns_balanced k st st' : fair_turns k st = Some st' -> balanced st.1 ->
  balanced st'.1 /\ total st'.1 ready_entries = total st.1 ready_entries + Z.of_nat k.
Proof using nodup_keys len_ok.
  revert st. induction k as [|k IH]; intros [counts c]; cbn [fair_turns fst snd].
  { intros [= <-] ?. split; [done|]. by rewrite Z.add_0_r. }
  intros (i & Hi & Hk)%bind_Some Hb. assert (Hr := Hi). apply mixed_in_ready in Hr.
  assert (Hlt : (i < length keys)%nat) by (by apply elem_of_ready_entries).
  apply IH in Hk as [Hb' ->]; cbn [fst].
  - split; [done|]. rewrite total_complete, decide_True; try done; [lia| |].
    + intros j. rewrite elem_of_ready_entries. tauto.
    + apply NoDup_ListNoDup, List.NoDup_filter, NoDup_ListNoDup, NoDup_seq.
  - intros a b Ha Hb1. pose proof (proj1 (elem_of_ready_entries a) Ha) as [Ha' _]. pose proof (proj1 (elem_of_ready_entries b) Hb1) as [Hb1' _].
    rewrite !turns_of_complete by done. specialize (Hb a b Ha Hb1).
    destruct (decide (i = a)) as [<-|]; [|case_decide; lia]. pose proof (mixed_least _ _ _ b Hi Hb1). case_decide; lia.
Qed.
Lemma mixed_is_Some counts c :
  existsb (fun i => bool_decide (is_Some (capacity_fn (dec_at decisions i)))) ready_entries = true ->
  forallb (fun i => bool_decide (is_Some (capacity_fn (dec_at decisions i)))) ready_entries = false ->
  is_Some (mixed counts c).
Proof using len_ok.
  intros H1 H2. unfold mixed_capacity_fair_index. rewrite ready_entries_usable, H1, H2. cbn [negb orb].
  destruct ready_entries as [|i0 rest] eqn:E; [done|]. set (m := foldl Z.min _ _).
  destruct (2 <=? _)%nat eqn:E2.
  - apply best_scored_is_Some. apply Nat.leb_le in E2. set (l := List.filter _ (List.filter _ _)) in *.
    assert (Hl : forall x, x ∈ l -> is_Some (capacity_fn (dec_at decisions x))).
    { intros x [_ Hx%bool_decide_eq_true]%elem_of_List_filter. done. }
    destruct l as [|x l]; [cbn in E2; lia|]. destruct (Hl x ltac:(by left)) as [q Hq]. unfold ranked. cbn. by rewrite Hq.
  - destruct (first _ _) as [x|] eqn:Ex; [by eexists|].
    assert (Hm : exists x, x ∈ i0 :: rest /\ _count_for counts (key_at x) = m).
    { destruct (fold_min_in ((fun i => _count_for counts (key_at i)) <$> rest) (_count_for counts (key_at i0))) as [He|He].
      - exists i0. split; [by left|done].
      - apply list_elem_of_fmap in He as (x & Hx & Hin). exists x. split; [by right|done]. }
    destruct Hm as (x & Hx & Hm). destruct (List.filter _ (i0 :: rest)) as [|y l] eqn:El; [|by eexists].
    exfalso. assert (Hin : x ∈ List.filter (fun i => _count_for counts (key_at i) =? m) (i0 :: rest)).
    { apply elem_of_List_filter. split; [done|]. by apply Z.eqb_eq. }
    rewrite El in Hin. by apply elem_of_nil in Hin.
Qed.
Lemma fair_turns_total k st :
  existsb (fun i => bool_decide (is_Some (capacity_fn (dec_at decisions i)))) ready_entries = true ->
  forallb (fun i => bool_decide (is_Some (capacity_fn (dec_at decisions i)))) ready_entries = false ->
  is_Some (fair_turns k st).
Proof using len_ok.
  intros H1 H2. revert st. induction k as [|k IH]; intros st; cbn; [by eexists|].
  destruct (mixed_is_Some st.1 st.2 H1 H2) as [i ->]. apply IH.
Qed.

(** A sum below (above) [b] per entry, with one entry strictly below (above). *)
Lemma total_lt counts l b j : (forall i, i ∈ l -> turns_of counts i <= b) -> j ∈ l -> turns_of counts j < b ->
  total counts l < b * Z.of_nat (length l).
Proof using Type.
  clear len_ok nodup_keys. intros Hl Hj Hlt. assert (Hle : forall l', (forall i, i ∈ l' -> turns_of counts i <= b) -> total counts l' <= b * Z.of_nat (length l')).
  { clear. induction l' as [|x l' IH]; intros H; [cbn; lia|]. rewrite total_cons, length_cons. pose proof (H x ltac:(by left)).
    ospecialize (IH _); [intros i Hi; apply H; by right|]. lia. }
  induction Hj as [x l|x y l Hj IH]; rewrite total_cons, length_cons.
  - ospecialize (Hle l _); [intros i Hi; apply Hl; by right|]. lia.
  - pose proof (Hl y ltac:(by left)). ospecialize (IH _); [intros i Hi; apply Hl; by right|]. lia.
Qed.
Lemma total_gt counts l b j : (forall i, i ∈ l -> b <= turns_of counts i) -> j ∈ l -> b < turns_of counts j ->
  b * Z.of_nat (length l) < total counts l.
Proof using Type.
  clear len_ok nodup_keys. intros Hl Hj Hlt. assert (Hle : forall l', (forall i, i ∈ l' -> b <= turns_of counts i) -> b * Z.of_nat (length l') <= total counts l').
  { clear. induction l' as [|x l' IH]; intros H; [cbn; lia|]. rewrite total_cons, length_cons. pose proof (H x ltac:(by left)).
    ospecialize (IH _); [intros i Hi; apply H; by right|]. lia. }
  induction Hj as [x l|x y l Hj IH]; rewrite total_cons, length_cons.
  - ospecialize (Hle l _); [intros i Hi; apply Hl; by right|]. lia.
  - pose proof (Hl y ltac:(by left)). ospecialize (IH _); [intros i Hi; apply Hl; by right|]. lia.
Qed.
End fair.

(** ** Theorems *)

(** when an entry of the rotation is usable and not skipped, such an entry
    is selected and the machine is not suspended, in provider mode and in route
    mode, with even burn or without; a skipped entry is never selected; and
    nothing is selected exactly when every entry is skipped. *)
Theorem usable_entry_selected decisions keys current_index skipped capacity_fn routes even_burn counts :
  (current_index < length keys)%nat ->
  let s := select_provider decisions keys current_index skipped capacity_fn routes even_burn counts in
  ((exists i, (i < length keys)%nat /\ ready decisions keys skipped i = true) ->
     exists i, sel_index s = Some i /\ ready decisions keys skipped i = true /\ sel_all_rate_limited s = false) /\
  (forall i, sel_index s = Some i -> (i < length keys)%nat /\ active keys skipped i = true) /\
  (sel_index s = None <-> forall i, (i < length keys)%nat -> active keys skipped i = false).
Proof.
  intros Hc s. destruct (select_cases decisions keys current_index skipped capacity_fn routes even_burn counts Hc) as [(i & r & Hs & Hr & Hi)|[Hs Hno]];
    fold s in Hs; rewrite Hs.
  - assert (Ha : active keys skipped i = true) by (by apply andb_true_iff in Hr as [_ ?]). cbn.
    split; [eauto|]. split; [by intros j [= <-]|]. split; [done|]. intros H. by rewrite H in Ha.
  - destruct (unready_sound decisions keys current_index skipped capacity_fn routes counts Hc Hno) as (H1 & H2 & _).
    split; [intros (i & Hi & Hr); by rewrite Hno in Hr|]. split; [exact H1|]. split; [exact H2|].
    intros H. destruct (sel_index (unready _ _ _ _ _ _ _)) as [i|] eqn:E; [|done].
    destruct (H1 i eq_refl) as [Hi Ha]. by rewrite H in Ha.
Qed.

(** the machine may be suspended ([all_rate_limited]) only when no entry is
    ready.  In provider mode that takes every entry that is not skipped to be
    out of capacity with a known recovery time; in route mode a single one is
    enough, whatever the others are. *)
Theorem suspension_exact decisions keys current_index skipped capacity_fn routes even_burn counts :
  (current_index < length keys)%nat ->
  sel_all_rate_limited (select_provider decisions keys current_index skipped capacity_fn routes even_burn counts) = true <->
  (forall i, (i < length keys)%nat -> ready decisions keys skipped i = false) /\
  if routes then exists i, (i < length keys)%nat /\ active keys skipped i = true /\ waiting decisions BLOCKED_ROUTE i = true
  else (exists i, (i < length keys)%nat /\ active keys skipped i = true) /\
       forall i, (i < length keys)%nat -> active keys skipped i = true -> waiting decisions BLOCKED_PROVIDER i = true.
Proof.
  intros Hc. destruct (select_cases decisions keys current_index skipped capacity_fn routes even_burn counts Hc) as [(i & r & -> & Hr & Hi)|[-> Hno]].
  - cbn. split; [done|]. intros [H _]. by rewrite H in Hr.
  - destruct (unready_sound decisions keys current_index skipped capacity_fn routes counts Hc Hno) as (_ & _ & ->). tauto.
Qed.

(** C39: in a rotation that mixes entries with measured and with opaque
    capacity, the fair selector always finds an entry, and after [k] completed
    turns every usable entry has had at least [k / n] and at most [k / n]
    rounded up of them, [n] being the number of usable entries. *)
Theorem fair_rotation_is_fair decisions keys skipped capacity_fn current_index k :
  length decisions = length keys -> NoDup keys ->
  let entries := ready_entries decisions keys skipped in
  let measured i := bool_decide (is_Some (capacity_fn (dec_at decisions i))) in
  existsb measured entries = true -> forallb measured entries = false ->
  exists counts c, fair_turns decisions keys skipped capacity_fn k (∅, current_index) = Some (counts, c) /\
    forall i, i ∈ entries ->
      Z.of_nat k / Z.of_nat (length entries) <= turns_of keys counts i <= (Z.of_nat k + Z.of_nat (length entries) - 1) / Z.of_nat (length entries).
Proof.
  intros Hlen Hnd entries measured H1 H2.
  destruct (fair_turns_total decisions keys skipped capacity_fn Hlen k (∅, current_index) H1 H2) as [[counts c] Hk].
  exists counts, c. split; [done|]. intros i Hi.
  assert (H0 : forall j, turns_of keys ∅ j = 0) by (intros j; unfold turns_of, _count_for; by rewrite lookup_empty).
  apply fair_turns_balanced in Hk as [Hb Ht]; [|done|done|intros a b _ _; cbn; rewrite !H0; lia]. cbn [fst] in *.
  assert (Hz : forall l, total keys ∅ l = 0) by (induction l; [done|]; by rewrite total_cons, H0).
  rewrite Hz, Z.add_0_l in Ht. fold entries in Ht, Hb.
  assert (Hn : 0 < Z.of_nat (length entries)) by (destruct entries; [set_solver|cbn; lia]).
  assert (Hlt := total_lt keys counts entries (turns_of keys counts i + 1) i (fun j Hj => Hb j i Hj Hi) Hi ltac:(lia)).
  assert (Hgt := total_gt keys counts entries (turns_of keys counts i - 1) i ltac:(intros j Hj; specialize (Hb i j Hi Hj); lia) Hi ltac:(lia)).
  rewrite Ht in Hlt, Hgt. split.
  - apply Z.lt_succ_r, Z.div_lt_upper_bound; lia.
  - apply Z.div_le_lower_bound; lia.
Qed.

(** ** Concrete rotations *)

Definition decision (usable : bool) (reason : string) (wait : json) : dict :=
  [("usable", JBool usable); ("reason", JStr reason); ("wait_until", wait)]%string.
Definition no_capacity (_ : dict) : option pyfloat := None.

Definition codex_only : list dict := [decision false "rate-limited" (JInt 500); decision true "usable" JNull]%string.
Lemma usable_entry_selected_witness :
  exists i, sel_index (select_provider codex_only ["claude"; "codex"]%string 0 ∅ no_capacity false true ∅) = Some i /\
    ready codex_only ["claude"; "codex"]%string ∅ i = true.
Proof.
  destruct (usable_entry_selected codex_only ["claude"; "codex"]%string 0 ∅ no_capacity false true ∅) as [H _]; [cbn; lia|].
  destruct H as (i & Hi & Hr & _); [exists 1%nat; split; [cbn; lia|by vm_compute]|]. by exists i.
Defined.

(** A blocked entry beside one whose usage could not be read. *)
Definition half_blocked : list dict := [decision false "rate-limited" (JInt 500); decision false "usage-unavailable" JNull]%string.
Lemma suspension_exact_witness :
  sel_all_rate_limited (select_provider half_blocked ["claude"; "codex"]%string 0 ∅ no_capacity false true ∅) = false /\
  sel_reason (select_provider half_blocked ["claude"; "codex"]%string 0 ∅ no_capacity false true ∅) = "advanced-to-undetermined"%string /\
  sel_all_rate_limited (select_provider half_blocked ["claude"; "codex"]%string 0 ∅ no_capacity true true ∅) = true.
Proof.
  split; [by vm_compute|]. split; [by vm_compute|].
  apply (suspension_exact half_blocked ["claude"; "codex"]%string 0 ∅ no_capacity true true ∅); [cbn; lia|]. split.
  - intros [|[|i]] Hi; [by vm_compute|by vm_compute|cbn in Hi; lia].
  - exists 0%nat. split; [cbn; lia|]. by split; vm_compute.
Defined.

(** One measured and two opaque entries take turns. *)
Definition opaque_or_full (d : dict) : option pyfloat := match dget "wait_until" d with Some JNull => None | _ => Some (Fin 10) end.
Definition mixed_rotation : list dict := [decision true "usable" (JInt 0); decision true "usable" JNull; decision true "usable" JNull]%string.
Lemma fair_rotation_is_fair_witness :
  exists counts c, fair_turns mixed_rotation ["claude"; "kilo"; "zai"]%string ∅ opaque_or_full 7 (∅, 0%nat) = Some (counts, c) /\
    2 <= turns_of ["claude"; "kilo"; "zai"]%string counts 1 <= 3.
Proof.
  destruct (fair_rotation_is_fair mixed_rotation ["claude"; "kilo"; "zai"]%string ∅ opaque_or_full 0 7) as (counts & c & Hk & H);
    [done | by apply (bool_decide_unpack _); vm_compute | by vm_compute | by vm_compute |].
  exists counts, c. split; [exact Hk|]. apply (H 1%nat). by apply (bool_decide_unpack _); vm_compute.
Defined.
