(* ===== verification/RalphLoop.v ===== *)
(** * The persistent loop ([ralph_robin.py])

    [main]'s loop without Bridge hooks: what each iteration selects, and what it
    makes of the scheduler's exit status.  What the world does in an iteration
    (time budget, capacity decisions, exit status and duration of the run,
    whether a wait ended with time left) is a [turn].  Logs, status lines, the
    saved state file and the pacing sleep have no effect on the loop's state. *)

From Stdlib Require Import QArith.
From S2P Require Import Prelude Py Selection.
From stdpp Require Import options.
Local Open Scope Z_scope.

Definition AUTONOMY_ABORT_STATUS : Z := 75.
Definition OPERATOR_DECLINED_STATUS : Z := 76.
Definition LAUNCH_REFUSED_STATUS : Z := 78.
Definition FAST_SUCCESS_ABORT_STREAK : Z := 5.
Definition HARD_FAIL_ABORT_STREAK : Z := 6.

(** [keys] are the routes when there are any, else the providers. *)
Record RalphConfig : Type := {
  keys : list string;
  routes : bool;
  even_burn : bool;
  max_iterations : Z;
  min_iteration_seconds : Z;
  dry_run : bool;
}.

Record loop : Type := Loop {
  current_index : nat;
  skipped : gset string;
  completed_counts : gmap string Z;
  completed : Z;
  fast_streak : Z;
  hard_fail_streak : Z;
  iteration : Z;
}.

Record turn : Type := Turn {
  tn_out_of_time : bool;
  tn_decisions : list dict;
  tn_status : Z;
  tn_seconds : Q;
  tn_waited : bool;
}.

Inductive outcome : Type :=
  | Exit (code : Z) (st : loop)
  | Next (st : loop).

Section ralph.
Context (cfg : RalphConfig) (capacity_fn : dict -> option pyfloat).

Definition stop_timed_out (st : loop) : outcome := Exit (if completed st =? 0 then AUTONOMY_ABORT_STATUS else 0) st.

(** [if not suspend_until_available(...): return stop_timed_out()], and the
    next pass starts with nothing skipped. *)
Definition wait_or_stop (t : turn) (st : loop) : outcome :=
  if tn_waited t
  then Next (Loop (current_index st) ∅ (completed_counts st) (completed st) (fast_streak st) (hard_fail_streak st) (iteration st))
  else stop_timed_out st.

(** Leave the failed entry out and go on with the one after it. *)
Definition rotate (t : turn) (selected_index : nat) (key : string) (st : loop) : outcome :=
  let skipped' := {[key]} ∪ skipped st in
  let rotation_size := length (keys cfg) in
  let st' i := Loop i skipped' (completed_counts st) (completed st) (fast_streak st) (hard_fail_streak st) (iteration st) in
  if (rotation_size <=? size skipped')%nat then wait_or_stop t (st' (current_index st))
  else Next (st' ((selected_index + 1) mod Nat.max rotation_size 1)%nat).

Definition after_success (t : turn) (selected_index : nat) (key : string) (st : loop) : outcome :=
  let completed' := completed st + 1 in
  let counts := if truthy_str key then complete (completed_counts st) key else completed_counts st in
  let st1 fast := Loop (current_index st) (skipped st) counts completed' fast 0 (iteration st) in
  let go_on fast := Next (Loop selected_index ∅ counts completed' fast 0 (iteration st)) in
  if negb (max_iterations cfg =? 0) && (max_iterations cfg <=? completed') then Exit 0 (st1 (fast_streak st))
  else if (0 <? min_iteration_seconds cfg) && negb (Qle_bool (inject_Z (min_iteration_seconds cfg)) (tn_seconds t)) then
    let fast := fast_streak st + 1 in
    if FAST_SUCCESS_ABORT_STREAK <=? fast then Exit AUTONOMY_ABORT_STATUS (st1 fast) else go_on fast
  else go_on 0.

Definition after_run (t : turn) (selected_index : nat) (key : string) (st : loop) : outcome :=
  if tn_status t =? 0 then after_success t selected_index key st
  else if tn_status t =? OPERATOR_DECLINED_STATUS then Exit (tn_status t) st
  else if tn_status t =? LAUNCH_REFUSED_STATUS then Exit (tn_status t) st
  else if tn_status t =? AUTONOMY_ABORT_STATUS then rotate t selected_index key st
  else
    let streak := hard_fail_streak st + 1 in
    let st' := Loop (current_index st) (skipped st) (completed_counts st) (completed st) (fast_streak st) streak (iteration st) in
    if HARD_FAIL_ABORT_STREAK <=? streak then Exit (tn_status t) st'
    else rotate t selected_index key st'.

Definition selection_of (t : turn) (st : loop) : selection :=
  select_provider (tn_decisions t) (keys cfg) (current_index st) (skipped st) capacity_fn (routes cfg) (even_burn cfg) (completed_counts st).
(** The provider of the entry selected; a decision's provider is a text. *)
Definition provider_at (t : turn) (i : nat) : string :=
  if routes cfg then text_of (dget "provider" (dec_at (tn_decisions t) i)) else key_at (keys cfg) i.

(** One pass of [while True], and the turns in which a provider ran. *)
Definition iterate (t : turn) (st : loop) : outcome * list turn :=
  if tn_out_of_time t then (stop_timed_out st, [])
  else
    let sel := selection_of t st in
    match sel_index sel with
    | None => (wait_or_stop t st, [])
    | Some i =>
        let provider := provider_at t i in
        if negb (truthy_str provider) then (wait_or_stop t st, [])
        else if sel_all_rate_limited sel then (if dry_run cfg then Exit 0 st else wait_or_stop t st, [])
        else if dry_run cfg then (Exit 0 st, [])
        else
          let st1 := Loop (current_index st) (skipped st) (completed_counts st) (completed st) (fast_streak st) (hard_fail_streak st) (iteration st + 1) in
          let route_id := if routes cfg then key_at (keys cfg) i else EmptyString in
          (after_run t i (if truthy_str route_id then route_id else provider) st1, [t])
    end.

Fixpoint run (ts : list turn) (st : loop) : outcome * list turn :=
  match ts with
  | [] => (Next st, [])
  | t :: ts' =>
      match iterate t st with
      | (Next st', runs) => let '(o, runs') := run ts' st' in (o, runs ++ runs')
      | (Exit code st', runs) => (Exit code st', runs)
      end
  end.

Definition start (index : nat) (counts : gmap string Z) : loop := Loop index ∅ counts 0 0 0 0.

(** ** The invariant of the loop *)

Context (nodup_keys : NoDup (keys cfg)) (keys_named : EmptyString ∉ keys cfg).

Record counters_ok (st : loop) : Prop := {
  ok_index : (current_index st < length (keys cfg))%nat;
  ok_fast : 0 <= fast_streak st < FAST_SUCCESS_ABORT_STREAK;
  ok_hard : 0 <= hard_fail_streak st < HARD_FAIL_ABORT_STREAK;
  ok_completed : 0 <= completed st;
  ok_max : max_iterations cfg = 0 \/ completed st < max_iterations cfg;
}.
Record loop_ok (st : loop) : Prop := {
  ok_counters : counters_ok st;
  ok_skipped : skipped st ⊆ list_to_set (keys cfg);
  ok_room : (size (skipped st) < length (keys cfg))%nat;
}.

Lemma key_at_elem i : (i < length (keys cfg))%nat -> key_at (keys cfg) i ∈ keys cfg.
Proof using Type.
  clear nodup_keys keys_named.
  intros [x Hx]%lookup_lt_is_Some. unfold key_at. rewrite Hx. by eapply list_elem_of_lookup_2.
Qed.
Lemma active_key i sk : active (keys cfg) sk i = true <-> key_at (keys cfg) i ∉ sk.
Proof using Type. clear nodup_keys keys_named. unfold active. by rewrite negb_true_iff, bool_decide_eq_false. Qed.
Lemma key_named i : (i < length (keys cfg))%nat -> truthy_str (key_at (keys cfg) i) = true.
Proof using keys_named.
  clear nodup_keys. intros Hi. unfold truthy_str. rewrite negb_true_iff, bool_decide_eq_false. intros He. apply keys_named. rewrite <-He. by apply key_at_elem.
Qed.

(** With fewer entries skipped than there are, one is active. *)
Lemma some_active st : loop_ok st -> exists i, (i < length (keys cfg))%nat /\ active (keys cfg) (skipped st) i = true.
Proof using nodup_keys.
  clear keys_named. intros Hok. destruct (decide (Exists (fun k => k ∉ skipped st) (keys cfg))) as [He|He].
  - apply Exists_exists in He as (k & [i Hi]%list_elem_of_lookup & Hk). exists i. split; [by eapply lookup_lt_Some|].
    apply active_key. unfold key_at. by rewrite Hi.
  - exfalso. assert (Hsub : list_to_set (keys cfg) ⊆ skipped st).
    { intros k Hk%elem_of_list_to_set. destruct (decide (k ∈ skipped st)) as [|Hn]; [done|]. destruct He. apply Exists_exists. eauto. }
    apply subseteq_size in Hsub. rewrite size_list_to_set in Hsub by done. pose proof (ok_room _ Hok). lia.
Qed.

(** The counters, as the runs so far make them: the hard failures since the
    last success (an abort or a refusal does not count), the successes that were
    too quick since the last one that was not, and all successes. *)
Definition hard_failure (status : Z) : bool :=
  negb (bool_decide (status ∈ [0; AUTONOMY_ABORT_STATUS; OPERATOR_DECLINED_STATUS; LAUNCH_REFUSED_STATUS])).
Definition next_streak (streak : Z) (t : turn) : Z :=
  if tn_status t =? 0 then 0 else if hard_failure (tn_status t) then streak + 1 else streak.
Definition streak_after (runs : list turn) : Z := foldl next_streak 0 runs.
Definition quick (t : turn) : bool := bool_decide (0 < min_iteration_seconds cfg) && negb (Qle_bool (inject_Z (min_iteration_seconds cfg)) (tn_seconds t)).
Definition next_fast (streak : Z) (t : turn) : Z :=
  if tn_status t =? 0 then (if quick t then streak + 1 else 0) else streak.
Definition fast_after (runs : list turn) : Z := foldl next_fast 0 runs.
Definition next_success (n : Z) (t : turn) : Z := if tn_status t =? 0 then n + 1 else n.
Definition successes (runs : list turn) : Z := foldl next_success 0 runs.

Record tally (runs : list turn) (st : loop) : Prop := {
  tl_hard : hard_fail_streak st = streak_after runs;
  tl_fast : fast_streak st = fast_after runs;
  tl_done : completed st = successes runs;
}.

(** Why the loop may end after these runs, its last pass having seen [t], and
    the exit status of each ending: the time is over (success if any run
    succeeded, else an autonomy abort), a dry run ran nothing, the iterations
    asked for are done, five successes in a row were too quick, the operator
    declined, the launch was refused, or the last run was the sixth hard
    failure since the last success. *)
Inductive ends (t : turn) (runs : list turn) : Z -> Prop :=
  | EndsTimedOut : tn_out_of_time t = true \/ tn_waited t = false -> streak_after runs < 6 ->
      ends t runs (if successes runs =? 0 then 75 else 0)
  | EndsDry : dry_run cfg = true -> runs = [] -> ends t runs 0
  | EndsDone : last runs = Some t -> tn_status t = 0 -> max_iterations cfg <> 0 -> successes runs = max_iterations cfg -> ends t runs 0
  | EndsTooQuick : last runs = Some t -> tn_status t = 0 -> fast_after runs = 5 -> ends t runs 75
  | EndsRefused : last runs = Some t -> tn_status t = 76 \/ tn_status t = 78 -> streak_after runs < 6 -> ends t runs (tn_status t)
  | EndsFailing : last runs = Some t -> hard_failure (tn_status t) = true -> streak_after runs = 6 -> ends t runs (tn_status t).

(** What a pass that made these runs in all may come to. *)
Definition sound (t : turn) (runs : list turn) (o : outcome) : Prop :=
  match o with
  | Next st' => loop_ok st' /\ tally runs st'
  | Exit code _ => ends t runs code
  end.

Lemma stop_sound t runs st : counters_ok st -> tally runs st -> tn_out_of_time t = true \/ tn_waited t = false -> sound t runs (stop_timed_out st).
Proof using Type.
  clear nodup_keys keys_named. intros Hc [Hh _ Hd] Ht. unfold stop_timed_out. cbn [sound]. rewrite Hd.
  apply EndsTimedOut; [done|]. rewrite <-Hh. apply (ok_hard _ Hc).
Qed.

Lemma wait_sound t runs st : counters_ok st -> tally runs st -> sound t runs (wait_or_stop t st).
Proof using Type.
  clear nodup_keys keys_named. intros Hc Ht. unfold wait_or_stop. destruct (tn_waited t) eqn:Ew; [|apply stop_sound; auto].
  split; [|by destruct Ht]. destruct Hc. split; cbn; [by split|set_solver|rewrite size_empty; lia].
Qed.

Lemma rotate_sound t runs i st : counters_ok st -> tally runs st -> skipped st ⊆ list_to_set (keys cfg) -> (i < length (keys cfg))%nat ->
  sound t runs (rotate t i (key_at (keys cfg) i) st).
Proof using Type.
  clear nodup_keys keys_named. intros [] [] Hs Hi. unfold rotate. case_match eqn:E.
  - apply (wait_sound t runs (Loop _ _ _ _ _ _ _)); by split.
  - apply Nat.leb_gt in E. split; [|by split]. split; cbn; [split; cbn; auto| |done].
    + rewrite Nat.max_l by lia. apply Nat.mod_upper_bound. lia.
    + apply union_subseteq. split; [|done]. apply singleton_subseteq_l, elem_of_list_to_set. by apply key_at_elem.
Qed.

Lemma success_sound t runs i st : counters_ok st -> tally runs st -> tn_status t = 0 -> (i < length (keys cfg))%nat ->
  sound t (runs ++ [t]) (after_success t i (key_at (keys cfg) i) st).
Proof using Type.
  clear nodup_keys keys_named. intros [] [Hh Hf Hd] H0 Hi. unfold after_success.
  assert (Hd' : successes (runs ++ [t]) = completed st + 1).
  { unfold successes. rewrite foldl_app. cbn. unfold next_success at 1. by rewrite H0, Hd. }
  assert (Hl : last (runs ++ [t]) = Some t) by apply last_snoc.
  assert (Hf' : fast_after (runs ++ [t]) = if quick t then fast_streak st + 1 else 0).
  { unfold fast_after. rewrite foldl_app. cbn. unfold next_fast at 1. by rewrite H0, Hf. }
  assert (Hh' : streak_after (runs ++ [t]) = 0).
  { unfold streak_after. rewrite foldl_app. cbn. unfold next_streak at 1. by rewrite H0. }
  assert (Hq : quick t = (0 <? min_iteration_seconds cfg) && negb (Qle_bool (inject_Z (min_iteration_seconds cfg)) (tn_seconds t))).
  { unfold quick. destruct (Z.ltb_spec 0 (min_iteration_seconds cfg)).
    - by rewrite bool_decide_eq_true_2.
    - rewrite bool_decide_eq_false_2 by lia. done. }
  rewrite <-Hq.
  destruct (negb _ && _) eqn:Em.
  { apply andb_true_iff in Em as [Hm%negb_true_iff%Z.eqb_neq Hc%Z.leb_le]. apply EndsDone; [done..|]. rewrite Hd'. lia. }
  assert (Hm : max_iterations cfg = 0 \/ completed st + 1 < max_iterations cfg).
  { destruct (Z.eqb_spec (max_iterations cfg) 0); [by left|right]. cbn in Em. by apply Z.leb_gt in Em. }
  assert (Hgo : forall fast counts k, 0 <= fast < FAST_SUCCESS_ABORT_STREAK -> fast_after (runs ++ [t]) = fast ->
    sound t (runs ++ [t]) (Next (Loop i ∅ counts (completed st + 1) fast 0 k))).
  { intros fast counts k Hfast He. split; [|by split]. split; cbn; [split; cbn; auto; [done|lia]|set_solver|rewrite size_empty; lia]. }
  destruct (quick t); [|by apply Hgo]. unfold FAST_SUCCESS_ABORT_STREAK in *.
  destruct (Z.leb_spec 5 (fast_streak st + 1)); [|apply Hgo; [lia|done]].
  apply EndsTooQuick; [done..|]. rewrite Hf'. lia.
Qed.

Lemma after_run_sound t runs i st : loop_ok st -> tally runs st -> (i < length (keys cfg))%nat ->
  sound t (runs ++ [t]) (after_run t i (key_at (keys cfg) i) st).
Proof using Type.
  clear nodup_keys keys_named. intros [Hc Hs _] Ht Hi. unfold after_run.
  destruct (Z.eqb_spec (tn_status t) 0) as [E0|E0]; [by apply success_sound|].
  assert (Hl : last (runs ++ [t]) = Some t) by apply last_snoc.
  assert (Htl : forall h, next_streak (hard_fail_streak st) t = h ->
    tally (runs ++ [t]) (Loop (current_index st) (skipped st) (completed_counts st) (completed st) (fast_streak st) h (iteration st))).
  { intros h <-. destruct Ht as [Hh Hf Hd]. split; cbn; unfold streak_after, fast_after, successes; rewrite foldl_app; cbn.
    - unfold next_streak at 2. by rewrite Hh.
    - unfold next_fast at 1. by rewrite (proj2 (Z.eqb_neq _ _) E0).
    - unfold next_success at 1. by rewrite (proj2 (Z.eqb_neq _ _) E0). }
  assert (Hrf : tn_status t = OPERATOR_DECLINED_STATUS \/ tn_status t = LAUNCH_REFUSED_STATUS -> ends t (runs ++ [t]) (tn_status t)).
  { intros Hr. apply EndsRefused; [done..|]. specialize (Htl (hard_fail_streak st)). unfold next_streak, hard_failure in Htl.
    rewrite (proj2 (Z.eqb_neq _ _) E0), bool_decide_eq_true_2 in Htl by set_solver. rewrite <-(tl_hard _ _ (Htl eq_refl)).
    apply (ok_hard _ Hc). }
  destruct (Z.eqb_spec (tn_status t) OPERATOR_DECLINED_STATUS) as [E1|E1]; [by apply Hrf; left|].
  destruct (Z.eqb_spec (tn_status t) LAUNCH_REFUSED_STATUS) as [E2|E2]; [by apply Hrf; right|].
  destruct (Z.eqb_spec (tn_status t) AUTONOMY_ABORT_STATUS) as [E3|E3].
  - apply rotate_sound; [done| |done..]. specialize (Htl (hard_fail_streak st)). unfold next_streak, hard_failure in Htl.
    rewrite (proj2 (Z.eqb_neq _ _) E0), bool_decide_eq_true_2 in Htl by set_solver. by destruct (Htl eq_refl); split.
  - assert (Hhf : hard_failure (tn_status t) = true).
    { unfold hard_failure. rewrite bool_decide_eq_false_2 by set_solver. done. }
    specialize (Htl (hard_fail_streak st + 1)). unfold next_streak in Htl. rewrite (proj2 (Z.eqb_neq _ _) E0), Hhf in Htl.
    specialize (Htl eq_refl). assert (Hh := ok_hard _ Hc). unfold HARD_FAIL_ABORT_STREAK in *.
    destruct (Z.leb_spec 6 (hard_fail_streak st + 1)).
    + apply EndsFailing; [done..|]. rewrite <-(tl_hard _ _ Htl). cbn. lia.
    + apply rotate_sound; [|done..]. destruct Hc. split; cbn; auto. unfold HARD_FAIL_ABORT_STREAK. lia.
Qed.

(** The entry a pass goes on with. *)
Lemma selection_active st t : loop_ok st ->
  exists i, sel_index (selection_of t st) = Some i /\ (i < length (keys cfg))%nat /\ active (keys cfg) (skipped st) i = true.
Proof using nodup_keys.
  clear keys_named. intros Hok. destruct (some_active st Hok) as (j & Hj & Ha).
  assert (Hi := ok_index _ (ok_counters _ Hok)).
  destruct (usable_or_active (tn_decisions t) (keys cfg) (current_index st) (skipped st) capacity_fn (routes cfg) (even_burn cfg) (completed_counts st) Hi) as [H1 H2].
  unfold selection_of. destruct (sel_index _) as [i|] eqn:E; [by exists i; destruct (H1 i eq_refl)|]. by rewrite H2 in Ha.
Qed.

Lemma iterate_sound t past st o runs : loop_ok st -> tally past st -> (dry_run cfg = true -> past = []) ->
  iterate t st = (o, runs) -> sound t (past ++ runs) o /\ (dry_run cfg = true -> runs = []).
Proof using All.
  intros Hok Ht Hdry. unfold iterate. assert (Hc := ok_counters _ Hok).
  destruct (tn_out_of_time t) eqn:Eo; [intros [= <- <-]; rewrite app_nil_r; split; [apply stop_sound; auto|done]|].
  destruct (selection_active st t Hok) as (i & -> & Hi & Ha).
  pose proof (wait_sound t past st Hc Ht) as Hw.
  destruct (negb _) eqn:Ep; [intros [= <- <-]; by rewrite app_nil_r|].
  destruct (sel_all_rate_limited _), (dry_run cfg) eqn:Ed;
    try (intros [= <- <-]; rewrite app_nil_r; split; [|done]; apply EndsDry; auto; fail);
    [intros [= <- <-]; by rewrite app_nil_r|].
  intros [= <- <-]. split; [|done].
  set (name := if truthy_str _ then _ else _). assert (Hn : name = key_at (keys cfg) i).
  { unfold name, provider_at. destruct (routes cfg); [by rewrite key_named|done]. }
  rewrite Hn. apply (after_run_sound t past i (Loop _ _ _ _ _ (hard_fail_streak st) _)); [|by destruct Ht|done].
  destruct Hok as [[] ? ?]. split; [split|..]; cbn; auto.
Qed.

(** The loop over all its turns: an ending is one of the last turn it saw. *)
Lemma run_sound ts past st o runs : loop_ok st -> tally past st -> (dry_run cfg = true -> past = []) ->
  run ts st = (o, runs) ->
  match o with
  | Next st' => loop_ok st' /\ tally (past ++ runs) st'
  | Exit code _ => exists t, t ∈ ts /\ ends t (past ++ runs) code
  end.
Proof using All.
  revert past st o runs. induction ts as [|t ts IH]; intros past st o runs Hok Ht Hdry; cbn [run].
  { intros [= <- <-]. rewrite app_nil_r. done. }
  destruct (iterate t st) as [o1 r1] eqn:Ei. apply (iterate_sound t past) in Ei as [Hs Hr]; [|done..].
  destruct o1 as [code st1|st1]; [intros [= <- <-]; exists t; split; [left|done]|].
  destruct Hs as [Hok1 Ht1]. destruct (run ts st1) as [o2 r2] eqn:Er. intros [= <- <-].
  apply (IH (past ++ r1)) in Er; [|done|done|].
  - rewrite <-app_assoc in Er. destruct o2; [|done]. destruct Er as (t' & Hin & He). exists t'. split; [by right|done].
  - intros Hd. by rewrite (Hdry Hd), (Hr Hd).
Qed.

Lemma loop_start_ok index counts : (index < length (keys cfg))%nat -> 0 <= max_iterations cfg -> loop_ok (start index counts).
Proof using Type.
  clear nodup_keys keys_named. intros Hi Hm. unfold start. split; [split; cbn; unfold FAST_SUCCESS_ABORT_STREAK, HARD_FAIL_ABORT_STREAK; lia|apply empty_subseteq|].
  cbn. rewrite size_empty. lia.
Qed.

(** A success ends no streak of six. *)
Lemma streak_last_success runs t : last runs = Some t -> tn_status t = 0 -> streak_after runs = 0.
Proof using Type.
  clear nodup_keys keys_named. intros [runs' ->]%last_Some H0. unfold streak_after. rewrite foldl_app. cbn. unfold next_streak at 1. by rewrite H0.
Qed.
Lemma ends_at_six t runs code : ends t runs code -> streak_after runs = 6 ->
  exists t', last runs = Some t' /\ code = tn_status t' /\ hard_failure code = true.
Proof using Type.
  clear nodup_keys keys_named. intros He H6.
  destruct He as [? Hlt|? Hr|Hl H0 _ _|Hl H0 _|Hl _ Hlt|Hl H _];
    [lia|by rewrite Hr in H6|rewrite (streak_last_success _ _ Hl H0) in H6; lia..|lia|by exists t].
Qed.

Lemma loop_start_tally index counts : tally [] (start index counts).
Proof using Type. clear nodup_keys keys_named. by split. Qed.
End ralph.

(** ** Theorems *)

(** whatever happens to its runs and waits, the loop never skips its whole
    rotation: the skipped entries stay a proper part of it, so that every pass
    has an entry to select that is not skipped. *)
Theorem rotation_never_runs_dry cfg capacity_fn index counts ts st runs :
  NoDup (keys cfg) -> EmptyString ∉ keys cfg -> (index < length (keys cfg))%nat -> 0 <= max_iterations cfg ->
  run cfg capacity_fn ts (start index counts) = (Next st, runs) ->
  skipped st ⊂ list_to_set (keys cfg) /\
  forall t, exists i, sel_index (selection_of cfg capacity_fn t st) = Some i /\
    (i < length (keys cfg))%nat /\ active (keys cfg) (skipped st) i = true.
Proof.
  intros Hnd Hne Hi Hm Hrun. apply (run_sound cfg capacity_fn Hnd Hne ts []) in Hrun as [Hok _];
    [|by apply loop_start_ok|apply loop_start_tally|done].
  split; [|by intros t; apply selection_active].
  destruct Hok as [_ Hs Hr]. split; [done|]. intros Hsub. apply subseteq_size in Hsub.
  rewrite size_list_to_set in Hsub by done. lia.
Qed.

(** C40: while the loop goes on there have been fewer than six hard failures
    since the last success.  When it stops, its exit status is explained by what
    it saw: 0 is given only when the time is over after some success, when the
    iterations asked for succeeded or in a dry run, 75 when the time is over
    without a success or after five successes that were too quick; any other
    status is that of the last run, which was declined, refused or the sixth
    hard failure since the last success.  Six hard failures are never answered
    with anything but the status of the sixth. *)
Theorem stops_on_six_hard_failures cfg capacity_fn index counts ts o runs :
  NoDup (keys cfg) -> EmptyString ∉ keys cfg -> (index < length (keys cfg))%nat -> 0 <= max_iterations cfg ->
  run cfg capacity_fn ts (start index counts) = (o, runs) ->
  match o with
  | Next st => hard_fail_streak st = streak_after runs /\ streak_after runs < 6
  | Exit code _ =>
      (exists t, t ∈ ts /\ ends cfg t runs code) /\
      (streak_after runs = 6 -> exists t, last runs = Some t /\ code = tn_status t /\ hard_failure code = true)
  end.
Proof.
  intros Hnd Hne Hi Hm Hrun. apply (run_sound cfg capacity_fn Hnd Hne ts []) in Hrun;
    [|by apply loop_start_ok|apply loop_start_tally|done].
  destruct o as [code st|st].
  - split; [done|]. destruct Hrun as (t & _ & He). intros H6. cbn [app] in He. by apply (ends_at_six cfg t).
  - destruct Hrun as [Hok Ht]. cbn [app] in Ht. rewrite <-(tl_hard _ _ _ Ht). split; [done|]. apply (ok_hard _ _ (ok_counters _ _ Hok)).
Qed.

(** ** Concrete runs *)

Definition usable_decision : dict := [("usable", JBool true)]%string.
Definition failing_turn (status : Z) : turn := Turn false [usable_decision; usable_decision] status 60 true.
Definition two_providers : RalphConfig :=
  {| keys := ["claude"; "codex"]%string; routes := false; even_burn := true; max_iterations := 0; min_iteration_seconds := 5; dry_run := false |}.

(** Two failures skip both providers, so the loop waits and starts over. *)
Lemma rotation_never_runs_dry_witness :
  exists st runs, run two_providers no_capacity [failing_turn 1; failing_turn 1; failing_turn 1] (start 1 ∅) = (Next st, runs) /\
    (exists i, sel_index (selection_of two_providers no_capacity (failing_turn 0) st) = Some i).
Proof.
  destruct (run two_providers no_capacity [failing_turn 1; failing_turn 1; failing_turn 1] (start 1 ∅)) as [o runs] eqn:E.
  destruct o as [code st|st]; [vm_compute in E; discriminate E|]. exists st, runs. split; [done|].
  destruct (rotation_never_runs_dry two_providers no_capacity 1 ∅ [failing_turn 1; failing_turn 1; failing_turn 1] st runs) as [_ H];
    [by apply (bool_decide_unpack _); vm_compute | by apply (bool_decide_unpack _); vm_compute | cbn; lia | cbn; lia | exact E |].
  destruct (H (failing_turn 0)) as (i & Hi & _). by exists i.
Defined.

(** The sixth failure ends the loop with its status; a success in between
    starts the count again. *)
Lemma stops_on_six_hard_failures_witness :
  (exists st runs, run two_providers no_capacity (replicate 5 (failing_turn 3) ++ [failing_turn 0] ++ replicate 5 (failing_turn 3)) (start 0 ∅) = (Next st, runs)) /\
  exists st runs, run two_providers no_capacity (replicate 9 (failing_turn 3)) (start 0 ∅) = (Exit 3 st, runs) /\
    length runs = 6%nat /\ streak_after runs = 6 /\ exists t, ends two_providers t runs 3.
Proof.
  split; [eexists _, _; vm_compute; reflexivity|].
  destruct (run two_providers no_capacity (replicate 9 (failing_turn 3)) (start 0 ∅)) as [o runs] eqn:E.
  pose proof (stops_on_six_hard_failures two_providers no_capacity 0 ∅ (replicate 9 (failing_turn 3)) o runs) as H.
  specialize (H ltac:(by apply (bool_decide_unpack _); vm_compute) ltac:(by apply (bool_decide_unpack _); vm_compute) ltac:(cbn; lia) ltac:(cbn; lia) E).
  assert (Hr : runs = replicate 6 (failing_turn 3)) by (vm_compute in E; injection E as _ <-; reflexivity).
  destruct o as [code st|st]; [|vm_compute in E; discriminate E].
  assert (code = 3) as -> by (vm_compute in E; congruence).
  destruct H as [(t & _ & H) _]. exists st, runs. repeat split; [by rewrite Hr|by rewrite Hr|by exists t].
Defined.
