(* ===== verification/StoreClient.v ===== *)
(** * Clients of the store

    Computations that change the database only by calls of the store's
    methods, and the methods they call. *)

From S2P Require Import Prelude Py Vocab States StoreData StoreTasks StoreOps StoreReview StoreLog StoreApi StoreKeys StoreLogs.
From stdpp Require Import options.
Local Open Scope Z_scope.

(** An answer of the environment at this moment. *)
Definition answer_of {A} (f : nat -> A) : DB A := gets (fun w => f (w_tick w)).
(** A client changes the database only by calls of the store's methods. *)
Abbreviation client := (dbrel (rtc call)).

Lemma ignore_world {A} (m : DB A) w : (ignore m w).2 = (m w).2.
Proof. unfold ignore, mbind, ST_bind. by destruct (m w) as [[a|e] w']. Qed.

Section client.
Context `{Oracle} `{SE : SqlErrors}.

Lemma client_op {A} (m : DB A) o : (forall w, (run_op o w).2 = (m w).2) -> keeps client m.
Proof.
  intros Eo w. unfold dbrel. rewrite <-Eo. apply rtc_once. destruct w as [d tick]. by eapply call_intro.
Qed.
Lemma client_op_ignore {A} (m : DB A) o : run_op o = ignore m -> keeps client m.
Proof. intros Eo. apply (client_op _ o). intros w. by rewrite Eo, ignore_world. Qed.
Lemma client_attempt {A} (m : DB A) : keeps client m -> keeps client (attempt m).
Proof. intros Hm w. specialize (Hm w). unfold attempt, dbrel in *. by destruct (m w) as [r w']. Qed.
Lemma client_answer {A} (f : nat -> A) : keeps client (answer_of f).
Proof. by intros w. Qed.
Lemma client_get_mission m : keeps client (get_mission m).
Proof. unfold get_mission, _mission_row. solve_db_keeps. Qed.
Lemma client_get_task t : keeps client (get_task t).
Proof. unfold get_task, _task_row. solve_db_keeps. Qed.
Lemma client_get_operation o : keeps client (get_operation o).
Proof. unfold get_operation, _operation_row. solve_db_keeps. Qed.
Lemma client_prepare_managed_process m t k : keeps client (prepare_managed_process m t k).
Proof. by apply (client_op_ignore _ (Op_prepare_managed_process m t k)). Qed.
Lemma client_mark_managed_process_running p pid s : keeps client (mark_managed_process_running p pid s).
Proof. by apply (client_op_ignore _ (Op_mark_managed_process_running p pid s)). Qed.
Lemma client_finish_managed_process p c s : keeps client (finish_managed_process p c s).
Proof. by apply (client_op_ignore _ (Op_finish_managed_process p c s)). Qed.
Lemma client_verify_task t e a s md r : keeps client (verify_task t e a s md r).
Proof. by apply (client_op_ignore _ (Op_verify_task t e a s md r)). Qed.
Lemma client_record_verification_attempt t r : keeps client (record_verification_attempt t r).
Proof. by apply (client_op _ (Op_record_verification_attempt t r)). Qed.
Lemma client_record_runtime_event m k d : keeps client (record_runtime_event m k d).
Proof. by apply (client_op_ignore _ (Op_record_runtime_event m k d)). Qed.
Lemma client_set_mission_config_value m k v e : keeps client (set_mission_config_value m k v e).
Proof. by apply (client_op_ignore _ (Op_set_mission_config_value m k v e)). Qed.
Lemma client_set_mission_status m s : keeps client (set_mission_status m s).
Proof. by apply (client_op _ (Op_set_mission_status m s)). Qed.
Lemma client_sync_review_hold_events m : keeps client (sync_review_hold_events m).
Proof. by apply (client_op_ignore _ (Op_sync_review_hold_events m)). Qed.
Lemma client_ready_tasks m l : keeps client (ready_tasks m l).
Proof. by apply (client_op_ignore _ (Op_ready_tasks m l)). Qed.
Lemma client_begin_iteration t : keeps client (begin_iteration t).
Proof. by apply (client_op_ignore _ (Op_begin_iteration t)). Qed.
Lemma client_begin_operation t i s : keeps client (begin_operation t i s).
Proof. by apply (client_op_ignore _ (Op_begin_operation t i s)). Qed.
Lemma client_mark_operation_running o p pid s r m : keeps client (mark_operation_running o p pid s r m).
Proof. by apply (client_op _ (Op_mark_operation_running o p pid s r m)). Qed.
Lemma client_abort_prepared_operation o r : keeps client (abort_prepared_operation o r).
Proof. by apply (client_op_ignore _ (Op_abort_prepared_operation o r)). Qed.
Lemma client_record_operation_session o r p s c so : keeps client (record_operation_session o r p s c so).
Proof. by apply (client_op _ (Op_record_operation_session o r p s c so)). Qed.
Lemma client_finish_operation o c l : keeps client (finish_operation o c l).
Proof. by apply (client_op_ignore _ (Op_finish_operation o c l)). Qed.
Lemma client_continue o m : keeps client (continue_task_after_provider_failure o m).
Proof. by apply (client_op_ignore _ (Op_continue_task_after_provider_failure o m)). Qed.

Lemma client_add_task m p t pr or d a : keeps client (add_task m p t pr or d a).
Proof. by apply (client_op_ignore _ (Op_add_task m p t pr or d a)). Qed.
Lemma client_propose_task m p s t pr d a : keeps client (propose_task m p s t pr d a).
Proof. by apply (client_op_ignore _ (Op_propose_task m p s t pr d a)). Qed.
Lemma client_decide_proposal m t a r : keeps client (decide_proposal m t a r).
Proof. by apply (client_op_ignore _ (Op_decide_proposal m t a r)). Qed.
Lemma client_add_dependency m t d : keeps client (add_dependency m t d).
Proof. by apply (client_op _ (Op_add_dependency m t d)). Qed.
Lemma client_amend_task t c : keeps client (amend_task t c).
Proof. by apply (client_op_ignore _ (Op_amend_task t c)). Qed.
Lemma client_set_task_priority t p : keeps client (set_task_priority t p).
Proof. by apply (client_op _ (Op_set_task_priority t p)). Qed.
Lemma client_reorder_task t o : keeps client (reorder_task t o).
Proof. by apply (client_op _ (Op_reorder_task t o)). Qed.
Lemma client_set_task_status t s : keeps client (set_task_status t s).
Proof. by apply (client_op_ignore _ (Op_set_task_status t s)). Qed.
Lemma client_reject_task t r o : keeps client (reject_task t r o).
Proof. by apply (client_op_ignore _ (Op_reject_task t r o)). Qed.
Lemma client_release_review_hold m : keeps client (release_review_hold m).
Proof. by apply (client_op_ignore _ (Op_release_review_hold m)). Qed.
Lemma client_enqueue_command m p c : keeps client (enqueue_command m p c).
Proof. by apply (client_op_ignore _ (Op_enqueue_command m p c)). Qed.
Lemma client_get_command c : keeps client (get_command c).
Proof. unfold get_command. solve_db_keeps. Qed.
Lemma client_list_tasks m l o : keeps client (list_tasks m l o).
Proof. unfold list_tasks, _mission_row. solve_db_keeps. Qed.

Context (mission_id : string).
Lemma client_get_managed_process p : keeps client (get_managed_process p).
Proof. unfold get_managed_process, _managed_process_row. solve_db_keeps. Qed.
Lemma client_unresolved : keeps client (unresolved_managed_processes mission_id).
Proof. unfold unresolved_managed_processes, _mission_row. solve_db_keeps. Qed.
Lemma client_reconcile : keeps client (reconcile_interrupted_operations mission_id).
Proof. by apply (client_op_ignore _ (Op_reconcile_interrupted_operations mission_id)). Qed.
Lemma client_release_declined : keeps client (release_declined_tasks mission_id).
Proof. by apply (client_op_ignore _ (Op_release_declined_tasks mission_id)). Qed.
Lemma client_pending_commands : keeps client (pending_commands mission_id).
Proof. unfold pending_commands, _mission_row. solve_db_keeps. Qed.
Lemma client_finish_command c s r : keeps client (finish_command c s r).
Proof. by apply (client_op_ignore _ (Op_finish_command c s r)). Qed.
Lemma client_set_rotation p r s : keeps client (set_rotation mission_id p r s).
Proof. by apply (client_op_ignore _ (Op_set_rotation mission_id p r s)). Qed.
Lemma client_set_config_values v k : keeps client (set_mission_config_values mission_id v k).
Proof. by apply (client_op_ignore _ (Op_set_mission_config_values mission_id v k)). Qed.
End client.

#[export] Hint Resolve client_answer client_get_mission client_get_task client_get_operation client_prepare_managed_process
  client_mark_managed_process_running client_finish_managed_process client_verify_task client_record_verification_attempt
  client_record_runtime_event client_set_mission_config_value client_set_mission_status client_sync_review_hold_events client_ready_tasks
  client_begin_iteration client_begin_operation client_mark_operation_running client_abort_prepared_operation
  client_record_operation_session client_finish_operation client_continue : py_keeps.

#[export] Hint Resolve client_get_managed_process client_unresolved client_reconcile client_release_declined client_pending_commands
  client_finish_command client_set_rotation client_set_config_values client_add_task client_propose_task client_decide_proposal client_add_dependency client_amend_task client_set_task_priority client_reorder_task client_set_task_status client_reject_task client_release_review_hold client_enqueue_command client_get_command client_list_tasks : py_keeps.

(** ** What calls keep *)

Lemma reachable_calls d d' : reachable d -> rtc call d d' -> reachable d'.
Proof. intros Hr Hc. induction Hc as [d|d d1 d' Hc _ IH]; [done|]. apply IH. by eapply reachable_call. Qed.


Section known.
Context (mission_id : string).
(** Missions stay known. *)
Lemma known_calls d d' : rtc call d d' -> is_Some (find_mission mission_id d) -> is_Some (find_mission mission_id d').
Proof.
  assert (Hk : forall d0, is_Some (find_mission mission_id d0) <-> mission_id ∈ m_id <$> missions d0).
  { intros d0. unfold find_mission. rewrite list_elem_of_fmap. split.
    - intros [m Hm]. apply first_Some in Hm as [Hin Hid]. bool_to_prop. by exists m.
    - intros (m & Hid & Hm). destruct (first _ (missions d0)) as [m'|] eqn:E; [by eexists|].
      rewrite first_None in E. specialize (E m Hm). cbn in E. by rewrite bool_decide_eq_true_2 in E. }
  rewrite !Hk. induction 1 as [d|d d1 d' Hc _ IH]; [done|]. intros Hin. apply IH. destruct Hc as [O F o tick <-].
  destruct (rows_are_permanent O F o (World d tick)) as (_ & Hm & _). cbn [w_db] in Hm.
  assert (Hid : forall l : list mission_row, m_id <$> l = (fun i => i.1.1.1.1) <$> (m_identity <$> l)) by (intros l; by rewrite <- list_fmap_compose).
  rewrite Hid in Hin |- *. apply list_elem_of_fmap in Hin as (i & Hi & Hin). apply list_elem_of_fmap. exists i. split; [done|]. by eapply elem_of_prefix.
Qed.
End known.

(** ** Running a computation *)

Section runs.
Context `{Oracle} `{SE : SqlErrors}.
Lemma transaction_inv {A} (m : DB A) a w w' : _transaction m w = (Ok a, w') -> m w = (Ok a, w').
Proof. unfold _transaction. destruct (m w) as [[a'|e] w1]; [|done]. by destruct (sql_error w1). Qed.
Lemma get_mission_runs id m w : find_mission id (w_db w) = Some m -> get_mission id w = (Ok m, w).
Proof. intros E. unfold get_mission, _mission_row, read, gets, mbind, ST_bind, or_raise. by rewrite E. Qed.
Lemma get_task_runs id t w : find_task id (w_db w) = Some t -> get_task id w = (Ok (_task_dict (w_db w) t), w).
Proof. intros E. unfold get_task, _task_row, read, gets, mbind, ST_bind, or_raise. by rewrite E. Qed.

End runs.
