(* ===== verification/Verifier.v ===== *)
(** * Running a mission's verifier ([bridge_runtime.py], [run_configured_verifier])

    The controller's calls of the store, with the calls other processes make
    in between, and the run of the configured verifier command.  What the
    verifier process does, the files around it and the digests are answers of
    the environment. *)

From Stdlib Require Import QArith.
From S2P Require Import Prelude Py Vocab States StoreData StoreTasks StoreOps StoreReview StoreLog StoreApi StoreKeys StoreAbstract StoreRounds StoreLogs StoreSpecs StoreDemo StoreClient.
From stdpp Require Import options.
Local Open Scope Z_scope.

(** What [_run_bounded_verifier] returns. *)
Record verifier_result : Type := VerifierResult {
  vr_exit_code : Z;
  vr_timed_out : bool;
  vr_output : string;
  vr_output_size : Z;
  vr_output_sha256 : string;
  vr_elapsed : json;
  vr_truncated : bool;
}.
(** A run of the process: whether it could be launched, the pid and start token
    read after the launch, what the run returns or raises, and the code the
    process ends with - [killed] if it is killed before its output is read. *)
Inductive verifier_run : Type :=
  | LaunchFailed (msg : string)
  | Launched (identity : option (Z * string)) (body : result exn verifier_result) (returncode killed : Z).

(** The environment of a controller.  [others n] are the calls other processes
    complete before the controller's call at tick [n]. *)
Class ControllerEnv : Type := {
  others : nat -> list op;
  verifier_runs : nat -> verifier_run;
  changed_verifier_files : nat -> dict -> string -> list string;
  attempt_files : nat -> result exn string;
  artifact_records : nat -> string -> json -> result exn json;
  json_loads : string -> option json;
  str_of : json -> string;
  float_of : json -> option pyfloat;
  sha256_of : dict -> string;
  empty_sha256 : string;
  exn_text : exn -> string;
}.

(** ** Interference

    The controller of a mission holds the mission's lock, so no other process
    starts or finishes operations of its tasks; every other call may come from
    anywhere at any time. *)

Definition task_in (mission_id : string) (d : database) (task_id : Z) : bool :=
  match find_task task_id d with Some t => bool_decide (t_mission t = mission_id) | None => false end.
Definition reserved (mission_id : string) (d : database) (o : op) : bool :=
  match o with
  | Op_begin_iteration t | Op_begin_operation t _ _ => task_in mission_id d t
  | Op_mark_operation_running id _ _ _ _ _ | Op_finish_operation id _ _ =>
      match find_operation id d with Some o => task_in mission_id d (o_task o) | None => false end
  | _ => false
  end.

Section controller.
Context `{Oracle} `{ControllerEnv}.

Fixpoint run_others (mission_id : string) (os : list op) (w : world) : world :=
  match os with
  | [] => w
  | o :: os' => run_others mission_id os' (if reserved mission_id (w_db w) o then w else (run_op o w).2)
  end.
Definition interference (mission_id : string) : DB unit := fun w =>
  let w' := run_others mission_id (others (w_tick w)) w in (Ok tt, World (w_db w') (S (w_tick w'))).
(** A call of the store. *)
Definition call_store {A} (mission_id : string) (m : DB A) : DB A := interference mission_id ;; m.

(** ** The verifier process *)

(** [_run_bounded_verifier] under the callbacks [mark_started] and
    [mark_finished], and the [finally] that resolves the process record. *)
Definition supervise (mission_id process_id : string) (r : verifier_run) : DB (result exn verifier_result) :=
  match r with
  | LaunchFailed msg =>
      call_store mission_id (finish_managed_process process_id None "FAILED") ;;
      mret (Raise (OSError msg))
  | Launched identity body returncode killed =>
      marked ← (match identity with
                | Some (pid, start) =>
                    attempt (call_store mission_id (ignore (mark_managed_process_running process_id pid start)))
                | None => mret (Ok tt)
                end);
      let managed_started := is_ok marked && bool_decide (is_Some identity) in
      let '(result, code) := match marked with Ok _ => (body, returncode) | Raise e => (Raise e, killed) end in
      finished ← attempt (call_store mission_id (finish_managed_process process_id (Some code)
        (if managed_started || (0 <=? code) then "EXITED" else "FAILED")));
      match finished with
      | Ok _ => mret result
      | Raise e =>
          call_store mission_id (finish_managed_process process_id None (if managed_started then "UNCERTAIN" else "FAILED")) ;;
          mret (Raise e)
      end
  end.

(** ** The configured verifier *)

Definition config_dict (mission : mission_row) (key : string) : dict :=
  match dget key (m_config mission) with Some (JObj d) => d | _ => [] end.
Definition verifier_argv (mission : mission_row) : list json :=
  match dget "argv" (config_dict mission "verifier") with Some (JList l) => l | _ => [] end.
Definition plain_arg (j : json) : bool :=
  match j with JStr s => sforall (fun c => negb (code c =? 0)) s | _ => false end.
Definition timeout_ok (verifier : dict) : result exn unit :=
  match dget "timeout_seconds" verifier with
  | None => Ok tt
  | Some j =>
      match float_of j with
      | None => Raise (ValueError "could not convert to float")
      | Some t => if fle t (Fin 0) || flt (Fin 3600) t then Raise (ValueError "verifier timeout must be between 0 and 3600 seconds") else Ok tt
      end
  end.

Definition failure_reason (r : verifier_result) : string :=
  if vr_timed_out r then "timeout" else if vr_truncated r then "output-too-large"
  else if negb (vr_exit_code r =? 0) then "nonzero-exit" else "invalid-result".
Definition base_outcome (revision : Z) (log_path reason : string) (r : option verifier_result) (empty_sha : string) : dict :=
  [("status", JStr "VERIFYING"); ("passed", JBool false); ("reason", JStr reason);
   ("exit_code", match r with Some r => JInt (vr_exit_code r) | None => JNull end);
   ("elapsed_seconds", match r with Some r => vr_elapsed r | None => JFloat (Fin 0) end);
   ("logs_path", JStr log_path); ("revision", JInt revision);
   ("output_sha256", JStr (match r with Some r => vr_output_sha256 r | None => empty_sha end));
   ("output_size", JInt (match r with Some r => vr_output_size r | None => 0 end))]%string.

(** The JSON object the verifier printed; anything else counts as no answer. *)
Definition verifier_payload (output : string) : dict :=
  if truthy_str (strip output) then match json_loads output with Some (JObj d) => d | _ => [] end else [].
Definition verifier_summary (payload : dict) (output : string) : string :=
  stake 2000 (match dget "summary" payload with
              | Some (JStr s) => if truthy_str s then s else if truthy_str (strip output) then strip output else "verifier exited successfully"
              | Some j => if truthy j then str_of j else if truthy_str (strip output) then strip output else "verifier exited successfully"
              | None => if truthy_str (strip output) then strip output else "verifier exited successfully"
              end).

(** The [try] block behind an exit code of zero. *)
Definition accept_result (mission : mission_row) (task_id revision : Z) (log_path : string) (r : verifier_result) (outcome : dict) : DB dict :=
  let payload := verifier_payload (vr_output r) in
  raise_if (bool_decide (dget "passed" payload = Some (JBool false))) (ValueError "verifier reported passed: false") ;;
  let summary := verifier_summary payload (vr_output r) in
  found ← answer_of (fun n => artifact_records n (m_cwd mission) (default (JList []) (dget "artifacts" payload)));
  artifacts ← lift_result found;
  let digest := sha256_of
    [("mission_id", JStr (m_id mission)); ("task_id", JInt task_id); ("revision", JInt revision); ("summary", JStr summary);
     ("artifacts", artifacts); ("output_sha256", JStr (vr_output_sha256 r))]%string in
  let passed := dupdate outcome
    [("status", JStr "COMPLETED"); ("passed", JBool true); ("reason", JStr "passed"); ("summary", JStr summary);
     ("artifacts", artifacts); ("digest", JStr digest)]%string in
  verified ← attempt (call_store (m_id mission) (verify_task task_id ("Configured verifier passed: " +:+ summary) false "verifier"
    [("digest", JStr digest); ("artifacts", artifacts); ("logs_path", JStr log_path)]%string false));
  match verified with
  | Ok _ => mret passed
  | Raise (TransitionError _) =>
      current ← call_store (m_id mission) (get_task task_id);
      mret (dupdate passed [("status", JStr (str (t_status (td_row current)))); ("passed", JBool false);
                            ("reason", JStr "task-changed-during-verification")]%string)
  | Raise e => raise e
  end.

Definition record_attempt (mission_id : string) (task_id : Z) (outcome : dict) : DB dict :=
  call_store mission_id (record_verification_attempt task_id outcome) ;; mret outcome.

Definition run_configured_verifier (mission_id : string) (task_id : Z) : DB dict :=
  mission ← call_store mission_id (get_mission mission_id);
  task ← call_store mission_id (get_task task_id);
  let row := td_row task in
  let revision := t_revision row in
  raise_if (negb (bool_decide (t_mission row = mission_id))) (TransitionError "configured verification task belongs to another mission") ;;
  if negb (bool_decide (t_status row = T_VERIFYING)) then
    mret [("status", JStr (str (t_status row))); ("reason", JStr "task-no-longer-verifying"); ("revision", JInt revision)]%string
  else if bool_decide (verifier_argv mission = []) then
    mret [("status", JStr "VERIFYING"); ("reason", JStr "no-configured-verifier")]%string
  else
    raise_if (negb (forallb plain_arg (verifier_argv mission))) (ValueError "verifier argv must contain only strings without NUL bytes") ;;
    let verifier := config_dict mission "verifier" in
    changed ← answer_of (fun n => changed_verifier_files n verifier (m_cwd mission));
    if negb (bool_decide (changed = [])) then
      record_attempt mission_id task_id
        [("status", JStr "VERIFYING"); ("passed", JBool false); ("reason", JStr "verifier-modified");
         ("detail", JStr ("verifier files changed since the mission was created: " +:+ join ", " (take 10 changed) +:+ "; operator approval required"));
         ("changed_files", JList (JStr <$> take 50 changed)); ("revision", JInt revision)]%string
    else
      lift_result (timeout_ok verifier) ;;
      files ← answer_of attempt_files;
      log_path ← lift_result files;
      process_id ← call_store mission_id (prepare_managed_process mission_id task_id "verifier");
      started ← answer_of verifier_runs;
      result ← supervise mission_id process_id started;
      match result with
      | Raise (OSError msg) => record_attempt mission_id task_id (base_outcome revision log_path ("launch-failed: " +:+ msg) None empty_sha256)
      | Raise e => raise e
      | Ok r =>
          let outcome := base_outcome revision log_path (failure_reason r) (Some r) empty_sha256 in
          if (vr_exit_code r =? 0) && negb (vr_truncated r) then
            answer ← attempt (accept_result mission task_id revision log_path r outcome);
            match answer with
            | Ok o => mret o
            | Raise (ValueError _ as e) | Raise (OSError _ as e) =>
                record_attempt mission_id task_id (dset "reason" (JStr ("invalid-result: " +:+ exn_text e)) outcome)
            | Raise e => raise e
            end
          else record_attempt mission_id task_id outcome
      end.

(** ** What a verification by the verifier leaves behind *)

Lemma wp_lift {A} (r : result exn A) (Q : A -> world -> Prop) w : (forall a, r = Ok a -> Q a w) -> wp (lift_result r) Q w.
Proof. intros HQ. unfold wp, lift_result. destruct r; [by apply HQ|done]. Qed.

Definition evidence_of (text : string) (at_ revision : Z) (metadata : dict) : json :=
  JObj (dupdate [("text", JStr text); ("at", JInt at_); ("source", JStr "verifier"); ("revision", JInt revision)] metadata)%string.

Lemma wp_verify_task task_id text metadata (Q : task_dict -> world -> Prop) w :
  (forall t t' at_ td w', find_task task_id (w_db w) = Some t -> t_status t = T_VERIFYING ->
     find_task task_id (w_db w') = Some t' -> t_status t' = T_COMPLETED -> t_revision t' = t_revision t ->
     last (t_evidence t') = Some (evidence_of text at_ (t_revision t) metadata) -> Q td w') ->
  wp (verify_task task_id text false "verifier" metadata false) Q w.
Proof.
  intros HQ. unfold verify_task. apply wp_bind, wp_raise_if. intros Ht. cbn [negb] in Ht. rewrite andb_true_r in Ht.
  apply negb_false_iff in Ht. apply wp_bind, wp_raise_if. intros _. cbv zeta. cbn [orb negb].
  apply wp_bind, wp_transaction. unfold _task_row at 1. apply wp_bind, wp_bind, wp_read.
  destruct (find_task task_id (w_db w)) as [t|] eqn:Ef; [|done]. apply wp_ret.
  apply wp_bind, wp_raise_if. intros Hv%negb_false_iff%bool_decide_eq_true. apply wp_bind, wp_raise_if. intros _.
  unfold _dependencies_complete. apply wp_bind, wp_read. apply wp_bind, wp_raise_if. intros _.
  rewrite Ht. apply wp_bind. apply wp_bind. unfold wp at 1, utc_now. set (w1 := World _ _). apply wp_ret.
  apply wp_bind, wp_ret. rewrite app_nil_r. apply wp_bind. unfold wp at 1, utc_now. set (w2 := World _ _).
  set (f := fun t0 : task_row => _). apply wp_bind, wp_modify. set (w3 := World _ _).
  assert (H3 : find_task task_id (w_db w3) = Some (f t)).
  { change (find_task task_id (update_tasks (fun t => t_id t =? task_id) f (w_db w)) = Some (f t)).
    by rewrite find_task_update, decide_True, Ef by done. }
  unfold task_event, _event. apply wp_bind. unfold wp at 1, utc_now. set (w4 := World _ _). apply wp_modify.
  set (w5 := World _ _). assert (H5 : find_task task_id (w_db w5) = Some (f t)) by exact H3.
  unfold wp, get_task, _task_row, or_raise, read, gets, mbind, ST_bind. rewrite H5. cbn.
  eapply HQ; [done|exact Hv|exact H5|done|done|]. cbn. by rewrite last_snoc.
Qed.

(** ** What other processes cannot do *)




Section round.
Context (mission_id : string) (task_id revision : Z).

(** The task belongs to the mission and is under review, if at all, at this
    revision. *)
Record review_round (d : database) : Prop := {
  rr_reachable : reachable d;
  rr_mission : task_in mission_id d task_id = true;
  rr_revision : forall t, t ∈ tasks d -> t_id t = task_id -> t_status t = T_VERIFYING -> t_revision t = revision;
}.


Lemma task_in_kept d d' : identities_kept d d' -> task_in mission_id d task_id = true -> keys_ok d' -> task_in mission_id d' task_id = true.
Proof using Type.
  intros (Hk & _) Hi Hd'. unfold task_in in *. destruct (find_task task_id d) as [t|] eqn:E; [|done].
  apply first_Some in E as [Ht Hid]. bool_to_prop.
  assert (Hin : t_identity t ∈ t_identity <$> tasks d').
  { eapply elem_of_prefix; [|exact Hk]. by apply list_elem_of_fmap_2. }
  apply list_elem_of_fmap in Hin as (t' & He & Ht'). unfold t_identity in He. simplify_eq.
  assert (Hf := find_task_elem d' t' (ko_tasks _ Hd') Ht'). replace (t_id t') with (t_id t) in Hf by congruence.
  rewrite Hf. apply bool_decide_eq_true. congruence.
Qed.

Lemma round_op (O : Oracle) o d tick : review_round d -> reserved mission_id d o = false ->
  review_round (w_db (run_op (H := O) o (World d tick)).2).
Proof using Type.
  intros [Hr Hm Hrev] Ho. set (w := World d tick).
  assert (Hr' : reachable (w_db (run_op (H := O) o w).2)) by (eapply reachable_call; [exact Hr|by eapply call_intro]).
  split; [done| |].
  - eapply task_in_kept; [apply (rows_are_permanent O no_sql_errors o w)|exact Hm|by apply keys_ok_reachable].
  - intros t Ht Hi Hv. destruct (ends_operation o) eqn:Ee.
    + destruct o; try done. cbn [reserved] in Ho. cbn [run_op] in Ht.
      assert (Hne : forall o', find_operation operation_id (w_db w) = Some o' -> o_task o' <> task_id).
      { intros o' Ho' <-. cbn in Ho'. rewrite Ho' in Ho. congruence. }
      assert (Hrun : exists x, x <> task_id /\ runs_in (round_except x) (ignore (finish_operation operation_id exit_code logs_path)) w).
      { destruct (find_operation operation_id (w_db w)) as [o'|] eqn:Ef.
        - exists (o_task o'). split; [by apply Hne|]. unfold ignore. apply runs_bind; [exact _| |intros; apply runs_keeps; solve_db_keeps].
          apply except_finish_operation. intros o2 Ho2. rewrite Ef in Ho2. congruence.
        - exists (task_id + 1). split; [lia|]. unfold ignore. apply runs_bind; [exact _| |intros; apply runs_keeps; solve_db_keeps].
          apply except_finish_operation. intros o2 Ho2. rewrite Ef in Ho2. congruence. }
      destruct Hrun as (x & Hx & Hrun). apply (Hrev t); [|done|done]. apply (Hrun t Ht). congruence.
    + destruct (run_op_no_new_round (H := O) o w (keys_ok_reachable _ Hr) Ee t Ht Hv) as (t0 & Ht0 & Hi0 & Hs).
      destruct (Hs Hv) as [Hv0 Hrev0]. rewrite <-Hrev0. apply Hrev; [done|congruence|done].
Qed.

Lemma round_others os w : review_round (w_db w) -> review_round (w_db (run_others mission_id os w)).
Proof using Type.
  revert w. induction os as [|o os IH]; intros w Hw; [done|]. cbn [run_others]. apply IH.
  destruct (reserved mission_id (w_db w) o) eqn:E; [done|]. destruct w as [d tick]. by apply round_op.
Qed.

Lemma wp_call {A} (m : DB A) (Q : A -> world -> Prop) w : review_round (w_db w) ->
  (forall w', review_round (w_db w') -> wp m Q w') -> wp (call_store mission_id m) Q w.
Proof using Type.
  intros Hw HQ. unfold call_store. apply wp_bind. unfold wp at 1, interference. apply HQ. cbn [w_db]. by apply round_others.
Qed.

(** A method of the store other processes may call as well. *)
Lemma wp_method {A} (m : DB A) o (Q : A -> world -> Prop) w : run_op o = ignore m -> (forall d, reserved mission_id d o = false) ->
  review_round (w_db w) -> (forall a w', m w = (Ok a, w') -> review_round (w_db w') -> Q a w') -> wp m Q w.
Proof using Type.
  intros Eo Ho Hw HQ. unfold wp. destruct (m w) as [[a|e] w'] eqn:E; [|done]. apply HQ; [done|].
  destruct w as [d tick]. pose proof (round_op _ o d tick Hw (Ho d)) as H1. rewrite Eo in H1.
  unfold ignore, mbind, ST_bind in H1. by rewrite E in H1.
Qed.

Lemma wp_attempt_call {A} (m : DB A) o (Q : result exn A -> world -> Prop) w : (forall w, (run_op o w).2 = (m w).2) ->
  (forall d, reserved mission_id d o = false) -> review_round (w_db w) ->
  (forall r w1 w2, review_round (w_db w1) -> m w1 = (r, w2) -> review_round (w_db w2) -> Q r w2) ->
  wp (attempt (call_store mission_id m)) Q w.
Proof using Type.
  intros Eo Ho Hw HQ. unfold attempt, wp, call_store, mbind, ST_bind, interference.
  set (w1 := World _ _). assert (H1 : review_round (w_db w1)) by (by apply round_others).
  destruct (m w1) as [r w2] eqn:E. apply (HQ r w1 w2); [done|done|].
  pose proof (round_op _ o (w_db w1) (w_tick w1) H1 (Ho _)) as H2.
  replace (World (w_db w1) (w_tick w1)) with w1 in H2 by done. by rewrite Eo, E in H2.
Qed.
Lemma wp_read_task (Q : task_dict -> world -> Prop) w :
  (forall t, find_task task_id (w_db w) = Some t -> Q (_task_dict (w_db w) t) w) -> wp (get_task task_id) Q w.
Proof using Type.
  intros HQ. unfold get_task, _task_row. apply wp_bind, wp_bind, wp_read. destruct (find_task task_id (w_db w)) as [t|]; [|done].
  apply wp_ret, wp_read. by apply HQ.
Qed.

(** What a run returns comes from a run of the process. *)
Definition process_answered (r : verifier_result) : Prop :=
  exists n identity code killed, verifier_runs n = Launched identity (Ok r) code killed.

Lemma wp_supervise process_id n (Q : result exn verifier_result -> world -> Prop) w : review_round (w_db w) ->
  (forall r w', review_round (w_db w') -> (forall a, r = Ok a -> process_answered a) -> Q r w') ->
  wp (supervise mission_id process_id (verifier_runs n)) Q w.
Proof using Type.
  intros Hw HQ. unfold supervise. destruct (verifier_runs n) as [msg|identity body code killed] eqn:En.
  - apply wp_bind, wp_call; [done|]. intros w1 H1.
    apply (wp_method _ (Op_finish_managed_process process_id None "FAILED")); [done|done|done|].
    intros a w2 _ H2. apply wp_ret, HQ; [done|]. done.
  - apply wp_bind. set (first_part := match identity with Some _ => _ | None => _ end).
    assert (Hfirst : wp first_part (fun marked w1 => review_round (w_db w1)) w).
    { unfold first_part. destruct identity as [[pid start]|]; [|by apply wp_ret].
      apply (wp_attempt_call _ (Op_mark_managed_process_running process_id pid start)); [|done|done|by intros].
      intros w1. done. }
    eapply wp_mono; [|exact Hfirst]. intros marked w1 H1. cbv zeta.
    destruct (match marked with Ok _ => (body, code) | Raise e => (Raise e, killed) end) as [result code'] eqn:Em.
    assert (Hres : forall a, result = Ok a -> process_answered a).
    { intros a ->. destruct marked; [|discriminate Em]. injection Em as -> _. by eexists _, _, _, _. }
    apply wp_bind. eapply (wp_attempt_call _ (Op_finish_managed_process process_id (Some code') _)); [|done|done|].
    { intros w2. apply ignore_world. }
    intros [a|e] w2 w3 _ _ H3; [by apply wp_ret, HQ|].
    apply wp_bind, wp_call; [done|]. intros w4 H4.
    eapply (wp_method _ (Op_finish_managed_process process_id None _)); [done|done|done|].
    intros a w5 _ H5. apply wp_ret, HQ; [done|done].
Qed.

(** ** A passed verification *)

(** The task is complete at the revision the verifier was run for, and its
    last evidence is the verifier's. *)
Definition verified (outcome : dict) (d : database) : Prop :=
  dget "revision" outcome = Some (JInt revision) /\
  exists t at_ text metadata, find_task task_id d = Some t /\ t_status t = T_COMPLETED /\ t_revision t = revision /\
    last (t_evidence t) = Some (evidence_of text at_ revision metadata) /\ dget "digest" metadata = dget "digest" outcome.
Definition judged (outcome : dict) (w : world) : Prop :=
  dget "passed" outcome = Some (JBool true) -> verified outcome (w_db w).

Lemma wp_record_attempt outcome w : dget "passed" outcome <> Some (JBool true) -> wp (record_attempt mission_id task_id outcome) judged w.
Proof using Type.
  intros Ho. unfold record_attempt. apply wp_bind, wp_true. intros _ w'. apply wp_ret. done.
Qed.

Lemma wp_accept_result mission log_path r reason w : m_id mission = mission_id -> review_round (w_db w) ->
  wp (accept_result mission task_id revision log_path r (base_outcome revision log_path reason (Some r) empty_sha256)) judged w.
Proof using Type.
  intros Hm Hw. unfold accept_result. cbv zeta. apply wp_bind, wp_raise_if. intros _.
  apply wp_bind. unfold answer_of. apply wp_gets. apply wp_bind, wp_lift. intros artifacts _.
  rewrite Hm. apply wp_bind.
  set (md := [("digest", _); _; _] : dict). set (text := ("Configured verifier passed: " +:+ _)%string). set (passed := dupdate _ _).
  unfold attempt, call_store, wp at 1, mbind at 1, ST_bind at 1, interference. set (w1 := World _ _).
  assert (Hw1 : review_round (w_db w1)) by (by apply round_others).
  pose proof (wp_verify_task task_id text md (fun td w' => judged passed w') w1) as Hv. unfold wp in Hv.
  destruct (verify_task _ _ _ _ _ _ w1) as [[td|e] w2].
  - apply wp_ret. apply Hv. clear Hv. intros t t' at_ td' w' Ht Hs Ht' Hs' Hr' He _. split; [done|].
    assert (Hrev : t_revision t = revision).
    { apply (rr_revision _ Hw1); [|by eapply find_task_id|done]. unfold find_task in Ht. by apply first_Some in Ht as [? _]. }
    exists t', at_, text, md. rewrite Hrev in *. done.
  - destruct e; try done. apply wp_bind, wp_true. intros td w3. by apply wp_ret.
Qed.
End round.

(** In a reachable database the task a call of [get_task] finds is the only row
    of its id, so a review round can be opened at its revision. *)
Lemma open_round mission_id task_id d t : reachable d -> find_task task_id d = Some t -> t_mission t = mission_id ->
  review_round mission_id task_id (t_revision t) d.
Proof.
  intros Hr Ht Hm. split; [done| |].
  - unfold task_in. rewrite Ht. by apply bool_decide_eq_true.
  - intros t' Ht' Hi _. subst task_id. rewrite find_task_elem in Ht; [by simplify_eq|by apply keys_ok_reachable|done].
Qed.
Lemma reachable_others mission_id os w : reachable (w_db w) -> reachable (w_db (run_others mission_id os w)).
Proof.
  revert w. induction os as [|o os IH]; intros w Hw; [done|]. cbn [run_others]. apply IH. case_match; [done|].
  eapply reachable_call; [exact Hw|]. destruct w as [d tick]. by eapply call_intro.
Qed.
Lemma wp_call_reachable {A} mission_id (m : DB A) (Q : A -> world -> Prop) w : reachable (w_db w) ->
  (forall w', reachable (w_db w') -> wp m Q w') -> wp (call_store mission_id m) Q w.
Proof. intros Hw HQ. unfold call_store. apply wp_bind. unfold wp at 1, interference. apply HQ. by apply reachable_others. Qed.

(** What a run that passed can rely on. *)
Definition passed_run (mission_id : string) (task_id : Z) (outcome : dict) (w : world) : Prop :=
  dget "passed" outcome = Some (JBool true) ->
  (exists revision, verified task_id revision outcome (w_db w)) /\
  exists r, process_answered r /\ vr_exit_code r = 0 /\ vr_truncated r = false /\
    dget "passed" (verifier_payload (vr_output r)) <> Some (JBool false) /\
    dget "output_sha256" outcome = Some (JStr (vr_output_sha256 r)).

(** Every answer speaks of the output of the run it judges. *)
Lemma wp_accept_output mission task_id revision log_path reason r w :
  wp (accept_result mission task_id revision log_path r (base_outcome revision log_path reason (Some r) empty_sha256))
    (fun o _ => dget "output_sha256" o = Some (JStr (vr_output_sha256 r))) w.
Proof.
  unfold accept_result. cbv zeta. apply wp_bind, wp_raise_if. intros _. apply wp_bind, wp_true. intros ? ?.
  apply wp_bind, wp_true. intros artifacts ?. apply wp_bind, wp_true. intros [?|e] ?; [by apply wp_ret|].
  destruct e; try done. apply wp_bind, wp_true. intros ? ?. by apply wp_ret.
Qed.

Lemma wp_and {A} (m : DB A) (Q1 Q2 : A -> world -> Prop) w : wp m Q1 w -> wp m Q2 w -> wp m (fun a w => Q1 a w /\ Q2 a w) w.
Proof. unfold wp. by destruct (m w) as [[a|e] w']. Qed.

Lemma wp_run_configured_verifier mission_id task_id w : reachable (w_db w) ->
  wp (run_configured_verifier mission_id task_id) (passed_run mission_id task_id) w.
Proof.
  intros Hw. unfold run_configured_verifier.
  apply wp_bind, wp_call_reachable; [done|]. intros w1 Hw1. unfold get_mission. apply wp_mission_row. intros mission Hmission _.
  apply wp_bind, wp_call_reachable; [done|]. intros w2 Hw2. apply wp_read_task. intros t Ht. cbv zeta. cbn [td_row _task_dict].
  apply wp_bind, wp_raise_if. intros Hm%negb_false_iff%bool_decide_eq_true.
  pose proof (open_round mission_id task_id (w_db w2) t Hw2 Ht Hm) as Hround.
  assert (Hfail : forall o w', dget "passed" o <> Some (JBool true) -> wp (record_attempt mission_id task_id o) (passed_run mission_id task_id) w').
  { intros o w' Ho. unfold record_attempt. apply wp_bind, wp_true. intros _ w3. by apply wp_ret. }
  destruct (negb _); [by apply wp_ret|]. destruct (bool_decide (verifier_argv mission = [])); [by apply wp_ret|].
  apply wp_bind, wp_raise_if. intros _. apply wp_bind. unfold answer_of. apply wp_gets.
  destruct (negb _); [by apply Hfail|].
  apply wp_bind, wp_lift. intros [] _. apply wp_bind, wp_gets. apply wp_bind, wp_lift.
  intros log_path _.
  apply wp_bind. apply (wp_call mission_id task_id (t_revision t)); [done|]. intros w3 Hw3.
  apply (wp_method mission_id task_id (t_revision t) _ (Op_prepare_managed_process mission_id task_id "verifier")); [done|done|done|].
  intros process_id w4 _ Hw4. apply wp_bind, wp_gets. apply wp_bind.
  apply (wp_supervise mission_id task_id (t_revision t)); [done|]. intros result w5 Hw5 Hans.
  destruct result as [r|e]; [|destruct e; try done; by apply Hfail].
  specialize (Hans r eq_refl). destruct (Z.eqb_spec (vr_exit_code r) 0) as [Hx|Hx]; cbn [andb]; [|by apply Hfail].
  destruct (vr_truncated r) eqn:Htr; cbn [negb]; [by apply Hfail|].
  set (outcome := base_outcome _ _ _ _ _). apply wp_bind.
  pose proof (wp_accept_result mission_id task_id (t_revision t) mission log_path r (failure_reason r) w5) as Hacc.
  unfold attempt, wp at 1.
  assert (Hm' : m_id mission = mission_id) by (unfold find_mission in Hmission; apply first_Some in Hmission as [_ ?]; by bool_to_prop).
  specialize (Hacc Hm' Hw5). fold outcome in Hacc. unfold wp in Hacc.
  pose proof (wp_accept_output mission task_id (t_revision t) log_path (failure_reason r) r w5) as Hout. fold outcome in Hout. unfold wp in Hout.
  destruct (accept_result mission task_id (t_revision t) log_path r outcome w5) as [[o|e] w6] eqn:Ea.
  - apply wp_ret. intros Hp. split; [by exists (t_revision t); apply Hacc|]. exists r. split_and!; try done.
    intros Hrep. revert Ea. unfold accept_result. rewrite Hrep, bool_decide_eq_true_2 by done. done.
  - destruct e; try done; by apply Hfail.
Qed.
End controller.


(** ** A concrete mission with a verifier *)

Definition verify_script : list op := [
  Op_create_mission "verified" "objective" "/r" (Some "m1"%string) (Some "first"%string) ["a"]%string
    [("verifier", JObj [("argv", JList [JStr "check"])]); ("verification_requests", JList [JInt 1])]%string;
  Op_set_mission_status "m1" "RUNNING";
  Op_begin_operation 1 1 "codex";
  Op_mark_operation_running "id5" "pane" (Some 41) "start" "route" "model";
  Op_finish_operation "id5" 0 None;
  Op_set_mission_status "m1" "PAUSED" ].
Definition verify_world (k : nat) : world := run_ops (H := demo_oracle) (take k verify_script) (World empty_database 0).

Lemma verify_world_reachable k : reachable (w_db (verify_world k)).
Proof. apply reachable_run_ops. constructor. Qed.

(** Other processes keep making the calls of [elsewhere]. *)
Definition demo_env (elsewhere : list op) (run : verifier_run) : ControllerEnv := {|
  others _ := elsewhere;
  verifier_runs _ := run;
  changed_verifier_files _ _ _ := [];
  attempt_files _ := Ok "/logs/attempt.log"%string;
  artifact_records _ _ _ := Ok (JList []);
  json_loads _ := None;
  str_of j := match j with JStr s => s | _ => EmptyString end;
  float_of j := match j with JInt z => Some (float_of_Z z) | JFloat f => Some f | _ => None end;
  sha256_of d := show_Z (Z.of_nat (length d));
  empty_sha256 := "e3b0"%string;
  exn_text _ := "error"%string;
|}.
Definition passing_run : verifier_run :=
  Launched (Some (77, "token"%string)) (Ok (VerifierResult 0 false "all tests pass" 14 "abc1" (JFloat (Fin (1 # 2))) false)) 0 (-15).
Definition busy_env : ControllerEnv := demo_env [Op_add_task "m1" "meanwhile" "" 0 None [] []] passing_run.

(** ** The theorem *)

(** C11: When [run_configured_verifier] answers that the verification passed,
    the task is COMPLETED at the revision the verifier was run for, its last
    evidence is the verifier's, of that revision and with the answer's digest,
    and a run of the verifier process with the digest of the answer exited
    with 0, was not truncated and did not print [passed: false] - whatever other processes did to the store
    between the controller's calls: amending, rejecting, pausing or cancelling
    the task while the verifier runs never lets a stale result complete it. *)
Theorem verified_at_checked_revision (O : Oracle) (E : ControllerEnv) (mission_id : string) (task_id : Z) (w w' : world) (outcome : dict) :
  reachable (w_db w) -> run_configured_verifier mission_id task_id w = (Ok outcome, w') ->
  dget "passed" outcome = Some (JBool true) ->
  exists revision t at_ text metadata r,
    dget "revision" outcome = Some (JInt revision) /\
    find_task task_id (w_db w') = Some t /\ t_status t = T_COMPLETED /\ t_revision t = revision /\
    last (t_evidence t) = Some (evidence_of text at_ revision metadata) /\ dget "digest" metadata = dget "digest" outcome /\
    process_answered r /\ vr_exit_code r = 0 /\ vr_truncated r = false /\
    dget "passed" (verifier_payload (vr_output r)) <> Some (JBool false) /\
    dget "output_sha256" outcome = Some (JStr (vr_output_sha256 r)).
Proof.
  intros Hr E1 Hp. pose proof (wp_run_configured_verifier mission_id task_id w Hr) as Hw. unfold wp in Hw. rewrite E1 in Hw.
  destruct (Hw Hp) as [(rev & Hrev & t & at_ & text & md & Ht & Hs & Htr & He & Hd) (r & Hr1 & Hr2 & Hr3 & Hr4 & Hr5)].
  by exists rev, t, at_, text, md, r.
Qed.

(** A task is added before each of the controller's calls. *)
Lemma verified_at_checked_revision_witness : exists outcome w',
  run_configured_verifier (H := demo_oracle) (H0 := busy_env) "m1" 1 (verify_world 5) = (Ok outcome, w') /\
  length (tasks (w_db (verify_world 5))) = 1%nat /\ length (tasks (w_db w')) = 7%nat /\
  exists t, find_task 1 (w_db w') = Some t /\ t_status t = T_COMPLETED /\ t_revision t = 1.
Proof.
  destruct (run_configured_verifier (H := demo_oracle) (H0 := busy_env) "m1" 1 (verify_world 5)) as [r w'] eqn:E.
  pose proof (f_equal (fun x => x.1) E) as E1. vm_compute in E1.
  pose proof (f_equal (fun x => length (tasks (w_db x.2))) E) as E2. vm_compute in E2.
  destruct r as [outcome|e]; [|discriminate E1]. cbn in E1. injection E1 as E1.
  exists outcome, w'. split; [reflexivity|]. split; [vm_compute; reflexivity|]. split; [by rewrite E2|].
  assert (Hp : dget "passed" outcome = Some (JBool true)) by (rewrite <- E1; vm_compute; reflexivity).
  destruct (verified_at_checked_revision demo_oracle busy_env "m1" 1 _ w' outcome (verify_world_reachable 5) E Hp)
    as (rev & t & at_ & text & md & r & Hrev & Ht & Hs & Hr & _).
  exists t. split; [exact Ht|]. split; [exact Hs|]. rewrite Hr. rewrite <- E1 in Hrev. vm_compute in Hrev. congruence.
Defined.
