(* ===== verification/Controller.v ===== *)
(** * The mission controller ([bridge_runtime.py], [BridgeMissionHooks])

    What the controller of a mission does with its store at the boundaries of
    the persistent loop: before an iteration, before a launch, after a run.
    Every call of the store may be preceded by calls of other processes
    ([call_store]).  Prompts, terminal messages, provider sessions and log
    files have no effect on the store beyond the events below; their contents
    are answers of the environment. *)

From S2P Require Import Prelude Py Vocab States StoreData StoreTasks StoreOps StoreReview StoreLog StoreApi StoreDemo StoreKeys Lifecycle StoreAbstract StoreRounds StoreRefines StoreClient Verifier.
From stdpp Require Import options.
Local Open Scope Z_scope.

(** What the hooks learn about a run: how the provider's session went, the
    diagnosis of its output, and the data of the events around it. *)
Record run_report : Type := RunReport {
  rn_restoration : string;
  rn_session : option (string * string * string);
  rn_failure : dict;
  rn_progress : dict;
  rn_refusal : string;
}.

(** The state [BridgeMissionHooks] keeps between calls. *)
Record hooks : Type := Hooks {
  h_iteration : Z;
  h_wait_baseline : option (string * string * list Z);
  h_applied_rotation : option (string * string);
}.

Inductive action : Type :=
  | A_stop (reason : string)
  | A_wait
  | A_run (task : task_dict).

(** A decision of the selection, and the selection itself, as far as the
    hand-off reads and writes them. *)
Record choice : Type := Choice {
  ch_index : Z;
  ch_route : string;
  ch_provider : string;
  ch_rotation_reason : string;
  ch_all_rate_limited : bool;
}.

Section controller.
Context `{Oracle} `{ControllerEnv}.
Context (mission_id : string) (max_provider_failures : Z).
Local Abbreviation call := (call_store mission_id).

(** [[int(value) for value in config.get("verification_requests", [])]]. *)
Definition verification_requests (config : dict) : result exn (list Z) :=
  l ← items_of (default (JList []) (dget "verification_requests" config)); map_result py_int l.

Definition event (kind : string) (data : dict) : DB unit := ignore (call (record_runtime_event mission_id kind data)).
Definition set_config (key : string) (value : json) (kind : string) : DB unit :=
  ignore (call (set_mission_config_value mission_id key value kind)).

(** ** Requests applied at a boundary *)

Definition apply_verification_request (remaining : list Z) (task_id : Z) : DB (list Z) :=
  task ← call (get_task task_id);
  if bool_decide (t_status (td_row task) = T_VERIFYING) then
    run_configured_verifier mission_id task_id ;;
    event "steering-verify-applied" [("task_id", JInt task_id)] ;;
    mret remaining
  else mret (remaining ++ [task_id]).

(** [config.get("stop_after_task")], and whether that task is complete. *)
Definition stop_requested (config : dict) : DB bool :=
  match dget "stop_after_task" config with
  | None | Some JNull => mret false
  | Some j =>
      stop_after ← lift_result (py_int j);
      task ← call (get_task stop_after);
      mret (bool_decide (t_status (td_row task) = T_COMPLETED))
  end.

Definition _apply_pending_boundary_requests : DB unit :=
  mission ← call (get_mission mission_id);
  requests ← lift_result (verification_requests (m_config mission));
  remaining ← for_fold requests apply_verification_request [];
  when (negb (bool_decide (requests = remaining)))
    (set_config "verification_requests" (JList (JInt <$> remaining)) "steering-verify-drained") ;;
  mission ← call (get_mission mission_id);
  let config := m_config mission in
  stop ← stop_requested config;
  if stop : bool then
    set_config "stop_after_task" JNull "steering-stop-task-applied" ;;
    when (bool_decide (m_status mission = M_RUNNING)) (call (set_mission_status mission_id "STOPPING"))
  else when (truthy_opt (dget "pause_after_iteration" config)) (
    set_config "pause_after_iteration" (JBool false) "steering-pause-applied" ;;
    when (bool_decide (m_status mission = M_RUNNING)) (call (set_mission_status mission_id "PAUSED"))).

(** ** Before an iteration *)

Definition STOP_STATUSES : list MissionStatus := [M_STOPPING; M_STOPPED; M_CANCELLED; M_COMPLETED; M_FAILED].

(** Nothing is ready: the mission is complete when every counted task is. *)
Definition complete_if_done : DB action :=
  counted ← call (read (fun d => t_status <$> select effective (mission_tasks mission_id d)));
  if negb (bool_decide (counted = [])) && forallb (fun s => bool_decide (s = T_COMPLETED)) counted then
    call (set_mission_status mission_id "COMPLETED") ;;
    mret (A_stop "all tasks verified")
  else mret A_wait.

(** One pass of [before_iteration]'s loop; [A_wait] is another half second. *)
Definition before_pass (h : hooks) : DB (hooks * action) :=
  _apply_pending_boundary_requests ;;
  mission ← call (get_mission mission_id);
  let status := m_status mission in
  if is_in status STOP_STATUSES then mret (h, A_stop ("mission " +:+ lower (str status)))
  else if bool_decide (status = M_PAUSED) then mret (h, A_wait)
  else
    hold ← call (sync_review_hold_events mission_id);
    match hold with
    | Some _ => mret (h, A_wait)
    | None =>
        tasks ← call (ready_tasks mission_id (Some 1));
        match tasks with
        | task :: _ =>
            current ← call (begin_iteration (t_id (td_row task)));
            mret (Hooks (h_iteration h + 1) None (h_applied_rotation h), A_run current)
        | [] =>
            done ← complete_if_done; mret (h, done)
        end
    end.

(** [before_iteration], up to [n] passes; [None] while it still waits. *)
Fixpoint before_iteration (n : nat) (h : hooks) : DB (option (hooks * action)) :=
  match n with
  | O => mret None
  | S n' =>
      answer ← before_pass h;
      match answer with
      | (h', A_wait) => before_iteration n' h'
      | (h', a) => mret (Some (h', a))
      end
  end.

(** ** Rotation and waits *)

Definition saved_rotation (mission : mission_row) : string * string :=
  (str_or_empty (dget "providers" (m_config mission)), str_or_empty (dget "routes" (m_config mission))).
Definition rotation_update (h : hooks) : DB (option (string * string)) :=
  mission ← call (get_mission mission_id);
  let saved := saved_rotation mission in
  mret (match h_applied_rotation h with
        | None => None
        | Some applied => if bool_decide (saved = applied) then None else Some saved
        end).
Definition rotation_applied (h : hooks) (rotation : string * string) (error : string) : DB hooks :=
  event (if truthy_str error then "rotation-rejected" else "rotation-applied")
    [("providers", JStr rotation.1); ("routes", JStr rotation.2); ("error", JStr error)]%string ;;
  mret (Hooks (h_iteration h) (h_wait_baseline h) (Some rotation)).

Definition _wait_signature : DB (string * string * list Z) :=
  mission ← call (get_mission mission_id);
  ready ← call (ready_tasks mission_id (Some 50));
  mret (saved_rotation mission, (fun t => t_id (td_row t)) <$> ready).

Definition wait_interrupted (h : hooks) : DB bool :=
  mission ← call (get_mission mission_id);
  if is_in (m_status mission) HALTED_MISSION_STATUSES || is_in (m_status mission) ENDED_MISSION_STATUSES then mret true
  else if truthy_opt (dget "pause_after_iteration" (m_config mission)) then mret true
  else
    stop ← stop_requested (m_config mission);
    if stop : bool then mret true
    else match h_wait_baseline h with
         | None => mret false
         | Some baseline => signature ← _wait_signature; mret (negb (bool_decide (signature = baseline)))
         end.
Definition _should_interrupt_wait (h : hooks) (task_id : Z) : DB bool :=
  interrupted ← wait_interrupted h;
  if interrupted : bool then mret true
  else task ← call (get_task task_id); mret (is_in (t_status (td_row task)) [T_PAUSED; T_CANCELLED]).

(** The index and the dictionary of the preferred station, if it is usable. *)
Definition station_of (decision : dict) : string :=
  let route := str_or_empty (dget "route" decision) in
  if truthy_str route then route else str_or_empty (dget "provider" decision).
Fixpoint find_station (preferred : string) (i : Z) (decisions : list dict) : option (Z * dict) :=
  match decisions with
  | [] => None
  | d :: ds =>
      if bool_decide (dget "usable" d = Some (JBool true)) && bool_decide (station_of d = preferred) then Some (i, d)
      else find_station preferred (i + 1) ds
  end.
Definition apply_handoff_preference (decisions : list dict) (selection : choice) : DB choice :=
  mission ← call (get_mission mission_id);
  let preferred := str_or_empty (dget "handoff_preference" (m_config mission)) in
  if negb (truthy_str preferred) then mret selection
  else match find_station preferred 0 decisions with
       | None => mret selection
       | Some (index, decision) =>
           set_config "handoff_preference" (JStr "") "steering-handoff-consumed" ;;
           event "provider-handoff-selected" [("station", JStr preferred); ("index", JInt index)]%string ;;
           let provider := str_or_empty (dget "provider" decision) in
           mret (Choice index (str_or_empty (dget "route" decision)) (if truthy_str provider then provider else preferred)
                   "operator-handoff" false)
       end.

(** ** Launching *)

(** [except TransitionError], and the test both launch steps make then: the
    operator halted the mission or withdrew the task. *)
Definition withdrawn (task_id : Z) : DB bool :=
  task ← call (get_task task_id);
  mission ← call (get_mission mission_id);
  mret (negb (bool_decide (m_status mission = M_RUNNING)) || is_in (t_status (td_row task)) [T_PAUSED; T_CANCELLED]).

(** The events of a launch: what the prompt was built from, and the state of
    the repository. *)
Definition record_launch (operation_id : string) (task_id revision : Z) (prompt_sizes checkpoint : dict) : DB unit :=
  event "prompt-assembled" (("operation_id"%string, JStr operation_id) :: prompt_sizes) ;;
  event "repository-checkpoint"
    [("operation_id", JStr operation_id); ("task_id", JInt task_id); ("revision", JInt revision);
     ("checkpoint", JObj checkpoint)]%string.

(** [before_launch]: the operation under which the provider may start, or
    [None] to go back to the boundary. *)
Definition before_launch (task_id iteration revision : Z) (provider route_id model pane_id : string) (prompt_sizes checkpoint : dict) : DB (option string) :=
  mission ← call (get_mission mission_id);
  if negb (bool_decide (m_status mission = M_RUNNING)) then mret None
  else
    begun ← attempt (call (begin_operation task_id iteration (if truthy_str route_id then route_id else provider)));
    match begun with
    | Raise (TransitionError msg) =>
        gone ← withdrawn task_id;
        if gone : bool then mret None else raise (TransitionError msg)
    | Raise e => raise e
    | Ok operation_id =>
        marked ← attempt (call (mark_operation_running operation_id pane_id None "" route_id model));
        match marked with
        | Raise (TransitionError msg) =>
            gone ← withdrawn task_id;
            if gone : bool then
              call (abort_prepared_operation operation_id "operator state change won before provider launch") ;;
              mret None
            else raise (TransitionError msg)
        | Raise e => raise e
        | Ok _ =>
            record_launch operation_id task_id revision prompt_sizes checkpoint ;;
            mret (Some operation_id)
        end
    end.

(** ** After a run *)

Definition station_text (provider route : string) : json := JStr (if truthy_str route then route else provider).

Definition transition_event (task_id : Z) (operation_id : string) (old new : TaskStatus) (cause failure_class : json) (more : dict) : DB unit :=
  event "task-status-transition"
    (dupdate [("task_id", JInt task_id); ("operation_id", JStr operation_id); ("from", JStr (str old)); ("to", JStr (str new));
              ("cause", cause); ("failure_class", failure_class)]%string more).

(** What the exit status of the run calls for. *)
Definition after_exit (operation_id : string) (task : task_row) (provider : string) (status : Z) (report : run_report) : DB unit :=
  if status =? OPERATOR_DECLINED_EXIT_CODE then
    event "provider-declined"
      [("operation_id", JStr operation_id); ("task_id", JInt (t_id task)); ("provider", JStr provider);
       ("reason", JStr "folder-trust-declined"); ("next_action", JStr "operator")]%string
  else if status =? 78 then
    event "task-launch-refused"
      [("task_id", JInt (t_id task)); ("operation_id", JStr operation_id); ("provider", JStr provider);
       ("reason", JStr (if truthy_str (rn_refusal report) then rn_refusal report else "the provider command could not be launched"))]%string
  else if negb (status =? 0) then
    task' ← (if negb (status =? 75) && is_in (t_status task) [T_BLOCKED; T_FAILED]
             then t ← call (begin_iteration (t_id task)); mret (td_row t) else mret task);
    continued ← (if status =? 75 then mret None
                 else call (continue_task_after_provider_failure operation_id max_provider_failures));
    match continued with
    | None => mret tt
    | Some c =>
        transition_event (t_id (td_row c)) operation_id (t_status task') (t_status (td_row c)) (JStr "provider-handoff")
          (default JNull (dget "class" (rn_failure report))) [("revision"%string, JInt (t_revision (td_row c)))] ;;
        event "task-provider-continuation"
          [("task_id", JInt (t_id task')); ("operation_id", JStr operation_id); ("provider", JStr provider);
           ("exit_code", JInt status); ("next_action", JStr "reselect-provider")]%string
    end
  else mret tt.

Definition requested_verification (config : dict) (task_id : Z) : bool :=
  match dget "verification_requests" config with
  | Some (JList l) => existsb (py_eqb (JInt task_id)) l
  | _ => false
  end.

(** The [try] block of [after_iteration]. *)
Definition settle_run (operation_id : string) (op_task : Z) (provider route : string) (status : Z) (logs_path : option string)
    (report : run_report) : DB unit :=
  let '(session_id, cwd, source) := match rn_session report with
                                    | Some (s, c, r) => (Some s, Some c, Some r)
                                    | None => (None, None, None)
                                    end in
  call (record_operation_session operation_id (rn_restoration report) provider session_id cwd source) ;;
  before ← call (get_task op_task);
  finished ← call (finish_operation operation_id status logs_path);
  let task := td_row finished in
  event "provider-result-diagnosed"
    [("operation_id", JStr operation_id); ("task_id", JInt (t_id task)); ("provider", JStr provider); ("route", JStr route);
     ("failure", JObj (rn_failure report))]%string ;;
  when (negb (bool_decide (t_status (td_row before) = t_status task)))
    (transition_event (t_id task) operation_id (t_status (td_row before)) (t_status task)
       (default JNull (dget "cause" (rn_failure report))) (default JNull (dget "class" (rn_failure report))) []) ;;
  event "operation-progress"
    (dupdate [("operation_id", JStr operation_id); ("task_id", JInt (t_id task)); ("revision", JInt (t_revision task));
              ("station", station_text provider route); ("exit_code", JInt status)]%string (rn_progress report)) ;;
  after_exit operation_id task provider status report ;;
  mission ← call (get_mission mission_id);
  when ((status =? 0) && bool_decide (t_status task = T_VERIFYING) && negb (requested_verification (m_config mission) (t_id task)))
    (ignore (run_configured_verifier mission_id (t_id task))) ;;
  _apply_pending_boundary_requests.

Definition after_iteration (operation_id provider route : string) (status : Z) (logs_path : option string) (report : run_report) : DB unit :=
  found ← attempt (call (get_operation operation_id));
  match found with
  | Raise (KeyError _) => mret tt
  | Raise e => raise e
  | Ok operation =>
      if negb (active_op operation) then mret tt
      else
        settled ← attempt (settle_run operation_id (o_task operation) provider route status logs_path report);
        match settled with
        | Ok _ | Raise (TransitionError _) => mret tt
        | Raise e => raise e
        end
  end.
End controller.

(** ** The controller is a client of the store *)

Section client_calls.
Context `{Oracle} `{ControllerEnv}.

Lemma client_others mission_id os w : dbrel (rtc call) w (run_others mission_id os w).
Proof.
  unfold dbrel. revert w. induction os as [|o os IH]; intros w; [done|]. cbn [run_others]. case_match; [apply IH|].
  eapply rtc_l; [|apply IH]. destruct w as [d tick]. by eapply call_intro.
Qed.
Lemma client_call {A} mission_id (m : DB A) : keeps client m -> keeps client (call_store mission_id m).
Proof.
  intros Hm. unfold call_store. apply keeps_bind; [exact _| |done]. intros w. apply (client_others mission_id (others (w_tick w)) w).
Qed.
End client_calls.

Ltac client_step :=
  match goal with
  | |- keeps _ (call_store _ _) => apply client_call
  | |- keeps _ (attempt _) => apply client_attempt
  | |- _ => db_keeps_step
  end.
Ltac solve_client := repeat client_step.


Section client_hooks.
Context `{Oracle} `{ControllerEnv}.
Context (mission_id : string) (max_provider_failures : Z).

Lemma client_event k d : keeps client (event mission_id k d).
Proof. unfold event. solve_client. Qed.
Lemma client_set_config k v e : keeps client (set_config mission_id k v e).
Proof. unfold set_config. solve_client. Qed.
Lemma client_stop_requested c : keeps client (stop_requested mission_id c).
Proof. unfold stop_requested. solve_client. Qed.
Lemma client_run_configured_verifier t : keeps client (run_configured_verifier mission_id t).
Proof. unfold run_configured_verifier, record_attempt, accept_result, supervise. solve_client. Qed.
#[local] Hint Resolve client_event client_set_config client_stop_requested client_run_configured_verifier : py_keeps.
Lemma client_boundary : keeps client (_apply_pending_boundary_requests mission_id).
Proof. unfold _apply_pending_boundary_requests, apply_verification_request. solve_client. Qed.
#[local] Hint Resolve client_boundary : py_keeps.
Lemma client_before_pass h : keeps client (before_pass mission_id h).
Proof. unfold before_pass, complete_if_done. solve_client. Qed.
#[local] Hint Resolve client_before_pass : py_keeps.
Lemma client_before_iteration n h : keeps client (before_iteration mission_id n h).
Proof. revert h. induction n as [|n IH]; intros h; cbn [before_iteration]; solve_client; apply IH. Qed.
Lemma client_before_launch t i rev p r m pane sizes cp : keeps client (before_launch mission_id t i rev p r m pane sizes cp).
Proof. unfold before_launch, withdrawn, record_launch. solve_client. Qed.
Lemma client_after_iteration o p r s l rep : keeps client (after_iteration mission_id max_provider_failures o p r s l rep).
Proof. unfold after_iteration, settle_run, after_exit, transition_event. solve_client. Qed.
End client_hooks.

#[export] Hint Resolve client_event client_set_config client_before_iteration client_before_launch client_after_iteration : py_keeps.

(** ** Launches

    Which statuses an operation can still have once it was begun, and once it
    was marked as running. *)

Definition launched_statuses : list OperationStatus := [O_RUNNING; O_EXITED; O_UNCERTAIN].
Definition op_at (allowed : list OperationStatus) (id : string) (task_id : Z) (l : life) : Prop :=
  exists o, l_ops l !! id = Some o /\ ao_task o = task_id /\ ao_status o ∈ allowed.

Section op_at.
Context (allowed : list OperationStatus) (id : string) (task_id : Z) (Hall : launched_statuses ⊆ allowed).

Lemma op_at_set id' o o' l : l_ops l !! id' = Some o -> ao_task o' = ao_task o -> ao_status o' ∈ launched_statuses ->
  op_at allowed id task_id l -> op_at allowed id task_id (l_set_op id' o' l).
Proof using Hall.
  intros Ho Ht Hs (o0 & Hl & Htask & Hst). destruct (decide (id' = id)) as [->|Hne].
  - simplify_eq. exists o'. split; [apply lookup_insert_eq|]. split; [congruence|]. by apply Hall.
  - exists o0. split; [|done]. by apply l_set_op_lookup; right.
Qed.
Lemma op_at_step v l l' : lstep v l l' -> op_at allowed id task_id l -> op_at allowed id task_id l'.
Proof using Hall.
  intros Hs Ho. destruct Hs; try exact Ho.
  - destruct Ho as (o0 & Hl & Htask & Hst). exists o0. split; [|done]. apply l_set_op_lookup. right. split; [congruence|done].
  - eapply op_at_set; [done|done|cbn; set_solver|done].
  - change (op_at allowed id task_id (l_set_op op (a_set_op O_EXITED o) l)). eapply op_at_set; [done|done|cbn; set_solver|done].
  - change (op_at allowed id task_id (l_set_op op (a_set_op O_UNCERTAIN o) l)). eapply op_at_set; [done|done|cbn; set_solver|done].
Qed.
Lemma op_at_calls d d' : reachable d -> rtc call d d' -> op_at allowed id task_id (life_of d) ->
  reachable d' /\ op_at allowed id task_id (life_of d').
Proof using Hall.
  intros Hr Hc Ho. induction Hc as [d|d d1 d' Hc _ IH]; [done|]. apply IH; [by eapply reachable_call|].
  destruct Hc as [O F o tick <-]. pose proof (run_refines o (World d tick) (db_ok_reachable _ Hr)) as Hl. cbn [w_db] in Hl.
  clear IH Hr. induction Hl as [l|l l1 l' H1 _ IH]; [done|]. by apply IH, (op_at_step _ _ _ H1).
Qed.
End op_at.

Section launch.
Context `{Oracle} `{ControllerEnv}.

Lemma wp_client {A} (m : DB A) (Q : A -> world -> Prop) w : keeps client m ->
  (forall a w', rtc call (w_db w) (w_db w') -> Q a w') -> wp m Q w.
Proof. intros Hm HQ. eapply wp_keeps; [exact Hm|exact HQ]. Qed.

#[local] Arguments life_of : simpl never.
Lemma wp_begin_operation tid it st (Q : string -> world -> Prop) w :
  (forall id w', op_at (O_PREPARED :: launched_statuses) id tid (life_of (w_db w')) -> Q id w') ->
  wp (begin_operation tid it st) Q w.
Proof.
  intros HQ. unfold begin_operation. wp_run.
  all: guards; wp_status T_RUNNING; wp_run; apply wp_insert_operation; intros w2 Hn E2; wp_run; apply HQ; lifeq_all.
  all: eexists; split; [apply lookup_insert_eq|]; split; [done|cbn; set_solver].
Qed.
Lemma wp_mark_operation_running id pane pid st r md tid (Q : unit -> world -> Prop) w :
  op_at (O_PREPARED :: launched_statuses) id tid (life_of (w_db w)) ->
  (forall w', op_at launched_statuses id tid (life_of (w_db w')) -> Q tt w') ->
  wp (mark_operation_running id pane pid st r md) Q w.
Proof.
  intros (o & Ho & Ht & _) HQ. unfold mark_operation_running. wp_run. wp_op_status O_RUNNING. wp_run. lifeq_all. guards.
  destruct a. apply HQ. lifeq_all. eexists. split; [apply lookup_insert_eq|]. cbn. simplify_eq. split; [done|set_solver].
Qed.

(** A call of the store between calls of other processes, when an operation
    was begun. *)
Lemma wp_call_begun {A} mission_id allowed id tid (m : DB A) (Q : A -> world -> Prop) w : launched_statuses ⊆ allowed ->
  reachable (w_db w) -> op_at allowed id tid (life_of (w_db w)) ->
  (forall w', reachable (w_db w') -> op_at allowed id tid (life_of (w_db w')) -> wp m Q w') ->
  wp (call_store mission_id m) Q w.
Proof.
  intros Hall Hr Ho HQ. unfold call_store. apply wp_bind. unfold wp at 1, interference. cbn [w_db].
  destruct (op_at_calls allowed id tid Hall _ _ Hr (client_others mission_id (others (w_tick w)) w) Ho) as [Hr' Ho'].
  by apply HQ.
Qed.

Definition launched (task_id : Z) (answer : option string) (w : world) : Prop :=
  forall id, answer = Some id -> exists o, find_operation id (w_db w) = Some o /\ o_task o = task_id /\ o_status o ∈ launched_statuses.

Lemma op_at_launched id tid d : op_at launched_statuses id tid (life_of d) ->
  exists o, find_operation id d = Some o /\ o_task o = tid /\ o_status o ∈ launched_statuses.
Proof.
  intros (o & Ho & Ht & Hs). rewrite life_of_op in Ho. destruct (find_operation id d) as [r|]; [|done].
  injection Ho as <-. by exists r.
Qed.

Lemma wp_event_launched mission_id id tid k data (Q : unit -> world -> Prop) w :
  reachable (w_db w) -> op_at launched_statuses id tid (life_of (w_db w)) ->
  (forall w', reachable (w_db w') -> op_at launched_statuses id tid (life_of (w_db w')) -> Q tt w') ->
  wp (event mission_id k data) Q w.
Proof.
  intros Hr Ho HQ. apply wp_client; [apply client_event|]. intros [] w' Hc.
  destruct (op_at_calls launched_statuses id tid (reflexivity _) _ _ Hr Hc Ho) as [Hr' Ho']. by apply HQ.
Qed.

Lemma wp_attempt {A} (m : DB A) (Q : result exn A -> world -> Prop) w :
  wp m (fun a w' => Q (Ok a) w') w -> (forall e w', m w = (Raise e, w') -> Q (Raise e) w') -> wp (attempt m) Q w.
Proof. unfold wp, attempt. intros Hm He. destruct (m w) as [[a|e] w']; [done|by apply He]. Qed.

Lemma wp_before_launch mission_id tid it rev p r m pane sizes cp w : reachable (w_db w) ->
  wp (before_launch mission_id tid it rev p r m pane sizes cp) (launched tid) w.
Proof.
  intros Hr. unfold before_launch.
  assert (Hnone : forall w', launched tid None w') by (by intros w' id).
  apply wp_bind, wp_client; [solve_client|]. intros mission w1 Hc1. pose proof (reachable_calls _ _ Hr Hc1) as Hr1.
  destruct (negb _); [by apply wp_ret|]. apply wp_bind, wp_attempt; cycle 1.
  { intros e w2 _. destruct e; try done. apply wp_bind, wp_true. by intros [] w3. }
  eapply wp_mono; cycle 1.
  { apply wp_call_reachable; [exact Hr1|]. intros w2 Hr2. apply wp_and; [|].
    - apply (wp_client _ (fun _ w' => reachable (w_db w'))); [solve_client|]. intros ? w' Hc. by eapply reachable_calls.
    - apply wp_begin_operation. intros id w' Hid. exact Hid. }
  intros id w2 [Hr2 Ho2]. cbv beta iota. apply wp_bind, wp_attempt; cycle 1.
  { intros e w3 _. destruct e; try done. apply wp_bind, wp_true. intros [] w4; [|done]. by apply wp_bind, wp_true. }
  eapply wp_mono; cycle 1.
  { eapply wp_call_begun; [|exact Hr2|exact Ho2|]; [set_solver|]. intros w3 Hr3 Ho3. apply (wp_and _ (fun _ w' => reachable (w_db w')) (fun _ w' => op_at launched_statuses id tid (life_of (w_db w')))).
    - apply (wp_client _ (fun _ w' => reachable (w_db w'))); [solve_client|]. intros ? w' Hc. by eapply reachable_calls.
    - eapply wp_mark_operation_running; [exact Ho3|]. intros w' Hid. exact Hid. }
  intros [] w3 [Hr3 Ho3]. cbv beta iota. apply wp_bind. unfold record_launch. apply wp_bind. eapply wp_event_launched; [exact Hr3|exact Ho3|]. intros w4 Hr4 Ho4.
  eapply wp_event_launched; [exact Hr4|exact Ho4|]. intros w5 Hr5 Ho5. apply wp_ret.
  intros id' [= <-]. by apply op_at_launched.
Qed.
End launch.

(** ** Nobody else at work *)

Section calm.
Context `{Oracle} `{ControllerEnv}.
Context (mission_id : string) (Hcalm : forall n, others n = []).

Lemma calm_call {A} (m : DB A) w : call_store mission_id m w = m (World (w_db w) (S (w_tick w))).
Proof using Hcalm. unfold call_store, mbind, ST_bind, interference. by rewrite Hcalm. Qed.
(** The state in which the verifier of a task under review would be run. *)
Record verification_pending (d : database) (m : mission_row) (t : task_row) : Prop := {
  vp_mission : find_mission mission_id d = Some m;
  vp_task : find_task (t_id t) d = Some t;
  vp_own : t_mission t = mission_id;
  vp_status : t_status t = T_VERIFYING;
  vp_argv : verifier_argv m <> [] /\ forallb plain_arg (verifier_argv m) = true;
  vp_timeout : timeout_ok (config_dict m "verifier") = Ok tt;
  vp_unchanged : forall n, changed_verifier_files n (config_dict m "verifier") (m_cwd m) = [];
  vp_files : forall n, exists path, attempt_files n = Ok path;
}.

Lemma run_verifier_raises m t w : verification_pending (w_db w) m t -> m_status m <> M_RUNNING ->
  exists e w', run_configured_verifier mission_id (t_id t) w = (Raise (TransitionError e), w') /\ w_db w' = w_db w.
Proof using Hcalm.
  intros [Hm Ht Ho Hv [Ha Hp] Hto Hc Hf] Hs. unfold run_configured_verifier.
  erewrite bind_ok by (rewrite calm_call; apply get_mission_runs; exact Hm).
  erewrite bind_ok by (rewrite calm_call; apply get_task_runs; exact Ht). cbn [td_row _task_dict w_db w_tick].
  rewrite Ho, (bool_decide_eq_true_2 (mission_id = mission_id)) by done. cbn [negb].
  erewrite bind_ok by reflexivity. rewrite Hv. rewrite (bool_decide_eq_true_2 (T_VERIFYING = T_VERIFYING)) by done. cbn [negb].
  rewrite bool_decide_eq_false_2 by done. rewrite Hp. cbn [negb]. erewrite bind_ok by reflexivity.
  unfold answer_of. erewrite bind_ok by reflexivity. rewrite Hc, (bool_decide_eq_true_2 ([] = [])) by done. cbn [negb].
  rewrite Hto. erewrite bind_ok by reflexivity. erewrite bind_ok by reflexivity.
  match goal with |- context [attempt_files ?n] => destruct (Hf n) as [path ->] end. erewrite bind_ok by reflexivity.
  eexists _, _. erewrite bind_raise; cycle 1.
  { rewrite calm_call. unfold prepare_managed_process. erewrite bind_ok by reflexivity. erewrite bind_ok by reflexivity.
    apply bind_raise. unfold _transaction, _mission_row, _task_row, read, gets, or_raise, mbind, ST_bind. cbn [w_db w_tick].
    rewrite Hm. cbn. rewrite Ht. cbn. rewrite Ho, (bool_decide_eq_true_2 (mission_id = mission_id)) by done. cbn.
    rewrite (bool_decide_eq_false_2 (m_status m = M_RUNNING)) by done. reflexivity. }
  split; [reflexivity|done].
Qed.

(** A verification requested while the mission is paused makes the boundary
    raise, in every pass. *)
Lemma before_pass_raises h m t rest w : verification_pending (w_db w) m t -> m_status m <> M_RUNNING ->
  verification_requests (m_config m) = Ok (t_id t :: rest) ->
  exists e w', before_pass mission_id h w = (Raise (TransitionError e), w') /\ w_db w' = w_db w.
Proof using Hcalm.
  intros Hvp Hs Hr.
  assert (Hap : exists e w', apply_verification_request mission_id [] (t_id t) (World (w_db w) (S (w_tick w))) = (Raise (TransitionError e), w') /\ w_db w' = w_db w).
  { unfold apply_verification_request. erewrite bind_ok by (rewrite calm_call; apply get_task_runs; exact (vp_task _ _ _ Hvp)).
    cbn [td_row _task_dict w_db w_tick]. rewrite (vp_status _ _ _ Hvp), bool_decide_eq_true_2 by done.
    destruct (run_verifier_raises m t (World (w_db w) (S (S (w_tick w))))) as (e & w' & E & Hd); [exact Hvp|exact Hs|].
    exists e, w'. split; [|exact Hd]. by apply bind_raise. }
  destruct Hap as (e & w' & E & Hd). exists e, w'. split; [|exact Hd].
  unfold before_pass. apply bind_raise. unfold _apply_pending_boundary_requests.
  erewrite bind_ok by (rewrite calm_call; apply get_mission_runs; exact (vp_mission _ _ _ Hvp)). cbn [w_db w_tick].
  rewrite Hr. erewrite bind_ok by reflexivity. apply bind_raise. cbn [for_fold]. by apply bind_raise.
Qed.
End calm.

(** ** The theorems *)

(** C12: A provider is launched only under an operation that exists in the
    store, belongs to the task and was marked as running: when [before_launch]
    answers with an operation, it is RUNNING - or, when another process
    resolved it meanwhile, EXITED or UNCERTAIN - and never merely PREPARED,
    whatever other processes do between the controller's calls. *)
Theorem launched_under_recorded_operation (O : Oracle) (E : ControllerEnv) (mission_id : string) (task_id iteration revision : Z)
    (provider route model pane : string) (sizes checkpoint : dict) (w w' : world) (id : string) :
  reachable (w_db w) ->
  before_launch mission_id task_id iteration revision provider route model pane sizes checkpoint w = (Ok (Some id), w') ->
  exists o, find_operation id (w_db w') = Some o /\ o_task o = task_id /\ o_status o ∈ launched_statuses.
Proof.
  intros Hr E1. pose proof (wp_before_launch mission_id task_id iteration revision provider route model pane sizes checkpoint w Hr) as Hw.
  unfold wp in Hw. rewrite E1 in Hw. by apply Hw.
Qed.

Lemma launched_under_recorded_operation_witness : exists id w',
  before_launch (H := demo_oracle) (H0 := busy_env) "m1" 1 1 1 "codex" "r1" "m" "%1" [] [] (verify_world 2) = (Ok (Some id), w') /\
  exists o, find_operation id (w_db w') = Some o /\ o_task o = 1 /\ o_status o ∈ launched_statuses.
Proof.
  destruct (before_launch (H := demo_oracle) (H0 := busy_env) "m1" 1 1 1 "codex" "r1" "m" "%1" [] [] (verify_world 2)) as [r w'] eqn:E.
  pose proof (f_equal (fun x => x.1) E) as E1. vm_compute in E1. cbn in E1. subst r.
  eexists _, w'. split; [reflexivity|].
  exact (launched_under_recorded_operation demo_oracle busy_env "m1" 1 1 1 "codex" "r1" "m" "%1" [] [] _ w' _ (verify_world_reachable 2) E).
Defined.
