(* ===== verification/MissionRun.v ===== *)
(** * One run of the controller ([bridge_runtime.py], [run_controller])

    Taking over a mission - recovery of what an earlier controller left
    behind, the move to RUNNING, the station - and the [try]/[except]/[finally]
    around the persistent loop.  The loop is an argument: any computation on
    the store that may return, leave by [SystemExit] or raise. *)

From S2P Require Import Prelude Py Vocab States StoreData StoreTasks StoreOps StoreReview StoreLog StoreApi StoreDemo StoreKeys Lifecycle StoreAbstract StoreRounds StoreRefines StoreOperations StoreLogs StoreSpecs StoreStarts StoreClient Verifier Controller.
From stdpp Require Import options.
Local Open Scope Z_scope.

(** How the loop ends when it does not raise an [Exception]. *)
Inductive loop_end : Type :=
  | Returned (code : Z)
  | Exits (code : option Z).

(** [_terminate_owned_process_group]: the group is gone, the process is not
    the expected one ([PermissionError]), or the signal failed otherwise. *)
Inductive group_end : Type :=
  | Group_gone
  | Not_owned (msg : string)
  | Group_error (e : exn).

(** Processes, the terminal station and files, as the controller finds them.
    An empty start token stands for a process that is gone or unreadable. *)
Class ProcessEnv : Type := {
  process_start_token : nat -> Z -> string;
  alive_but_unverifiable : nat -> Z -> bool;
  terminate_group : nat -> Z -> string -> group_end;
  has_tmux : nat -> bool;
  prior_station : nat -> result exn bool;
  install_config : nat -> mission_row -> result exn unit;
  rotation_problem : mission_row -> string -> string -> option string;
  start_station : nat -> result exn unit;
  stop_station : nat -> result exn unit;
  pane_runs_provider : nat -> bool;
  clients_attached : nat -> bool;
  failure_text : nat -> option exn -> string;
  controller_pid : Z;
  mode_data : dict;
}.

Section run.
Context `{Oracle} `{ControllerEnv} `{ProcessEnv}.
Context (mission_id : string).
Local Abbreviation call := (call_store mission_id).
Local Abbreviation event := (event mission_id).

Definition answered {A} (f : nat -> result exn A) : DB A := r ← answer_of f; lift_result r.
(** ** Recovery *)

Definition open_process (p : process_row) : bool := bool_decide (p_status p ∈ OPEN_PROCESS_STATUSES).

(** The status a verifier process is closed with, once it cannot run on. *)
Definition end_group (pid : Z) (expected : string) : DB string :=
  current ← answer_of (fun n => process_start_token n pid);
  if bool_decide (current = expected) then
    ended ← answer_of (fun n => terminate_group n pid expected);
    match ended with
    | Group_gone => mret "TERMINATED"%string
    | Not_owned msg =>
        after ← answer_of (fun n => process_start_token n pid);
        raise_if (truthy_str after) (OSError msg) ;; mret "UNCERTAIN"%string
    | Group_error e => raise e
    end
  else
    alive ← answer_of (fun n => alive_but_unverifiable n pid);
    raise_if (negb (truthy_str current) && alive)
      (OSError "managed process is alive but its identity cannot be verified") ;;
    mret "UNCERTAIN"%string.

Definition terminate_one (p : process_row) : DB unit :=
  process ← call (get_managed_process (p_id p));
  if negb (open_process process) then mret tt
  else match p_process_pid process, p_process_start process with
       | Some pid, Some expected =>
           raise_if ((pid =? 0) || negb (truthy_str expected))
             (RuntimeError "managed process has no verified identity; refusing stop/recovery") ;;
           status ← end_group pid expected;
           finished ← attempt (call (finish_managed_process (p_id process) None status));
           match finished with
           | Ok _ => mret tt
           | Raise (TransitionError msg) =>
               latest ← call (get_managed_process (p_id process));
               raise_if (open_process latest) (TransitionError msg)
           | Raise e => raise e
           end
       | _, _ => raise (RuntimeError "managed process has no verified identity; refusing stop/recovery")
       end.
Definition terminate_managed_processes : DB unit :=
  processes ← call (unresolved_managed_processes mission_id);
  for_each processes terminate_one.

(** The provider processes of interrupted operations; [terminated] are the
    pids already ended. *)
Definition end_survivor (unowned : bool) (terminated : list Z) (o : operation_row) : DB (list Z) :=
  let pid := default 0 (o_process_pid o) in
  let start := default EmptyString (o_process_start o) in
  if negb (pid =? 0) && truthy_str start && negb (bool_decide (pid ∈ terminated)) then
    current ← answer_of (fun n => process_start_token n pid);
    raise_if (truthy_str current && negb (bool_decide (current = start)))
      (OSError "persisted provider pid now belongs to a different process; refusing recovery cleanup") ;;
    (if truthy_str current then
       ended ← answer_of (fun n => terminate_group n pid start);
       match ended with
       | Group_gone => mret tt
       | Not_owned msg => raise (OSError msg)
       | Group_error e => raise e
       end
     else mret tt) ;;
    mret (terminated ++ [pid])
  else
    raise_if (bool_decide (o_status o = O_RUNNING) && unowned)
      (RuntimeError "cannot prove identity of surviving provider operation; refusing to start replacement work") ;;
    mret terminated.

Definition recover (prior_headless : bool) : DB unit :=
  interrupted ← call (read (fun d => select (fun o => bool_decide (o_mission o = mission_id) && active_op o) (operations d)));
  managed ← call (unresolved_managed_processes mission_id);
  call (reconcile_interrupted_operations mission_id) ;;
  when (negb (bool_decide (managed = []))) terminate_managed_processes ;;
  tmux ← answer_of has_tmux;
  station ← (if negb prior_headless && tmux then answered prior_station else mret false);
  for_fold interrupted (end_survivor (prior_headless || negb station)) [] ;;
  queued ← call (pending_commands mission_id);
  for_each queued (fun c =>
    ignore (call (finish_command (c_id c) "REJECTED"
      [("error", JStr "controller restarted; queued command was not replayed")]%string))) ;;
  ignore (call (release_declined_tasks mission_id)).

(** ** Start *)

Definition record_controller_failure (reason : string) : DB unit :=
  recorded ← attempt (event "controller-failed" [("reason", JStr reason); ("controller_pid", JInt controller_pid)]%string);
  match recorded with
  | Raise (ValueError _ | TransitionError _ | OSError _) | Ok _ => mret tt
  | Raise e => raise e
  end.

(** Whether to start the mission, or the exit code instead. *)
Definition take_over : DB (option Z) :=
  mission ← call (get_mission mission_id);
  let status := m_status mission in
  if is_in status [M_CREATED; M_PAUSED; M_STOPPED; M_FAILED] then
    call (set_mission_status mission_id "RUNNING") ;; mret None
  else if bool_decide (status = M_STOPPING) then
    call (set_mission_status mission_id "STOPPED") ;; mret (Some 0)
  else if is_in status FINISHED_MISSION_STATUSES then mret (Some 0)
  else mret None.

(** The mode flags and the rotation of this run. *)
Definition run_modes (headless native_tui : bool) (config : dict) : bool * bool :=
  if headless then (true, false) else if native_tui then (false, true)
  else (truthy_opt (dget "headless" config), truthy_opt (dget "native_tui" config)).
Definition run_providers (providers : option string) (config : dict) : string :=
  match providers with
  | Some p => if truthy_str p then p else default "claude,codex,opencode"%string (str_or_empty ∘ Some <$> dget "providers" config)
  | None => default "claude,codex,opencode"%string (str_or_empty ∘ Some <$> dget "providers" config)
  end.
Definition run_routes (routes : option string) (config : dict) : string :=
  default (str_or_empty (dget "routes" config)) routes.

(** From the rotation to the running station: [Ok (Some code)] ends the run. *)
Definition prepare_run (headless native_tui : bool) (providers routes : string) : DB (option Z) :=
  call (set_rotation mission_id providers routes "start") ;;
  mission ← call (set_mission_config_values mission_id [("headless", JBool headless); ("native_tui", JBool native_tui)]%string "controller-config");
  answered (fun n => install_config n mission) ;;
  match rotation_problem mission providers routes with
  | Some problem =>
      record_controller_failure problem ;;
      call (set_mission_status mission_id "FAILED") ;;
      mret (Some 2)
  | None =>
      (if headless then mret tt
       else
         tmux ← answer_of has_tmux;
         if tmux : bool then answered start_station
         else
           record_controller_failure "tmux is required for native mode; retry with --headless" ;;
           call (set_mission_status mission_id "FAILED") ;;
           raise (RuntimeError "tmux is required for native mode; retry with --headless")) ;;
      event "controller-mode" mode_data ;;
      mret None
  end.

(** ** The loop and what follows it *)

Definition on_error (e : option exn) : DB unit :=
  call (reconcile_interrupted_operations mission_id) ;;
  current ← call (get_mission mission_id);
  when (is_in (m_status current) CONTROLLED_MISSION_STATUSES && negb (bool_decide (m_status current = M_STOPPING))) (
    reason ← answer_of (fun n => failure_text n e);
    record_controller_failure reason ;;
    call (set_mission_status mission_id "FAILED")).

(** [try: return main(...) except BaseException: ...]. *)
Definition guarded_loop (loop : DB loop_end) : DB Z :=
  r ← attempt loop;
  match r with
  | Ok (Returned code) => mret code
  | Ok (Exits code) => on_error None ;; mret (default 1 code)
  | Raise e => on_error (Some e) ;; mret 1
  end.

Definition close_finished_station : DB unit :=
  mission ← call (get_mission mission_id);
  if negb (is_in (m_status mission) STATION_CLOSING_MISSION_STATUSES) then mret tt
  else
    alive ← answer_of pane_runs_provider;
    if truthy_opt (dget "native_tui" (m_config mission)) && alive then mret tt
    else
      attached ← answer_of clients_attached;
      if attached : bool then mret tt
      else
        answered stop_station ;;
        event "station-stopped" [("mission_status", JStr (str (m_status mission))); ("source", JStr "finished-mission")]%string.

Definition leave (station : bool) : DB unit :=
  current ← call (get_mission mission_id);
  let stopping := station && is_in (m_status current) [M_STOPPING; M_CANCELLED] in
  when stopping (answered stop_station) ;;
  let station := station && negb stopping in
  current ← (if bool_decide (m_status current = M_STOPPING) then
               call (set_mission_status mission_id "STOPPED") ;; call (get_mission mission_id)
             else mret current);
  current ← (if bool_decide (m_status current = M_RUNNING) then
               event "controller-exited-unexpectedly"
                 [("reason", JStr "controller returned while the mission remained RUNNING")]%string ;;
               record_controller_failure "the controller stopped while the mission was still running" ;;
               call (set_mission_status mission_id "FAILED") ;; call (get_mission mission_id)
             else mret current);
  if station && is_in (m_status current) [M_STOPPED; M_CANCELLED] then answered stop_station
  else when (station && is_in (m_status current) [M_COMPLETED; M_FAILED]) (
    closed ← attempt close_finished_station;
    match closed with
    | Raise (OSError _ | RuntimeError _) | Ok _ => mret tt
    | Raise e => raise e
    end).

Definition supervised (station : bool) (loop : DB loop_end) : DB Z := finally (guarded_loop loop) (leave station).

Definition run_controller (headless native_tui : bool) (providers routes : option string) (loop : DB loop_end) : DB Z :=
  mission ← call (get_mission mission_id);
  raise_if (headless && native_tui) (ValueError "--headless and --native cannot be combined") ;;
  let config := m_config mission in
  let '(headless', native') := run_modes headless native_tui config in
  let providers' := run_providers providers config in
  let routes' := run_routes routes config in
  recover (truthy_opt (dget "headless" config)) ;;
  ended ← take_over;
  match ended with
  | Some code => mret code
  | None =>
      ended ← prepare_run headless' native' providers' routes';
      match ended with
      | Some code => mret code
      | None => supervised (negb headless') loop
      end
  end.
End run.

(** ** What leaves the missions alone *)

Definition same_missions (d d' : database) : Prop := missions d' = missions d.
#[export] Instance same_missions_preorder : PreOrder same_missions.
Proof. split; unfold same_missions; [intros d; done|intros d d' d'' H1 H2; by rewrite H2]. Qed.

Section same_missions.
Context `{Oracle} `{ControllerEnv} `{ProcessEnv}.
Context (mission_id : string).

Lemma same_event m k data t o : keeps (dbrel same_missions) (_event m k data t o).
Proof. unfold _event. apply keeps_bind; [exact _|apply keeps_utc_now; exact _|]. intros now. by apply keeps_write; [exact _|]. Qed.
Lemma same_update_task id f : keeps (dbrel same_missions) (update_task id f).
Proof. by apply keeps_write; [exact _|]. Qed.
Lemma same_update_operation id f : keeps (dbrel same_missions) (update_operation id f).
Proof. by apply keeps_write; [exact _|]. Qed.
#[local] Hint Resolve same_event same_update_task same_update_operation : py_keeps.

Lemma same_record_runtime_event k d : keeps (dbrel same_missions) (record_runtime_event mission_id k d).
Proof. unfold record_runtime_event, mission_event, _mission_row. solve_db_keeps. Qed.
Lemma same_reconcile : keeps (dbrel same_missions) (reconcile_interrupted_operations mission_id).
Proof. unfold reconcile_interrupted_operations, _mission_row, _task_row. solve_db_keeps. Qed.
Lemma same_get_mission : keeps (dbrel same_missions) (get_mission mission_id).
Proof. unfold get_mission, _mission_row. solve_db_keeps. Qed.
Lemma same_answered {A} (f : nat -> result exn A) : keeps (dbrel same_missions) (answered f).
Proof. unfold answered, answer_of. intros w. unfold dbrel, mbind, ST_bind, gets. by destruct (f (w_tick w)). Qed.

Context (Hcalm : forall n, others n = []).
Lemma same_call {A} (m : DB A) : keeps (dbrel same_missions) m -> keeps (dbrel same_missions) (call_store mission_id m).
Proof using Hcalm. intros Hm w. rewrite (calm_call mission_id Hcalm). apply (Hm (World (w_db w) (S (w_tick w)))). Qed.
Lemma same_attempt {A} (m : DB A) : keeps (dbrel same_missions) m -> keeps (dbrel same_missions) (attempt m).
Proof using Type. intros Hm w. specialize (Hm w). unfold attempt, dbrel in *. by destruct (m w) as [r w']. Qed.
Lemma same_hook_event k d : keeps (dbrel same_missions) (event mission_id k d).
Proof using Hcalm.
  unfold event. apply keeps_ignore; [exact _|]. apply same_call, same_record_runtime_event.
Qed.
Lemma same_record_failure reason : keeps (dbrel same_missions) (record_controller_failure mission_id reason).
Proof using Hcalm.
  unfold record_controller_failure. apply keeps_bind; [exact _|apply same_attempt, same_hook_event|].
  intros [[]|[]]; solve_db_keeps.
Qed.
Lemma same_close_station : keeps (dbrel same_missions) (close_finished_station mission_id).
Proof using Hcalm.
  unfold close_finished_station. apply keeps_bind; [exact _|apply same_call, same_get_mission|]. intros m.
  destruct (negb _); [solve_db_keeps|]. apply keeps_bind; [exact _|by intros w|]. intros alive.
  destruct (_ && _); [solve_db_keeps|]. apply keeps_bind; [exact _|by intros w|]. intros []; [solve_db_keeps|].
  apply keeps_bind; [exact _|apply same_answered|]. intros []. apply same_hook_event.
Qed.
End same_missions.

(** ** The status of the mission *)

Section leaving.
Context `{Oracle} `{ControllerEnv} `{ProcessEnv}.
Context (mission_id : string) (Hcalm : forall n, others n = []).
Local Abbreviation same := (dbrel same_missions).

Definition mission_at (P : MissionStatus -> Prop) (w : world) : Prop :=
  exists m, find_mission mission_id (w_db w) = Some m /\ P (m_status m).

Lemma same_mission_at P w w' : same w w' -> mission_at P w -> mission_at P w'.
Proof using Type. intros Hs (m & Hm & HP). exists m. split; [|done]. unfold find_mission in *. by rewrite Hs. Qed.
Lemma ends_same {A} (m : DB A) P (Q : result exn A -> world -> Prop) w : keeps same m -> mission_at P w ->
  (forall r w', mission_at P w' -> Q r w') -> ends m Q w.
Proof using Type. intros Hm Hw HQ. eapply ends_keeps; [exact Hm|]. intros r w' Hs. apply HQ. by eapply same_mission_at. Qed.

(** A call of [get_mission], and its answer. *)
Lemma ends_get_mission P (Q : result exn mission_row -> world -> Prop) w : mission_at P w ->
  (forall m w', mission_at (fun s => s = m_status m) w' -> P (m_status m) -> Q (Ok m) w') ->
  ends (call_store mission_id (get_mission mission_id)) Q w.
Proof using Hcalm.
  intros (m & Hm & HP) HQ. unfold ends. rewrite (calm_call mission_id Hcalm), (get_mission_runs _ m) by exact Hm.
  apply HQ; [by exists m|done].
Qed.

(** A legal move to a status outside the controlled ones and COMPLETED. *)
Lemma set_status_ok s w old : mission_at (fun s0 => s0 = old) w -> is_in s (MISSION_TRANSITIONS old) = true ->
  s <> M_COMPLETED -> is_in s CONTROLLED_MISSION_STATUSES = false -> of_string (upper (str s)) = Some s ->
  ends (call_store mission_id (set_mission_status mission_id (str s))) (fun r w' => r = Ok tt /\ mission_at (fun s0 => s0 = s) w') w.
Proof using Hcalm.
  intros (m & Hm & Hold) Hmove Hc Hun Hstr. unfold ends. rewrite (calm_call mission_id Hcalm). set (w1 := World _ _).
  assert (Hrun : twp (set_mission_status mission_id (str s)) (fun _ w' => mission_at (fun s0 => s0 = s) w') w1).
  { unfold set_mission_status. rewrite Hstr. apply twp_transaction. twp_step. eapply twp_mission_row; [exact Hm|].
    cbv zeta. do 2 twp_step. { rewrite Hold. apply andb_false_iff. right. by rewrite Hmove. }
    do 4 twp_step. { by rewrite bool_decide_eq_false_2. }
    do 2 twp_step. apply twp_bind.
    eexists tt, _. split.
    { unfold update_mission_status, statement. rewrite existsb_none; [reflexivity|]. intros x _.
      unfold active_mission. cbn. by rewrite Hun, andb_false_r. }
    unfold mission_event. twp_step. unfold mission_at. exists (set_m_updated_at now (set_m_status s m)). split; [|done].
    cbn [w_db]. frame. unfold find_mission. cbn.
    rewrite (first_update m_id _ _ mission_id mission_id) by done. rewrite decide_True by done.
    unfold find_mission in Hm. cbn in Hm. by rewrite Hm. }
  destruct Hrun as ([] & w' & -> & Hw'). done.
Qed.
Lemma set_status_refused s w old : mission_at (fun s0 => s0 = old) w -> is_in s (MISSION_TRANSITIONS old) = false -> s <> old ->
  of_string (upper (str s)) = Some s ->
  ends (call_store mission_id (set_mission_status mission_id (str s)))
    (fun r w' => (exists msg, r = Raise (TransitionError msg)) /\ mission_at (fun s0 => s0 = old) w') w.
Proof using Hcalm.
  intros (m & Hm & Hold) Hmove Hne Hstr. unfold ends. rewrite (calm_call mission_id Hcalm).
  unfold set_mission_status. rewrite Hstr. unfold _transaction. unfold mbind, ST_bind. rewrite (get_mission_runs _ m) by exact Hm.
  rewrite Hold, Hmove, bool_decide_eq_false_2 by done. cbn. split; [by eexists|]. by exists m.
Qed.
End leaving.

Section settle.
Context `{Oracle} `{ControllerEnv} `{ProcessEnv}.
Context (mission_id : string) (Hcalm : forall n, others n = []).
Local Abbreviation at_ := (mission_at mission_id).

Definition unattended (s : MissionStatus) : Prop := s ∉ [M_RUNNING; M_STOPPING].

(** The end of [leave], once the status is settled. *)
Lemma ends_close station m s w : at_ (fun s0 => s0 = s) w ->
  ends (if station && is_in (m_status m) [M_STOPPED; M_CANCELLED] then answered stop_station
        else when (station && is_in (m_status m) [M_COMPLETED; M_FAILED]) (
          closed ← attempt (close_finished_station mission_id);
          match closed with
          | Raise (OSError _ | RuntimeError _) | Ok _ => mret tt
          | Raise e => raise e
          end)) (fun _ w' => at_ (fun s0 => s0 = s) w') w.
Proof using Hcalm.
  intros Hw. eapply (ends_same _ _ (fun s0 => s0 = s)); [|exact Hw|done]. destruct (_ && _); [apply same_answered|].
  apply keeps_when; [exact _|]. apply keeps_bind; [exact _|by apply same_attempt, same_close_station|].
  intros [[]|[]]; solve_db_keeps.
Qed.


(** An event of a known mission is recorded, or refused by its guards. *)
Lemma ends_event P k data (Q : result exn unit -> world -> Prop) w : at_ P w ->
  (forall r w', at_ P w' -> r = Ok tt \/ (exists msg, r = Raise (ValueError msg)) /\
     (truthy_str k && negb (100 <? slen k) && negb (MAX_EVENT_BYTES <? payload_bytes data) = false) -> Q r w') ->
  ends (event mission_id k data) Q w.
Proof using Hcalm.
  intros Hw HQ. unfold ends. apply HQ.
  { eapply same_mission_at; [|exact Hw]. by apply same_hook_event. }
  destruct Hw as (m & Hm & _). unfold event, ignore, mbind, ST_bind. rewrite (calm_call mission_id Hcalm). unfold record_runtime_event.
  unfold mbind, ST_bind. destruct (negb (truthy_str k) || (100 <? slen k)) eqn:G1.
  { right. split; [by eexists|]. destruct (truthy_str k), (100 <? slen k); done. }
  cbn [raise_if]. destruct (MAX_EVENT_BYTES <? payload_bytes data) eqn:G2.
  { right. split; [by eexists|]. by rewrite andb_false_r. }
  left. unfold _transaction, mission_event, _event. pose proof (get_mission_runs mission_id m (World (w_db w) (S (w_tick w))) Hm) as Hg.
  unfold get_mission in Hg. cbn. unfold mbind, ST_bind. by rewrite Hg.
Qed.
Lemma ends_record_failure P reason (Q : result exn unit -> world -> Prop) w : at_ P w ->
  (forall w', at_ P w' -> Q (Ok tt) w') -> ends (record_controller_failure mission_id reason) Q w.
Proof using Hcalm.
  intros Hw HQ. unfold record_controller_failure. apply ends_bind, ends_attempt. eapply ends_event; [exact Hw|].
  intros r w' Hw' [->|[[msg ->] _]]; by apply HQ.
Qed.

(** The move to [s] and the reading of the row behind it. *)
Lemma ends_move s old (Q : result exn mission_row -> world -> Prop) w : at_ (fun s0 => s0 = old) w ->
  is_in s (MISSION_TRANSITIONS old) = true -> s <> M_COMPLETED -> is_in s CONTROLLED_MISSION_STATUSES = false ->
  of_string (upper (str s)) = Some s ->
  (forall m w', at_ (fun s0 => s0 = m_status m) w' -> m_status m = s -> Q (Ok m) w') ->
  ends (call_store mission_id (set_mission_status mission_id (str s)) ;; call_store mission_id (get_mission mission_id)) Q w.
Proof using Hcalm.
  intros Hw Hm Hc Hu Hs HQ. apply ends_bind. eapply ends_mono; [by eapply (set_status_ok mission_id Hcalm s)|].
  intros r w' [-> Hw']. eapply (ends_get_mission mission_id Hcalm); [exact Hw'|]. intros m w2 Hw2 Hm2. by apply HQ.
Qed.

(** A controller leaves the mission unattended, or, if its station cannot be
    stopped, STOPPING with the error of that. *)
Definition left_stopping (station : bool) (r : result exn unit) (w : world) : Prop :=
  station = true /\ at_ (fun s => s = M_STOPPING) w /\ exists n e, stop_station n = Raise e /\ r = Raise e.
Lemma leave_settles station w : at_ (fun _ => True) w ->
  ends (leave mission_id station) (fun r w' => at_ unattended w' \/ left_stopping station r w') w.
Proof using Hcalm.
  intros Hw. unfold leave. apply ends_bind. eapply (ends_get_mission mission_id Hcalm); [exact Hw|]. intros m w1 K1 _.
  cbv zeta. apply ends_bind.
  apply (ends_mono _ (fun r w' => at_ (fun s => s = m_status m) w' /\
    (r = Ok tt \/ station = true /\ is_in (m_status m) [M_STOPPING; M_CANCELLED] = true /\ exists n e, stop_station n = Raise e /\ r = Raise e))).
  { unfold ends, when, answered, answer_of, gets, mbind, ST_bind. destruct (station && is_in (m_status m) [M_STOPPING; M_CANCELLED]) eqn:Es; [|cbn; auto].
    apply andb_true_iff in Es as [-> Es]. cbn [fst snd mret ST_ret]. destruct (stop_station (w_tick w1)) as [[]|e] eqn:E; cbn; [auto|].
    split; [done|]. right. split_and!; eauto. }
  intros r w2 [K2 [->|(Hst & Hin & n & e & E & ->)]].
  2: { unfold is_in in Hin. apply bool_decide_eq_true in Hin. destruct (decide (m_status m = M_STOPPING)) as [Hs|Hs].
       - right. rewrite Hs in K2. split_and!; [done|exact K2|]. by exists n, e.
       - left. destruct K2 as (m2 & Hm2 & E2). exists m2. split; [done|]. rewrite E2.
         apply elem_of_cons in Hin as [?|[->|[]%not_elem_of_nil]%elem_of_cons]; [done|]. unfold unattended. set_solver. }
  apply ends_bind.
  apply (ends_mono _ (fun r w' => exists m', r = Ok m' /\ m_status m' <> M_STOPPING /\ at_ (fun s => s = m_status m') w')).
  { case_bool_decide as Hs; [|by apply ends_ret; exists m]. rewrite Hs in K2.
    eapply (ends_move M_STOPPED); [exact K2|done..|]. intros m' w' K' Hm'. exists m'. rewrite Hm'. split_and!; try done.
    by rewrite <- Hm'. }
  clear Hw K1 K2. intros r w3 (m' & -> & Hns & K3). revert K3 Hns. generalize m'. clear m'. intros m1 K3 Hns. apply ends_bind.
  apply (ends_mono _ (fun r w' => exists m', r = Ok m' /\ unattended (m_status m') /\ at_ (fun s => s = m_status m') w')).
  { case_bool_decide as Hs; [|apply ends_ret; exists m1; split_and!; try done; unfold unattended; set_solver].
    rewrite Hs in K3. apply ends_bind. eapply ends_event; [exact K3|]. intros r w4 K4 [->|[_ Hbad]]; [|by vm_compute in Hbad].
    apply ends_bind. eapply ends_record_failure; [exact K4|]. intros w5 K5.
    eapply (ends_move M_FAILED); [exact K5|done..|]. intros m' w' K' Hm'. exists m'. rewrite Hm'. split_and!; try done.
    { unfold unattended. set_solver. } by rewrite <- Hm'. }
  intros r w4 (m' & -> & Hu & K4). eapply ends_mono; [by apply (ends_close _ m' (m_status m'))|].
  intros r5 w5 (m5 & Hm5 & E5). left. exists m5. split; [done|]. by rewrite E5.
Qed.
End settle.

(** ** Every run is a run of store calls *)

Section client_run.
Context `{Oracle} `{ControllerEnv} `{ProcessEnv}.
Context (mission_id : string).

Lemma client_answered {A} (f : nat -> result exn A) : keeps client (answered f).
Proof. unfold answered. solve_client. Qed.
#[local] Hint Resolve client_answered : py_keeps.

Lemma client_end_group pid s : keeps client (end_group pid s).
Proof. unfold end_group. solve_client. Qed.
#[local] Hint Resolve client_end_group : py_keeps.
Lemma client_recover h : keeps client (recover mission_id h).
Proof. unfold recover, terminate_managed_processes, terminate_one, end_survivor. solve_client. Qed.
Lemma client_record_failure r : keeps client (record_controller_failure mission_id r).
Proof. unfold record_controller_failure. solve_client. Qed.
#[local] Hint Resolve client_recover client_record_failure : py_keeps.
Lemma client_prepare_run h n p r : keeps client (prepare_run mission_id h n p r).
Proof. unfold prepare_run. solve_client. Qed.
Lemma client_guarded_loop loop : keeps client loop -> keeps client (guarded_loop mission_id loop).
Proof. intros Hl. unfold guarded_loop, on_error. solve_client. Qed.
Lemma client_leave station : keeps client (leave mission_id station).
Proof. unfold leave, close_finished_station. solve_client. Qed.
Lemma client_finally {A} (m : DB A) f : keeps client m -> keeps client f -> keeps client (finally m f).
Proof.
  intros Hm Hf w. specialize (Hm w). unfold finally. destruct (m w) as [r w1]. cbn in Hm. specialize (Hf w1).
  destruct (f w1) as [[[]|e] w2]; cbn in Hf |- *; by etrans.
Qed.
#[local] Hint Resolve client_prepare_run client_guarded_loop client_leave client_finally : py_keeps.
Lemma client_run_controller h n p r loop : keeps client loop -> keeps client (run_controller mission_id h n p r loop).
Proof. intros Hl. unfold run_controller, take_over, supervised. solve_client. Qed.

End client_run.

(** ** Recovery resolves every operation, and then looks at the processes *)

Definition same_operations (d d' : database) : Prop := operations d' = operations d.
#[export] Instance same_operations_preorder : PreOrder same_operations.
Proof. split; unfold same_operations; [intros d; done|intros d d' d'' E1 E2; by rewrite E2]. Qed.

Section same_operations.
Context `{Oracle} `{ControllerEnv} `{ProcessEnv}.
Context (mission_id : string).
Local Abbreviation same := (dbrel same_operations).

Lemma sop_event m k data t o : keeps same (_event m k data t o).
Proof. unfold _event. apply keeps_bind; [exact _|apply keeps_utc_now; exact _|]. intros now. by apply keeps_write; [exact _|]. Qed.
Lemma sop_update_task id f : keeps same (update_task id f).
Proof. by apply keeps_write; [exact _|]. Qed.
Lemma sop_update_process id f : keeps same (update_process id f).
Proof. by apply keeps_write; [exact _|]. Qed.
Lemma sop_update_command id f : keeps same (update_command id f).
Proof. by apply keeps_write; [exact _|]. Qed.
#[local] Hint Resolve sop_event sop_update_task sop_update_process sop_update_command : py_keeps.
Lemma sop_release_declined : keeps same (release_declined_tasks mission_id).
Proof. unfold release_declined_tasks, _mission_row. solve_db_keeps. Qed.
Lemma sop_finish_command c s r : keeps same (finish_command c s r).
Proof. unfold finish_command, get_command, mission_event. solve_db_keeps. Qed.
Lemma sop_finish_managed_process p c s : keeps same (finish_managed_process p c s).
Proof. unfold finish_managed_process, get_managed_process, _managed_process_row, task_event. solve_db_keeps. Qed.
Lemma sop_unresolved : keeps same (unresolved_managed_processes mission_id).
Proof. unfold unresolved_managed_processes, _mission_row. solve_db_keeps. Qed.
Lemma sop_get_managed_process p : keeps same (get_managed_process p).
Proof. unfold get_managed_process, _managed_process_row. solve_db_keeps. Qed.
Lemma sop_pending_commands : keeps same (pending_commands mission_id).
Proof. unfold pending_commands, _mission_row. solve_db_keeps. Qed.
#[local] Hint Resolve sop_release_declined sop_finish_command sop_finish_managed_process sop_unresolved sop_get_managed_process
  sop_pending_commands : py_keeps.

(** What other processes and the controller do keeps the operations resolved:
    nobody else begins a task of the mission while its lock is held. *)
Definition settled_on (d d' : database) : Prop :=
  reachable d -> reachable d' /\ (ops_resolved mission_id d -> ops_resolved mission_id d').
#[local] Instance settled_on_preorder : PreOrder settled_on.
Proof using Type. split; unfold settled_on; [intros d; auto|]. intros d1 d2 d3 K1 K2 Hr. destruct (K1 Hr) as [Hr2 ?]. destruct (K2 Hr2). auto. Qed.
Local Abbreviation settled := (dbrel settled_on).
Lemma settled_same {A} (m : DB A) : keeps client m -> keeps same m -> keeps settled m.
Proof using Type.
  intros Hc Hs w Hr. split; [eapply reachable_calls; [exact Hr|apply Hc]|]. intros Hres o. specialize (Hs w). unfold dbrel, same_operations in Hs.
  rewrite Hs. apply Hres.
Qed.
Lemma settled_others os w : settled w (run_others mission_id os w).
Proof using Type.
  revert w. induction os as [|o os IH]; intros w; cbn [run_others]; [by intros Hr|].
  destruct (reserved mission_id (w_db w) o) eqn:Eo; [apply IH|]. etrans; [|apply IH]. intros Hr. split.
  - eapply reachable_call; [exact Hr|]. destruct w as [d k]. by eapply call_intro.
  - apply resolved_run_op; [exact Hr|]. intros Hb. destruct o; try exact Hb. destruct Hb as (row & Hrow & Hm). cbn [reserved] in Eo. unfold task_in in Eo.
    rewrite Hrow, Hm in Eo. by rewrite bool_decide_eq_true_2 in Eo.
Qed.
Lemma call_settled_on {A} (m : DB A) : keeps client m -> keeps same m -> keeps settled (call_store mission_id m).
Proof using Type.
  intros Hc Hs. unfold call_store. apply keeps_bind; [exact _|intros w; apply (settled_others (others (w_tick w)) w)|]. intros []. by apply settled_same.
Qed.
Lemma settled_attempt {A} (m : DB A) : keeps settled m -> keeps settled (attempt m).
Proof using Type. intros Hm w. specialize (Hm w). unfold attempt, dbrel in *. by destruct (m w) as [r w']. Qed.
Lemma settled_answer {A} (f : nat -> A) : keeps settled (answer_of f).
Proof using Type. by intros w Hr. Qed.
Lemma settled_answered {A} (f : nat -> result exn A) : keeps settled (answered f).
Proof using Type. unfold answered, answer_of. intros w. unfold mbind, ST_bind, gets. by destruct (f (w_tick w)). Qed.
#[local] Hint Resolve settled_answer settled_answered : py_keeps.

Ltac settled_step :=
  match goal with
  | |- keeps (dbrel settled_on) (call_store _ _) => apply call_settled_on; [solve [solve_client]|]
  | |- keeps (dbrel settled_on) (attempt _) => apply settled_attempt
  | |- _ => db_keeps_step
  end.
Lemma settled_terminate : keeps settled (terminate_managed_processes mission_id).
Proof using Type. unfold terminate_managed_processes, terminate_one, end_group. repeat settled_step. Qed.
Lemma settled_end_survivor b l o : keeps settled (end_survivor b l o).
Proof using Type. unfold end_survivor. repeat settled_step. Qed.

Definition same_op_identities (d d' : database) : Prop := o_identity <$> operations d' = o_identity <$> operations d.
#[local] Instance same_op_identities_preorder : PreOrder same_op_identities.
Proof using Type. split; unfold same_op_identities; [intros d; done|intros d d' d'' E1 E2; by rewrite E2]. Qed.
Lemma reconcile_keeps_operations : keeps (dbrel same_op_identities) (reconcile_interrupted_operations mission_id).
Proof using Type.
  unfold reconcile_interrupted_operations, _mission_row, _task_row, _event.
  repeat first
    [ match goal with
      | |- keeps _ (update_operation _ _) => apply keeps_write; [exact _|]; intros d; apply (update_where_map o_identity); intros o _; reflexivity
      | |- keeps _ (update_task _ _) => by apply keeps_write; [exact _|]
      | |- keeps _ (write _) => by apply keeps_write; [exact _|]
      end
    | db_keeps_step ].
Qed.

Lemma ends_call {A} (m : DB A) (Q : result exn A -> world -> Prop) w : reachable (w_db w) -> is_Some (find_mission mission_id (w_db w)) ->
  (forall w', reachable (w_db w') -> is_Some (find_mission mission_id (w_db w')) -> ends m Q w') -> ends (call_store mission_id m) Q w.
Proof using Type.
  intros Hr Hm HQ. unfold call_store. apply ends_bind. unfold ends at 1, interference. cbn [fst snd]. set (w' := World _ _).
  pose proof (client_others mission_id (others (w_tick w)) w) as Hc. unfold dbrel in Hc.
  apply HQ; [eapply reachable_calls; [exact Hr|exact Hc]|by apply (known_calls mission_id _ _ Hc)].
Qed.
(** Whether recovery returns or refuses, no operation of the mission stays
    unresolved. *)
Lemma recover_resolves prior_headless w : reachable (w_db w) -> is_Some (find_mission mission_id (w_db w)) ->
  ends (recover mission_id prior_headless) (fun _ w' => ops_resolved mission_id (w_db w')) w.
Proof using Type.
  intros Hr Hm. unfold recover. apply ends_bind, ends_call; [done..|]. intros w1 Hr1 Hm1. unfold ends at 1. cbn [read gets fst snd].
  apply ends_bind, ends_call; [done..|]. intros w2 Hr2 [mi Hmi].
  assert (Hun : exists l, unresolved_managed_processes mission_id w2 = (Ok l, w2)).
  { unfold unresolved_managed_processes. eexists. erewrite bind_ok; [reflexivity|]. by apply (get_mission_runs mission_id mi). }
  destruct Hun as [managed Eun]. unfold ends at 1. rewrite Eun. cbn [fst snd].
  apply ends_bind, ends_call; [done|by exists mi|]. intros w3 Hr3 [mi3 Hm3]. unfold ends at 1.
  destruct (reconcile_blocks_interrupted H mission_id w3 mi3 Hr3 Hm3) as (n & w4 & E & _ & Hops & _). rewrite E. cbn [fst snd].
  assert (Hr4 : reachable (w_db w4)).
  { eapply reachable_calls; [exact Hr3|]. pose proof (client_reconcile mission_id w3) as Hc. by rewrite E in Hc. }
  assert (K4 : ops_resolved mission_id (w_db w4)).
  { intros o Ho Hmo. pose proof (find_operation_elem _ _ (ko_operations _ (keys_ok_reachable _ Hr4)) Ho) as Hf.
    assert (Hin : o_identity o ∈ o_identity <$> operations (w_db w3)).
    { pose proof (reconcile_keeps_operations w3) as Hk. rewrite E in Hk. unfold dbrel, same_op_identities in Hk. cbn [snd] in Hk. rewrite <- Hk. by apply list_elem_of_fmap_2. }
    apply list_elem_of_fmap in Hin as (o3 & He & Ho3). specialize (Hops o3 Ho3).
    unfold o_identity in He. simplify_eq. replace (o_id o3) with (o_id o) in Hops by congruence. rewrite Hf in Hops. cbn in Hops.
    injection Hops as Hst. unfold active_op. rewrite Hst. destruct (interrupted _ o3) eqn:Ei; [done|].
    unfold interrupted, active_op in Ei. rewrite bool_decide_eq_true_2 in Ei by congruence. exact Ei. }
  eapply (ends_keeps settled); [|intros r w' Hs; by apply (Hs Hr4)].
  repeat first [apply settled_terminate|apply settled_end_survivor|settled_step].
Qed.
End same_operations.

(** ** A concrete environment *)

Definition demo_processes : ProcessEnv := {|
  process_start_token _ _ := EmptyString;
  alive_but_unverifiable _ _ := false;
  terminate_group _ _ _ := Group_gone;
  has_tmux _ := true;
  prior_station _ := Ok false;
  install_config _ _ := Ok tt;
  rotation_problem _ _ _ := None;
  start_station _ := Ok tt;
  stop_station _ := Ok tt;
  pane_runs_provider _ := false;
  clients_attached _ := false;
  failure_text _ _ := "failed"%string;
  controller_pid := 4242;
  mode_data := [("verified", JBool true)]%string;
|}.

(** ** The theorems *)

(** What the controller does - taking over a mission, at a boundary, at a
    launch, after a run, when its loop fails and when it leaves - is a
    sequence of calls of the store's methods, the calls other processes make
    in between included, whether it returns or raises; so everything proved
    of those calls holds throughout a mission's run. *)
Theorem controller_is_a_client (O : Oracle) (E : ControllerEnv) (P : ProcessEnv) (mission_id : string) (w : world) :
  (forall n h, rtc call (w_db w) (w_db (before_iteration mission_id n h w).2)) /\
  (forall tid it rev p r m pane sizes cp, rtc call (w_db w) (w_db (before_launch mission_id tid it rev p r m pane sizes cp w).2)) /\
  (forall budget o p r s l rep, rtc call (w_db w) (w_db (after_iteration mission_id budget o p r s l rep w).2)) /\
  (forall headless native providers routes loop, (forall w1, rtc call (w_db w1) (w_db (loop w1).2)) ->
     rtc call (w_db w) (w_db (run_controller mission_id headless native providers routes loop w).2)).
Proof.
  split_and!; intros.
  - apply client_before_iteration.
  - apply client_before_launch.
  - apply client_after_iteration.
  - by apply client_run_controller.
Qed.

(** Other processes add tasks all along; the loop returns while the mission
    runs, so it ends FAILED. *)
Lemma controller_is_a_client_witness : exists r w',
  run_controller (H := demo_oracle) (H0 := busy_env) (H1 := demo_processes) "m1" true false None None
    (before_iteration (H := demo_oracle) (H0 := busy_env) "m1" 3 (Hooks 0 None None) ;; mret (Returned 0)) (verify_world 6) = (r, w') /\
  rtc call (w_db (verify_world 6)) (w_db w') /\ (m_status <$> missions (w_db w')) = [M_FAILED].
Proof.
  destruct (run_controller (H := demo_oracle) (H0 := busy_env) (H1 := demo_processes) "m1" true false None None
    (before_iteration (H := demo_oracle) (H0 := busy_env) "m1" 3 (Hooks 0 None None) ;; mret (Returned 0)) (verify_world 6)) as [r w'] eqn:E.
  exists r, w'. split; [reflexivity|]. pose proof (f_equal (fun x => m_status <$> missions (w_db x.2)) E) as Hs. vm_compute in Hs.
  split; [|by rewrite Hs].
  destruct (controller_is_a_client demo_oracle busy_env demo_processes "m1" (verify_world 6)) as (_ & _ & _ & Hrun).
  specialize (Hrun true false None None (before_iteration (H := demo_oracle) (H0 := busy_env) "m1" 3 (Hooks 0 None None) ;; mret (Returned 0))).
  rewrite E in Hrun. apply Hrun. intros w1. apply (keeps_bind client); [apply client_before_iteration|]. intros ?. by intros w2.
Defined.



(** An operator who requests the verification of a task under review and
    pauses the mission ends its controller: the boundary runs the verifier,
    which needs a running mission, the error leaves the loop, and the handler
    fails in its turn because a paused mission cannot become FAILED.  The
    controller ends with an exception and the mission stays PAUSED. *)
Theorem paused_verification_ends_controller (O : Oracle) (E : ControllerEnv) (P : ProcessEnv) (mission_id : string) (station : bool)
    (w : world) (m : mission_row) (t : task_row) (rest : list Z) (n : nat) (h : hooks) (tail : option (hooks * action) -> DB loop_end) :
  (forall n, others n = []) -> verification_pending mission_id (w_db w) m t -> m_status m = M_PAUSED ->
  verification_requests (m_config m) = Ok (t_id t :: rest) ->
  exists e w', supervised mission_id station (before_iteration mission_id (S n) h ≫= tail) w = (Raise e, w') /\
    exists m', find_mission mission_id (w_db w') = Some m' /\ m_status m' = M_PAUSED.
Proof.
  intros Hcalm Hvp Hs Hreq.
  assert (Hend : ends (supervised mission_id station (before_iteration mission_id (S n) h ≫= tail))
     (fun r w' => (exists e, r = Raise e) /\ mission_at mission_id (fun s => s = M_PAUSED) w') w).
  { unfold supervised. apply ends_finally.
    apply (ends_mono _ (fun r w' => (exists e, r = Raise e) /\ mission_at mission_id (fun s => s = M_PAUSED) w')).
    - unfold guarded_loop. apply ends_bind, ends_attempt.
      destruct (before_pass_raises mission_id Hcalm h m t rest w Hvp) as (e & w1 & Ep & Hd); [by rewrite Hs|exact Hreq|].
      unfold ends at 1. cbn [before_iteration].
      rewrite (bind_raise _ _ (TransitionError e) w w1) by (by apply bind_raise). cbn [fst snd].
      assert (K1 : mission_at mission_id (fun s => s = M_PAUSED) w1) by (exists m; split; [rewrite Hd; apply Hvp|done]).
      apply ends_bind, ends_bind. eapply ends_same; [by apply same_call, same_reconcile|exact K1|].
      intros [c|e1] w2 K2; [|split; [by eexists|exact K2]]. apply ends_bind. eapply (ends_get_mission mission_id Hcalm); [exact K2|].
      intros m2 w3 K3 Hm2. rewrite Hm2 in *. cbn [is_in]. change (is_in M_PAUSED CONTROLLED_MISSION_STATUSES && negb (bool_decide (M_PAUSED = M_STOPPING))) with true.
      unfold when. apply ends_bind. eapply (ends_same _ _ (fun s => s = M_PAUSED)); [by intros w'|exact K3|].
      intros [reason|e2] w4 K4; [|split; [by eexists|exact K4]]. apply ends_bind. eapply ends_record_failure; [exact Hcalm|exact K4|].
      intros w5 K5. eapply ends_mono; [by eapply (set_status_refused mission_id Hcalm M_FAILED)|].
      intros r w6 [[msg ->] K6]. split; [by eexists|exact K6].
    - intros r w1 [[e ->] K1]. unfold leave. apply ends_bind. eapply (ends_get_mission mission_id Hcalm); [exact K1|].
      intros m1 w2 K2 Hm1. cbv zeta. rewrite Hm1 in *.
      assert (Hno : forall s1 s2, s1 <> M_PAUSED -> s2 <> M_PAUSED -> station && is_in M_PAUSED [s1; s2] = false).
      { intros s1 s2 N1 N2. unfold is_in. rewrite bool_decide_eq_false_2 by set_solver. apply andb_false_r. }
      rewrite Hno by done. apply ends_bind, ends_ret, ends_bind.
      rewrite (bool_decide_eq_false_2 (M_PAUSED = M_STOPPING)) by done. apply ends_ret, ends_bind. rewrite Hm1.
      rewrite (bool_decide_eq_false_2 (M_PAUSED = M_RUNNING)) by done. apply ends_ret. rewrite Hm1. cbn [negb].
      rewrite andb_true_r, !Hno by done. apply ends_ret. split; [by eexists|exact K2]. }
  destruct Hend as [[e He] Hw]. exists e, (supervised mission_id station (before_iteration mission_id (S n) h ≫= tail) w).2.
  split; [|exact Hw]. rewrite <- He. by destruct (supervised _ _ _ _).
Qed.

Lemma paused_verification_ends_controller_witness : exists e w',
  supervised (H := demo_oracle) (H0 := demo_env [] passing_run) (H1 := demo_processes) "m1" true
    (before_iteration (H := demo_oracle) (H0 := demo_env [] passing_run) "m1" 1 (Hooks 0 None None) ≫= (fun _ => mret (Returned 0))) (verify_world 6)
  = (Raise e, w') /\ exists m', find_mission "m1" (w_db w') = Some m' /\ m_status m' = M_PAUSED.
Proof.
  destruct (missions (w_db (verify_world 6))) as [|m []] eqn:Em; [vm_compute in Em; discriminate Em| |vm_compute in Em; discriminate Em].
  destruct (tasks (w_db (verify_world 6))) as [|t []] eqn:Et; [vm_compute in Et; discriminate Et| |vm_compute in Et; discriminate Et].
  vm_compute in Em, Et. injection Em as Em. injection Et as Et.
  apply (paused_verification_ends_controller demo_oracle (demo_env [] passing_run) demo_processes "m1" true (verify_world 6)
    m t [] 0 (Hooks 0 None None) (fun _ => mret (Returned 0))); rewrite <- ?Em, <- ?Et.
  - done.
  - split; vm_compute; try reflexivity; [split; [discriminate|reflexivity]|by eexists].
  - reflexivity.
  - reflexivity.
Defined.

(** A station that cannot be started raises before the [try] that would fail
    the mission: it stays RUNNING without a controller. *)
Definition no_station : ProcessEnv := {|
  process_start_token _ _ := EmptyString;
  alive_but_unverifiable _ _ := false;
  terminate_group _ _ _ := Group_gone;
  has_tmux _ := true;
  prior_station _ := Ok false;
  install_config _ _ := Ok tt;
  rotation_problem _ _ _ := None;
  start_station _ := Raise (OSError "tmux: server exited");
  stop_station _ := Ok tt;
  pane_runs_provider _ := false;
  clients_attached _ := false;
  failure_text _ _ := "failed"%string;
  controller_pid := 4242;
  mode_data := [("verified", JBool true)]%string;
|}.
Example failed_start_leaves_running :
  let '(r, w') := run_controller (H := demo_oracle) (H0 := demo_env [] passing_run) (H1 := no_station) "m1" false true None None
    (mret (Returned 0)) (verify_world 6) in
  r = Raise (OSError "tmux: server exited") /\ (m_status <$> missions (w_db w')) = [M_RUNNING].
Proof. vm_compute. done. Qed.

(** C14: Taking over a mission resolves each of its unresolved operations
    before it looks at the provider processes they left behind: whether the
    recovery succeeds or refuses because a surviving process cannot be
    identified or ended, and whatever other processes do meanwhile that the
    lock of the mission does not exclude, no operation of the mission is
    unresolved afterwards.  So nothing of a refusal stays behind, and the next
    start looks at no process at all ([second_start_ignores_survivor]). *)
Theorem recovery_resolves_operations (O : Oracle) (E : ControllerEnv) (P : ProcessEnv) (mission_id : string) (prior_headless : bool)
    (w w' : world) (r : result exn unit) :
  reachable (w_db w) -> is_Some (find_mission mission_id (w_db w)) ->
  recover mission_id prior_headless w = (r, w') ->
  forall o, o ∈ operations (w_db w') -> o_mission o = mission_id -> active_op o = false.
Proof.
  intros Hr Hm E1. pose proof (recover_resolves mission_id prior_headless w Hr Hm) as Hw.
  unfold ends in Hw. by rewrite E1 in Hw.
Qed.

(** The pid of the provider belongs to another process. *)
Definition foreign_pid : ProcessEnv := {|
  process_start_token _ _ := "other"%string;
  alive_but_unverifiable _ _ := false;
  terminate_group _ _ _ := Group_gone;
  has_tmux _ := true;
  prior_station _ := Ok false;
  install_config _ _ := Ok tt;
  rotation_problem _ _ _ := None;
  start_station _ := Ok tt;
  stop_station _ := Ok tt;
  pane_runs_provider _ := false;
  clients_attached _ := false;
  failure_text _ _ := "failed"%string;
  controller_pid := 4242;
  mode_data := [("verified", JBool true)]%string;
|}.
Lemma recovery_resolves_operations_witness : exists r w',
  recover (H := demo_oracle) (H0 := demo_env [] passing_run) (H1 := foreign_pid) "m1" true (verify_world 4) = (r, w') /\
  is_ok r = false /\ (active_op <$> operations (w_db (verify_world 4))) = [true] /\
  forall o, o ∈ operations (w_db w') -> o_mission o = "m1"%string -> active_op o = false.
Proof.
  destruct (recover (H := demo_oracle) (H0 := demo_env [] passing_run) (H1 := foreign_pid) "m1" true (verify_world 4)) as [r w'] eqn:E.
  exists r, w'. split; [reflexivity|]. split; [|split; [vm_compute; reflexivity|]].
  - pose proof (f_equal (fun x => is_ok x.1) E) as Hr. vm_compute in Hr. by rewrite Hr.
  - apply (recovery_resolves_operations demo_oracle (demo_env [] passing_run) foreign_pid "m1" true (verify_world 4) w' r); [| |exact E].
    + apply verify_world_reachable.
    + vm_compute. by eexists.
Defined.
Example second_start_ignores_survivor :
  let start := run_controller (H := demo_oracle) (H0 := demo_env [] passing_run) (H1 := foreign_pid) "m1" true false None None (mret (Returned 0)) in
  let '(r1, w1) := start (verify_world 4) in
  r1 = Raise (OSError "persisted provider pid now belongs to a different process; refusing recovery cleanup") /\ is_ok (start w1).1 = true.
Proof. vm_compute. done. Qed.
