(* ===== verification/Operator.v ===== *)
(** * Operator commands ([bridge.py], [_apply_operator_command])

    The mutations an operator asks for - from the console, the command line,
    or a coordinator - as JSON payloads: each is queued under a request id,
    applied with its receipt in one transaction, or acknowledged as rejected
    with all its effects rolled back. *)

From Stdlib Require Import QArith Ascii.
From S2P Require Import Prelude Py Vocab States StoreData StoreTasks StoreOps StoreReview StoreLog StoreApi StoreDemo StoreKeys StoreLogs StoreClient.
From stdpp Require Import options.
Local Open Scope Z_scope.

(** The text of a time stamp, of an exception and of a value that is no text
    ([str]); whether a process holds the mission's controller lock. *)
Class OperatorEnv : Type := {
  iso : Z -> string;
  exn_str : exn -> string;
  str_json : json -> string;
  controller_running : nat -> string -> result exn bool;
}.

(** ** Reading a payload *)

Section operator.
Context `{Oracle} `{OperatorEnv}.

Definition text_of (j : json) : string := match j with JStr s => s | _ => str_json j end.
(** [str(payload.get(key, ""))] and [payload[key]]. *)
Definition get_text (key : string) (payload : dict) : string := match dget key payload with Some j => text_of j | None => EmptyString end.
Definition item (key : string) (payload : dict) : result exn json :=
  match dget key payload with Some j => Ok j | None => Raise (KeyError key) end.
Definition get_int (key : string) (payload : dict) : DB Z := lift_result (j ← item key payload; py_int j).
Definition get_int_or (key : string) (d : Z) (payload : dict) : DB Z :=
  lift_result (match dget key payload with Some j => py_int j | None => Ok d end).
(** [int(payload[key]) if payload.get(key) is not None else None]. *)
Definition get_opt_int (key : string) (payload : dict) : DB (option Z) :=
  match dget key payload with
  | None | Some JNull => mret None
  | Some j => z ← lift_result (py_int j); mret (Some z)
  end.
Definition get_ints (key : string) (payload : dict) : DB (list Z) :=
  lift_result (l ← items_of (default (JList []) (dget key payload)); map_result py_int l).
Definition get_texts (key : string) (payload : dict) : DB (list string) :=
  l ← lift_result (items_of (default (JList []) (dget key payload))); mret (text_of <$> l).

(** ** Receipts: rows as the JSON the command table keeps *)

Definition changes_json (c : changes) : json :=
  let field {A} (name : string) (v : option A) (f : A -> json) := match v with Some a => [(name, f a)] | None => [] end in
  JObj (field "prompt"%string (ch_prompt c) JStr ++ field "title"%string (ch_title c) JStr ++
        field "priority"%string (ch_priority c) JInt ++ field "acceptance"%string (ch_acceptance c) (fun l => JList (JStr <$> l))).
Definition task_json (t : task_dict) : dict :=
  let r := td_row t in
  [("id", JInt (t_id r)); ("mission_id", JStr (t_mission r)); ("ordinal", JInt (t_ordinal r)); ("title", JStr (t_title r));
   ("original_prompt", JStr (t_original_prompt r)); ("prompt", JStr (t_prompt r)); ("priority", JInt (t_priority r));
   ("ordering", JInt (t_ordering r)); ("status", JStr (str (t_status r))); ("revision", JInt (t_revision r));
   ("origin", JStr (Origin_str (t_origin r))); ("proposal_status", JStr (ProposalStatus_str (t_proposal r)));
   ("proposed_by_operation", jopt_str (t_proposed_by r)); ("created_at", JStr (iso (t_created_at r)));
   ("updated_at", JStr (iso (t_updated_at r))); ("acceptance", JList (JStr <$> t_acceptance r));
   ("evidence", JList (t_evidence r)); ("pending", changes_json (t_pending r));
   ("depends_on", JList (JInt <$> td_depends_on t)); ("depends_on_ordinals", JList (JInt <$> td_depends_on_ordinals t))]%string.
Definition mission_json (m : mission_row) : dict :=
  [("id", JStr (m_id m)); ("name", JStr (m_name m)); ("objective", JStr (m_objective m)); ("cwd", JStr (m_cwd m));
   ("repo_identity", JStr (m_repo_identity m)); ("status", JStr (str (m_status m)));
   ("created_at", JStr (iso (m_created_at m))); ("updated_at", JStr (iso (m_updated_at m))); ("config", JObj (m_config m))]%string.
Definition release_json (r : release_result) : dict :=
  [("released", JList (JInt <$> rr_released r))]%string ++ (if rr_noop r then [("noop", JBool true)]%string else []) ++
  [("detail", JStr (rr_detail r))]%string.

(** ** Shared steps *)

Definition _require_task (mission_id : string) (task_id : Z) : DB task_dict :=
  found ← attempt (get_task task_id);
  match found with
  | Raise (KeyError _) => raise (TransitionError ("no task has the global ID " +:+ show_Z task_id +:+ "; use --task N with the number shown by task list"))
  | Raise e => raise e
  | Ok task =>
      raise_if (negb (bool_decide (t_mission (td_row task) = mission_id)))
        (TransitionError ("global task ID " +:+ show_Z task_id +:+ " belongs to another mission, not " +:+ short_id mission_id +:+
          "; use --task N with the number shown by task list")) ;;
      mret task
  end.
(** The message of [_StaleRevision], if the expected revision is not the
    task's. *)
Definition _check_expected_revision (mission_id : string) (payload : dict) : DB (option string) :=
  match dget "expected_revision" payload with
  | None | Some JNull => mret None
  | Some expected =>
      task_id ← get_int "task_id" payload;
      task ← _require_task mission_id task_id;
      expected ← lift_result (py_int expected);
      mret (if expected =? t_revision (td_row task) then None
            else Some ("task revision is " +:+ show_Z (t_revision (td_row task)) +:+ ", not the expected " +:+ show_Z expected +:+ "; reload and retry")%string)
  end.

Definition mission_active (mission_id : string) (d : database) : bool :=
  existsb (fun o => bool_decide (o_mission o = mission_id) && active_op o) (operations d).
Definition _native_provider_running (mission : mission_row) : DB bool :=
  if negb (truthy_opt (dget "native_tui" (m_config mission))) || truthy_opt (dget "headless" (m_config mission)) then mret false
  else read (mission_active (m_id mission)).
(** The stations a mission is configured for. *)
Definition configured_stations (config : dict) : list string :=
  flat_map (fun key => select truthy_str (strip <$> split_char "," (get_text key config))) ["providers"; "routes"]%string.
Definition deferred (active : bool) (detail : string) : dict :=
  if active then [("work_status", JStr "DEFERRED"); ("detail", JStr detail)]%string else [("work_status", JStr "APPLIED")]%string.

(** ** Steering *)

Definition STEER_KINDS : list string := ["replace"; "review"; "verify"; "pause-after-iteration"; "stop-after-task"; "handoff"]%string.
Definition steer_with_task (mission_id kind : string) (task_id : Z) (task : task_row) (payload : dict) : DB dict :=
  let named := [("kind", JStr kind); ("task_id", JInt task_id)]%string in
  if bool_decide (kind = "replace"%string) then
    let prompt := get_text "prompt" payload in
    raise_if (negb (truthy_str prompt)) (ValueError "replace steering requires prompt text") ;;
    revision ← amend_task task_id (Changes (Some prompt) None None None);
    after ← get_task task_id;
    mret (named ++ [("revision", JInt revision);
      ("status", JStr (if has_changes (t_pending (td_row after)) then "QUEUED_FOR_BOUNDARY" else "APPLIED"))]%string)
  else if bool_decide (kind = "review"%string) then
    let given := strip (get_text "prompt" payload) in
    let prompt := if truthy_str given then given
                  else ("Review task " +:+ show_Z (t_ordinal task) +:+ " (" +:+ t_title task +:+ ") after it completes. Inspect its artifacts and acceptance criteria, then report findings and any required follow-up.")%string in
    review ← add_task mission_id prompt ("Review: " +:+ t_title task) (t_priority task + 1) None [task_id]
      ["Record review findings and identify any unmet acceptance criteria."]%string;
    mret [("kind", JStr kind); ("task_id", JInt review); ("depends_on", JInt task_id);
          ("depends_on_ordinal", JInt (t_ordinal task)); ("status", JStr "APPLIED")]%string
  else if bool_decide (kind = "verify"%string) then
    mission ← get_mission mission_id;
    let configured := match dget "verifier" (m_config mission) with Some (JObj v) => truthy_opt (dget "argv" v) | _ => false end in
    raise_if (negb configured) (ValueError "verify steering requires a configured mission verifier") ;;
    raise_if (negb (is_in (t_status task) [T_RUNNING; T_VERIFYING])) (TransitionError "verify steering requires a running or verifying task") ;;
    requests ← get_ints "verification_requests" (m_config mission);
    set_mission_config_value mission_id "verification_requests"
      (JList (JInt <$> (select (fun z => negb (z =? task_id)) requests ++ [task_id]))) "steering-verify-requested" ;;
    mret (named ++ [("status", JStr "QUEUED_FOR_EXIT")]%string)
  else
    set_mission_config_value mission_id "stop_after_task" (JInt task_id) "steering-stop-task-requested" ;;
    mret (named ++ [("status", JStr "QUEUED_FOR_VERIFICATION")]%string).

Definition steer (mission_id : string) (payload : dict) : DB dict :=
  let kind := lower (strip (get_text "kind" payload)) in
  raise_if (negb (bool_decide (kind ∈ STEER_KINDS)))
    (ValueError "steering kind must be replace, review, verify, pause-after-iteration, stop-after-task, or handoff") ;;
  task_id ← get_opt_int "task_id" payload;
  raise_if (bool_decide (kind ∈ ["replace"; "review"; "verify"; "stop-after-task"]%string) && bool_decide (task_id = None))
    (ValueError (kind +:+ " steering requires --task")) ;;
  task ← match task_id with Some i => t ← _require_task mission_id i; mret (Some t) | None => mret None end;
  if bool_decide (kind = "pause-after-iteration"%string) then
    set_mission_config_value mission_id "pause_after_iteration" (JBool true) "steering-pause-requested" ;;
    mret [("kind", JStr kind); ("status", JStr "QUEUED_FOR_BOUNDARY")]%string
  else if bool_decide (kind = "handoff"%string) then
    let station := strip (get_text "route" payload) in
    raise_if (negb (truthy_str station)) (ValueError "handoff steering requires --route") ;;
    mission ← get_mission mission_id;
    let configured := configured_stations (m_config mission) in
    raise_if (negb (bool_decide (configured = [])) && negb (bool_decide (station ∈ configured)))
      (ValueError ("handoff station is not configured for this mission: " +:+ station)) ;;
    set_mission_config_value mission_id "handoff_preference" (JStr station) "steering-handoff-requested" ;;
    mret [("kind", JStr kind); ("route", JStr station); ("status", JStr "QUEUED_FOR_SELECTION")]%string
  else match task_id, task with
       | Some i, Some t => steer_with_task mission_id kind i (td_row t) payload
       | _, _ => raise (ValueError (kind +:+ " steering requires --task"))
       end.

(** ** Effects *)

Definition control_effect (mission_id action : string) : DB dict :=
  if bool_decide (action = "pause"%string) then
    mission ← get_mission mission_id;
    let current := m_status mission in
    if negb (is_in current STARTED_MISSION_STATUSES) then
      mret [("mission_status", JStr (str current)); ("noop", JBool true);
            ("detail", JStr ("Nothing to pause · mission is not running (" +:+ str current +:+ ")"))]%string
    else
      set_mission_status mission_id "PAUSED" ;;
      active ← read (mission_active mission_id);
      mret (("mission_status"%string, JStr "PAUSED") :: deferred active "pause takes effect when the active provider returns")
  else if bool_decide (action = "resume"%string) then
    set_mission_status mission_id "RUNNING" ;;
    mret [("mission_status", JStr "RUNNING")]%string
  else if bool_decide (action = "continue"%string) then
    released ← release_review_hold mission_id;
    mret (release_json released)
  else if bool_decide (action = "stop"%string) then
    mission ← get_mission mission_id;
    let current := m_status mission in
    running ← (if bool_decide (current = M_PAUSED) then found ← answer_of (fun n => controller_running n mission_id); lift_result found
               else mret true);
    if is_in current [M_CREATED; M_STOPPED] || (bool_decide (current = M_PAUSED) && negb running) then
      mret [("mission_status", JStr (str current)); ("noop", JBool true);
            ("detail", JStr ("Nothing to stop · mission " +:+ short_id mission_id +:+ " is saved (" +:+ str current +:+ ") · " +:+
               (if bool_decide (current = M_PAUSED) then "resume it with: llm-bridge resume" else "start it with: llm-bridge start")))]%string
    else
      when (is_in current STARTED_MISSION_STATUSES) (set_mission_status mission_id "STOPPING") ;;
      mission ← get_mission mission_id;
      native ← (if bool_decide (m_status mission = M_STOPPING) then _native_provider_running mission else mret false);
      mret (("mission_status"%string, JStr (str (m_status mission))) ::
            (if native : bool
             then [("work_status", JStr "DEFERRED");
                   ("detail", JStr "Stopping after the provider exits · if it stays open, run `llm-bridge stop --force --mission <id>`")]%string
             else []))
  else (* cancel *)
    active ← read (mission_active mission_id);
    mission ← get_mission mission_id;
    when (negb (is_in (m_status mission) FINISHED_MISSION_STATUSES)) (set_mission_status mission_id "CANCELLED") ;;
    tasks ← list_tasks mission_id None 0;
    for_each tasks (fun t =>
      when (negb (is_in (t_status (td_row t)) FINISHED_TASK_STATUSES)) (ignore (set_task_status (t_id (td_row t)) "CANCELLED"))) ;;
    mret (("mission_status"%string, JStr "CANCELLED") :: deferred active "cancel is durable; the active provider returns at its boundary").

Definition view_effect (mission_id : string) (payload : dict) : DB dict :=
  let station := strip (get_text "station" payload) in
  raise_if (negb (truthy_str station) || (100 <? slen station)) (ValueError "station name must be between 1 and 100 characters") ;;
  mission ← get_mission mission_id;
  let configured := configured_stations (m_config mission) in
  raise_if (negb (bool_decide (configured = [])) && negb (bool_decide (station ∈ configured)))
    (ValueError ("station is not configured for this mission: " +:+ station)) ;;
  m ← set_mission_config_value mission_id "viewed_station" (JStr station) "station-viewed";
  mret (mission_json m).

Definition add_effect (mission_id : string) (payload : dict) : DB dict :=
  mission ← get_mission mission_id;
  prompt ← lift_result (item "prompt" payload);
  priority ← get_int_or "priority" 0 payload;
  order ← get_opt_int "order" payload;
  depends_on ← get_ints "depends_on" payload;
  acceptance ← get_texts "acceptance" payload;
  task_id ← add_task mission_id (text_of prompt) (get_text "title" payload) priority order depends_on acceptance;
  task ← get_task task_id;
  mret (task_json task ++ (if bool_decide (m_status mission = M_COMPLETED) then [("mission_reopened", JBool true)]%string else [])).

Definition propose_effect (mission_id : string) (payload : dict) : DB dict :=
  priority ← get_int_or "priority" 0 payload;
  depends_on ← get_ints "depends_on" payload;
  acceptance ← get_texts "acceptance" payload;
  task_id ← propose_task mission_id (get_text "prompt" payload) (get_text "source_operation_id" payload) (get_text "title" payload)
    priority depends_on acceptance;
  task ← get_task task_id;
  mret (task_json task).

(** The actions on one task of the mission. *)
Definition task_effect (mission_id action : string) (payload : dict) : DB dict :=
  task_id ← get_int "task_id" payload;
  _require_task mission_id task_id ;;
  if bool_decide (action = "task.verify"%string) then
    let approved := truthy_opt (dget "approved" payload) in
    t ← verify_task task_id (get_text "evidence" payload) approved "operator" [] (negb approved);
    mret (task_json t)
  else if bool_decide (action = "task.reject"%string) then
    let reason := get_text "reason" payload in
    t ← reject_task task_id reason "operator";
    mret (dset "rejection_reason" (JStr (strip reason)) (task_json t))
  else if bool_decide (action = "task.proposal-decision"%string) then
    t ← decide_proposal mission_id task_id (truthy_opt (dget "accept" payload)) (get_text "reason" payload);
    mret (task_json t)
  else if bool_decide (action = "task.amend"%string) then
    prompt ← lift_result (item "prompt" payload);
    revision ← amend_task task_id (Changes (Some (text_of prompt)) None None None);
    after ← get_task task_id;
    mret [("task_id", JInt task_id); ("revision", JInt revision); ("applied", JBool (negb (has_changes (t_pending (td_row after)))))]%string
  else if bool_decide (action = "task.pause"%string) then
    t ← set_task_status task_id "PAUSED";
    active ← read (fun d => existsb (active_op_of task_id) (operations d));
    mret (task_json t ++ (if active : bool then [("work_status", JStr "DEFERRED"); ("detail", JStr "pause takes effect when the active provider returns")]%string else []))
  else if bool_decide (action ∈ ["task.resume"; "task.retry"]%string) then
    set_task_status task_id "QUEUED" ;;
    ready_tasks mission_id (Some 0) ;;
    t ← get_task task_id;
    mret (task_json t)
  else if bool_decide (action = "task.cancel"%string) then
    t ← set_task_status task_id "CANCELLED";
    active ← read (fun d => first (active_op_of task_id) (operations d));
    mret (task_json t ++ match active with
      | Some o => [("work_status", JStr "DEFERRED"); ("active_operation_id", JStr (o_id o));
                   ("detail", JStr "task cancellation is durable; the active provider returns at its boundary")]%string
      | None => [("work_status", JStr "APPLIED")]%string
      end)
  else if bool_decide (action = "task.priority"%string) then
    priority ← get_int "priority" payload;
    set_task_priority task_id priority ;;
    t ← get_task task_id; mret (task_json t)
  else if bool_decide (action = "task.reorder"%string) then
    order ← get_int "order" payload;
    reorder_task task_id order ;;
    t ← get_task task_id; mret (task_json t)
  else (* task.dependency *)
    dependency_id ← get_int "depends_on" payload;
    _require_task mission_id dependency_id ;;
    add_dependency mission_id task_id dependency_id ;;
    t ← get_task task_id; mret (task_json t).

Definition CONTROL_ACTIONS : list string := ["pause"; "resume"; "continue"; "stop"; "cancel"]%string.
Definition TASK_ACTIONS : list string :=
  ["task.verify"; "task.reject"; "task.proposal-decision"; "task.amend"; "task.pause"; "task.resume"; "task.cancel"; "task.retry";
   "task.priority"; "task.reorder"; "task.dependency"]%string.

(** The result of an action, before its task number is added. *)
Definition effect (mission_id : string) (payload : dict) : DB dict :=
  let action := get_text "action" payload in
  if bool_decide (action ∈ CONTROL_ACTIONS) then control_effect mission_id action
  else if bool_decide (action ∈ TASK_ACTIONS) then task_effect mission_id action payload
  else if bool_decide (action = "station.view"%string) then view_effect mission_id payload
  else if bool_decide (action = "steer"%string) then steer mission_id payload
  else if bool_decide (action = "task.add"%string) then add_effect mission_id payload
  else if bool_decide (action = "task.propose"%string) then propose_effect mission_id payload
  else raise (ValueError ("unsupported Bridge command: " +:+ action)).

(** Receipts show the mission's own task number, not the global id. *)
Definition number_result (result : dict) : DB dict :=
  match dget "ordinal" result, dget "task_id" result with
  | None, Some (JInt task_id) =>
      found ← read (find_task task_id);
      mret (match found with Some t => dset "task_ordinal" (JInt (t_ordinal t)) result | None => result end)
  | _, _ => mret result
  end.

(** The exceptions that reject a command; any other leaves it queued. *)
Definition rejects (e : exn) : bool :=
  match e with
  | ValueError _ | KeyError _ | OSError _ | TransitionError _ => true
  | _ => false
  end.
Definition _apply_operator_effect (mission_id : string) (payload : dict) : DB dict :=
  r ← attempt (
    stale ← _check_expected_revision mission_id payload;
    match stale with
    | Some msg => raise (RejectedOperatorCommand msg (Some "conflict"))
    | None => result ← effect mission_id payload; number_result result
    end);
  match r with
  | Ok result => mret result
  | Raise e => if rejects e then raise (RejectedOperatorCommand (exn_str e) None) else raise e
  end.

(** ** The durable command *)

Definition _apply_operator_command (mission_id : string) (payload : dict) (command_id : option string) : DB command_row :=
  command ← enqueue_command mission_id payload command_id;
  if negb (bool_decide (c_status command = C_QUEUED)) then mret command
  else
    applied ← attempt (_transaction (
      current ← get_command (c_id command);
      if negb (bool_decide (c_status current = C_QUEUED)) then mret current
      else
        result ← _apply_operator_effect mission_id payload;
        finish_command (c_id command) "APPLIED" result));
    match applied with
    | Ok row => mret row
    | Raise (RejectedOperatorCommand msg reason) =>
        _transaction (finish_command (c_id command) "REJECTED"
          (("error"%string, JStr msg) :: match reason with Some r => [("code"%string, JStr r)] | None => [] end))
    | Raise e => raise e
    end.
End operator.
