(* ===== verification/OperatorLaws.v ===== *)
(** * Laws of the operator's commands

    What a queued command leaves behind: its effects and its receipt are one
    step, a rejected one leaves only its receipt, and delivering the same
    request again answers from the receipt. *)

From S2P Require Import Prelude Py Vocab States StoreData StoreTasks StoreOps StoreReview StoreLog StoreApi StoreDemo StoreKeys StoreLogs StoreSpecs StoreRounds StoreStarts StoreClient Operator.
From stdpp Require Import options.
Local Open Scope Z_scope.

(** ** Frames *)

(** The queue is not touched. *)
Definition same_commands (d d' : database) : Prop := commands d' = commands d.
#[export] Instance same_commands_preorder : PreOrder same_commands.
Proof. split; unfold same_commands; [intros d; done|intros d d' d'' E1 E2; by rewrite E2]. Qed.

(** Only the queue and the event log grow. *)
Definition only_receipts (d d' : database) : Prop :=
  missions d' = missions d /\ tasks d' = tasks d /\ task_dependencies d' = task_dependencies d /\ amendments d' = amendments d /\
  operations d' = operations d /\ managed_processes d' = managed_processes d /\ mission_task_counts d' = mission_task_counts d.
#[export] Instance only_receipts_preorder : PreOrder only_receipts.
Proof. split; unfold only_receipts; [intros d; done|]. intros d d1 d2 H1 H2. destruct_and!. split_and!; congruence. Qed.

(** A settled command keeps its row. *)
Definition settled_kept (d d' : database) : Prop :=
  forall cid c, find_command cid d = Some c -> c_status c <> C_QUEUED -> find_command cid d' = Some c.
#[export] Instance settled_kept_preorder : PreOrder settled_kept.
Proof. split; [by intros d cid c|]. intros d d1 d2 H1 H2 cid c Hc Hs. apply H2; [by apply H1|done]. Qed.

Lemma same_commands_settled d d' : same_commands d d' -> settled_kept d d'.
Proof. intros E cid c. unfold find_command. by rewrite E. Qed.

Section frames.
Context `{Oracle} `{SE : SqlErrors}.
Local Abbreviation same := (dbrel same_commands).

Ltac sc_write := apply keeps_write; [exact _|]; by intros d.
Ltac sc_statement := apply keeps_statement; [exact _|]; intros ? ? ?; cbn; repeat case_match; by intros [= <- <-].
Lemma sc_event m k data t o : keeps same (_event m k data t o).
Proof. unfold _event. apply keeps_bind; [exact _|apply keeps_utc_now; exact _|]. intros now. sc_write. Qed.
Lemma sc_update_task id f : keeps same (update_task id f).
Proof. sc_write. Qed.
Lemma sc_update_mission id f : keeps same (update_mission id f).
Proof. sc_write. Qed.
Lemma sc_update_operation id f : keeps same (update_operation id f).
Proof. sc_write. Qed.
Lemma sc_update_amendments p f : keeps same (update_amendments p f).
Proof. sc_write. Qed.
Lemma sc_update_process id f : keeps same (update_process id f).
Proof. sc_write. Qed.
Lemma sc_delete_events ids : keeps same (write (delete_events ids)).
Proof. sc_write. Qed.
Lemma sc_set_events f : keeps same (write (fun d => set_events (f d) d)).
Proof. sc_write. Qed.
Lemma sc_insert_task mk : keeps same (insert_task mk).
Proof. sc_statement. Qed.
Lemma sc_update_mission_status i s n : keeps same (update_mission_status i s n).
Proof. sc_statement. Qed.
Lemma sc_insert_mission m : keeps same (insert_mission m).
Proof. sc_statement. Qed.
Lemma sc_insert_dependency t p : keeps same (insert_dependency t p).
Proof. sc_statement. Qed.
Lemma sc_insert_amendment t r c n : keeps same (insert_amendment t r c n).
Proof. sc_statement. Qed.
Lemma sc_insert_operation o : keeps same (insert_operation o).
Proof. sc_statement. Qed.
Lemma sc_insert_process p : keeps same (insert_process p).
Proof. sc_statement. Qed.
#[local] Hint Resolve sc_event sc_update_task sc_update_mission sc_update_operation sc_update_amendments sc_update_process
  sc_delete_events sc_set_events sc_insert_task sc_update_mission_status sc_insert_mission sc_insert_dependency
  sc_insert_amendment sc_insert_operation sc_insert_process : py_keeps.

Lemma sc_prune_heartbeats n m c k dl del : keeps same (prune_heartbeats n m c k dl del).
Proof. revert del. induction n; intros del; cbn [prune_heartbeats]; solve_db_keeps. Qed.
Lemma sc_prune_refreshes n m c k dl l del : keeps same (prune_refreshes n m c k dl l del).
Proof. revert l del. induction n; intros l del; cbn [prune_refreshes]; solve_db_keeps. Qed.
#[local] Hint Resolve sc_prune_heartbeats sc_prune_refreshes : py_keeps.

(** The methods of the queue. *)
Definition queue_op (o : op) : bool := match o with Op_enqueue_command _ _ _ | Op_finish_command _ _ _ => true | _ => false end.
Lemma run_op_same_commands o : queue_op o = false -> keeps same (run_op o).
Proof. intros Ho. destruct o; try done; cbn [run_op]; unfold_methods; solve_db_keeps. Qed.
End frames.

(** ** The queue *)

Section queue.
Context `{Oracle} `{SE : SqlErrors}.

Lemma settled_insert_command c : keeps (dbrel settled_kept) (insert_command c).
Proof.
  apply keeps_statement; [exact _|]. intros d [] d'. cbn. destruct (existsb _ _) eqn:Ex; [done|]. intros [= <-] cid c0 Hc _.
  rewrite find_command_insert; [|].
  - case_decide; [|done]. subst cid. exfalso. apply first_Some in Hc as [Hin Hid]. by rewrite (existsb_false _ _ Ex _ Hin) in Hid.
  - apply first_None. intros a Ha. by apply (existsb_false _ _ Ex).
Qed.
Lemma settled_event m k data t o : keeps (dbrel settled_kept) (_event m k data t o).
Proof. intros w. apply same_commands_settled, (sc_event m k data t o w). Qed.
#[local] Hint Resolve settled_insert_command settled_event : py_keeps.

Lemma settled_enqueue m p c : keeps (dbrel settled_kept) (enqueue_command m p c).
Proof. unfold enqueue_command; unfold_helpers. solve_db_keeps. Qed.
Lemma settled_finish cid s r w : runs_in settled_kept (finish_command cid s r) w.
Proof.
  unfold finish_command. destruct (command_result_status (upper s)) as [st|]; [|apply runs_keeps; solve_db_keeps].
  apply runs_bind; [exact _| |intros; apply runs_keeps; unfold get_command; solve_db_keeps].
  apply runs_transaction; [exact _|].
  unfold get_command. destruct (find_command cid (w_db w)) as [row|] eqn:Hrow.
  2: { unfold runs_in, read, gets, mbind, ST_bind, or_raise. rewrite Hrow. unfold dbrel; cbn. reflexivity. }
  apply runs_bind; [exact _|apply runs_keeps; solve_db_keeps|]. intros row0 w0 E0.
  assert (row0 = row /\ w0 = w) as [-> ->] by (unfold read, gets, mbind, ST_bind, or_raise in E0; rewrite Hrow in E0; by injection E0 as <- <-).
  destruct (decide (c_status row = C_QUEUED)) as [Hq|Hq]; [rewrite bool_decide_true by done|rewrite bool_decide_false by done]; cbn [when].
  2: { apply runs_keeps; solve_db_keeps. }
  apply runs_bind; [exact _|apply runs_keeps; solve_db_keeps|]. intros now w1 E1.
  assert (w_db w1 = w_db w) as Ew by (unfold utc_now in E1; by simplify_eq).
  apply runs_bind; [exact _| |intros; apply runs_keeps; unfold mission_event; solve_db_keeps].
  unfold runs_in, dbrel. intros i c Hc Hs. etrans; [by apply (find_command_update cid i _ (w_db w1))|]. rewrite Ew in Hc |- *.
  case_decide as Hi; [|done]. subst i. congruence.
Qed.
End queue.

Lemma settled_call d d' : call d d' -> settled_kept d d'.
Proof.
  intros [O F o tick E]. subst d'.
  destruct (queue_op o) eqn:Ho.
  - destruct o; try done; cbn [run_op]; rewrite ignore_world.
    + apply (settled_enqueue mission_id payload command_id (World d tick)).
    + apply (settled_finish command_id status result (World d tick)).
  - apply same_commands_settled. apply (run_op_same_commands o Ho (World d tick)).
Qed.
Lemma settled_calls d d' : rtc call d d' -> settled_kept d d'.
Proof. induction 1 as [|d d1 d' Hc _ IH]; [reflexivity|]. etrans; [by apply settled_call|done]. Qed.

(** ** The effects *)

(** A settled row that a delivery finds was there before. *)
Definition settled_before (d d' : database) : Prop :=
  forall cid c, find_command cid d' = Some c -> c_status c <> C_QUEUED -> find_command cid d = Some c.
#[export] Instance settled_before_preorder : PreOrder settled_before.
Proof. split; [by intros d cid c|]. intros d d1 d2 Ha Hb cid c Hc Hs. apply Ha; [by apply Hb|done]. Qed.
Section deliveries.
Context `{Oracle} `{SE : SqlErrors}.
Lemma before_insert_command cid m p t : keeps (dbrel settled_before) (insert_command (Command cid m p C_QUEUED None t t)).
Proof.
  apply keeps_statement; [exact _|]. intros d [] d'. cbn. destruct (existsb _ _) eqn:Ex; [done|]. intros [= <-] i c Hc Hs.
  rewrite find_command_insert in Hc by (apply first_None; intros a Ha; by apply (existsb_false _ _ Ex)).
  case_decide; [|done]. by injection Hc as <-.
Qed.
Lemma before_event m k data t o : keeps (dbrel settled_before) (_event m k data t o).
Proof. intros w cid c Hc _. unfold find_command in *. by rewrite (sc_event m k data t o w) in Hc. Qed.
#[local] Hint Resolve before_insert_command before_event : py_keeps.
Lemma before_enqueue m p c : keeps (dbrel settled_before) (enqueue_command m p c).
Proof. unfold enqueue_command; unfold_helpers. solve_db_keeps. Qed.
End deliveries.

Section effects.
Context `{Oracle} `{OperatorEnv}.

(** The methods an effect calls leave the queue alone. *)
Lemma sc_op {A} (m : DB A) o : queue_op o = false -> (run_op o = ignore m \/ forall w, (run_op o w).2 = (m w).2) -> keeps (dbrel same_commands) m.
Proof using Type.
  intros Ho Eo w. pose proof (run_op_same_commands o Ho w) as Hs. destruct Eo as [Eo|Eo].
  - by rewrite Eo, ignore_world in Hs.
  - by rewrite Eo in Hs.
Qed.
Lemma sc_get_mission m : keeps (dbrel same_commands) (get_mission m).
Proof using Type. unfold get_mission, _mission_row. solve_db_keeps. Qed.
Lemma sc_get_task t : keeps (dbrel same_commands) (get_task t).
Proof using Type. unfold get_task, _task_row. solve_db_keeps. Qed.
Lemma sc_list_tasks m l o : keeps (dbrel same_commands) (list_tasks m l o).
Proof using Type. unfold list_tasks, _mission_row. solve_db_keeps. Qed.
Lemma sc_answer {A} (f : nat -> A) : keeps (dbrel same_commands) (answer_of f).
Proof using Type. by intros w. Qed.
Ltac sc_method o := apply (sc_op _ o); [done|by first [left; reflexivity|right; intros w; reflexivity]].
Lemma sc_add_task m p t pr or d a : keeps (dbrel same_commands) (add_task m p t pr or d a).
Proof using Type. sc_method (Op_add_task m p t pr or d a). Qed.
Lemma sc_propose_task m p s t pr d a : keeps (dbrel same_commands) (propose_task m p s t pr d a).
Proof using Type. sc_method (Op_propose_task m p s t pr d a). Qed.
Lemma sc_decide_proposal m t a r : keeps (dbrel same_commands) (decide_proposal m t a r).
Proof using Type. sc_method (Op_decide_proposal m t a r). Qed.
Lemma sc_add_dependency m t d : keeps (dbrel same_commands) (add_dependency m t d).
Proof using Type. sc_method (Op_add_dependency m t d). Qed.
Lemma sc_amend_task t c : keeps (dbrel same_commands) (amend_task t c).
Proof using Type. sc_method (Op_amend_task t c). Qed.
Lemma sc_set_task_priority t p : keeps (dbrel same_commands) (set_task_priority t p).
Proof using Type. sc_method (Op_set_task_priority t p). Qed.
Lemma sc_reorder_task t o : keeps (dbrel same_commands) (reorder_task t o).
Proof using Type. sc_method (Op_reorder_task t o). Qed.
Lemma sc_set_task_status t s : keeps (dbrel same_commands) (set_task_status t s).
Proof using Type. sc_method (Op_set_task_status t s). Qed.
Lemma sc_reject_task t r o : keeps (dbrel same_commands) (reject_task t r o).
Proof using Type. sc_method (Op_reject_task t r o). Qed.
Lemma sc_release_review_hold m : keeps (dbrel same_commands) (release_review_hold m).
Proof using Type. sc_method (Op_release_review_hold m). Qed.
Lemma sc_verify_task t e a s md r : keeps (dbrel same_commands) (verify_task t e a s md r).
Proof using Type. sc_method (Op_verify_task t e a s md r). Qed.
Lemma sc_set_mission_config_value m k v e : keeps (dbrel same_commands) (set_mission_config_value m k v e).
Proof using Type. sc_method (Op_set_mission_config_value m k v e). Qed.
Lemma sc_set_mission_status m s : keeps (dbrel same_commands) (set_mission_status m s).
Proof using Type. sc_method (Op_set_mission_status m s). Qed.
Lemma sc_ready_tasks m l : keeps (dbrel same_commands) (ready_tasks m l).
Proof using Type. sc_method (Op_ready_tasks m l). Qed.
#[local] Hint Resolve sc_get_mission sc_get_task sc_list_tasks sc_answer sc_add_task sc_propose_task sc_decide_proposal sc_add_dependency
  sc_amend_task sc_set_task_priority sc_reorder_task sc_set_task_status sc_reject_task sc_release_review_hold sc_verify_task
  sc_set_mission_config_value sc_set_mission_status sc_ready_tasks : py_keeps.

Ltac unfold_effects := repeat unfold effect, control_effect, task_effect, view_effect, steer, steer_with_task, add_effect, propose_effect,
  number_result, _check_expected_revision, _require_task, _native_provider_running, get_int, get_int_or, get_opt_int, get_ints, get_texts.
Ltac effect_step :=
  match goal with
  | |- keeps _ (attempt _) => apply keeps_attempt
  | |- _ => db_keeps_step
  end.
Lemma sc_effect m p : keeps (dbrel same_commands) (_apply_operator_effect m p).
Proof using Type. unfold _apply_operator_effect; unfold_effects. cbv zeta. repeat effect_step. Qed.
Lemma client_effect m p : keeps client (_apply_operator_effect m p).
Proof using Type. unfold _apply_operator_effect; unfold_effects. cbv zeta. repeat effect_step. Qed.
Lemma client_operator_command m p c : keeps client (_apply_operator_command m p c).
Proof using Type.
  unfold _apply_operator_command. repeat first [apply client_effect | effect_step].
Qed.
End effects.

(** ** Receipts *)

Section receipts.
Context `{Oracle} `{OperatorEnv}.
Local Abbreviation receipts := (dbrel only_receipts).

Lemma or_event m k data t o : keeps receipts (_event m k data t o).
Proof using Type.
  unfold _event. apply keeps_bind; [exact _|apply keeps_utc_now; exact _|]. intros now. by apply keeps_write; [exact _|].
Qed.
Lemma or_insert_command c : keeps receipts (insert_command c).
Proof using Type. apply keeps_statement; [exact _|]; intros ? ? ?; cbn; repeat case_match; by intros [= <- <-]. Qed.
Lemma or_update_command id f : keeps receipts (update_command id f).
Proof using Type. by apply keeps_write; [exact _|]. Qed.
#[local] Hint Resolve or_event or_insert_command or_update_command : py_keeps.
Lemma or_enqueue m p c : keeps receipts (enqueue_command m p c).
Proof using Type. unfold enqueue_command; unfold_helpers. solve_db_keeps. Qed.
Lemma or_finish c s r : keeps receipts (finish_command c s r).
Proof using Type. unfold finish_command; unfold_helpers. solve_db_keeps. Qed.

(** Whatever the request id, the returned row is the one in the table. *)
Lemma get_command_finds cid w row w' : get_command cid w = (Ok row, w') -> find_command cid (w_db w) = Some row /\ w' = w.
Proof using Type.
  unfold get_command, read, gets, mbind, ST_bind, or_raise. destruct (find_command cid (w_db w)); cbn; [|done]. by intros [= <- <-].
Qed.
Lemma find_command_id cid d c : find_command cid d = Some c -> c_id c = cid.
Proof using Type. intros [_ Hi]%first_Some. by bool_to_prop. Qed.
Lemma enqueue_found m p c w row w' : enqueue_command m p c w = (Ok row, w') -> find_command (c_id row) (w_db w') = Some row.
Proof using Type.
  unfold enqueue_command. intros E. apply bind_inv in E as (cid & w1 & _ & E). do 3 (apply bind_inv in E as (? & ? & _ & E)).
  apply get_command_finds in E as [E ->]. by rewrite (find_command_id _ _ _ E).
Qed.

(** The row a request is answered with is the request's. *)
Definition requested (m : string) (p : dict) (row : command_row) : Prop :=
  c_mission row = m /\ json_text_eqb (c_payload row) (JObj p) = true.
Lemma enqueue_requested m p c w row w' : enqueue_command m p c w = (Ok row, w') -> requested m p row /\ is_Some (find_mission m (w_db w')).
Proof using Type.
  intros E. unfold enqueue_command in E. apply bind_inv in E as (cid & w1 & _ & E).
  assert (Hp : id_pattern cid = true) by (destruct (id_pattern cid); [done|by cbn [negb raise_if] in E]).
  destruct (enqueue_stores m p cid row w1 w' Hp) as (_ & Hm & Hreq); [|done].
  unfold enqueue_command. assert (Some cid ≫= opt_str = Some cid) as -> by apply (id_pattern_opt_str _ Hp).
  exact E.
Qed.

Lemma finish_settles cid s r st c w row w' :
  command_result_status (upper s) = Some st -> find_command cid (w_db w) = Some c -> c_status c = C_QUEUED ->
  finish_command cid s r w = (Ok row, w') -> find_command cid (w_db w') = Some row /\ c_status row = st /\ c_result row = Some (JObj r) /\
  c_mission row = c_mission c /\ c_payload row = c_payload c.
Proof using Type.
  intros Hs Hc Hq. unfold finish_command. rewrite Hs. intros E.
  apply bind_inv in E as ([] & w1 & E & Eg). apply get_command_finds in Eg as [Hrow ->]. split; [done|].
  apply transaction_inv, bind_inv in E as (c0 & w2 & Eg & E). apply get_command_finds in Eg as [Hc0 ->].
  assert (c0 = c) as -> by congruence. rewrite bool_decide_true in E by done. cbn [when] in E.
  apply bind_inv in E as (now & w3 & E3 & E). assert (w_db w3 = w_db w) as Ew by (unfold utc_now in E3; by simplify_eq).
  apply bind_inv in E as (u & w4 & E4 & E).
  assert (Hc4 : find_command cid (w_db w4) = Some (set_c_updated_at now (set_c_result (Some (JObj r)) (set_c_status st c)))).
  { unfold update_command, write, modify in E4. injection E4 as _ <-.
    etrans; [by apply (find_command_update cid cid _ (w_db w3))|]. by rewrite decide_True, Ew, Hc. }
  assert (Hsame : commands (w_db w1) = commands (w_db w4)).
  { pose proof (sc_event (c_mission c) ("command-" +:+ lower (CommandStatus_str st)) [("command_id", JStr cid); ("result", JObj r)]%string None None w4) as Hsame.
    unfold mission_event in E. rewrite E in Hsame. exact Hsame. }
  unfold find_command in Hrow, Hc4. rewrite Hsame, Hc4 in Hrow. injection Hrow as <-. by destruct c.
Qed.
End receipts.

(** ** The command as a whole *)

(** What a call of [_apply_operator_command] leaves: either nothing but
    receipts, or the whole effect with the receipt that reports it. *)
Definition settled_row (mission_id : string) (payload : dict) (row : command_row) (d : database) : Prop :=
  c_status row <> C_QUEUED /\ find_command (c_id row) d = Some row /\ requested mission_id payload row.
Definition effect_with_receipt `{Oracle} `{OperatorEnv} (mission_id : string) (payload : dict) (row : command_row) (d d' : database) : Prop :=
  exists w1 result w2, only_receipts d (w_db w1) /\ _apply_operator_effect mission_id payload w1 = (Ok result, w2) /\
    only_receipts (w_db w2) d' /\ c_status row = C_APPLIED /\ c_result row = Some (JObj result).

Definition rejection (msg : string) (reason : option string) : dict :=
  ("error"%string, JStr msg) :: match reason with Some r => [("code"%string, JStr r)] | None => [] end.
Definition rejected_with_receipt `{Oracle} `{OperatorEnv} (mission_id : string) (payload : dict) (row : command_row) (d d' : database) : Prop :=
  only_receipts d d' /\ c_status row = C_REJECTED /\
  exists w1 w2 msg reason, only_receipts d (w_db w1) /\ _apply_operator_effect mission_id payload w1 = (Raise (RejectedOperatorCommand msg reason), w2) /\
    c_result row = Some (JObj (rejection msg reason)).

Section whole.
Context `{Oracle} `{OperatorEnv}.

(** The transaction that applies a queued command. *)
Definition apply_queued (mission_id : string) (payload : dict) (cid : string) : DB command_row :=
  current ← get_command cid;
  if negb (bool_decide (c_status current = C_QUEUED)) then mret current
  else result ← _apply_operator_effect mission_id payload; finish_command cid "APPLIED" result.

Lemma applied_whole m p c w row w' : find_command (c_id c) (w_db w) = Some c -> requested m p c -> c_status c = C_QUEUED ->
  apply_queued m p (c_id c) w = (Ok row, w') -> settled_row m p row (w_db w') /\ effect_with_receipt m p row (w_db w) (w_db w').
Proof using Type.
  intros Hc [Hm Hp] Hq E. unfold apply_queued in E. apply bind_inv in E as (c0 & w0 & Eg & E). apply get_command_finds in Eg as [Hc0 ->].
  assert (c0 = c) as -> by congruence. rewrite bool_decide_true in E by done. cbn [negb] in E.
  apply bind_inv in E as (result & w2 & Ee & Ef).
  assert (Hc2 : find_command (c_id c) (w_db w2) = Some c).
  { pose proof (sc_effect m p w) as Hs. rewrite Ee in Hs. unfold dbrel, same_commands in Hs. cbn in Hs. unfold find_command in *. by rewrite Hs. }
  destruct (finish_settles _ "APPLIED" _ C_APPLIED _ _ _ _ eq_refl Hc2 Hq Ef) as (Hrow & Hst & Hres & Em & Ep).
  split; [split_and!; [by rewrite Hst|by rewrite (find_command_id _ _ _ Hrow)|by unfold requested; rewrite Em, Ep]|].
  exists w, result, w2. split_and!; [reflexivity|done| |done|done].
  pose proof (or_finish (c_id c) "APPLIED" result w2) as Ho. by rewrite Ef in Ho.
Qed.

(** Settling a queued command that is there raises nothing. *)
Lemma receipt_answers cid r c w : find_command cid (w_db w) = Some c -> exists row w', finish_command cid "APPLIED" r w = (Ok row, w').
Proof using Type.
  intros Hc. assert (Hget : forall w c, find_command cid (w_db w) = Some c -> get_command cid w = (Ok c, w)).
  { intros w0 c0 E0. unfold get_command, read, gets, mbind, ST_bind, or_raise. by rewrite E0. }
  unfold finish_command. change (command_result_status (upper "APPLIED")) with (Some C_APPLIED). cbv iota.
  assert (Ht : exists w1 c1, _transaction (
      row ← get_command cid;
      when (bool_decide (c_status row = C_QUEUED)) (
        now ← utc_now;
        update_command cid (fun c => set_c_updated_at now (set_c_result (Some (JObj r)) (set_c_status C_APPLIED c))) ;;
        mission_event (c_mission row) ("command-" +:+ lower (CommandStatus_str C_APPLIED)) [("command_id", JStr cid); ("result", JObj r)]%string)) w = (Ok tt, w1) /\
      find_command cid (w_db w1) = Some c1).
  { unfold _transaction. rewrite (bind_ok _ _ _ _ _ (Hget w c Hc)). case_bool_decide; cbn [when]; [|by exists w, c].
    unfold mission_event, _event, utc_now, update_command, write, modify, mbind, ST_bind. cbn.
    eexists _, _. split; [reflexivity|]. cbn. etrans; [by apply (find_command_update cid cid _ (w_db w))|]. by rewrite decide_True, Hc. }
  destruct Ht as (w1 & c1 & Ht & Hc1). exists c1, w1. erewrite bind_ok by exact Ht. by apply Hget.
Qed.
(** What a rejected attempt to apply a queued command comes from. *)
Lemma apply_refused m p c w e w' : find_command (c_id c) (w_db w) = Some c -> c_status c = C_QUEUED ->
  apply_queued m p (c_id c) w = (Raise e, w') -> exists w2, _apply_operator_effect m p w = (Raise e, w2).
Proof using Type.
  intros Hc Hq E. unfold apply_queued in E.
  assert (Hg : get_command (c_id c) w = (Ok c, w)) by (unfold get_command, read, gets, mbind, ST_bind, or_raise; by rewrite Hc).
  rewrite (bind_ok _ _ _ _ _ Hg), bool_decide_true in E by done. cbn [negb] in E. unfold mbind, ST_bind in E.
  destruct (_apply_operator_effect m p w) as [[result|e'] w2] eqn:Ee; [|injection E as -> <-; by exists w2]. exfalso.
  assert (Hc2 : find_command (c_id c) (w_db w2) = Some c).
  { pose proof (sc_effect m p w) as Hs. rewrite Ee in Hs. unfold dbrel, same_commands in Hs. cbn in Hs. unfold find_command in *. by rewrite Hs. }
  destruct (receipt_answers (c_id c) result c w2 Hc2) as (row & w3 & Ef). by rewrite Ef in E.
Qed.

Lemma operator_command_unfold m p c w :
  _apply_operator_command m p c w =
  (command ← enqueue_command m p c;
   if negb (bool_decide (c_status command = C_QUEUED)) then mret command
   else
     applied ← attempt (_transaction (apply_queued m p (c_id command)));
     match applied with
     | Ok row => mret row
     | Raise (RejectedOperatorCommand msg reason) =>
         _transaction (finish_command (c_id command) "REJECTED" (rejection msg reason))
     | Raise e => raise e
     end) w.
Proof using Type. reflexivity. Qed.

(** A duplicate delivery, a rejection or an applied command; or an exception. *)
Lemma command_outcome m p c w :
  match _apply_operator_command m p c w with
  | (Ok row, w') => settled_row m p row (w_db w') /\
      ((only_receipts (w_db w) (w_db w') /\ find_command (c_id row) (w_db w) = Some row) \/
       rejected_with_receipt m p row (w_db w) (w_db w') \/ effect_with_receipt m p row (w_db w) (w_db w'))
  | (Raise _, w') => only_receipts (w_db w) (w_db w')
  end.
Proof using Type.
  rewrite operator_command_unfold.
  pose proof (or_enqueue m p c w) as Hen. pose proof (before_enqueue m p c w) as Hbefore.
  destruct (enqueue_command m p c w) as [[cmd|e] w1] eqn:Een; cbn in Hen, Hbefore.
  2: { by rewrite (bind_raise _ _ _ _ _ Een). }
  rewrite (bind_ok _ _ _ _ _ Een). pose proof (enqueue_found _ _ _ _ _ _ Een) as Hc. destruct (enqueue_requested _ _ _ _ _ _ Een) as [Hreq _].
  destruct (decide (c_status cmd = C_QUEUED)) as [Hq|Hq]; [rewrite bool_decide_true by done|rewrite bool_decide_false by done]; cbn [negb].
  2: { cbn. split; [by split|left]. split; [done|by apply Hbefore]. }
  unfold attempt, mbind, ST_bind. destruct (_transaction (apply_queued m p (c_id cmd)) w1) as [[row|e] w2] eqn:Et.
  - apply transaction_inv in Et. apply applied_whole in Et as [Hs (wa & res & wb & H1 & H2 & H3 & H4)]; [|done..].
    cbn. split; [done|]. right; right. exists wa, res, wb. split_and!; [by etrans|done|done|apply H4..].
  - assert (w_db w2 = w_db w1 /\ exists w3, apply_queued m p (c_id cmd) w1 = (Raise e, w3)) as [E2 (w3 & Eq)].
    { unfold _transaction in Et. destruct (apply_queued m p (c_id cmd) w1) as [[] w3]; [done|]. injection Et as -> <-. split; [done|by exists w3]. }
    apply apply_refused in Eq as (w4 & Eq); [|done..].
    destruct e; cbn; try by rewrite E2.
    pose proof (keeps_transaction only_receipts _ (or_finish (c_id cmd) "REJECTED" (rejection msg reason_code)) w2) as Ho.
    destruct (_transaction (finish_command _ _ _) w2) as [[row|e] w5] eqn:Ef; cbn in Ho |- *; unfold dbrel in Hen, Ho; rewrite E2 in Ho; [|by etrans].
    apply transaction_inv in Ef.
    destruct (finish_settles _ "REJECTED" _ C_REJECTED cmd _ _ _ eq_refl (eq_trans (f_equal _ E2) Hc) Hq Ef) as (Hrow & Hst & Hres & Em & Ep).
    split.
    + destruct Hreq as [Hm Hp]. split_and!; [by rewrite Hst|by rewrite (find_command_id _ _ _ Hrow)|by unfold requested; rewrite Em, Ep].
    + right; left. split; [by etrans|]. split; [done|]. exists w1, w4, msg, reason_code. by split_and!.
Qed.

(** A request id that names a settled command is answered from its row. *)
Lemma redelivered m p cid row w : id_pattern cid = true -> is_Some (find_mission m (w_db w)) -> settled_row m p row (w_db w) -> c_id row = cid ->
  exists tick, _apply_operator_command m p (Some cid) w = (Ok row, World (w_db w) tick).
Proof using Type.
  intros Hp Hm (Hs & Hc & Hmc & Hj) Hid. rewrite Hid in Hc. destruct (proj1 (enqueue_known m p cid w row Hp Hc)) as [tick E]; [done|]. exists tick.
  rewrite operator_command_unfold, (bind_ok _ _ _ _ _ E). by rewrite bool_decide_false by done.
Qed.

(** A settled row stays settled. *)
Lemma settled_row_calls m p row d d' : rtc call d d' -> settled_row m p row d -> settled_row m p row d'.
Proof using Type. intros Hc (Hs & Hf & Hr). split_and!; [done| |done]. by apply (settled_calls _ _ Hc). Qed.

(** The answer to a request carries its id. *)
Lemma command_row_id m p cid w row w' : id_pattern cid = true -> _apply_operator_command m p (Some cid) w = (Ok row, w') ->
  c_id row = cid /\ is_Some (find_mission m (w_db w)).
Proof using Type.
  intros Hp E. rewrite operator_command_unfold in E. apply bind_inv in E as (c & w1 & Een & E).
  destruct (enqueue_stores _ _ _ _ _ _ Hp Een) as (Hc & Hm & _). apply find_command_id in Hc as Hid. split.
  - destruct (negb _); [by injection E as <- _|]. rewrite Hid in E. apply bind_inv in E as (r & w2 & Ea & E).
    assert (Hrow : forall s r w0 w3, finish_command cid s r w0 = (Ok row, w3) -> c_id row = cid).
    { intros s r0 w0 w3 Ef. unfold finish_command in Ef. destruct (command_result_status _); [|done].
      apply bind_inv in Ef as (? & ? & _ & Ef). apply get_command_finds in Ef as [Ef _]. by apply find_command_id in Ef. }
    destruct r as [row'|e].
    + injection E as -> ->. unfold attempt in Ea. destruct (_transaction _ w1) as [[row'|e] w3] eqn:Et; [|by injection Ea].
      injection Ea as -> ->. apply transaction_inv in Et. unfold apply_queued in Et.
      apply bind_inv in Et as (c0 & w0 & Eg & Et). apply get_command_finds in Eg as [Eg ->].
      destruct (negb _); [injection Et as <- _; by apply find_command_id in Eg|].
      apply bind_inv in Et as (? & ? & _ & Et). by eapply Hrow.
    + destruct e; try done. apply transaction_inv in E. by eapply Hrow.
  - pose proof (or_enqueue m p (Some cid) w) as Ho. rewrite Een in Ho. destruct Ho as (Ho & _). cbn in Ho. unfold find_mission in *. by rewrite Ho in Hm.
Qed.
End whole.

(** C16: A request is applied at most once.  Once a request has been answered
    under its id, delivering it again - after whatever calls other processes
    and this one made in between - returns the same row and changes
    nothing. *)
Theorem operator_command_applied_once (O : Oracle) (E : OperatorEnv) (m : string) (p : dict) (cid : string) (row : command_row)
    (w w1 w2 : world) :
  id_pattern cid = true -> _apply_operator_command m p (Some cid) w = (Ok row, w1) -> rtc call (w_db w1) (w_db w2) ->
  exists tick, _apply_operator_command m p (Some cid) w2 = (Ok row, World (w_db w2) tick).
Proof.
  intros Hp Ec Hr. pose proof (command_outcome m p (Some cid) w) as Ho. rewrite Ec in Ho. destruct Ho as [Hs _].
  destruct (command_row_id _ _ _ _ _ _ Hp Ec) as [Hid Hm]. apply redelivered; [done| |by eapply settled_row_calls|done].
  apply (known_calls m _ _ Hr). pose proof (client_operator_command m p (Some cid) w) as Hk. rewrite Ec in Hk. by apply (known_calls m _ _ Hk).
Qed.

(** ** A concrete operator *)

Definition demo_operator : OperatorEnv := {|
  iso := show_Z;
  exn_str e := match e with ValueError m | KeyError m | TransitionError m => m | _ => "error"%string end;
  str_json _ := EmptyString;
  controller_running _ _ := Ok false;
|}.
Definition demo_add : dict := [("action", JStr "task.add"); ("prompt", JStr "fourth"); ("depends_on", JList [JInt 2])]%string.

Lemma operator_command_applied_once_witness :
  exists row w1 w2 tick,
    _apply_operator_command (H := demo_oracle) (H0 := demo_operator) "m1" demo_add (Some "c-1"%string) (demo_world 8) = (Ok row, w1) /\
    c_status row = C_APPLIED /\ length (tasks (w_db w1)) = 4%nat /\ w_db w2 <> w_db w1 /\
    _apply_operator_command (H := demo_oracle) (H0 := demo_operator) "m1" demo_add (Some "c-1"%string) w2 = (Ok row, World (w_db w2) tick).
Proof.
  destruct (_apply_operator_command (H := demo_oracle) (H0 := demo_operator) "m1" demo_add (Some "c-1"%string) (demo_world 8)) as [r w1] eqn:Ec.
  assert (Hr : exists row, r = Ok row /\ c_status row = C_APPLIED /\ length (tasks (w_db w1)) = 4%nat).
  { change r with (r, w1).1. change (w_db w1) with (w_db (r, w1).2). rewrite <-Ec. eexists. split_and!; vm_compute; reflexivity. }
  destruct Hr as (row & -> & Hst & Hl). exists row, w1, (run_op (H := demo_oracle) (Op_set_mission_status "m1" "PAUSED") w1).2.
  destruct (operator_command_applied_once demo_oracle demo_operator "m1" demo_add "c-1" row (demo_world 8) w1
    (run_op (H := demo_oracle) (Op_set_mission_status "m1" "PAUSED") w1).2) as [tick E2].
  - vm_compute. reflexivity.
  - exact Ec.
  - destruct w1 as [d1 k1]. apply rtc_once. by eapply call_intro.
  - exists tick. split_and!; [done|done|done| |exact E2].
    intros Ed. apply (f_equal (fun d => m_status <$> missions d)) in Ed. revert Ed.
    change w1 with (@Ok exn _ row, w1).2. rewrite <-Ec. vm_compute. done.
Defined.
