(* ===== verification/OperatorEffects.v ===== *)
(** * What an operator's command does

    A table of the store calls each action asks for, with their arguments from
    the payload, written down independently of the code; and the theorem that
    an APPLIED command made exactly the calls of its action. *)

From S2P Require Import Prelude Py Vocab States StoreData StoreTasks StoreOps StoreReview StoreLog StoreApi StoreDemo StoreKeys StoreLogs StoreSpecs StoreRounds StoreStarts StoreClient Operator OperatorLaws.
From stdpp Require Import options.
Local Open Scope Z_scope.

(** ** What is asked for *)

Section asked.
Context `{Oracle} `{OperatorEnv}.

Definition int_at (key : string) (p : dict) (z : Z) : Prop := exists j, dget key p = Some j /\ py_int j = Ok z.
Definition int_or (key : string) (d : Z) (p : dict) (z : Z) : Prop := match dget key p with Some j => py_int j = Ok z | None => z = d end.
Definition opt_int_at (key : string) (p : dict) (o : option Z) : Prop :=
  match dget key p with None | Some JNull => o = None | Some j => exists z, py_int j = Ok z /\ o = Some z end.
Definition ints_at (key : string) (p : dict) (l : list Z) : Prop :=
  exists js, items_of (default (JList []) (dget key p)) = Ok js /\ map_result py_int js = Ok l.
Definition texts_at (key : string) (p : dict) (l : list string) : Prop :=
  exists js, items_of (default (JList []) (dget key p)) = Ok js /\ l = text_of <$> js.
(** A task of the mission. *)
Definition own (m : string) (d : database) (t : Z) (row : task_row) : Prop := find_task t d = Some row /\ t_mission row = m.

Inductive steered (m : string) (p : dict) (d : database) : string -> list op -> Prop :=
  | steered_replace t row : int_at "task_id" p t -> own m d t row -> get_text "prompt" p <> EmptyString ->
      steered m p d "replace" [Op_amend_task t (Changes (Some (get_text "prompt" p)) None None None)]
  | steered_review t row prompt : int_at "task_id" p t -> own m d t row -> (strip (get_text "prompt" p) <> EmptyString -> prompt = strip (get_text "prompt" p)) ->
      steered m p d "review" [Op_add_task m prompt ("Review: " +:+ t_title row) (t_priority row + 1) None [t]
        ["Record review findings and identify any unmet acceptance criteria."]%string]
  | steered_verify t row mi requests : int_at "task_id" p t -> own m d t row -> t_status row ∈ [T_RUNNING; T_VERIFYING] ->
      find_mission m d = Some mi -> ints_at "verification_requests" (m_config mi) requests ->
      steered m p d "verify" [Op_set_mission_config_value m "verification_requests"
        (JList (JInt <$> (select (fun z => negb (z =? t)) requests ++ [t]))) "steering-verify-requested"]
  | steered_pause : steered m p d "pause-after-iteration"
      [Op_set_mission_config_value m "pause_after_iteration" (JBool true) "steering-pause-requested"]
  | steered_stop t row : int_at "task_id" p t -> own m d t row ->
      steered m p d "stop-after-task" [Op_set_mission_config_value m "stop_after_task" (JInt t) "steering-stop-task-requested"]
  | steered_handoff : strip (get_text "route" p) <> EmptyString ->
      steered m p d "handoff" [Op_set_mission_config_value m "handoff_preference" (JStr (strip (get_text "route" p))) "steering-handoff-requested"].

(** The calls an action of a mission asks for, in a database. *)
Inductive asked (m : string) (p : dict) (d : database) : string -> list op -> Prop :=
  | asked_pause mi : find_mission m d = Some mi ->
      asked m p d "pause" (if is_in (m_status mi) [M_RUNNING; M_PAUSED] then [Op_set_mission_status m "PAUSED"] else [])
  | asked_resume : asked m p d "resume" [Op_set_mission_status m "RUNNING"]
  | asked_continue : asked m p d "continue" [Op_release_review_hold m]
  | asked_stop mi : find_mission m d = Some mi -> m_status mi = M_RUNNING \/ m_status mi = M_PAUSED /\ (exists n, controller_running n m = Ok true) ->
      asked m p d "stop" [Op_set_mission_status m "STOPPING"]
  | asked_stop_idle mi : find_mission m d = Some mi -> m_status mi <> M_RUNNING -> (m_status mi = M_PAUSED -> exists n, controller_running n m = Ok false) ->
      asked m p d "stop" []
  | asked_cancel mi : find_mission m d = Some mi ->
      asked m p d "cancel" ((if is_in (m_status mi) [M_COMPLETED; M_CANCELLED] then [] else [Op_set_mission_status m "CANCELLED"]) ++
        ((fun t => Op_set_task_status (t_id t) "CANCELLED") <$>
           select (fun t => negb (is_in (t_status t) [T_COMPLETED; T_CANCELLED])) (sort_by list_order (mission_tasks m d))))
  | asked_verify t row : int_at "task_id" p t -> own m d t row ->
      let approved := truthy_opt (dget "approved" p) in
      asked m p d "task.verify" [Op_verify_task t (get_text "evidence" p) approved "operator" [] (negb approved)]
  | asked_reject t row : int_at "task_id" p t -> own m d t row ->
      asked m p d "task.reject" [Op_reject_task t (get_text "reason" p) "operator"]
  | asked_decision t row : int_at "task_id" p t -> own m d t row ->
      asked m p d "task.proposal-decision" [Op_decide_proposal m t (truthy_opt (dget "accept" p)) (get_text "reason" p)]
  | asked_amend t row j : int_at "task_id" p t -> own m d t row -> dget "prompt" p = Some j ->
      asked m p d "task.amend" [Op_amend_task t (Changes (Some (text_of j)) None None None)]
  | asked_pause_task t row : int_at "task_id" p t -> own m d t row -> asked m p d "task.pause" [Op_set_task_status t "PAUSED"]
  | asked_resume_task t row action : int_at "task_id" p t -> own m d t row -> action ∈ ["task.resume"; "task.retry"]%string ->
      asked m p d action [Op_set_task_status t "QUEUED"; Op_ready_tasks m (Some 0)]
  | asked_cancel_task t row : int_at "task_id" p t -> own m d t row -> asked m p d "task.cancel" [Op_set_task_status t "CANCELLED"]
  | asked_priority t row z : int_at "task_id" p t -> own m d t row -> int_at "priority" p z ->
      asked m p d "task.priority" [Op_set_task_priority t z]
  | asked_reorder t row z : int_at "task_id" p t -> own m d t row -> int_at "order" p z ->
      asked m p d "task.reorder" [Op_reorder_task t z]
  | asked_dependency t row t' row' : int_at "task_id" p t -> own m d t row -> int_at "depends_on" p t' -> own m d t' row' ->
      asked m p d "task.dependency" [Op_add_dependency m t t']
  | asked_view : strip (get_text "station" p) <> EmptyString ->
      asked m p d "station.view" [Op_set_mission_config_value m "viewed_station" (JStr (strip (get_text "station" p))) "station-viewed"]
  | asked_add j priority order depends_on acceptance : dget "prompt" p = Some j -> int_or "priority" 0 p priority -> opt_int_at "order" p order ->
      ints_at "depends_on" p depends_on -> texts_at "acceptance" p acceptance ->
      asked m p d "task.add" [Op_add_task m (text_of j) (get_text "title" p) priority order depends_on acceptance]
  | asked_propose priority depends_on acceptance : int_or "priority" 0 p priority -> ints_at "depends_on" p depends_on -> texts_at "acceptance" p acceptance ->
      asked m p d "task.propose" [Op_propose_task m (get_text "prompt" p) (get_text "source_operation_id" p) (get_text "title" p) priority depends_on acceptance]
  | asked_steer calls : steered m p d (lower (strip (get_text "kind" p))) calls -> asked m p d "steer" calls.

(** These calls were made one after the other and all succeeded; nothing else
    changed the database. *)
Inductive made : list op -> world -> world -> Prop :=
  | made_nil w w' : w_db w' = w_db w -> made [] w w'
  | made_cons o l w w1 w2 w' : w_db w1 = w_db w -> run_op o w1 = (Ok tt, w2) -> made l w2 w' -> made (o :: l) w w'.

Lemma made_here l w w1 w' : w_db w1 = w_db w -> made l w1 w' -> made l w w'.
Proof. intros E Hm. destruct Hm as [w1 w' E'|o l w1 w2 w3 w' E' Hr Hm]; [constructor; congruence|econstructor; [|exact Hr|exact Hm]; congruence]. Qed.
Lemma made_app l1 l2 w w1 w' : made l1 w w1 -> made l2 w1 w' -> made (l1 ++ l2) w w'.
Proof. induction 1 as [w w1 E|o l w w2 w3 w1 E Hr _ IH]; intros Hm; [by eapply made_here|]. econstructor; [exact E|exact Hr|by apply IH]. Qed.
End asked.

(** ** What a computation does *)

Section doing.
Context `{Oracle} `{OperatorEnv}.
Local Abbreviation reads := (keeps (dbrel eq)).

(** In the database [d] a computation that succeeds has only read, with an
    answer of this kind; has made exactly these calls; has made such calls. *)
Definition looks {A} (d : database) (m : DB A) (Q : A -> Prop) : Prop :=
  forall w a w', w_db w = d -> m w = (Ok a, w') -> w_db w' = d /\ Q a.
Definition makes {A} (m : DB A) (l : list op) : Prop := forall w a w', m w = (Ok a, w') -> made l w w'.
Definition does {A} (d : database) (m : DB A) (P : list op -> Prop) : Prop :=
  forall w a w', w_db w = d -> m w = (Ok a, w') -> exists l, made l w w' /\ P l.

Lemma reads_db {A} (m : DB A) w r w' : reads m -> m w = (r, w') -> w_db w' = w_db w.
Proof using Type. intros Hm E. specialize (Hm w). by rewrite E in Hm. Qed.

Lemma looks_reads {A} d (m : DB A) : reads m -> looks d m (fun _ => True).
Proof using Type. intros Hm w a w' <- E. split; [by eapply reads_db|done]. Qed.
Lemma looks_lift {A} d (r : result exn A) : looks d (lift_result r) (fun a => r = Ok a).
Proof using Type. intros w a w' <- [= -> <-]. done. Qed.
Lemma looks_read {A} d (f : database -> A) : looks d (read f) (fun a => a = f d).
Proof using Type. intros w a w' <- [= <- <-]. done. Qed.
Lemma looks_raise_if d b (e : exn) : looks d (raise_if b e) (fun _ => b = false).
Proof using Type. intros w a w' <-. unfold raise_if. destruct b; [done|]. intros [= _ <-]. done. Qed.
Lemma looks_ret {A} d (a : A) : looks d (mret a) (fun x => x = a).
Proof using Type. intros w x w' <- [= <- <-]. done. Qed.
Lemma looks_bind {A B} d (m : DB A) (f : A -> DB B) Q R : looks d m Q -> (forall a, Q a -> looks d (f a) R) -> looks d (m ≫= f) R.
Proof using Type. intros Hm Hf w b w' Ew E. apply bind_inv in E as (a & w1 & E1 & E2). destruct (Hm _ _ _ Ew E1) as [Ed HQ]. by eapply Hf. Qed.
Lemma looks_mono {A} d (m : DB A) (Q R : A -> Prop) : (forall a, Q a -> R a) -> looks d m Q -> looks d m R.
Proof using Type. intros Hi Hm w a w' Ew E. destruct (Hm _ _ _ Ew E). auto. Qed.

Lemma makes_op o : makes (run_op o) [o].
Proof using Type. intros w [] w' E. econstructor; [reflexivity|exact E|by constructor]. Qed.
Lemma makes_ignored {A} o (m : DB A) : run_op o = ignore m -> makes m [o].
Proof using Type.
  intros Eo w a w' E. econstructor; [reflexivity| |by constructor]. rewrite Eo. unfold ignore. by rewrite (bind_ok _ _ _ _ _ E).
Qed.
Lemma makes_reads {A} (m : DB A) : reads m -> makes m [].
Proof using Type. intros Hm w a w' E. constructor. by eapply reads_db. Qed.
Lemma makes_bind {A B} (m : DB A) (f : A -> DB B) l1 l2 : makes m l1 -> (forall a, makes (f a) l2) -> makes (m ≫= f) (l1 ++ l2).
Proof using Type. intros Hm Hf w b w' E. apply bind_inv in E as (a & w1 & E1 & E2). eapply made_app; [by eapply Hm|by eapply Hf]. Qed.
Lemma makes_then {A B} (m : DB A) (f : A -> DB B) l : makes m l -> (forall a, reads (f a)) -> makes (m ≫= f) l.
Proof using Type. intros Hm Hf. rewrite <-(app_nil_r l). apply makes_bind; [done|]. intros a. by apply makes_reads. Qed.
Lemma makes_when b (m : DB unit) l : makes m l -> makes (when b m) (if b then l else []).
Proof using Type. intros Hm. destruct b; [done|]. apply makes_reads. apply keeps_ret. exact _. Qed.
Lemma makes_for_each {A} (f : A -> DB unit) (g : A -> list op) l : (forall x, makes (f x) (g x)) -> makes (for_each l f) (l ≫= g).
Proof using Type.
  intros Hf. induction l as [|x l IH]; cbn [for_each]; [apply makes_reads, keeps_ret; exact _|].
  change ((x :: l) ≫= g) with (g x ++ (l ≫= g)). by apply makes_bind.
Qed.

Lemma does_look {A B} d (m : DB A) (f : A -> DB B) Q P : looks d m Q -> (forall a, Q a -> does d (f a) P) -> does d (m ≫= f) P.
Proof using Type.
  intros Hm Hf w b w' Ew E. apply bind_inv in E as (a & w1 & E1 & E2). destruct (Hm _ _ _ Ew E1) as [Ed HQ].
  destruct (Hf a HQ _ _ _ Ed E2) as (l & Hl & HP). exists l. split; [|done]. eapply made_here; [|exact Hl]. congruence.
Qed.
Lemma does_makes {A} d (m : DB A) l (P : list op -> Prop) : makes m l -> P l -> does d m P.
Proof using Type. intros Hm HP w a w' _ E. exists l. split; [by eapply Hm|done]. Qed.
Lemma does_raise {A} d e P : does (A := A) d (raise e) P.
Proof using Type. by intros w a w' _ E. Qed.
Lemma does_reads {A} d (m : DB A) (P : list op -> Prop) : reads m -> P [] -> does d m P.
Proof using Type. intros Hm. apply does_makes. by apply makes_reads. Qed.
Lemma does_if {A} d (b : bool) (m1 m2 : DB A) P : (b = true -> does d m1 P) -> (b = false -> does d m2 P) -> does d (if b then m1 else m2) P.
Proof using Type. destruct b; auto. Qed.
End doing.

(** ** The effects *)

Section effects.
Context `{Oracle} `{OperatorEnv}.
Local Abbreviation reads := (keeps (dbrel eq)).

Lemma reads_get_mission m : reads (get_mission m).
Proof using Type. unfold get_mission, _mission_row. solve_db_keeps. Qed.
Lemma reads_get_task t : reads (get_task t).
Proof using Type. unfold get_task, _task_row. solve_db_keeps. Qed.
Lemma reads_attempt_task t : reads (attempt (get_task t)).
Proof using Type. apply keeps_attempt, reads_get_task. Qed.
Lemma reads_list_tasks m l o : reads (list_tasks m l o).
Proof using Type. unfold list_tasks, _mission_row. solve_db_keeps. Qed.
Lemma reads_answer {A} (f : nat -> A) : reads (answer_of f).
Proof using Type. by intros w. Qed.
#[local] Hint Resolve reads_get_mission reads_get_task reads_attempt_task reads_list_tasks reads_answer : py_keeps.
Lemma reads_require m t : reads (_require_task m t).
Proof using Type. unfold _require_task. solve_db_keeps. Qed.
#[local] Hint Resolve reads_require : py_keeps.
Lemma reads_native mi : reads (_native_provider_running mi).
Proof using Type. unfold _native_provider_running. solve_db_keeps. Qed.
Lemma reads_number r : reads (number_result r).
Proof using Type. unfold number_result. solve_db_keeps. Qed.
#[local] Hint Resolve reads_native reads_number : py_keeps.

Lemma looks_get_mission d m : looks d (get_mission m) (fun mi => find_mission m d = Some mi).
Proof using Type.
  intros w mi w' <- E. unfold get_mission, _mission_row in E. apply bind_inv in E as (o & w1 & [= <- <-] & E).
  destruct (find_mission m (w_db w)) as [mi'|]; [|done]. by injection E as <- <-.
Qed.
Lemma looks_get_task d t : looks d (get_task t) (fun td => find_task t d = Some (td_row td)).
Proof using Type.
  intros w td w' <- E. unfold get_task, _task_row in E. apply bind_inv in E as (row & w1 & E1 & [= <- <-]).
  apply bind_inv in E1 as (o & w2 & [= <- <-] & E1). destruct (find_task t (w_db w)) as [row'|] eqn:Ht; [|done].
  by injection E1 as <- <-.
Qed.
Lemma looks_require d m t : looks d (_require_task m t) (fun td => own m d t (td_row td)).
Proof using Type.
  intros w td w' <- E. unfold _require_task in E. apply bind_inv in E as (found & w1 & E1 & E). unfold attempt in E1.
  destruct (get_task t w) as [r w2] eqn:Eg. injection E1 as <- <-. destruct r as [td'|e].
  - destruct (looks_get_task (w_db w) t w td' w2 eq_refl Eg) as [Ed Ht]. apply bind_inv in E as ([] & w3 & E3 & [= <- <-]).
    destruct (looks_raise_if (w_db w) _ _ _ _ _ Ed E3) as [Ed3 Hm%negb_false_iff%bool_decide_eq_true]. by repeat split.
  - by destruct e.
Qed.
Lemma looks_int d key p : looks d (get_int key p) (int_at key p).
Proof using Type.
  eapply looks_mono, looks_lift. intros z Ez. unfold item in Ez. destruct (dget key p) as [j|] eqn:Ej; [|done]. by exists j.
Qed.
Lemma looks_int_or d key z0 p : looks d (get_int_or key z0 p) (int_or key z0 p).
Proof using Type. eapply looks_mono, looks_lift. intros z Ez. unfold int_or. destruct (dget key p); [done|by injection Ez as ->]. Qed.
Lemma looks_opt_int d key p : looks d (get_opt_int key p) (opt_int_at key p).
Proof using Type.
  unfold get_opt_int, opt_int_at. destruct (dget key p) as [j|]; [|apply looks_ret].
  destruct j; try apply looks_ret; (eapply looks_bind; [apply looks_lift|]; intros y Ey; eapply looks_mono, looks_ret; intros o ->; by exists y).
Qed.
Lemma looks_ints d key p : looks d (get_ints key p) (ints_at key p).
Proof using Type.
  eapply looks_mono, looks_lift. intros l El. unfold ints_at. destruct (items_of _) as [js|e]; [|done]. by exists js.
Qed.
Lemma looks_texts d key p : looks d (get_texts key p) (texts_at key p).
Proof using Type. eapply looks_bind; [apply looks_lift|]. intros js Ej. eapply looks_mono, looks_ret. intros l ->. by exists js. Qed.

(** One step through an effect: what it reads is known afterwards; a call is
    one the table asks for; nothing but reading follows. *)
Ltac look :=
  lazymatch goal with
  | |- does _ (get_mission _ ≫= _) _ => eapply does_look; [apply looks_get_mission|cbv beta; intros ? ?]
  | |- does _ (_require_task _ _ ≫= _) _ => eapply does_look; [apply looks_require|cbv beta; intros ? ?]
  | |- does _ (get_int _ _ ≫= _) _ => eapply does_look; [apply looks_int|intros ? ?]
  | |- does _ (get_int_or _ _ _ ≫= _) _ => eapply does_look; [apply looks_int_or|intros ? ?]
  | |- does _ (get_opt_int _ _ ≫= _) _ => eapply does_look; [apply looks_opt_int|intros ? ?]
  | |- does _ (get_ints _ _ ≫= _) _ => eapply does_look; [apply looks_ints|intros ? ?]
  | |- does _ (get_texts _ _ ≫= _) _ => eapply does_look; [apply looks_texts|intros ? ?]
  | |- does _ (raise_if _ _ ≫= _) _ => eapply does_look; [apply looks_raise_if|cbv beta; intros _ ?]
  | |- does _ (lift_result _ ≫= _) _ => eapply does_look; [apply looks_lift|cbv beta; intros ? ?]
  | |- does _ (let x := _ in _) _ => cbv zeta
  end.
Ltac asked o := eapply (does_makes _ _ [o]); [apply makes_then; [first [apply (makes_op o)|apply (makes_ignored o); reflexivity]|intros; solve_db_keeps]|].
Ltac action E := case_bool_decide as E; [try subst|].

Lemma item_given key p j : item key p = Ok j -> dget key p = Some j.
Proof using Type. unfold item. destruct (dget key p); [by intros [= ->]|done]. Qed.

Lemma does_task m p d action : action ∈ TASK_ACTIONS -> does d (task_effect m action p) (asked m p d action).
Proof using Type.
  intros Ha. unfold task_effect. look. look.
  action E1. { asked (Op_verify_task a (get_text "evidence" p) (truthy_opt (dget "approved" p)) "operator" [] (negb (truthy_opt (dget "approved" p)))). by eapply asked_verify. }
  action E2. { asked (Op_reject_task a (get_text "reason" p) "operator"). by eapply asked_reject. }
  action E3. { asked (Op_decide_proposal m a (truthy_opt (dget "accept" p)) (get_text "reason" p)). by eapply asked_decision. }
  action E4. { look. asked (Op_amend_task a (Changes (Some (text_of a1)) None None None)). eapply asked_amend; eauto using item_given. }
  action E5. { asked (Op_set_task_status a "PAUSED"). by eapply asked_pause_task. }
  action E6.
  { eapply (does_makes _ _ ([Op_set_task_status a "QUEUED"] ++ [Op_ready_tasks m (Some 0)])).
    - apply makes_bind; [by apply (makes_ignored (Op_set_task_status a "QUEUED"))|]. intros _.
      apply makes_then; [by apply (makes_ignored (Op_ready_tasks m (Some 0)))|intros _; solve_db_keeps].
    - by eapply asked_resume_task. }
  action E7. { asked (Op_set_task_status a "CANCELLED"). by eapply asked_cancel_task. }
  action E8. { look. asked (Op_set_task_priority a a1). by eapply asked_priority. }
  action E9. { look. asked (Op_reorder_task a a1). by eapply asked_reorder. }
  assert (action = "task.dependency"%string) as -> by (unfold TASK_ACTIONS in *; set_solver).
  look. look. asked (Op_add_dependency m a a1). by eapply asked_dependency.
Qed.

Lemma given_text s : negb (truthy_str s) = false -> s <> EmptyString.
Proof using Type. by intros Hs%negb_false_iff%negb_true_iff%bool_decide_eq_false. Qed.
Lemma does_view m p d : does d (view_effect m p) (asked m p d "station.view").
Proof using Type.
  unfold view_effect. cbv zeta. look. apply orb_false_iff in H1 as [Hs%given_text _]. look. cbv zeta. look.
  asked (Op_set_mission_config_value m "viewed_station" (JStr (strip (get_text "station" p))) "station-viewed").
  by apply asked_view.
Qed.
Lemma does_add m p d : does d (add_effect m p) (asked m p d "task.add").
Proof using Type.
  unfold add_effect. do 6 look. asked (Op_add_task m (text_of a0) (get_text "title" p) a1 a2 a3 a4).
  apply asked_add; eauto using item_given.
Qed.
Lemma does_propose m p d : does d (propose_effect m p) (asked m p d "task.propose").
Proof using Type.
  unfold propose_effect. do 3 look.
  asked (Op_propose_task m (get_text "prompt" p) (get_text "source_operation_id" p) (get_text "title" p) a a0 a1). by apply asked_propose.
Qed.

Lemma steer_at_task d m (o : option Z) :
  looks d (match o with Some i => t ← _require_task m i; mret (Some t) | None => mret None end)
    (fun task => match o, task with Some i, Some td => own m d i (td_row td) | None, None => True | _, _ => False end).
Proof using Type.
  destruct o as [i|]; [|eapply looks_mono, looks_ret; by intros ? ->].
  eapply looks_bind; [apply looks_require|]. intros td Htd. eapply looks_mono, looks_ret. by intros ? ->.
Qed.
Lemma opt_int_some key p i : opt_int_at key p (Some i) -> int_at key p i.
Proof using Type. unfold opt_int_at, int_at. destruct (dget key p) as [j|]; [|done]. intros Hj. exists j. split; [done|]. destruct j; try done; by destruct Hj as (? & ? & [= ->]). Qed.

Lemma does_steer_task m p d kind i row : kind ∈ ["replace"; "review"; "verify"; "stop-after-task"]%string -> int_at "task_id" p i -> own m d i row ->
  does d (steer_with_task m kind i row p) (steered m p d kind).
Proof using Type.
  intros Hk Hi Ho. unfold steer_with_task. cbv zeta.
  action E1.
  { look. asked (Op_amend_task i (Changes (Some (get_text "prompt" p)) None None None)). eapply steered_replace; [done..|by apply given_text]. }
  action E2.
  { eapply does_makes; [apply makes_then; [by eapply makes_ignored, (eq_refl (run_op (Op_add_task _ _ _ _ _ _ _)))|intros; solve_db_keeps]|].
    eapply steered_review; [done..|]. intros Hs. unfold truthy_str. by rewrite bool_decide_false. }
  action E3.
  { look. look. look. look. apply negb_false_iff in H3. asked (Op_set_mission_config_value m "verification_requests" (JList (JInt <$> (select (fun z => negb (z =? i)) a0 ++ [i]))) "steering-verify-requested").
    eapply steered_verify; [done..|by apply is_in_true|done|done]. }
  assert (kind = "stop-after-task"%string) as -> by set_solver.
  asked (Op_set_mission_config_value m "stop_after_task" (JInt i) "steering-stop-task-requested"). by eapply steered_stop.
Qed.
Lemma does_steer m p d : does d (steer m p) (asked m p d "steer").
Proof using Type.
  intros w a w' Ew E. enough (Hs : does d (steer m p) (steered m p d (lower (strip (get_text "kind" p))))).
  { destruct (Hs _ _ _ Ew E) as (l & Hl & HP). exists l. split; [done|]. by apply asked_steer. }
  clear. unfold steer. cbv zeta. set (kind := lower (strip (get_text "kind" p))). look. apply negb_false_iff, bool_decide_eq_true in H1.
  look. look. clear H3. eapply does_look; [apply steer_at_task|cbv beta; intros task Htask].
  action E1. { asked (Op_set_mission_config_value m "pause_after_iteration" (JBool true) "steering-pause-requested"). rewrite E1. apply steered_pause. }
  action E2.
  { look. look. look. asked (Op_set_mission_config_value m "handoff_preference" (JStr (strip (get_text "route" p))) "steering-handoff-requested").
    rewrite E2. apply steered_handoff. by apply given_text. }
  destruct a as [i|], task as [td|]; try apply does_raise.
  apply does_steer_task; [unfold STEER_KINDS in *; set_solver|by apply opt_int_some|done].
Qed.

(** Setting a mission's status leaves the tasks. *)
Definition tasks_left (d d' : database) : Prop := tasks d' = tasks d.
#[export] Instance tasks_left_preorder : PreOrder tasks_left.
Proof. split; unfold tasks_left; [intros d; done|intros d d1 d2; congruence]. Qed.
Lemma mission_status_tasks m s : keeps (dbrel tasks_left) (set_mission_status m s).
Proof using Type.
  assert (He : forall k data, keeps (dbrel tasks_left) (mission_event m k data)) by (intros k data; unfold mission_event, _event; apply keeps_bind; [exact _|apply keeps_utc_now; exact _|]; intros; apply keeps_write; [exact _|done]).
  assert (Hu : forall s now, keeps (dbrel tasks_left) (update_mission_status m s now)).
  { intros. apply keeps_statement; [exact _|]. intros ? ? ?. cbn. repeat case_match; by intros [= <- <-]. }
  unfold set_mission_status, _mission_row. solve_db_keeps.
Qed.
Lemma looks_list_tasks d m : looks d (list_tasks m None 0) (fun l => td_row <$> l = sort_by list_order (mission_tasks m d)).
Proof using Type.
  eapply looks_bind; [apply looks_get_mission|]. intros mi _. eapply looks_mono, looks_read. intros l ->. apply td_row_task_dicts.
Qed.
Lemma unfinished_calls (l : list task_dict) :
  (l ≫= fun t => if negb (is_in (t_status (td_row t)) FINISHED_TASK_STATUSES) then [Op_set_task_status (t_id (td_row t)) "CANCELLED"] else []) =
  (fun t => Op_set_task_status (t_id t) "CANCELLED") <$> select (fun t => negb (is_in (t_status t) FINISHED_TASK_STATUSES)) (td_row <$> l).
Proof using Type. induction l as [|t l IH]; [done|]. cbn. rewrite IH. by destruct (is_in _ _). Qed.

Lemma does_cancel m p d : does d (control_effect m "cancel") (asked m p d "cancel").
Proof using Type.
  unfold control_effect. rewrite !bool_decide_eq_false_2 by done. eapply does_look; [apply looks_read|cbv beta; intros active _]. look.
  intros w r w' Ew E. apply bind_inv in E as ([] & w1 & E1 & E).
  assert (Ht : tasks (w_db w1) = tasks d).
  { rewrite <-Ew. refine (_ : dbrel tasks_left w w1). replace w1 with (@Ok exn _ tt, w1).2 by done. rewrite <-E1.
    apply keeps_when; [exact _|]. apply mission_status_tasks. }
  pose proof (makes_when _ _ _ (makes_op (Op_set_mission_status m "CANCELLED")) _ _ _ E1) as Hm.
  apply bind_inv in E as (l & w2 & E2 & E). destruct (looks_list_tasks _ _ _ _ _ eq_refl E2) as [Ed Hl].
  apply (makes_then _ _ _ (makes_for_each _ _ l (fun x => makes_when _ _ _ (makes_op (Op_set_task_status (t_id (td_row x)) "CANCELLED"))))) in E.
  2: { intros _. solve_db_keeps. }
  eexists. split; [eapply made_app; [exact Hm|eapply made_here; [exact Ed|exact E]]|].
  rewrite unfinished_calls, Hl. unfold mission_tasks. rewrite Ht.
  replace (if negb (is_in (m_status a) FINISHED_MISSION_STATUSES) then _ else _) with
    (if is_in (m_status a) [M_COMPLETED; M_CANCELLED] then [] else [Op_set_mission_status m "CANCELLED"]) by (by destruct (m_status a)).
  by eapply asked_cancel.
Qed.

Lemma does_pause m p d : does d (control_effect m "pause") (asked m p d "pause").
Proof using Type.
  unfold control_effect. rewrite bool_decide_eq_true_2 by done. look. cbv zeta.
  pose proof (asked_pause m p d a H1) as Ha. change [M_RUNNING; M_PAUSED] with STARTED_MISSION_STATUSES in Ha.
  destruct (is_in (m_status a) STARTED_MISSION_STATUSES); cbn [negb].
  - by asked (Op_set_mission_status m "PAUSED").
  - apply does_reads; [solve_db_keeps|done].
Qed.
Lemma looks_running d m s :
  looks d (if bool_decide (s = M_PAUSED) then found ← answer_of (fun n => controller_running n m); lift_result found else mret true)
    (fun running => if bool_decide (s = M_PAUSED) then exists n, controller_running n m = Ok running else running = true).
Proof using Type.
  case_bool_decide; [|apply looks_ret]. intros w a w' <- E. apply bind_inv in E as (found & w1 & [= <- <-] & [= E <-]). split; [done|by eexists].
Qed.
Lemma does_stop m p d : does d (control_effect m "stop") (asked m p d "stop").
Proof using Type.
  unfold control_effect. rewrite !(bool_decide_eq_false_2 (_ = _)), bool_decide_eq_true_2 by done. look. cbv zeta.
  eapply does_look; [apply looks_running|cbv beta; intros running Hr].
  destruct (is_in (m_status a) [M_CREATED; M_STOPPED] || _) eqn:Eidle.
  - apply does_reads; [solve_db_keeps|]. eapply asked_stop_idle; [done| |].
    + intros Es. by rewrite Es in Eidle.
    + intros Es. rewrite Es in Eidle, Hr. cbn in Eidle, Hr. apply negb_true_iff in Eidle as ->. done.
  - destruct (is_in (m_status a) STARTED_MISSION_STATUSES) eqn:Es; cbn [when].
    + asked (Op_set_mission_status m "STOPPING"). eapply asked_stop; [done|]. destruct (m_status a); try done; [by left|].
      cbn in Eidle, Hr. apply negb_false_iff in Eidle as ->. by right.
    + apply does_reads; [solve_db_keeps|]. eapply asked_stop_idle; [done|..]; intros E; by rewrite E in Es.
Qed.
Lemma does_control m p d action : action ∈ CONTROL_ACTIONS -> does d (control_effect m action) (asked m p d action).
Proof using Type.
  intros Ha. unfold CONTROL_ACTIONS in Ha. repeat apply elem_of_cons in Ha as [->|Ha]; [..|by apply not_elem_of_nil in Ha].
  - apply does_pause.
  - asked (Op_set_mission_status m "RUNNING"). apply asked_resume.
  - asked (Op_release_review_hold m). apply asked_continue.
  - apply does_stop.
  - apply does_cancel.
Qed.

(** An effect that succeeds has made the calls its action asks for. *)
Lemma effect_does m p d : does d (effect m p) (asked m p d (get_text "action" p)).
Proof using Type.
  unfold effect. cbv zeta. remember (get_text "action" p) as action eqn:Ea. clear Ea.
  action E1; [by apply does_control|]. action E2; [by apply does_task|]. action E3; [apply does_view|].
  action E4; [apply does_steer|]. action E5; [apply does_add|]. action E6; [apply does_propose|].
  apply does_raise.
Qed.
End effects.

(** ** The expected revision and the rejections *)

Section rejections.
Context `{Oracle} `{OperatorEnv}.
Local Abbreviation reads := (keeps (dbrel eq)).

(** The payload expects no revision, or the one the task has; or another. *)
Inductive revision_met (m : string) (p : dict) (d : database) : Prop :=
  | revision_free : dget "expected_revision" p ∈ [None; Some JNull] -> revision_met m p d
  | revision_equal t row : int_at "task_id" p t -> own m d t row -> int_at "expected_revision" p (t_revision row) -> revision_met m p d.
Inductive revision_stale (m : string) (p : dict) (d : database) : Prop :=
  | revision_other t row z : int_at "task_id" p t -> own m d t row -> int_at "expected_revision" p z -> z <> t_revision row -> revision_stale m p d.

(** What an exception says in a rejection: any message with no reason for the
    ones that reject a command. *)
Definition told (e : exn) (msg : string) (reason : option string) : Prop :=
  if rejects e then msg = exn_str e /\ reason = None else e = RejectedOperatorCommand msg reason.
(** Why a command is rejected: a stale revision, or an exception of the
    checks or of the effect. *)
Definition refused (m : string) (p : dict) (w : world) (msg : string) (reason : option string) : Prop :=
  (revision_stale m p (w_db w) /\ reason = Some "conflict"%string) \/
  (exists e w', (_check_expected_revision m p w).1 = Raise e /\ told e msg reason \/
     revision_met m p (w_db w) /\ w_db w' = w_db w /\ (effect m p w').1 = Raise e /\ told e msg reason).

Lemma looks_check d m p : looks d (_check_expected_revision m p)
  (fun o => match o with Some _ => revision_stale m p d | None => revision_met m p d end).
Proof using Type.
  unfold _check_expected_revision. destruct (dget "expected_revision" p) as [j|] eqn:Ej.
  2: { eapply looks_mono, looks_ret. intros o ->. apply revision_free. rewrite Ej. set_solver. }
  destruct (decide (j = JNull)) as [->|Hj]; [eapply looks_mono, looks_ret; intros o ->; apply revision_free; rewrite Ej; set_solver|].
  destruct j; try done; (eapply looks_bind; [apply looks_int|]; intros t Ht; eapply looks_bind; [apply looks_require|]; cbv beta; intros td Htd;
    eapply looks_bind; [apply looks_lift|]; cbv beta; intros y Ey; eapply looks_mono, looks_ret; intros o ->; destruct (Z.eqb_spec y (t_revision (td_row td)));
    [eapply revision_equal; [done..|]; eexists; split; [exact Ej|congruence]|eapply revision_other; [done..| |done]; eexists; by split]).
Qed.
Lemma number_never_raises r w e : (number_result r w).1 <> Raise e.
Proof using Type. unfold number_result. destruct (dget "ordinal" r); [done|]. destruct (dget "task_id" r) as [[]|]; done. Qed.

(** The two outcomes of the effect inside the transaction. *)
Lemma applied_effect m p w result w' : _apply_operator_effect m p w = (Ok result, w') ->
  exists calls, made calls w w' /\ asked m p (w_db w) (get_text "action" p) calls /\ revision_met m p (w_db w).
Proof using Type.
  unfold _apply_operator_effect. intros E. apply bind_inv in E as (r & w1 & E1 & E). unfold attempt in E1.
  match type of E1 with context [?run w] => destruct (run w) as [r' w2] eqn:E2 end. injection E1 as <- <-. destruct r' as [result'|e]; [|by destruct (rejects e)]. injection E as <- <-.
  apply bind_inv in E2 as (stale & w3 & E3 & E2). destruct (looks_check _ _ _ _ _ _ eq_refl E3) as [Ed Hs].
  destruct stale as [msg|]; [done|]. apply bind_inv in E2 as (r0 & w4 & E4 & E5).
  destruct (effect_does m p (w_db w) _ _ _ Ed E4) as (l & Hl & Ha). exists l. split_and!; [|done|done].
  eapply made_here; [exact Ed|]. rewrite <-(app_nil_r l). eapply made_app; [exact Hl|]. constructor.
  eapply reads_db; [apply reads_number|exact E5].
Qed.
Lemma refused_effect m p w msg reason w' : _apply_operator_effect m p w = (Raise (RejectedOperatorCommand msg reason), w') -> refused m p w msg reason.
Proof using Type.
  unfold _apply_operator_effect. intros E. unfold mbind at 1, ST_bind at 1, attempt in E.
  match type of E with context [?run w] => destruct (run w) as [r w1] eqn:E1 end. cbn in E. destruct r as [?|e]; [done|].
  assert (Ht : told e msg reason) by (unfold told; destruct (rejects e); by injection E as <- <-). clear E.
  unfold mbind, ST_bind in E1. destruct (_check_expected_revision m p w) as [[stale|e'] w2] eqn:Ec.
  - destruct (looks_check _ _ _ _ _ _ eq_refl Ec) as [Ed Hs]. destruct stale as [msg'|].
    + left. injection E1 as <- <-. unfold told in Ht. cbn in Ht. by injection Ht as <- <-.
    + right. exists e, w2. right. split_and!; [done|done| |done]. destruct (effect m p w2) as [[r|e'] w3]; [|by injection E1 as <-].
      pose proof (number_never_raises r w3 e) as Hn. by rewrite E1 in Hn.
  - right. exists e, w. left. rewrite Ec. by injection E1 as <-.
Qed.
End rejections.

(** C15: A command is applied whole or not at all.  A call that answers has
    settled the command it was given, and is one of three things.  A request
    delivered before: the answer is the row that was there, and nothing but
    the queue and the event log may have changed.  A rejection: again nothing
    but the queue and the log has changed, and there is a reason - the task's
    revision is not the one expected (reported as a conflict), or the checks
    or the effect raised a ValueError, KeyError, OSError or TransitionError,
    whose text is the receipt's.  Or the command is APPLIED: the revision
    expected was the task's, exactly the store calls its action asks for
    ([asked]) were made and every one succeeded, and apart from them only the
    queue and the log have changed; the receipt holds the result.  A call that
    raises instead leaves missions, tasks, dependencies, amendments,
    operations and processes as they were. *)
Theorem operator_command_atomic (O : Oracle) (E : OperatorEnv) (m : string) (p : dict) (c : option string) (w : world) :
  match _apply_operator_command m p c w with
  | (Ok row, w') => settled_row m p row (w_db w') /\
      ((only_receipts (w_db w) (w_db w') /\ find_command (c_id row) (w_db w) = Some row) \/
       (only_receipts (w_db w) (w_db w') /\ c_status row = C_REJECTED /\
          exists w1 msg reason, only_receipts (w_db w) (w_db w1) /\ refused m p w1 msg reason /\
            c_result row = Some (JObj (rejection msg reason))) \/
       (c_status row = C_APPLIED /\
          exists w1 w2 calls result, only_receipts (w_db w) (w_db w1) /\ revision_met m p (w_db w1) /\
            asked m p (w_db w1) (get_text "action" p) calls /\ made calls w1 w2 /\ only_receipts (w_db w2) (w_db w') /\
            _apply_operator_effect m p w1 = (Ok result, w2) /\ c_result row = Some (JObj result)))
  | (Raise _, w') => only_receipts (w_db w) (w_db w')
  end.
Proof.
  pose proof (command_outcome m p c w) as Ho. destruct (_apply_operator_command m p c w) as [[row|e] w']; [|done].
  destruct Ho as [Hs Ho]. split; [done|].
  destruct Ho as [Hd|[(Hf & Hr & w1 & w2 & msg & reason & Hw & Ee & Hm)|(w1 & result & w2 & Hw & Ee & Hf & Ha & Hm)]]; [by left|right..].
  - left. split_and!; [done|done|]. exists w1, msg, reason. split_and!; [done| |done]. by eapply refused_effect.
  - right. split; [done|]. destruct (applied_effect _ _ _ _ _ Ee) as (calls & Hc & Hk & Hv). by exists w1, w2, calls, result.
Qed.
