(* ===== verification/OperatorCancel.v ===== *)
(** * Cancelling a mission

    The operator's [cancel] ends the mission and every task of it that is not
    finished, whatever their statuses, and answers from the mission it found. *)

From S2P Require Import Prelude Py Vocab States StoreData StoreTasks StoreOps StoreReview StoreLog StoreApi StoreDemo StoreKeys StoreLogs StoreSpecs StoreRounds StoreStarts StoreClient Operator OperatorLaws.
From stdpp Require Import options.
Local Open Scope Z_scope.

(** What [cancel] does to one task and to the mission. *)
Definition ended (m : string) (t t' : task_row) : Prop :=
  if bool_decide (t_mission t = m) && negb (is_in (t_status t) FINISHED_TASK_STATUSES)
  then exists now, t' = set_t_updated_at now (set_t_status T_CANCELLED t) else t' = t.
Definition ended_status (s : MissionStatus) : MissionStatus := if is_in s FINISHED_MISSION_STATUSES then s else M_CANCELLED.

Lemma ended_id m t t' : ended m t t' -> t_id t' = t_id t.
Proof. unfold ended. case_match; [intros [? ->]|intros ->]; done. Qed.
Lemma ended_finished m t t' : ended m t t' -> t_mission t' = m -> t_status t' ∈ FINISHED_TASK_STATUSES.
Proof.
  unfold ended. destruct (bool_decide _ && _) eqn:E.
  - intros [now ->] _. cbn. set_solver.
  - intros -> Hm. rewrite bool_decide_true in E by done. cbn [andb] in E. apply negb_false_iff in E. by apply is_in_true in E.
Qed.

Lemma cancel_task_move s : is_in s FINISHED_TASK_STATUSES = false -> is_in T_CANCELLED (TASK_TRANSITIONS s) = true.
Proof. by destruct s. Qed.
Lemma cancel_mission_move s : is_in s FINISHED_MISSION_STATUSES = false -> is_in M_CANCELLED (MISSION_TRANSITIONS s) = true.
Proof. by destruct s. Qed.

Section cancel.
Context `{Oracle}.

(** The tables [cancel] leaves alone. *)
Definition other_tables (d d' : database) : Prop :=
  operations d' = operations d /\ task_dependencies d' = task_dependencies d /\ amendments d' = amendments d /\
  commands d' = commands d /\ managed_processes d' = managed_processes d.

Lemma twp_cancel_task id t w (Q : task_dict -> world -> Prop) :
  find_task id (w_db w) = Some t -> is_in (t_status t) FINISHED_TASK_STATUSES = false ->
  (forall r w' now, tasks (w_db w') = update_where (fun t => t_id t =? id) (fun t => set_t_updated_at now (set_t_status T_CANCELLED t)) (tasks (w_db w)) ->
     missions (w_db w') = missions (w_db w) -> other_tables (w_db w) (w_db w') -> Q r w') ->
  twp (set_task_status id "CANCELLED") Q w.
Proof.
  intros Ht Hs HQ. unfold set_task_status. change (of_string (upper "CANCELLED")) with (Some T_CANCELLED). cbv iota.
  do 3 twp_step. eapply twp_task_row; [done|]. repeat twp_step.
  - rewrite (cancel_task_move _ Hs). by rewrite andb_false_r.
  - unfold _dependencies_complete. repeat twp_step; [done|]. unfold get_task. twp_step. eapply twp_task_row.
    { lookups. by rewrite decide_True, Ht. }
    repeat twp_step. eapply HQ; [reflexivity|reflexivity|split_and!; reflexivity].
Qed.

Lemma twp_statement {A} (f : database -> result exn (A * database)) a d (Q : A -> world -> Prop) w :
  f (w_db w) = Ok (a, d) -> Q a (World d (w_tick w)) -> twp (statement f) Q w.
Proof. intros E HQ. exists a, (World d (w_tick w)). split; [|done]. unfold statement. by rewrite E. Qed.
Lemma twp_cancel_mission id mi w (Q : unit -> world -> Prop) :
  find_mission id (w_db w) = Some mi -> is_in (m_status mi) FINISHED_MISSION_STATUSES = false ->
  (forall w' now, missions (w_db w') = update_where (fun m => bool_decide (m_id m = id)) (fun m => set_m_updated_at now (set_m_status M_CANCELLED m)) (missions (w_db w)) ->
     tasks (w_db w') = tasks (w_db w) -> other_tables (w_db w) (w_db w') -> Q tt w') ->
  twp (set_mission_status id "CANCELLED") Q w.
Proof.
  intros Hm Hs HQ. unfold set_mission_status. change (of_string (upper "CANCELLED")) with (Some M_CANCELLED). cbv iota.
  do 2 twp_step. eapply twp_mission_row; [done|]. repeat twp_step; [by rewrite (cancel_mission_move _ Hs), andb_false_r|done|].
  eapply twp_statement.
  - cbn [w_db]. rewrite existsb_none by (intros m _; by rewrite andb_false_r). reflexivity.
  - repeat twp_step. eapply HQ; [reflexivity|reflexivity|split_and!; reflexivity].
Qed.

(** The loop over the tasks of the mission. *)
Definition cancelling (m : string) (d : database) (rest : list task_dict) (w : world) : Prop :=
  walked (ended m) (td_row <$> rest) (tasks d) (tasks (w_db w)) /\ NoDup (t_id <$> (td_row <$> rest)) /\
  td_row <$> rest ⊆ mission_tasks m d /\ missions (w_db w) = missions d /\ other_tables d (w_db w).

Lemma elem_of_mission_tasks m d t : t ∈ mission_tasks m d <-> t ∈ tasks d /\ t_mission t = m.
Proof. unfold mission_tasks. by rewrite elem_of_select, bool_decide_eq_true. Qed.
Lemma ended_refl m t : t_mission t <> m \/ is_in (t_status t) FINISHED_TASK_STATUSES = true -> ended m t t.
Proof. unfold ended. intros [Hm| ->]; [by rewrite bool_decide_false|by rewrite andb_false_r]. Qed.

Lemma cancelling_step m d x rest w : NoDup (t_id <$> tasks d) -> cancelling m d (x :: rest) w ->
  twp (when (negb (is_in (t_status (td_row x)) FINISHED_TASK_STATUSES)) (ignore (set_task_status (t_id (td_row x)) "CANCELLED")))
    (fun _ => cancelling m d rest) w.
Proof.
  intros Hnd (HW & [Hx Hr]%NoDup_cons & Hsub & Hm & Ho). rewrite fmap_cons in HW, Hsub.
  assert (Hin : td_row x ∈ tasks d /\ t_mission (td_row x) = m) by (apply elem_of_mission_tasks, Hsub; left).
  assert (Hsub' : td_row <$> rest ⊆ mission_tasks m d) by (intros t Ht; apply Hsub; by right).
  apply twp_when; intros Hb.
  - apply negb_true_iff in Hb. unfold ignore. apply twp_bind. eapply twp_cancel_task; [|exact Hb|].
    + eapply (walked_current (ended m)); [apply ended_id|exact Hnd|apply Hin| |exact HW]. rewrite fmap_cons. left.
    + intros r w' now Ht Hm' Ho'. apply twp_ret. split_and!; [|done|done|congruence|].
      * rewrite Ht. apply walked_update; [apply ended_id|done|apply Hin|done| |done].
        unfold ended. rewrite bool_decide_true, Hb by apply Hin. cbn [andb negb]. by exists now.
      * unfold other_tables in *. destruct_and!. split_and!; congruence.
  - apply negb_false_iff in Hb. split_and!; [|done..]. eapply walked_skip; [exact Hnd|apply Hin| |exact HW]. apply ended_refl. by right.
Qed.
End cancel.

Section whole.
Context `{Oracle} `{OperatorEnv}.

Lemma cancel_run m mi w : NoDup (t_id <$> tasks (w_db w)) -> find_mission m (w_db w) = Some mi ->
  twp (control_effect m "cancel") (fun r w' => dget "mission_status" r = Some (JStr "CANCELLED") /\
    Forall2 (ended m) (tasks (w_db w)) (tasks (w_db w')) /\ other_tables (w_db w) (w_db w') /\
    m_status <$> find_mission m (w_db w') = Some (ended_status (m_status mi))) w.
Proof using Type.
  intros Hnd Hm. unfold control_effect. rewrite !bool_decide_eq_false_2 by done.
  twp_step. twp_step. twp_step. unfold get_mission. eapply twp_mission_row; [exact Hm|].
  twp_step. apply (twp_mono _ (fun _ w' => tasks (w_db w') = tasks (w_db w) /\ other_tables (w_db w) (w_db w') /\
    m_status <$> find_mission m (w_db w') = Some (ended_status (m_status mi)))).
  - intros [] w1 (Ht & Ho & Hs). unfold list_tasks. do 2 twp_step.
    destruct (find_mission m (w_db w1)) as [mi1|] eqn:Hm1; [|done]. eapply twp_mission_row; [done|]. twp_step. twp_step.
    eapply twp_mono; [|apply (twp_for_each_rest (cancelling m (w_db w1)))].
    + intros [] w2 (HW & _ & _ & Hm2 & Ho2). twp_step. split_and!; [done|by rewrite <-Ht|unfold other_tables in *; destruct_and!; split_and!; congruence|].
      unfold find_mission in *. by rewrite Hm2, Hm1.
    + cbn [limited]. change (drop (Z.to_nat (Z.max 0 0))) with (fun l : list task_row => l). cbv beta.
      unfold cancelling. rewrite td_row_task_dicts. split_and!; [|by rewrite sort_by_perm; apply NoDup_fmap_select; rewrite Ht| |done|done].
      * apply walked_start. intros t Htt Hout. apply ended_refl. left. intros Hmt. apply Hout. rewrite sort_by_perm.
        by apply list_elem_of_fmap_2, elem_of_mission_tasks.
      * intros t. by rewrite sort_by_perm.
    + intros x rest w2 HI. apply cancelling_step; [by rewrite Ht|done].
  - apply twp_when; intros Hb.
    + apply negb_true_iff in Hb. eapply twp_cancel_mission; [exact Hm|exact Hb|]. intros w' now Hm' Ht Ho. split_and!; [done|done|].
      unfold ended_status. rewrite Hb. unfold find_mission in *. rewrite Hm'.
      rewrite (first_update m_id _ _ m m) by done. by rewrite decide_True, Hm.
    + apply negb_false_iff in Hb. split_and!; [done|done|]. unfold ended_status. by rewrite Hb, Hm.
Qed.
End whole.

(** Cancelling never fails: on a known mission of a reachable database it
    gives every unfinished task of the mission, and the mission itself, the
    status CANCELLED, leaves finished ones, the tasks of other missions and
    every operation as they are, and afterwards all tasks of the mission are
    finished.  The receipt says CANCELLED even for a mission that stays
    COMPLETED. *)
Theorem cancel_ends_mission (O : Oracle) (E : OperatorEnv) (m : string) (mi : mission_row) (w : world) :
  reachable (w_db w) -> find_mission m (w_db w) = Some mi ->
  exists result w', control_effect m "cancel" w = (Ok result, w') /\
    dget "mission_status" result = Some (JStr "CANCELLED") /\
    m_status <$> find_mission m (w_db w') = Some (if is_in (m_status mi) FINISHED_MISSION_STATUSES then m_status mi else M_CANCELLED) /\
    Forall2 (ended m) (tasks (w_db w)) (tasks (w_db w')) /\
    (forall t, t ∈ tasks (w_db w') -> t_mission t = m -> t_status t ∈ FINISHED_TASK_STATUSES) /\
    operations (w_db w') = operations (w_db w).
Proof.
  intros Hr Hm. destruct (cancel_run m mi w (ko_tasks _ (keys_ok_reachable _ Hr)) Hm) as (r & w' & Ec & Hd & HF & Ho & Hs).
  exists r, w'. split_and!; [done|done|exact Hs|done| |apply Ho].
  intros t Ht Hmt. apply list_elem_of_lookup in Ht as [i Hi]. destruct (Forall2_lookup_r _ _ _ _ _ HF Hi) as (t0 & _ & He).
  by eapply ended_finished.
Qed.

Lemma cancel_ends_mission_witness :
  exists result w', control_effect (H := demo_oracle) (H0 := demo_operator) "m1" "cancel" (demo_world 8) = (Ok result, w') /\
    m_status <$> find_mission "m1" (w_db w') = Some M_CANCELLED /\ Forall2 (ended "m1") (demo 8).(tasks) (tasks (w_db w')).
Proof.
  assert (Hex : exists mi, find_mission "m1" (w_db (demo_world 8)) = Some mi /\ m_status mi = M_RUNNING) by (eexists; split; vm_compute; reflexivity).
  destruct Hex as (mi & Hm & Hst).
  destruct (cancel_ends_mission demo_oracle demo_operator "m1" mi (demo_world 8) (demo_world_reachable 8) Hm)
    as (r & w' & Ec & _ & Hs & HF & _).
  exists r, w'. split_and!; [exact Ec| |exact HF]. by rewrite Hs, Hst.
Defined.

(** A mission that is COMPLETED stays so while its receipt says CANCELLED. *)
Example cancel_of_completed :
  let after := control_effect (H := demo_oracle) (H0 := demo_operator) "m2" "cancel" (done_world 7) in
  (exists r, after.1 = Ok r /\ dget "mission_status" r = Some (JStr "CANCELLED")) /\ m_status <$> missions (w_db after.2) = [M_COMPLETED].
Proof. vm_compute. eauto. Qed.

(** ** Resuming beside another controlled mission *)

(** Two missions of one worktree: the first was stopped, the second runs. *)
Definition clash_script : list op := [
  Op_create_mission "one" "objective" "/r" (Some "m1"%string) (Some "first"%string) [] [];
  Op_set_mission_status "m1" "RUNNING";
  Op_set_mission_status "m1" "STOPPED";
  Op_create_mission "two" "objective" "/r" (Some "m2"%string) (Some "first"%string) [] [];
  Op_set_mission_status "m2" "RUNNING" ].
Definition clash_world : world := run_ops (H := demo_oracle) clash_script (World empty_database 0).
Definition demo_resume : dict := [("action", JStr "resume")]%string.
(** The unique index refuses the resumption with an exception that is not
    among those a rejection catches: the command stays queued. *)
Example resume_clash_stays_queued :
  let after := _apply_operator_command (H := demo_oracle) (H0 := demo_operator) "m1" demo_resume (Some "c-1"%string) clash_world in
  (exists e, after.1 = Raise e /\ rejects e = false) /\ c_status <$> commands (w_db after.2) = [C_QUEUED].
Proof. vm_compute. eauto. Qed.
