(* ===== verification/Suspend.v ===== *)
(** * Suspending the host until a known time ([common.py])

    The hardened cycle of [suspend_with_wake]: arm and verify a wake-up, record
    the start of the cycle durably, suspend, wait by the wall clock, measure
    what happened.  Commands, readings and ledger lines are a trace. *)

From Stdlib Require Import QArith.
From S2P Require Import Prelude Py StoreData StoreTasks.
From stdpp Require Import options.
Local Open Scope Z_scope.

(** ** The host *)

(** How rewriting a file ended: done, not even opened, or cut after some lines. *)
Inductive rewrite_end : Type := RW_done | RW_unopened | RW_cut (lines : nat).

(** What the host answers at each moment: environment variables, [PATH]
    look-ups, exit codes and output of commands, the alarm file, clocks, the
    watchdog device, the ledger file, and the float arithmetic and formats. *)
Class HostEnv : Type := {
  getenv : string -> option string;
  found : nat -> string -> bool;
  exits : nat -> list string -> result exn (Z * string);
  alarm_file : nat -> option string;
  time_s : nat -> Z;
  time_ms : nat -> Z;
  clock_sample : nat -> option (Q * Q);
  clock_fields : nat -> pyfloat * pyfloat * option pyfloat;
  watchdog_opens : nat -> bool;
  append_ok : nat -> bool;
  ledger_readable : nat -> bool;
  rewrite_ends : nat -> rewrite_end;
  float_text : string -> option pyfloat;
  rounded : Q -> Q;
  round3 : Q -> Q;
  fixed3 : Q -> string;
  text_of_json : json -> string;
  pid : Z;
}.

(** Commands with their exit codes, readings of the alarm, the watchdog, ledger
    lines, the caller's check with the database it began on, and sleeps. *)
Inductive hevent : Type :=
  | E_run (argv : list string) (code : Z)
  | E_alarm (reading : option Z)
  | E_watchdog (timeout : option Z)
  | E_ledger (record : dict)
  | E_check (reason : string) (d : database)
  | E_sleep (seconds : pyfloat).

(** The ledger's lines, [None] one that is no JSON; the wake requests by file
    name and the plan, [None] a file that is no JSON; the mission database. *)
Record host : Type := Host {
  h_tick : nat;
  h_trace : list hevent;
  h_ledger : list (option json);
  h_requests : gmap string (option json);
  h_plan : option json;
  h_world : world;
}.

(** A run ends with an exception, or is still waiting when the model's fuel is
    used up. *)
Inductive stop : Type := Raised (e : exn) | Waiting.
Abbreviation HM := (ST stop host).

Definition set_h_tick (v : nat) (h : host) : host := Host v (h_trace h) (h_ledger h) (h_requests h) (h_plan h) (h_world h).
Definition set_h_trace (v : list hevent) (h : host) : host := Host (h_tick h) v (h_ledger h) (h_requests h) (h_plan h) (h_world h).
Definition set_h_ledger (v : list (option json)) (h : host) : host := Host (h_tick h) (h_trace h) v (h_requests h) (h_plan h) (h_world h).

(** An answer of the host now; time goes on. *)
Definition ask {A} (f : nat -> A) : HM A := fun h => (Ok (f (h_tick h)), set_h_tick (S (h_tick h)) h).
Definition did (e : hevent) : HM unit := modify (fun h => set_h_trace (h_trace h ++ [e]) h).
Definition fails {A} (e : exn) : HM A := raise (Raised e).
Definition lift {A} (r : result exn A) : HM A := match r with Ok a => mret a | Raise e => fails e end.

Record WakeArm : Type := Wake {
  wa_armed : bool;
  wa_method : string;
  wa_confirmed : bool;
  wa_unit : string;
  wa_detail : string;
  wa_target : option Z;
}.
Record SuspendOutcome : Type := Outcome {
  so_suspended : bool;
  so_woke : option Z;
  so_target : Z;
  so_drift : option Z;
  so_reliable : bool;
  so_method : string;
  so_reason : string;
  so_detail : string;
  so_observed : option bool;
}.
Definition no_wake : WakeArm := Wake false "none" false EmptyString EmptyString None.

Section host.
Context `{HostEnv}.

(** ** Commands and readings *)

Definition have_cmd (name : string) : HM bool := ask (fun n => found n name).
Definition run_cmd (argv : list string) : HM (Z * string) :=
  answer ← ask (fun n => exits n argv);
  r ← lift answer;
  did (E_run argv r.1) ;;
  mret r.
(** [env.get(key, default) or default] *)
Definition env_or (key default : string) : string :=
  match getenv key with Some v => if truthy_str v then v else default | None => default end.
(** [int(float(text))]; [None] is the [ValueError]. *)
Definition int_float (text : string) : result exn (option Z) :=
  match float_text text with
  | None | Some NaN => Ok None
  | Some f => match int_of_float f with Some z => Ok (Some z) | None => Raise (OverflowError "cannot convert float infinity to integer") end
  end.
Definition now_epoch : HM Z :=
  match getenv "LLM_USAGE_NOW_EPOCH" with
  | Some override =>
      if truthy_str override then
        v ← lift (int_float override);
        match v with Some z => mret z | None => ask time_s end
      else ask time_s
  | None => ask time_s
  end.
Definition power_backend : HM string :=
  systemctl ← have_cmd "systemctl";
  systemd_run ← (if systemctl : bool then have_cmd "systemd-run" else mret false);
  mret (if systemd_run : bool then "systemd" else "none")%string.
Definition alarm_of_text (raw : string) : option Z :=
  match int_of_text (strip raw) with Some value => if 0 <? value then Some value else None | None => None end.
Definition read_rtc_wakealarm : HM (option Z) :=
  text ← ask alarm_file;
  let alarm := match text with Some raw => alarm_of_text raw | None => None end in
  did (E_alarm alarm) ;;
  mret alarm.
Definition drift_tolerance : result exn Z :=
  v ← int_float (env_or "LLM_TOOLS_SUSPEND_DRIFT_TOLERANCE" "90");
  Ok (match v with Some z => Z.max 5 z | None => 90 end).
Definition suspend_drift_tolerance : HM Z := lift drift_tolerance.

(** ** The ledger *)

Definition _append_ledger (record : dict) : HM unit :=
  ok ← ask append_ok;
  when ok (did (E_ledger record) ;; modify (fun h => set_h_ledger (h_ledger h ++ [Some (JObj record)]) h)).
Definition diagnostic_clock_fields : HM dict :=
  clocks ← ask clock_fields;
  mret [("wall_epoch", JFloat clocks.1.1); ("monotonic_seconds", JFloat clocks.1.2);
        ("boottime_seconds", match clocks.2 with Some b => JFloat b | None => JNull end)]%string.
Definition ledger_record_start (cycle_id : string) (target_epoch : Z) (extra : dict) : HM unit :=
  started ← now_epoch;
  clocks ← diagnostic_clock_fields;
  _append_ledger (dupdate (dupdate [("event", JStr "suspend_start"); ("cycle_id", JStr cycle_id); ("target_epoch", JInt target_epoch);
    ("started_epoch", JInt started)]%string clocks) extra).
Definition ledger_record_done (cycle_id : string) (woke_epoch : Z) (reliable : bool) (extra : dict) : HM unit :=
  clocks ← diagnostic_clock_fields;
  _append_ledger (dupdate (dupdate [("event", JStr "suspend_done"); ("cycle_id", JStr cycle_id); ("woke_epoch", JInt woke_epoch);
    ("reliable", JBool reliable)]%string clocks) extra).

(** [str(obj.get("cycle_id") or "")] *)
Definition record_id (j : json) : string :=
  match jget "cycle_id" j with
  | Some v => if truthy v then (match v with JStr s => s | _ => text_of_json v end) else EmptyString
  | None => EmptyString
  end.
Definition record_event (j : json) : option json := jget "event" j.
(** Starts by id, in order of first appearance, and the ids that are done. *)
Fixpoint put_start (cid : string) (j : json) (starts : list (string * json)) : list (string * json) :=
  match starts with
  | [] => [(cid, j)]
  | (c, j') :: l => if bool_decide (c = cid) then (c, j) :: l else (c, j') :: put_start cid j l
  end.
Definition ledger_step (acc : list (string * json) * list string) (line : option json) : list (string * json) * list string :=
  match line with
  | Some (JObj d as j) =>
      let cid := record_id j in
      if negb (truthy_str cid) then acc
      else if bool_decide (record_event j = Some (JStr "suspend_start")) then (put_start cid j acc.1, acc.2)
      else if bool_decide (record_event j = Some (JStr "suspend_done")) then (acc.1, cid :: acc.2)
      else acc
  | _ => acc
  end.
Definition incomplete_suspend_cycles (lines : list (option json)) : list json :=
  let '(starts, finished) := foldl ledger_step ([], []) lines in
  snd <$> select (fun s => negb (bool_decide (s.1 ∈ finished))) starts.
Definition trim_ledger (keep : nat) : HM unit :=
  readable ← ask ledger_readable;
  if readable : bool then
    lines ← gets h_ledger;
    if (length lines <=? keep)%nat then mret tt
    else
      written ← ask rewrite_ends;
      let kept := drop (length lines - keep)%nat lines in
      match written with
      | RW_done => modify (set_h_ledger kept)
      | RW_unopened => mret tt
      | RW_cut n => modify (set_h_ledger (take n kept))
      end
  else mret tt.

(** ** Arming and disarming *)

Definition timer_active (unit : string) : list string := ["systemctl"; "--user"; "is-active"; "--quiet"; unit +:+ ".timer"]%string.
Definition arm_with_systemd (target_epoch : Z) (who : string) : HM WakeArm :=
  backend ← power_backend;
  if bool_decide (backend = "systemd"%string) then
    seconds ← ask time_s;
    let unit := (who +:+ "-wake-" +:+ show_Z seconds)%string in
    proc ← run_cmd ["systemd-run"; "--user"; "--unit=" +:+ unit; "--on-calendar=@" +:+ show_Z target_epoch; "--timer-property=WakeSystem=true"; "/bin/true"]%string;
    if proc.1 =? 0 then
      active ← run_cmd (timer_active unit);
      if active.1 =? 0 then mret (Wake true "systemd-timer" false unit (strip proc.2) (Some target_epoch))
      else mret (Wake false "none" false EmptyString (strip proc.2) None)
    else mret (Wake false "none" false EmptyString (strip proc.2) None)
  else mret no_wake.
Definition arm_rtc_wake (target_epoch : Z) (who : string) : HM WakeArm :=
  now_epoch ;;
  tolerance ← suspend_drift_tolerance;
  rtcwake ← have_cmd "rtcwake";
  if rtcwake : bool then
    proc ← run_cmd ["rtcwake"; "-m"; "no"; "-t"; show_Z target_epoch]%string;
    if proc.1 =? 0 then
      alarm ← read_rtc_wakealarm;
      match alarm with
      | Some a => if Z.abs (a - target_epoch) <=? tolerance then mret (Wake true "rtcwake" true EmptyString (strip proc.2) (Some target_epoch))
                  else arm_with_systemd target_epoch who
      | None => arm_with_systemd target_epoch who
      end
    else arm_with_systemd target_epoch who
  else arm_with_systemd target_epoch who.

Definition disarm_rtc_wake (arm : WakeArm) : HM unit :=
  systemctl ← (if bool_decide (wa_method arm = "systemd-timer"%string) && truthy_str (wa_unit arm) then have_cmd "systemctl" else mret false);
  if systemctl : bool then run_cmd ["systemctl"; "--user"; "stop"; wa_unit arm +:+ ".timer"]%string ;; mret tt
  else
    rtcwake ← (if bool_decide (wa_method arm = "rtcwake"%string) then have_cmd "rtcwake" else mret false);
    when rtcwake (run_cmd ["rtcwake"; "-m"; "disable"]%string ;; mret tt).

(** ** Waiting *)

Definition suspend_clock_gap_seconds (before after : option (Q * Q)) : option Q :=
  match before, after with
  | Some b, Some a =>
      let boottime_delta := rounded (a.1 - b.1) in
      let monotonic_delta := rounded (a.2 - b.2) in
      if negb (Qle_bool 0 boottime_delta) || negb (Qle_bool 0 monotonic_delta) then None
      else let gap := rounded (boottime_delta - monotonic_delta) in Some (if Qle_bool gap 0 then 0%Q else gap)
  | _, _ => None
  end.

Fixpoint wait_rounds (fuel : nat) (target_epoch : Z) (chunk : pyfloat) (should_interrupt : option (nat -> bool)) : HM bool :=
  match fuel with
  | O => raise Waiting
  | S fuel =>
      interrupted ← match should_interrupt with Some f => ask f | None => mret false end;
      if interrupted : bool then mret false
      else
        now ← now_epoch;
        let remaining := target_epoch - now in
        if remaining <=? 0 then mret true
        else
          let remaining := float_of_Z remaining in
          did (E_sleep (if flt chunk remaining then chunk else remaining)) ;;
          wait_rounds fuel target_epoch chunk should_interrupt
  end.
Definition wait_chunk (should_interrupt : option (nat -> bool)) : pyfloat :=
  match should_interrupt with
  | Some _ => Fin 1
  | None =>
      match float_text (env_or "LLM_TOOLS_WAIT_POLL_SECONDS" "30") with
      | Some f => if flt (Fin 1) f then f else Fin 1
      | None => Fin 30
      end
  end.
Definition wall_clock_wait_until (fuel : nat) (target_epoch : Z) (should_interrupt : option (nat -> bool)) : HM bool :=
  wait_rounds fuel target_epoch (wait_chunk should_interrupt) should_interrupt.

(** ** The cycle *)

(** The keyword arguments of [suspend_with_wake]; [rq_fuel] bounds the rounds
    of its wait. *)
Record suspend_request : Type := Request {
  rq_who : string;
  rq_min_lead : option Z;
  rq_watchdog : bool;
  rq_cycle_id : option string;
  rq_wake_arm : option WakeArm;
  rq_pre_suspend_check : option (HM string);
  rq_should_interrupt : option (nat -> bool);
  rq_fuel : nat;
}.

Definition not_suspended (target_epoch : Z) (method reason detail : string) : SuspendOutcome :=
  Outcome false None target_epoch None false method reason detail (Some false).

(** Is the wake a caller brought along still what it was? *)
Definition prearmed_valid (arm : WakeArm) (target_epoch : Z) : HM bool :=
  if wa_armed arm && bool_decide (wa_target arm = Some target_epoch) then
    if bool_decide (wa_method arm = "rtcwake"%string) then
      current ← read_rtc_wakealarm;
      match current with
      | Some alarm => tolerance ← suspend_drift_tolerance; mret (Z.abs (alarm - target_epoch) <=? tolerance)
      | None => mret false
      end
    else if bool_decide (wa_method arm = "systemd-timer"%string) then
      active ← run_cmd (timer_active (wa_unit arm));
      mret (truthy_str (wa_unit arm) && (active.1 =? 0))
    else mret false
  else mret false.

Definition arm_watchdog (wanted : bool) (lead : Z) : HM bool :=
  if wanted then
    tolerance ← suspend_drift_tolerance;
    opens ← (if bool_decide (getenv "LLM_TOOLS_NO_WATCHDOG" = Some "1"%string) then mret false else ask watchdog_opens);
    when opens (did (E_watchdog (Some (Z.max 60 (lead + tolerance * 4))))) ;;
    mret opens
  else mret false.
Definition disarm_watchdog (dog : bool) : HM unit := when dog (did (E_watchdog None)).

Definition gap_field (gap : option Q) : json := match gap with Some g => JFloat (Fin (round3 g)) | None => JNull end.

(** From the accepted request on. *)
Definition after_suspend (target_epoch : Z) (cycle_id : string) (arm : WakeArm) (dog : bool) (clock_before : option (Q * Q))
    (should_interrupt : option (nat -> bool)) (fuel : nat) : HM SuspendOutcome :=
  wall_clock_wait_until fuel target_epoch should_interrupt ;;
  clock_after ← ask clock_sample;
  let sleep_gap := suspend_clock_gap_seconds clock_before clock_after in
  disarm_watchdog dog ;;
  woke ← now_epoch;
  let drift := woke - target_epoch in
  match sleep_gap with
  | None =>
      ledger_record_done cycle_id woke false
        [("drift_seconds", JInt drift); ("method", JStr (wa_method arm)); ("reason", JStr "sleep-unverified"); ("sleep_gap_seconds", JNull)]%string ;;
      trim_ledger 200 ;;
      mret (Outcome false (Some woke) target_epoch (Some drift) false (wa_method arm) "sleep-unverified"
        "suspend-inclusive clock unavailable; sleep was not verified" None)
  | Some gap =>
      if Qle_bool 2 gap then
        tolerance ← suspend_drift_tolerance;
        let reliable := Z.abs drift <=? tolerance in
        ledger_record_done cycle_id woke reliable
          [("drift_seconds", JInt drift); ("method", JStr (wa_method arm)); ("sleep_gap_seconds", gap_field sleep_gap); ("sleep_observed", JBool true)]%string ;;
        trim_ledger 200 ;;
        mret (Outcome true (Some woke) target_epoch (Some drift) reliable (wa_method arm) "ok" EmptyString (Some true))
      else
        ledger_record_done cycle_id woke false
          [("drift_seconds", JInt drift); ("method", JStr (wa_method arm)); ("reason", JStr "sleep-not-observed"); ("sleep_gap_seconds", gap_field sleep_gap)]%string ;;
        trim_ledger 200 ;;
        mret (Outcome false (Some woke) target_epoch (Some drift) false (wa_method arm) "sleep-not-observed"
          ("accepted suspend request but observed only " +:+ fixed3 gap +:+ "s of suspend time") (Some false))
  end.

(** From the armed wake on. *)
Definition suspend_armed (target_epoch lead : Z) (rq : suspend_request) (cycle_id : string) (arm : WakeArm) : HM SuspendOutcome :=
  reason ← match rq_pre_suspend_check rq with
           | Some check => d ← gets (fun h => w_db (h_world h)); reason ← check; did (E_check reason d) ;; mret reason
           | None => mret EmptyString
           end;
  if truthy_str reason then mret (not_suspended target_epoch (wa_method arm) "pre-suspend-check-failed" reason)
  else
    dog ← arm_watchdog (rq_watchdog rq) lead;
    ledger_record_start cycle_id target_epoch
      [("who", JStr (rq_who rq)); ("method", JStr (wa_method arm)); ("confirmed", JBool (wa_confirmed arm)); ("watchdog", JBool dog)]%string ;;
    run_cmd ["sync"]%string ;;
    clock_before ← ask clock_sample;
    suspend ← run_cmd ["systemctl"; "suspend"]%string;
    if negb (suspend.1 =? 0) then
      disarm_rtc_wake arm ;;
      disarm_watchdog dog ;;
      woke ← now_epoch;
      ledger_record_done cycle_id woke false
        [("drift_seconds", JNull); ("method", JStr (wa_method arm)); ("reason", JStr "suspend-rejected")]%string ;;
      trim_ledger 200 ;;
      mret (Outcome false (Some woke) target_epoch None false (wa_method arm) "suspend-rejected" EmptyString (Some false))
    else after_suspend target_epoch cycle_id arm dog clock_before (rq_should_interrupt rq) (rq_fuel rq).

Definition _suspend_with_wake_locked (target_epoch : Z) (rq : suspend_request) : HM SuspendOutcome :=
  now ← now_epoch;
  cycle_id ← (match rq_cycle_id rq ≫= opt_str with
              | Some c => mret c
              | None => ms ← ask time_ms; mret (rq_who rq +:+ "-" +:+ show_Z ms +:+ "-" +:+ show_Z pid)%string
              end);
  let lead := target_epoch - now in
  floor ← match rq_min_lead rq with
          | Some n => mret n
          | None => match int_of_text (env_or "LLM_SCHEDULER_SUSPEND_MIN_LEAD" "120") with
                    | Some n => mret n
                    | None => fails (ValueError "invalid literal for int()")
                    end
          end;
  if bool_decide (getenv "LLM_SCHEDULER_NO_ACTUAL_SUSPEND" = Some "1"%string) then
    mret (Outcome false (Some target_epoch) target_epoch (Some 0) true "simulated" "simulated" EmptyString (Some false))
  else
    backend ← power_backend;
    if bool_decide (backend = "none"%string) then mret (not_suspended target_epoch "none" "missing-backend" EmptyString)
    else if lead <? floor then mret (not_suspended target_epoch "none" "insufficient-lead" EmptyString)
    else
      match rq_wake_arm rq with
      | Some arm =>
          valid ← prearmed_valid arm target_epoch;
          if valid : bool then suspend_armed target_epoch lead rq cycle_id arm
          else mret (not_suspended target_epoch (wa_method arm) "arm-failed" EmptyString)
      | None =>
          arm ← arm_rtc_wake target_epoch (rq_who rq);
          if wa_armed arm then suspend_armed target_epoch lead rq cycle_id arm
          else mret (not_suspended target_epoch (wa_method arm) "arm-failed" EmptyString)
      end.

(** Under the lock of the wake planner. *)
Definition suspend_with_wake (target_epoch : Z) (rq : suspend_request) : HM SuspendOutcome := _suspend_with_wake_locked target_epoch rq.
End host.
