(* ===== verification/SuspendLaws.v ===== *)
(** * Laws of the suspend cycle

    The host is asked to sleep only behind a verified wake-up; what an outcome
    says happened; a finished cycle is complete in the ledger; the wait ends. *)

From Stdlib Require Import QArith.
From S2P Require Import Prelude Py StoreData StoreTasks StoreApi Suspend.
From stdpp Require Import options.
Local Open Scope Z_scope.

(** ** Quiet steps *)

Definition SUSPEND : list string := ["systemctl"; "suspend"]%string.
Definition cancels_wake (argv : list string) : bool :=
  match argv with
  | [a; b; c; _] => bool_decide (a = "systemctl" /\ b = "--user" /\ c = "stop")%string
  | [a; b; c] => bool_decide (a = "rtcwake" /\ b = "-m" /\ c = "disable")%string
  | _ => false
  end.
(** Neither puts the host to sleep nor takes a wake-up back. *)
Definition harmless (e : hevent) : bool :=
  match e with E_run argv _ => negb (bool_decide (argv = SUSPEND)) && negb (cancels_wake argv) | _ => true end.

Definition extends (h : host) (evs : list hevent) (h' : host) : Prop :=
  h_trace h' = h_trace h ++ evs /\ h_ledger h' = h_ledger h /\ (h_tick h <= h_tick h')%nat.
Definition quiet (h h' : host) : Prop := exists evs, extends h evs h' /\ Forall (fun e => harmless e = true) evs.

Lemma extends_nil h : extends h [] h.
Proof. split_and!; [by rewrite app_nil_r|done|lia]. Qed.
Lemma extends_app h e1 h1 e2 h2 : extends h e1 h1 -> extends h1 e2 h2 -> extends h (e1 ++ e2) h2.
Proof. intros (T1 & L1 & K1) (T2 & L2 & K2). split_and!; [by rewrite T2, T1, app_assoc|congruence|lia]. Qed.
#[export] Instance quiet_preorder : PreOrder quiet.
Proof.
  split.
  - intros h. exists []. split; [apply extends_nil|constructor].
  - intros h h1 h2 (e1 & X1 & F1) (e2 & X2 & F2). exists (e1 ++ e2). split; [by eapply extends_app|by apply Forall_app].
Qed.

Section laws.
Context `{HostEnv}.

Lemma quiet_ask {A} (f : nat -> A) : keeps quiet (ask f).
Proof. intros h. exists []. split; [|constructor]. split_and!; cbn; [by rewrite app_nil_r|done|lia]. Qed.
Lemma quiet_did e : harmless e = true -> keeps quiet (did e).
Proof. intros He h. exists [e]. split; [|by constructor]. split_and!; cbn; [done|done|lia]. Qed.
Lemma quiet_lift {A} (r : result exn A) : keeps quiet (lift r).
Proof. intros h. unfold lift, fails. destruct r; reflexivity. Qed.
#[local] Hint Resolve quiet_ask quiet_lift : py_keeps.
#[local] Hint Extern 1 (keeps quiet (did _)) => (apply quiet_did; done) : py_keeps.
Lemma quiet_run argv : negb (bool_decide (argv = SUSPEND)) && negb (cancels_wake argv) = true -> keeps quiet (run_cmd argv).
Proof. intros Ha. unfold run_cmd. solve_keeps. Qed.
#[local] Hint Extern 1 (keeps quiet (run_cmd _)) => (apply quiet_run; done) : py_keeps.
Lemma quiet_now : keeps quiet now_epoch.
Proof. unfold now_epoch. solve_keeps. Qed.
Lemma quiet_have name : keeps quiet (have_cmd name).
Proof. unfold have_cmd. solve_keeps. Qed.
#[local] Hint Resolve quiet_now quiet_have : py_keeps.
Lemma quiet_backend : keeps quiet power_backend.
Proof. unfold power_backend. solve_keeps. Qed.
Lemma quiet_alarm : keeps quiet read_rtc_wakealarm.
Proof. unfold read_rtc_wakealarm. cbv zeta. solve_keeps. Qed.
Lemma quiet_tolerance : keeps quiet suspend_drift_tolerance.
Proof. unfold suspend_drift_tolerance. solve_keeps. Qed.
Lemma quiet_wait fuel t c i : keeps quiet (wait_rounds fuel t c i).
Proof. induction fuel as [|fuel IH]; cbn [wait_rounds]; solve_keeps. Qed.
#[local] Hint Resolve quiet_backend quiet_alarm quiet_tolerance quiet_wait : py_keeps.
Lemma quiet_systemd t who : keeps quiet (arm_with_systemd t who).
Proof. unfold arm_with_systemd, timer_active. solve_keeps. Qed.
#[local] Hint Resolve quiet_systemd : py_keeps.
Lemma quiet_arm t who : keeps quiet (arm_rtc_wake t who).
Proof. unfold arm_rtc_wake. solve_keeps. Qed.
Lemma quiet_prearmed arm t : keeps quiet (prearmed_valid arm t).
Proof. unfold prearmed_valid, timer_active. solve_keeps. Qed.
Lemma quiet_watchdog b l : keeps quiet (arm_watchdog b l).
Proof. unfold arm_watchdog. solve_keeps. Qed.
Lemma quiet_undog b : keeps quiet (disarm_watchdog b).
Proof. unfold disarm_watchdog. solve_keeps. Qed.

(** ** What a step reports and does *)

Definition acts {A} (m : HM A) (Q : result stop A -> list hevent -> Prop) (h : host) : Prop :=
  ends m (fun r h' => exists evs, extends h evs h' /\ Forall (fun e => harmless e = true) evs /\ Q r evs) h.

Lemma acts_quiet {A} (m : HM A) (Q : result stop A -> list hevent -> Prop) h : keeps quiet m -> (forall r evs, Q r evs) -> acts m Q h.
Proof. intros Hm HQ. destruct (Hm h) as (evs & X & F). by exists evs. Qed.
Lemma acts_nothing {A} (m : HM A) (Q : result stop A -> list hevent -> Prop) r h h' : m h = (r, h') -> extends h [] h' -> Q r [] -> acts m Q h.
Proof. intros E X HQ. unfold acts, ends. rewrite E. by exists []. Qed.
Lemma acts_ret {A} (a : A) (Q : result stop A -> list hevent -> Prop) h : Q (Ok a) [] -> acts (mret a) Q h.
Proof. intros HQ. by eapply acts_nothing; [reflexivity|apply extends_nil|]. Qed.
Lemma acts_ask {A} (f : nat -> A) (Q : result stop A -> list hevent -> Prop) h : (forall a, Q (Ok a) []) -> acts (ask f) Q h.
Proof. intros HQ. eapply acts_nothing; [reflexivity| |apply HQ]. split_and!; cbn; [by rewrite app_nil_r|done|lia]. Qed.
Lemma acts_lift {A} (x : result exn A) (Q : result stop A -> list hevent -> Prop) h :
  Q (match x with Ok a => Ok a | Raise e => Raise (Raised e) end) [] -> acts (lift x) Q h.
Proof. intros HQ. destruct x; (eapply acts_nothing; [reflexivity|apply extends_nil|done]). Qed.
Lemma acts_mono {A} (m : HM A) (Q Q' : result stop A -> list hevent -> Prop) h : acts m Q h -> (forall r evs, Q r evs -> Q' r evs) -> acts m Q' h.
Proof. intros (evs & X & F & HQ) Hi. exists evs. auto. Qed.
Lemma acts_bind {A B} (m : HM A) (f : A -> HM B) (Q : result stop B -> list hevent -> Prop) h :
  acts m (fun r evs => match r with
                       | Ok a => forall h', acts (f a) (fun r' evs' => Q r' (evs ++ evs')) h'
                       | Raise e => Q (Raise e) evs end) h ->
  acts (m ≫= f) Q h.
Proof.
  unfold acts at 1 3, ends, mbind, ST_bind. destruct (m h) as [[a|e] h1]; cbn [fst snd].
  - intros (e1 & X1 & F1 & HQ). destruct (HQ h1) as (e2 & X2 & F2 & HQ2). exists (e1 ++ e2).
    split_and!; [by eapply extends_app|by apply Forall_app|done].
  - intros (e1 & X1 & F1 & HQ). by exists e1.
Qed.
(** A quiet step whose report does not matter. *)
Lemma acts_skip {A B} (m : HM A) (f : A -> HM B) (Q : result stop B -> list hevent -> Prop) h :
  keeps quiet m -> (forall e evs, Q (Raise e) evs) -> (forall a evs h', acts (f a) (fun r' evs' => Q r' (evs ++ evs')) h') -> acts (m ≫= f) Q h.
Proof. intros Hm He Hf. apply acts_bind, acts_quiet; [done|]. intros [a|e] evs; [intros h'; apply Hf|apply He]. Qed.
Lemma acts_run argv (Q : result stop (Z * string) -> list hevent -> Prop) h : harmless (E_run argv 0) = true ->
  (forall e, Q (Raise (Raised e)) []) -> (forall code out, Q (Ok (code, out)) [E_run argv code]) -> acts (run_cmd argv) Q h.
Proof.
  intros Ha He HQ. unfold run_cmd. apply acts_bind, acts_ask. intros [[code out]|e]; intros h'; cbn [lift].
  - apply acts_bind, acts_ret. intros h2. apply acts_bind. exists [E_run argv code]. split_and!; cbn; [split_and!; cbn; [done|done|lia]|by constructor|].
    intros h3. apply acts_ret. apply HQ.
  - eapply acts_nothing; [reflexivity|apply extends_nil|apply He].
Qed.
Lemma acts_alarm (Q : result stop (option Z) -> list hevent -> Prop) h : (forall a, Q (Ok a) [E_alarm a]) -> acts read_rtc_wakealarm Q h.
Proof.
  intros HQ. unfold read_rtc_wakealarm. apply acts_bind, acts_ask. intros text h1. cbv zeta. apply acts_bind.
  eexists. split_and!; cbn; [split_and!; cbn; [reflexivity|done|lia]|by constructor|]. intros h2. apply acts_ret, HQ.
Qed.

(** ** Verified wake-ups *)

(** The wake is armed for the target, and its alarm was read back near it or
    its timer found active. *)
Definition wake_verified (arm : WakeArm) (target_epoch : Z) (evs : list hevent) : Prop :=
  wa_armed arm = true /\ wa_target arm = Some target_epoch /\
  ((wa_method arm = "rtcwake"%string /\
      exists alarm tolerance, E_alarm (Some alarm) ∈ evs /\ drift_tolerance = Ok tolerance /\ Z.abs (alarm - target_epoch) <= tolerance) \/
   (wa_method arm = "systemd-timer"%string /\ E_run (timer_active (wa_unit arm)) 0 ∈ evs)).
Lemma wake_verified_app arm t e1 e2 : wake_verified arm t e1 -> wake_verified arm t (e1 ++ e2).
Proof. intros (Ha & Ht & Hv). split_and!; [done..|]. destruct Hv as [(Hm & al & tol & He & Hr)|[Hm He]]; [left|right]; set_solver. Qed.
Lemma wake_verified_behind arm t e1 e2 : wake_verified arm t e2 -> wake_verified arm t (e1 ++ e2).
Proof. intros (Ha & Ht & Hv). split_and!; [done..|]. destruct Hv as [(Hm & al & tol & He & Hr)|[Hm He]]; [left|right]; set_solver. Qed.

Lemma prearmed_verified arm t h : acts (prearmed_valid arm t) (fun r evs => r = Ok true -> wake_verified arm t evs) h.
Proof.
  unfold prearmed_valid. destruct (wa_armed arm && _) eqn:Eb; [|by apply acts_ret].
  apply andb_true_iff in Eb as [Ha Ht]. apply bool_decide_eq_true in Ht.
  case_bool_decide as Hm.
  - apply acts_bind, acts_alarm. intros [alarm|] h1; [|by apply acts_ret]. apply acts_bind, acts_lift.
    destruct drift_tolerance as [tol|e] eqn:Et; [|done]. intros h2. apply acts_ret. intros [= Hl]. apply Z.leb_le in Hl.
    split_and!; [done..|]. left. split; [done|]. exists alarm, tol. split_and!; [set_solver|done|done].
  - case_bool_decide as Hs; [|by apply acts_ret]. apply acts_bind, acts_run; [done|done|]. intros code out h1. apply acts_ret.
    intros [= Hc]. cbn in Hc. apply andb_true_iff in Hc as [_ ->%Z.eqb_eq]. split_and!; [done..|]. right. split; [done|]. set_solver.
Qed.

Lemma systemd_verified t who h : acts (arm_with_systemd t who) (fun r evs => forall arm, r = Ok arm -> wa_armed arm = true -> wake_verified arm t evs) h.
Proof.
  unfold arm_with_systemd. apply acts_skip; [apply quiet_backend|done|]. intros backend e1 h1.
  case_bool_decide; [|by apply acts_ret; intros arm [= <-]].
  apply acts_bind, acts_ask. intros seconds h2. cbv zeta. apply acts_bind, acts_run; [done|done|]. intros code out h3. cbn [fst snd].
  destruct (Z.eqb_spec code 0) as [->|]; [|by apply acts_ret; intros arm [= <-]].
  apply acts_bind, acts_run; [done|done|]. intros code2 out2 h4. cbn [fst snd].
  destruct (Z.eqb_spec code2 0) as [->|]; [|by apply acts_ret; intros arm [= <-]].
  apply acts_ret. intros arm [= <-] _. split_and!; [done..|]. right. split; [done|]. cbn [wa_unit]. set_solver.
Qed.
Ltac fall_back := eapply acts_mono; [apply systemd_verified|]; intros r evs' Hv arm Hr Ha; cbv beta; repeat apply wake_verified_behind; by apply Hv.
Lemma arm_verified t who h : acts (arm_rtc_wake t who) (fun r evs => forall arm, r = Ok arm -> wa_armed arm = true -> wake_verified arm t evs) h.
Proof.
  unfold arm_rtc_wake. apply acts_skip; [apply quiet_now|done|]. intros _ e1 h1. apply acts_bind, acts_lift.
  destruct drift_tolerance as [tol|e] eqn:Et; [|done]. intros h2. apply acts_skip; [apply quiet_have|done|]. intros [] e2 h3; [|fall_back].
  apply acts_bind, acts_run; [done|done|]. intros code out h4. cbn [fst snd]. destruct (code =? 0); [|fall_back].
  apply acts_bind, acts_alarm. intros [alarm|] h5; [|fall_back]. destruct (Z.leb_spec (Z.abs (alarm - t)) tol) as [Hl|]; [|fall_back].
  apply acts_ret. intros arm [= <-] _. split_and!; [done..|]. left. split; [done|]. exists alarm, tol. split_and!; [set_solver|done|done].
Qed.

(** ** The trace of a cycle *)

Definition awake (e : hevent) : bool := match e with E_run argv _ => negb (bool_decide (argv = SUSPEND)) | _ => true end.
Definition emits {A} (m : HM A) (Q : result stop A -> list hevent -> Prop) (h : host) : Prop :=
  ends m (fun r h' => exists evs, h_trace h' = h_trace h ++ evs /\ Q r evs) h.
Definition rests (h h' : host) : Prop := exists evs, h_trace h' = h_trace h ++ evs /\ Forall (fun e => awake e = true) evs.
#[export] Instance rests_preorder : PreOrder rests.
Proof.
  split.
  - intros h. exists []. by rewrite app_nil_r.
  - intros h h1 h2 (e1 & X1 & F1) (e2 & X2 & F2). exists (e1 ++ e2). rewrite X2, X1, app_assoc. split; [done|by apply Forall_app].
Qed.
Lemma harmless_awake e : harmless e = true -> awake e = true.
Proof. destruct e; try done. cbn. by intros [-> _]%andb_true_iff. Qed.
Lemma quiet_rests h h' : quiet h h' -> rests h h'.
Proof. intros (evs & (T & _) & F). exists evs. split; [done|]. eapply Forall_impl; [exact F|apply harmless_awake]. Qed.
Lemma rests_keeps {A} (m : HM A) : keeps quiet m -> keeps rests m.
Proof. intros Hm h. apply quiet_rests, Hm. Qed.

Lemma emits_ret {A} (a : A) (Q : result stop A -> list hevent -> Prop) h : Q (Ok a) [] -> emits (mret a) Q h.
Proof. intros HQ. exists []. by rewrite app_nil_r. Qed.
Lemma emits_bind {A B} (m : HM A) (f : A -> HM B) (Q : result stop B -> list hevent -> Prop) h :
  emits m (fun r evs => match r with
                        | Ok a => forall h', emits (f a) (fun r' evs' => Q r' (evs ++ evs')) h'
                        | Raise e => Q (Raise e) evs end) h ->
  emits (m ≫= f) Q h.
Proof.
  unfold emits at 1 3, ends, mbind, ST_bind. destruct (m h) as [[a|e] h1]; cbn [fst snd].
  - intros (e1 & X1 & HQ). destruct (HQ h1) as (e2 & X2 & HQ2). exists (e1 ++ e2). by rewrite X2, X1, app_assoc.
  - intros (e1 & X1 & HQ). by exists e1.
Qed.
Lemma emits_acts {A} (m : HM A) (P Q : result stop A -> list hevent -> Prop) h :
  acts m P h -> (forall r evs, Forall (fun e => harmless e = true) evs -> P r evs -> Q r evs) -> emits m Q h.
Proof. intros (evs & (T & _) & F & HP) Hi. exists evs. split; [done|by apply Hi]. Qed.
Lemma emits_quiet {A} (m : HM A) (Q : result stop A -> list hevent -> Prop) h :
  keeps quiet m -> (forall r evs, Forall (fun e => harmless e = true) evs -> Q r evs) -> emits m Q h.
Proof. intros Hm HQ. destruct (Hm h) as (evs & (T & _) & F). exists evs. auto. Qed.
Lemma emits_rests {A} (m : HM A) (Q : result stop A -> list hevent -> Prop) h :
  keeps rests m -> (forall r evs, Forall (fun e => awake e = true) evs -> Q r evs) -> emits m Q h.
Proof. intros Hm HQ. destruct (Hm h) as (evs & T & F). exists evs. auto. Qed.

Lemma emits_mono {A} (m : HM A) (Q Q' : result stop A -> list hevent -> Prop) h : emits m Q h -> (forall r evs, Q r evs -> Q' r evs) -> emits m Q' h.
Proof. intros (evs & T & HQ) Hi. exists evs. auto. Qed.

(** The host sleeps at most once, and only after events [P] holds of. *)
Definition slept (P : list hevent -> Prop) (evs : list hevent) : Prop :=
  Forall (fun e => harmless e = true) evs \/
  exists pre code post, evs = pre ++ E_run SUSPEND code :: post /\ Forall (fun e => harmless e = true) pre /\ P pre /\
    Forall (fun e => awake e = true) post.
Lemma slept_nil P : slept P [].
Proof. left. constructor. Qed.
Lemma slept_quiet P evs : Forall (fun e => harmless e = true) evs -> slept P evs.
Proof. by left. Qed.
Lemma slept_app P e1 e2 : Forall (fun e => harmless e = true) e1 -> slept (fun pre => P (e1 ++ pre)) e2 -> slept P (e1 ++ e2).
Proof.
  intros F1 [F2|(pre & code & post & -> & F & HP & Fp)]; [left; by apply Forall_app|right].
  exists (e1 ++ pre), code, post. rewrite <-app_assoc. split_and!; [done|by apply Forall_app|done|done].
Qed.
Lemma emits_behind {A} (m : HM A) P e1 h : Forall (fun e => harmless e = true) e1 ->
  emits m (fun _ evs => slept (fun pre => P (e1 ++ pre)) evs) h -> emits m (fun _ evs => slept P (e1 ++ evs)) h.
Proof. intros F Hm. eapply emits_mono; [exact Hm|]. intros r evs Hs. by apply slept_app. Qed.
(** A quiet step on the way to sleep. *)
Lemma slept_step {A B} (m : HM A) (f : A -> HM B) (P : list hevent -> Prop) h : keeps quiet m ->
  (forall a evs h', Forall (fun e => harmless e = true) evs -> emits (f a) (fun _ evs' => slept (fun pre => P (evs ++ pre)) evs') h') ->
  emits (m ≫= f) (fun _ evs => slept P evs) h.
Proof.
  intros Hm Hf. apply emits_bind, emits_quiet; [done|]. intros [a|e] evs F; [|by left]. intros h'.
  eapply emits_mono; [by apply (Hf a evs h')|]. intros r evs' Hs. by apply slept_app.
Qed.

(** ** After the request *)

Lemma rests_append record : keeps rests (_append_ledger record).
Proof.
  unfold _append_ledger. apply keeps_bind; [exact _|apply rests_keeps, quiet_ask|]. intros ok. apply keeps_when; [exact _|].
  apply keeps_bind; [exact _| |].
  - intros h. exists [E_ledger record]. split; [done|by constructor].
  - intros _ h. exists []. split; [by rewrite app_nil_r|constructor].
Qed.
Lemma rests_trim n : keeps rests (trim_ledger n).
Proof.
  assert (Hset : forall l, keeps rests (modify (set_h_ledger l) : HM unit)) by (intros l h; exists []; split; [by rewrite app_nil_r|constructor]).
  unfold trim_ledger. apply keeps_bind; [exact _|apply rests_keeps, quiet_ask|]. intros []; [|apply keeps_ret; exact _].
  apply keeps_bind; [exact _|apply keeps_gets; exact _|]. intros lines. destruct (_ <=? _)%nat; [apply keeps_ret; exact _|].
  apply keeps_bind; [exact _|apply rests_keeps, quiet_ask|]. intros []; auto; apply keeps_ret; exact _.
Qed.
Lemma rests_now : keeps rests now_epoch.
Proof. apply rests_keeps, quiet_now. Qed.
Lemma rests_fields : keeps rests diagnostic_clock_fields.
Proof. apply rests_keeps. unfold diagnostic_clock_fields. apply keeps_bind; [exact _|apply quiet_ask|]. intros; apply keeps_ret; exact _. Qed.
#[local] Hint Resolve rests_append rests_trim rests_now rests_fields : py_keeps.
Lemma rests_done c w r x : keeps rests (ledger_record_done c w r x).
Proof. unfold ledger_record_done. solve_keeps. Qed.
Lemma rests_start c t x : keeps rests (ledger_record_start c t x).
Proof. unfold ledger_record_start. solve_keeps. Qed.
Lemma rests_undog b : keeps rests (disarm_watchdog b).
Proof. apply rests_keeps, quiet_undog. Qed.
Lemma rests_tolerance : keeps rests suspend_drift_tolerance.
Proof. apply rests_keeps, quiet_tolerance. Qed.
Lemma rests_ask {A} (f : nat -> A) : keeps rests (ask f).
Proof. apply rests_keeps, quiet_ask. Qed.
Lemma rests_wait n t i : keeps rests (wall_clock_wait_until n t i).
Proof. apply rests_keeps, quiet_wait. Qed.
Lemma rests_have n : keeps rests (have_cmd n).
Proof. apply rests_keeps, quiet_have. Qed.
Lemma rests_run argv : argv <> SUSPEND -> keeps rests (run_cmd argv).
Proof.
  intros Ha. unfold run_cmd. apply keeps_bind; [exact _|apply rests_ask|]. intros answer.
  apply keeps_bind; [exact _|apply rests_keeps, quiet_lift|]. intros r. apply keeps_bind; [exact _| |intros; apply keeps_ret; exact _].
  intros h. exists [E_run argv r.1]. split; [done|]. constructor; [|constructor]. cbn. by rewrite bool_decide_false.
Qed.
#[local] Hint Resolve rests_done rests_start rests_undog rests_tolerance rests_ask rests_wait rests_have : py_keeps.
#[local] Hint Extern 1 (keeps rests (run_cmd _)) => (apply rests_run; done) : py_keeps.
Lemma rests_disarm arm : keeps rests (disarm_rtc_wake arm).
Proof. unfold disarm_rtc_wake. solve_keeps. Qed.
Lemma rests_after t c arm dog clk i n : keeps rests (after_suspend t c arm dog clk i n).
Proof. unfold after_suspend. cbv zeta. solve_keeps. Qed.
#[local] Hint Resolve rests_disarm rests_after : py_keeps.

(** ** The way to the request *)

(** The caller's own check neither sleeps nor takes a wake back, and when it
    finds nothing, [P] holds of the mission database. *)
Definition check_quiet (P : database -> Prop) (rq : suspend_request) : Prop :=
  forall check, rq_pre_suspend_check rq = Some check ->
    keeps quiet check /\ forall h h', check h = (Ok EmptyString, h') -> P (w_db (h_world h)).
Definition start_recorded (target_epoch : Z) (cycle_id : string) (evs : list hevent) : Prop :=
  exists record, E_ledger record ∈ evs /\ dget "event" record = Some (JStr "suspend_start") /\
    dget "cycle_id" record = Some (JStr cycle_id) /\ dget "target_epoch" record = Some (JInt target_epoch).
Definition cleared (P : database -> Prop) (target_epoch : Z) (rq : suspend_request) (cycle_id : string) (evs : list hevent) : Prop :=
  (is_Some (rq_pre_suspend_check rq) -> exists d, E_check EmptyString d ∈ evs /\ P d) /\
  ((forall n, append_ok n = true) -> start_recorded target_epoch cycle_id evs).

Lemma emits_ask {A} (f : nat -> A) (Q : result stop A -> list hevent -> Prop) h : (forall a, Q (Ok a) []) -> emits (ask f) Q h.
Proof. intros HQ. exists []. rewrite app_nil_r. split; [done|apply HQ]. Qed.
Lemma emits_append record (Q : result stop unit -> list hevent -> Prop) h :
  (forall evs, Forall (fun e => harmless e = true) evs -> ((forall n, append_ok n = true) -> evs = [E_ledger record]) -> Q (Ok tt) evs) ->
  emits (_append_ledger record) Q h.
Proof.
  intros HQ. unfold _append_ledger, emits, ends, ask, mbind, ST_bind. destruct (append_ok (h_tick h)) eqn:Eo; cbn [when].
  - exists [E_ledger record]. split; [done|]. apply HQ; [by constructor|done].
  - exists []. rewrite app_nil_r. split; [done|]. apply HQ; [constructor|]. intros Ha. by rewrite Ha in Eo.
Qed.
Lemma emits_start c t who m conf dog (Q : result stop unit -> list hevent -> Prop) h :
  (forall e, Q (Raise e) []) -> (forall evs, Forall (fun e => harmless e = true) evs -> ((forall n, append_ok n = true) -> start_recorded t c evs) -> Q (Ok tt) evs) ->
  emits (ledger_record_start c t [("who", JStr who); ("method", m); ("confirmed", conf); ("watchdog", dog)]%string) Q h.
Proof.
  intros He HQ. unfold ledger_record_start. apply emits_bind.
  assert (Hnow : emits now_epoch (fun r evs => evs = []) h).
  { unfold now_epoch, lift, fails, ask, emits, ends, mbind, ST_bind. destruct (getenv _) as [o|]; [|by exists []; rewrite app_nil_r].
    destruct (truthy_str o); [|by exists []; rewrite app_nil_r]. destruct (int_float o) as [[z|]|e]; by exists []; rewrite app_nil_r. }
  eapply emits_mono; [exact Hnow|]. intros r evs ->. destruct r as [started|e]; [|apply He].
  intros h2. unfold diagnostic_clock_fields. apply emits_bind, emits_bind, emits_ask. intros clocks h3. apply emits_ret. intros h4.
  apply emits_append. intros evs F Hev. apply HQ; [done|]. intros Ha. rewrite (Hev Ha). eexists. split; [left|]. by destruct clocks as [[] []].
Qed.

Lemma emits_suspend (Q : result stop (Z * string) -> list hevent -> Prop) h :
  (forall e, Q (Raise (Raised e)) []) -> (forall code out, Q (Ok (code, out)) [E_run SUSPEND code]) -> emits (run_cmd SUSPEND) Q h.
Proof.
  intros He HQ. unfold run_cmd, ask, emits, ends, mbind, ST_bind. destruct (exits _ _) as [[code out]|e]; cbn.
  - exists [E_run SUSPEND code]. split; [done|apply HQ].
  - exists []. rewrite app_nil_r. split; [done|apply He].
Qed.
Lemma armed_slept P t lead rq c arm h : check_quiet P rq -> emits (suspend_armed t lead rq c arm) (fun _ evs => slept (cleared P t rq c) evs) h.
Proof.
  intros Hck. unfold suspend_armed. apply emits_bind.
  assert (Hcheck : emits (match rq_pre_suspend_check rq with
      Some check => d ← gets (fun h => w_db (h_world h)); reason ← check; did (E_check reason d) ;; mret reason | None => mret EmptyString end)
    (fun r evs => Forall (fun e => harmless e = true) evs /\ (r = Ok EmptyString -> is_Some (rq_pre_suspend_check rq) -> exists d, E_check EmptyString d ∈ evs /\ P d)) h).
  { destruct (rq_pre_suspend_check rq) as [check|] eqn:Ec; [|by apply emits_ret; split; [constructor|intros _ []]].
    destruct (Hck check Ec) as [Hq HP]. destruct (Hq h) as (evs & (T & _) & F). specialize (HP h).
    unfold emits, ends, mbind, ST_bind, gets, did, modify, mret, ST_ret. destruct (check h) as [[reason|e] h1]; cbn in *.
    - exists (evs ++ [E_check reason (w_db (h_world h))]). rewrite T, app_assoc. split; [done|].
      split; [by apply Forall_app; split; [|constructor]|]. intros [= ->] _. exists (w_db (h_world h)). split; [set_solver|by eapply HP].
    - exists evs. by split. }
  eapply emits_mono; [exact Hcheck|]. intros r e1 [F Hr]. destruct r as [reason|e]; [|by left].
  intros h2. destruct (truthy_str reason) eqn:Et; [by apply emits_ret; rewrite app_nil_r; left|].
  assert (reason = EmptyString) as -> by (unfold truthy_str in Et; by bool_to_prop).
  apply emits_behind; [done|].
  apply slept_step; [apply quiet_watchdog|]. intros dog e2 h3 F2.
  apply emits_bind, emits_start; [intros; apply slept_nil|]. intros e3 F3 Hstart h4.
  apply emits_behind; [done|].
  apply slept_step; [apply quiet_run; reflexivity|]. intros [] e4 h5 F4.
  apply slept_step; [apply quiet_ask|]. intros clk e5 h6 F5.
  apply emits_bind, emits_suspend; [intros; apply slept_nil|]. intros code out h7.
  apply emits_rests.
  - cbn [fst]. destruct (negb _); [|apply rests_after]. solve_keeps.
  - intros r evs F6. right. exists [], code, evs. split_and!; [done|constructor| |done].
    split.
    + intros Hc. destruct (Hr eq_refl Hc) as (d & Hd & HPd). exists d. split; [|done]. rewrite !elem_of_app. naive_solver.
    + intros Ha. destruct (Hstart Ha) as (record & Hin & Hrec). exists record. split; [|done]. rewrite !elem_of_app. naive_solver.
Qed.

Definition slept_rightly (P : database -> Prop) (target_epoch : Z) (rq : suspend_request) (evs : list hevent) : Prop :=
  exists arm cycle_id, wake_verified arm target_epoch evs /\ cleared P target_epoch rq cycle_id evs.
Lemma slept_rightly_behind P t rq e1 e2 : slept_rightly P t rq e2 -> slept_rightly P t rq (e1 ++ e2).
Proof.
  intros (arm & c & Hv & Hc & Hr). exists arm, c. split; [by apply wake_verified_behind|]. split; [intros Hx; destruct (Hc Hx) as (d & Hd & HPd); exists d; split; [set_solver|done]|].
  intros Hx. destruct (Hr Hx) as (record & Hin & Hrec). exists record. split; [set_solver|done].
Qed.
Lemma slept_skip {A B} (m : HM A) (f : A -> HM B) P t rq h : keeps quiet m ->
  (forall a h', emits (f a) (fun _ evs => slept (slept_rightly P t rq) evs) h') -> emits (m ≫= f) (fun _ evs => slept (slept_rightly P t rq) evs) h.
Proof.
  intros Hm Hf. apply slept_step; [done|]. intros a evs h' _. eapply emits_mono; [apply Hf|].
  intros r evs' [Hs|(pre & code & post & -> & F2 & HP & F3)]; [by left|right]. exists pre, code, post. split_and!; try done. by apply slept_rightly_behind.
Qed.

Lemma verified_slept P t rq lead c arm e1 h : check_quiet P rq -> Forall (fun e => harmless e = true) e1 -> wake_verified arm t e1 ->
  emits (suspend_armed t lead rq c arm) (fun _ evs => slept (slept_rightly P t rq) (e1 ++ evs)) h.
Proof.
  intros Hck F Hv. apply emits_behind; [done|]. eapply emits_mono; [by apply armed_slept|].
  intros r evs [Hs|(pre & code & post & -> & F2 & [Hc Hr] & F3)]; [by left|right]. exists pre, code, post. split_and!; try done.
  exists arm, c. split; [by apply wake_verified_app|]. split; [intros Hx; destruct (Hc Hx) as (d & Hd & HPd); exists d; split; [set_solver|done]|].
  intros Hx. destruct (Hr Hx) as (record & Hin & Hrec). exists record. split; [set_solver|done].
Qed.
Lemma cycle_slept P t rq h : check_quiet P rq -> emits (_suspend_with_wake_locked t rq) (fun _ evs => slept (slept_rightly P t rq) evs) h.
Proof.
  intros Hck. unfold _suspend_with_wake_locked. cbv zeta.
  assert (Hret : forall o h', emits (mret o : HM SuspendOutcome) (fun _ evs => slept (slept_rightly P t rq) evs) h') by (intros; by apply emits_ret, slept_nil).
  apply slept_skip; [apply quiet_now|]. intros now h0.
  apply slept_skip; [destruct (_ ≫= _); [apply keeps_ret; exact _|apply keeps_bind; [exact _|apply quiet_ask|intros; apply keeps_ret; exact _]]|]. intros c h1.
  apply slept_skip; [destruct (rq_min_lead rq); [apply keeps_ret; exact _|]; destruct (int_of_text _); [apply keeps_ret; exact _|apply keeps_raise; exact _]|]. intros floor h2.
  case_bool_decide; [apply Hret|]. apply slept_skip; [apply quiet_backend|]. intros backend h3.
  case_bool_decide; [apply Hret|]. destruct (_ <? floor); [apply Hret|].
  destruct (rq_wake_arm rq) as [arm|].
  - apply emits_bind. eapply emits_acts; [apply prearmed_verified|]. intros [valid|e] evs F Hv; [|by left]. intros h4.
    destruct valid; [by apply verified_slept; [| |apply Hv]|]. by apply emits_ret; rewrite app_nil_r; left.
  - apply emits_bind. eapply emits_acts; [apply arm_verified|]. intros [arm|e] evs F Hv; [|by left]. intros h4.
    destruct (wa_armed arm) eqn:Ea; [by apply verified_slept; [| |apply Hv]|]. by apply emits_ret; rewrite app_nil_r; left.
Qed.
End laws.

(** ** The host sleeps only behind a wake *)

(** The host is put to sleep at most once per call and never without a way
    back.  Whatever its commands and clocks answer, and whether the call
    returns, raises or still waits: before [systemctl suspend] runs, a wake for
    the target has been verified - the alarm read back within the tolerance,
    or its timer found active - and not been taken back, the caller's check
    has found nothing - so that what it establishes of the database holds - and the start is in the ledger unless it cannot be
    written. *)
Theorem sleeps_only_behind_a_wake (E : HostEnv) (P : database -> Prop) (target_epoch : Z) (rq : suspend_request) (h : host) :
  check_quiet P rq ->
  exists evs, h_trace (suspend_with_wake target_epoch rq h).2 = h_trace h ++ evs /\ slept (slept_rightly P target_epoch rq) evs.
Proof. intros Hck. by apply (cycle_slept P target_epoch rq h). Qed.

(** A host that has [rtcwake], reads the alarm back and sleeps as asked. *)
Definition demo_host_env : HostEnv := {|
  getenv _ := None;
  found _ _ := true;
  exits _ _ := Ok (0, EmptyString);
  alarm_file _ := Some "5000"%string;
  time_s n := 1000 + 100 * Z.of_nat n;
  time_ms n := 1000 * (1000 + 100 * Z.of_nat n);
  clock_sample n := Some (200 * inject_Z (Z.of_nat n), inject_Z (Z.of_nat n))%Q;
  clock_fields n := (Fin 0, Fin 0, None);
  watchdog_opens _ := true;
  append_ok _ := true;
  ledger_readable _ := true;
  rewrite_ends _ := RW_done;
  float_text t := (fun z => Fin (inject_Z z)) <$> int_of_text t;
  rounded q := q;
  round3 q := q;
  fixed3 _ := "0.000"%string;
  text_of_json _ := EmptyString;
  pid := 7;
|}.
Definition demo_host : host := Host 0 [] [] ∅ None (World empty_database 0).
Definition demo_check : HM string :=
  d ← gets (fun h => w_db (h_world h)); mret (match operations d with [] => EmptyString | _ => "busy"%string end).
Definition demo_request : suspend_request := Request "bridge" None true (Some "c1"%string) None (Some demo_check) None 40.

Lemma sleeps_only_behind_a_wake_witness :
  exists pre post, h_trace (suspend_with_wake (H := demo_host_env) 5000 demo_request demo_host).2 = pre ++ E_run SUSPEND 0 :: post /\
    exists arm, wake_verified (H := demo_host_env) arm 5000 pre.
Proof.
  assert (Hin : existsb (fun e => negb (harmless e)) (h_trace (suspend_with_wake (H := demo_host_env) 5000 demo_request demo_host).2) = true) by (vm_compute; reflexivity).
  assert (Hz : forallb (fun e => match e with E_run argv z => negb (bool_decide (argv = SUSPEND)) || (z =? 0) | _ => true end)
      (h_trace (suspend_with_wake (H := demo_host_env) 5000 demo_request demo_host).2) = true) by (vm_compute; reflexivity).
  assert (Hck : check_quiet (fun d => operations d = []) demo_request).
  { intros check [= <-]. unfold demo_check. split; [solve_keeps|]. intros h h'. unfold gets, mbind, ST_bind, mret, ST_ret.
    destruct (operations _) eqn:Eo; [|done]. by intros [= <-]. }
  destruct (sleeps_only_behind_a_wake demo_host_env (fun d => operations d = []) 5000 demo_request demo_host Hck) as (evs & T & Hs).
  revert Hin Hz T. generalize (h_trace (suspend_with_wake (H := demo_host_env) 5000 demo_request demo_host).2). intros trace Hin Hz ->.
  cbn [h_trace demo_host app] in *. destruct Hs as [F|(pre & code & post & -> & _ & (arm & c & Hv & _) & _)].
  - exfalso. rewrite Forall_forall in F. apply existsb_exists in Hin as (e & Hin & He). rewrite (F e) in He; [done|by apply list_elem_of_In].
  - rewrite forallb_forall in Hz. specialize (Hz (E_run SUSPEND code) ltac:(apply in_or_app; right; left; reflexivity)). cbn in Hz.
    apply Z.eqb_eq in Hz as ->. exists pre, post. split; [done|by exists arm].
Defined.
