(* ===== verification/SuspendLedger.v ===== *)
(** * The ledger of suspend cycles, the wait, and what outcomes claim *)

From Stdlib Require Import QArith.
From S2P Require Import Prelude Py StoreData StoreTasks StoreApi Suspend SuspendLaws.
From stdpp Require Import options.
Local Open Scope Z_scope.

(** ** What the reader of the ledger finds *)

Section reader.
Context `{HostEnv}.

Definition starts_ok (acc : list (string * json) * list string) : Prop := forall c j, (c, j) ∈ acc.1 -> record_id j = c.
Lemma put_start_elem cid j l c j' : (c, j') ∈ put_start cid j l -> (c = cid /\ j' = j) \/ (c, j') ∈ l.
Proof.
  induction l as [|[c0 j0] l IH]; cbn; [intros E%list_elem_of_singleton; injection E as -> ->; auto|].
  case_bool_decide; rewrite !elem_of_cons; intros [E|Hin]; [injection E as -> ->; auto|auto|injection E as -> ->; auto|].
  apply IH in Hin. tauto.
Qed.
Lemma put_start_there cid j l : (cid, j) ∈ put_start cid j l.
Proof. induction l as [|[c0 j0] l IH]; cbn; [left|]. case_bool_decide as E; [rewrite E; left|by right]. Qed.
Lemma put_start_other cid j l c j' : c <> cid -> (c, j') ∈ l -> (c, j') ∈ put_start cid j l.
Proof.
  intros Hne. induction l as [|[c0 j0] l IH]; [by intros ?%not_elem_of_nil|]. cbn. rewrite elem_of_cons. intros [E|Hin].
  - simplify_eq. rewrite bool_decide_false by done. left.
  - case_bool_decide; right; [done|by apply IH].
Qed.
Lemma ledger_step_ok acc line : starts_ok acc -> starts_ok (ledger_step acc line).
Proof.
  intros Hok. unfold ledger_step. destruct line as [[]|]; try done. destruct (negb _); [done|].
  case_bool_decide; [|case_bool_decide; done]. intros c j [[-> ->]|Hin]%put_start_elem; [done|by apply Hok].
Qed.
Lemma ledger_steps_ok lines acc : starts_ok acc -> starts_ok (foldl ledger_step acc lines).
Proof. revert acc. induction lines as [|x l IH]; intros acc Hok; [done|]. by apply IH, ledger_step_ok. Qed.

Lemma incomplete_elem lines j : j ∈ incomplete_suspend_cycles lines ->
  record_id j ∉ (foldl ledger_step ([], []) lines).2.
Proof.
  unfold incomplete_suspend_cycles. pose proof (ledger_steps_ok lines ([], [])) as Hok.
  destruct (foldl ledger_step ([], []) lines) as [starts finished]. intros (s & -> & [Hin Hn]%elem_of_select)%list_elem_of_fmap.
  bool_to_prop. destruct s as [c j]. cbn in *. rewrite (Hok ltac:(by intros ? ? ?%not_elem_of_nil) c j); [done|exact Hin].
Qed.

(** A record of the cycle [c]. *)
Definition cycle_record (event c : string) (d : dict) : Prop :=
  dget "event" d = Some (JStr event) /\ dget "cycle_id" d = Some (JStr c).
Lemma cycle_record_id event c d : cycle_record event c d -> c <> EmptyString -> record_id (JObj d) = c.
Proof. intros [_ Hc] Hne. unfold record_id. cbn [jget]. rewrite Hc. cbn. unfold truthy_str. by rewrite bool_decide_false. Qed.

Lemma done_is_complete lines c d j : c <> EmptyString -> cycle_record "suspend_done" c d ->
  j ∈ incomplete_suspend_cycles (lines ++ [Some (JObj d)]) -> record_id j <> c.
Proof.
  intros Hne Hd Hj%incomplete_elem. rewrite foldl_app in Hj. cbn [foldl] in Hj. unfold ledger_step at 1 in Hj.
  rewrite (cycle_record_id _ _ _ Hd Hne) in Hj. unfold truthy_str in Hj. rewrite bool_decide_false in Hj by done. cbn [negb] in Hj.
  destruct Hd as [He _]. unfold record_event in Hj. cbn [jget] in Hj. rewrite He in Hj. cbn in Hj. set_solver.
Qed.
Definition not_done (c : string) (lines : list (option json)) : Prop := c ∉ (foldl ledger_step ([], []) lines).2.
Lemma start_is_incomplete lines c d : c <> EmptyString -> cycle_record "suspend_start" c d -> not_done c lines ->
  JObj d ∈ incomplete_suspend_cycles (lines ++ [Some (JObj d)]).
Proof.
  intros Hne Hd Hn. unfold incomplete_suspend_cycles, not_done in *. rewrite foldl_app. cbn [foldl].
  destruct (foldl ledger_step ([], []) lines) as [starts finished]. unfold ledger_step.
  rewrite (cycle_record_id _ _ _ Hd Hne). unfold truthy_str. rewrite bool_decide_false by done. cbn [negb].
  destruct Hd as [He _]. unfold record_event. cbn [jget]. rewrite He, bool_decide_true by done. cbn [fst snd].
  apply list_elem_of_fmap. exists (c, JObj d). split; [done|]. apply elem_of_select. split; [apply put_start_there|].
  cbn. by rewrite bool_decide_false.
Qed.
End reader.

(** ** Steps that leave the ledger alone and do not wait *)

Definition calm `{HostEnv} {A} (m : HM A) : Prop := forall h, h_ledger (m h).2 = h_ledger h /\ (m h).1 <> Raise Waiting.
Create HintDb host_calm.

Section calm.
Context `{HostEnv}.

Lemma calm_ret {A} (a : A) : calm (mret a).
Proof. by intros h. Qed.
Lemma calm_fails {A} e : calm (fails e : HM A).
Proof. by intros h. Qed.
Lemma calm_ask {A} (f : nat -> A) : calm (ask f).
Proof. by intros h. Qed.
Lemma calm_did e : calm (did e).
Proof. by intros h. Qed.
Lemma calm_lift {A} (r : result exn A) : calm (lift r).
Proof. intros h. by destruct r. Qed.
Lemma calm_bind {A B} (m : HM A) (f : A -> HM B) : calm m -> (forall a, calm (f a)) -> calm (m ≫= f).
Proof.
  intros Hm Hf h. specialize (Hm h). unfold mbind, ST_bind. destruct (m h) as [[a|e] h1]; cbn in *; [|naive_solver].
  destruct Hm as [Hl _]. specialize (Hf a h1). rewrite Hl in Hf. done.
Qed.
Lemma calm_when b (m : HM unit) : calm m -> calm (when b m).
Proof. destruct b; [done|intros _; apply calm_ret]. Qed.
#[local] Hint Resolve calm_ret calm_fails calm_ask calm_did calm_lift : host_calm.
Ltac calm_step :=
  match goal with
  | |- forall _, _ => intros ?
  | |- calm (if ?b then _ else _) => destruct b
  | |- calm (match ?x with _ => _ end) => destruct x
  | |- calm (_ ≫= _) => apply calm_bind
  | |- calm (when _ _) => apply calm_when
  | |- calm _ => solve [eauto 3 with host_calm]
  end.
Ltac solve_calm := cbv zeta; repeat calm_step.
Lemma calm_run argv : calm (run_cmd argv).
Proof. unfold run_cmd. solve_calm. Qed.
Lemma calm_have n : calm (have_cmd n).
Proof. unfold have_cmd. solve_calm. Qed.
Lemma calm_now : calm now_epoch.
Proof. unfold now_epoch. solve_calm. Qed.
#[local] Hint Resolve calm_run calm_have calm_now : host_calm.
Lemma calm_backend : calm power_backend.
Proof. unfold power_backend. solve_calm. Qed.
Lemma calm_alarm : calm read_rtc_wakealarm.
Proof. unfold read_rtc_wakealarm. solve_calm. Qed.
Lemma calm_tolerance : calm suspend_drift_tolerance.
Proof. unfold suspend_drift_tolerance. solve_calm. Qed.
#[local] Hint Resolve calm_backend calm_alarm calm_tolerance : host_calm.
Lemma calm_systemd t who : calm (arm_with_systemd t who).
Proof. unfold arm_with_systemd. solve_calm. Qed.
#[local] Hint Resolve calm_systemd : host_calm.
Lemma calm_arm t who : calm (arm_rtc_wake t who).
Proof. unfold arm_rtc_wake. solve_calm. Qed.
Lemma calm_prearmed arm t : calm (prearmed_valid arm t).
Proof. unfold prearmed_valid. solve_calm. Qed.
Lemma calm_watchdog b l : calm (arm_watchdog b l).
Proof. unfold arm_watchdog. solve_calm. Qed.
Lemma calm_undog b : calm (disarm_watchdog b).
Proof. unfold disarm_watchdog. solve_calm. Qed.
Lemma calm_disarm arm : calm (disarm_rtc_wake arm).
Proof. unfold disarm_rtc_wake. solve_calm. Qed.
Lemma calm_fields : calm diagnostic_clock_fields.
Proof. unfold diagnostic_clock_fields. solve_calm. Qed.

Lemma ends_calm {A} (m : HM A) (Q : result stop A -> host -> Prop) h : calm m ->
  (forall r h', r <> Raise Waiting -> h_ledger h' = h_ledger h -> Q r h') -> ends m Q h.
Proof. intros Hm HQ. destruct (Hm h) as [Hl Hr]. by apply HQ. Qed.
Lemma ends_ask {A} (f : nat -> A) (Q : result stop A -> host -> Prop) h :
  (forall h', h_ledger h' = h_ledger h -> Q (Ok (f (h_tick h))) h') -> ends (ask f) Q h.
Proof. intros HQ. by apply HQ. Qed.
(** A calm step before the rest of the cycle. *)
Lemma ends_step {A B} (m : HM A) (f : A -> HM B) (Q : result stop B -> host -> Prop) h : calm m ->
  (forall e h', Q (Raise (Raised e)) h') -> (forall a h', h_ledger h' = h_ledger h -> ends (f a) Q h') -> ends (m ≫= f) Q h.
Proof. intros Hm He Hf. apply ends_bind, ends_calm; [done|]. intros [a|[e|]] h' Hr Hl; [by apply Hf|apply He|done]. Qed.
End calm.

#[export] Hint Resolve calm_ret calm_fails calm_ask calm_did calm_lift calm_run calm_have calm_now calm_backend calm_alarm calm_tolerance
  calm_systemd calm_arm calm_prearmed calm_watchdog calm_undog calm_disarm calm_fields : host_calm.

(** ** The ledger of a cycle *)

Section cycle.
Context `{HostEnv}.
Context (writable : forall n, append_ok n = true) (uncut : forall n k, rewrite_ends n <> RW_cut k).

Lemma ends_append record (Q : result stop unit -> host -> Prop) h :
  (forall h', h_ledger h' = h_ledger h ++ [Some (JObj record)] -> Q (Ok tt) h') -> ends (_append_ledger record) Q h.
Proof using writable. intros HQ. unfold _append_ledger, ends, ask, mbind, ST_bind. rewrite writable. by apply HQ. Qed.

(** What the end of a cycle leaves: the last lines, with its record. *)
Definition closed (c : string) (L L' : list (option json)) : Prop :=
  exists k d, (k <= S (length L) - 200)%nat /\ L' = drop k (L ++ [Some (JObj d)]) /\ cycle_record "suspend_done" c d.

Lemma ends_trim (Q : result stop unit -> host -> Prop) h :
  (forall h' k, (k <= length (h_ledger h) - 200)%nat -> h_ledger h' = drop k (h_ledger h) -> Q (Ok tt) h') -> ends (trim_ledger 200) Q h.
Proof using uncut.
  intros HQ. unfold trim_ledger. apply ends_bind, ends_ask. intros h1 Hl.
  assert (Hsame : forall h', h_ledger h' = h_ledger h -> Q (Ok tt) h') by (intros h' Hl'; apply (HQ h' 0%nat); [lia|by rewrite drop_0]).
  destruct (ledger_readable _); [|by apply ends_ret, Hsame]. apply ends_bind. unfold ends at 1, gets. cbn [fst snd]. rewrite Hl.
  destruct (Nat.leb_spec (length (h_ledger h)) 200); [by apply ends_ret, Hsame|].
  apply ends_bind, ends_ask. intros h2 Hl2. destruct (rewrite_ends _) as [| |n] eqn:Ew.
  - by eapply HQ.
  - apply ends_ret, Hsame. congruence.
  - by apply uncut in Ew.
Qed.

Lemma dget_dupdate_other k (d e : dict) : dget k e = None -> dget k (dupdate d e) = dget k d.
Proof using Type.
  unfold dupdate. revert d. induction e as [|[k' v] e IH]; intros d He; [done|]. cbn in He |- *. case_bool_decide; [done|].
  rewrite IH by done. by apply dget_dset_ne.
Qed.
(** The record of a start or an end carries its event and cycle, whatever else. *)
Lemma record_kept event c a b rest clocks x :
  dget "event" clocks = None -> dget "cycle_id" clocks = None -> dget "event" x = None -> dget "cycle_id" x = None ->
  a = "event"%string -> b = "cycle_id"%string ->
  cycle_record event c (dupdate (dupdate ((a, JStr event) :: (b, JStr c) :: rest) clocks) x).
Proof using Type. intros C1 C2 X1 X2 -> ->. split; by rewrite !dget_dupdate_other. Qed.
Lemma ends_fields (Q : result stop dict -> host -> Prop) h :
  (forall clocks h', dget "event" clocks = None -> dget "cycle_id" clocks = None -> h_ledger h' = h_ledger h -> Q (Ok clocks) h') ->
  ends diagnostic_clock_fields Q h.
Proof using Type. intros HQ. unfold diagnostic_clock_fields. apply ends_bind, ends_ask. intros h1 Hl. apply ends_ret, HQ; [reflexivity..|done]. Qed.

Lemma ends_done c woke reliable x (Q : result stop unit -> host -> Prop) h : dget "event" x = None -> dget "cycle_id" x = None ->
  (forall h' d, h_ledger h' = h_ledger h ++ [Some (JObj d)] -> cycle_record "suspend_done" c d -> Q (Ok tt) h') ->
  ends (ledger_record_done c woke reliable x) Q h.
Proof using writable.
  intros X1 X2 HQ. unfold ledger_record_done. apply ends_bind, ends_fields. intros clocks h1 C1 C2 Hl.
  apply ends_append. intros h2 Hl2. eapply HQ; [by rewrite Hl2, Hl|]. by apply record_kept.
Qed.
Lemma ends_start c target x (Q : result stop unit -> host -> Prop) h : dget "event" x = None -> dget "cycle_id" x = None ->
  (forall e h', Q (Raise (Raised e)) h') ->
  (forall h' d, h_ledger h' = h_ledger h ++ [Some (JObj d)] -> cycle_record "suspend_start" c d -> Q (Ok tt) h') ->
  ends (ledger_record_start c target x) Q h.
Proof using writable.
  intros X1 X2 He HQ. unfold ledger_record_start. apply ends_step; [apply calm_now|done|]. intros started h0 Hl0.
  apply ends_bind, ends_fields. intros clocks h1 C1 C2 Hl.
  apply ends_append. intros h2 Hl2. eapply HQ; [by rewrite Hl2, Hl, Hl0|]. by apply record_kept.
Qed.
Lemma ends_finish {A} c woke reliable x (o : A) (Q : result stop A -> host -> Prop) h : dget "event" x = None -> dget "cycle_id" x = None ->
  (forall h', closed c (h_ledger h) (h_ledger h') -> Q (Ok o) h') ->
  ends (ledger_record_done c woke reliable x ;; trim_ledger 200 ;; mret o) Q h.
Proof using writable uncut.
  intros X1 X2 HQ. apply ends_bind, ends_done; [done..|]. intros h1 d Hl Hd. apply ends_bind, ends_trim. intros h2 k Hk Hl2.
  apply ends_ret, HQ. exists k, d. rewrite Hl, length_app in Hk. split_and!; [cbn in Hk; lia|congruence|done].
Qed.

(** ** The wait *)

Lemma wait_ledger n t ch i h : h_ledger (wait_rounds n t ch i h).2 = h_ledger h.
Proof using Type. destruct (quiet_wait n t ch i h) as (evs & (_ & Hl & _) & _). exact Hl. Qed.

(** What a cycle leaves behind once its start is written. *)
Definition ended_cycle (c : string) (L : list (option json)) (r : result stop SuspendOutcome) (L' : list (option json)) : Prop :=
  match r with
  | Ok _ => closed c L L'
  | Raise Waiting => L' = L
  | Raise (Raised _) => True
  end.
Lemma after_ledger t c arm dog clk i n h :
  ends (after_suspend t c arm dog clk i n) (fun r h' => ended_cycle c (h_ledger h) r (h_ledger h')) h.
Proof using writable uncut.
  unfold after_suspend. apply ends_bind. unfold wall_clock_wait_until.
  apply (ends_keeps (fun h h' => h_ledger h' = h_ledger h)); [intros h0; apply wait_ledger|]. intros [x|[e|]] h1 Hl; [|done|exact Hl].
  assert (Hfin : forall woke reliable x o h', dget "event" x = None -> dget "cycle_id" x = None -> h_ledger h' = h_ledger h ->
    ends (ledger_record_done c woke reliable x ;; trim_ledger 200 ;; mret o) (fun r h' => ended_cycle c (h_ledger h) r (h_ledger h')) h').
  { intros woke reliable x0 o h' X1 X2 Hl'. apply ends_finish; [done..|]. intros h2 Hc. cbn. by rewrite <-Hl'. }
  apply ends_bind, ends_ask. intros h2 Hl2. cbv zeta.
  apply ends_step; [apply calm_undog|done|]. intros _ h3 Hl3. apply ends_step; [apply calm_now|done|]. intros woke h4 Hl4.
  assert (h_ledger h4 = h_ledger h) as Hl5 by congruence.
  destruct (suspend_clock_gap_seconds _ _) as [gap|]; [|by apply Hfin].
  destruct (Qle_bool 2 gap); [|by apply Hfin].
  apply ends_step; [apply calm_tolerance|done|]. intros tol h5 Hl6. apply Hfin; [done..|congruence].
Qed.

(** What a call leaves behind: nothing new, a finished cycle, or the start of
    one that still runs. *)
Definition ledgered (c : string) (L : list (option json)) (r : result stop SuspendOutcome) (L' : list (option json)) : Prop :=
  match r with
  | Ok _ => L' = L \/ exists d, cycle_record "suspend_start" c d /\ closed c (L ++ [Some (JObj d)]) L'
  | Raise Waiting => exists d, cycle_record "suspend_start" c d /\ L' = L ++ [Some (JObj d)]
  | Raise (Raised _) => True
  end.
Definition check_calm (rq : suspend_request) : Prop := forall check, rq_pre_suspend_check rq = Some check -> calm check.

Lemma armed_ledger t lead rq c arm h : check_calm rq ->
  ends (suspend_armed t lead rq c arm) (fun r h' => ledgered c (h_ledger h) r (h_ledger h')) h.
Proof using writable uncut.
  intros Hck. unfold suspend_armed. apply ends_step; [|done|].
  { destruct (rq_pre_suspend_check rq) as [check|] eqn:Ec; [|apply calm_ret]. apply calm_bind; [by intros h0|]. intros d.
    apply calm_bind; [by apply Hck|]. intros reason. apply calm_bind; [apply calm_did|intros; apply calm_ret]. }
  intros reason h1 Hl1. destruct (truthy_str reason); [apply ends_ret; by left|].
  apply ends_step; [apply calm_watchdog|done|]. intros dog h2 Hl2.
  apply ends_bind, ends_start; [done..|]. intros h3 d Hl3 Hd.
  apply ends_step; [apply calm_run|done|]. intros _ h4 Hl4. apply ends_bind, ends_ask. intros h5 Hl5.
  apply ends_step; [apply calm_run|done|]. intros suspend h6 Hl6.
  assert (Hl : h_ledger h6 = h_ledger h ++ [Some (JObj d)]) by congruence.
  destruct (negb _).
  - apply ends_step; [apply calm_disarm|done|]. intros _ h7 Hl7. apply ends_step; [apply calm_undog|done|]. intros _ h8 Hl8.
    apply ends_step; [apply calm_now|done|]. intros woke h9 Hl9. apply ends_finish; [done..|]. intros h' Hc. right. exists d. split; [done|].
    assert (h_ledger h9 = h_ledger h ++ [Some (JObj d)]) as <- by congruence. exact Hc.
  - eapply ends_mono; [apply after_ledger|]. intros r h' Hr. rewrite Hl in Hr. destruct r as [o|[e|]]; cbn in *; [|done|]; eauto.
Qed.

Lemma cycle_ledger t rq c h : check_calm rq -> rq_cycle_id rq = Some c -> c <> EmptyString ->
  ends (_suspend_with_wake_locked t rq) (fun r h' => ledgered c (h_ledger h) r (h_ledger h')) h.
Proof using writable uncut.
  intros Hck Hc Hne. unfold _suspend_with_wake_locked. cbv zeta.
  assert (Hsame : forall o h', h_ledger h' = h_ledger h -> ends (mret o : HM SuspendOutcome) (fun r h2 => ledgered c (h_ledger h) r (h_ledger h2)) h')
    by (intros; apply ends_ret; by left).
  assert (Harmed : forall arm lead h', h_ledger h' = h_ledger h ->
    ends (suspend_armed t lead rq c arm) (fun r h2 => ledgered c (h_ledger h) r (h_ledger h2)) h').
  { intros arm lead h' Hl. rewrite <-Hl. by apply armed_ledger. }
  apply ends_step; [apply calm_now|done|]. intros now h1 Hl1. rewrite Hc.
  assert (Some c ≫= opt_str = Some c) as -> by (cbn; unfold opt_str, truthy_str; by rewrite bool_decide_false).
  apply ends_bind, ends_ret.
  apply ends_step; [destruct (rq_min_lead rq); [|destruct (int_of_text _)]; auto with host_calm|done|]. intros floor h2 Hl2.
  case_bool_decide; [apply Hsame; congruence|]. apply ends_step; [apply calm_backend|done|]. intros backend h3 Hl3.
  case_bool_decide; [apply Hsame; congruence|]. destruct (_ <? floor); [apply Hsame; congruence|].
  destruct (rq_wake_arm rq) as [arm|].
  - apply ends_step; [apply calm_prearmed|done|]. intros [] h4 Hl4; [apply Harmed|apply Hsame]; congruence.
  - apply ends_step; [apply calm_arm|done|]. intros arm h4 Hl4. destruct (wa_armed arm); [apply Harmed|apply Hsame]; congruence.
Qed.
End cycle.

Lemma closed_complete `{HostEnv} c L L' j : c <> EmptyString -> closed c L L' -> j ∈ incomplete_suspend_cycles L' -> record_id j <> c.
Proof.
  intros Hne (k & d & Hk & -> & Hd). destruct (decide (k <= length L)%nat) as [Hl|Hl]; [|lia].
  rewrite drop_app_le by done. by apply done_is_complete.
Qed.

(** The suspend ledger tells finished cycles from unfinished ones.  Where
    appending works and no rewrite is cut, a call under a cycle id that returns
    has left the ledger alone or the cycle is not among the incomplete ones,
    also when the ledger was trimmed; and one that still waits - or was killed
    while the host slept - is reported as incomplete. *)
Theorem ledger_tells_unfinished (E : HostEnv) (target_epoch : Z) (rq : suspend_request) (c : string) (h : host) :
  (forall n, append_ok n = true) -> (forall n k, rewrite_ends n <> RW_cut k) -> check_calm rq ->
  rq_cycle_id rq = Some c -> c <> EmptyString ->
  match suspend_with_wake target_epoch rq h with
  | (Ok _, h') => h_ledger h' = h_ledger h \/ forall j, j ∈ incomplete_suspend_cycles (h_ledger h') -> record_id j <> c
  | (Raise Waiting, h') => not_done c (h_ledger h) -> exists j, j ∈ incomplete_suspend_cycles (h_ledger h') /\ record_id j = c
  | (Raise (Raised _), _) => True
  end.
Proof.
  intros Hw Hu Hck Hc Hne. unfold suspend_with_wake. pose proof (cycle_ledger Hw Hu target_epoch rq c h Hck Hc Hne) as Hl. unfold ends in Hl.
  destruct (_suspend_with_wake_locked target_epoch rq h) as [[o|[e|]] h']; cbn in Hl; [|done|].
  - destruct Hl as [Hl|(d & Hd & Hcl)]; [by left|right]. intros j. by eapply closed_complete.
  - destruct Hl as (d & Hd & ->). intros Hn. exists (JObj d). split; [by apply (start_is_incomplete _ c)|by eapply cycle_record_id].
Qed.

(** The wait ends.  When the wall clock reaches the target at one of its
    readings, waiting returns with the first reading that does, and not
    before. *)
Theorem wait_ends_at_target (E : HostEnv) (fuel k : nat) (target_epoch : Z) (h : host) :
  getenv "LLM_USAGE_NOW_EPOCH" = None -> (k < fuel)%nat -> target_epoch <= time_s (h_tick h + k) ->
  exists j h', wall_clock_wait_until fuel target_epoch None h = (Ok true, h') /\ (j <= k)%nat /\ h_tick h' = S (h_tick h + j) /\
    target_epoch <= time_s (h_tick h + j) /\ forall i, (i < j)%nat -> time_s (h_tick h + i) < target_epoch.
Proof.
  intros Hnow Hk Ht. unfold wall_clock_wait_until. generalize (wait_chunk None) as chunk. intros chunk.
  revert k h Hk Ht. induction fuel as [|fuel IH]; intros k h Hk Ht; [lia|].
  cbn [wait_rounds]. unfold now_epoch. rewrite Hnow. unfold ask, mbind, ST_bind, mret, ST_ret at 1.
  destruct (Z.leb_spec (target_epoch - time_s (h_tick h)) 0) as [Hl|Hl].
  - exists 0%nat. eexists. split; [reflexivity|]. rewrite !Nat.add_0_r. split_and!; [lia|done|lia|intros i Hi; lia].
  - destruct k as [|k]; [rewrite Nat.add_0_r in Ht; lia|].
    unfold did, modify. cbn [h_tick set_h_tick set_h_trace h_trace h_ledger h_requests h_plan h_world].
    match goal with |- context [wait_rounds fuel _ _ _ ?h1] => destruct (IH k h1) as (j & h' & E1 & Hj & Htk & Htt & Hb) end;
      cbn [h_tick set_h_tick set_h_trace]; [lia|by rewrite <-Nat.add_succ_comm in Ht|].
    exists (S j), h'. cbn [h_tick set_h_tick set_h_trace] in *. split_and!; [exact E1|lia|lia|by rewrite Nat.add_succ_r|].
    intros [|i] Hi; [rewrite Nat.add_0_r; lia|]. rewrite Nat.add_succ_r. apply (Hb i). lia.
Qed.

(** ** What an outcome claims *)

Section truth.
Context `{HostEnv}.

(** A sleep is claimed only when the clocks showed it, and called reliable
    exactly when the host woke within the tolerance. *)
Definition truthful (target_epoch : Z) (o : SuspendOutcome) : Prop :=
  (so_suspended o = true -> exists woke gap before after tolerance,
     so_woke o = Some woke /\ so_drift o = Some (woke - target_epoch) /\ (before < after)%nat /\
     suspend_clock_gap_seconds (clock_sample before) (clock_sample after) = Some gap /\ (2 <= gap)%Q /\
     drift_tolerance = Ok tolerance /\ so_reliable o = (Z.abs (woke - target_epoch) <=? tolerance)) /\
  (so_reliable o = true -> so_suspended o = true \/ so_reason o = "simulated"%string).

Lemma wp_any {A} (m : HM A) (Q : A -> host -> Prop) h : (forall a h', Q a h') -> wp m Q h.
Proof. intros HQ. unfold wp. by destruct (m h) as [[a|e] h']. Qed.
Lemma wp_awake (o : SuspendOutcome) t h : so_suspended o = false -> so_reliable o = false -> wp (mret o : HM SuspendOutcome) (fun o _ => truthful t o) h.
Proof. intros Hs Hr. apply wp_ret. split; [by rewrite Hs|by rewrite Hr]. Qed.

Lemma truthful_after t c arm dog n1 i n h : (n1 < h_tick h)%nat ->
  wp (after_suspend t c arm dog (clock_sample n1) i n) (fun o _ => truthful t o) h.
Proof.
  intros Hn. unfold after_suspend. apply wp_bind. unfold wall_clock_wait_until.
  eapply wp_keeps; [apply quiet_wait|]. intros _ h1 (evs & (_ & _ & Ht) & _).
  apply wp_bind. unfold wp at 1, ask. cbv zeta. apply wp_bind, wp_any. intros _ h2. apply wp_bind, wp_any. intros woke h3.
  destruct (suspend_clock_gap_seconds _ _) as [gap|] eqn:Eg; [|by do 2 (apply wp_bind, wp_any; intros ? ?); apply wp_awake].
  destruct (Qle_bool 2 gap) eqn:Eq; [|by do 2 (apply wp_bind, wp_any; intros ? ?); apply wp_awake].
  apply wp_bind. unfold suspend_drift_tolerance. destruct drift_tolerance as [tol|e] eqn:Et; [|done]. apply wp_ret.
  do 2 (apply wp_bind, wp_any; intros ? ?). apply wp_ret. split; [intros _|by left].
  exists woke, gap, n1, (h_tick h1), tol. split_and!; try done; [lia|by apply Qle_bool_iff].
Qed.

Lemma run_later argv : keeps (fun h h' => (h_tick h <= h_tick h')%nat) (run_cmd argv).
Proof.
  intros h. unfold run_cmd, ask, mbind, ST_bind. destruct (exits _ _) as [r|e]; cbn; lia.
Qed.
Lemma truthful_armed t lead rq c arm h : wp (suspend_armed t lead rq c arm) (fun o _ => truthful t o) h.
Proof.
  unfold suspend_armed. apply wp_bind, wp_any. intros reason h1. destruct (truthy_str reason); [by apply wp_awake|].
  do 3 (apply wp_bind, wp_any; intros ? ?). apply wp_bind. unfold wp at 1, ask.
  apply wp_bind. eapply wp_keeps; [apply run_later|]. intros suspend h5 Hl. cbn [h_tick set_h_tick] in Hl.
  destruct (negb _); [by do 5 (apply wp_bind, wp_any; intros ? ?); apply wp_awake|]. apply truthful_after. lia.
Qed.

Lemma truthful_cycle t rq h : wp (_suspend_with_wake_locked t rq) (fun o _ => truthful t o) h.
Proof.
  unfold _suspend_with_wake_locked. cbv zeta. do 3 (apply wp_bind, wp_any; intros ? ?).
  case_bool_decide; [apply wp_ret; split; [done|by right]|]. apply wp_bind, wp_any. intros backend h4.
  case_bool_decide; [by apply wp_awake|]. destruct (_ <? _); [by apply wp_awake|].
  destruct (rq_wake_arm rq) as [arm|]; apply wp_bind, wp_any.
  - intros [] h5; [apply truthful_armed|by apply wp_awake].
  - intros arm h5. destruct (wa_armed arm); [apply truthful_armed|by apply wp_awake].
Qed.
End truth.

(** An outcome tells the truth: it claims a sleep only when the
    suspend-inclusive clock ran at least two seconds ahead of the other one
    between two readings around the request, and reliability only of such a
    sleep that ended within the tolerance of its target, or of a simulation. *)
Theorem outcome_is_truthful (E : HostEnv) (target_epoch : Z) (rq : suspend_request) (h h' : host) (o : SuspendOutcome) :
  suspend_with_wake target_epoch rq h = (Ok o, h') -> truthful target_epoch o.
Proof. intros Eo. pose proof (truthful_cycle target_epoch rq h) as Hw. unfold wp, suspend_with_wake in *. by rewrite Eo in Hw. Qed.

(** ** On the demonstration host *)

Lemma outcome_is_truthful_witness :
  exists o h', suspend_with_wake (H := demo_host_env) 5000 demo_request demo_host = (Ok o, h') /\
    so_suspended o = true /\ truthful (H := demo_host_env) 5000 o.
Proof.
  destruct (suspend_with_wake (H := demo_host_env) 5000 demo_request demo_host) as [r h'] eqn:Er.
  assert (Hr : exists o, r = Ok o /\ so_suspended o = true) by (change r with (r, h').1; rewrite <-Er; eexists; split; vm_compute; reflexivity).
  destruct Hr as (o & -> & Hs). exists o, h'. split; [done|]. split; [exact Hs|].
  exact (outcome_is_truthful demo_host_env 5000 demo_request demo_host h' o Er).
Defined.

Lemma ledger_tells_unfinished_witness :
  match suspend_with_wake (H := demo_host_env) 5000 demo_request demo_host with
  | (Ok _, h') => h_ledger h' = h_ledger demo_host \/ forall j, j ∈ incomplete_suspend_cycles (H := demo_host_env) (h_ledger h') -> record_id (H := demo_host_env) j <> "c1"%string
  | (Raise Waiting, h') => not_done (H := demo_host_env) "c1" (h_ledger demo_host) ->
      exists j, j ∈ incomplete_suspend_cycles (H := demo_host_env) (h_ledger h') /\ record_id (H := demo_host_env) j = "c1"%string
  | (Raise (Raised _), _) => True
  end.
Proof.
  apply (ledger_tells_unfinished demo_host_env 5000 demo_request "c1" demo_host); [done|done| |done|done].
  intros check [= <-]. by intros h.
Defined.

(** The same cycle cut off while it waits. *)
Example unfinished_cycle_is_reported :
  let after := suspend_with_wake (H := demo_host_env) 5000
    (Request "bridge" None true (Some "c1"%string) None None None 2) demo_host in
  after.1 = Raise Waiting /\ length (incomplete_suspend_cycles (H := demo_host_env) (h_ledger after.2)) = 1%nat.
Proof. vm_compute. auto. Qed.

Lemma wait_ends_at_target_witness :
  exists j h', wall_clock_wait_until (H := demo_host_env) 50 5000 None demo_host = (Ok true, h') /\ (j <= 40)%nat.
Proof.
  destruct (wait_ends_at_target demo_host_env 50 40 5000 demo_host) as (j & h' & E & Hj & _); [done|lia|by vm_compute|].
  exists j, h'. split; [exact E|exact Hj].
Defined.
