(* ===== verification/Power.v ===== *)
(** * Capacity wake planning and suspending until credits ([bridge_power.py])

    The requests of missions to be woken at their next credit reset, the one
    wake that is armed for the earliest of them, the reasons not to sleep, and
    the operator's [suspend_until_credits]. *)

From Stdlib Require Import QArith Ascii.
From S2P Require Import Prelude Py Vocab States StoreData StoreTasks StoreOps StoreReview StoreLog StoreApi Suspend.
From stdpp Require Import options.
Local Open Scope Z_scope.

(** ** The earliest credit reset *)

Definition _RECOVERABLE_REASONS : list string := ["rate-limited"; "budget-exhausted"]%string.
Definition hashable (j : json) : bool := match j with JList _ | JObj _ => false | _ => true end.
(** [isinstance(value, int)]: a bool is one. *)
Definition int_instance (j : option json) : option Z :=
  match j with Some (JInt z) => Some z | Some (JBool b) => Some (Z.b2z b) | _ => None end.
Definition reset_in (kind : string) (target : Z) (window : json) : bool :=
  match window with
  | JObj w => bool_decide (dget "kind" w = Some (JStr kind)) && bool_decide (int_instance (dget "reset_epoch" w) = Some target)
  | _ => false
  end.
(** The reset a decision gives evidence of. *)
Definition decision_target (now : Z) (decision : json) : result exn (option Z) :=
  match decision with
  | JObj d =>
      if bool_decide (dget "usable" d = Some (JBool true)) then Ok None
      else
        let reason := default JNull (dget "reason" d) in
        if negb (hashable reason) then Raise (TypeError "unhashable type")
        else
          match reason, int_instance (dget "wait_until" d), dget "windows" d with
          | JStr reason, Some target, Some (JList windows) =>
              if negb (bool_decide (reason ∈ _RECOVERABLE_REASONS)) || (target <=? now) then Ok None
              else if existsb (reset_in "reset_window" target) windows then Ok (Some target)
              else if bool_decide (reason = "budget-exhausted"%string) && existsb (reset_in "budget" target) windows then Ok (Some target)
              else Ok None
          | _, _, _ => Ok None
          end
  | _ => Ok None
  end.
Fixpoint decision_targets (now : Z) (decisions : list json) : result exn (list Z) :=
  match decisions with
  | [] => Ok []
  | d :: l => t ← decision_target now d; ts ← decision_targets now l; Ok (match t with Some t => t :: ts | None => ts end)
  end.
Fixpoint minimum (l : list Z) : option Z :=
  match l with
  | [] => None
  | x :: l => Some (match minimum l with Some y => Z.min x y | None => x end)
  end.
Definition recovery_target (observation : dict) (now : Z) : result exn (option Z) :=
  if negb (bool_decide (dget "all_rate_limited" observation = Some (JBool true))) then Ok None
  else
    match dget "decisions" observation with
    | Some (JList decisions) => ts ← decision_targets now decisions; Ok (minimum ts)
    | _ => Ok None
    end.

(** ** Wake requests *)

(** How writing a file by way of a temporary one ended. *)
Inductive write_end : Type := WR_done | WR_failed | WR_unsynced.
(** What the wake planner and the store's users are answered. *)
Class PowerEnv : Type := {
  digest : string -> string;
  unlinks : nat -> bool;
  writes : nat -> write_end;
  json_of_text : string -> option json;
  process_token : nat -> Z -> string;
  observed : nat -> mission_row -> result exn dict;
  elsewhere : nat -> list op;
  local_time : Z -> string;
}.

Section power.
Context `{Oracle} `{HostEnv} `{PowerEnv}.

Definition set_h_requests (v : gmap string (option json)) (h : host) : host := Host (h_tick h) (h_trace h) (h_ledger h) v (h_plan h) (h_world h).
Definition set_h_plan (v : option json) (h : host) : host := Host (h_tick h) (h_trace h) (h_ledger h) (h_requests h) v (h_world h).
Definition set_h_world (v : world) (h : host) : host := Host (h_tick h) (h_trace h) (h_ledger h) (h_requests h) (h_plan h) v.

Definition _request_path (mission_id : string) : string := (digest mission_id +:+ ".json")%string.
(** The fields of a request file, or none if they are not what they should be. *)
Definition request_fields (content : option json) : option (string * Z * Z) :=
  match content with
  | Some (JObj item) =>
      match dget "owner" item, dget "target_epoch" item, dget "expires_epoch" item with
      | Some (JStr owner), Some (JInt target), Some (JInt expires) => if truthy_str owner then Some (owner, target, expires) else None
      | _, _, _ => None
      end
  | _ => None
  end.
Definition unlink (name : string) : HM unit :=
  ok ← ask unlinks;
  if ok : bool then modify (fun h => set_h_requests (delete name (h_requests h)) h) else fails (OSError "unlink").
(** A request is live when its file is the owner's and neither its target nor
    its expiry has passed. *)
Definition live_request (now : Z) (name : string) (content : option json) : option (string * Z * Z) :=
  match request_fields content with
  | Some (owner, target, expires) =>
      if negb (bool_decide (_request_path owner = name)) || (expires <=? now) || (target <=? now) then None else Some (owner, target, expires)
  | None => None
  end.
Definition read_step (now : Z) (requests : gmap string (Z * Z)) (file : string * option json) : HM (gmap string (Z * Z)) :=
  match live_request now file.1 file.2 with
  | Some (owner, target, expires) => mret (<[owner := (target, expires)]> requests)
  | None => unlink file.1 ;; mret requests
  end.
Definition _read_requests (now : Z) : HM (gmap string (Z * Z)) :=
  files ← gets h_requests;
  for_fold (map_to_list files) (read_step now) ∅.

Definition finish_write (put : host -> host) : HM unit :=
  written ← ask writes;
  match written with
  | WR_done => modify put
  | WR_failed => fails (OSError "write")
  | WR_unsynced => modify put ;; fails (OSError "fsync")
  end.
Definition _write_request (name : string) (payload : dict) : HM unit :=
  finish_write (fun h => set_h_requests (<[name := Some (JObj payload)]> (h_requests h)) h).

(** ** The plan *)

Definition _write_plan (target : option Z) (arm : option WakeArm) (now : Z) : HM unit :=
  let payload := [("target_epoch", jopt_int target);
    ("method", JStr (match arm with Some a => wa_method a | None => "none" end));
    ("armed", JBool (match arm with Some a => wa_armed a | None => false end));
    ("confirmed", JBool (match arm with Some a => wa_confirmed a | None => false end));
    ("unit", JStr (match arm with Some a => wa_unit a | None => EmptyString end));
    ("updated_epoch", JInt now)]%string in
  finish_write (set_h_plan (Some (JObj payload))).
(** [str(value or default)] *)
Definition text_or (default_text : string) (value : option json) : string :=
  match value with
  | Some j => if truthy j then (match j with JStr s => s | _ => text_of_json j end) else default_text
  | None => default_text
  end.
Definition _stored_arm (prior : dict) : WakeArm :=
  Wake (truthy_opt (dget "armed" prior)) (text_or "none" (dget "method" prior)) (truthy_opt (dget "confirmed" prior))
    (text_or EmptyString (dget "unit" prior)) EmptyString (int_instance (dget "target_epoch" prior)).
Definition _read_plan : HM dict := gets (fun h => match h_plan h with Some (JObj d) => d | _ => [] end).

Definition earliest (requests : gmap string (Z * Z)) : option Z := minimum (fst <$> (snd <$> map_to_list requests)).
Definition wake_unit (target : Z) : string := ("llm-bridge-capacity-wake-" +:+ show_Z target)%string.
(** Is the wake the plan records still there? *)
Definition plan_stands (arm : WakeArm) (target : Z) : HM bool :=
  if bool_decide (wa_method arm = "rtcwake"%string) then
    current ← read_rtc_wakealarm;
    match current with
    | Some alarm => tolerance ← suspend_drift_tolerance; mret (Z.abs (alarm - target) <=? tolerance)
    | None => mret false
    end
  else if bool_decide (wa_method arm = "systemd-timer"%string) && truthy_str (wa_unit arm) then
    active ← run_cmd (timer_active (wa_unit arm));
    mret (active.1 =? 0)
  else mret false.
(** The new wake could not be armed: keep the one there was. *)
Definition retain (target : Z) (prior : dict) (arm : WakeArm) (now : Z) : HM WakeArm :=
  let retained := _stored_arm prior in
  if wa_armed retained then
    match bool_decide (wa_method retained = "rtcwake"%string), wa_target retained with
    | true, Some t =>
        restored ← arm_rtc_wake t (wake_unit t);
        if negb (wa_armed restored) then mret (Wake false "none" false EmptyString "new and prior RTC wake could not be verified" None)
        else _write_plan (Some t) (Some restored) now ;; mret restored
    | _, _ =>
        mret (Wake true (wa_method retained) (wa_confirmed retained) (wa_unit retained)
          ("new target " +:+ show_Z target +:+ " failed to arm; retained prior wake") (wa_target retained))
    end
  else _write_plan (Some target) (Some arm) now ;; mret arm.
(** Arm a new wake in place of the planned one. *)
Definition replan (target : Z) (prior : dict) (now : Z) : HM WakeArm :=
  arm ← arm_rtc_wake target (wake_unit target);
  if negb (wa_armed arm) then retain target prior arm now
  else
    let old_arm := _stored_arm prior in
    when (wa_armed old_arm && negb (bool_decide (wa_method old_arm = "rtcwake"%string) && bool_decide (wa_method arm = "rtcwake"%string)))
      (disarm_rtc_wake old_arm) ;;
    _write_plan (Some target) (Some arm) now ;;
    mret arm.
Definition _reconcile (requests : gmap string (Z * Z)) (now : Z) : HM WakeArm :=
  match earliest requests with
  | None =>
      prior ← _read_plan;
      when (wa_armed (_stored_arm prior)) (disarm_rtc_wake (_stored_arm prior)) ;;
      _write_plan None None now ;;
      mret no_wake
  | Some target =>
      prior ← _read_plan;
      let same := match dget "target_epoch" prior with Some j => py_eqb j (JInt target) | None => false end in
      stands ← (if same && bool_decide (dget "armed" prior = Some (JBool true)) then plan_stands (_stored_arm prior) target else mret false);
      if stands : bool then mret (_stored_arm prior) else replan target prior now
  end.

(** Under the planner's lock. *)
Definition update_wake_request (mission_id : string) (target_epoch : option Z) (interval_seconds : Z) : HM WakeArm :=
  now ← now_epoch;
  match target_epoch with
  | Some target =>
      if target <=? now then unlink (_request_path mission_id)
      else _write_request (_request_path mission_id)
             [("owner", JStr mission_id); ("target_epoch", JInt target); ("expires_epoch", JInt (target + Z.max 1800 (interval_seconds * 3)))]%string
  | None => unlink (_request_path mission_id)
  end ;;
  requests ← _read_requests now;
  _reconcile requests now.
Definition shared_wake_target : HM (option Z) :=
  now ← now_epoch;
  requests ← _read_requests now;
  mret (earliest requests).
Definition shared_wake_owners : HM (list string) :=
  now ← now_epoch;
  requests ← _read_requests now;
  mret (take 64 (sort_by String.leb (fst <$> map_to_list requests))).
Definition reconcile_shared_wake : HM WakeArm :=
  now ← now_epoch;
  requests ← _read_requests now;
  _reconcile requests now.

(** ** The mission database among other processes *)

(** What other processes do before the next look at the database. *)
Definition meanwhile : HM unit :=
  calls ← ask elsewhere;
  modify (fun h => set_h_world (run_ops calls (h_world h)) h).
(** A call of the store. *)
Definition store {A} (m : DB A) : HM A := fun h =>
  let '(r, w) := m (h_world h) in
  match r with
  | Ok a => (meanwhile ;; mret a) (set_h_world w h)
  | Raise e => (Raise (Raised e), set_h_world w h)
  end.

(** ** Reasons not to sleep *)

(** [text.find(word, start)]. *)
Definition find_from (word text : string) (start : nat) : option nat := String.index start word text.
(** [text[first:last]] and [text[first:]]. *)
Definition slice (first last : nat) (text : string) : string := String.substring first (last - first) text.
Definition from_column (first : nat) (text : string) : string := sdrop first text.
(** The first word of a text. *)
Fixpoint first_word (s : string) : string :=
  match s with
  | EmptyString => EmptyString
  | String c s' => if is_space c then EmptyString else String c (first_word s')
  end.
Definition busctl_argv : list string :=
  ["busctl"; "--json=short"; "--system"; "--timeout=5s"; "call"; "org.freedesktop.login1"; "/org/freedesktop/login1";
   "org.freedesktop.login1.Manager"; "ListInhibitors"]%string.
(** Who, what, mode. *)
Definition inhibitor_row (row : json) : option (string * string * string) :=
  match row with
  | JList [JStr what; JStr who; JStr why; JStr mode; uid; pid_] => Some (who, what, mode)
  | _ => None
  end.
Fixpoint all_some {A B} (f : A -> option B) (l : list A) : option (list B) :=
  match l with
  | [] => Some []
  | x :: l => y ← f x; ys ← all_some f l; Some (y :: ys)
  end.
Definition busctl_inhibitors (output : string) : option (list (string * string * string)) :=
  match json_of_text output with
  | Some (JObj payload) =>
      if bool_decide (dget "type" payload = Some (JStr "a(ssssuu)")) then
        match dget "data" payload with
        | Some (JList [JList rows]) => all_some inhibitor_row rows
        | _ => None
        end
      else None
  | _ => None
  end.
(** The table of [systemd-inhibit --list]; [None] when it cannot be read. *)
Definition contains (word text : string) : bool := match String.index 0 word text with Some _ => true | None => false end.
Definition inhibitor_line (who uid what why mode : nat) (line : string) : option (string * string * string) :=
  let parts := first_word (strip (from_column mode line)) in
  if truthy_str parts then Some (strip (slice who uid line), strip (slice what why line), parts) else None.
Definition listed_inhibitors (output : string) : option (list (string * string * string)) :=
  let lines := splitlines output in
  let header := match lines with l :: _ => l | [] => EmptyString end in
  let what_start := find_from "WHAT" header 0 in
  let why_start := what_start ≫= (fun n => find_from "WHY" header (n + 4)) in
  let mode_start := why_start ≫= (fun n => find_from "MODE" header (n + 3)) in
  let who_start := find_from "WHO" header 0 in
  let uid_start := who_start ≫= (fun n => find_from "UID" header (n + 3)) in
  match what_start, why_start, mode_start, who_start, uid_start with
  | Some what, Some why, Some mode, Some who, Some uid => Some (omap (inhibitor_line who uid what why mode) (drop 1 lines))
  | _, _, _, _, _ => if existsb (fun line => contains "no inhibitors" (lower line)) lines then Some [] else None
  end.
(** The exceptions the probes catch, [TimeoutExpired] among the [OSError]s. *)
Definition probe_error (e : exn) : bool := match e with OSError _ | ValueError _ | TypeError _ => true | _ => false end.
Definition blocks_sleep (i : string * string * string) : option string :=
  let '(who, what, mode) := i in
  if bool_decide ("sleep"%string ∈ split_char ":"%char what) && bool_decide (mode ∈ ["block"; "block-weak"]%string)
  then Some (if truthy_str who then who else "unknown owner"%string) else None.
(** [Some] of the name of a blocker, empty when clear; [None] when it cannot
    be checked. *)
Definition _os_sleep_blocker : HM (option string) :=
  busctl ← have_cmd "busctl";
  inhibitors ← (if busctl : bool then
      answer ← attempt (run_cmd busctl_argv);
      match answer with
      | Ok (code, output) => mret (if code =? 0 then busctl_inhibitors output else None)
      | Raise (Raised e) => if probe_error e then mret None else fails e
      | Raise Waiting => raise Waiting
      end
    else mret None);
  let decide_ (l : list (string * string * string)) := Some (match omap blocks_sleep l with who :: _ => who | [] => EmptyString end) in
  match inhibitors with
  | Some l => mret (decide_ l)
  | None =>
      inhibit ← have_cmd "systemd-inhibit";
      if inhibit : bool then
        answer ← attempt (run_cmd ["systemd-inhibit"; "--list"; "--no-pager"]%string);
        match answer with
        | Ok (code, output) =>
            mret (if negb (code =? 0) then None else match listed_inhibitors output with Some l => decide_ l | None => None end)
        | Raise (Raised (OSError _)) => mret None
        | Raise e => raise e
        end
      else
        systemctl ← have_cmd "systemctl";
        mret (if systemctl : bool then None else Some EmptyString)
  end.

Definition start_text (start : option string) : string := match start with Some s => s | None => EmptyString end.
(** Does a process still have the identity the row recorded? *)
Definition still_runs (process_pid : option Z) (start : option string) : HM bool :=
  match process_pid with
  | Some pid_ =>
      if truthy_str (start_text start) then token ← ask (fun n => process_token n pid_); mret (bool_decide (token = start_text start))
      else mret false
  | None => mret false
  end.
Fixpoint first_reason {A} (f : A -> HM string) (l : list A) : HM string :=
  match l with
  | [] => mret EmptyString
  | x :: l => reason ← f x; if truthy_str reason then mret reason else first_reason f l
  end.
Definition uncertain_reason (o : operation_row) : HM string :=
  alive ← still_runs (o_process_pid o) (o_process_start o);
  mret (if alive : bool then "uncertain operation " +:+ o_id o +:+ " still has a live provider process" else EmptyString)%string.
Definition managed_reason (p : process_row) : HM string :=
  let named := ("managed " +:+ p_kind p +:+ " process " +:+ p_id p)%string in
  if bool_decide (p_status p = MP_STARTING) then mret (named +:+ " is starting")%string
  else if bool_decide (p_status p = MP_RUNNING) && (bool_decide (p_process_pid p = None) || negb (truthy_str (start_text (p_process_start p))))
  then mret (named +:+ " has no verifiable process identity")%string
  else alive ← still_runs (p_process_pid p) (p_process_start p); mret (if alive : bool then named +:+ " is still running" else EmptyString)%string.
Definition open_processes (d : database) : list process_row :=
  select (fun p => bool_decide (p_status p ∈ [MP_STARTING; MP_RUNNING; MP_UNCERTAIN])) (managed_processes d).
Definition uncertain_operations (d : database) : list operation_row :=
  select (fun o => bool_decide (o_status o = O_UNCERTAIN) && bool_decide (is_Some (o_process_pid o))) (operations d).
Definition suspend_block_reason : HM string :=
  active ← store (read (fun d => first active_op (operations d)));
  match active with
  | Some active => mret ("operation " +:+ o_id active +:+ " is " +:+ lower (str (o_status active)) +:+ " in mission " +:+ short_id (o_mission active))%string
  | None =>
      uncertain ← store (read uncertain_operations);
      reason ← first_reason uncertain_reason uncertain;
      if truthy_str reason then mret reason
      else
        managed ← store (read open_processes);
        reason ← first_reason managed_reason managed;
        if truthy_str reason then mret reason
        else
          blocker ← _os_sleep_blocker;
          mret (match blocker with
                | None => "cannot verify OS sleep inhibitors"
                | Some who => if truthy_str who then "OS sleep is blocked by " +:+ who else EmptyString
                end)%string
  end.

(** ** Suspending until credits *)

(** The arguments of [suspend_until_credits] that come from its environment. *)
Definition suspend_request_for (cycle_id : string) (arm : option WakeArm) (check : option (HM string)) (fuel : nat) : suspend_request :=
  Request "llm-bridge" None false (Some cycle_id) arm check None fuel.
Definition known (key : string) (observation : dict) : json := default JNull (dget key observation).
Definition jopt_bool (b : option bool) : json := match b with Some b => JBool b | None => JNull end.
(** The result of a cycle that stayed awake before anything was suspended. *)
Definition stayed_awake (cycle_id message reason : string) (target : Z) (arm : WakeArm) (simulated : bool) : dict :=
  [("ok", JBool false); ("status", JStr "failed"); ("message", JStr message); ("target_epoch", JInt target); ("cycle_id", JStr cycle_id);
   ("method", JStr (wa_method arm)); ("wake_method", JStr (wa_method arm)); ("wake_armed", JBool (wa_armed arm));
   ("wake_confirmed", JBool (wa_confirmed arm)); ("reliable", JBool false); ("reason", JStr reason); ("woke_epoch", JNull);
   ("drift_seconds", JNull); ("actual_sleep", JBool false); ("simulated", JBool simulated)]%string.
Definition outcome_message (outcome : SuspendOutcome) (planned_target : Z) : string :=
  (if bool_decide (so_observed outcome = None) then "Suspend was requested; actual sleep could not be verified."
   else if bool_decide (so_reason outcome = "pre-suspend-check-failed") then
     "Stayed awake: the final safety check refused suspend (" +:+ so_detail outcome +:+ ")."
   else if so_suspended outcome then
     "Woke at " +:+ local_time (match so_woke outcome with Some w => if (w =? 0)%Z then planned_target else w | None => planned_target end) +:+
     "; drift " +:+ (match so_drift outcome with Some z => show_Z z | None => "None" end) +:+ "s."
   else if bool_decide (so_reason outcome = "simulated") then "Simulated only: the host stayed awake and no wake timer was armed."
   else "Stayed awake: wake/suspend failed (" +:+ so_reason outcome +:+ ").")%string.
Definition outcome_dict (cycle_id : string) (planned_target : Z) (arm : WakeArm) (simulated : bool) (outcome : SuspendOutcome) : dict :=
  [("ok", JBool (so_suspended outcome && so_reliable outcome));
   ("status", JStr (if so_suspended outcome then "suspended" else if bool_decide (so_observed outcome = None) then "unverified" else "failed"));
   ("message", JStr (outcome_message outcome planned_target)); ("target_epoch", JInt planned_target); ("cycle_id", JStr cycle_id);
   ("method", JStr (so_method outcome)); ("wake_method", JStr (wa_method arm));
   ("wake_armed", JBool (negb simulated && wa_armed arm)); ("wake_confirmed", JBool (negb simulated && wa_confirmed arm));
   ("reliable", JBool (so_reliable outcome)); ("reason", JStr (so_reason outcome)); ("detail", JStr (so_detail outcome));
   ("actual_sleep", jopt_bool (so_observed outcome)); ("simulated", JBool (bool_decide (so_reason outcome = "simulated"%string)));
   ("woke_epoch", jopt_int (so_woke outcome)); ("drift_seconds", jopt_int (so_drift outcome))]%string.

Definition refused (message reason : string) (target : option Z) : dict :=
  [("ok", JBool false); ("status", JStr "refused"); ("message", JStr message); ("reason", JStr reason)]%string ++
  match target with Some t => [("target_epoch", JInt t)]%string | None => [] end.
Definition note (mission_id kind : string) (data : dict) : HM unit := store (record_runtime_event mission_id kind data) ;; mret tt.
Definition refresh (mission_id : string) : HM dict :=
  mission ← store (get_mission mission_id);
  answer ← ask (fun n => observed n mission);
  lift answer.

(** After the cycle: put the shared wake back, record the outcome, and ask for
    the next reset. *)
Definition after_cycle (mission_id cycle_id : string) (planned_target : Z) (arm : WakeArm) (simulated : bool) (outcome : SuspendOutcome) : HM dict :=
  reconcile_shared_wake ;;
  let result := outcome_dict cycle_id planned_target arm simulated outcome in
  note mission_id "suspend-outcome" result ;;
  when (so_suspended outcome) (
    after ← refresh mission_id;
    now ← now_epoch;
    target ← lift (recovery_target after now);
    update_wake_request mission_id target 60 ;;
    note mission_id "suspend-work-resumed"
      [("cycle_id", JStr cycle_id); ("woke_epoch", jopt_int (so_woke outcome)); ("target_epoch", JInt planned_target);
       ("drift_seconds", jopt_int (so_drift outcome)); ("reliable", JBool (so_reliable outcome)); ("method", JStr (so_method outcome));
       ("wake_method", JStr (wa_method arm)); ("wake_armed", JBool (wa_armed arm)); ("wake_confirmed", JBool (wa_confirmed arm));
       ("actual_sleep", jopt_bool (so_observed outcome)); ("simulated", JBool (bool_decide (so_reason outcome = "simulated"%string)));
       ("observation", JObj after)]%string) ;;
  mret result.
(** From the planned wake on. *)
Definition suspend_planned (mission_id cycle_id : string) (target : Z) (simulated : bool) (arm : WakeArm) (planned_target : option Z) (fuel : nat) : HM dict :=
  if negb simulated && negb (wa_armed arm) then
    let result := stayed_awake cycle_id ("Stayed awake: wake could not be armed (" +:+ (if truthy_str (wa_detail arm) then wa_detail arm else wa_method arm) +:+ ").")
                    "arm-failed" target arm simulated in
    note mission_id "suspend-outcome" result ;; mret result
  else
    match planned_target with
    | None =>
        let result := stayed_awake cycle_id "Stayed awake: the shared wake plan has no future target." "no-shared-target" target arm simulated in
        note mission_id "suspend-outcome" result ;; mret result
    | Some planned_target =>
        outcome ← suspend_with_wake planned_target (suspend_request_for cycle_id (if simulated then None else Some arm)
          (if simulated then None else Some suspend_block_reason) fuel);
        after_cycle mission_id cycle_id planned_target arm simulated outcome
    end.
Definition suspend_until_credits (fuel : nat) (mission_id : string) : HM dict :=
  ms ← ask time_ms;
  let cycle_id := ("bridge-" +:+ mission_id +:+ "-" +:+ show_Z ms)%string in
  observation ← refresh mission_id;
  now ← now_epoch;
  target ← lift (recovery_target observation now);
  match target with
  | None =>
      note mission_id "suspend-refused" [("reason", JStr "no-known-reset"); ("observation", JObj observation)]%string ;;
      mret (refused "No known future credit reset is available for the selected capacity." "no-known-reset" None)
  | Some target =>
      unsafe ← suspend_block_reason;
      if truthy_str unsafe then
        note mission_id "suspend-refused"
          [("reason", JStr "unsafe-operation"); ("detail", JStr unsafe); ("target_epoch", JInt target); ("cycle_id", JStr cycle_id)]%string ;;
        mret (refused ("Cannot suspend safely: " +:+ unsafe +:+ ".") "unsafe-operation" (Some target))
      else
        let simulated := bool_decide (getenv "LLM_SCHEDULER_NO_ACTUAL_SUSPEND" = Some "1"%string) in
        arm ← (if simulated then mret (Wake false "simulated" false EmptyString EmptyString None)
               else update_wake_request mission_id (Some target) 60);
        planned_target ← (if simulated then mret (Some target) else shared_wake_target);
        note mission_id "suspend-intent"
          [("cycle_id", JStr cycle_id); ("target_epoch", JInt (default target planned_target)); ("mission_target_epoch", JInt target);
           ("provider", known "provider" observation); ("route", known "route" observation); ("decision", known "decision" observation);
           ("wake_armed", JBool (wa_armed arm)); ("wake_confirmed", JBool (wa_confirmed arm)); ("wake_method", JStr (wa_method arm));
           ("simulated", JBool simulated)]%string ;;
        suspend_planned mission_id cycle_id target simulated arm planned_target fuel
  end.
End power.
