(* ===== verification/PowerLaws.v ===== *)
(** * Laws of the earliest reset and of the wake requests ([bridge_power.py])

    [recovery_target] is exact; updating one mission's request leaves every
    other one as it is. *)

From Stdlib Require Import QArith.
From S2P Require Import Prelude Py Vocab States StoreData StoreTasks StoreOps StoreReview StoreLog StoreApi StoreDemo Suspend SuspendLaws SuspendLedger Power.
From stdpp Require Import options.
Local Open Scope Z_scope.

(** ** The earliest reset *)

Lemma minimum_None l : minimum l = None <-> l = [].
Proof. by destruct l. Qed.
Lemma minimum_Some l x : minimum l = Some x <-> x ∈ l /\ forall y, y ∈ l -> x <= y.
Proof.
  revert x. induction l as [|a l IH]; intros x; cbn; [split; [done|intros [[]%not_elem_of_nil _]]|].
  destruct (minimum l) as [m|] eqn:Em.
  - destruct (proj1 (IH m) eq_refl) as [Hm Hl]. split.
    + intros [= <-]. split; [destruct (Z.min_spec a m) as [[_ ->]|[_ ->]]; set_solver|].
      intros y [->|Hy]%elem_of_cons; [lia|]. specialize (Hl y Hy). lia.
    + intros [Hx Hall]. f_equal. assert (x <= a) by (apply Hall; left). assert (x <= m) by (apply Hall; by right).
      apply elem_of_cons in Hx as [->|Hx]; [lia|]. specialize (Hl x Hx). lia.
  - apply minimum_None in Em. subst l. split; [intros [= <-]; split; [left|]; intros y [->|[]%not_elem_of_nil]%elem_of_cons; lia|].
    intros [[->|[]%not_elem_of_nil]%elem_of_cons _]. done.
Qed.

(** The evidence a decision gives that credits come back at [t]: it blocks for
    a recoverable reason until [t], still to come, and one of its windows
    resets exactly then - a reset window, or the budget if the budget is spent. *)
Definition evidence (now : Z) (decision : json) (t : Z) : Prop :=
  exists fields reason windows window, decision = JObj fields /\ dget "usable" fields <> Some (JBool true) /\
    dget "reason" fields = Some (JStr reason) /\ reason ∈ _RECOVERABLE_REASONS /\
    int_instance (dget "wait_until" fields) = Some t /\ now < t /\ dget "windows" fields = Some (JList windows) /\ window ∈ windows /\
    (reset_in "reset_window" t window = true \/ reason = "budget-exhausted"%string /\ reset_in "budget" t window = true).

Lemma existsb_elem {A} (f : A -> bool) l : existsb f l = true <-> exists x, x ∈ l /\ f x = true.
Proof. rewrite existsb_exists. by setoid_rewrite list_elem_of_In. Qed.

Lemma decision_target_evidence now d t : decision_target now d = Ok (Some t) <-> evidence now d t.
Proof.
  unfold decision_target, evidence. split.
  - destruct d as [| | | | | |fields]; try done. case_bool_decide as Hu; [done|]. destruct (negb _); [done|].
    destruct (dget "reason" fields) as [[| | | |reason| |]|] eqn:Er; try done. cbn [from_option id].
    destruct (int_instance _) as [t'|] eqn:Et; [|done]. destruct (dget "windows" fields) as [[| | | | |windows|]|] eqn:Ew; try done.
    destruct (negb _ || _) eqn:Eg; [done|]. apply orb_false_iff in Eg as [Hin%negb_false_iff%bool_decide_eq_true Hlt%Z.leb_gt].
    destruct (existsb (reset_in "reset_window" t') windows) eqn:E1.
    + intros [= <-]. apply existsb_elem in E1 as (w & Hw & Hr). exists fields, reason, windows, w. split_and!; try done; by left.
    + case_bool_decide as Hb; [|done]. cbn [andb]. destruct (existsb (reset_in "budget" t') windows) eqn:E2; [|done]. intros [= <-].
      apply existsb_elem in E2 as (w & Hw & Hr). exists fields, reason, windows, w. split_and!; try done. by right.
  - intros (fields & reason & windows & w & -> & Hu & Hr & Hin & Ht & Hlt & Hw & Hwin & Hres). rewrite bool_decide_false by done.
    rewrite Hr. cbn [from_option id hashable negb]. rewrite Ht, Hw, bool_decide_true by done. cbn [negb orb].
    destruct (Z.leb_spec t now); [lia|]. destruct (existsb (reset_in "reset_window" t) windows) eqn:E1; [done|].
    destruct Hres as [Hres|[-> Hres]].
    + assert (existsb (reset_in "reset_window" t) windows = true) by (apply existsb_elem; eauto). congruence.
    + rewrite bool_decide_true by done. assert (existsb (reset_in "budget" t) windows = true) as -> by (apply existsb_elem; eauto). done.
Qed.

Lemma decision_targets_elem now l ts t : decision_targets now l = Ok ts -> t ∈ ts <-> exists d, d ∈ l /\ evidence now d t.
Proof.
  revert ts. induction l as [|d l IH]; intros ts; cbn.
  - intros [= <-]. split; [intros []%not_elem_of_nil|intros (d & []%not_elem_of_nil & _)].
  - destruct (decision_target now d) as [o|e] eqn:Ed; [|done]. cbn. destruct (decision_targets now l) as [ts'|e]; [|done]. intros [= <-].
    specialize (IH ts' eq_refl). destruct o as [t'|]; rewrite ?elem_of_cons, IH.
    + apply decision_target_evidence in Ed as Ev. split.
      * intros [->|(d' & Hd & He)]; [by exists d; split; [left|]|]. exists d'. split; [by right|done].
      * intros (d' & [->|Hd]%elem_of_cons & He); [left|right; by exists d'].
        apply decision_target_evidence in He. rewrite Ed in He. by injection He.
    + split; [intros (d' & Hd & He); exists d'; split; [by right|done]|].
      intros (d' & [->|Hd]%elem_of_cons & He); [|by exists d'; split]. apply decision_target_evidence in He. congruence.
Qed.

(** [recovery_target] names the earliest real reset.  It answers [t]
    exactly when the selection is completely blocked, some decision gives
    evidence that its credits come back at [t], and no decision gives evidence
    of an earlier time; so a polling back-off, an opaque or spent route without
    a reported reset, or a past reset never becomes a wake-up time. *)
Theorem recovery_target_exact (observation : dict) (now : Z) (answer : option Z) :
  recovery_target observation now = Ok answer ->
  forall t, answer = Some t <->
    dget "all_rate_limited" observation = Some (JBool true) /\
    exists decisions, dget "decisions" observation = Some (JList decisions) /\
      (exists d, d ∈ decisions /\ evidence now d t) /\ (forall d t', d ∈ decisions -> evidence now d t' -> t <= t').
Proof.
  unfold recovery_target. case_bool_decide as Ha; cbn [negb].
  2: { intros [= <-] t. split; [done|]. by intros [? _]. }
  destruct (dget "decisions" observation) as [[| | | | |decisions|]|] eqn:Ed;
    try (intros [= <-] t; split; [done|intros (_ & ds & ? & _); congruence]).
  destruct (decision_targets now decisions) as [ts|e] eqn:Et; [|done]. intros [= <-] t.
  pose proof (fun t => decision_targets_elem now decisions ts t Et) as Hts. rewrite minimum_Some. split.
  - intros [Hin Hmin]. split; [done|]. exists decisions. split_and!; [done|by apply Hts|]. intros d t' Hd He. apply Hmin, Hts. eauto.
  - intros (_ & ds & [= <-] & Hex & Hmin). split; [by apply Hts|]. intros y (d & Hd & He)%Hts. by eapply Hmin.
Qed.

(** ** The requests *)

Section requests.
Context `{Oracle} `{HostEnv} `{PowerEnv}.

(** The mission [o] has asked to be woken at [t], and still may be. *)
Definition wake_live (now : Z) (files : gmap string (option json)) (o : string) (t e : Z) : Prop :=
  exists content, files !! _request_path o = Some content /\ live_request now (_request_path o) content = Some (o, t, e).
(** Only the files change, and nothing is run. *)
Definition same_but_requests (h h' : host) : Prop := h_trace h' = h_trace h /\ h_ledger h' = h_ledger h /\ h_plan h' = h_plan h /\ h_world h' = h_world h.
#[local] Instance same_but_requests_preorder : PreOrder same_but_requests.
Proof. split; unfold same_but_requests; [done|]. intros h h1 h2 Ha Hb. destruct_and!. split_and!; congruence. Qed.

Lemma live_request_name now n c o t e : live_request now n c = Some (o, t, e) -> n = _request_path o /\ now < t /\ now < e.
Proof.
  unfold live_request. destruct (request_fields c) as [[[o' t'] e']|]; [|done]. destruct (negb _ || _ || _) eqn:Eb; [done|].
  intros [= -> -> ->]. apply orb_false_iff in Eb as [[Hp He]%orb_false_iff Ht]. apply negb_false_iff, bool_decide_eq_true in Hp. split_and!; [done|lia|lia].
Qed.
Definition kept_file (now : Z) (n : string) (c : option json) : option (option json) :=
  match live_request now n c with Some _ => Some c | None => None end.

Lemma read_step_ok now reqs n c h reqs1 h1 : read_step now reqs (n, c) h = (Ok reqs1, h1) ->
  same_but_requests h h1 /\
  match live_request now n c with
  | Some (o, t, e) => reqs1 = <[o := (t, e)]> reqs /\ h_requests h1 = h_requests h
  | None => reqs1 = reqs /\ h_requests h1 = delete n (h_requests h)
  end.
Proof.
  unfold read_step. cbn [fst snd]. destruct (live_request now n c) as [[[o t] e]|]; [by intros [= <- <-]|].
  unfold unlink, ask, mbind, ST_bind. destruct (unlinks _); [|done]. by intros [= <- <-].
Qed.
Lemma read_loop now l acc h reqs h' : NoDup l.*1 -> for_fold l (read_step now) acc h = (Ok reqs, h') ->
  same_but_requests h h' /\
  (forall n c, (n, c) ∈ l -> h_requests h !! n = Some c -> h_requests h' !! n = kept_file now n c) /\
  (forall n, n ∉ l.*1 -> h_requests h' !! n = h_requests h !! n) /\
  (forall o te, reqs !! o = Some te <->
     (exists n c, (n, c) ∈ l /\ live_request now n c = Some (o, te.1, te.2)) \/
     (acc !! o = Some te /\ forall n c t e, (n, c) ∈ l -> live_request now n c <> Some (o, t, e))).
Proof.
  revert acc h. induction l as [|[n c] l IH]; intros acc h Hnd E; cbn [for_fold] in E.
  - injection E as <- <-. split_and!; [done|by intros ? ? ?%not_elem_of_nil|done|]. intros o te.
    split; [intros Hl; right; split; [done|by intros ? ? ? ? ?%not_elem_of_nil]|intros [(? & ? & []%not_elem_of_nil & _)|[? _]]; done].
  - apply bind_inv in E as (reqs1 & h1 & E1 & E2). apply read_step_ok in E1 as [Hs1 E1].
    rewrite fmap_cons in Hnd. apply NoDup_cons in Hnd as [Hn Hnd]. destruct (IH reqs1 h1 Hnd E2) as (Hs & Hin & Hout & Hreq). cbn [fst] in *.
    assert (Hne : forall n' c', (n', c') ∈ l -> n' <> n) by (intros n' c' Hin' ->; apply Hn; by apply (list_elem_of_fmap_2 fst) in Hin').
    split; [by etrans|]. split; [|split].
    + intros n' c' [E|Hin']%elem_of_cons Hf.
      * injection E as -> ->. rewrite Hout by done. unfold kept_file. destruct (live_request now n c) as [[[o t] e]|]; destruct E1 as [_ ->]; [done|apply lookup_delete_eq].
      * apply Hin; [done|]. specialize (Hne _ _ Hin'). destruct (live_request now n c) as [[[o t] e]|]; destruct E1 as [_ ->]; [done|by rewrite lookup_delete_ne].
    + intros n' [Hne' Hn']%not_elem_of_cons. rewrite Hout by done. destruct (live_request now n c) as [[[o t] e]|]; destruct E1 as [_ ->]; [done|by rewrite lookup_delete_ne].
    + intros o te. rewrite Hreq. destruct (live_request now n c) as [[[o1 t1] e1]|] eqn:El; destruct E1 as [-> _].
      * apply live_request_name in El as Hname. destruct Hname as [Hname _]. destruct (decide (o = o1)) as [->|Ho].
        -- rewrite lookup_insert_eq. assert (Hno : forall n' c' t e, (n', c') ∈ l -> live_request now n' c' <> Some (o1, t, e)).
           { intros n' c' t e Hin' El'. apply live_request_name in El' as [-> _]. by apply (Hne _ _ Hin'). }
           split.
           ++ intros [(n' & c' & Hin' & El')|[[= <-] _]]; [by destruct (Hno _ _ _ _ Hin' El')|]. left. exists n, c. split; [left|done].
           ++ intros [(n' & c' & [E|Hin']%elem_of_cons & El')|[_ Hno']].
              ** injection E as -> ->. rewrite El in El'. injection El' as -> ->. right. split; [by destruct te|done].
              ** by destruct (Hno _ _ _ _ Hin' El').
              ** destruct (Hno' n c t1 e1); [left|done].
        -- rewrite lookup_insert_ne by done. split.
           ++ intros [(n' & c' & Hin' & El')|[Ha Hno]]; [left; exists n', c'; split; [by right|done]|right]. split; [done|].
              intros n' c' t e [E|Hin']%elem_of_cons; [injection E as -> ->; rewrite El; congruence|by apply Hno].
           ++ intros [(n' & c' & [E|Hin']%elem_of_cons & El')|[Ha Hno]]; [injection E as -> ->; congruence|left; eauto|].
              right. split; [done|]. intros n' c' t e Hin'. apply Hno. by right.
      * split.
        -- intros [(n' & c' & Hin' & El')|[Ha Hno]]; [left; exists n', c'; split; [by right|done]|right]. split; [done|].
           intros n' c' t e [E|Hin']%elem_of_cons; [injection E as -> ->; by rewrite El|by apply Hno].
        -- intros [(n' & c' & [E|Hin']%elem_of_cons & El')|[Ha Hno]]; [injection E as -> ->; congruence|left; eauto|].
           right. split; [done|]. intros n' c' t e Hin'. apply Hno. by right.
Qed.

Lemma read_requests_ok now h reqs h' : _read_requests now h = (Ok reqs, h') ->
  same_but_requests h h' /\ (forall n, h_requests h' !! n = h_requests h !! n ≫= kept_file now n) /\
  (forall o t e, reqs !! o = Some (t, e) <-> wake_live now (h_requests h) o t e).
Proof.
  intros E. unfold _read_requests in E. apply bind_inv in E as (files & h1 & [= <- <-] & E).
  destruct (read_loop _ _ _ _ _ _ (NoDup_fst_map_to_list _) E) as (Hs & Hin & Hout & Hreq). split_and!; [done| |].
  - intros n. destruct (h_requests h !! n) as [c|] eqn:Ef; cbn.
    + apply Hin; [by apply elem_of_map_to_list|done].
    + rewrite Hout; [done|]. intros ((n' & c) & -> & Hc%elem_of_map_to_list)%list_elem_of_fmap. cbn in Ef. congruence.
  - intros o t e. rewrite (Hreq o (t, e)). unfold wake_live. cbn [fst snd]. split.
    + intros [(n & c & Hc%elem_of_map_to_list & El)|[Ha _]]; [|by rewrite lookup_empty in Ha].
      apply live_request_name in El as Hn. destruct Hn as [-> _]. by exists c.
    + intros (c & Hc & El). left. exists (_request_path o), c. by rewrite elem_of_map_to_list.
Qed.
End requests.

(** ** Updating a request *)

Section update.
Context `{Oracle} `{HostEnv} `{PowerEnv}.

(** Steps that leave the requests alone. *)
Definition tidy (h h' : host) : Prop := h_requests h' = h_requests h.
#[local] Instance tidy_preorder : PreOrder tidy.
Proof. split; unfold tidy; [done|congruence]. Qed.
Lemma tidy_ask {A} (f : nat -> A) : keeps tidy (ask f).
Proof. done. Qed.
Lemma tidy_did e : keeps tidy (did e).
Proof. done. Qed.
Lemma tidy_lift {A} (r : result exn A) : keeps tidy (lift r).
Proof. by destruct r. Qed.
#[local] Hint Resolve tidy_ask tidy_did tidy_lift : py_keeps.
Lemma tidy_run argv : keeps tidy (run_cmd argv).
Proof. unfold run_cmd. solve_keeps. Qed.
Lemma tidy_have n : keeps tidy (have_cmd n).
Proof. unfold have_cmd. solve_keeps. Qed.
Lemma tidy_now : keeps tidy now_epoch.
Proof. unfold now_epoch. solve_keeps. Qed.
#[local] Hint Resolve tidy_run tidy_have tidy_now : py_keeps.
Lemma tidy_backend : keeps tidy power_backend.
Proof. unfold power_backend. solve_keeps. Qed.
Lemma tidy_alarm : keeps tidy read_rtc_wakealarm.
Proof. unfold read_rtc_wakealarm. solve_keeps. Qed.
Lemma tidy_tolerance : keeps tidy suspend_drift_tolerance.
Proof. unfold suspend_drift_tolerance. solve_keeps. Qed.
#[local] Hint Resolve tidy_backend tidy_alarm tidy_tolerance : py_keeps.
Lemma tidy_systemd t who : keeps tidy (arm_with_systemd t who).
Proof. unfold arm_with_systemd. solve_keeps. Qed.
#[local] Hint Resolve tidy_systemd : py_keeps.
Lemma tidy_arm t who : keeps tidy (arm_rtc_wake t who).
Proof. unfold arm_rtc_wake. solve_keeps. Qed.
Lemma tidy_disarm arm : keeps tidy (disarm_rtc_wake arm).
Proof. unfold disarm_rtc_wake. solve_keeps. Qed.
Lemma tidy_plan t arm now : keeps tidy (_write_plan t arm now).
Proof.
  unfold _write_plan, finish_write. cbv zeta. generalize (Some (JObj
    [("target_epoch", jopt_int t); ("method", JStr (match arm with Some a => wa_method a | None => "none" end));
     ("armed", JBool (match arm with Some a => wa_armed a | None => false end)); ("confirmed", JBool (match arm with Some a => wa_confirmed a | None => false end));
     ("unit", JStr (match arm with Some a => wa_unit a | None => EmptyString end)); ("updated_epoch", JInt now)]))%string. intros v.
  assert (Hm : keeps tidy (modify (set_h_plan v) : HM unit)) by done. solve_keeps.
Qed.
#[local] Hint Resolve tidy_arm tidy_disarm tidy_plan : py_keeps.
Lemma tidy_reconcile reqs now : keeps tidy (_reconcile reqs now).
Proof. unfold _reconcile, replan, retain, plan_stands, _read_plan. solve_keeps. Qed.

Lemma now_inv now h h' : now_epoch h = (Ok now, h') -> h_requests h' = h_requests h.
Proof. intros E. pose proof (tidy_now h) as Ht. by rewrite E in Ht. Qed.
Lemma unlink_inv n h u h' : unlink n h = (Ok u, h') -> h_requests h' = delete n (h_requests h).
Proof. unfold unlink, ask, mbind, ST_bind. destruct (unlinks _); [|done]. by intros [= <- <-]. Qed.
Lemma write_inv n d h u h' : _write_request n d h = (Ok u, h') -> h_requests h' = <[n := Some (JObj d)]> (h_requests h).
Proof. unfold _write_request, finish_write, ask, mbind, ST_bind. destruct (writes _); [|done|done]. by intros [= <- <-]. Qed.

(** The file of the mission [m] asks for [target] until [expires]. *)
Definition request_of (m : string) (target expires : Z) : dict :=
  [("owner", JStr m); ("target_epoch", JInt target); ("expires_epoch", JInt expires)]%string.
Lemma request_is_live now m t x : m <> EmptyString -> now < t -> now < x ->
  live_request now (_request_path m) (Some (JObj (request_of m t x))) = Some (m, t, x).
Proof.
  intros Hm Ht Hx. unfold live_request.
  replace (request_fields _) with (if truthy_str m then Some (m, t, x) else None) by reflexivity.
  unfold truthy_str. rewrite bool_decide_false by done. cbn [negb]. rewrite bool_decide_true by done. cbn [negb orb].
  destruct (Z.leb_spec x now), (Z.leb_spec t now); [lia|lia|lia|done].
Qed.
Definition no_collision (m : string) : Prop := forall o, _request_path o = _request_path m -> o = m.

(** The requests that are live with [m]'s set to [target], or taken away. *)
Definition live_with (m : string) (target : option Z) (interval now : Z) (files : gmap string (option json)) (o : string) (t e : Z) : Prop :=
  if decide (o = m) then target = Some t /\ now < t /\ e = t + Z.max 1800 (interval * 3) else wake_live now files o t e.

Lemma live_after_delete now m files o t e : no_collision m ->
  wake_live now (delete (_request_path m) files) o t e <-> o <> m /\ wake_live now files o t e.
Proof.
  intros Hinj. unfold wake_live. split.
  - intros (c & [Hne Hf]%lookup_delete_Some & El). split; [congruence|by exists c].
  - intros (Hne & c & Hf & El). exists c. split; [|done]. rewrite lookup_delete_ne; [done|]. intros E. by apply Hne, Hinj.
Qed.
Lemma live_after_write now m files x t0 o t e : no_collision m -> m <> EmptyString -> now < t0 -> now < x ->
  wake_live now (<[_request_path m := Some (JObj (request_of m t0 x))]> files) o t e <->
  (o = m /\ t = t0 /\ e = x) \/ (o <> m /\ wake_live now files o t e).
Proof.
  intros Hinj Hm Ht Hx. unfold wake_live. destruct (decide (o = m)) as [->|Hne].
  - rewrite lookup_insert_eq. split.
    + intros (c & [= <-] & El). rewrite request_is_live in El by done. injection El as <- <-. by left.
    + intros [(_ & -> & ->)|[]]; [|done]. eexists. split; [done|by apply request_is_live].
  - rewrite lookup_insert_ne by (intros E; by apply Hne, Hinj). split; [by right|]. by intros [(? & _)|[_ ?]].
Qed.
Lemma asked_live m target interval now h u h' : no_collision m -> m <> EmptyString ->
  match target with
  | Some t => if t <=? now then unlink (_request_path m)
              else _write_request (_request_path m) (request_of m t (t + Z.max 1800 (interval * 3)))
  | None => unlink (_request_path m)
  end h = (Ok u, h') ->
  forall o t e, wake_live now (h_requests h') o t e <-> live_with m target interval now (h_requests h) o t e.
Proof.
  intros Hinj Hm E o t e. unfold live_with.
  assert (Hdel : unlink (_request_path m) h = (Ok u, h') -> (forall t, target = Some t -> t <= now) ->
    wake_live now (h_requests h') o t e <-> live_with m target interval now (h_requests h) o t e).
  { intros Eu Hn. rewrite (unlink_inv _ _ _ _ Eu), live_after_delete by done. unfold live_with. destruct (decide (o = m)); [|tauto].
    split; [tauto|]. intros (-> & ? & _). specialize (Hn t eq_refl). lia. }
  destruct target as [t0|]; [|by apply Hdel]. destruct (Z.leb_spec t0 now); [apply Hdel; [done|congruence]|].
  rewrite (write_inv _ _ _ _ _ E), live_after_write by (done || lia). destruct (decide (o = m)); [|naive_solver].
  split; [intros [(_ & -> & ->)|[]]; done|]. intros ([= ->] & _ & ->). by left.
Qed.

Lemma update_requests m target interval now h arm h' : no_collision m -> m <> EmptyString -> (now_epoch h).1 = Ok now ->
  update_wake_request m target interval h = (Ok arm, h') ->
  (forall n c, h_requests h' !! n = Some c -> is_Some (live_request now n c)) /\
  (forall o t e, wake_live now (h_requests h') o t e <-> live_with m target interval now (h_requests h) o t e).
Proof.
  intros Hinj Hm Hnow E. unfold update_wake_request in E. apply bind_inv in E as (now' & h1 & E1 & E).
  rewrite E1 in Hnow. injection Hnow as ->. apply now_inv in E1 as Hf1. apply bind_inv in E as (u & h2 & E2 & E).
  apply bind_inv in E as (reqs & h3 & E3 & E4). apply read_requests_ok in E3 as (_ & Hf3 & _).
  pose proof (tidy_reconcile reqs now h3) as Hf4. rewrite E4 in Hf4. cbn in Hf4. unfold tidy in Hf4.
  pose proof (asked_live _ _ _ _ _ _ _ Hinj Hm E2) as Hlive. rewrite Hf1 in Hlive.
  assert (Hkept : forall n c, h_requests h' !! n = Some c <-> h_requests h2 !! n = Some c /\ is_Some (live_request now n c)).
  { intros n c. rewrite Hf4, Hf3. unfold kept_file. destruct (h_requests h2 !! n) as [c0|]; cbn; [|naive_solver].
    destruct (live_request now n c0) eqn:El; split; try naive_solver.
    intros [[= ->] [x Ex]]. congruence. }
  split; [by intros n c [_ ?]%Hkept|]. intros o t e. rewrite <-Hlive. unfold wake_live. split; intros (c & Hc & El); exists c.
  - by apply Hkept in Hc as [? _].
  - split; [|done]. apply Hkept. by split.
Qed.
End update.

(** Asking for a wake touches nobody else's request.  When
    [update_wake_request] returns, exactly these requests are live: the
    mission's own for its target if that is still to come, none of its own
    otherwise, and every other mission's that was live before; and no other
    file is left.  The digest that names the files is taken not to collide with
    the mission's. *)
Theorem requests_of_others_stay (Or : Oracle) (E : HostEnv) (PE : PowerEnv) (m : string) (target : option Z) (interval now : Z)
    (h h' : host) (arm : WakeArm) :
  no_collision m -> m <> EmptyString -> (now_epoch h).1 = Ok now -> update_wake_request m target interval h = (Ok arm, h') ->
  (forall n c, h_requests h' !! n = Some c -> is_Some (live_request now n c)) /\
  (forall o t e, wake_live now (h_requests h') o t e <-> live_with m target interval now (h_requests h) o t e).
Proof. apply update_requests. Qed.

(** ** A night *)

(** A host whose clock stands near 1000 for forty readings and is at 5000 after. *)
Definition night_time (n : nat) : Z := if (n <? 40)%nat then 1000 else 5000.
Definition night_host : HostEnv := {|
  getenv _ := None;
  found _ _ := true;
  exits _ _ := Ok (0, EmptyString);
  alarm_file _ := Some "5000"%string;
  time_s := night_time;
  time_ms n := 1000 * night_time n;
  clock_sample n := Some (inject_Z (night_time n), 0)%Q;
  clock_fields _ := (Fin 0, Fin 0, None);
  watchdog_opens _ := true;
  append_ok _ := true;
  ledger_readable _ := true;
  rewrite_ends _ := RW_done;
  float_text t := (fun z => Fin (inject_Z z)) <$> int_of_text t;
  rounded q := q;
  round3 q := q;
  fixed3 _ := "0.000"%string;
  text_of_json _ := EmptyString;
  pid := 7;
|}.
Definition blocked_decision : json :=
  JObj [("usable", JBool false); ("reason", JStr "rate-limited"); ("wait_until", JInt 5000);
        ("windows", JList [JObj [("kind", JStr "reset_window"); ("reset_epoch", JInt 5000)]])]%string.
Definition blocked_observation : dict := [("all_rate_limited", JBool true); ("decisions", JList [blocked_decision])]%string.
Definition night_power : PowerEnv := {|
  digest s := s;
  unlinks _ := true;
  writes _ := WR_done;
  json_of_text _ := Some (JObj [("type", JStr "a(ssssuu)"); ("data", JList [JList []])])%string;
  process_token _ _ := EmptyString;
  observed n _ := Ok (if (n <? 40)%nat then blocked_observation else []);
  elsewhere _ := [];
  local_time _ := "then"%string;
|}.
Definition night (requests : gmap string (option json)) (plan : option json) : host := Host 0 [] [] requests plan (demo_world 3).

Lemma recovery_target_exact_witness : recovery_target blocked_observation 1000 = Ok (Some 5000) /\
  dget "all_rate_limited" blocked_observation = Some (JBool true).
Proof.
  assert (Hr : recovery_target blocked_observation 1000 = Ok (Some 5000)) by (vm_compute; reflexivity).
  split; [exact Hr|]. exact (proj1 (proj1 (recovery_target_exact blocked_observation 1000 (Some 5000) Hr 5000) eq_refl)).
Defined.

Lemma append_same_end s1 s2 c : (s1 +:+ c = s2 +:+ c -> s1 = s2)%string.
Proof.
  assert (Hl : forall s : string, String.length (s +:+ c) = (String.length s + String.length c)%nat) by (intros s; induction s as [|a s IH]; [done|exact (f_equal S IH)]).
  revert s2. induction s1 as [|a s1 IH]; intros [|b s2] E; [done| | |injection E as -> E; by rewrite (IH s2 E)].
  all: apply (f_equal String.length) in E; rewrite !Hl in E; cbn in E; lia.
Qed.
Lemma night_no_collision m : no_collision (H1 := night_power) m.
Proof. intros o E. exact (append_same_end _ _ _ E). Qed.
(** Mission [m2] waits until 7000; [m1] now asks for 5000. *)
Definition night_files : gmap string (option json) :=
  {["m2.json"%string := Some (JObj (request_of "m2" 7000 9000))]}.
Lemma requests_of_others_stay_witness : wake_live (H1 := night_power) 1000
  (h_requests (update_wake_request (H0 := night_host) (H1 := night_power) "m1" (Some 5000) 60 (night night_files None)).2) "m2" 7000 9000.
Proof.
  assert (Hu : exists arm, (update_wake_request (H0 := night_host) (H1 := night_power) "m1" (Some 5000) 60 (night night_files None)).1 = Ok arm)
    by (eexists; vm_compute; reflexivity).
  destruct (update_wake_request (H0 := night_host) (H1 := night_power) "m1" (Some 5000) 60 (night night_files None)) as [r h'] eqn:E.
  destruct Hu as [arm Hu]. cbn [fst snd] in *. subst r.
  apply (requests_of_others_stay demo_oracle night_host night_power "m1" (Some 5000) 60 1000 (night night_files None) h' arm
    (night_no_collision _) ltac:(done) eq_refl E).
  unfold live_with. cbn. eexists. split; vm_compute; reflexivity.
Defined.
