(* ===== verification/PowerPlan.v ===== *)
(** * The planned wake, and suspending until credits ([bridge_power.py])

    A planned wake is not lost; the host sleeps until credits only behind a
    verified wake, with no operation active at the final check. *)

From Stdlib Require Import QArith.
From S2P Require Import Prelude Py Vocab States StoreData StoreTasks StoreOps StoreReview StoreLog StoreApi StoreDemo Suspend SuspendLaws SuspendLedger Power PowerLaws.
From stdpp Require Import options.
Local Open Scope Z_scope.

(** ** Planning the wake *)

Section plan.
Context `{Oracle} `{HostEnv} `{PowerEnv}.

(** The alarm was read back near [t], or the timer of the wake found active. *)
Definition wake_seen (arm : WakeArm) (t : Z) (evs : list hevent) : Prop :=
  (wa_method arm = "rtcwake"%string /\
     exists alarm tolerance, E_alarm (Some alarm) ∈ evs /\ drift_tolerance = Ok tolerance /\ Z.abs (alarm - t) <= tolerance) \/
  (wa_method arm = "systemd-timer"%string /\ E_run (timer_active (wa_unit arm)) 0 ∈ evs).
Lemma verified_seen arm t evs : wake_verified arm t evs -> wake_seen arm t evs.
Proof. by intros (_ & _ & Hv). Qed.
Lemma wake_seen_app arm t e1 e2 : wake_seen arm t e1 -> wake_seen arm t (e1 ++ e2).
Proof. intros [(Hm & al & tol & He & Hr)|[Hm He]]; [left|right]; set_solver. Qed.
Lemma wake_seen_behind arm t e1 e2 : wake_seen arm t e2 -> wake_seen arm t (e1 ++ e2).
Proof. intros [(Hm & al & tol & He & Hr)|[Hm He]]; [left|right]; set_solver. Qed.

(** Taking back the wake [arm], and nothing else. *)
Definition takes_back (arm : WakeArm) (e : hevent) : Prop :=
  match e with
  | E_run argv _ =>
      wa_method arm = "systemd-timer"%string /\ argv = ["systemctl"; "--user"; "stop"; wa_unit arm +:+ ".timer"]%string \/
      wa_method arm = "rtcwake"%string /\ argv = ["rtcwake"; "-m"; "disable"]%string
  | _ => False
  end.

(** A command that takes back two wakes: the one alarm there is, or timers of
    the same name. *)
Definition same_timer (prior arm : WakeArm) : Prop :=
  wa_method arm = "systemd-timer"%string /\ wa_method prior = "systemd-timer"%string /\ wa_unit arm = wa_unit prior.
Lemma takes_both prior arm e : takes_back prior e -> takes_back arm e ->
  (wa_method prior = "rtcwake"%string /\ wa_method arm = "rtcwake"%string) \/ same_timer prior arm.
Proof.
  destruct e as [argv code| | | | |]; try done. cbn. intros [[Hp Ep]|[Hp Ep]] [[Ha Ea]|[Ha Ea]]; [right|congruence|congruence|by left].
  split_and!; [done..|]. rewrite Ep in Ea. injection Ea as Ea. by apply append_same_end in Ea.
Qed.

(** The wake [arm] was seen for [t] and not taken back after that - except that
    a new timer that bears the name of the prior one is stopped with it. *)
Definition still_there (prior arm : WakeArm) (t : Z) (evs : list hevent) : Prop :=
  exists e1 e2, evs = e1 ++ e2 /\ wake_seen arm t e1 /\ (Forall (fun e => ~ takes_back arm e) e2 \/ same_timer prior arm).
Lemma seen_still prior arm t evs : wake_seen arm t evs -> still_there prior arm t evs.
Proof. intros Hs. exists evs, []. rewrite app_nil_r. split_and!; [done..|by left]. Qed.

Lemma disarm_takes arm h : emits (disarm_rtc_wake arm) (fun _ evs => Forall (takes_back arm) evs) h.
Proof.
  assert (Hrun : forall argv h, takes_back arm (E_run argv 0) -> emits (run_cmd argv) (fun _ evs => Forall (takes_back arm) evs) h).
  { intros argv h1 Ht. unfold run_cmd, ask, emits, ends, mbind, ST_bind. destruct (exits _ _) as [[code out]|e]; cbn.
    - exists [E_run argv code]. split; [done|]. constructor; [exact Ht|constructor].
    - exists []. rewrite app_nil_r. split; [done|constructor]. }
  assert (Hhave : forall n (b : bool) h, emits (if b then have_cmd n else mret false) (fun r evs => evs = [] /\ (b = false -> r = Ok false)) h).
  { intros n [] h1; [|by apply emits_ret]. exists []. rewrite app_nil_r. split; [done|by split]. }
  unfold disarm_rtc_wake. apply emits_bind. eapply emits_mono; [apply Hhave|]. intros r evs [-> Hb]. destruct r as [sysd|e]; [|done].
  intros h1. destruct sysd.
  - apply emits_bind. eapply emits_mono; [apply Hrun|].
    + left. split; [|done]. case_bool_decide as Hm; [done|]. by specialize (Hb eq_refl).
    + intros [x|e] evs Hf; [|done]. intros h2. apply emits_ret. by rewrite app_nil_r.
  - apply emits_bind. eapply emits_mono; [apply (Hhave "rtcwake"%string (bool_decide (wa_method arm = "rtcwake"%string)))|].
    intros r evs [-> Hr]. destruct r as [rtc|e]; [|done]. intros h2. destruct rtc; cbn [when]; [|by apply emits_ret].
    apply emits_bind. eapply emits_mono; [apply Hrun|].
    + right. split; [|done]. case_bool_decide as Hm; [done|]. by specialize (Hr eq_refl).
    + intros [x|e] evs Hf; [|done]. intros h3. apply emits_ret. by rewrite app_nil_r.
Qed.

(** What planning for [target] did: nothing was taken back, or only the prior
    wake after a new one had been verified; and the wake it reports as armed was
    seen at the target and not taken back after that, was armed again and seen
    at the prior target, or is the prior one, untouched. *)
Definition plan_kept (prior : dict) (target : Z) (r : result stop WakeArm) (evs : list hevent) : Prop :=
  (Forall (fun e => harmless e = true) evs \/
   exists arm e1 e2, evs = e1 ++ e2 /\ Forall (fun e => harmless e = true) e1 /\ wake_verified arm target e1 /\ Forall (takes_back (_stored_arm prior)) e2) /\
  forall arm, r = Ok arm -> wa_armed arm = true ->
    still_there (_stored_arm prior) arm target evs \/
    (wa_armed (_stored_arm prior) = true /\ Forall (fun e => harmless e = true) evs /\
       ((exists t, wa_target (_stored_arm prior) = Some t /\ wake_verified arm t evs) \/
        (wa_method arm = wa_method (_stored_arm prior) /\ wa_unit arm = wa_unit (_stored_arm prior) /\ wa_target arm = wa_target (_stored_arm prior)))).
Lemma plan_kept_raise prior t e evs : Forall (fun e => harmless e = true) evs -> plan_kept prior t (Raise e) evs.
Proof. intros F. split; [by left|done]. Qed.

Lemma emits_plan t arm now (Q : result stop unit -> list hevent -> Prop) h : (forall r, Q r []) -> emits (_write_plan t arm now) Q h.
Proof.
  intros HQ. unfold _write_plan, finish_write. cbv zeta. apply emits_bind, emits_ask. intros w h1. cbn [app].
  destruct w; (exists []; rewrite app_nil_r; split; [done|apply HQ]).
Qed.
Lemma stands_seen arm t h : acts (plan_stands arm t) (fun r evs => r = Ok true -> wake_seen arm t evs) h.
Proof.
  unfold plan_stands. case_bool_decide as Hm.
  - apply acts_bind, acts_alarm. intros [alarm|] h1; [|by apply acts_ret]. apply acts_bind, acts_lift.
    destruct drift_tolerance as [tol|e] eqn:Et; [|done]. intros h2. apply acts_ret. intros [= Hl]. apply Z.leb_le in Hl.
    left. split; [done|]. exists alarm, tol. split_and!; [set_solver|done|done].
  - case_bool_decide as Hs; [|by apply acts_ret]. destruct (truthy_str _); [|by apply acts_ret].
    apply acts_bind, acts_run; [done|done|]. intros code out h1. apply acts_ret. intros [= ->%Z.eqb_eq]. right. split; [done|]. set_solver.
Qed.
Lemma retain_kept target prior arm now e0 h : wa_armed arm = false -> Forall (fun e => harmless e = true) e0 ->
  emits (retain target prior arm now) (fun r evs => plan_kept prior target r (e0 ++ evs)) h.
Proof.
  intros Ha F0. unfold retain. cbv zeta. destruct (wa_armed (_stored_arm prior)) eqn:Es.
  2: { apply emits_bind, emits_plan. intros [[]|e]; [|by apply plan_kept_raise; rewrite app_nil_r]. intros h1. apply emits_ret.
       rewrite ?app_nil_r. split; [by left|]. intros a [= <-]. congruence. }
  assert (Hkeep : forall h d, emits (mret (Wake true (wa_method (_stored_arm prior)) (wa_confirmed (_stored_arm prior)) (wa_unit (_stored_arm prior)) d (wa_target (_stored_arm prior))) : HM WakeArm)
      (fun r evs => plan_kept prior target r (e0 ++ evs)) h).
  { intros h1 d. apply emits_ret. rewrite app_nil_r. split; [by left|]. intros a [= <-] _. right. split_and!; [done|done|by right]. }
  case_bool_decide; [|apply Hkeep]. destruct (wa_target (_stored_arm prior)) as [t|] eqn:Et; [|apply Hkeep].
  apply emits_bind. eapply emits_acts; [apply arm_verified|]. intros [restored|e] e1 F1 Hv; [|by apply plan_kept_raise, Forall_app]. intros h1.
  assert (F : Forall (fun e => harmless e = true) (e0 ++ e1)) by (by apply Forall_app).
  destruct (wa_armed restored) eqn:Er; cbn [negb].
  2: { apply emits_ret. rewrite app_nil_r. split; [by left|]. by intros a [= <-]. }
  apply emits_bind, emits_plan. intros [[]|e]; [|by apply plan_kept_raise; rewrite app_nil_r]. intros h2. apply emits_ret. rewrite ?app_nil_r.
  split; [by left|]. intros a [= <-] _. right. split_and!; [done|done|left]. exists t. split; [done|]. by apply wake_verified_behind, Hv.
Qed.
Lemma replan_kept target prior now e0 h : Forall (fun e => harmless e = true) e0 ->
  emits (replan target prior now) (fun r evs => plan_kept prior target r (e0 ++ evs)) h.
Proof.
  intros F0. unfold replan. apply emits_bind. eapply emits_acts; [apply arm_verified|].
  intros [arm|e] e1 F1 Hv; [|by apply plan_kept_raise, Forall_app]. intros h1.
  assert (F : Forall (fun e => harmless e = true) (e0 ++ e1)) by (by apply Forall_app).
  destruct (wa_armed arm) eqn:Ea; cbn [negb].
  2: { eapply emits_mono; [by apply (retain_kept target prior arm now (e0 ++ e1))|]. intros r evs. by rewrite app_assoc. }
  specialize (Hv arm eq_refl Ea). cbv zeta. apply emits_bind.
  assert (Hout : emits (when (wa_armed (_stored_arm prior) && negb (bool_decide (wa_method (_stored_arm prior) = "rtcwake"%string) && bool_decide (wa_method arm = "rtcwake"%string)))
      (disarm_rtc_wake (_stored_arm prior))) (fun _ evs => Forall (takes_back (_stored_arm prior)) evs /\
        (wa_method (_stored_arm prior) = "rtcwake"%string -> wa_method arm = "rtcwake"%string -> evs = [])) h1).
  { destruct (_ && _) eqn:Eb; [|by apply emits_ret]. eapply emits_mono; [apply disarm_takes|]. intros r evs Ft. split; [exact Ft|].
    intros Hp Hm. rewrite Hp, Hm in Eb. by rewrite andb_false_r in Eb. }
  eapply emits_mono; [exact Hout|]. intros r e2 [F2 Hrtc].
  assert (Hkept : forall r', (forall a, r' = Ok a -> a = arm) -> plan_kept prior target r' (e0 ++ e1 ++ e2)).
  { intros r' Hr. split.
    - right. exists arm, (e0 ++ e1), e2. split_and!; [by rewrite app_assoc|done|by apply wake_verified_behind|done].
    - intros a Ea' _. apply Hr in Ea' as ->. left. exists (e0 ++ e1), e2.
      split_and!; [by rewrite app_assoc|by apply wake_seen_behind, verified_seen|].
      destruct (decide (same_timer (_stored_arm prior) arm)) as [|Hns]; [by right|left].
      apply Forall_forall. intros e He Ht. rewrite Forall_forall in F2. destruct (takes_both _ _ _ (F2 e He) Ht) as [[Hp Hm]|]; [|done].
      rewrite (Hrtc Hp Hm) in He. by apply not_elem_of_nil in He. }
  destruct r as [[]|e]; [|by apply Hkept]. intros h2. apply emits_bind, emits_plan. intros [[]|e]; [|by rewrite app_nil_r; apply Hkept].
  intros h3. apply emits_ret. rewrite !app_nil_r. apply Hkept. by intros a [= ->].
Qed.
End plan.

(** C18: A planned wake is never lost on the way to a better one.  Whatever the
    commands answer, [_reconcile] takes a wake back only when no request is
    left, or - and then only the one the plan recorded - after the new one for
    the earliest request was verified.  A wake it reports as armed was seen for
    the earliest request in this very call, and no command that takes it back
    came after that (the alarm is not disabled when it replaced an alarm); or, if
    no new one could be armed, it is the prior one, set again and seen, or
    untouched.  One exception is in the code: a new timer that gets the very
    name of the prior one is stopped together with it ([same_timer]). *)
Theorem wake_plan_is_kept (Or : Oracle) (E : HostEnv) (PE : PowerEnv) (requests : gmap string (Z * Z)) (now : Z) (prior : dict) (h : host) :
  (_read_plan h).1 = Ok prior ->
  exists evs, h_trace (_reconcile requests now h).2 = h_trace h ++ evs /\
    match earliest requests with
    | Some target => plan_kept prior target (_reconcile requests now h).1 evs
    | None => Forall (takes_back (_stored_arm prior)) evs /\ forall arm, (_reconcile requests now h).1 = Ok arm -> wa_armed arm = false
    end.
Proof.
  intros Hp. unfold _reconcile. destruct (earliest requests) as [target|].
  - enough (Hw : emits (prior ← _read_plan;
        stands ← (if match dget "target_epoch" prior with Some j => py_eqb j (JInt target) | None => false end && bool_decide (dget "armed" prior = Some (JBool true)) then plan_stands (_stored_arm prior) target else mret false);
        if stands : bool then mret (_stored_arm prior) else replan target prior now) (plan_kept prior target) h) by exact Hw.
    unfold _read_plan, gets in *. injection Hp as Hp. apply emits_bind. exists []. rewrite app_nil_r. split; [done|]. cbn [fst snd]. rewrite Hp. intros h1.
    apply emits_bind. eapply emits_acts.
    { instantiate (1 := fun r evs => r = Ok true -> wake_seen (_stored_arm prior) target evs). destruct (_ && _); [apply stands_seen|by apply acts_ret]. }
    intros [stands|e] e1 F1 Hs; [|by apply plan_kept_raise]. intros h2. destruct stands; [|by apply (replan_kept target prior now e1)].
    apply emits_ret. cbn [app]. rewrite app_nil_r. split; [by left|]. intros a [= <-] _. left. by apply seen_still, Hs.
  - enough (Hw : emits (prior ← _read_plan; when (wa_armed (_stored_arm prior)) (disarm_rtc_wake (_stored_arm prior)) ;; _write_plan None None now ;; mret no_wake)
      (fun r evs => Forall (takes_back (_stored_arm prior)) evs /\ forall arm, r = Ok arm -> wa_armed arm = false) h) by exact Hw.
    unfold _read_plan, gets in *. injection Hp as Hp. apply emits_bind. exists []. rewrite app_nil_r. split; [done|]. cbn [fst snd]. rewrite Hp. intros h1.
    apply emits_bind. eapply emits_mono; [instantiate (1 := fun _ evs => Forall (takes_back (_stored_arm prior)) evs); destruct (wa_armed _); [apply disarm_takes|by apply emits_ret]|].
    intros [[]|e] e2 F2; [|by split]. intros h2. apply emits_bind, emits_plan. intros [[]|e]; [|cbn; by rewrite app_nil_r; split].
    intros h3. apply emits_ret. rewrite ?app_nil_r. split; [done|]. by intros arm [= <-].
Qed.

(** ** Suspending until credits *)

Section credits.
Context `{Oracle} `{HostEnv} `{PowerEnv}.

#[local] Hint Resolve quiet_ask quiet_lift quiet_have quiet_now : py_keeps.
#[local] Hint Extern 1 (keeps quiet (run_cmd _)) => (apply quiet_run; reflexivity) : py_keeps.

Lemma quiet_store {A} (m : DB A) : keeps quiet (store m).
Proof.
  intros h. unfold store. destruct (m (h_world h)) as [[a|e] w]; exists []; (split; [split_and!|apply Forall_nil_2]); cbn; rewrite ?app_nil_r; try done.
  unfold meanwhile, mbind, ST_bind. cbn. lia.
Qed.
#[local] Hint Resolve quiet_store : py_keeps.
Lemma quiet_attempt {A} (m : HM A) : keeps quiet m -> keeps quiet (attempt m).
Proof. apply keeps_attempt. Qed.
#[local] Hint Resolve quiet_attempt : py_keeps.
Lemma quiet_fails {A} e : keeps quiet (fails e : HM A).
Proof. apply keeps_raise. exact _. Qed.
#[local] Hint Resolve quiet_fails : py_keeps.
Lemma quiet_blocker : keeps quiet _os_sleep_blocker.
Proof. unfold _os_sleep_blocker. solve_keeps. Qed.
Lemma quiet_runs p s : keeps quiet (still_runs p s).
Proof. unfold still_runs. solve_keeps. Qed.
#[local] Hint Resolve quiet_blocker quiet_runs : py_keeps.
Lemma quiet_first_reason {A} (f : A -> HM string) l : (forall x, keeps quiet (f x)) -> keeps quiet (first_reason f l).
Proof. intros Hf. induction l as [|x l IH]; cbn [first_reason]; [apply keeps_ret; exact _|]. apply keeps_bind; [exact _|apply Hf|]. solve_keeps. Qed.
Lemma quiet_uncertain o : keeps quiet (uncertain_reason o).
Proof. unfold uncertain_reason. solve_keeps. Qed.
Lemma quiet_managed p : keeps quiet (managed_reason p).
Proof. unfold managed_reason. solve_keeps. Qed.
#[local] Hint Resolve quiet_first_reason quiet_uncertain quiet_managed : py_keeps.
Lemma quiet_block_reason : keeps quiet suspend_block_reason.
Proof. unfold suspend_block_reason. solve_keeps. Qed.

(** No operation is reserved, spawning, acknowledged or running. *)
Definition no_active_operation (d : database) : Prop := forall o, o ∈ operations d -> active_op o = false.
Lemma clear_reason h h' : suspend_block_reason h = (Ok EmptyString, h') -> no_active_operation (w_db (h_world h)).
Proof.
  unfold suspend_block_reason. intros E. apply bind_inv in E as (active & h1 & E1 & E). destruct active as [o|]; [by injection E|].
  unfold store, read, gets in E1. cbn in E1. destruct (first active_op (operations (w_db (h_world h)))) eqn:Ef; [by injection E1|]. exact (proj1 (first_None _ _) Ef).
Qed.
Lemma credits_check cycle_id arm fuel : check_quiet no_active_operation (suspend_request_for cycle_id arm (Some suspend_block_reason) fuel).
Proof. intros check [= <-]. split; [apply quiet_block_reason|apply clear_reason]. Qed.

#[local] Hint Resolve rests_keeps rests_ask rests_now rests_have rests_tolerance rests_disarm quiet_arm quiet_alarm : py_keeps.
Lemma rests_lift {A} (r : result exn A) : keeps rests (lift r).
Proof. apply rests_keeps, quiet_lift. Qed.
Lemma rests_store {A} (m : DB A) : keeps rests (store m).
Proof. apply rests_keeps, quiet_store. Qed.
Lemma rests_files (f : host -> host) : (forall h, h_trace (f h) = h_trace h) -> keeps rests (modify f : HM unit).
Proof. intros Hf h. exists []. rewrite app_nil_r. split; [apply Hf|constructor]. Qed.
#[local] Hint Resolve rests_lift rests_store : py_keeps.
#[local] Hint Extern 2 (keeps rests (run_cmd _)) => (apply rests_run; done) : py_keeps.
#[local] Hint Extern 2 (keeps rests (modify _)) => (apply rests_files; done) : py_keeps.
Lemma rests_fails {A} e : keeps rests (fails e : HM A).
Proof. apply keeps_raise. exact _. Qed.
#[local] Hint Resolve rests_fails : py_keeps.
Lemma rests_finish put : (forall h, h_trace (put h) = h_trace h) -> keeps rests (finish_write put).
Proof. intros Hp. pose proof (rests_files put Hp). unfold finish_write. solve_keeps. Qed.
Lemma rests_plan t arm now : keeps rests (_write_plan t arm now).
Proof. unfold _write_plan. by apply rests_finish. Qed.
Lemma rests_write n d : keeps rests (_write_request n d).
Proof. by apply rests_finish. Qed.
Lemma rests_unlink n : keeps rests (unlink n).
Proof. unfold unlink. solve_keeps. Qed.
#[local] Hint Resolve rests_plan rests_write rests_unlink : py_keeps.
Lemma rests_read now : keeps rests (_read_requests now).
Proof. unfold _read_requests, read_step. solve_keeps. Qed.
Lemma rests_reconcile reqs now : keeps rests (_reconcile reqs now).
Proof. unfold _reconcile, replan, retain, plan_stands, _read_plan. solve_keeps. Qed.
#[local] Hint Resolve rests_read rests_reconcile : py_keeps.
Lemma rests_update m t i : keeps rests (update_wake_request m t i).
Proof. unfold update_wake_request. cbv zeta. solve_keeps. Qed.
Lemma rests_shared : keeps rests shared_wake_target.
Proof. unfold shared_wake_target. solve_keeps. Qed.
Lemma rests_again : keeps rests reconcile_shared_wake.
Proof. unfold reconcile_shared_wake. solve_keeps. Qed.
Lemma rests_note m k d : keeps rests (note m k d).
Proof. unfold note. solve_keeps. Qed.
Lemma rests_refresh m : keeps rests (refresh m).
Proof. unfold refresh. solve_keeps. Qed.
#[local] Hint Resolve rests_update rests_shared rests_again rests_note rests_refresh : py_keeps.
Lemma rests_cycle_end m c t arm b o : keeps rests (after_cycle m c t arm b o).
Proof. unfold after_cycle. cbv zeta. solve_keeps. Qed.
Lemma rests_reason : keeps rests suspend_block_reason.
Proof. apply rests_keeps, quiet_block_reason. Qed.
#[local] Hint Resolve rests_cycle_end rests_reason : py_keeps.

(** The host was asked to sleep at most once, and right before that - after
    the last wake taken back - came what [Q] tells of. *)
Definition slept_once (Q : list hevent -> Prop) (evs : list hevent) : Prop :=
  Forall (fun e => awake e = true) evs \/
  exists before pre code post, evs = before ++ pre ++ E_run SUSPEND code :: post /\ Forall (fun e => awake e = true) before /\
    Forall (fun e => harmless e = true) pre /\ Q pre /\ Forall (fun e => awake e = true) post.
Lemma slept_once_of Q evs : slept Q evs -> slept_once Q evs.
Proof.
  intros [F|(pre & code & post & -> & F & HQ & Fp)]; [left; by eapply Forall_impl; [exact F|apply harmless_awake]|right].
  exists [], pre, code, post. split_and!; try done.
Qed.
Lemma slept_once_behind Q e1 e2 : Forall (fun e => awake e = true) e1 -> slept_once Q e2 -> slept_once Q (e1 ++ e2).
Proof.
  intros F1 [F|(b & pre & code & post & -> & Fb & F & HQ & Fp)]; [left; by apply Forall_app|right].
  exists (e1 ++ b), pre, code, post. rewrite <-app_assoc. split_and!; try done. by apply Forall_app.
Qed.
Lemma slept_once_app Q e1 e2 : slept_once Q e1 -> Forall (fun e => awake e = true) e2 -> slept_once Q (e1 ++ e2).
Proof.
  intros [F|(b & pre & code & post & -> & Fb & F & HQ & Fp)] F2; [left; by apply Forall_app|right].
  exists b, pre, code, (post ++ e2). rewrite <-!app_assoc. split_and!; try done. by apply Forall_app.
Qed.
Definition sleeps_once {A} (m : HM A) (Q : list hevent -> Prop) : Prop := forall h, emits m (fun _ evs => slept_once Q evs) h.
Lemma sleeps_rests {A} (m : HM A) Q : keeps rests m -> sleeps_once m Q.
Proof. intros Hm h. apply emits_rests; [done|]. by left. Qed.
Lemma sleeps_bind {A B} (m : HM A) (f : A -> HM B) Q : keeps rests m -> (forall a, sleeps_once (f a) Q) -> sleeps_once (m ≫= f) Q.
Proof.
  intros Hm Hf h. apply emits_bind, emits_rests; [done|]. intros [a|e] evs F; [|by left]. intros h'.
  eapply emits_mono; [apply Hf|]. intros r evs'. by apply slept_once_behind.
Qed.

(** What was made sure of before the sleep. *)
Definition sleep_was_safe (evs : list hevent) : Prop :=
  exists target arm cycle_id, wake_verified arm target evs /\
    (exists d, E_check EmptyString d ∈ evs /\ no_active_operation d) /\
    ((forall n, append_ok n = true) -> start_recorded target cycle_id evs).
Lemma cycle_safe cycle_id target arm fuel : sleeps_once (suspend_with_wake target (suspend_request_for cycle_id arm (Some suspend_block_reason) fuel)) sleep_was_safe.
Proof.
  intros h. eapply emits_mono; [apply (cycle_slept no_active_operation target), credits_check|]. cbv beta. intros _ evs Hs. apply slept_once_of.
  destruct Hs as [F|(pre & code & post & -> & F & (a & c & Hv & Hc & Hr) & Fp)]; [by left|right]. exists pre, code, post.
  split_and!; try done. exists target, a, c. split_and!; [done|by apply Hc|done].
Qed.
Lemma simulated_rests target rq : getenv "LLM_SCHEDULER_NO_ACTUAL_SUSPEND" = Some "1"%string -> keeps rests (suspend_with_wake target rq).
Proof. intros Hs. unfold suspend_with_wake, _suspend_with_wake_locked. cbv zeta. rewrite (bool_decide_true _ Hs). solve_keeps. Qed.
Lemma planned_safe m c target simulated arm planned fuel :
  (simulated = true -> getenv "LLM_SCHEDULER_NO_ACTUAL_SUSPEND" = Some "1"%string) ->
  sleeps_once (suspend_planned m c target simulated arm planned fuel) sleep_was_safe.
Proof.
  intros Hs. unfold suspend_planned. cbv zeta. destruct (negb simulated && _); [apply sleeps_rests; solve_keeps|].
  destruct planned as [t|]; [|apply sleeps_rests; solve_keeps]. destruct simulated; cbv iota.
  - apply sleeps_rests, keeps_bind; [exact _|by apply simulated_rests, Hs|]. solve_keeps.
  - intros h. apply emits_bind. eapply emits_mono; [apply cycle_safe|]. cbv beta. intros [o|e] evs Hsl; [|done]. intros h'.
    eapply emits_rests; [apply rests_cycle_end|]. intros r evs'. by apply slept_once_app.
Qed.
Lemma credits_safe fuel m : sleeps_once (suspend_until_credits fuel m) sleep_was_safe.
Proof.
  unfold suspend_until_credits. cbv zeta.
  apply sleeps_bind; [solve_keeps|]. intros ms. apply sleeps_bind; [solve_keeps|]. intros obs. apply sleeps_bind; [solve_keeps|]. intros now.
  apply sleeps_bind; [solve_keeps|]. intros [target|]; [|apply sleeps_rests; solve_keeps].
  apply sleeps_bind; [solve_keeps|]. intros unsafe. destruct (truthy_str unsafe); [apply sleeps_rests; solve_keeps|].
  apply sleeps_bind; [solve_keeps|]. intros arm. apply sleeps_bind; [solve_keeps|]. intros planned.
  apply sleeps_bind; [solve_keeps|]. intros _. apply planned_safe. by intros ?%bool_decide_eq_true.
Qed.
End credits.

(** C17: Suspending until credits never strands a mission.  Whatever the host,
    the database, other processes and capacity answer, and however the call
    ends: the host is asked to sleep at most once, and between the last wake
    taken back and that request a wake was verified for the target slept to and
    the final check found nothing in a database without an active operation.
    The start was recorded before, too, provided the ledger can be appended to:
    the code ignores an append that fails. *)
Theorem credits_sleep_safely (Or : Oracle) (E : HostEnv) (PE : PowerEnv) (fuel : nat) (mission_id : string) (h : host) :
  exists evs, h_trace (suspend_until_credits fuel mission_id h).2 = h_trace h ++ evs /\ slept_once sleep_was_safe evs.
Proof. apply (credits_safe fuel mission_id h). Qed.

(** The plan records a timer for 6000 when the earliest request is for 5000:
    the alarm is set and read back, and the timer stopped. *)
Definition night_prior : dict :=
  [("target_epoch", JInt 6000); ("method", JStr "systemd-timer"); ("armed", JBool true); ("confirmed", JBool false); ("unit", JStr "old")]%string.
Lemma wake_plan_is_kept_witness : exists evs,
  h_trace (_reconcile (H0 := night_host) (H1 := night_power) {["m1"%string := (5000, 9000)]} 1000 (night ∅ (Some (JObj night_prior)))).2 = evs /\
  plan_kept (H0 := night_host) night_prior 5000
    (_reconcile (H0 := night_host) (H1 := night_power) {["m1"%string := (5000, 9000)]} 1000 (night ∅ (Some (JObj night_prior)))).1 evs.
Proof.
  destruct (wake_plan_is_kept demo_oracle night_host night_power {["m1"%string := (5000, 9000)]} 1000 night_prior
    (night ∅ (Some (JObj night_prior))) eq_refl) as (evs & T & Hk).
  exists evs. split; [exact T|]. exact Hk.
Defined.

(** The night of [m1]: the wake is armed and checked again, the host sleeps,
    and the wake is taken back when no reset is left to wait for. *)
Example night_sleeps :
  exists result, (suspend_until_credits (H := demo_oracle) (H0 := night_host) (H1 := night_power) 40 "m1"%string (night ∅ None)).1 = Ok result /\
  dget "status" result = Some (JStr "suspended") /\
  existsb (fun e => negb (awake e)) (h_trace (suspend_until_credits (H := demo_oracle) (H0 := night_host) (H1 := night_power) 40 "m1"%string (night ∅ None)).2) = true.
Proof. eexists. split_and!; vm_compute; reflexivity. Qed.

(** A prior alarm for 6000 is replaced by one for 5000 and not disabled. *)
Definition night_alarm : dict :=
  [("target_epoch", JInt 6000); ("method", JStr "rtcwake"); ("armed", JBool true); ("confirmed", JBool true); ("unit", JStr EmptyString)]%string.
Example alarm_replaced :
  existsb (fun e => match e with E_run argv _ => bool_decide (argv = ["rtcwake"; "-m"; "disable"]%string) | _ => false end)
    (h_trace (_reconcile (H0 := night_host) (H1 := night_power) {["m1"%string := (5000, 9000)]} 1000 (night ∅ (Some (JObj night_alarm)))).2) = false.
Proof. vm_compute. reflexivity. Qed.

(** Without [rtcwake], the timer of the plan is found gone in the second in which
    it was made: the new one gets its name, and is stopped as the old one. *)
Definition timers_host : HostEnv := {|
  getenv _ := None;
  found _ name := negb (bool_decide (name = "rtcwake"%string));
  exits n argv := Ok (if bool_decide (argv !! 2%nat = Some "is-active"%string) && (n <? 2)%nat then 3 else 0, EmptyString);
  alarm_file _ := None;
  time_s _ := 1000;
  time_ms _ := 1000000;
  clock_sample _ := None;
  clock_fields _ := (Fin 0, Fin 0, None);
  watchdog_opens _ := false;
  append_ok _ := true;
  ledger_readable _ := true;
  rewrite_ends _ := RW_done;
  float_text t := (fun z => Fin (inject_Z z)) <$> int_of_text t;
  rounded q := q;
  round3 q := q;
  fixed3 _ := EmptyString;
  text_of_json _ := EmptyString;
  pid := 7;
|}.
Definition timer_plan : dict :=
  [("target_epoch", JInt 5000); ("method", JStr "systemd-timer"); ("armed", JBool true); ("confirmed", JBool false);
   ("unit", JStr "llm-bridge-capacity-wake-5000-wake-1000")]%string.
Example new_timer_stopped : exists arm h,
  _reconcile (H0 := timers_host) (H1 := night_power) {["m1"%string := (5000, 9000)]} 1000 (night ∅ (Some (JObj timer_plan))) = (Ok arm, h) /\
  wa_armed arm = true /\ last (h_trace h) = Some (E_run ["systemctl"; "--user"; "stop"; wa_unit arm +:+ ".timer"] 0)%string.
Proof. eexists _, _. split_and!; vm_compute; reflexivity. Qed.
