(* ===== verification/Config.v ===== *)
(** * The shared configuration file ([config.py])

    Validation of the parsed TOML file, and the policies of providers and
    routes that are read from it.  A TOML table is a [dict]; dates and times,
    which no key takes, are left out of the values. *)

From Stdlib Require Import QArith Ascii.
From S2P Require Import Prelude Py StoreData Capacity.
From stdpp Require Import options.
Local Open Scope Z_scope.

(** ** Allowed keys and values *)

Definition _TOP_LEVEL_KEYS : list string := ["defaults"; "providers"; "ralph"; "scheduler"; "routes"; "budget"; "copilot"; "usage"; "bridge"]%string.
Definition _BRIDGE_KEYS : list string := ["theme"; "teams"; "token_spend"]%string.
Definition _USAGE_KEYS : list string := ["providers"]%string.
Definition _BUDGET_KEYS : list string := ["monthly"; "currency"]%string.
Definition _COPILOT_KEYS : list string := ["monthly_spend_limit"; "currency"]%string.
Definition _DEFAULTS_KEYS : list string := ["providers"; "scope"; "min_remaining"]%string.
Definition _PROVIDER_KEYS : list string := ["model"; "allow_fallback"; "scope"; "min_remaining"; "capacity_provider"]%string.
Definition _RALPH_KEYS : list string :=
  ["providers"; "routes"; "scope"; "min_remaining"; "poll_interval"; "max_unavailable_wait"; "retry_delays"; "even_burn";
   "max_iterations"; "max_duration"; "min_iteration_seconds"; "prefix"; "prefix_usage_interval"]%string.
Definition _SCHEDULER_KEYS : list string := ["provider"; "scope"; "min_remaining"; "poll_interval"; "max_unavailable_wait"; "retry_delays"]%string.
Definition _ROUTE_KEYS : list string := ["provider"; "model"; "allow_fallback"; "capacity"; "cost"]%string.
Definition _CAPACITY_POLICY_KEYS : list string := ["policy"; "scope"; "label"; "provider"]%string.
Definition _COST_POLICY_KEYS : list string := ["policy"; "amount"; "currency"; "period"]%string.
Definition _CAPACITY_POLICIES : list string := ["provider"; "provider_model"; "delegate"; "opaque"; "ungated"; "balance"; "budget"]%string.
Definition _COST_POLICIES : list string := ["included"; "fixed_subscription"; "metered_balance"; "metered_budget"; "free"; "external"; "unknown"]%string.

(** ** Policies *)

Record ProviderPolicy : Type := PPolicy {
  pp_model : option string;
  pp_allow_fallback : bool;
  pp_scope : option string;
  pp_min_remaining : option string;
  pp_capacity_provider : option string;
}.
Record CapacityPolicyConfig : Type := CapacityPolicy {
  cap_policy : string;
  cap_scope : option string;
  cap_label : option string;
  cap_provider : option string;
}.
Record CostPolicyConfig : Type := CostPolicy {
  cost_policy : string;
  cost_amount : option pyfloat;
  cost_currency : option string;
  cost_period : option string;
}.
Record RoutePolicy : Type := Route {
  r_route_id : string;
  r_provider : string;
  r_model : option string;
  r_allow_fallback : bool;
  r_capacity : CapacityPolicyConfig;
  r_cost : CostPolicyConfig;
}.

(** [str] and [repr] of values other than texts, and [float] of a text and of
    an integer, which may be too large. *)
Class ConfigEnv : Type := {
  str_of : json -> string;
  repr_of : json -> string;
  float_of_text : string -> option pyfloat;
  float_of_int : Z -> option pyfloat;
}.

Section config.
Context `{ConfigEnv}.

Definition py_str (j : json) : string := match j with JStr s => s | _ => str_of j end.

(** ** Validation *)

(** Prints the message and exits with status 2. *)
Definition _fail {A} (message : string) : result string A := Raise message.
Definition fail_if (b : bool) (message : string) : result string unit := if b then _fail message else Ok tt.
Fixpoint each {A} (f : A -> result string unit) (l : list A) : result string unit :=
  match l with [] => Ok tt | x :: l => _ ← f x; each f l end.
Definition known_names : string := join ", " ALL_PROVIDERS.
Definition is_provider (j : json) : bool := match j with JStr s => bool_decide (s ∈ ALL_PROVIDERS) | _ => false end.
Definition is_bool (j : json) : bool := match j with JBool _ => true | _ => false end.
Definition is_str (j : json) : bool := match j with JStr _ => true | _ => false end.
(** The keys a table should not have, sorted. *)
Definition unknown_keys (allowed : list string) (table : dict) : list string :=
  sort_by str_leb (select (fun k => negb (bool_decide (k ∈ allowed))) (fst <$> table)).
Definition keys_known (allowed : list string) (table : dict) (message : list string -> string) : result string unit :=
  fail_if (negb (bool_decide (unknown_keys allowed table = []))) (message (unknown_keys allowed table)).
(** An absent section or key, or one that is none. *)
Definition given (j : option json) : option json := match j with Some JNull => None | _ => j end.

Definition _validate_section (section : option json) (name : string) (allowed : list string) : result string unit :=
  match given section with
  | None => Ok tt
  | Some (JObj d) => keys_known allowed d (fun unknown => name +:+ ": unknown key(s): " +:+ join ", " unknown +:+ " (allowed: " +:+ join ", " (sort_by str_leb allowed) +:+ ")")
  | Some _ => _fail ("'" +:+ name +:+ "' must be a table")
  end%string.

(** A number that is given must be positive, a text a text. *)
Definition positive_number (key where_ : string) (section : dict) : result string unit :=
  match dget key section with
  | None => Ok tt
  | Some (JInt z) => fail_if (z <=? 0)%Z (where_ +:+ " must be greater than 0")
  | Some (JFloat f) => fail_if (fle f (Fin 0)) (where_ +:+ " must be greater than 0")
  | Some _ => _fail (where_ +:+ " must be a number")
  end%string.
Definition text_value (key where_ : string) (section : dict) : result string unit :=
  match dget key section with
  | Some j => fail_if (negb (is_str j)) (where_ +:+ " must be a string")
  | None => Ok tt
  end%string.
Definition _validate_budget (budget : option json) : result string unit :=
  match budget with
  | Some (JObj d) => _ ← positive_number "monthly" "budget.monthly" d; text_value "currency" "budget.currency" d
  | _ => Ok tt
  end.
Definition _validate_copilot (copilot : option json) : result string unit :=
  match copilot with
  | Some (JObj d) => _ ← positive_number "monthly_spend_limit" "copilot.monthly_spend_limit" d; text_value "currency" "copilot.currency" d
  | _ => Ok tt
  end.
Definition _validate_usage (usage : option json) : result string unit :=
  match usage with
  | Some (JObj d) =>
      match dget "providers" d with
      | None => Ok tt
      | Some (JList names) =>
          _ ← fail_if (negb (forallb is_str names)) "usage.providers must be a list of provider names";
          _ ← fail_if (bool_decide (names = [])) "usage.providers must name at least one provider (omit the key to enable all providers)";
          each (fun name => fail_if (negb (is_provider name)) ("usage.providers: unknown provider '" +:+ py_str name +:+ "' (known: " +:+ known_names +:+ ")")) names
      | Some _ => _fail "usage.providers must be a list of provider names"
      end
  | _ => Ok tt
  end%string.
Definition _validate_bridge (bridge : option json) : result string unit :=
  match given bridge with
  | None => Ok tt
  | Some bridge =>
      _ ← _validate_section (Some bridge) "bridge" _BRIDGE_KEYS;
      match bridge with
      | JObj d =>
          _ ← match dget "teams" d with Some j => fail_if (negb (is_bool j)) "bridge.teams must be true or false" | None => Ok tt end;
          match dget "token_spend" d with
          | Some (JStr s) => fail_if (negb (bool_decide (s ∈ ["low"; "medium"; "high"]))) "bridge.token_spend must be low, medium, or high"
          | Some _ => _fail "bridge.token_spend must be low, medium, or high"
          | None => Ok tt
          end
      | _ => Ok tt
      end
  end%string.

(** [providers.get(target) or {}], of a table whose values are tables. *)
Definition sub_table (key : string) (d : dict) : dict := match dget key d with Some (JObj t) => t | _ => [] end.
Definition validate_provider (entry : string * json) : result string unit :=
  let '(name, policy) := entry in
  _ ← fail_if (negb (bool_decide (name ∈ ALL_PROVIDERS))) ("unknown provider '" +:+ name +:+ "' (known: " +:+ known_names +:+ ")");
  match policy with
  | JObj d =>
      _ ← keys_known _PROVIDER_KEYS d (fun unknown => "providers." +:+ name +:+ ": unknown key(s): " +:+ join ", " unknown);
      match dget "allow_fallback" d with
      | Some j => fail_if (negb (is_bool j)) ("providers." +:+ name +:+ ".allow_fallback must be true or false")
      | None => Ok tt
      end
  | _ => _fail ("providers." +:+ name +:+ " must be a table")
  end%string.
Definition validate_link (providers : dict) (entry : string * json) : result string unit :=
  let '(name, policy) := entry in
  match given (jget "capacity_provider" policy) with
  | None => Ok tt
  | Some target =>
      let field := ("providers." +:+ name +:+ ".capacity_provider")%string in
      _ ← fail_if (negb (is_provider target)) (field +:+ " must be a known provider (known: " +:+ known_names +:+ ")");
      _ ← fail_if (bool_decide (target = JStr name)) (field +:+ " cannot reference itself");
      fail_if (bool_decide (is_Some (given (dget "capacity_provider" (sub_table (py_str target) providers)))))
        (field +:+ " points at '" +:+ py_str target +:+ "', which itself sets capacity_provider; capacity links must be a single hop")
  end%string.
Definition _validate_capacity_providers (providers : dict) : result string unit := each (validate_link providers) providers.
Definition _validate_providers (providers : option json) : result string unit :=
  match given providers with
  | None => Ok tt
  | Some (JObj d) => _ ← each validate_provider d; _validate_capacity_providers d
  | Some _ => _fail "'providers' must be a table of provider name to policy"
  end.

(** [block.get(key) or {}]: a value that is false counts as an empty table. *)
Definition sub_block (key : string) (d : dict) : json :=
  match dget key d with Some j => if truthy j then j else JObj [] | None => JObj [] end.
Definition in_names (names : list string) (j : json) : bool := match j with JStr s => bool_decide (s ∈ names) | _ => false end.
Definition validate_delegate (routes : dict) (route_id provider : string) (capacity : dict) : result string unit :=
  let where_ := ("routes." +:+ route_id +:+ ".capacity")%string in
  let target := default JNull (dget "provider" capacity) in
  _ ← fail_if (negb (truthy target)) (where_ +:+ ".policy = 'delegate' requires 'capacity.provider' to name a known provider");
  _ ← fail_if (negb (is_provider target)) (where_ +:+ ".provider " +:+ repr_of target +:+ " must be a known provider");
  _ ← fail_if (bool_decide (target = JStr provider)) (where_ +:+ ".provider cannot reference its own provider");
  match jget "capacity" (JObj (sub_table (py_str target) routes)) with
  | Some (JObj c) =>
      fail_if (bool_decide (dget "policy" c = Some (JStr "delegate")))
        (where_ +:+ ".provider points at '" +:+ py_str target +:+ "', which itself delegates; capacity links must be a single hop")
  | _ => Ok tt
  end%string.
Definition validate_capacity (routes : dict) (route_id provider : string) (capacity : json) : result string json :=
  let where_ := ("routes." +:+ route_id +:+ ".capacity")%string in
  match capacity with
  | JObj d =>
      _ ← keys_known _CAPACITY_POLICY_KEYS d (fun unknown => where_ +:+ ": unknown key(s): " +:+ join ", " unknown);
      let policy := default (JStr "provider") (dget "policy" d) in
      _ ← fail_if (negb (in_names _CAPACITY_POLICIES policy))
            (where_ +:+ ".policy " +:+ repr_of policy +:+ " is not a known capacity policy (known: " +:+ join ", " _CAPACITY_POLICIES +:+ ")");
      _ ← (if bool_decide (policy = JStr "delegate") then validate_delegate routes route_id provider d else Ok tt);
      Ok policy
  | _ => _fail (where_ +:+ " must be a table")
  end%string.
Definition validate_cost (route_id : string) (cost : json) : result string unit :=
  let where_ := ("routes." +:+ route_id +:+ ".cost")%string in
  match cost with
  | JObj d =>
      _ ← keys_known _COST_POLICY_KEYS d (fun unknown => where_ +:+ ": unknown key(s): " +:+ join ", " unknown);
      let policy := default (JStr "unknown") (dget "policy" d) in
      fail_if (negb (in_names _COST_POLICIES policy))
        (where_ +:+ ".policy " +:+ repr_of policy +:+ " is not a known cost policy (known: " +:+ join ", " _COST_POLICIES +:+ ")")
  | _ => _fail (where_ +:+ " must be a table")
  end%string.
Definition validate_route (routes providers : dict) (entry : string * json) : result string unit :=
  let '(route_id, block) := entry in
  let where_ := ("routes." +:+ route_id)%string in
  match block with
  | JObj d =>
      _ ← keys_known _ROUTE_KEYS d (fun unknown => where_ +:+ ": unknown key(s): " +:+ join ", " unknown);
      let provider := default JNull (dget "provider" d) in
      _ ← fail_if (negb (truthy provider)) (where_ +:+ ": 'provider' is required");
      _ ← fail_if (negb (is_provider provider)) (where_ +:+ ": unknown provider " +:+ repr_of provider +:+ " (known: " +:+ known_names +:+ ")");
      _ ← match given (dget "model" d) with
          | Some j => fail_if (negb (is_str j)) (where_ +:+ ".model must be a string when set")
          | None => Ok tt
          end;
      _ ← match dget "allow_fallback" d with
          | Some j => fail_if (negb (is_bool j)) (where_ +:+ ".allow_fallback must be true or false")
          | None => Ok tt
          end;
      policy ← validate_capacity routes route_id (py_str provider) (sub_block "capacity" d);
      _ ← validate_cost route_id (sub_block "cost" d);
      fail_if (bool_decide (policy = JStr "opaque") && truthy_opt (dget "capacity_provider" (sub_table (py_str provider) providers)))
        (where_ +:+ " sets capacity.policy = 'opaque' but providers." +:+ py_str provider +:+ ".capacity_provider is also set; choose one source of truth")
  | _ => _fail (where_ +:+ " must be a table")
  end%string.
Definition _validate_routes (routes : option json) (providers : dict) : result string unit :=
  match given routes with
  | None => Ok tt
  | Some (JObj d) => each (validate_route d providers) d
  | Some _ => _fail "'routes' must be a table of route id to policy"
  end.

Definition _validate (raw : json) : result string dict :=
  match raw with
  | JObj d =>
      _ ← keys_known _TOP_LEVEL_KEYS d (fun unknown => "unknown section(s): " +:+ join ", " unknown +:+ " (allowed: " +:+ join ", " (sort_by str_leb _TOP_LEVEL_KEYS) +:+ ")");
      _ ← _validate_section (dget "defaults" d) "defaults" _DEFAULTS_KEYS;
      _ ← _validate_section (dget "ralph" d) "ralph" _RALPH_KEYS;
      _ ← _validate_section (dget "scheduler" d) "scheduler" _SCHEDULER_KEYS;
      _ ← _validate_section (dget "budget" d) "budget" _BUDGET_KEYS;
      _ ← _validate_budget (dget "budget" d);
      _ ← _validate_section (dget "copilot" d) "copilot" _COPILOT_KEYS;
      _ ← _validate_copilot (dget "copilot" d);
      _ ← _validate_section (dget "usage" d) "usage" _USAGE_KEYS;
      _ ← _validate_usage (dget "usage" d);
      _ ← _validate_bridge (dget "bridge" d);
      _ ← _validate_providers (dget "providers" d);
      _ ← _validate_routes (dget "routes" d) (sub_table "providers" d);
      Ok d
  | _ => _fail "top level must be a table"
  end%string.

(** ** Reading a validated file *)

Definition _as_str (value : option json) : option string :=
  match value with
  | None | Some JNull => None
  | Some (JBool b) => Some (if b then "true" else "false")%string
  | Some j => Some (py_str j)
  end.
Definition str_or_none (value : option json) : option string := match given value with Some j => Some (py_str j) | None => None end.
(** [d.get(key) or {}], and what follows it. *)
Definition table (value : option json) : result exn dict :=
  match value with
  | None => Ok []
  | Some j => if negb (truthy j) then Ok [] else match j with JObj d => Ok d | _ => Raise (AttributeError "get") end
  end.
Definition flag (value : option json) : bool := match value with Some j => truthy j | None => false end.
Definition provider_policy (cfg : dict) (provider : string) : result exn ProviderPolicy :=
  providers ← table (dget "providers" cfg);
  block ← table (dget provider providers);
  Ok (PPolicy (str_or_none (dget "model" block)) (flag (dget "allow_fallback" block)) (str_or_none (dget "scope" block))
        (_as_str (dget "min_remaining" block)) (str_or_none (dget "capacity_provider" block))).
(** The amount of a cost, which is only displayed. *)
Definition amount (value : option json) : result exn (option pyfloat) :=
  match value with
  | None | Some JNull | Some (JBool _) => Ok None
  | Some (JInt z) => match float_of_int z with Some f => Ok (Some f) | None => Raise (OverflowError "int too large to convert to float") end
  | Some (JFloat f) => Ok (Some f)
  | Some j => Ok (float_of_text (py_str j))
  end.
Definition _route_from_block (route_id : string) (block : dict) : result exn RoutePolicy :=
  capacity ← table (dget "capacity" block);
  cost ← table (dget "cost" block);
  amount ← amount (dget "amount" cost);
  Ok (Route route_id (match dget "provider" block with Some j => if truthy j then py_str j else EmptyString | None => EmptyString end)
        (str_or_none (dget "model" block)) (flag (dget "allow_fallback" block))
        (CapacityPolicy (py_str (default (JStr "provider") (dget "policy" capacity))) (_as_str (dget "scope" capacity))
           (_as_str (dget "label" capacity)) (_as_str (dget "provider" capacity)))
        (CostPolicy (py_str (default (JStr "unknown") (dget "policy" cost))) amount (_as_str (dget "currency" cost)) (_as_str (dget "period" cost)))).
Definition route_policy (cfg : dict) (route_id : string) : result exn (option RoutePolicy) :=
  match dget "routes" cfg with
  | Some (JObj routes) =>
      match dget route_id routes with
      | Some (JObj block) => route ← _route_from_block route_id block; Ok (Some route)
      | _ => Ok None
      end
  | _ => Ok None
  end.
Fixpoint parse_entries (routes : dict) : result exn (list (string * RoutePolicy)) :=
  match routes with
  | [] => Ok []
  | (route_id, JObj block) :: routes =>
      route ← _route_from_block route_id block; rest ← parse_entries routes; Ok ((route_id, route) :: rest)
  | _ :: routes => parse_entries routes
  end.
Definition parse_routes (cfg : dict) : result exn (list (string * RoutePolicy)) :=
  match dget "routes" cfg with Some (JObj routes) => parse_entries routes | _ => Ok [] end.
(** The tool's own section wins over the defaults. *)
Definition merged_tool_config (cfg : dict) (tool : string) : result exn dict :=
  defaults ← table (dget "defaults" cfg);
  own ← table (dget tool cfg);
  Ok (dupdate (dupdate [] defaults) own).

Definition usage_providers (cfg : dict) : option (list string) :=
  match dget "usage" cfg with
  | Some (JObj usage) => match dget "providers" usage with Some (JList names) => Some (py_str <$> names) | _ => None end
  | _ => None
  end.
(** [LLM_USAGE_PROVIDERS] over the file. *)
Definition enabled_providers (variable : option string) (cfg : dict) : result string (option (gset string)) :=
  match variable with
  | Some raw =>
      if truthy_str (strip raw) then
        let names := (fun name => lower (strip name)) <$> select (fun name => truthy_str (strip name)) (split_char ","%char raw) in
        let unknown := select (fun name => negb (bool_decide (name ∈ ALL_PROVIDERS))) names in
        if negb (bool_decide (unknown = [])) then
          _fail ("LLM_USAGE_PROVIDERS: unknown provider(s) " +:+ join ", " unknown +:+ " (known: " +:+ known_names +:+ ")")
        else if bool_decide (names = []) then _fail ("LLM_USAGE_PROVIDERS: no provider names (known: " +:+ known_names +:+ ")")
        else Ok (Some (list_to_set names))
      else Ok (list_to_set <$> usage_providers cfg)
  | None => Ok (list_to_set <$> usage_providers cfg)
  end%string.

(** A positive amount under a key, with the section's currency. *)
Definition positive_amount (section key : string) (cfg : dict) : result exn (option pyfloat * string) :=
  match dget section cfg with
  | Some (JObj d) =>
      let currency := match dget "currency" d with Some j => if truthy j then py_str j else "$"%string | None => "$"%string end in
      match dget key d with
      | Some (JInt z) =>
          if z <=? 0 then Ok (None, currency)
          else match float_of_int z with Some f => Ok (Some f, currency) | None => Raise (OverflowError "int too large to convert to float") end
      | Some (JFloat f) => Ok (if fle f (Fin 0) then None else Some f, currency)
      | _ => Ok (None, currency)
      end
  | _ => Ok (None, "$"%string)
  end.
Definition monthly_budget (cfg : dict) : result exn (option pyfloat * string) := positive_amount "budget" "monthly" cfg.
Definition copilot_spend_limit (cfg : dict) : result exn (option pyfloat * string) := positive_amount "copilot" "monthly_spend_limit" cfg.
End config.
