(* ===== verification/Routes.v ===== *)
(** * Routes and their runtime blocks ([routes.py])

    A route is a launch path with a capacity policy and a cost policy.  Here
    are the ledger of blocks, a file per route; the snapshot and decision of a
    route; and the rotation a configuration gives. *)

From Stdlib Require Import QArith Ascii.
From S2P Require Import Prelude Py StoreData StoreTasks Capacity Config.
From stdpp Require Import options.
Local Open Scope Z_scope.

Definition CAPACITY_POLICY_PROVIDER : string := "provider".
Definition CAPACITY_POLICY_PROVIDER_MODEL : string := "provider_model".
Definition CAPACITY_POLICY_DELEGATE : string := "delegate".
Definition CAPACITY_POLICY_OPAQUE : string := "opaque".
Definition CAPACITY_POLICY_UNGATED : string := "ungated".
Definition CAPACITY_POLICY_BALANCE : string := "balance".
Definition CAPACITY_POLICY_BUDGET : string := "budget".
Definition CAPACITY_POLICIES : list string :=
  [CAPACITY_POLICY_PROVIDER; CAPACITY_POLICY_PROVIDER_MODEL; CAPACITY_POLICY_DELEGATE; CAPACITY_POLICY_OPAQUE;
   CAPACITY_POLICY_UNGATED; CAPACITY_POLICY_BALANCE; CAPACITY_POLICY_BUDGET].
Definition COST_POLICY_INCLUDED : string := "included".
Definition COST_POLICY_FIXED_SUBSCRIPTION : string := "fixed_subscription".
Definition COST_POLICY_METERED_BALANCE : string := "metered_balance".
Definition COST_POLICY_METERED_BUDGET : string := "metered_budget".
Definition COST_POLICY_FREE : string := "free".
Definition COST_POLICY_EXTERNAL : string := "external".
Definition COST_POLICY_UNKNOWN : string := "unknown".
Definition COST_POLICIES : list string :=
  [COST_POLICY_INCLUDED; COST_POLICY_FIXED_SUBSCRIPTION; COST_POLICY_METERED_BALANCE; COST_POLICY_METERED_BUDGET;
   COST_POLICY_FREE; COST_POLICY_EXTERNAL; COST_POLICY_UNKNOWN].
Definition DEFAULT_LOCAL_BLOCK_BACKOFF_SECONDS : Z := 300.

(** ** The ledger's files *)

(** What a block file holds: a JSON value; a text that is none; bytes that are
    no text; or it cannot be read. *)
Inductive block_file : Type := BF_json (j : json) | BF_garbled | BF_bytes | BF_unreadable.
(** Writing one succeeds, leaves nothing, or leaves a cut file. *)
Inductive block_write : Type := BW_done | BW_failed | BW_cut.

(** The arguments with which the capacity of a provider is read. *)
Record capacity_read : Type := CapacityRead {
  cr_provider : string;
  cr_window : string;
  cr_min_remaining : string;
  cr_poll_interval : string;
  cr_model : option string;
  cr_allow_fallback : bool;
}.
(** Readings of [now_epoch], of the ledger's directory and the search path,
    and [usage_snapshot_and_decision] of a provider. *)
Class RouteEnv : Type := {
  r_now : nat -> Z;
  r_write : nat -> block_write;
  r_unlinks : nat -> bool;
  r_which : nat -> string -> bool;
  r_backoff_variable : option string;
  r_usage : nat -> capacity_read -> result exn (dict * dict);
}.

Record ledger : Type := Ledger { l_tick : nat; l_blocks : gmap string block_file }.
Abbreviation RM := (ST exn ledger).
Definition put_block (name : string) (f : block_file) (s : ledger) : ledger := Ledger (l_tick s) (<[name := f]> (l_blocks s)).
Definition drop_block (name : string) (s : ledger) : ledger := Ledger (l_tick s) (delete name (l_blocks s)).
Definition reading {A} (f : nat -> A) : RM A := fun s => (Ok (f (l_tick s)), Ledger (S (l_tick s)) (l_blocks s)).

Section routes.
Context `{ConfigEnv} `{RouteEnv}.

Definition safe_char (c : ascii) : bool := is_alnum c || bool_decide (c ∈ ["-"; "_"; "."]%char).
Definition _route_block_path (route_id : string) : string :=
  let safe := sfilter safe_char route_id in
  ((if truthy_str safe then safe else "route") +:+ ".json")%string.

(** [isinstance(j, (int, float)) and int(j) <= now]. *)
Definition expired (blocked_until : option json) (now : Z) : result exn bool :=
  match blocked_until with
  | Some (JInt _ as j) | Some (JBool _ as j) | Some (JFloat _ as j) => z ← py_int j; Ok (z <=? now)
  | _ => Ok false
  end.
Definition read_local_block (route_id : string) : RM (option dict) :=
  file ← gets (fun s => l_blocks s !! _route_block_path route_id);
  match file with
  | None | Some BF_unreadable | Some BF_garbled => mret None
  | Some BF_bytes => raise (ValueError "invalid utf-8")
  | Some (BF_json (JObj raw)) =>
      now ← reading r_now;
      over ← lift_result (expired (dget "blocked_until" raw) now);
      mret (if over : bool then None else Some raw)
  | Some (BF_json _) => mret None
  end.
Definition is_locally_blocked (route_id : string) : RM bool :=
  block ← read_local_block route_id; mret (bool_decide (is_Some block)).
Definition record_local_block (route_id reason : string) (blocked_until : Z) (last_message : string) (backoff_seconds : Z) : RM dict :=
  now ← reading r_now;
  let payload := [("route_id", JStr route_id); ("reason", JStr (stake 64 (if truthy_str reason then reason else "blocked")));
    ("blocked_until", JInt blocked_until); ("last_message", JStr (stake 2000 last_message)); ("last_seen", JInt now);
    ("backoff_seconds", JInt backoff_seconds)]%string in
  written ← reading r_write;
  match written with
  | BW_done => modify (put_block (_route_block_path route_id) (BF_json (JObj payload)))
  | BW_failed => mret tt
  | BW_cut => modify (put_block (_route_block_path route_id) BF_garbled)
  end ;;
  mret payload.
Definition clear_local_block (route_id : string) : RM bool :=
  file ← gets (fun s => l_blocks s !! _route_block_path route_id);
  match file with
  | None => mret false
  | Some _ =>
      gone ← reading r_unlinks;
      if gone : bool then modify (drop_block (_route_block_path route_id)) ;; mret true else mret false
  end.
Definition default_backoff_seconds : result exn Z :=
  match float_of_text (default (show_Z DEFAULT_LOCAL_BLOCK_BACKOFF_SECONDS) r_backoff_variable) with
  | None | Some NaN => Ok DEFAULT_LOCAL_BLOCK_BACKOFF_SECONDS
  | Some f => value ← py_int (JFloat f); Ok (Z.max 5 value)
  end.

Definition model_safe (text : string) : string :=
  let cleaned := smap (fun c => if bool_decide (c = "/"%char) then "."%char else c) text in
  let kept := sfilter safe_char cleaned in
  if truthy_str kept then kept else "x"%string.
Definition model_block_key (provider model : string) : string := ("model__" +:+ model_safe provider +:+ "__" +:+ model_safe model)%string.
Definition is_model_blocked (provider model : string) : RM bool :=
  if negb (truthy_str provider) || negb (truthy_str model) then mret false else is_locally_blocked (model_block_key provider model).

(** ** Scopes *)

Definition jopt_float (f : option pyfloat) : json := match f with Some f => JFloat f | None => JNull end.
Definition opaque_scope_for_route (route : RoutePolicy) (cli_present : bool) (blocked : option dict) : RM CapacityScope :=
  now ← reading r_now;
  blocked_until ← match blocked with
                  | Some b => z ← lift_result (py_int (default (JInt now) (dget "blocked_until" b))); mret (Some z)
                  | None => mret None
                  end;
  let reason := match blocked with Some b => py_str (default (JStr "blocked") (dget "reason" b)) | None => EmptyString end in
  let ready := match blocked with Some _ => false | None => cli_present end in
  mret (Scope (default SCOPE_SUBSCRIPTION (cap_scope (r_capacity route) ≫= opt_str)) CapacityKind.OPAQUE ready
    (if ready then EmptyString else reason) None blocked_until JNull None None (cost_currency (r_cost route))
    (Some (default (r_route_id route) (cap_label (r_capacity route) ≫= opt_str))) ("config:route:" +:+ r_route_id route)
    [("route_id", JStr (r_route_id route)); ("provider", JStr (r_provider route)); ("model", JStr (default EmptyString (r_model route)));
     ("cost_policy", JStr (cost_policy (r_cost route))); ("cost_amount", jopt_float (cost_amount (r_cost route)));
     ("cost_currency", jopt_str (cost_currency (r_cost route))); ("cost_period", jopt_str (cost_period (r_cost route)));
     ("blocked_reason", JStr reason)])%string.
Definition route_cli_present (route : RoutePolicy) : RM bool := reading (fun n => r_which n (r_provider route)).

(** [asdict] of a scope and of a cost. *)
Definition scope_json (s : CapacityScope) : json :=
  JObj [("name", JStr (s_name s)); ("kind", JStr (s_kind s)); ("ready", JBool (s_ready s)); ("reason", JStr (s_reason s));
    ("remaining_percent", jopt_float (s_remaining_percent s)); ("reset_epoch", jopt_int (s_reset_epoch s)); ("resets_at", s_resets_at s);
    ("remaining_amount", jopt_float (s_remaining_amount s)); ("total_amount", jopt_float (s_total_amount s)); ("currency", jopt_str (s_currency s));
    ("label", jopt_str (s_label s)); ("source", JStr (s_source s)); ("extras", JObj (s_extras s))]%string.
Definition cost_json (c : CostPolicyConfig) : json :=
  JObj [("policy", JStr (cost_policy c)); ("amount", jopt_float (cost_amount c)); ("currency", jopt_str (cost_currency c)); ("period", jopt_str (cost_period c))]%string.
Definition _windows_from_capacity_scopes (scopes : list CapacityScope) : json :=
  JList ((fun s => JObj [("name", JStr (s_name s)); ("kind", JStr (s_kind s)); ("remaining", jopt_float (s_remaining_percent s));
    ("remaining_amount", jopt_float (s_remaining_amount s)); ("currency", jopt_str (s_currency s)); ("resets_at", s_resets_at s);
    ("reset_epoch", jopt_int (s_reset_epoch s)); ("source", JStr (s_source s))]%string) <$> scopes).
Definition set_ready (ready : bool) (reason : option string) (s : CapacityScope) : CapacityScope :=
  Scope (s_name s) (s_kind s) ready (default (s_reason s) reason) (s_remaining_percent s) (s_reset_epoch s) (s_resets_at s)
    (s_remaining_amount s) (s_total_amount s) (s_currency s) (s_label s) (s_source s) (s_extras s).

(** ** The decision of a route *)

(** A runtime block over what the capacity reader says. *)
Definition _apply_local_block_override (route : RoutePolicy) (snapshot decision : dict) : RM (dict * dict) :=
  blocked ← read_local_block (r_route_id route);
  match blocked with
  | None => mret (snapshot, decision)
  | Some blocked =>
      now ← reading r_now;
      wait_until ← lift_result (py_int (default (JInt (now + 60)) (dget "blocked_until" blocked)));
      let reason := py_str (default (JStr "blocked") (dget "reason" blocked)) in
      let reason := (if truthy_str reason then reason else "blocked")%string in
      let exhausted := match dget "exhausted" decision with Some (JList l) => l | _ => [] end in
      let entry := JObj [("name", JStr "runtime-block"); ("kind", JStr "opaque"); ("remaining", JNull); ("reset_epoch", JInt wait_until)]%string in
      let blocked_scope := JObj [("name", JStr "runtime-block"); ("kind", JStr "opaque"); ("ready", JBool false); ("remaining_percent", JNull);
        ("reset_epoch", JInt wait_until); ("reason", JStr reason); ("source", JStr ("runtime-block:" +:+ r_route_id route));
        ("extras", JObj [("route_id", JStr (r_route_id route)); ("provider", JStr (r_provider route));
          ("model", JStr (default EmptyString (r_model route))); ("blocked_reason", JStr reason)])]%string in
      let snapshot := dset "available" (JBool false) snapshot in
      let snapshot := dset "reason" (JStr reason) snapshot in
      let decision := dset "usable" (JBool false) decision in
      let decision := dset "reason" (JStr reason) decision in
      let decision := dset "wait_until" (JInt wait_until) decision in
      let decision := dset "exhausted" (JList (exhausted ++ [entry])) decision in
      let decision := dset "windows" (JList []) decision in
      mret (dset "scopes" (JList [blocked_scope]) snapshot, decision)
  end.

Definition or_json (a : option string) (b : json) : json := match a with Some s => if truthy_str s then JStr s else b | None => b end.
(** [route.model or model]: of two that are false, the second. *)
Definition selected_model (route : RoutePolicy) (model : option string) : json := or_json (r_model route) (jopt_str model).
Definition route_opaque (route : RoutePolicy) (poll : Z) (model : option string) : RM (dict * dict) :=
  cli_present ← route_cli_present route;
  blocked ← read_local_block (r_route_id route);
  state ← (match blocked with
           | Some b =>
               now ← reading r_now;
               until ← lift_result (py_int (default (JInt (now + poll)) (dget "blocked_until" b)));
               scope ← opaque_scope_for_route route cli_present (Some b);
               mret (false, "blocked"%string, Some until, scope)
           | None =>
               if cli_present : bool then scope ← opaque_scope_for_route route true None; mret (true, "usable"%string, None, scope)
               else now ← reading r_now; scope ← opaque_scope_for_route route false None; mret (false, "missing-cli"%string, Some (now + poll), scope)
           end);
  let '(usable, reason, wait_until, scope) := state in
  let scope := set_ready usable (if usable then None else Some reason) scope in
  mret ([("route", JStr (r_route_id route)); ("provider", JStr (r_provider route)); ("selected_model", selected_model route model);
         ("available", JBool usable); ("reason", JStr reason); ("source", JStr (s_source scope)); ("scopes", JList [scope_json scope]);
         ("cost", cost_json (r_cost route))]%string,
        [("provider", JStr (r_provider route)); ("usable", JBool usable); ("reason", JStr reason); ("wait_until", jopt_int wait_until);
         ("windows", _windows_from_capacity_scopes [scope])]%string ++
        (if usable then [] else
           [("exhausted", JList [JObj [("name", JStr (s_name scope)); ("kind", JStr (s_kind scope)); ("remaining", jopt_float (s_remaining_percent scope));
              ("remaining_amount", jopt_float (s_remaining_amount scope)); ("reset_epoch", jopt_int (s_reset_epoch scope))]])]%string)).
(** The window a policy asks the provider for. *)
Definition requested_window (policy window : string) : string :=
  if bool_decide (policy = CAPACITY_POLICY_BALANCE) then SCOPE_BALANCE
  else if bool_decide (policy = CAPACITY_POLICY_BUDGET) then SCOPE_BUDGET
  else if bool_decide (policy = CAPACITY_POLICY_UNGATED) then SCOPE_UNGATED
  else window.
Definition read_usage (r : capacity_read) : RM (dict * dict) := answer ← reading (fun n => r_usage n r); lift_result answer.
(** [route.model or model or snapshot.get("selected_model")]. *)
Definition model_of (route : RoutePolicy) (model : option string) (snapshot : dict) : json :=
  or_json (r_model route) (or_json model (default JNull (dget "selected_model" snapshot))).
Definition route_of_provider (route : RoutePolicy) (window min_remaining poll_interval : string) (model : option string) (allow_fallback : bool) : RM (dict * dict) :=
  answer ← read_usage (CapacityRead (r_provider route) (requested_window (cap_policy (r_capacity route)) window) min_remaining poll_interval
    (match r_model route ≫= opt_str with Some m => Some m | None => model end) (allow_fallback && r_allow_fallback route));
  let '(snapshot, decision) := answer in
  let snapshot := dset "route" (JStr (r_route_id route)) snapshot in
  let snapshot := dset "selected_model" (model_of route model snapshot) snapshot in
  _apply_local_block_override route (dset "cost" (cost_json (r_cost route)) snapshot) decision.
(** A route that cannot be decided: no delegate, or a policy nobody knows. *)
Definition undecided (route : RoutePolicy) (reason : string) (poll : Z) (model : option string) : RM (dict * dict) :=
  now ← reading r_now;
  mret ([("route", JStr (r_route_id route)); ("provider", JStr (r_provider route)); ("selected_model", selected_model route model);
         ("available", JBool false); ("reason", JStr reason); ("source", JStr ("config:route:" +:+ r_route_id route)); ("scopes", JList []);
         ("cost", cost_json (r_cost route))]%string,
        [("provider", JStr (r_provider route)); ("usable", JBool false); ("reason", JStr reason); ("wait_until", JInt (now + poll)); ("windows", JList [])]%string).
Definition route_delegated (route : RoutePolicy) (window min_remaining poll_interval : string) (poll : Z) (model : option string) : RM (dict * dict) :=
  match cap_provider (r_capacity route) ≫= opt_str with
  | None => undecided route "missing-delegate" poll model
  | Some target =>
      answer ← read_usage (CapacityRead target window min_remaining poll_interval None true);
      let '(snapshot, decision) := answer in
      let snapshot := dset "route" (JStr (r_route_id route)) snapshot in
      let snapshot := dset "provider" (JStr (r_provider route)) snapshot in
      let snapshot := dset "selected_model" (model_of route model snapshot) snapshot in
      let decision := dset "provider" (JStr (r_provider route)) decision in
      let decision := dset "capacity_provider" (JStr target) decision in
      _apply_local_block_override route (dset "cost" (cost_json (r_cost route)) snapshot) decision
  end.
Definition PROVIDER_POLICIES : list string :=
  [CAPACITY_POLICY_PROVIDER; CAPACITY_POLICY_PROVIDER_MODEL; CAPACITY_POLICY_BALANCE; CAPACITY_POLICY_BUDGET; CAPACITY_POLICY_UNGATED].
Definition usage_snapshot_and_decision_for_route (route : RoutePolicy) (window min_remaining poll_interval : string)
    (model : option string) (allow_fallback : bool) : RM (dict * dict) :=
  let policy := cap_policy (r_capacity route) in
  match float_of_text min_remaining, int_of_text poll_interval with
  | None, _ => raise (ValueError "could not convert string to float")
  | _, None => raise (ValueError "invalid literal for int()")
  | Some _, Some interval =>
      let poll := Z.max 1 interval in
      if bool_decide (policy = CAPACITY_POLICY_OPAQUE) then route_opaque route poll model
      else if bool_decide (policy ∈ PROVIDER_POLICIES) then route_of_provider route window min_remaining poll_interval model allow_fallback
      else if bool_decide (policy = CAPACITY_POLICY_DELEGATE) then route_delegated route window min_remaining poll_interval poll model
      else undecided route ("unsupported-policy:" +:+ policy) poll model
  end.

(** ** The rotation *)

Definition route_for_provider (cfg : dict) (provider : string) : result exn RoutePolicy :=
  policy ← provider_policy cfg provider;
  let capacity := match pp_capacity_provider policy ≫= opt_str with
                  | Some target => CapacityPolicy CAPACITY_POLICY_DELEGATE None None (Some target)
                  | None => CapacityPolicy CAPACITY_POLICY_PROVIDER None None None
                  end in
  Ok (Route provider provider (pp_model policy) (pp_allow_fallback policy) capacity (CostPolicy COST_POLICY_UNKNOWN None None None)).
Definition route_or_implicit_provider (cfg : dict) (route_id : string) : result exn (option RoutePolicy) :=
  policy ← route_policy cfg route_id;
  match policy with
  | Some route => Ok (Some route)
  | None => if bool_decide (route_id ∈ ALL_PROVIDERS) then route ← route_for_provider cfg route_id; Ok (Some route) else Ok None
  end.
Fixpoint routes_of (cfg : dict) (entries : list json) : result exn (list RoutePolicy) :=
  match entries with
  | [] => Ok []
  | JStr entry :: entries =>
      route ← route_or_implicit_provider cfg entry; routes ← routes_of cfg entries;
      Ok (match route with Some route => route :: routes | None => routes end)
  | _ :: entries => routes_of cfg entries
  end.
(** The names of a list, each once. *)
Definition add_names (names : list string) (source : option json) : list string :=
  match source with
  | Some (JList items) => foldl (fun names item =>
      match item with JStr s => if truthy_str s && negb (bool_decide (s ∈ names)) then names ++ [s] else names | _ => names end) names items
  | _ => names
  end.
Fixpoint implicit_routes (cfg : dict) (providers : list string) : result exn (list RoutePolicy) :=
  match providers with
  | [] => Ok []
  | provider :: providers =>
      if bool_decide (provider ∈ ALL_PROVIDERS) then
        route ← route_for_provider cfg provider; routes ← implicit_routes cfg providers; Ok (route :: routes)
      else implicit_routes cfg providers
  end.
Definition resolve_routes (cfg : dict) : result exn (list RoutePolicy) :=
  ralph ← table (dget "ralph" cfg);
  match dget "routes" ralph with
  | Some (JList ((_ :: _) as entries)) => routes_of cfg entries
  | _ =>
      defaults ← table (dget "defaults" cfg);
      implicit_routes cfg (add_names (add_names [] (dget "providers" ralph)) (dget "providers" defaults))
  end.
End routes.
