(* ===== verification/ConfigLaws.v ===== *)
(** * Laws of the configuration and of the rotation

    What validation accepts can be read, and gives a rotation of routes that
    can be decided. *)

From Stdlib Require Import QArith.
From S2P Require Import Prelude Py StoreData StoreTasks Capacity Config Routes.
From stdpp Require Import options.
Local Open Scope Z_scope.

(** ** Reading validation backwards *)

Lemma result_bind_ok {E A B} (m : result E A) (f : A -> result E B) b : (x ← m; f x) = Ok b -> exists a, m = Ok a /\ f a = Ok b.
Proof. destruct m; [by eexists|done]. Qed.
Lemma fail_if_ok b m : fail_if b m = Ok tt -> b = false.
Proof. by destruct b. Qed.
Lemma each_ok {A} (f : A -> result string unit) l : each f l = Ok tt -> forall x, x ∈ l -> f x = Ok tt.
Proof.
  induction l as [|y l IH]; cbn; [by intros _ x ?%not_elem_of_nil|]. intros E x Hx.
  apply result_bind_ok in E as ([] & E1 & E2). apply elem_of_cons in Hx as [->|Hx]; [done|by apply IH].
Qed.
(** One step back through a validation that succeeded. *)
Ltac ok_step :=
  match goal with
  | H : (_ ≫= _) = Ok _ |- _ => apply result_bind_ok in H as (? & ? & H)
  | H : fail_if ?b _ = Ok ?u |- _ => destruct u; apply fail_if_ok in H
  | H : keys_known _ _ _ = Ok _ |- _ => clear H
  | H : negb _ = false |- _ => apply negb_false_iff in H
  | H : bool_decide _ = true |- _ => apply bool_decide_eq_true in H
  | H : bool_decide _ = false |- _ => apply bool_decide_eq_false in H
  | H : Ok _ = Ok _ |- _ => injection H as H
  | u : unit |- _ => destruct u
  end.
Ltac ok_steps := repeat ok_step.

Section laws.
Context `{ConfigEnv} `{RouteEnv}.

Lemma provider_name j : is_provider j = true -> exists s, j = JStr s /\ s ∈ ALL_PROVIDERS.
Proof. destruct j; try done. cbn. intros Hs%bool_decide_eq_true. eauto. Qed.
Lemma name_in names j : in_names names j = true -> exists s, j = JStr s /\ s ∈ names.
Proof. destruct j; try done. cbn. intros Hs%bool_decide_eq_true. eauto. Qed.
Lemma provider_nonempty s : s ∈ ALL_PROVIDERS -> opt_str s = Some s.
Proof. intros Hs. unfold ALL_PROVIDERS in Hs. repeat (apply elem_of_cons in Hs as [->|Hs]; [reflexivity|]). by apply not_elem_of_nil in Hs. Qed.
Lemma table_block key d c : sub_block key d = JObj c -> table (dget key d) = Ok c.
Proof. unfold sub_block, table. destruct (dget key d) as [j|]; [|by intros [= <-]]. destruct (truthy j); cbn [negb]; [by intros ->|by intros [= <-]]. Qed.

(** What the validated table of providers is. *)
Definition good_providers (providers : option json) : Prop :=
  exists d, table providers = Ok d /\ (forall p, sub_table p d = [] \/ (p, JObj (sub_table p d)) ∈ d) /\
    (forall name policy, (name, policy) ∈ d -> name ∈ ALL_PROVIDERS /\ exists block, policy = JObj block) /\
    forall name block, (name, JObj block) ∈ d -> match given (dget "capacity_provider" block) with
      | None => True
      | Some target => exists t, target = JStr t /\ t ∈ ALL_PROVIDERS /\ t <> name /\ given (dget "capacity_provider" (sub_table t d)) = None end.
Lemma sub_table_in p d : sub_table p d = [] \/ (p, JObj (sub_table p d)) ∈ d.
Proof. unfold sub_table. destruct (dget p d) as [[]|] eqn:E; auto. right. by apply dget_Some_mem. Qed.
Lemma providers_good providers : _validate_providers providers = Ok tt -> good_providers providers.
Proof.
  unfold _validate_providers, good_providers. destruct (given providers) as [j|] eqn:Eg.
  2: { intros _. exists []. split_and!; [by destruct providers as [[]|]|by intros p; left|by intros ? ? ?%not_elem_of_nil|by intros ? ? ?%not_elem_of_nil]. }
  destruct j as [| | | | | |d]; try done. intros E. ok_steps. exists d.
  assert (Hp : providers = Some (JObj d)) by (destruct providers as [[]|]; try done; by injection Eg as <-). subst providers.
  match goal with H : each validate_provider d = _ |- _ => pose proof (each_ok _ _ H) as Hv end. pose proof (each_ok _ _ E) as Hl.
  split_and!.
  - by destruct d.
  - intros p. exact (sub_table_in p d).
  - intros name policy Hin. specialize (Hv _ Hin). cbn in Hv. ok_steps. split; [done|]. destruct policy; try done. eauto.
  - intros name block Hin. specialize (Hl _ Hin). unfold validate_link in Hl. cbn [jget] in Hl.
    destruct (given (dget "capacity_provider" block)) as [target|]; [|done]. cbv zeta in Hl. ok_steps.
    match goal with H : is_provider target = true |- _ => apply provider_name in H as (t & -> & Ht) end.
    exists t. split_and!; [done|done|congruence|]. cbn [py_str] in *. by apply eq_None_not_Some.
Qed.

(** ** Routes that can be decided *)

Definition sound_route (r : RoutePolicy) : Prop :=
  r_provider r ∈ ALL_PROVIDERS /\ cap_policy (r_capacity r) ∈ CAPACITY_POLICIES /\ cost_policy (r_cost r) ∈ COST_POLICIES /\
  (cap_policy (r_capacity r) = CAPACITY_POLICY_DELEGATE -> exists t, cap_provider (r_capacity r) = Some t /\ t ∈ ALL_PROVIDERS /\ t <> r_provider r).

Lemma implicit_sound cfg provider : good_providers (dget "providers" cfg) -> provider ∈ ALL_PROVIDERS ->
  exists r, route_for_provider cfg provider = Ok r /\ sound_route r.
Proof.
  intros (d & Ed & Hsub & Hnames & Hlinks) Hp. unfold route_for_provider, provider_policy. rewrite Ed. cbn [mbind result_bind].
  assert (Hblock : exists block, table (dget provider d) = Ok block /\ (block = [] \/ (provider, JObj block) ∈ d)).
  { destruct (dget provider d) as [policy|] eqn:Eb; [|by exists []; auto]. apply dget_Some_mem in Eb as Hin.
    destruct (Hnames _ _ Hin) as (_ & block & ->). exists block. split; [by destruct block|by right]. }
  destruct Hblock as (block & -> & Hin). cbn [mbind result_bind pp_capacity_provider].
  destruct (given (dget "capacity_provider" block)) as [target|] eqn:Et.
  - destruct Hin as [->|Hin]; [done|]. specialize (Hlinks _ _ Hin). rewrite Et in Hlinks. destruct Hlinks as (t & -> & Ht & Hne & _).
    assert (str_or_none (dget "capacity_provider" block) ≫= opt_str = Some t) as -> by (unfold str_or_none; rewrite Et; exact (provider_nonempty t Ht)).
    eexists. split; [done|]. split_and!; cbn; [done|by apply (bool_decide_eq_true_1 _)|by apply (bool_decide_eq_true_1 _)|eauto].
  - assert (str_or_none (dget "capacity_provider" block) ≫= opt_str = None) as -> by (unfold str_or_none; by rewrite Et).
    eexists. split; [done|]. split_and!; cbn; [done|by apply (bool_decide_eq_true_1 _)|by apply (bool_decide_eq_true_1 _)|done].
Qed.

Lemma capacity_ok routes route_id provider c policy : validate_capacity routes route_id provider (JObj c) = Ok policy ->
  exists p, policy = JStr p /\ default (JStr "provider") (dget "policy" c) = JStr p /\ p ∈ CAPACITY_POLICIES /\
    (p = CAPACITY_POLICY_DELEGATE -> exists t, _as_str (dget "provider" c) = Some t /\ t ∈ ALL_PROVIDERS /\ t <> provider).
Proof.
  unfold validate_capacity. cbv zeta. intros E. ok_steps. subst policy.
  match goal with H : in_names _ _ = true |- _ => apply name_in in H as (p & Ep & Hp) end. exists p. rewrite Ep in *. split_and!; [done|done|done|].
  intros ->. rewrite bool_decide_true in * by done. unfold validate_delegate in *. cbv zeta in *. ok_steps.
  match goal with H : is_provider _ = true |- _ => apply provider_name in H as (t & Et & Ht) end. exists t. rewrite Et in *.
  destruct (dget "provider" c) as [j|]; [|done]. cbn in Et. subst j. split_and!; [done|done|congruence].
Qed.
Lemma cost_ok route_id c : validate_cost route_id (JObj c) = Ok tt -> py_str (default (JStr "unknown") (dget "policy" c)) ∈ COST_POLICIES.
Proof.
  unfold validate_cost. cbv zeta. intros E. ok_steps. by apply name_in in E as (p & -> & Hp).
Qed.
(** A route of the file costs an integer that no float can hold, which is the
    one thing reading a validated file may raise. *)
Definition too_large : exn := OverflowError "int too large to convert to float".
Definition huge_cost (block : dict) : Prop :=
  exists cost z, table (dget "cost" block) = Ok cost /\ dget "amount" cost = Some (JInt z) /\ float_of_int z = None.
Definition huge_amount (cfg : dict) : Prop :=
  exists routes route_id block, dget "routes" cfg = Some (JObj routes) /\ (route_id, JObj block) ∈ routes /\ huge_cost block.
Definition fine {A} (huge : Prop) (x : result exn A) (P : A -> Prop) : Prop :=
  match x with Ok a => P a | Raise e => e = too_large /\ huge end.
Lemma fine_mono {A} (huge huge' : Prop) (x : result exn A) (P Q : A -> Prop) : fine huge x P -> (huge -> huge') -> (forall a, P a -> Q a) -> fine huge' x Q.
Proof. destruct x; cbn; [auto|]. intros [-> Hh] Hi _. auto. Qed.
Lemma fine_bind {A B} (huge : Prop) (x : result exn A) (f : A -> result exn B) P Q : fine huge x P -> (forall a, P a -> fine huge (f a) Q) -> fine huge (x ≫= f) Q.
Proof. destruct x; cbn; auto. Qed.
Lemma amount_ok v : fine (exists z, v = Some (JInt z) /\ float_of_int z = None) (amount v) (fun _ => True).
Proof. unfold amount. destruct v as [[]|]; cbn; try done. destruct (float_of_int z) eqn:E; cbn; [done|]. split; [done|eauto]. Qed.
Lemma declared_sound routes providers route_id block : validate_route routes providers (route_id, JObj block) = Ok tt ->
  fine (huge_cost block) (_route_from_block route_id block) (fun r => sound_route r /\ r_route_id r = route_id).
Proof.
  intros E. unfold validate_route in E. cbv zeta in E. ok_steps.
  match goal with H : is_provider _ = true |- _ => apply provider_name in H as (p & Ep & Hp) end. rewrite Ep in *. cbn [py_str] in *.
  match goal with H : validate_capacity _ _ _ ?b = _ |- _ => destruct b as [| | | | | |c] eqn:Ec; try done; apply capacity_ok in H as (pol & -> & Hpol & Hin & Hdel) end.
  match goal with H : validate_cost _ ?b = _ |- _ => destruct b as [| | | | | |k] eqn:Ek; try done; apply cost_ok in H as Hcost end.
  unfold _route_from_block. rewrite (table_block _ _ _ Ec), (table_block _ _ _ Ek). cbn [mbind result_bind].
  eapply fine_bind; [eapply fine_mono; [apply amount_ok| |done]|].
  { intros (z & Hz & Hfl). exists k, z. by rewrite (table_block _ _ _ Ek). }
  intros a _. cbn [fine].
  assert (Hprov : dget "provider" block = Some (JStr p)) by (destruct (dget "provider" block) as [j|]; [by cbn in Ep; subst j|done]).
  assert (Htr : truthy (JStr p) = true) by (cbn; apply provider_nonempty in Hp; unfold opt_str in Hp; by destruct (truthy_str p)).
  rewrite Hprov, Htr, Hpol. split; [|done]. split_and!; cbn; [done|done|done|done].
Qed.
Lemma routes_good raw cfg : _validate raw = Ok cfg ->
  good_providers (dget "providers" cfg) /\
  (forall route_id routes block, dget "routes" cfg = Some (JObj routes) -> (route_id, JObj block) ∈ routes ->
     fine (huge_amount cfg) (_route_from_block route_id block) (fun r => sound_route r /\ r_route_id r = route_id)) /\
  (forall key, key ∈ ["ralph"; "defaults"]%string -> exists d, table (dget key cfg) = Ok d).
Proof.
  intros E. unfold _validate in E. destruct raw as [| | | | | |d]; try done.
  assert (Hsec : forall name allowed, _validate_section (dget name d) name allowed = Ok tt -> exists t, table (dget name d) = Ok t).
  { intros name allowed. unfold _validate_section. destruct (dget name d) as [[]|]; try done; cbn; eauto. intros _. destruct d0; eauto. }
  ok_steps. subst cfg. split_and!.
  - by apply providers_good.
  - intros route_id routes block Hr Hin. match goal with H : _validate_routes _ _ = _ |- _ => rename H into Hv end.
    rewrite Hr in Hv. cbn [_validate_routes given] in Hv. eapply fine_mono; [eapply declared_sound; by apply (each_ok _ _ Hv)| |done].
    intros Hh. by exists routes, route_id, block.
  - intros key [->|[->|[]%not_elem_of_nil]%elem_of_cons]%elem_of_cons; by eapply Hsec.
Qed.

(** ** The rotation *)

(** What a rotation entry names: a declared route, or a provider. *)
Definition names_route (cfg : dict) (entry : string) : bool :=
  match dget "routes" cfg with Some (JObj routes) => match dget entry routes with Some (JObj _) => true | _ => false end | _ => false end
  || bool_decide (entry ∈ ALL_PROVIDERS).
Lemma entry_sound raw cfg entry : _validate raw = Ok cfg ->
  if names_route cfg entry
  then fine (huge_amount cfg) (route_or_implicit_provider cfg entry) (fun o => exists r, o = Some r /\ sound_route r /\ r_route_id r = entry)
  else route_or_implicit_provider cfg entry = Ok None.
Proof.
  intros E. destruct (routes_good raw cfg E) as (Hprov & Hroutes & _).
  assert (Himp : if bool_decide (entry ∈ ALL_PROVIDERS)
      then fine (huge_amount cfg) (if bool_decide (entry ∈ ALL_PROVIDERS) then route ← route_for_provider cfg entry; Ok (Some route) else Ok None)
             (fun o => exists r, o = Some r /\ sound_route r /\ r_route_id r = entry)
      else (if bool_decide (entry ∈ ALL_PROVIDERS) then route ← route_for_provider cfg entry; Ok (Some route) else Ok None) = Ok None).
  { case_bool_decide as Hp; [|done]. destruct (implicit_sound cfg entry Hprov Hp) as (r & Er & Hs). rewrite Er. exists r. split_and!; [done|done|].
    unfold route_for_provider in Er. apply result_bind_ok in Er as (policy & _ & Er). by injection Er as <-. }
  unfold names_route, route_or_implicit_provider, route_policy. destruct (dget "routes" cfg) as [[| | | | | |routes]|] eqn:Er; try exact Himp.
  destruct (dget entry routes) as [[| | | | | |block]|] eqn:Eb; try exact Himp. apply dget_Some_mem in Eb.
  cbn [orb]. specialize (Hroutes _ _ _ eq_refl Eb). destruct (_route_from_block entry block) as [r|e]; [|exact Hroutes]. by exists r.
Qed.
Definition texts (entries : list json) : list string := omap (fun j => match j with JStr s => Some s | _ => None end) entries.
Lemma routes_of_sound raw cfg entries : _validate raw = Ok cfg ->
  fine (huge_amount cfg) (routes_of cfg entries) (fun routes => r_route_id <$> routes = select (names_route cfg) (texts entries) /\ Forall sound_route routes).
Proof.
  intros E. induction entries as [|j entries IH]; [by split|].
  destruct j; cbn [routes_of]; try exact IH. pose proof (entry_sound raw cfg s E) as He.
  unfold texts. cbn [omap list_omap]. fold (texts entries). unfold select. cbn [List.filter]. fold (select (names_route cfg) (texts entries)).
  destruct (names_route cfg s) eqn:En.
  - eapply fine_bind; [exact He|]. intros o (r & -> & Hr & Hid). eapply fine_bind; [exact IH|]. intros routes [Hids Hs]. cbn [fine].
    split; [by rewrite fmap_cons, Hid, Hids|by constructor].
  - rewrite He. cbn [mbind result_bind]. eapply fine_bind; [exact IH|]. done.
Qed.
Lemma implicit_all_sound raw cfg providers : _validate raw = Ok cfg ->
  exists routes, implicit_routes cfg providers = Ok routes /\ r_route_id <$> routes = select (fun p => bool_decide (p ∈ ALL_PROVIDERS)) providers /\ Forall sound_route routes.
Proof.
  intros E. destruct (routes_good raw cfg E) as (Hprov & _ & _). induction providers as [|p l (routes & IH & Hids & Hs)]; [by exists []|].
  cbn [implicit_routes]. unfold select. cbn [List.filter]. fold (select (fun p => bool_decide (p ∈ ALL_PROVIDERS)) l). case_bool_decide as Hp; [|by exists routes].
  destruct (implicit_sound cfg p Hprov Hp) as (r & Er & Hr). rewrite Er. cbn [mbind result_bind]. rewrite IH. exists (r :: routes). split_and!; [done| |by constructor].
  rewrite fmap_cons, Hids. f_equal. unfold route_for_provider in Er. apply result_bind_ok in Er as (policy & _ & Er). by injection Er as <-.
Qed.
End laws.

(** C29: A validated configuration gives a rotation that can be decided.  Reading
    the rotation keeps the declared order, drops only entries that name neither
    a route nor a provider, and every route in it has a known provider, known
    capacity and cost policies, and, if it delegates, another known provider to
    read capacity from.  It raises nothing, except OverflowError where a route
    of the file costs an integer too large for a float, which validation lets
    pass. *)
Theorem rotation_is_sound (C : ConfigEnv) (raw : json) (cfg : dict) :
  _validate raw = Ok cfg ->
  match resolve_routes cfg with
  | Ok routes =>
      Forall sound_route routes /\
      forall entries, jget "routes" (default JNull (dget "ralph" cfg)) = Some (JList entries) -> entries <> [] ->
        r_route_id <$> routes = select (names_route cfg) (texts entries)
  | Raise e => e = too_large /\ huge_amount cfg
  end.
Proof.
  intros E. destruct (routes_good raw cfg E) as (_ & _ & Hsec). unfold resolve_routes.
  destruct (Hsec "ralph"%string ltac:(set_solver)) as (ralph & Er). destruct (Hsec "defaults"%string ltac:(set_solver)) as (defaults & Ed).
  rewrite Er. cbn [mbind result_bind].
  assert (Hdeclared : forall entries, jget "routes" (default JNull (dget "ralph" cfg)) = Some (JList entries) -> dget "routes" ralph = Some (JList entries)).
  { intros entries. unfold table in Er. destruct (dget "ralph" cfg) as [[| | | | | |d]|]; try done. cbn. destruct d; [done|]. by injection Er as <-. }
  destruct (match dget "routes" ralph with Some (JList (x :: l)) => Some (x :: l) | _ => None end) as [entries|] eqn:Em.
  - assert (Hr : dget "routes" ralph = Some (JList entries) /\ entries <> []) by (destruct (dget "routes" ralph) as [[| | | | |[]|]|]; by simplify_eq).
    destruct Hr as [Hr Hne]. rewrite Hr. pose proof (routes_of_sound raw cfg entries E) as Hf. destruct entries as [|x l]; [done|].
    destruct (routes_of cfg (x :: l)) as [routes|e]; [|exact Hf]. destruct Hf as [Hids Hs]. split; [exact Hs|].
    intros entries' He _. apply Hdeclared in He. rewrite Hr in He. by injection He as <-.
  - destruct (implicit_all_sound raw cfg (add_names (add_names [] (dget "providers" ralph)) (dget "providers" defaults)) E) as (routes & E1 & _ & Hs).
    match goal with |- match ?x with _ => _ end => assert (x = Ok routes) as -> end.
    { destruct (dget "routes" ralph) as [[| | | | |[]|]|]; try done; rewrite Ed; exact E1. }
    split; [done|]. intros entries He Hne. apply Hdeclared in He. rewrite He in Em. by destruct entries.
Qed.

Definition plain_config : ConfigEnv := {|
  str_of _ := EmptyString;
  repr_of _ := EmptyString;
  float_of_text _ := None;
  float_of_int z := if Z.abs z <? 2 ^ 1024 then Some (Fin (inject_Z z)) else None;
|}.
(** One rotation with a provider, a name nobody knows and a declared route. *)
Definition plain_file : json :=
  JObj [("ralph", JObj [("routes", JList [JStr "codex"; JStr "nowhere"; JStr "glm"])]);
        ("routes", JObj [("glm", JObj [("provider", JStr "kilo"); ("capacity", JObj [("policy", JStr "delegate"); ("provider", JStr "zai")]);
                                       ("cost", JObj [("policy", JStr "included"); ("amount", JInt 20)])])])]%string.
Lemma rotation_is_sound_witness : exists cfg routes, _validate (H := plain_config) plain_file = Ok cfg /\
  resolve_routes (H := plain_config) cfg = Ok routes /\ r_route_id <$> routes = ["codex"; "glm"]%string.
Proof.
  destruct (_validate (H := plain_config) plain_file) as [cfg|e] eqn:Ec; [|by vm_compute in Ec]. exists cfg.
  pose proof (rotation_is_sound plain_config plain_file cfg Ec) as Hr. injection Ec as <-.
  destruct (resolve_routes (H := plain_config) _) as [routes|e] eqn:Er; [|by vm_compute in Er]. destruct Hr as [_ Hids]. exists routes. split_and!; [done|done|].
  rewrite (Hids [JStr "codex"; JStr "nowhere"; JStr "glm"]%string eq_refl ltac:(done)). vm_compute. reflexivity.
Defined.
(** A budget that is not a number is accepted as a positive one. *)
Example nan_budget : exists cfg, _validate (H := plain_config) (JObj [("budget", JObj [("monthly", JFloat NaN)])]%string) = Ok cfg.
Proof. eexists. vm_compute. reflexivity. Qed.
(** A cost beyond every float is accepted, and reading the rotation raises. *)
Definition huge_file : json :=
  JObj [("ralph", JObj [("routes", JList [JStr "glm"])]);
        ("routes", JObj [("glm", JObj [("provider", JStr "kilo"); ("cost", JObj [("policy", JStr "included"); ("amount", JInt (2 ^ 1024))])])])]%string.
Example huge_cost_raises :
  match _validate (H := plain_config) huge_file with Ok cfg => resolve_routes (H := plain_config) cfg | Raise _ => Ok [] end = Raise too_large.
Proof. vm_compute. reflexivity. Qed.
