(* ===== verification/RoutesLaws.v ===== *)
(** * Laws of route decisions and runtime blocks

    A block counts until its time and blocks its route; without one a route is
    as ready as its capacity source; what it costs has no say. *)

From Stdlib Require Import QArith Ascii.
From S2P Require Import Prelude Py StoreData StoreTasks Capacity Config Routes ConfigLaws.
From stdpp Require Import options.
Local Open Scope Z_scope.

(** The last assignment of a key. *)
Ltac look_up := repeat rewrite dget_dset_ne by done; by rewrite dget_dset_eq.

Section laws.
Context `{ConfigEnv} `{RouteEnv}.

(** ** The ledger *)

Definition block_of (id : string) (s : ledger) : option block_file := l_blocks s !! _route_block_path id.
(** A block in its file that runs out at [u]. *)
Definition blocked_until_time (id : string) (u : Z) (s : ledger) : Prop :=
  exists b, block_of id s = Some (BF_json (JObj b)) /\ dget "blocked_until" b = Some (JInt u).

Lemma reading_run {A B} (f : nat -> A) (k : A -> RM B) s :
  (reading f ≫= k) s = k (f (l_tick s)) (Ledger (S (l_tick s)) (l_blocks s)).
Proof. done. Qed.
Lemma read_none id s : block_of id s = None -> read_local_block id s = (Ok None, s).
Proof. unfold block_of, read_local_block, gets, mbind, ST_bind. by intros ->. Qed.
Lemma read_active id b u s : block_of id s = Some (BF_json (JObj b)) -> dget "blocked_until" b = Some (JInt u) ->
  read_local_block id s = (Ok (if u <=? r_now (l_tick s) then None else Some b), Ledger (S (l_tick s)) (l_blocks s)).
Proof.
  unfold block_of, read_local_block, gets, mbind, ST_bind. intros -> Hu. unfold reading. rewrite Hu. cbn. done.
Qed.
(** Reading a block leaves the files alone. *)
Lemma read_blocks id s : l_blocks (read_local_block id s).2 = l_blocks s.
Proof.
  unfold read_local_block, gets, mbind, ST_bind. destruct (l_blocks s !! _) as [[[]| | |]|]; try done. cbn. by destruct (expired _ _).
Qed.
Lemma recorded id reason until msg backoff s payload s1 : record_local_block id reason until msg backoff s = (Ok payload, s1) ->
  r_write (S (l_tick s)) = BW_done -> l_blocks s1 = <[_route_block_path id := BF_json (JObj payload)]> (l_blocks s) /\ dget "blocked_until" payload = Some (JInt until).
Proof.
  unfold record_local_block. rewrite reading_run. cbv zeta. rewrite reading_run. cbn [l_tick l_blocks]. intros E Hw. rewrite Hw in E.
  by injection E as <- <-.
Qed.

(** ** A block over a decision *)

Definition says (usable : bool) (dec : dict) : Prop := dget "usable" dec = Some (JBool usable).
Lemma override_blocked route snapshot decision u s : blocked_until_time (r_route_id route) u s -> r_now (l_tick s) < u ->
  exists snap dec s', _apply_local_block_override route snapshot decision s = (Ok (snap, dec), s') /\
    says false dec /\ dget "wait_until" dec = Some (JInt u) /\ dget "available" snap = Some (JBool false).
Proof.
  intros (b & Hb & Hu) Hnow. unfold _apply_local_block_override. erewrite bind_ok by (by eapply read_active). 
  destruct (Z.leb_spec u (r_now (l_tick s))); [lia|]. rewrite reading_run, Hu. cbn [from_option default id py_int].
  eexists _, _, _. split; [reflexivity|]. unfold says. split_and!; look_up.
Qed.
(** No block counts at the time [now]: there is no file, it cannot be read or
    parsed, or its time has come. *)
Definition unblocked (id : string) (now : Z) (s : ledger) : Prop :=
  block_of id s ∈ [None; Some BF_unreadable; Some BF_garbled] \/ exists u, blocked_until_time id u s /\ u <= now.
Lemma read_unblocked id s : unblocked id (r_now (l_tick s)) s ->
  exists s', read_local_block id s = (Ok None, s') /\ l_blocks s' = l_blocks s.
Proof.
  intros [Hb|(u & (b & Hb & Hu) & Hle)].
  - exists s. split; [|done]. unfold block_of, read_local_block, gets, mbind, ST_bind in *.
    repeat (apply elem_of_cons in Hb as [->|Hb]; [done|]). by apply not_elem_of_nil in Hb.
  - eexists. rewrite (read_active id b u s Hb Hu). rewrite (proj2 (Z.leb_le _ _) Hle). done.
Qed.
Lemma override_free route snapshot decision s : unblocked (r_route_id route) (r_now (l_tick s)) s ->
  exists s', _apply_local_block_override route snapshot decision s = (Ok (snapshot, decision), s').
Proof. intros (s' & Hr & _)%read_unblocked. exists s'. unfold _apply_local_block_override. by erewrite bind_ok by exact Hr. Qed.

(** A route's block is looked at after one other question, for its launch
    command or to its capacity source; the time of that look. *)
Definition look_time (s : ledger) : Z := r_now (S (l_tick s)).
Lemma opaque_ok route poll model s out s' : route_opaque route poll model s = (Ok out, s') ->
  (forall u, blocked_until_time (r_route_id route) u s -> look_time s < u ->
     says false out.2 /\ dget "wait_until" out.2 = Some (JInt u) /\ dget "available" out.1 = Some (JBool false)) /\
  (unblocked (r_route_id route) (look_time s) s -> says (r_which (l_tick s) (r_provider route)) out.2).
Proof.
  unfold route_opaque, route_cli_present. rewrite reading_run. generalize (r_which (l_tick s) (r_provider route)). intros cli E. split.
  - intros u (b & Hb & Hu) Hnow. revert E. erewrite bind_ok by (by apply (read_active _ b u)). cbn [l_tick].
    unfold look_time in Hnow. destruct (Z.leb_spec u (r_now (S (l_tick s)))); [lia|].
    unfold opaque_scope_for_route. rewrite Hu. cbn. by intros [= <- _].
  - intros Hb. destruct (read_unblocked (r_route_id route) (Ledger (S (l_tick s)) (l_blocks s)) Hb) as (s1 & Hr & _).
    revert E. erewrite bind_ok by exact Hr. by destruct cli; cbn; intros [= <- _].
Qed.
Lemma usage_ok req s snap dec s' : read_usage req s = (Ok (snap, dec), s') -> r_usage (l_tick s) req = Ok (snap, dec) /\ s' = Ledger (S (l_tick s)) (l_blocks s).
Proof. unfold read_usage. rewrite reading_run. destruct (r_usage _ _) as [[]|e]; [|done]. by intros [= <- <- <-]. Qed.

(** Where a route's capacity is read. *)
Definition capacity_source (route : RoutePolicy) : string :=
  if bool_decide (cap_policy (r_capacity route) = CAPACITY_POLICY_DELEGATE) then default (r_provider route) (cap_provider (r_capacity route)) else r_provider route.
(** A capacity reading of the route's source, with a block over it. *)
Definition overridden (route : RoutePolicy) (s : ledger) (out : dict * dict) : Prop :=
  exists req snap0 dec0 snap1 dec1 s1 s2, r_usage (l_tick s) req = Ok (snap0, dec0) /\ cr_provider req = capacity_source route /\
    (forall k, k <> "provider"%string -> k <> "capacity_provider"%string -> dget k dec1 = dget k dec0) /\
    s1 = Ledger (S (l_tick s)) (l_blocks s) /\ _apply_local_block_override route snap1 dec1 s1 = (Ok out, s2).
Lemma provider_ok route window m p model fb s out s' : cap_policy (r_capacity route) <> CAPACITY_POLICY_DELEGATE ->
  route_of_provider route window m p model fb s = (Ok out, s') -> overridden route s out.
Proof.
  intros Hp E. unfold route_of_provider in E. apply bind_inv in E as ([snap dec] & s1 & E1 & E). apply usage_ok in E1 as [E1 Hl]. cbv zeta in E.
  eexists _, _, _, _, _, s1, s'. split_and!; [exact E1| |done|done|exact E]. unfold capacity_source. by rewrite bool_decide_false.
Qed.
Lemma delegated_ok route t window m p poll model s out s' : cap_policy (r_capacity route) = CAPACITY_POLICY_DELEGATE -> cap_provider (r_capacity route) = Some t -> opt_str t = Some t ->
  route_delegated route window m p poll model s = (Ok out, s') -> overridden route s out.
Proof.
  intros Hp Ht Hn E. unfold route_delegated in E. rewrite Ht in E. cbn [mbind option_bind] in E. rewrite Hn in E.
  apply bind_inv in E as ([snap dec] & s1 & E1 & E). apply usage_ok in E1 as [E1 Hl]. cbv zeta in E.
  eexists _, _, _, _, _, s1, s'. split_and!; [exact E1| | |done|exact E].
  - unfold capacity_source. by rewrite bool_decide_true, Ht.
  - intros k H1 H2. by rewrite !dget_dset_ne.
Qed.
Lemma decision_by_policy route window m p model fb s out s' : sound_route route ->
  usage_snapshot_and_decision_for_route route window m p model fb s = (Ok out, s') ->
  if bool_decide (cap_policy (r_capacity route) = CAPACITY_POLICY_OPAQUE) then exists poll, route_opaque route poll model s = (Ok out, s')
  else overridden route s out.
Proof.
  intros (_ & Hpol & _ & Hdel) E. unfold usage_snapshot_and_decision_for_route in E. cbv zeta in E.
  destruct (float_of_text m); [|done]. destruct (int_of_text p) as [interval|]; [|done].
  case_bool_decide as Ho; [by eexists|]. case_bool_decide as Hp.
  - eapply provider_ok; [|exact E]. intros Ed. rewrite Ed in Hp. by apply (bool_decide_eq_true_2 _) in Hp.
  - case_bool_decide as Hd.
    + destruct (Hdel Hd) as (t & Ht & Hin & _). eapply delegated_ok; [done|done|by apply provider_nonempty|exact E].
    + exfalso. unfold CAPACITY_POLICIES, PROVIDER_POLICIES in *. set_solver.
Qed.
Lemma decided route window m p model fb s out s' : sound_route route ->
  usage_snapshot_and_decision_for_route route window m p model fb s = (Ok out, s') ->
  (forall u, blocked_until_time (r_route_id route) u s -> look_time s < u ->
     says false out.2 /\ dget "wait_until" out.2 = Some (JInt u) /\ dget "available" out.1 = Some (JBool false)) /\
  (unblocked (r_route_id route) (look_time s) s ->
     if bool_decide (cap_policy (r_capacity route) = CAPACITY_POLICY_OPAQUE) then says (r_which (l_tick s) (r_provider route)) out.2
     else exists req snap dec, r_usage (l_tick s) req = Ok (snap, dec) /\ cr_provider req = capacity_source route /\
       forall k, k <> "provider"%string -> k <> "capacity_provider"%string -> dget k out.2 = dget k dec).
Proof.
  intros Hs E. apply decision_by_policy in E; [|done]. destruct (bool_decide (cap_policy _ = _)).
  - destruct E as (poll & E). by apply (opaque_ok _ _ _ _ _ _ E).
  - destruct E as (req & snap0 & dec0 & snap1 & dec1 & s1 & s2 & Eu & Hreq & Hk & Hl & Eo). split.
    + intros u Hb Hnow. subst s1. destruct (override_blocked route snap1 dec1 u (Ledger (S (l_tick s)) (l_blocks s)) Hb Hnow) as (snap & dec & s3 & E & Hd). rewrite Eo in E. injection E as -> _. exact Hd.
    + intros Hb. subst s1. destruct (override_free route snap1 dec1 (Ledger (S (l_tick s)) (l_blocks s)) Hb) as (s3 & E). rewrite Eo in E.
      injection E as -> _. by exists req, snap0, dec0.
Qed.

(** ** What a route costs *)

Definition with_cost (c : CostPolicyConfig) (r : RoutePolicy) : RoutePolicy :=
  Route (r_route_id r) (r_provider r) (r_model r) (r_allow_fallback r) (r_capacity r) c.
(** Scopes that differ in what is displayed only. *)
Definition scope_twins (a b : CapacityScope) : Prop :=
  s_name a = s_name b /\ s_kind a = s_kind b /\ s_remaining_percent a = s_remaining_percent b /\ s_remaining_amount a = s_remaining_amount b /\
  s_reset_epoch a = s_reset_epoch b.
Lemma scope_cost route c cli b s : exists s', match opaque_scope_for_route (with_cost c route) cli b s, opaque_scope_for_route route cli b s with
  | (Ok x, s1), (Ok y, s2) => s1 = s' /\ s2 = s' /\ scope_twins x y
  | (Raise e, s1), (Raise e', s2) => s1 = s' /\ s2 = s' /\ e = e'
  | _, _ => False
  end.
Proof.
  unfold opaque_scope_for_route. rewrite !reading_run. eexists. unfold mbind at 1 2, ST_bind at 1 2. destruct b as [b|]; cbn.
  - destruct (py_int _); cbn; by split_and!.
  - by split_and!.
Qed.
(** Two computations that end alike, up to [R] on their results. *)
Definition twins {A} (R : A -> A -> Prop) (m m' : RM A) : Prop :=
  forall s, (m s).2 = (m' s).2 /\ match (m s).1, (m' s).1 with Ok a, Ok a' => R a a' | Raise e, Raise e' => e = e' | _, _ => False end.
Lemma twins_ret {A} (R : A -> A -> Prop) a a' : R a a' -> twins R (mret a) (mret a').
Proof. by intros HR s. Qed.
Lemma twins_bind {A B} (R : A -> A -> Prop) (Q : B -> B -> Prop) m m' f f' : twins R m m' -> (forall a a', R a a' -> twins Q (f a) (f' a')) -> twins Q (m ≫= f) (m' ≫= f').
Proof.
  intros Hm Hf s. specialize (Hm s). unfold mbind, ST_bind. destruct (m s) as [[a|e] s1], (m' s) as [[a'|e'] s2]; cbn in Hm; destruct Hm as [<- Hr]; try done.
  by apply Hf.
Qed.
Lemma twins_refl {A} (m : RM A) : twins eq m m.
Proof. intros s. split; [done|]. by destruct (m s).1. Qed.
Lemma twins_scope route c cli b : twins scope_twins (opaque_scope_for_route (with_cost c route) cli b) (opaque_scope_for_route route cli b).
Proof.
  intros s. destruct (scope_cost route c cli b s) as [s' Hs].
  destruct (opaque_scope_for_route (with_cost c route) cli b s) as [[x|e] s1], (opaque_scope_for_route route cli b s) as [[y|e'] s2]; naive_solver.
Qed.
Definition ready_alike (out out' : dict * dict) : Prop :=
  (forall k, k <> "windows"%string -> dget k out.2 = dget k out'.2) /\ dget "available" out.1 = dget "available" out'.1.
Lemma override_cost route c snap snap' dec : dget "available" snap = dget "available" snap' ->
  twins ready_alike (_apply_local_block_override (with_cost c route) snap dec) (_apply_local_block_override route snap' dec).
Proof.
  intros Ha. unfold _apply_local_block_override. cbn [with_cost r_route_id r_provider r_model].
  eapply twins_bind; [apply twins_refl|]. intros [b|] _ <-; [|by apply twins_ret].
  eapply twins_bind; [apply twins_refl|]. intros now _ <-. eapply twins_bind; [apply twins_refl|]. intros z _ <-. cbv zeta. apply twins_ret.
  split; [done|]. cbn [fst]. rewrite !(dget_dset_ne "available" "scopes"), !(dget_dset_ne "available" "reason") by done. by rewrite !dget_dset_eq.
Qed.
Lemma undecided_cost route c reason poll model : twins ready_alike (undecided (with_cost c route) reason poll model) (undecided route reason poll model).
Proof. unfold undecided. eapply twins_bind; [apply twins_refl|]. intros now _ <-. by apply twins_ret. Qed.
Definition state_twins (x y : bool * string * option Z * CapacityScope) : Prop := x.1 = y.1 /\ scope_twins x.2 y.2.
Lemma opaque_cost route c poll model : twins ready_alike (route_opaque (with_cost c route) poll model) (route_opaque route poll model).
Proof.
  unfold route_opaque, route_cli_present. cbn [with_cost r_route_id r_provider r_model].
  eapply twins_bind; [apply twins_refl|]. intros cli _ <-. eapply twins_bind; [apply twins_refl|]. intros b _ <-.
  apply (twins_bind state_twins).
  - destruct b as [b|]; [|destruct cli]; repeat (eapply twins_bind; [apply twins_refl|]; intros ? _ <-);
      (eapply twins_bind; [apply twins_scope|]; intros x y Hxy; by apply twins_ret).
  - intros [[[usable reason] wait] x] [state y] [Hst Hxy]. cbn in Hst, Hxy. subst state. destruct Hxy as (Hn & Hk & Hp & Ha & He). apply twins_ret. split; [|done].
    intros k Hk'. cbn. rewrite ?Hn, ?Hk, ?Hp, ?Ha, ?He. repeat case_bool_decide; done.
Qed.
Lemma usage_cost route c window m p model fb :
  twins ready_alike (usage_snapshot_and_decision_for_route (with_cost c route) window m p model fb) (usage_snapshot_and_decision_for_route route window m p model fb).
Proof.
  unfold usage_snapshot_and_decision_for_route. cbv zeta. change (r_capacity (with_cost c route)) with (r_capacity route).
  destruct (float_of_text m), (int_of_text p); try done. case_bool_decide; [apply opaque_cost|]. case_bool_decide.
  - unfold route_of_provider. eapply twins_bind; [apply twins_refl|]. intros [snap dec] _ <-. cbv zeta. apply override_cost.
    by rewrite !(dget_dset_ne "available" "cost") by done.
  - case_bool_decide; [|apply undecided_cost]. unfold route_delegated. change (r_capacity (with_cost c route)) with (r_capacity route).
    destruct (cap_provider _ ≫= opt_str); [|apply undecided_cost]. eapply twins_bind; [apply twins_refl|]. intros [snap dec] _ <-. cbv zeta. apply override_cost.
    by rewrite !(dget_dset_ne "available" "cost") by done.
Qed.
End laws.

(** A runtime block lasts until its time.  Once [record_local_block] has
    written it, every reading of the route finds it before that time and none
    afterwards, as long as the file stands; no route with another file is
    touched; and where [clear_local_block] answers that it removed the block,
    the route reads as free. *)
Theorem block_lasts_until_its_time (C : ConfigEnv) (E : RouteEnv) (id reason : string) (until : Z) (msg : string) (backoff : Z)
    (s s1 : ledger) (payload : dict) :
  record_local_block id reason until msg backoff s = (Ok payload, s1) -> r_write (S (l_tick s)) = BW_done ->
  (forall s2, block_of id s2 = block_of id s1 -> (read_local_block id s2).1 = Ok (if until <=? r_now (l_tick s2) then None else Some payload)) /\
  (forall id', _route_block_path id' <> _route_block_path id -> block_of id' s1 = block_of id' s) /\
  (forall s2 s3, clear_local_block id s2 = (Ok true, s3) -> (read_local_block id s3).1 = Ok None).
Proof.
  intros Hr Hw. apply recorded in Hr as [Hb Hu]; [|done]. split_and!.
  - intros s2 H2. rewrite (read_active id payload until s2); [done| |done]. rewrite H2. unfold block_of. by rewrite Hb, lookup_insert_eq.
  - intros id' Hne. unfold block_of. rewrite Hb. by rewrite lookup_insert_ne.
  - intros s2 s3. unfold clear_local_block, gets, mbind at 1, ST_bind at 1. destruct (l_blocks s2 !! _) as [f|]; [|done]. rewrite reading_run.
    destruct (r_unlinks _); [|done]. intros [= <-]. rewrite read_none; [done|]. apply lookup_delete_eq.
Qed.

(** C27: What decides over a route.  A route with a block whose time has not come
    when the block is looked at is answered as not usable and not available
    until that time, whatever its capacity policy.  One without a block, or
    whose block cannot be read or has run out by then, is as usable as its
    launch command is present, if it is opaque, and otherwise exactly what the
    reading of its capacity source says: a block ends at its time. *)
Theorem route_decision (C : ConfigEnv) (E : RouteEnv) (route : RoutePolicy) (window m p : string) (model : option string) (fallback : bool)
    (s s' : ledger) (out : dict * dict) :
  sound_route route -> usage_snapshot_and_decision_for_route route window m p model fallback s = (Ok out, s') ->
  (forall u, blocked_until_time (r_route_id route) u s -> look_time s < u ->
     says false out.2 /\ dget "wait_until" out.2 = Some (JInt u) /\ dget "available" out.1 = Some (JBool false)) /\
  (unblocked (r_route_id route) (look_time s) s ->
     if bool_decide (cap_policy (r_capacity route) = CAPACITY_POLICY_OPAQUE) then says (r_which (l_tick s) (r_provider route)) out.2
     else exists req snap dec, r_usage (l_tick s) req = Ok (snap, dec) /\ cr_provider req = capacity_source route /\
       forall k, k <> "provider"%string -> k <> "capacity_provider"%string -> dget k out.2 = dget k dec).
Proof. intros Hs Eu. by eapply decided. Qed.

(** The cost policy never influences readiness.  Two routes that differ in
    their cost only get the same decision but for the currency its windows
    show - usable, reason, waiting time, exhausted scopes -, the same
    availability, the same exceptions, and leave the same ledger. *)
Theorem cost_never_influences_readiness (C : ConfigEnv) (E : RouteEnv) (route : RoutePolicy) (cost : CostPolicyConfig) (window m p : string)
    (model : option string) (fallback : bool) :
  twins ready_alike (usage_snapshot_and_decision_for_route (with_cost cost route) window m p model fallback)
    (usage_snapshot_and_decision_for_route route window m p model fallback).
Proof. apply usage_cost. Qed.

(** ** A configuration *)

Definition day_config : ConfigEnv := {|
  str_of _ := EmptyString;
  repr_of _ := EmptyString;
  float_of_text t := (fun z => Fin (inject_Z z)) <$> int_of_text t;
  float_of_int z := Some (Fin (inject_Z z));
|}.
(** Every provider is usable, the clock stands at 1000. *)
Definition day_routes : RouteEnv := {|
  r_now _ := 1000;
  r_write _ := BW_done;
  r_unlinks _ := true;
  r_which _ _ := true;
  r_backoff_variable := None;
  r_usage _ req := Ok ([("available", JBool true)]%string, [("provider", JStr (cr_provider req)); ("usable", JBool true)]%string);
|}.
Definition day_glm : RoutePolicy :=
  Route "glm" "kilo" None false (CapacityPolicy "delegate" None None (Some "zai"%string)) (CostPolicy "included" (Some (Fin 20)) None None).
Lemma day_glm_sound : sound_route day_glm.
Proof. split_and!; [by apply (bool_decide_eq_true_1 _)..|]. intros _. exists "zai"%string. split_and!; [done|by apply (bool_decide_eq_true_1 _)|done]. Qed.
Definition day (blocks : gmap string block_file) : ledger := Ledger 0 blocks.
Definition glm_block : dict := [("route_id", JStr "glm"); ("blocked_until", JInt 1300)]%string.
Definition over_block : dict := [("route_id", JStr "glm"); ("blocked_until", JInt 1000)]%string.

Lemma block_lasts_until_its_time_witness : exists payload,
  (record_local_block (H0 := day_routes) "glm" "quota" 1300 "429" 300 (day ∅)).1 = Ok payload /\
  (read_local_block (H0 := day_routes) "glm" (record_local_block (H0 := day_routes) "glm" "quota" 1300 "429" 300 (day ∅)).2).1 = Ok (Some payload).
Proof.
  destruct (record_local_block (H0 := day_routes) "glm" "quota" 1300 "429" 300 (day ∅)) as [r s1] eqn:E. destruct r as [payload|e]; [|done].
  exists payload. split; [done|].
  exact (proj1 (block_lasts_until_its_time day_config day_routes "glm" "quota" 1300 "429" 300 (day ∅) s1 payload E eq_refl) s1 eq_refl).
Defined.
(** At 1000 a block until 1300 counts and one until 1000 does not. *)
Lemma route_decision_witness : exists out s1 out' s2,
  usage_snapshot_and_decision_for_route (H := day_config) (H0 := day_routes) day_glm "auto" "1" "60" None true (day {["glm.json"%string := BF_json (JObj glm_block)]}) = (Ok out, s1) /\
  usage_snapshot_and_decision_for_route (H := day_config) (H0 := day_routes) day_glm "auto" "1" "60" None true (day {["glm.json"%string := BF_json (JObj over_block)]}) = (Ok out', s2) /\
  says false out.2 /\ says true out'.2.
Proof.
  destruct (usage_snapshot_and_decision_for_route (H := day_config) (H0 := day_routes) day_glm "auto" "1" "60" None true
    (day {["glm.json"%string := BF_json (JObj glm_block)]})) as [r s1] eqn:E1.
  destruct (usage_snapshot_and_decision_for_route (H := day_config) (H0 := day_routes) day_glm "auto" "1" "60" None true
    (day {["glm.json"%string := BF_json (JObj over_block)]})) as [r' s2] eqn:E2.
  destruct r as [out|e]; [|by vm_compute in E1]. destruct r' as [out'|e]; [|by vm_compute in E2].
  exists out, s1, out', s2. split; [done|]. split; [done|]. split.
  - refine (proj1 (proj1 (route_decision day_config day_routes day_glm "auto" "1" "60" None true _ s1 out day_glm_sound E1) 1300 _ _)); [|done].
    exists glm_block. by split.
  - destruct (proj2 (route_decision day_config day_routes day_glm "auto" "1" "60" None true _ s2 out' day_glm_sound E2)) as (req & snap & dec & Hu & _ & Hk).
    + right. exists 1000. split; [exists over_block; by split|done].
    + unfold says. rewrite Hk by done. cbn in Hu. by injection Hu as <- <-.
Defined.
(** Routes whose ids differ in a character that no file name takes share
    their block. *)
Example block_of_another_route : exists payload,
  (read_local_block (H0 := day_routes) "ab" (record_local_block (H0 := day_routes) "a/b" "quota" 1300 "429" 300 (day ∅)).2).1 = Ok (Some payload) /\
  dget "route_id" payload = Some (JStr "a/b").
Proof. eexists. split; vm_compute; reflexivity. Qed.
(** A block file whose time is no number raises out of the decision. *)
Example corrupt_block_raises : exists message,
  (usage_snapshot_and_decision_for_route (H := day_config) (H0 := day_routes) day_glm "auto" "1" "60" None true
    (day {["glm.json"%string := BF_json (JObj [("blocked_until", JNull)]%string)]})).1 = Raise (TypeError message).
Proof. eexists. vm_compute. reflexivity. Qed.
