(* ===== verification/Lookup.v ===== *)
(** * Looking missions up ([bridge_missions.py])

    An id, a unique id prefix or the current folder becomes one mission id; the
    order in which missions are listed.  Whether a mission is live is asked of
    locks and tmux, and other processes use the database between two looks. *)

From Stdlib Require Import Ascii.
From S2P Require Import Prelude Py Vocab States StoreData StoreTasks StoreOps StoreReview StoreLog StoreApi.
From stdpp Require Import options.
Local Open Scope Z_scope.

Definition MIN_MISSION_PREFIX : nat := 4.

(** No mission matches; the request is refused; a probe raised. *)
Inductive lookup_error : Type := MissionNotFound (msg : string) | Refused (msg : string) | Probe (e : exn).
(** Who holds a controller lock and which stations run, at each moment; what
    other processes do before each look at the database; [repr], and the
    resolved current folder. *)
Class LookupEnv : Type := {
  lock_held : nat -> string -> result exn bool;
  station_probe : nat -> string -> bool;
  lk_elsewhere : nat -> list op;
  lk_repr : string -> string;
}.
Record looking : Type := Looking { lk_tick : nat; lk_world : world }.
Abbreviation LM := (ST lookup_error looking).

Section lookup.
Context `{Oracle} `{LookupEnv}.

Definition probe {A} (f : nat -> A) : LM A := fun s => (Ok (f (lk_tick s)), Looking (S (lk_tick s)) (lk_world s)).
Definition look {A} (f : database -> A) : LM A := fun s =>
  let w := run_ops (lk_elsewhere (lk_tick s)) (lk_world s) in (Ok (f (w_db w)), Looking (S (lk_tick s)) w).

Definition station_live (mission_id : string) : LM bool := probe (fun n => station_probe n mission_id).
Definition mission_live (mission_id : string) : LM bool :=
  running ← probe (fun n => lock_held n mission_id);
  match running with
  | Raise e => raise (Probe e)
  | Ok true => mret true
  | Ok false => station_live mission_id
  end.

(** Each row with the answer of [mission_live]. *)
Fixpoint with_live (rows : list mission_row) : LM (list (bool * mission_row)) :=
  match rows with
  | [] => mret []
  | row :: rows => live ← mission_live (m_id row); rest ← with_live rows; mret ((live, row) :: rest)
  end.
Definition newer (a b : mission_row) : bool :=
  (m_updated_at b <? m_updated_at a) || ((m_updated_at a =? m_updated_at b) && str_leb (m_id b) (m_id a)).
Definition finished (row : mission_row) : bool := is_in (m_status row) FINISHED_MISSION_STATUSES.
(** [(not live, finished)] compared. *)
Definition listed_before (a b : bool * mission_row) : bool :=
  match a.1, b.1 with
  | true, false => true
  | false, true => false
  | _, _ => negb (finished a.2) || finished b.2
  end.
Definition order_missions (rows : list mission_row) : LM (list mission_row) :=
  rows ← with_live (sort_by newer rows);
  mret (snd <$> sort_by listed_before rows).

Fixpoint choice_lines (rows : list mission_row) : LM (list string) :=
  match rows with
  | [] => mret []
  | row :: rows =>
      live ← mission_live (m_id row);
      rest ← choice_lines rows;
      mret (("  " +:+ stake 8 (m_id row) +:+ "  " +:+ stake 40 (m_name row) +:+ "  " +:+ str (m_status row) +:+ (if live : bool then "  (live)" else EmptyString))%string :: rest)
  end.
Definition newline : string := String (ascii_of_nat 10) EmptyString.
Definition mission_choices (rows : list mission_row) : LM string := ordered ← order_missions rows; lines ← choice_lines ordered; mret (join newline lines).

(** ** Folders *)

(** The parts of a path, and how many slashes begin it (two are special). *)
Definition path_parts (path : string) : list string :=
  select (fun part => truthy_str part && negb (bool_decide (part = "."%string))) (split_char "/"%char path).
Definition path_root (path : string) : nat :=
  if startswith "//" path && negb (startswith "///" path) then 2 else if startswith "/" path then 1 else 0.
Fixpoint part_of (a b : list string) : bool :=
  match a, b with
  | [], _ => true
  | x :: a, y :: b => bool_decide (x = y) && part_of a b
  | _ :: _, [] => false
  end.
(** [here == folder or folder in here.parents]. *)
Definition contains_folder (folder here : string) : bool :=
  bool_decide (path_root folder = path_root here) && part_of (path_parts folder) (path_parts here).

(** ** References *)

Fixpoint with_station (rows : list mission_row) : LM (list mission_row) :=
  match rows with
  | [] => mret []
  | row :: rows => live ← station_live (m_id row); rest ← with_station rows; mret (if live : bool then row :: rest else rest)
  end.
Definition or_rows (a b : list mission_row) : list mission_row := match a with [] => b | _ => a end.
Definition by_reference (ref : string) : LM string :=
  exact ← look (mission_id_if_exists ref);
  match exact with
  | Some id => mret id
  | None =>
      if (String.length ref <? MIN_MISSION_PREFIX)%nat then
        raise (Refused ("mission ID prefix " +:+ lk_repr ref +:+ " is too short (use at least " +:+ show_Z (Z.of_nat MIN_MISSION_PREFIX) +:+ " characters); run llm-bridge mission list"))
      else
        rows ← look (missions_with_id_prefix ref);
        match rows with
        | [] => raise (MissionNotFound ("no mission matches " +:+ lk_repr ref +:+ "; run llm-bridge mission list"))
        | [row] => mret (m_id row)
        | _ => choices ← mission_choices rows; raise (Refused ("mission ID prefix " +:+ lk_repr ref +:+ " is ambiguous; matches:" +:+ newline +:+ choices))
        end
  end%string.
Definition follow_up (newest : mission_row) : string :=
  let create := ("create a new mission with: llm-bridge mission create --prompt " +:+ dq +:+ "..." +:+ dq)%string in
  if bool_decide (m_status newest = M_COMPLETED) then
    ("add follow-up work with: llm-bridge task add --mission " +:+ stake 8 (m_id newest) +:+ " --prompt " +:+ dq +:+ "..." +:+ dq +:+ " or " +:+ create)%string
  else create.
(** No unfinished mission in the folder. *)
Definition nothing_unfinished (here : string) (in_folder : list mission_row) (read_only : bool) : LM string :=
  match select finished in_folder, read_only with
  | [row], true => mret (m_id row)
  | (_ :: _) as done, true =>
      choices ← mission_choices done;
      raise (Refused ("several finished missions match folder " +:+ here +:+ "; pass --mission ID:" +:+ newline +:+ choices))
  | (_ :: _) as done, false =>
      ordered ← order_missions done;
      match ordered with
      | newest :: _ =>
          raise (Refused ("mission " +:+ stake 8 (m_id newest) +:+ " in folder " +:+ here +:+ " is finished (" +:+ lower (str (m_status newest)) +:+ "); " +:+ follow_up newest))
      | [] => raise (Refused EmptyString)
      end
  | [], _ =>
      raise (Refused ("no unfinished mission for folder " +:+ here +:+ "; pass --mission ID (see llm-bridge mission list) or create one with: llm-bridge mission create --prompt " +:+ dq +:+ "..." +:+ dq))
  end%string.
Definition by_folder (here : string) (read_only prefer_station : bool) : LM string :=
  rows ← look missions_newest_first;
  let in_folder := select (fun row => contains_folder (m_cwd row) here) rows in
  let candidates := select (fun row => negb (finished row)) in_folder in
  let live := select (fun row => is_in (m_status row) LIVE_MISSION_STATUSES) candidates in
  let pool := or_rows live candidates in
  pool ← (if prefer_station && (1 <? length pool)%nat then stations ← with_station pool; mret (or_rows stations pool) else mret pool);
  match pool with
  | [row] => mret (m_id row)
  | [] => nothing_unfinished here in_folder read_only
  | _ => choices ← mission_choices pool; raise (Refused ("several missions match folder " +:+ here +:+ "; pass --mission ID:" +:+ newline +:+ choices)%string)
  end.
Definition resolve_mission_ref (ref : option string) (here : string) (read_only prefer_station : bool) : LM string :=
  match ref with
  | Some ref => if truthy_str ref then by_reference ref else by_folder here read_only prefer_station
  | None => by_folder here read_only prefer_station
  end.
End lookup.
