(* ===== verification/LookupLaws.v ===== *)
(** * Laws of looking missions up *)

From Stdlib Require Import Ascii.
From S2P Require Import Prelude Py Vocab States StoreData StoreTasks StoreOps StoreReview StoreLog StoreApi StoreDemo Lookup.
From stdpp Require Import options.
Local Open Scope Z_scope.

(** ** Sorting by two keys, one after the other *)

Section stable.
Context {A : Type} (leb1 leb2 : A -> A -> bool).
Context (total2 : forall x y, leb2 x y = true \/ leb2 y x = true).
Context (trans2 : forall x y z, leb2 x y = true -> leb2 y z = true -> leb2 x z = true).

(** Before by the second key, and among equals by the first. *)
Definition lexical (a b : A) : Prop := leb2 a b = true /\ (leb2 b a = true -> leb1 a b = true).
Lemma insert_stable x l : (forall y, y ∈ l -> leb1 x y = true) -> StronglySorted lexical l -> StronglySorted lexical (insert_by leb2 x l).
Proof using All.
  intros Hx Hl. induction Hl as [|y l Hl IH Hy]; cbn; [repeat constructor|]. destruct (leb2 x y) eqn:E.
  - constructor; [by constructor|]. apply Forall_forall. intros z Hz. split; [|intros _; by apply Hx].
    apply elem_of_cons in Hz as [->|Hz]; [done|]. rewrite Forall_forall in Hy. apply (trans2 _ y); [done|apply Hy, Hz].
  - constructor; [apply IH; intros z Hz; apply Hx; by right|]. rewrite insert_by_perm. constructor; [|done].
    destruct (total2 x y) as [|Hyx]; [congruence|]. split; [done|]. congruence.
Qed.
Lemma sort_stable l : StronglySorted (fun a b => leb1 a b = true) l -> StronglySorted lexical (sort_by leb2 l).
Proof using All.
  induction 1 as [|x l Hl IH Hx]; [constructor|]. apply (insert_stable x); [|done].
  intros y Hy%elem_of_sort_by. rewrite Forall_forall in Hx. by apply Hx.
Qed.
End stable.

(** ** The order of texts *)

Lemma str_leb_total a b : str_leb a b = true \/ str_leb b a = true.
Proof.
  unfold str_leb. revert b. induction a as [|x a IH]; intros [|y b]; cbn; auto.
  destruct (Z.ltb_spec (code x) (code y)), (Z.ltb_spec (code y) (code x)), (Z.eqb_spec (code x) (code y)), (Z.eqb_spec (code y) (code x)); auto; lia.
Qed.
Lemma str_leb_trans a b c : str_leb a b = true -> str_leb b c = true -> str_leb a c = true.
Proof.
  unfold str_leb. rewrite !negb_true_iff. revert b c. induction a as [|x a IH]; intros [|y b] [|z c]; cbn; try done.
  destruct (Z.ltb_spec (code y) (code x)), (Z.ltb_spec (code z) (code y)), (Z.ltb_spec (code z) (code x)); try done;
    destruct (Z.eqb_spec (code y) (code x)), (Z.eqb_spec (code z) (code y)), (Z.eqb_spec (code z) (code x)); try done; try lia. apply IH.
Qed.

Section laws.
Context `{Oracle} `{LookupEnv}.

Lemma listed_total a b : listed_before a b = true \/ listed_before b a = true.
Proof. unfold listed_before. destruct a as [[] x], b as [[] y]; cbn; auto; destruct (finished x), (finished y); auto. Qed.
Lemma listed_trans a b c : listed_before a b = true -> listed_before b c = true -> listed_before a c = true.
Proof. unfold listed_before. destruct a as [[] x], b as [[] y], c as [[] z]; cbn; try done; destruct (finished x), (finished y), (finished z); auto. Qed.
Lemma newer_total a b : newer a b = true \/ newer b a = true.
Proof.
  unfold newer. destruct (Z.ltb_spec (m_updated_at b) (m_updated_at a)), (Z.ltb_spec (m_updated_at a) (m_updated_at b)); auto.
  rewrite (proj2 (Z.eqb_eq (m_updated_at a) (m_updated_at b))), (proj2 (Z.eqb_eq (m_updated_at b) (m_updated_at a))) by lia. apply str_leb_total.
Qed.
Lemma newer_trans a b c : newer a b = true -> newer b c = true -> newer a c = true.
Proof.
  unfold newer. rewrite !orb_true_iff, !andb_true_iff, !Z.ltb_lt, !Z.eqb_eq. intros [?|[? Hb]] [?|[? Hc]]; try (left; lia).
  right. split; [lia|by apply (str_leb_trans _ (m_id b))].
Qed.

(** ** The order of missions *)

(** [live] is what [mission_live] answers for the mission at some moment. *)
Definition answered_live (id : string) (live : bool) : Prop :=
  exists n k, lock_held n id = Ok true /\ live = true \/ lock_held n id = Ok false /\ live = station_probe k id.
Lemma live_answer id s live s' : mission_live id s = (Ok live, s') -> answered_live id live /\ lk_world s' = lk_world s.
Proof.
  unfold mission_live, probe, station_live, mbind, ST_bind. cbn. destruct (lock_held (lk_tick s) id) as [[]|e] eqn:El; [| |done]; intros [= <- <-]; (split; [|done]).
  - exists (lk_tick s), O. by left.
  - exists (lk_tick s), (S (lk_tick s)). by right.
Qed.
Lemma with_live_ok rows s out s' : with_live rows s = (Ok out, s') -> out.*2 = rows /\ Forall (fun r => answered_live (m_id r.2) r.1) out.
Proof.
  revert s out s'. induction rows as [|row rows IH]; intros s out s' E; cbn [with_live] in E; [injection E as <- <-; by split|].
  apply bind_inv in E as (live & s1 & E1 & E). apply bind_inv in E as (rest & s2 & E2 & E). injection E as <- <-.
  apply live_answer in E1 as [El _]. apply IH in E2 as [<- Hf]. split; [done|by constructor].
Qed.
(** Missions with a controller or station come first, then unfinished ones, and
    the last updated first among those. *)
Definition in_order (a b : bool * mission_row) : Prop := lexical (fun x y => newer x.2 y.2) listed_before a b.
Lemma order_ok rows s out s' : order_missions rows s = (Ok out, s') ->
  exists listed : list (bool * mission_row), out = listed.*2 /\ out ≡ₚ rows /\ StronglySorted in_order listed /\ Forall (fun r => answered_live (m_id r.2) r.1) listed.
Proof.
  unfold order_missions. intros E. apply bind_inv in E as (listed & s1 & E1 & E). injection E as <- <-.
  apply with_live_ok in E1 as [Hrows Hlive]. exists (sort_by listed_before listed). split_and!.
  - done.
  - by rewrite (sort_by_perm listed_before listed), Hrows, sort_by_perm.
  - apply sort_stable; [apply listed_total|apply listed_trans|].
    assert (Hs : StronglySorted (fun a b => newer a b = true) (listed.*2)) by (rewrite Hrows; apply sort_by_sorted; [apply newer_total|apply newer_trans]).
    clear -Hs. induction listed as [|r listed IH]; [constructor|]. rewrite fmap_cons in Hs. apply StronglySorted_inv in Hs as [Hs Hr].
    constructor; [by apply IH|]. rewrite Forall_fmap in Hr. exact Hr.
  - by rewrite sort_by_perm.
Qed.

(** ** Folders *)

(** The database as it is when the next look reads it. *)
Definition looked (s : looking) : database := w_db (run_ops (lk_elsewhere (lk_tick s)) (lk_world s)).
Definition here_in (here : string) (row : mission_row) : Prop := contains_folder (m_cwd row) here = true.
Definition live_status (row : mission_row) : bool := is_in (m_status row) LIVE_MISSION_STATUSES.
Lemma with_station_sub rows s out s' : with_station rows s = (Ok out, s') -> forall row, row ∈ out -> row ∈ rows.
Proof.
  revert s out s'. induction rows as [|row rows IH]; intros s out s' E; cbn [with_station] in E; [by injection E as <- <-|].
  apply bind_inv in E as (live & s1 & E1 & E). apply bind_inv in E as (rest & s2 & E2 & E). specialize (IH _ _ _ E2).
  destruct live; injection E as <- <-; intros r Hr; [apply elem_of_cons in Hr as [->|Hr]; [left|right; by apply IH]|right; by apply IH].
Qed.
Lemma with_station_none rows s s' : with_station rows s = (Ok [], s') ->
  forall i row, rows !! i = Some row -> station_probe (lk_tick s + i) (m_id row) = false.
Proof.
  revert s s'. induction rows as [|r rows IH]; intros s s' E i row Hi; [by destruct i|]. cbn [with_station] in E.
  apply bind_inv in E as (live & s1 & E1 & E). apply bind_inv in E as (rest & s2 & E2 & E). injection E1 as <- <-.
  destruct (station_probe _ _) eqn:El; [done|]. injection E as -> <-. destruct i as [|i]; [injection Hi as <-; by rewrite Nat.add_0_r|].
  rewrite <-Nat.add_succ_comm. by apply (IH _ _ E2).
Qed.
(** The [j]th of these missions is [row], and of all of them only its station
    was running when they were asked one after the other from moment [k] on. *)
Definition only_station (k : nat) (rows : list mission_row) (row : mission_row) : Prop :=
  exists j, rows !! j = Some row /\ forall i r, rows !! i = Some r -> station_probe (k + i) (m_id r) = true <-> i = j.
Lemma with_station_one rows s row s' : with_station rows s = (Ok [row], s') -> only_station (lk_tick s) rows row.
Proof.
  revert s s'. induction rows as [|r rows IH]; intros s s' E; [done|]. cbn [with_station] in E.
  apply bind_inv in E as (live & s1 & E1 & E). apply bind_inv in E as (rest & s2 & E2 & E). injection E1 as <- <-.
  destruct (station_probe _ _) eqn:El.
  - injection E as -> -> <-. exists O. split; [done|]. intros [|i] r' Hr; [injection Hr as <-; by rewrite Nat.add_0_r|].
    pose proof (with_station_none _ _ _ E2 i r' Hr) as Hn. cbn [lk_tick] in Hn. rewrite <-Nat.add_succ_comm, Hn. done.
  - injection E as -> <-. destruct (IH _ _ E2) as (j & Hj & Hall). exists (S j). split; [done|].
    intros [|i] r' Hr; [injection Hr as <-; rewrite Nat.add_0_r, El; done|]. specialize (Hall i r' Hr). cbn [lk_tick] in Hall. rewrite <-Nat.add_succ_comm, Hall. lia.
Qed.
Lemma newest_elem d row : row ∈ missions_newest_first d <-> row ∈ missions d.
Proof. apply elem_of_sort_by. Qed.

(** The rows of the folder that may be meant: the live ones, or all that are unfinished. *)
Definition pool_of (here : string) (d : database) : list mission_row :=
  let candidates := select (fun row => negb (finished row)) (select (fun row => contains_folder (m_cwd row) here) (missions_newest_first d)) in
  or_rows (select live_status candidates) candidates.
Lemma pool_elem here d row : row ∈ pool_of here d -> row ∈ missions d /\ here_in here row /\ finished row = false /\
  (live_status row = true \/ forall row', row' ∈ missions d -> here_in here row' -> finished row' = false -> live_status row' = false).
Proof.
  unfold pool_of. cbv zeta.
  set (candidates := select (fun row => negb (finished row)) _).
  assert (Hc : forall r, r ∈ candidates <-> r ∈ missions d /\ here_in here r /\ finished r = false).
  { intros r. unfold candidates, here_in. rewrite !elem_of_select, newest_elem, negb_true_iff. naive_solver. }
  destruct (select live_status candidates) as [|x l] eqn:El; cbn [or_rows].
  - intros Hr. apply Hc in Hr as (Hr & Hh & Hf). split_and!; [done..|right]. intros row' Hr' Hh' Hf'.
    destruct (live_status row') eqn:E; [|done]. assert (Hin : row' ∈ select live_status candidates) by (apply elem_of_select; split; [by apply Hc|done]).
    rewrite El in Hin. by apply not_elem_of_nil in Hin.
  - rewrite <-El, elem_of_select, Hc. naive_solver.
Qed.
Lemma pool_complete here d row : row ∈ missions d -> here_in here row -> finished row = false -> live_status row = true -> row ∈ pool_of here d.
Proof.
  intros Hr Hh Hf Hl. unfold pool_of. cbv zeta. set (candidates := select (fun row => negb (finished row)) _).
  assert (Hin : row ∈ select live_status candidates).
  { apply elem_of_select. split; [|done]. unfold candidates. rewrite !elem_of_select, newest_elem, negb_true_iff. done. }
  destruct (select live_status candidates); [by apply not_elem_of_nil in Hin|done].
Qed.
Lemma pool_empty here d row : pool_of here d = [] -> row ∈ missions d -> here_in here row -> finished row = true.
Proof.
  unfold pool_of. cbv zeta. set (candidates := select (fun row => negb (finished row)) _). intros Hp Hr Hh.
  destruct (finished row) eqn:Ef; [done|]. assert (Hin : row ∈ candidates) by (unfold candidates; rewrite !elem_of_select, newest_elem, Ef; done).
  destruct (select live_status candidates); cbn [or_rows] in Hp; [|done]. rewrite Hp in Hin. by apply not_elem_of_nil in Hin.
Qed.
Lemma pool_dead here d row : row ∈ missions d -> here_in here row -> finished row = false -> select live_status (pool_of here d) = [] -> row ∈ pool_of here d.
Proof.
  intros Hr Hh Hf. unfold pool_of. cbv zeta. set (candidates := select (fun row => negb (finished row)) _).
  assert (Hin : row ∈ candidates) by (unfold candidates; rewrite !elem_of_select, newest_elem, Hf; done).
  destruct (select live_status candidates) as [|x l] eqn:El; cbn [or_rows]; [done|]. intros E.
  assert (Hx : x ∈ select live_status (x :: l)).
  { apply elem_of_select. split; [left|]. assert (Hx : x ∈ select live_status candidates) by (rewrite El; left). by apply elem_of_select in Hx as [_ Hx]. }
  rewrite E in Hx. by apply not_elem_of_nil in Hx.
Qed.

Definition best_of (here : string) (d : database) (row : mission_row) : Prop :=
  row ∈ missions d /\ here_in here row /\ finished row = false /\
  (live_status row = true \/ forall row', row' ∈ missions d -> here_in here row' -> finished row' = false -> live_status row' = false).
Lemma folder_ok here ro ps s id s' : by_folder here ro ps s = (Ok id, s') ->
  exists row, row ∈ missions (looked s) /\ here_in here row /\ m_id row = id /\
    if finished row then ro = true /\ forall row', row' ∈ missions (looked s) -> here_in here row' -> row' = row
    else best_of here (looked s) row /\
      ((forall row', best_of here (looked s) row' -> row' = row) \/ ps = true /\ only_station (S (lk_tick s)) (pool_of here (looked s)) row).
Proof.
  unfold by_folder. intros E. apply bind_inv in E as (rows & s1 & E1 & E). injection E1 as <- <-. cbv zeta in E.
  fold (looked s) in E. fold (pool_of here (looked s)) in E. set (d := looked s) in *.
  apply bind_inv in E as (pool & s2 & E2 & E).
  assert (Hpool : (forall r, r ∈ pool -> r ∈ pool_of here d) /\ (pool = [] -> pool_of here d = []) /\
    (pool = pool_of here d \/ ps = true /\ forall row, pool = [row] -> only_station (S (lk_tick s)) (pool_of here d) row)).
  { destruct (ps && _) eqn:Eb; [|injection E2 as <- <-; split_and!; auto]. apply bind_inv in E2 as (stations & s3 & E3 & E2). injection E2 as <- <-.
    split_and!.
    - destruct stations as [|r0 st]; [auto|]. intros r Hr. by apply (with_station_sub _ _ _ _ E3).
    - destruct stations; done.
    - destruct stations as [|r0 st]; [by left|right]. apply andb_true_iff in Eb as [-> _]. split; [done|].
      intros row [= -> ->]. by apply with_station_one in E3. }
  destruct Hpool as (Hsub & Hnil & Heq). destruct pool as [|row [|row2 pool]]; [| |].
  - specialize (Hnil eq_refl). unfold nothing_unfinished in E.
    assert (Hall : forall row', row' ∈ missions d -> here_in here row' -> row' ∈ select finished (select (fun row => contains_folder (m_cwd row) here) (missions_newest_first d))).
    { intros row' Hr Hh. rewrite !elem_of_select, newest_elem. split_and!; [done|done|by apply (pool_empty here d)]. }
    destruct (select finished _) as [|row [|row2 l]] eqn:Ef; [done| |].
    + destruct ro; [|apply bind_inv in E as (o & s9 & _ & E); by destruct o]. injection E as <- <-.
      assert (Hrow : row ∈ [row]) by left. rewrite <-Ef, !elem_of_select, newest_elem in Hrow. destruct Hrow as ((Hr & Hh) & Hf).
      exists row. rewrite Hf. split_and!; [done..|]. intros row' Hr' Hh'. specialize (Hall row' Hr' Hh'). by apply list_elem_of_singleton in Hall.
    + destruct ro; apply bind_inv in E as (o & s9 & _ & E); [done|by destruct o].
  - injection E as <- <-. assert (Hrow : row ∈ pool_of here d) by (apply Hsub; left). apply pool_elem in Hrow as (Hr & Hh & Hf & Hl).
    exists row. rewrite Hf. split_and!; [done..|]. destruct Heq as [Heq|[Hps Hst]]; [left|right; split; [done|by apply Hst]].
    intros row' (Hr' & Hh' & Hf' & Hl').
    assert (Hin : row' ∈ pool_of here d).
    { destruct (live_status row') eqn:E'; [by apply pool_complete|]. apply pool_dead; [done..|]. rewrite <-Heq. unfold select. cbn.
      destruct Hl' as [|Hl']; [done|]. by rewrite (Hl' row Hr Hh Hf). }
    rewrite <-Heq in Hin. by apply list_elem_of_singleton in Hin.
  - by apply bind_inv in E as (? & ? & _ & E).
Qed.
Definition prefixed (ref id : string) : Prop := stake (String.length ref) id = ref.
Definition after_look (s : looking) : looking := Looking (S (lk_tick s)) (run_ops (lk_elsewhere (lk_tick s)) (lk_world s)).
Lemma reference_ok ref s id s' : by_reference ref s = (Ok id, s') ->
  id = ref /\ find_mission ref (looked s) <> None \/
  find_mission ref (looked s) = None /\ (MIN_MISSION_PREFIX <= String.length ref)%nat /\
    exists row, row ∈ missions (looked (after_look s)) /\ m_id row = id /\ prefixed ref id /\
      forall row', row' ∈ missions (looked (after_look s)) -> prefixed ref (m_id row') -> row' = row.
Proof.
  unfold by_reference. intros E. apply bind_inv in E as (exact & s1 & E1 & E). injection E1 as <- <-. fold (looked s) in E.
  unfold mission_id_if_exists in E. destruct (find_mission ref (looked s)) as [m|] eqn:Ef; cbn [fmap option_fmap option_map] in E.
  - left. injection E as <- <-. split; [|done]. unfold find_mission in Ef. apply first_Some in Ef as [_ Hm]. by apply bool_decide_eq_true in Hm.
  - right. revert E. destruct (Nat.ltb_spec (String.length ref) MIN_MISSION_PREFIX); intros E; [done|]. split_and!; [done|done|].
    apply bind_inv in E as (rows & s2 & E2 & E). injection E2 as <- <-.
    match type of E with context [missions_with_id_prefix ref ?x] => change x with (looked (after_look s)) in E end. set (d := looked (after_look s)) in *.
    assert (Hmem : forall r, r ∈ missions_with_id_prefix ref d <-> r ∈ missions d /\ prefixed ref (m_id r)).
    { intros r. unfold missions_with_id_prefix, prefixed. rewrite elem_of_select. by rewrite bool_decide_eq_true. }
    destruct (missions_with_id_prefix ref d) as [|row [|row2 l]]; [done| |by apply bind_inv in E as (? & ? & _ & E)].
    injection E as <- <-. exists row. destruct (proj1 (Hmem row)) as [Hr Hp]; [left|]. split_and!; [done..|].
    intros row' Hr' Hp'. by apply list_elem_of_singleton, Hmem.
Qed.
End laws.

(** Missions are listed in the documented order.  What [order_missions]
    answers is the same missions, those with a controller or station first,
    unfinished before finished among those, and the last updated first among
    those - each judged by an answer that its lock and station gave. *)
Theorem missions_in_documented_order (O : Oracle) (L : LookupEnv) (rows out : list mission_row) (s s' : looking) :
  order_missions rows s = (Ok out, s') ->
  exists listed : list (bool * mission_row), out = listed.*2 /\ out ≡ₚ rows /\ StronglySorted in_order listed /\
    Forall (fun r => answered_live (m_id r.2) r.1) listed.
Proof. apply order_ok. Qed.

(** C19: A reference is never resolved to a mission that might not be meant.  An
    id resolves to itself, a prefix of four characters or more to the only
    mission it begins, and a folder to a mission in it: an unfinished one, live
    if any is, which is the only such one or, where a running station may decide
    (attach and detach), the only one of them whose station was running when each
    was asked; or, for reading, the only mission there is, finished.  And the
    only unfinished mission of a folder is always found. *)
Theorem reference_is_unambiguous (O : Oracle) (L : LookupEnv) (here : string) (read_only prefer_station : bool) (s : looking) :
  (forall ref id s', resolve_mission_ref (Some ref) here read_only prefer_station s = (Ok id, s') -> ref <> EmptyString ->
     id = ref /\ find_mission ref (looked s) <> None \/
     find_mission ref (looked s) = None /\ (MIN_MISSION_PREFIX <= String.length ref)%nat /\
       exists row, row ∈ missions (looked (after_look s)) /\ m_id row = id /\ prefixed ref id /\
         forall row', row' ∈ missions (looked (after_look s)) -> prefixed ref (m_id row') -> row' = row) /\
  (forall id s', resolve_mission_ref None here read_only prefer_station s = (Ok id, s') ->
     exists row, row ∈ missions (looked s) /\ here_in here row /\ m_id row = id /\
       if finished row then read_only = true /\ forall row', row' ∈ missions (looked s) -> here_in here row' -> row' = row
       else best_of here (looked s) row /\
         ((forall row', best_of here (looked s) row' -> row' = row) \/
          prefer_station = true /\ only_station (S (lk_tick s)) (pool_of here (looked s)) row)) /\
  (forall row, pool_of here (looked s) = [row] -> resolve_mission_ref None here read_only prefer_station s = (Ok (m_id row), after_look s)).
Proof.
  split_and!.
  - intros ref id s' E Hne. cbn [resolve_mission_ref] in E. unfold truthy_str in E. rewrite bool_decide_false in E by done. by eapply reference_ok.
  - intros id s' E. by eapply folder_ok.
  - intros row Hp. cbn [resolve_mission_ref]. unfold by_folder. erewrite bind_ok by reflexivity. cbv zeta.
    match goal with |- context [or_rows ?a ?b] => change (or_rows a b) with (pool_of here (looked s)) end. by rewrite Hp, andb_false_r.
Qed.

(** ** Three missions *)

Definition quiet_env : LookupEnv := {|
  lock_held _ id := Ok (bool_decide (id = "m1"%string));
  station_probe _ _ := false;
  lk_elsewhere _ := [];
  lk_repr s := s;
|}.
Definition looking_at (w : world) : looking := Looking 0 w.
Lemma missions_in_documented_order_witness : exists out s',
  order_missions (H0 := quiet_env) (missions (w_db (demo_world 3))) (looking_at (demo_world 3)) = (Ok out, s') /\ out ≡ₚ missions (w_db (demo_world 3)).
Proof.
  destruct (order_missions (H0 := quiet_env) (missions (w_db (demo_world 3))) (looking_at (demo_world 3))) as [r s'] eqn:E.
  destruct r as [out|e]; [|by vm_compute in E]. exists out, s'. split; [done|].
  destruct (missions_in_documented_order demo_oracle quiet_env (missions (w_db (demo_world 3))) out (looking_at (demo_world 3)) s' E) as (_ & _ & Hp & _). exact Hp.
Defined.
Example mission_of_the_folder :
  (resolve_mission_ref (H := demo_oracle) (H0 := quiet_env) None "/r/src" false false (looking_at (demo_world 3))).1 = Ok "m1"%string.
Proof. vm_compute. reflexivity. Qed.
