(* ===== verification/Regex.v ===== *)
(** * Regular expressions as the code uses them

    The source searches text with Python's [re].  A pattern here is data, and
    matching is the backtracking semantics with a continuation, so that only
    whether there is a match is asked; a pattern that ignores case is matched
    against the folded text.  [Chars] are the classes of characters that a
    pattern names; [latin] is what they are below code point 256, where the
    strings of [Py] live. *)

From Stdlib Require Import Ascii.
From S2P Require Import Prelude Py Bytes.
From stdpp Require Import options.
Local Open Scope Z_scope.

(** [\s], [\w], [\d] and simple case folding. *)
Class Chars : Type := {
  ch_space : Z -> bool;
  ch_word : Z -> bool;
  ch_digit : Z -> bool;
  ch_fold : Z -> Z;
}.

(** One character of a class; a sequence; a choice; an optional part; any
    number of a class, or up to [n]; [\b]; [$] at the end of the text; [^] and
    [$] of a line. *)
Inductive rx : Type :=
  | One (p : Z -> bool)
  | Then (a b : rx)
  | Either (a b : rx)
  | Maybe (a : rx)
  | Many (p : Z -> bool)
  | Upto (n : nat) (p : Z -> bool)
  | Edge
  | AtEnd
  | LineStart
  | LineEnd.

Section matching.
Context `{Chars}.

Definition edge (prev : option Z) (s : text) : bool :=
  xorb (match prev with Some c => ch_word c | None => false end) (match s with c :: _ => ch_word c | [] => false end).
Definition line_start (prev : option Z) : bool := match prev with Some c => c =? 10 | None => true end.
Definition line_end (s : text) : bool := match s with c :: _ => c =? 10 | [] => true end.
Fixpoint rx_match (r : rx) (prev : option Z) (s : text) (k : option Z -> text -> bool) : bool :=
  match r with
  | One p => match s with c :: s' => if p c then k (Some c) s' else false | [] => false end
  | Then a b => rx_match a prev s (fun prev s => rx_match b prev s k)
  | Either a b => if rx_match a prev s k then true else rx_match b prev s k
  | Maybe a => if rx_match a prev s k then true else k prev s
  | Many p =>
      (fix go (prev : option Z) (s : text) : bool :=
         if k prev s then true else match s with c :: s' => if p c then go (Some c) s' else false | [] => false end) prev s
  | Upto n p =>
      (fix go (n : nat) (prev : option Z) (s : text) : bool :=
         if k prev s then true else match n, s with S n', c :: s' => if p c then go n' (Some c) s' else false | _, _ => false end) n prev s
  | Edge => if edge prev s then k prev s else false
  | AtEnd => match s with [] => k prev s | _ => false end
  | LineStart => if line_start prev then k prev s else false
  | LineEnd => if line_end s then k prev s else false
  end.
Fixpoint rx_from (r : rx) (prev : option Z) (s : text) : bool :=
  if rx_match r prev s (fun _ _ => true) then true else match s with c :: s' => rx_from r (Some c) s' | [] => false end.
(** [re.search] and [re.match]. *)
Definition search (r : rx) (s : text) : bool := rx_from r None s.
Definition matches (r : rx) (s : text) : bool := rx_match r None s (fun _ _ => true).
(** [re.search] with [re.IGNORECASE], the pattern in lower case. *)
Definition search_folded (r : rx) (s : text) : bool := search r (ch_fold <$> s).

Definition lit_char (c : Z) : rx := One (fun x => x =? c).
Definition Empty : rx := Upto 0 (fun _ => false).
Fixpoint seq_ (l : list rx) : rx := match l with [] => Empty | [r] => r | r :: l => Then r (seq_ l) end.
Fixpoint any_ (l : list rx) : rx := match l with [] => One (fun _ => false) | [r] => r | r :: l => Either r (any_ l) end.
Definition lit (s : string) : rx := seq_ (lit_char <$> b_ s).
Definition spaces : rx := Many ch_space.
Definition char_in (l : list Z) (c : Z) : bool := existsb (Z.eqb c) l.
Definition in_ (s : string) : rx := One (char_in (b_ s)).
Definition not_in (s : string) : Z -> bool := fun c => negb (char_in (b_ s) c).

(** ** What a match needs *)

(** [r] matches nothing without a character of [p], and fails without it. *)
Fixpoint needs (p : Z -> bool) (r : rx) : Prop :=
  match r with
  | One q => forall c, q c = true -> p c = true
  | Then a b => needs p a \/ needs p b
  | Either a b => needs p a /\ needs p b
  | _ => False
  end.
Lemma needs_match p r : needs p r -> forall prev s k, rx_match r prev s k = true -> existsb p s = true.
Proof.
  assert (Hskip : forall r prev s k, rx_match r prev s k = true -> exists prev' s', k prev' s' = true /\ s' `suffix_of` s).
  { clear. intros r. induction r as [q|a IHa b IHb|a IHa b IHb|a IHa|q|n q| | | |]; intros prev s k; cbn [rx_match].
    - destruct s as [|c s]; [done|]. intros [_ Hk]%andb_true_iff. exists (Some c), s. split; [done|]. by exists [c].
    - intros (p1 & s1 & (p2 & s2 & Hk & Hs2)%IHb & Hs1)%IHa. exists p2, s2. split; [done|by etrans].
    - intros [?%IHa|?%IHb]%orb_true_iff; done.
    - intros [?%IHa|Hk]%orb_true_iff; [done|by exists prev, s].
    - revert prev. induction s as [|c s IH]; intros prev; [intros [Hk|?]%orb_true_iff; [by exists prev, []|done]|].
      intros [Hk|[_ (p1 & s1 & Hk & Hs)%IH]%andb_true_iff]%orb_true_iff; [by exists prev, (c :: s)|].
      exists p1, s1. split; [done|]. etrans; [done|by exists [c]].
    - revert prev s. induction n as [|n IH]; intros prev s; [intros [Hk|?]%orb_true_iff; [by exists prev, s|done]|].
      intros [Hk|Hk]%orb_true_iff; [by exists prev, s|]. destruct s as [|c s]; [done|]. apply andb_true_iff in Hk as [_ (p1 & s1 & Hk & Hs)%IH].
      exists p1, s1. split; [done|]. etrans; [done|by exists [c]].
    - intros [_ Hk]%andb_true_iff. by exists prev, s.
    - destruct s; [intros Hk; by exists prev, []|done].
    - intros [_ Hk]%andb_true_iff. by exists prev, s.
    - intros [_ Hk]%andb_true_iff. by exists prev, s. }
  induction r as [q|a IHa b IHb|a IHa b IHb|a IHa|q|n q| | | |]; cbn [needs]; intros Hn prev s k Hm; try done; cbn [rx_match] in Hm.
  - destruct s as [|c s]; [done|]. apply andb_true_iff in Hm as [Hq _]. cbn [existsb]. by rewrite (Hn c Hq).
  - destruct Hn as [Hn|Hn]; [by eapply IHa|]. apply Hskip in Hm as (p1 & s1 & Hb & (s0 & ->)). rewrite existsb_app, (IHb Hn _ _ _ Hb). apply orb_true_r.
  - destruct Hn as [Hna Hnb]. apply orb_true_iff in Hm as [?|?]; eauto.
Qed.
Lemma needs_search p r s : needs p r -> search r s = true -> existsb p s = true.
Proof.
  intros Hn. unfold search. generalize (@None Z). induction s as [|c s IH]; intros prev; cbn [rx_from existsb].
  - intros [Hm|?]%orb_true_iff; [|done]. by apply (needs_match p) in Hm.
  - intros [Hm|?%IH]%orb_true_iff; [by apply (needs_match p) in Hm|]. apply orb_true_iff. by right.
Qed.
(** ** Lines and words of a text *)

Definition strip_text (p : Z -> bool) (s : text) : text :=
  let skip := fix skip (s : text) : text := match s with c :: s' => if p c then skip s' else s | [] => [] end in
  rev (skip (rev (skip s))).
Definition rstrip_text (p : Z -> bool) (s : text) : text :=
  let skip := fix skip (s : text) : text := match s with c :: s' => if p c then skip s' else s | [] => [] end in
  rev (skip (rev s)).
Definition LINE_BREAKS : list Z := [10; 11; 12; 13; 28; 29; 30; 133; 8232; 8233].
(** [str.splitlines]: a carriage return and a line feed are one break. *)
Fixpoint split_text_lines (line : text) (s : text) : list text :=
  match s with
  | [] => if bool_decide (line = []) then [] else [rev line]
  | c :: s' =>
      if bool_decide (c ∈ LINE_BREAKS) then
        rev line :: (match s' with
                     | d :: s'' => if (c =? 13) && (d =? 10) then split_text_lines [] s'' else split_text_lines [] s'
                     | [] => []
                     end)
      else split_text_lines (c :: line) s'
  end.
Fixpoint first_text_word (s : text) : text := match s with c :: s' => if ch_space c then [] else c :: first_text_word s' | [] => [] end.
(** [line.strip()] and [line.rstrip()]; the lines that are not blank. *)
Definition blank_text (line : text) : bool := bool_decide (strip_text ch_space line = []).
Definition written_lines (s : text) : list text := select (fun line => negb (blank_text line)) (split_text_lines [] s).
(** [l[-n:]] for [n > 0]. *)
Definition last_of {A} (n : nat) (l : list A) : list A := drop (length l - n) l.
Definition join_text (sep : Z) (lines : list text) : text :=
  match lines with [] => [] | line :: lines => foldl (fun acc line => acc ++ sep :: line) line lines end.
Definition text_starts (prefix s : text) : bool := bool_decide (take (length prefix) s = prefix).
End matching.

(** ** Strings *)

(** The code points of a [Py] string. *)
Definition points (s : string) : text := b_ s.
Definition in_range (a b c : Z) : bool := (a <=? c) && (c <=? b).
#[export] Instance latin : Chars := {|
  ch_space c := in_range 9 13 c || in_range 28 32 c || (c =? 133) || (c =? 160);
  ch_word c := in_range 48 57 c || in_range 65 90 c || in_range 97 122 c || (c =? 95) || char_in [170; 178; 179; 181; 185; 186; 188; 189; 190] c ||
    in_range 192 214 c || in_range 216 246 c || in_range 248 255 c;
  ch_digit c := in_range 48 57 c;
  ch_fold c := if in_range 65 90 c then c + 32 else c;
|}.
