(* ===== verification/Trace.v ===== *)
(** * Traces of a computation

    A computation whose state keeps a list of events only ever adds to it.
    [traced m Q] says what [m] ends with, which events it adds and in which
    state, whether it answers or raises. *)

From S2P Require Import Prelude.
From stdpp Require Import options.

Section traced.
Context {E S Ev : Type} (events : S -> list Ev).

Definition traced {A} (m : ST E S A) (Q : result E A -> list Ev -> S -> Prop) (s : S) : Prop :=
  ends m (fun r s' => exists evs, events s' = events s ++ evs /\ Q r evs s') s.
Definition silent (s s' : S) : Prop := events s' = events s.
#[export] Instance silent_preorder : PreOrder silent.
Proof. split; unfold silent; [done|congruence]. Qed.

Lemma traced_ret {A} (a : A) (Q : result E A -> list Ev -> S -> Prop) s : Q (Ok a) [] s -> traced (mret a) Q s.
Proof. intros HQ. exists []. by rewrite app_nil_r. Qed.
Lemma traced_raise {A} e (Q : result E A -> list Ev -> S -> Prop) s : Q (Raise e) [] s -> traced (raise e) Q s.
Proof. intros HQ. exists []. by rewrite app_nil_r. Qed.
Lemma traced_bind {A B} (m : ST E S A) (f : A -> ST E S B) (Q : result E B -> list Ev -> S -> Prop) s :
  traced m (fun r evs s' => match r with Ok a => traced (f a) (fun r' evs' s'' => Q r' (evs ++ evs') s'') s' | Raise e => Q (Raise e) evs s' end) s ->
  traced (m ≫= f) Q s.
Proof.
  unfold traced at 1 3, ends, mbind, ST_bind. destruct (m s) as [[a|e] s1]; cbn [fst snd].
  - intros (e1 & X1 & (e2 & X2 & HQ)). exists (e1 ++ e2). by rewrite X2, X1, app_assoc.
  - intros (e1 & X1 & HQ). by exists e1.
Qed.
Lemma traced_mono {A} (m : ST E S A) (Q Q' : result E A -> list Ev -> S -> Prop) s :
  traced m Q s -> (forall r evs s', Q r evs s' -> Q' r evs s') -> traced m Q' s.
Proof. intros (evs & T & HQ) Hi. exists evs. auto. Qed.
(** A step that is silent and keeps [R]. *)
Lemma traced_silent {A} (R : S -> S -> Prop) (m : ST E S A) (Q : result E A -> list Ev -> S -> Prop) s :
  keeps silent m -> keeps R m -> (forall r s', R s s' -> m s = (r, s') -> Q r [] s') -> traced m Q s.
Proof.
  intros Hm HR HQ. exists []. rewrite app_nil_r. split; [apply Hm|]. apply HQ; [apply HR|]. by destruct (m s).
Qed.
Lemma traced_skip {A B} (R : S -> S -> Prop) (m : ST E S A) (f : A -> ST E S B) (Q : result E B -> list Ev -> S -> Prop) s :
  keeps silent m -> keeps R m -> (forall e s', R s s' -> m s = (Raise e, s') -> Q (Raise e) [] s') ->
  (forall a s', R s s' -> m s = (Ok a, s') -> traced (f a) Q s') -> traced (m ≫= f) Q s.
Proof. intros Hm HR He Hf. apply traced_bind, (traced_silent R); [done..|]. intros [a|e] s' Hs Em; [by apply Hf|by apply He]. Qed.
Lemma traced_run {A} (m : ST E S A) (Q : result E A -> list Ev -> S -> Prop) s r s' : traced m Q s -> m s = (r, s') ->
  exists evs, events s' = events s ++ evs /\ Q r evs s'.
Proof. unfold traced, ends. intros HQ Em. by rewrite Em in HQ. Qed.
End traced.
