(* ===== verification/Finish.v ===== *)
(** * Finishing a native task ([bridge_finish.py])

    The provider's own exit command is typed into its pane once the pane has
    been read and its composer looks idle; then its end is awaited. *)

From Stdlib Require Import QArith.
From S2P Require Import Prelude Py Bytes Vocab States StoreData StoreTasks StoreOps StoreReview StoreLog StoreApi Regex.
From stdpp Require Import options.
Local Open Scope Z_scope.

(** What the environment answers: the classes of characters; other processes'
    calls; the pane and its session; loading the handle of the station; a
    monotonic clock and the sum of floats; environment variables; TOML. *)
Class FinishEnv : Type := {
  fe_chars :: Chars;
  fe_elsewhere : nat -> list op;
  fe_handle : nat -> result exn unit;
  fe_alive : nat -> result exn bool;
  fe_session : nat -> result exn bool;
  fe_capture : nat -> result exn text;
  fe_send : nat -> result exn unit;
  fe_clock : nat -> Q;
  fe_plus : Q -> Q -> Q;
  fe_getenv : string -> option string;
  fe_toml : string -> option json;
}.

(** The screen was read; these keys were sent. *)
Inductive finish_event : Type := F_read (screen : text) | F_keys (keys : text).
(** [FinishError]; another exception; or still waiting when the fuel is used up. *)
Inductive finish_stop : Type := FinishError (msg : string) | Failed (e : exn) | Unfinished.
Record finishing : Type := Finishing { f_tick : nat; f_events : list finish_event; f_world : world }.
Abbreviation FM := (ST finish_stop finishing).
Record FinishResult : Type := FinishedAs {
  fr_mission : string;
  fr_provider : string;
  fr_task : Z;
  fr_command : string;
  fr_status : TaskStatus;
  fr_detail : string;
}.

Section finish.
Context `{Oracle} `{FinishEnv}.

(** ** The screen *)

Definition SCREEN_TAIL_LINES : nat := 12.
(** Searched in the folded text: the patterns ignore case. *)
Definition APPROVAL_PATTERNS : list rx := [
  lit "do you want to"; lit "do you trust"; seq_ [Edge; lit "allow"; Edge];
  seq_ [Maybe (lit "["); Maybe (lit "("); lit "y/n"; Maybe (lit ")"); Maybe (lit "]")];
  seq_ [Edge; lit "1."; spaces; lit "yes"; Edge];
  seq_ [lit "yes, and "; Either (lit "don't") (lit "do not"); lit " ask"];
  lit "esc to cancel"; lit "enter to confirm"; seq_ [Edge; lit "approve"; Edge]].
Definition BARS : list Z := [9474; 9475; 124].
Definition PROMPTS : list Z := [8250; 10095; 62].
Definition COMPOSER_LINE : rx :=
  seq_ [Many (fun c => ch_space c || bool_decide (c ∈ BARS)); One (fun c => bool_decide (c ∈ PROMPTS)); Either (One ch_space) AtEnd].

Definition _tail (screen : text) : list text :=
  last_of SCREEN_TAIL_LINES (rstrip_text ch_space <$> written_lines screen).
Definition composer_is_idle (screen : text) : bool :=
  let tail := _tail screen in
  if bool_decide (tail = []) then false
  else if existsb (fun line => existsb (fun pattern => search_folded pattern line) APPROVAL_PATTERNS) tail then false
  else existsb (matches COMPOSER_LINE) tail.
Definition POPUP_MARKS : list Z := [32; 9; 9474; 9475; 124; 9654; 9656; 9658; 8250; 10095; 62].
Fixpoint popup_entry (lines : list text) (command : text) : bool :=
  match lines with
  | [] => false
  | line :: lines =>
      if matches COMPOSER_LINE line then popup_entry lines command
      else
        let entry := strip_text (fun c => bool_decide (c ∈ POPUP_MARKS)) line in
        match entry with
        | 47 :: _ => bool_decide (first_text_word entry = command)
        | _ => popup_entry lines command
        end
  end.
Definition exit_popup_open (screen : text) (command : text) : bool := popup_entry (_tail screen) command.

(** ** The exit command *)

Definition DEFAULT_EXIT_COMMANDS : list (string * string) := [("claude", "/exit"); ("codex", "/quit"); ("copilot", "/exit")]%string.
Definition finish_variable (provider : string) : string :=
  ("LLM_BRIDGE_FINISH_" +:+ smap (fun c => if is_alnum c then c else Ascii.ascii_of_nat 95) (upper provider))%string.
Definition exit_command (provider : string) : option string :=
  let override := strip (default EmptyString (fe_getenv (finish_variable provider))) in
  if truthy_str override then Some override else list_to_map (M := gmap string string) DEFAULT_EXIT_COMMANDS !! provider.
(** [provider_of_station] of bridge_switcher.py. *)
Definition provider_of_station (config : dict) (station : string) : string :=
  if negb (truthy_str station) then "-"%string
  else
    let parsed := match dget "frozen_tool_config" config with
                  | Some (JStr frozen) => if truthy_str frozen then fe_toml frozen else Some (JObj [])
                  | _ => Some (JObj [])
                  end in
    match parsed with
    | Some (JObj parsed) =>
        match dget "routes" parsed with
        | Some (JObj routes) =>
            match dget station routes with
            | Some (JObj details) => match dget "provider" details with Some (JStr p) => if truthy_str p then p else station | _ => station end
            | _ => station
            end
        | _ => station
        end
    | _ => station
    end.

(** ** Looking at the database, the pane and the clock *)

Definition ask_pane {A} (f : nat -> result exn A) : FM (result exn A) := fun s => (Ok (f (f_tick s)), Finishing (S (f_tick s)) (f_events s) (f_world s)).
Definition clock_now : FM Q := fun s => (Ok (fe_clock (f_tick s)), Finishing (S (f_tick s)) (f_events s) (f_world s)).
Definition store_call {A} (m : DB A) : FM A := fun s =>
  let '(r, w) := m (run_ops (fe_elsewhere (f_tick s)) (f_world s)) in
  (match r with Ok a => Ok a | Raise e => Raise (Failed e) end, Finishing (S (f_tick s)) (f_events s) w).
Definition happened (e : finish_event) : FM unit := modify (fun s => Finishing (f_tick s) (f_events s ++ [e]) (f_world s)).
Definition must {A} (f : nat -> result exn A) : FM A := answer ← ask_pane f; match answer with Ok a => mret a | Raise e => raise (Failed e) end.
(** [(OSError, RuntimeError, PermissionError)]. *)
Definition vanished (e : exn) : bool := match e with OSError _ | RuntimeError _ => true | _ => false end.
Definition refuse {A} (msg : string) : FM A := raise (FinishError msg).

Definition active_operation_of (mission_id : string) (d : database) : option operation_row :=
  last (select (fun o => bool_decide (o_mission o = mission_id) && active_op o) (operations d)).
Definition _active_operation (mission_id : string) : FM (option operation_row) := store_call (read (active_operation_of mission_id)).
Definition _operation_active (operation_id : string) : FM bool :=
  store_call (read (fun d => match find_operation operation_id d with Some o => active_op o | None => false end)).

(** ** Typing *)

Definition ENTER : text := b_ "Enter".
(** Sending keys and reading the screen; [None] when the pane is gone. *)
Definition send_keys (keys : text) : FM (option unit) :=
  answer ← ask_pane fe_send;
  match answer with
  | Ok _ => happened (F_keys keys) ;; mret (Some tt)
  | Raise e => if vanished e then mret None else raise (Failed e)
  end.
Definition key_if_popup (command : text) : FM (option unit) :=
  alive ← ask_pane fe_alive;
  match alive with
  | Raise e => if vanished e then mret None else raise (Failed e)
  | Ok false => mret (Some tt)
  | Ok true =>
      screen ← ask_pane fe_capture;
      match screen with
      | Raise e => if vanished e then mret None else raise (Failed e)
      | Ok screen => happened (F_read screen) ;; if exit_popup_open screen command then send_keys ENTER else mret (Some tt)
      end
  end.
(** A pause only takes time. *)
Inductive exit_step : Type := S_text | S_key (keys : text) | S_pause | S_key_if_popup.
Definition EXIT_STEPS : list exit_step := [S_text; S_key ENTER; S_pause; S_key_if_popup].
Definition run_step (command : text) (step : exit_step) : FM (option unit) :=
  match step with
  | S_text => send_keys command
  | S_key keys => send_keys keys
  | S_pause => mret (Some tt)
  | S_key_if_popup => key_if_popup command
  end.
Fixpoint run_steps (command : text) (steps : list exit_step) : FM unit :=
  match steps with
  | [] => mret tt
  | step :: steps => went ← run_step command step; match went with Some _ => run_steps command steps | None => mret tt end
  end.

(** ** Waiting for the end *)

Definition provider_gone (operation_id : string) : FM bool :=
  active ← _operation_active operation_id;
  if negb active then mret true
  else
    session ← ask_pane fe_session;
    match session with
    | Raise e => if vanished e then mret true else raise (Failed e)
    | Ok false => mret true
    | Ok true =>
        alive ← ask_pane fe_alive;
        match alive with Raise e => if vanished e then mret true else raise (Failed e) | Ok alive => mret (negb alive) end
    end.
Definition NOT_EXITED_MESSAGE : string := "Provider did not exit · switch to it with Ctrl-] then P".
Definition ASKING_MESSAGE : string := "Provider is asking something — switch to it with Ctrl-] then P".
Fixpoint await_exit (fuel : nat) (operation_id : string) (deadline : Q) : FM unit :=
  match fuel with
  | O => raise Unfinished
  | S fuel =>
      gone ← provider_gone operation_id;
      if gone : bool then mret tt
      else now ← clock_now; if Qle_bool deadline now then refuse NOT_EXITED_MESSAGE else await_exit fuel operation_id deadline
  end.
Definition task_status (task_id : Z) : FM TaskStatus := task ← store_call (get_task task_id); mret (t_status (td_row task)).
Fixpoint await_task (fuel : nat) (task_id : Z) (settle : Q) (status : TaskStatus) : FM TaskStatus :=
  match fuel with
  | O => raise Unfinished
  | S fuel =>
      if bool_decide (status = T_RUNNING) then
        now ← clock_now;
        if Qle_bool settle now then mret status else status ← task_status task_id; await_task fuel task_id settle status
      else mret status
  end.

(** ** The whole of it *)

Definition screen_checked : FM unit :=
  if bool_decide (fe_getenv "LLM_BRIDGE_FINISH_SKIP_CHECK" = Some "1"%string) then mret tt
  else
    screen ← ask_pane fe_capture;
    match screen with
    | Ok screen => happened (F_read screen) ;; if composer_is_idle screen then mret tt else refuse ASKING_MESSAGE
    | Raise e => if vanished e then refuse ASKING_MESSAGE else raise (Failed e)
    end.
Definition after_typing (fuel : nat) (mission_id provider command : string) (operation : operation_row) (timeout : Q) : FM FinishResult :=
  start ← clock_now;
  await_exit fuel (o_id operation) (fe_plus start timeout) ;;
  settled ← clock_now;
  status ← task_status (o_task operation);
  status ← await_task fuel (o_task operation) (fe_plus settled 5) status;
  task ← store_call (get_task (o_task operation));
  mret (FinishedAs mission_id provider (o_task operation) command status
    ("Provider exited · task " +:+ show_Z (t_ordinal (td_row task)) +:+ " is now " +:+ str status)).
Definition command_text (command : string) : text := default [] (utf8_decode (b_ command)).
Definition finish_mission (fuel : nat) (mission_id : string) (timeout : option Q) : FM FinishResult :=
  mission ← store_call (get_mission mission_id);
  let config := m_config mission in
  if truthy_opt (dget "headless" config) || negb (truthy_opt (dget "native_tui" config)) then
    refuse "Finish applies to native providers only · this mission runs headless provider work"
  else
    operation ← _active_operation mission_id;
    match operation with
    | None => refuse "No provider is running for this mission · nothing to finish"
    | Some operation =>
        let provider := provider_of_station config (match o_route_id operation ≫= opt_str with Some r => r | None => o_station operation end) in
        match exit_command provider with
        | None =>
            refuse ("No exit command is known for " +:+ provider +:+ " · set LLM_BRIDGE_FINISH_" +:+ upper provider +:+
                    " or switch to it with Ctrl-] then P and exit it there")
        | Some command =>
            handle ← ask_pane fe_handle;
            match handle with
            | Raise (RuntimeError msg) => refuse msg
            | Raise e => raise (Failed e)
            | Ok _ =>
                alive ← must fe_alive;
                if negb alive then refuse "The provider pane is not running · nothing to finish"
                else
                  screen_checked ;;
                  run_steps (command_text command) EXIT_STEPS ;;
                  after_typing fuel mission_id provider command operation (default 10%Q timeout)
            end
        end
    end.
End finish.
