(* ===== verification/FinishLaws.v ===== *)
(** * Laws of finishing a native task

    Nothing is typed into a pane that was not read and idle; an answer means
    that the provider is gone; and there always is an answer. *)

From Stdlib Require Import QArith Qround.
From S2P Require Import Prelude Py Bytes Vocab States StoreData StoreTasks StoreOps StoreReview StoreLog StoreApi StoreDemo Regex Finish.
From stdpp Require Import options.
Local Open Scope Z_scope.

Section laws.
Context `{Oracle} `{FinishEnv}.

(** ** The events of a run *)

Definition shows {A} (m : FM A) (Q : result finish_stop A -> list finish_event -> Prop) (s : finishing) : Prop :=
  ends m (fun r s' => exists evs, f_events s' = f_events s ++ evs /\ Q r evs) s.
Definition still (s s' : finishing) : Prop := f_events s' = f_events s.
#[local] Instance still_preorder : PreOrder still.
Proof. split; unfold still; [done|congruence]. Qed.

Lemma shows_ret {A} (a : A) (Q : result finish_stop A -> list finish_event -> Prop) s : Q (Ok a) [] -> shows (mret a) Q s.
Proof. intros HQ. exists []. by rewrite app_nil_r. Qed.
Lemma shows_raise {A} e (Q : result finish_stop A -> list finish_event -> Prop) s : Q (Raise e) [] -> shows (raise e) Q s.
Proof. intros HQ. exists []. by rewrite app_nil_r. Qed.
Lemma shows_bind {A B} (m : FM A) (f : A -> FM B) (Q : result finish_stop B -> list finish_event -> Prop) s :
  shows m (fun r evs => match r with Ok a => forall s', shows (f a) (fun r' evs' => Q r' (evs ++ evs')) s' | Raise e => Q (Raise e) evs end) s -> shows (m ≫= f) Q s.
Proof.
  unfold shows at 1 3, ends, mbind, ST_bind. destruct (m s) as [[a|e] s1]; cbn [fst snd].
  - intros (e1 & X1 & HQ). destruct (HQ s1) as (e2 & X2 & HQ2). exists (e1 ++ e2). by rewrite X2, X1, app_assoc.
  - intros (e1 & X1 & HQ). by exists e1.
Qed.
Lemma shows_mono {A} (m : FM A) (Q Q' : result finish_stop A -> list finish_event -> Prop) s : shows m Q s -> (forall r evs, Q r evs -> Q' r evs) -> shows m Q' s.
Proof. intros (evs & T & HQ) Hi. exists evs. auto. Qed.
Lemma shows_still {A} (m : FM A) (Q : result finish_stop A -> list finish_event -> Prop) s : keeps still m -> (forall r, Q r []) -> shows m Q s.
Proof. intros Hm HQ. exists []. rewrite app_nil_r. split; [apply Hm|apply HQ]. Qed.
(** A step without events. *)
Lemma shows_skip {A B} (m : FM A) (f : A -> FM B) (Q : result finish_stop B -> list finish_event -> Prop) s : keeps still m ->
  (forall e, Q (Raise e) []) -> (forall a s', shows (f a) Q s') -> shows (m ≫= f) Q s.
Proof. intros Hm He Hf. apply shows_bind, shows_still; [done|]. intros [a|e]; [|apply He]. intros s'. apply Hf. Qed.
(** A look that leaves no event, with what it answered. *)
Lemma shows_look {A B} (m : FM A) (f : A -> FM B) (Q : result finish_stop B -> list finish_event -> Prop) s : keeps still m ->
  (forall e, Q (Raise e) []) -> (forall a s', m s = (Ok a, s') -> shows (f a) Q s') -> shows (m ≫= f) Q s.
Proof.
  intros Hm He Hf. specialize (Hm s). unfold shows, ends, mbind, ST_bind in *. destruct (m s) as [[a|e] s1] eqn:E; cbn in Hm |- *.
  - destruct (Hf a s1 eq_refl) as (evs & T & HQ). exists evs. by rewrite T, Hm.
  - exists []. rewrite app_nil_r. by split.
Qed.
Lemma shows_event {B} e (f : unit -> FM B) (Q : result finish_stop B -> list finish_event -> Prop) s :
  (forall s', shows (f tt) (fun r evs => Q r (e :: evs)) s') -> shows (happened e ≫= f) Q s.
Proof. intros Hf. apply shows_bind. exists [e]. split; [done|]. intros s'. apply Hf. Qed.

Lemma still_pane {A} (f : nat -> result exn A) : keeps still (ask_pane f).
Proof. done. Qed.
Lemma still_clock : keeps still clock_now.
Proof. done. Qed.
Lemma still_store {A} (m : DB A) : keeps still (store_call m).
Proof. intros s. unfold store_call. by destruct (m _). Qed.
#[local] Hint Resolve still_pane still_clock still_store : py_keeps.
Lemma still_must {A} (f : nat -> result exn A) : keeps still (must f).
Proof using All. unfold must. solve_keeps. Qed.
Lemma still_refuse {A} msg : keeps still (refuse msg : FM A).
Proof. apply keeps_raise. exact _. Qed.
#[local] Hint Resolve still_must still_refuse : py_keeps.
Lemma still_gone id : keeps still (provider_gone id).
Proof. unfold provider_gone, _operation_active. solve_keeps. Qed.
#[local] Hint Resolve still_gone : py_keeps.
Lemma still_exit fuel id deadline : keeps still (await_exit fuel id deadline).
Proof. induction fuel as [|fuel IH]; cbn [await_exit]; solve_keeps. Qed.
Lemma still_status id : keeps still (task_status id).
Proof. unfold task_status. solve_keeps. Qed.
#[local] Hint Resolve still_exit still_status : py_keeps.
Lemma still_task fuel id settle status : keeps still (await_task fuel id settle status).
Proof. revert status. induction fuel as [|fuel IH]; intros status; cbn [await_task]; solve_keeps. Qed.
#[local] Hint Resolve still_task : py_keeps.
Lemma still_after fuel m p c o t : keeps still (after_typing fuel m p c o t).
Proof. unfold after_typing. solve_keeps. Qed.

(** ** What is typed *)

(** The command; then Enter; then, after the screen was read again and shows
    the popup with the command first, Enter once more. *)
Definition typing (command : text) (evs : list finish_event) : Prop :=
  evs = [] \/ evs = [F_keys command] \/ evs = [F_keys command; F_keys ENTER] \/
  exists screen, evs = [F_keys command; F_keys ENTER; F_read screen] \/
    exit_popup_open screen command = true /\ evs = [F_keys command; F_keys ENTER; F_read screen; F_keys ENTER].
Definition skips_check : Prop := fe_getenv "LLM_BRIDGE_FINISH_SKIP_CHECK" = Some "1"%string.
#[local] Instance skips_check_dec : Decision skips_check.
Proof. unfold skips_check. apply _. Defined.
(** Nothing before a reading of an idle composer, unless the check is off. *)
Definition typed_sighted (command : text) (evs : list finish_event) : Prop :=
  evs = [] \/
  if decide skips_check then typing command evs
  else exists screen rest, evs = F_read screen :: rest /\ if composer_is_idle screen then typing command rest else rest = [].

Lemma shows_send keys (Q : result finish_stop (option unit) -> list finish_event -> Prop) s :
  Q (Ok None) [] -> (forall e, Q (Raise e) []) -> Q (Ok (Some tt)) [F_keys keys] -> shows (send_keys keys) Q s.
Proof.
  intros Hn He Hs. unfold send_keys. apply shows_skip; [apply still_pane|done|]. intros [u|e] s1.
  - apply shows_event. intros s2. by apply shows_ret.
  - destruct (vanished e); [by apply shows_ret|by apply shows_raise].
Qed.
Lemma shows_popup command (Q : result finish_stop (option unit) -> list finish_event -> Prop) s :
  (forall r, Q r []) -> (forall r screen, Q r [F_read screen]) ->
  (forall r screen, exit_popup_open screen command = true -> Q r [F_read screen; F_keys ENTER]) -> shows (key_if_popup command) Q s.
Proof.
  intros H0' H1' H2'. unfold key_if_popup. apply shows_skip; [apply still_pane|done|]. intros [[]|e] s1.
  - apply shows_skip; [apply still_pane|done|]. intros [screen|e] s2.
    + apply shows_event. intros s3. destruct (exit_popup_open screen command) eqn:Ep; [|by apply shows_ret]. apply shows_send; auto.
    + destruct (vanished e); [by apply shows_ret|by apply shows_raise].
  - by apply shows_ret.
  - destruct (vanished e); [by apply shows_ret|by apply shows_raise].
Qed.
Lemma steps_typing command s : shows (run_steps command EXIT_STEPS) (fun _ evs => typing command evs) s.
Proof.
  cbn [run_steps EXIT_STEPS run_step]. apply shows_bind, shows_send; [|by left|].
  { intros s1. apply shows_ret. by left. }
  intros s1. apply shows_bind, shows_send; [|by right; left|].
  { intros s2. apply shows_ret. right. by left. }
  intros s2. apply shows_bind, shows_ret. intros s3. apply shows_bind, shows_popup.
  - intros [[u|]|e]; [intros s4; apply shows_ret| intros s4; apply shows_ret|]; right; right; by left.
  - intros [[u|]|e] screen; [intros s4; apply shows_ret| intros s4; apply shows_ret|]; right; right; right; exists screen; by left.
  - intros [[u|]|e] screen Hp; [intros s4; apply shows_ret| intros s4; apply shows_ret|]; right; right; right; exists screen; by right.
Qed.
Lemma check_sighted {B} (f : unit -> FM B) command s : (forall s', shows (f tt) (fun _ evs => typing command evs) s') ->
  shows (screen_checked ≫= f) (fun _ evs => typed_sighted command evs) s.
Proof.
  intros Hf. unfold screen_checked, typed_sighted. apply shows_bind. destruct (decide skips_check) as [Hk|Hk].
  - rewrite bool_decide_true by done. apply shows_ret. intros s1. eapply shows_mono; [apply Hf|]. by right.
  - rewrite bool_decide_false by done. apply shows_skip; [apply still_pane|by left|]. intros [screen|e] s1.
    + apply shows_event. intros s2. destruct (composer_is_idle screen) eqn:Ei.
      * apply shows_ret. intros s3. eapply shows_mono; [apply Hf|]. intros r evs Ht. right. exists screen, evs. by rewrite Ei.
      * apply shows_raise. right. exists screen, []. by rewrite Ei.
    + destruct (vanished e); apply shows_raise; by left.
Qed.

(** ** Onward *)

(** Time goes on, and only other processes change the database. *)
Definition later (s s' : finishing) : Prop := (f_tick s <= f_tick s')%nat.
Definition only_others (s s' : finishing) : Prop := exists calls, f_world s' = run_ops calls (f_world s).
Definition onward (s s' : finishing) : Prop := later s s' /\ only_others s s'.
Lemma run_ops_app a b w : run_ops (a ++ b) w = run_ops b (run_ops a w).
Proof. revert w. by induction a as [|o a IH]; intros w; cbn [app run_ops]. Qed.
#[local] Instance onward_preorder : PreOrder onward.
Proof.
  split.
  - intros s. split; [by unfold later|by exists []].
  - intros s1 s2 s3 [L1 (c1 & E1)] [L2 (c2 & E2)]. unfold later in *. split; [unfold later; lia|]. exists (c1 ++ c2). by rewrite E2, E1, run_ops_app.
Qed.
Lemma others_tick n evs s : onward s (Finishing (n + f_tick s) evs (f_world s)).
Proof. split; [unfold later; cbn; lia|by exists []]. Qed.
Lemma others_pane {A} (f : nat -> result exn A) : keeps onward (ask_pane f).
Proof. intros s. apply (others_tick 1). Qed.
Lemma others_clock : keeps onward clock_now.
Proof. intros s. apply (others_tick 1). Qed.
Lemma others_event e : keeps onward (happened e).
Proof. intros s. apply (others_tick 0). Qed.
Lemma others_store {A} (m : DB A) : (forall w, (m w).2 = w) -> keeps onward (store_call m).
Proof.
  intros Hm s. unfold onward, later, only_others, store_call. specialize (Hm (run_ops (fe_elsewhere (f_tick s)) (f_world s))).
  destruct (m _) as [[a|e] w]; cbn [snd f_tick f_world] in *; (split; [lia|by exists (fe_elsewhere (f_tick s))]).
Qed.
Lemma reads_task id w : (get_task id w).2 = w.
Proof. unfold get_task, _task_row, or_raise, read, gets, mbind, ST_bind. cbn. by destruct (find_task id (w_db w)). Qed.
Lemma reads_mission id w : (get_mission id w).2 = w.
Proof. unfold get_mission, _mission_row, or_raise, read, gets, mbind, ST_bind. cbn. by destruct (find_mission id (w_db w)). Qed.
#[local] Hint Resolve others_pane others_clock others_event : py_keeps.
#[local] Hint Extern 1 (keeps onward (store_call _)) => (apply others_store; first [apply reads_task|apply reads_mission|reflexivity]) : py_keeps.
Lemma others_must {A} (f : nat -> result exn A) : keeps onward (must f).
Proof using All. unfold must. solve_keeps. Qed.
Lemma others_refuse {A} msg : keeps onward (refuse msg : FM A).
Proof using All. apply keeps_raise. exact _. Qed.
Lemma others_send keys : keeps onward (send_keys keys).
Proof. unfold send_keys. solve_keeps. Qed.
#[local] Hint Resolve others_must others_refuse others_send : py_keeps.
Lemma others_steps command steps : keeps onward (run_steps command steps).
Proof. induction steps as [|[]]; cbn [run_steps run_step]; unfold key_if_popup; solve_keeps. Qed.
Lemma others_gone id : keeps onward (provider_gone id).
Proof. unfold provider_gone, _operation_active. solve_keeps. Qed.
#[local] Hint Resolve others_steps others_gone : py_keeps.
Lemma others_exit fuel id deadline : keeps onward (await_exit fuel id deadline).
Proof. induction fuel as [|fuel IH]; cbn [await_exit]; solve_keeps. Qed.
Lemma others_status id : keeps onward (task_status id).
Proof. unfold task_status. solve_keeps. Qed.
#[local] Hint Resolve others_exit others_status : py_keeps.
Lemma others_task fuel id settle status : keeps onward (await_task fuel id settle status).
Proof. revert status. induction fuel as [|fuel IH]; intros status; cbn [await_task]; solve_keeps. Qed.
#[local] Hint Resolve others_task : py_keeps.
Lemma others_check : keeps onward screen_checked.
Proof. unfold screen_checked. solve_keeps. Qed.
#[local] Hint Resolve others_check : py_keeps.
Lemma others_finish fuel id timeout : keeps onward (finish_mission fuel id timeout).
Proof. unfold finish_mission, after_typing, _active_operation. cbv zeta. solve_keeps. Qed.

(** ** Gone *)

Definition seen_by (s : finishing) : database := w_db (run_ops (fe_elsewhere (f_tick s)) (f_world s)).

(** The text that ends a provider: what the operator set for it, or else the
    command this table knows. *)
Definition exits_by (provider command : string) : Prop :=
  let override := strip (default EmptyString (fe_getenv (finish_variable provider))) in
  if decide (override = EmptyString) then (provider, command) ∈ [("claude", "/exit"); ("codex", "/quit"); ("copilot", "/exit")]%string
  else command = override.
Lemma exit_command_by provider command : exit_command provider = Some command -> exits_by provider command.
Proof.
  unfold exit_command, exits_by, truthy_str. cbv zeta. destruct (decide _) as [->|Hne].
  - rewrite bool_decide_true by done. cbn [negb]. intros Hl. apply elem_of_list_to_map_2 in Hl. exact Hl.
  - rewrite bool_decide_false by done. cbn [negb]. by intros [= <-].
Qed.
(** These keys are the exit command of the provider of the mission's active
    operation, as the database named them when the call looked. *)
Definition meant_for (id : string) (s : finishing) (keys : text) : Prop :=
  exists sm so mission operation command,
    onward s sm /\ find_mission id (seen_by sm) = Some mission /\
    onward sm so /\ active_operation_of id (seen_by so) = Some operation /\
    exits_by (provider_of_station (m_config mission) (match o_route_id operation ≫= opt_str with Some r => r | None => o_station operation end)) command /\
    keys = command_text command.
Lemma keeps_run {A} (m : FM A) s r s' : keeps onward m -> m s = (r, s') -> onward s s'.
Proof. intros Hm E. specialize (Hm s). by rewrite E in Hm. Qed.
Lemma mission_ok id s m s' : store_call (get_mission id) s = (Ok m, s') -> find_mission id (seen_by s) = Some m.
Proof.
  unfold store_call, get_mission, _mission_row, or_raise, read, gets, mbind, ST_bind, seen_by. cbn.
  destruct (find_mission id _); [by intros [= <- _]|done].
Qed.
Lemma finish_sighted fuel id timeout s :
  shows (finish_mission fuel id timeout) (fun _ evs => evs = [] \/ exists keys, meant_for id s keys /\ typed_sighted keys evs) s.
Proof.
  unfold finish_mission. apply shows_look; [apply still_store|by left|]. intros mission s1 Em. cbv zeta.
  destruct (_ || _); [apply shows_raise; by left|]. apply shows_look; [apply still_store|by left|].
  intros active s2 Eo. destruct active as [operation|]; [|apply shows_raise; by left].
  destruct (exit_command _) as [command|] eqn:Ec; [|apply shows_raise; by left]. apply shows_skip; [apply still_pane|by left|].
  intros [u|e] s3; [|destruct e; apply shows_raise; by left]. apply shows_skip; [apply still_must|by left|]. intros [] s4; [|apply shows_raise; by left].
  cbn [negb]. apply (shows_mono _ (fun _ evs => typed_sighted (command_text command) evs)).
  - apply check_sighted. intros s5. apply shows_bind. eapply shows_mono; [apply steps_typing|]. intros [u'|e] evs Ht; [|done]. intros s6.
    apply shows_still; [apply still_after|]. intros r. by rewrite app_nil_r.
  - intros r evs Ht. right. exists (command_text command). split; [|exact Ht]. exists s, s1, mission, operation, command.
    split_and!; [done|by apply (mission_ok _ _ _ _ Em)| | |by apply exit_command_by|done].
    + revert Em. apply keeps_run, others_store, reads_mission.
    + unfold _active_operation, store_call, read, gets in Eo. by injection Eo.
Qed.
Definition operation_over (id : string) (d : database) : Prop := forall o, find_operation id d = Some o -> active_op o = false.
Definition away (answer : result exn bool) : Prop := answer = Ok false \/ exists e, vanished e = true /\ answer = Raise e.
(** Seen between [s] and [s']: the operation over, or its pane or session away. *)
Definition gone (id : string) (s s' : finishing) : Prop :=
  (exists s1, onward s s1 /\ onward s1 s' /\ operation_over id (seen_by s1)) \/
  exists n, (f_tick s <= n < f_tick s')%nat /\ (away (fe_session n) \/ away (fe_alive n)).
Lemma gone_mono id s s1 s2 s3 : onward s s1 -> onward s2 s3 -> gone id s1 s2 -> gone id s s3.
Proof.
  intros H1 H2 [(t & H3 & H4 & Ho)|(n & Hn & Ha)].
  - left. exists t. split_and!; [by etrans|by etrans|done].
  - right. exists n. destruct H1 as [H1 _], H2 as [H2 _]. unfold later in *. split; [lia|done].
Qed.
Lemma active_ok id s active s' : _operation_active id s = (Ok active, s') ->
  f_tick s' = S (f_tick s) /\ (active = false -> operation_over id (seen_by s)).
Proof.
  unfold _operation_active, store_call, read, gets. intros [= <- <-]. split; [done|]. unfold operation_over, seen_by.
  destruct (find_operation id _) as [o|]; [by intros Ha o' [= <-]|by intros _ o].
Qed.
Lemma pane_answer (f : nat -> result exn bool) (k : bool -> bool) s a s' :
  (answer ← ask_pane f; match answer with Raise e => if vanished e then mret true else raise (Failed e) | Ok b => mret (k b) end) s = (Ok a, s') ->
  f_tick s' = S (f_tick s) /\ ((exists b, f (f_tick s) = Ok b /\ a = k b) \/ exists e, vanished e = true /\ f (f_tick s) = Raise e).
Proof.
  unfold ask_pane, mbind, ST_bind. destruct (f (f_tick s)) as [b|e]; [intros [= <- <-]; split; [done|left; by exists b]|].
  destruct (vanished e) eqn:Ev; [|done]. intros [= <- <-]. split; [done|right; by exists e].
Qed.
Lemma gone_ok id s s' : provider_gone id s = (Ok true, s') -> gone id s s'.
Proof.
  intros E. assert (Hw := keeps_run _ _ _ _ (others_gone id) E). unfold provider_gone in E. apply bind_inv in E as (active & s1 & E1 & E).
  apply active_ok in E1 as [Ht Ha].
  destruct active; cbn [negb] in E; [|left; exists s; split_and!; [done|done|by apply Ha]]. right. apply bind_inv in E as (session & s2 & E2 & E).
  unfold ask_pane in E2. injection E2 as <- <-. destruct (fe_session (f_tick s1)) as [[]|e] eqn:Es.
  - apply (pane_answer fe_alive negb) in E as [Ht' E]. cbn [f_tick] in *. exists (S (f_tick s1)). split; [lia|]. right.
    destruct E as [([] & Eb & Hk)|(e & Hv & Eb)]; [done|by left|right; by exists e].
  - exists (f_tick s1). split; [injection E as <-; cbn; lia|]. left. by left.
  - exists (f_tick s1). destruct (vanished e) eqn:Hv; [|done]. split; [injection E as <-; cbn; lia|]. left. right. by exists e.
Qed.
Lemma await_gone fuel id deadline s s' : await_exit fuel id deadline s = (Ok tt, s') -> gone id s s'.
Proof.
  revert s. induction fuel as [|fuel IH]; intros s E; [done|]. cbn [await_exit] in E. apply bind_inv in E as ([] & s1 & E1 & E).
  - apply gone_ok in E1. by injection E as <-.
  - apply bind_inv in E as (now & s2 & E2 & E). destruct (Qle_bool deadline now); [done|]. apply IH in E.
    refine (gone_mono _ _ _ _ _ _ (reflexivity _) E). etrans; [exact (keeps_run _ _ _ _ (others_gone id) E1)|exact (keeps_run _ _ _ _ others_clock E2)].
Qed.

(** ** There always is an answer *)

(** The clock passes every moment in the end. *)
Definition clock_goes_on : Prop := forall q, exists n, forall m, (n <= m)%nat -> Qle_bool q (fe_clock m) = true.
Definition answers {A} (m : FM A) : Prop := forall s, (m s).1 <> Raise Unfinished.
Lemma gone_answers id : answers (provider_gone id).
Proof.
  intros s. unfold provider_gone, _operation_active, store_call, read, gets, ask_pane, mbind, ST_bind. cbn. destruct (negb _); [done|].
  destruct (fe_session _) as [[]|e]; [|done|by destruct (vanished e)]. cbn. destruct (fe_alive _) as [|e]; [done|by destruct (vanished e)].
Qed.
Lemma exit_answers id deadline n fuel s : (forall m, (n <= m)%nat -> Qle_bool deadline (fe_clock m) = true) -> (0 < fuel)%nat -> (n <= fuel + f_tick s)%nat ->
  (await_exit fuel id deadline s).1 <> Raise Unfinished.
Proof.
  intros Hn. revert s. induction fuel as [|fuel IH]; intros s H0' Hf; [lia|]. cbn [await_exit].
  pose proof (others_gone id s) as [Hl _]. pose proof (gone_answers id s) as Ha. unfold later in Hl. unfold mbind at 1, ST_bind at 1.
  assert (Hstep : (f_tick s < f_tick (provider_gone id s).2)%nat).
  { clear. unfold provider_gone, _operation_active, store_call, read, gets, ask_pane, mbind, ST_bind. cbn.
    destruct (negb _); cbn; [lia|]. destruct (fe_session _) as [[]|e]; cbn; [|lia|destruct (vanished e); cbn; lia].
    destruct (fe_alive _) as [|e]; cbn; [lia|destruct (vanished e); cbn; lia]. }
  destruct (provider_gone id s) as [[[]|e] s1]; cbn [fst snd] in *; [done| |congruence].
  unfold clock_now, mbind, ST_bind. destruct (Qle_bool deadline (fe_clock (f_tick s1))) eqn:Eq; [done|].
  assert ((f_tick s1 < n)%nat) by (destruct (Nat.lt_ge_cases (f_tick s1) n); [done|]; rewrite Hn in Eq; done).
  apply IH; cbn; lia.
Qed.
Lemma status_answers id : answers (task_status id).
Proof. intros s. unfold task_status, store_call, mbind, ST_bind. by destruct (get_task id _) as [[t|e] w]. Qed.
Lemma task_answers id settle n fuel status s : (forall m, (n <= m)%nat -> Qle_bool settle (fe_clock m) = true) -> (0 < fuel)%nat -> (n < fuel + f_tick s)%nat ->
  (await_task fuel id settle status s).1 <> Raise Unfinished.
Proof.
  intros Hn. revert status s. induction fuel as [|fuel IH]; intros status s H0' Hf; [lia|]. cbn [await_task]. case_bool_decide; [|done].
  unfold clock_now, mbind at 1, ST_bind at 1. cbn [f_tick]. destruct (Qle_bool settle (fe_clock (f_tick s))) eqn:Eq; [done|].
  assert ((f_tick s < n)%nat) by (destruct (Nat.lt_ge_cases (f_tick s) n); [done|]; rewrite Hn in Eq; done).
  unfold mbind, ST_bind. set (s1 := Finishing _ _ _).
  pose proof (status_answers id s1) as Ha. assert (Hl : (f_tick s1 < f_tick (task_status id s1).2)%nat).
  { unfold task_status, store_call, mbind, ST_bind. destruct (get_task id _) as [[t|e] w]; cbn; lia. }
  destruct (task_status id s1) as [[st|e] s2]; cbn [fst snd] in *; [|congruence]. apply IH; unfold s1 in Hl; cbn in Hl; lia.
Qed.
(** More fuel changes nothing once there is an answer. *)
Lemma exit_fuel fuel fuel' id deadline s : (fuel <= fuel')%nat -> (await_exit fuel id deadline s).1 <> Raise Unfinished ->
  await_exit fuel' id deadline s = await_exit fuel id deadline s.
Proof.
  revert fuel' s. induction fuel as [|fuel IH]; intros fuel' s Hle Ha; [done|]. destruct fuel' as [|fuel']; [lia|]. cbn [await_exit] in *.
  destruct (provider_gone id s) as [[[]|e] s1] eqn:Eg.
  - by rewrite !(bind_ok _ _ _ _ _ Eg).
  - rewrite (bind_ok _ _ _ _ _ Eg) in Ha. rewrite !(bind_ok _ _ _ _ _ Eg). cbv beta iota in *.
    assert (Ec : clock_now s1 = (Ok (fe_clock (f_tick s1)), Finishing (S (f_tick s1)) (f_events s1) (f_world s1))) by done.
    rewrite (bind_ok _ _ _ _ _ Ec) in Ha. rewrite !(bind_ok _ _ _ _ _ Ec). cbv beta in *.
    destruct (Qle_bool deadline (fe_clock (f_tick s1))); [done|]. apply IH; [lia|exact Ha].
  - by rewrite !(bind_raise _ _ _ _ _ Eg).
Qed.
Lemma clock_run s : clock_now s = (Ok (fe_clock (f_tick s)), Finishing (S (f_tick s)) (f_events s) (f_world s)).
Proof. done. Qed.
Lemma after_answers m p c o t s : clock_goes_on -> exists fuel0, forall fuel, (fuel0 <= fuel)%nat -> (after_typing fuel m p c o t s).1 <> Raise Unfinished.
Proof.
  intros Hc. destruct (Hc (fe_plus (fe_clock (f_tick s)) t)) as [n Hn].
  set (s1 := Finishing (S (f_tick s)) (f_events s) (f_world s)). set (deadline := fe_plus (fe_clock (f_tick s)) t) in *.
  assert (Hans : (await_exit (S n) (o_id o) deadline s1).1 <> Raise Unfinished) by (apply (exit_answers _ _ n); [done|lia|lia]).
  assert (Hexit : forall fuel, (S n <= fuel)%nat -> await_exit fuel (o_id o) deadline s1 = await_exit (S n) (o_id o) deadline s1) by (intros; by apply exit_fuel).
  destruct (await_exit (S n) (o_id o) deadline s1) as [[[]|e] s2] eqn:E2.
  - destruct (Hc (fe_plus (fe_clock (f_tick s2)) 5)) as [n2 Hn2]. exists (S n + S n2)%nat. intros fuel Hf.
    unfold after_typing. rewrite (bind_ok _ _ _ _ _ (clock_run s)). fold s1 deadline. rewrite (bind_ok _ _ _ _ _ (Hexit fuel ltac:(lia))).
    rewrite (bind_ok _ _ _ _ _ (clock_run s2)). set (s3 := Finishing _ _ _).
    pose proof (status_answers (o_task o) s3) as Hst. destruct (task_status (o_task o) s3) as [[st|e] s4] eqn:E3; cbn [fst] in Hst.
    2: { rewrite (bind_raise _ _ _ _ _ E3). cbn [fst]. congruence. }
    rewrite (bind_ok _ _ _ _ _ E3).
    pose proof (task_answers (o_task o) (fe_plus (fe_clock (f_tick s2)) 5) n2 fuel st s4 Hn2 ltac:(lia) ltac:(lia)) as Hta.
    destruct (await_task fuel (o_task o) _ st s4) as [[st'|e] s5] eqn:E4; cbn [fst] in Hta.
    2: { rewrite (bind_raise _ _ _ _ _ E4). cbn [fst]. congruence. }
    rewrite (bind_ok _ _ _ _ _ E4). unfold mbind, ST_bind, store_call. by destruct (get_task _ _) as [[tk|e] w].
  - exists (S n). intros fuel Hf. unfold after_typing. rewrite (bind_ok _ _ _ _ _ (clock_run s)). fold s1 deadline.
    rewrite (bind_raise _ _ _ _ _ (Hexit fuel Hf)). cbn [fst] in *. congruence.
Qed.

(** [m] ends with an answer, given enough fuel. *)
Definition bounded {A} (m : nat -> FM A) : Prop := forall s, exists fuel0, forall fuel, (fuel0 <= fuel)%nat -> (m fuel s).1 <> Raise Unfinished.
Lemma bounded_answers {A} (m : FM A) : answers m -> bounded (fun _ => m).
Proof. intros Hm s. exists O. intros fuel _. apply Hm. Qed.
Lemma bounded_bind {A B} (m : FM A) (f : nat -> A -> FM B) : answers m -> (forall a, bounded (fun fuel => f fuel a)) -> bounded (fun fuel => m ≫= f fuel).
Proof.
  intros Hm Hf s. specialize (Hm s). destruct (m s) as [[a|e] s1] eqn:E; cbn [fst] in Hm.
  - destruct (Hf a s1) as [fuel0 Ha]. exists fuel0. intros fuel Hle. rewrite (bind_ok _ _ _ _ _ E). by apply Ha.
  - exists O. intros fuel _. rewrite (bind_raise _ _ _ _ _ E). cbn [fst]. congruence.
Qed.
Lemma answers_pane {A} (f : nat -> result exn A) : answers (ask_pane f).
Proof. by intros s. Qed.
Lemma answers_store {A} (m : DB A) : answers (store_call m).
Proof. intros s. unfold store_call. by destruct (m _) as [[a|e] w]. Qed.
Lemma answers_ret {A} (a : A) : answers (mret a).
Proof. by intros s. Qed.
Lemma answers_fail {A} e : e <> Unfinished -> answers (raise e : FM A).
Proof. intros He s. cbn. congruence. Qed.
Lemma answers_bind {A B} (m : FM A) (f : A -> FM B) : answers m -> (forall a, answers (f a)) -> answers (m ≫= f).
Proof.
  intros Hm Hf s. specialize (Hm s). destruct (m s) as [[a|e] s1] eqn:E; cbn [fst] in Hm.
  - rewrite (bind_ok _ _ _ _ _ E). apply Hf.
  - rewrite (bind_raise _ _ _ _ _ E). cbn [fst]. congruence.
Qed.
Lemma answers_event e : answers (happened e).
Proof. by intros s. Qed.
Ltac answers_step :=
  match goal with
  | |- forall _, _ => intros ?
  | |- answers (_ ≫= _) => apply answers_bind
  | |- answers (if ?b then _ else _) => destruct b
  | |- answers (match ?x with _ => _ end) => destruct x
  | |- answers _ => first [apply answers_pane|apply answers_store|apply answers_ret|apply answers_event|apply answers_fail; done]
  end.
Lemma answers_must {A} (f : nat -> result exn A) : answers (must f).
Proof. unfold must. repeat answers_step. Qed.
Lemma answers_send keys : answers (send_keys keys).
Proof. unfold send_keys. repeat answers_step. Qed.
Lemma answers_popup command : answers (key_if_popup command).
Proof. unfold key_if_popup. repeat first [apply answers_send|answers_step]. Qed.
Lemma answers_steps command steps : answers (run_steps command steps).
Proof.
  induction steps as [|step steps IH]; [apply answers_ret|]. cbn [run_steps]. apply answers_bind; [|by intros [u|]; [|apply answers_ret]].
  destruct step; cbn [run_step]; [apply answers_send|apply answers_send|apply answers_ret|apply answers_popup].
Qed.
Lemma answers_check : answers screen_checked.
Proof. unfold screen_checked, refuse. repeat answers_step. Qed.
Lemma finish_answers id timeout : clock_goes_on -> bounded (fun fuel => finish_mission fuel id timeout).
Proof.
  intros Hc. unfold finish_mission. apply bounded_bind; [apply answers_store|]. intros mission. cbv zeta.
  destruct (_ || _); [apply bounded_answers, answers_fail; done|]. apply bounded_bind; [apply answers_store|].
  intros [operation|]; [|apply bounded_answers, answers_fail; done]. destruct (exit_command _) as [command|]; [|apply bounded_answers, answers_fail; done].
  apply bounded_bind; [apply answers_pane|]. intros [u|e]; [|destruct e; apply bounded_answers, answers_fail; done].
  apply bounded_bind; [apply answers_must|]. intros []; cbn [negb]; [|apply bounded_answers, answers_fail; done].
  apply bounded_bind; [apply answers_check|]. intros _. apply bounded_bind; [apply answers_steps|]. intros _ s. by apply after_answers.
Qed.

(** ** The answer *)

Lemma exited_ok fuel m p c o t s r s' : after_typing fuel m p c o t s = (Ok r, s') ->
  fr_mission r = m /\ fr_provider r = p /\ fr_task r = o_task o /\ gone (o_id o) s s'.
Proof.
  unfold after_typing. intros E. apply bind_inv in E as (start & s1 & E1 & E). apply bind_inv in E as ([] & s2 & E2 & E).
  assert (Hw : onward s2 s') by (revert E; apply keeps_run; solve_keeps). apply await_gone in E2. apply keeps_run in E1; [|apply others_clock].
  apply bind_inv in E as (settled & s3 & E3 & E). apply bind_inv in E as (status & s4 & E4 & E). apply bind_inv in E as (status' & s5 & E5 & E).
  apply bind_inv in E as (task & s6 & E6 & E). injection E as <- <-. split_and!; [done|done|done|]. by eapply gone_mono.
Qed.
Lemma finish_ok fuel id timeout s r s' : finish_mission fuel id timeout s = (Ok r, s') ->
  exists s0 operation, onward s s0 /\ active_operation_of id (seen_by s0) = Some operation /\ fr_mission r = id /\ fr_task r = o_task operation /\
    gone (o_id operation) s0 s'.
Proof.
  intros E. unfold finish_mission in E. apply bind_inv in E as (mission & s1 & E1 & E). cbv zeta in E. destruct (_ || _) in E; [done|].
  apply bind_inv in E as (active & s2 & E2 & E). destruct active as [operation|]; [|done].
  assert (Hop : active_operation_of id (seen_by s1) = Some operation) by (unfold _active_operation, store_call, read, gets in E2; by injection E2).
  destruct (exit_command _) as [command|]; [|done]. apply bind_inv in E as (handle & s3 & E3 & E). destruct handle as [u|e]; [|by destruct e].
  apply bind_inv in E as (alive & s4 & E4 & E). destruct alive; [|done]. cbn [negb] in E.
  apply bind_inv in E as (u1 & s5 & E5 & E). apply bind_inv in E as (u2 & s6 & E6 & E). apply exited_ok in E as (Hm & _ & Ht & Hg).
  exists s1, operation. split_and!; [|done|done|done|].
  { revert E1. apply keeps_run, others_store, reads_mission. }
  refine (gone_mono _ _ _ _ _ _ (reflexivity _) Hg).
  transitivity s2; [revert E2; apply keeps_run; unfold _active_operation; solve_keeps|]. transitivity s3; [revert E3; apply keeps_run; solve_keeps|].
  transitivity s4; [revert E4; apply keeps_run; solve_keeps|]. transitivity s5; [revert E5; apply keeps_run; solve_keeps|].
  revert E6; apply keeps_run; solve_keeps.
Qed.
End laws.

(** C20: Nothing is typed blind.  Whatever the pane, the database, other
    processes and the clock answer and however the call ends: all that is typed
    is the exit command of the provider that the mission's active operation had
    when the call looked; it goes in only after a reading of the screen that
    shows an idle composer and no question, unless the operator switched that
    check off with LLM_BRIDGE_FINISH_SKIP_CHECK=1; it is followed by Enter, and
    by a second Enter only if the screen read in between shows the popup with
    that command first.  And the database changes by other processes only. *)
Theorem nothing_is_typed_blind (O : Oracle) (E : FinishEnv) (fuel : nat) (mission_id : string) (timeout : option Q) (s : finishing) :
  (exists evs, f_events (finish_mission fuel mission_id timeout s).2 = f_events s ++ evs /\
     (evs = [] \/ exists keys, meant_for mission_id s keys /\ typed_sighted keys evs)) /\
  (exists calls, f_world (finish_mission fuel mission_id timeout s).2 = run_ops calls (f_world s)).
Proof.
  split; [apply (finish_sighted fuel mission_id timeout s)|apply (others_finish fuel mission_id timeout s)].
Qed.

(** C21: A finished task's provider is gone, and finishing always answers.  An
    answer names the task of an operation that was active when the call looked,
    and after that look and before the answer the operation was over or its pane
    or session away; and when the clock goes on, enough rounds of waiting bring an answer or a refusal. *)
Theorem finish_answers_when_gone (O : Oracle) (E : FinishEnv) (mission_id : string) (timeout : option Q) :
  clock_goes_on ->
  (forall s, exists fuel0, forall fuel, (fuel0 <= fuel)%nat -> (finish_mission fuel mission_id timeout s).1 <> Raise Unfinished) /\
  (forall fuel s r s', finish_mission fuel mission_id timeout s = (Ok r, s') ->
     exists s0 operation, onward s s0 /\ active_operation_of mission_id (seen_by s0) = Some operation /\ fr_mission r = mission_id /\
       fr_task r = o_task operation /\ gone (o_id operation) s0 s').
Proof. intros Hc. split; [by apply finish_answers|]. intros fuel s r s'. apply finish_ok. Qed.

(** ** One finish

    The provider sits at an idle composer; the command's popup opens; while the
    call waits, another process finishes the operation. *)
Definition demo_screen (n : nat) : text := if (n <? 6)%nat then b_ "  gpt 5
> " else b_ "> /quit
  /quit   leave the session
  /quiet  say less".
Definition demo_finish : FinishEnv := {|
  fe_chars := latin;
  fe_elsewhere n := if (12 <? n)%nat then [Op_finish_operation "id9" 0 None] else [];
  fe_handle _ := Ok tt;
  fe_alive _ := Ok true;
  fe_session _ := Ok true;
  fe_capture n := Ok (demo_screen n);
  fe_send _ := Ok tt;
  fe_clock n := inject_Z (Z.of_nat n);
  fe_plus := Qplus;
  fe_getenv k := if String.eqb k "LLM_BRIDGE_FINISH_ROUTE" then Some " /quit "%string else None;
  fe_toml _ := None;
|}.
Definition demo_finishing : finishing := Finishing 0 [] (demo_world 7).
Lemma demo_clock_goes_on : clock_goes_on (H0 := demo_finish).
Proof.
  intros q. exists (Z.to_nat (Qceiling q)). intros m Hm. apply Qle_bool_iff. eapply Qle_trans; [apply Qle_ceiling|].
  cbn. rewrite <- Zle_Qle. lia.
Qed.
Example demo_finished :
  let out := finish_mission (H := demo_oracle) (H0 := demo_finish) 20 "m1" None demo_finishing in
  out.1 = Ok (FinishedAs "m1" "route" 1 "/quit" T_VERIFYING "Provider exited · task 1 is now VERIFYING") /\
  f_events out.2 = [F_read (demo_screen 4); F_keys (b_ "/quit"); F_keys (b_ "Enter"); F_read (demo_screen 8); F_keys (b_ "Enter")].
Proof. vm_compute. done. Qed.
Lemma finish_answers_when_gone_witness :
  clock_goes_on (H0 := demo_finish) /\
  forall s, exists fuel0, forall fuel, (fuel0 <= fuel)%nat ->
    (finish_mission (H := demo_oracle) (H0 := demo_finish) fuel "m1" None s).1 <> Raise Unfinished.
Proof. split; [exact demo_clock_goes_on|]. exact (proj1 (finish_answers_when_gone demo_oracle demo_finish "m1" None demo_clock_goes_on)). Defined.
