(* ===== verification/Diagnostics.v ===== *)
(** * What a provider's output says ([common.py])

    The signatures that the tools look for in the output of a provider: prompts
    it may be waiting at, rate limits, exhausted credit, the trust prompt of a
    folder; and the diagnostic of a run, a small record without the output. *)

From Stdlib Require Import Ascii.
From S2P Require Import Prelude Py Bytes Regex.
From stdpp Require Import options.
Local Open Scope Z_scope.

Definition AUTONOMY_ABORT_STATUS : Z := 75.
Definition OPERATOR_DECLINED_STATUS : Z := 76.
Definition TRUST_DECLINE_MAX_SECONDS : Z := 900.

(** ** Terminal control *)

Fixpoint skip_while (p : Z -> bool) (s : text) : text := match s with c :: s' => if p c then skip_while p s' else s | [] => [] end.
(** Every match of [m] left out, [m s] being what follows the match at [s]. *)
Fixpoint sub_from (fuel : nat) (m : text -> option text) (s : text) : text :=
  match fuel, s with
  | S fuel, c :: s' => match m s with Some rest => sub_from fuel m rest | None => c :: sub_from fuel m s' end
  | _, _ => []
  end.
Definition sub_all (m : text -> option text) (s : text) : text := sub_from (length s) m s.
Definition osc_at (s : text) : option text :=
  match s with
  | 27 :: 93 :: s =>
      match skip_while (fun c => negb (char_in [7; 27] c)) s with 7 :: rest => Some rest | 27 :: 92 :: rest => Some rest | _ => None end
  | _ => None
  end.
Definition csi_at (s : text) : option text :=
  match s with
  | 27 :: 91 :: s =>
      match skip_while (in_range 32 47) (skip_while (fun c => in_range 48 57 c || char_in (b_ ";?<>=-") c) s) with
      | c :: rest => if in_range 64 126 c then Some rest else None
      | [] => None
      end
  | _ => None
  end.
Definition charset_at (s : text) : option text :=
  match s with 27 :: a :: c :: rest => if char_in (b_ "()") a && in_range 32 126 c then Some rest else None | _ => None end.
Definition escape_at (s : text) : option text :=
  match s with 27 :: c :: rest => if in_range 64 90 c || char_in (b_ "\^_<>=78") c then Some rest else None | _ => None end.
(** Carriage returns become line feeds; bells and shifts go. *)
Fixpoint plain_breaks (s : text) : text :=
  match s with
  | 13 :: ((10 :: _) as s) => plain_breaks s
  | 13 :: s => 10 :: plain_breaks s
  | c :: s => if char_in [7; 14; 15] c then plain_breaks s else c :: plain_breaks s
  | [] => []
  end.
Definition strip_ansi (s : text) : text := plain_breaks (sub_all escape_at (sub_all charset_at (sub_all csi_at (sub_all osc_at s)))).

(** ** Signatures *)

Section signatures.
Context `{Chars}.

Definition phrase (s : string) : rx := seq_ [Edge; lit s; Edge].
Definition one_of (l : list string) : rx := any_ (lit <$> l).
Definition yes_no : rx :=
  Either (seq_ [lit "["; in_ "yn"; lit "/"; in_ "yn"; lit "]"]) (seq_ [lit "("; in_ "yn"; lit "/"; in_ "yn"; lit ")"]).
Definition BLOCKING_PROMPT_PATTERNS : list rx := [
  seq_ [Edge; lit "what do you want to do?"];
  phrase "enter to confirm"; phrase "esc to cancel";
  seq_ [Edge; lit "use "; Maybe (lit "the "); lit "arrow keys"; Edge];
  seq_ [Edge; lit "press "; one_of ["enter"; "return"]; lit " to"; Edge];
  phrase "adjust monthly spend limit"; phrase "wait for limit to reset"; phrase "upgrade to max";
  seq_ [Edge; lit "you"; Either (lit "'") (lit_char 8217); lit "ve hit your monthly spend limit"; Edge];
  phrase "monthly spend limit";
  seq_ [Edge; lit "rate"; in_ "- "; lit "limit options"; Edge];
  seq_ [Edge; one_of ["run"; "reach"; "reached"; "hit"]; Upto 30 (fun c => ch_word c || (c =? 32)); Edge; lit "usage limit"; Edge];
  seq_ [Edge; lit "out of "; one_of ["credit"; "credits"; "tokens"]; Edge];
  seq_ [Edge; lit "buy more "; one_of ["credits"; "tokens"]; Edge];
  seq_ [Edge; lit "downgrade to "; Maybe (lit "a "); one_of ["simpler"; "smaller"; "cheaper"]; lit " model"; Edge];
  seq_ [Edge; one_of ["proceed"; "continue"]; lit "?"; spaces; yes_no]].
Definition QUESTION_LINE_RE : rx :=
  seq_ [LineStart; spaces; Many (fun c => char_in (b_ ">-*.)") c || ch_digit c || ch_space c);
        one_of ["what"; "which"; "who"; "when"; "where"; "why"; "how"; "do you"; "would you"; "should i"; "should we"; "can i"; "may i";
                "please choose"; "please select"; "select"; "choose"; "confirm"; "proceed"; "continue"];
        Edge; Upto 180 (fun c => negb (char_in [10; 63] c)); lit "?"; spaces; LineEnd].
Definition BLOCKING_PROMPT_TAIL_LINES : nat := 8.
Definition tail_lines (s : text) (count : nat) : text := join_text 10 (last_of count (written_lines s)).
Definition blocking_tail (s : text) : text := tail_lines s BLOCKING_PROMPT_TAIL_LINES.

Definition PROVIDER_RATE_LIMIT_RE : rx :=
  let quoted := seq_ [lit_char 34; lit "overloaded"; lit_char 34] in
  any_ [seq_ [lit "rate"; Maybe (in_ " _-"); lit "limit"; Maybe (lit "ed"); lit " "; one_of ["exceeded"; "reached"; "hit"; "error"]];
        lit "rate_limit_error"; lit "too many requests"; seq_ [lit "http"; in_ " /?"; lit "429"];
        seq_ [lit "status"; Maybe (in_ " :"); lit "429"]; lit "429 too many requests";
        seq_ [lit "quota "; one_of ["exceeded"; "reached"]]; seq_ [lit "usage limit "; one_of ["exceeded"; "reached"]];
        lit "overloaded_error"; quoted; seq_ [lit "api error"; Maybe (lit ":"); Maybe (lit " "); lit "overloaded"];
        lit "http 503"; lit "503 service unavailable"; lit "service unavailable (503)"].
Definition output_is_retryable (status : Z) (output : text) (attached trust_clean_exit : bool) : bool :=
  if attached then negb (bool_decide (status ∈ [0; 130; 143]))
  else if negb (status =? 0) then true
  else if trust_clean_exit then false
  else search_folded PROVIDER_RATE_LIMIT_RE output.

Definition in_braces (middle : rx) : rx := seq_ [lit "{"; Upto 200 (not_in "{}"); middle; Upto 200 (not_in "{}"); lit "}"].
Definition CREDIT_EXHAUSTED_RE : rx :=
  any_ [lit "usage_limit_exceeded"; lit "buycreditsurl"; seq_ [lit "payment required"; Upto 80 (not_in "{"); lit "{"];
        in_braces (seq_ [lit "low"; Maybe (in_ " _-"); lit "credit"]); in_braces (lit "add credits to continue")].
Definition output_signals_credit_exhausted (output : text) : bool := search_folded CREDIT_EXHAUSTED_RE output.

Definition TRUST_PROMPT_TAIL_LINES : nat := 20.
Definition _TRUST_PROMPT_PATTERNS : list rx := [
  lit "project you created or one you trust";
  seq_ [Edge; lit "is this a project you "; Maybe (lit "created or one you "); lit "trust"];
  lit "do you trust the files in this folder"; phrase "i trust this folder"].
Definition _TRUST_DECLINE_CHOICE : rx := seq_ [Edge; lit "no,"; spaces; lit "exit"; Edge].
Definition output_shows_declined_trust_prompt (output : text) : bool :=
  let tail := join_text 10 (last_of TRUST_PROMPT_TAIL_LINES (written_lines (strip_ansi output))) in
  search_folded _TRUST_DECLINE_CHOICE tail && existsb (fun pattern => search_folded pattern tail) _TRUST_PROMPT_PATTERNS.

(** ** The diagnostic of a run *)

(** [hashlib.sha256(...).hexdigest()]. *)
Context (sha256_hex : bytes -> string).

Definition GUARD_CAUSES : list string := ["interactive-prompt"; "idle-timeout"; "question-timeout"; "other-scheduler-guard"]%string.
Definition guard_cause (guard_reason : string) : string :=
  if bool_decide (guard_reason ∈ GUARD_CAUSES) then guard_reason
  else if bool_decide (guard_reason = "interactive prompt detected"%string) then "interactive-prompt"
  else if startswith "no output progress for " guard_reason then "idle-timeout"
  else if startswith "question required a response for " guard_reason then "question-timeout"
  else "other-scheduler-guard".
(** Its class, cause and code. *)
Definition failure_kind (status : Z) (guard_reason : string) (quota trusted : bool) : string * string * option string :=
  (if truthy_str guard_reason then ("scheduler-guard", guard_cause guard_reason, Some "autonomy-abort")
   else if (status =? 0)%Z && negb trusted then ("success", "completed", None)
   else if quota || trusted then ("capacity", "provider-quota", Some "quota-exhausted")
   else if char_in [130; 143] status then ("interrupted", "operator-or-signal", None)
   else if (status =? 124)%Z then ("timeout", "scheduler-timeout", None)
   else ("provider-error", "nonzero-exit", Some ("exit-" +:+ show_Z status)))%string.
Definition provider_failure_diagnostic (output : text) (status : Z) (guard_reason : string) (provider_quota_diagnostic : bool) : dict :=
  let kept := last_of (Z.to_nat 65536) output in
  let trusted := provider_quota_diagnostic && output_signals_credit_exhausted kept in
  let '(failure_class, cause, code) := failure_kind status guard_reason provider_quota_diagnostic trusted in
  let raw := utf8_encode kept in
  [("schema_version", JInt 1); ("class", JStr failure_class); ("code", jopt_str (stake 64 <$> code)); ("cause", JStr cause);
   ("source", JStr (if truthy_str guard_reason then "scheduler-guard" else if provider_quota_diagnostic then "verified-provider-error" else "process-exit"));
   ("status", JInt status); ("output_chars", JInt (Z.of_nat (length output)));
   ("retained_sha256", if bool_decide (raw = []) then JNull else JStr (sha256_hex raw)); ("retained_bytes", JInt (Z.of_nat (length raw)))]%string.

Definition _PROVIDER_DIAGNOSTIC_KEYS : list string :=
  ["schema_version"; "class"; "code"; "cause"; "source"; "status"; "output_chars"; "retained_sha256"; "retained_bytes";
   "provider_exit_status"; "scheduler_status"; "provider_quota_diagnostic"; "provider_credit_diagnostic"; "blocking_prompt"]%string.
Definition _PROVIDER_DIAGNOSTIC_CAUSES : list string :=
  ["completed"; "provider-quota"; "interactive-prompt"; "idle-timeout"; "question-timeout"; "other-scheduler-guard"; "operator-or-signal";
   "scheduler-timeout"; "nonzero-exit"]%string.
Definition field (key : string) (d : dict) : json := default JNull (dget key d).
(** [type(j) is int] and between the bounds. *)
Definition int_between (a b : Z) (j : json) : bool := match j with JInt z => (a <=? z) && (z <=? b) | _ => false end.
Definition str_in (l : list string) (j : json) : bool := match j with JStr s => bool_decide (s ∈ l) | _ => false end.
Definition is_str (s : string) (j : json) : bool := str_in [s] j.
Definition is_true (j : json) : bool := match j with JBool b => b | _ => false end.
Definition is_bool (j : json) : bool := match j with JBool _ => true | _ => false end.
(** [re.fullmatch] of [exit-[0-9]{1,3}] and of 64 hexadecimal digits. *)
Definition exit_code_text (s : string) : bool :=
  startswith "exit-" s && (let digits := sdrop 5 s in sforall is_digit digits && (1 <=? String.length digits)%nat && (String.length digits <=? 3)%nat).
Definition hex_digest (s : string) : bool :=
  (String.length s =? 64)%nat && sforall (fun c => is_digit c || ((97 <=? Py.code c) && (Py.code c <=? 102))) s.
Definition int_is (p : Z -> bool) (j : json) : bool := match j with JInt z => p z | _ => false end.
(** What a class asks of the other fields. *)
Definition class_agrees (d : dict) : bool :=
  let class_ := field "class" d in let cause := field "cause" d in let code := field "code" d in
  let source := field "source" d in let status := field "status" d in
  let provider_error := is_true (field "provider_quota_diagnostic" d) || is_true (field "provider_credit_diagnostic" d) in
  (negb (is_str "scheduler-guard" class_) || str_in GUARD_CAUSES cause && is_str "autonomy-abort" code) &&
  (negb (is_str "capacity" class_) || is_str "provider-quota" cause && is_str "quota-exhausted" code) &&
  (negb (is_str "success" class_) || is_str "completed" cause && match code with JNull => true | _ => false end && int_is (Z.eqb 0) status) &&
  (negb (is_str "interrupted" class_) || is_str "operator-or-signal" cause && int_is (char_in [130; 143]) status) &&
  (negb (is_str "timeout" class_) || is_str "scheduler-timeout" cause && int_is (Z.eqb 124) status) &&
  (negb (is_str "provider-error" class_) || is_str "nonzero-exit" cause && negb (int_is (Z.eqb 0) status)) &&
  (negb (is_str "capacity" class_) || is_str "verified-provider-error" source) &&
  (negb (is_str "scheduler-guard" source) || is_str "scheduler-guard" class_) &&
  (negb (is_str "verified-provider-error" source) || str_in ["capacity"; "scheduler-guard"] class_) &&
  (negb (is_str "process-exit" source) || negb (str_in ["capacity"; "scheduler-guard"] class_)) &&
  (negb (is_str "capacity" class_) || provider_error) &&
  (negb provider_error || str_in ["capacity"; "scheduler-guard"] class_).
Definition keys_exactly (keys : list string) (d : dict) : bool :=
  forallb (fun kv => bool_decide (kv.1 ∈ keys)) d && forallb (fun k => bool_decide (k ∈ d.*1)) keys.
(** [loaded] is what the file holds, if it is small enough and a JSON value. *)
Definition read_provider_diagnostic (loaded : option json) : option dict :=
  match loaded with
  | Some (JObj value) =>
      let good :=
        keys_exactly _PROVIDER_DIAGNOSTIC_KEYS value && int_is (Z.eqb 1) (field "schema_version" value) &&
        int_between (-255) 255 (field "status" value) && int_between (-255) 255 (field "scheduler_status" value) &&
        int_between 0 (2 ^ 63 - 1) (field "output_chars" value) && int_between 0 (2 ^ 63 - 1) (field "retained_bytes" value) &&
        is_bool (field "provider_quota_diagnostic" value) && is_bool (field "provider_credit_diagnostic" value) && is_bool (field "blocking_prompt" value) &&
        match field "provider_exit_status" value with JNull => true | j => int_between (-255) 255 j end &&
        str_in ["scheduler-guard"; "success"; "capacity"; "interrupted"; "timeout"; "provider-error"] (field "class" value) &&
        str_in ["scheduler-guard"; "verified-provider-error"; "process-exit"] (field "source" value) &&
        str_in _PROVIDER_DIAGNOSTIC_CAUSES (field "cause" value) &&
        match field "code" value with
        | JNull => true
        | JStr s => bool_decide (s ∈ ["autonomy-abort"; "quota-exhausted"]%string) || exit_code_text s
        | _ => false
        end &&
        class_agrees value &&
        match field "retained_sha256" value with JNull => true | JStr s => hex_digest s | _ => false end in
      if good then Some ((fun key => (key, field key value)) <$> _PROVIDER_DIAGNOSTIC_KEYS) else None
  | _ => None
  end.

(** What [run_fresh_exact_stdout] leaves beside the output of a run. *)
Definition exact_stdout_diagnostic (output : text) (native : option Z) (exit_code : Z) (abort_reason : string) (quota credit blocking : bool) : dict :=
  dupdate (provider_failure_diagnostic output (default exit_code native)
             (if exit_code =? AUTONOMY_ABORT_STATUS then abort_reason else EmptyString) (quota || credit))
    [("provider_exit_status", jopt_int native); ("scheduler_status", JInt exit_code); ("provider_quota_diagnostic", JBool quota);
     ("provider_credit_diagnostic", JBool credit); ("blocking_prompt", JBool blocking)]%string.
End signatures.
