(* ===== verification/DiagnosticsLaws.v ===== *)
(** * Laws of reading a provider's output

    A diagnostic is read back as it was written, but for two kinds of runs; and
    prose is not taken for an exhausted account. *)

From S2P Require Import Prelude Py Bytes Regex Diagnostics.
From stdpp Require Import options.
Local Open Scope Z_scope.

Section laws.
Context `{Chars}.

(** ** The diagnostic *)

Context (sha256_hex : bytes -> string).

Lemma length_utf8_char c : (length (utf8_char c) <= 4)%nat.
Proof. unfold utf8_char. repeat case_match; cbn; lia. Qed.
Lemma length_utf8_encode s : (length (utf8_encode s) <= 4 * length s)%nat.
Proof. unfold utf8_encode. induction s as [|c s IH]; [done|]. cbn [length]. rewrite bind_cons, length_app. pose proof (length_utf8_char c). lia. Qed.
Lemma length_last_of {A} n (l : list A) : (length (last_of n l) <= n)%nat.
Proof. unfold last_of. rewrite length_drop. lia. Qed.
Lemma retained_size s : int_between 0 (2 ^ 63 - 1) (JInt (Z.of_nat (length (utf8_encode (last_of (Z.to_nat 65536) s))))) = true.
Proof.
  pose proof (length_utf8_encode (last_of (Z.to_nat 65536) s)). pose proof (length_last_of (Z.to_nat 65536) s).
  cbn [int_between]. apply andb_true_iff. split; apply Z.leb_le; lia.
Qed.
Definition diagnostic_of (class_ cause source : string) (code : option string) (status chars retained : Z) (sha : json) (native : option Z) (exit_code : Z)
    (quota credit blocking : bool) : dict :=
  [("schema_version", JInt 1); ("class", JStr class_); ("code", jopt_str code); ("cause", JStr cause); ("source", JStr source); ("status", JInt status);
   ("output_chars", JInt chars); ("retained_sha256", sha); ("retained_bytes", JInt retained); ("provider_exit_status", jopt_int native);
   ("scheduler_status", JInt exit_code); ("provider_quota_diagnostic", JBool quota); ("provider_credit_diagnostic", JBool credit);
   ("blocking_prompt", JBool blocking)]%string.
Lemma diagnostic_unfold output native exit_code abort quota credit blocking :
  let kept := last_of (Z.to_nat 65536) output in
  let guard := if exit_code =? AUTONOMY_ABORT_STATUS then abort else EmptyString in
  let kind := failure_kind (default exit_code native) guard (quota || credit) ((quota || credit) && output_signals_credit_exhausted kept) in
  exact_stdout_diagnostic sha256_hex output native exit_code abort quota credit blocking =
  diagnostic_of kind.1.1 kind.1.2 (if truthy_str guard then "scheduler-guard" else if quota || credit then "verified-provider-error" else "process-exit")
    (stake 64 <$> kind.2) (default exit_code native) (Z.of_nat (length output)) (Z.of_nat (length (utf8_encode kept)))
    (if bool_decide (utf8_encode kept = []) then JNull else JStr (sha256_hex (utf8_encode kept))) native exit_code quota credit blocking.
Proof. cbv zeta. unfold exact_stdout_diagnostic, provider_failure_diagnostic. cbv zeta. destruct (failure_kind _ _ _ _) as [[class_ cause] code]. reflexivity. Qed.

Definition status_texts : bool :=
  forallb (fun n => let z := Z.of_nat n in
     bool_decide (exit_code_text (stake 64 ("exit-" +:+ show_Z z)) = true) &&
     (bool_decide (z = 0) || bool_decide (exit_code_text (stake 64 ("exit-" +:+ show_Z (- z))) = false) &&
       negb (bool_decide (stake 64 ("exit-" +:+ show_Z (- z)) ∈ ["autonomy-abort"; "quota-exhausted"])))) (seq 0 256).
Lemma exit_text z : -255 <= z <= 255 ->
  bool_decide (stake 64 ("exit-" +:+ show_Z z) ∈ ["autonomy-abort"; "quota-exhausted"])%string || exit_code_text (stake 64 ("exit-" +:+ show_Z z)) = (0 <=? z).
Proof.
  intros Hz. assert (Hall : status_texts = true) by (vm_compute; reflexivity). unfold status_texts in Hall. rewrite forallb_forall in Hall.
  specialize (Hall (Z.to_nat (Z.abs z))). rewrite <- list_elem_of_In, elem_of_seq in Hall. specialize (Hall ltac:(lia)). cbv zeta in Hall.
  rewrite Z2Nat.id in Hall by lia. apply andb_true_iff in Hall as [Hp Hn]. apply bool_decide_eq_true in Hp.
  destruct (Z.leb_spec 0 z) as [Hz'|Hz'].
  - rewrite Z.abs_eq in Hp by done. by rewrite Hp, orb_true_r.
  - rewrite Z.abs_neq in Hn by lia. rewrite Z.opp_involutive in Hn. rewrite bool_decide_false in Hn by lia. cbn [orb] in Hn.
    apply andb_true_iff in Hn as [Hn Hm]. apply bool_decide_eq_true in Hn. rewrite Hn, orb_false_r. by apply negb_true_iff in Hm.
Qed.
(** The runs whose diagnostic can be read. *)
Definition readable_run (status : Z) (guard : string) (provider_error envelope : bool) : bool :=
  truthy_str guard || (if provider_error then negb (status =? 0) || envelope else 0 <=? status).
Definition reads_as (written : dict) (good : bool) : Prop :=
  read_provider_diagnostic (Some (JObj written)) = if good then Some written else None.
Lemma guard_cause_known g : guard_cause g ∈ GUARD_CAUSES.
Proof. unfold guard_cause. repeat case_match; try (case_bool_decide; [done|]); try case_bool_decide; unfold GUARD_CAUSES; set_solver. Qed.

(** Each field of a written diagnostic, checked. *)
Definition fields_good (class_ cause source : string) (code : option string) (status chars retained : Z) (sha : json) (native : option Z) (exit_code : Z) : bool :=
  int_between (-255) 255 (JInt status) && int_between (-255) 255 (JInt exit_code) && int_between 0 (2 ^ 63 - 1) (JInt chars) &&
  int_between 0 (2 ^ 63 - 1) (JInt retained) && match native with Some z => int_between (-255) 255 (JInt z) | None => true end &&
  bool_decide (class_ ∈ ["scheduler-guard"; "success"; "capacity"; "interrupted"; "timeout"; "provider-error"]%string) &&
  bool_decide (source ∈ ["scheduler-guard"; "verified-provider-error"; "process-exit"]%string) && bool_decide (cause ∈ _PROVIDER_DIAGNOSTIC_CAUSES) &&
  match code with Some s => bool_decide (s ∈ ["autonomy-abort"; "quota-exhausted"]%string) || exit_code_text s | None => true end &&
  match sha with JNull => true | JStr s => hex_digest s | _ => false end.
Lemma read_diagnostic class_ cause source code status chars retained sha native exit_code quota credit blocking :
  fields_good class_ cause source code status chars retained sha native exit_code = true ->
  reads_as (diagnostic_of class_ cause source code status chars retained sha native exit_code quota credit blocking)
    (class_agrees (diagnostic_of class_ cause source code status chars retained sha native exit_code quota credit blocking)).
Proof.
  intros Hg. unfold reads_as, read_provider_diagnostic. set (d := diagnostic_of _ _ _ _ _ _ _ _ _ _ _ _ _).
  assert (Ed : (fun key => (key, field key d)) <$> _PROVIDER_DIAGNOSTIC_KEYS = d) by reflexivity. rewrite Ed. clear Ed.
  match goal with |- (if ?b then _ else _) = _ => assert (Eb : b = class_agrees d) end; [|by rewrite Eb].
  unfold fields_good in Hg. repeat rewrite andb_true_iff in Hg. destruct Hg as [[[[[[[[[H1 H2] H3] H4] H5] H6] H7] H8] H9] H10].
  change (field "status" d) with (JInt status). change (field "scheduler_status" d) with (JInt exit_code).
  change (field "output_chars" d) with (JInt chars). change (field "retained_bytes" d) with (JInt retained).
  change (field "class" d) with (JStr class_). change (field "source" d) with (JStr source). change (field "cause" d) with (JStr cause).
  change (field "code" d) with (jopt_str code). change (field "retained_sha256" d) with sha. change (field "provider_exit_status" d) with (jopt_int native).
  change (keys_exactly _ d) with true. change (int_is (Z.eqb 1) (field "schema_version" d)) with true.
  change (is_bool (field "provider_quota_diagnostic" d)) with true. change (is_bool (field "provider_credit_diagnostic" d)) with true.
  change (is_bool (field "blocking_prompt" d)) with true.
  rewrite H1, H2, H3, H4. cbn [str_in]. rewrite H6, H7, H8.
  assert (E5 : match jopt_int native with JNull => true | j => int_between (-255) 255 j end = true) by (destruct native; done).
  assert (E9 : match jopt_str code with JNull => true | JStr s => bool_decide (s ∈ ["autonomy-abort"; "quota-exhausted"]%string) || exit_code_text s | _ => false end = true)
    by (destruct code; done).
  rewrite E5, E9, H10. by rewrite andb_true_r.
Qed.

Lemma kind_known status guard pe env : let kind := failure_kind status guard pe env in
  kind.1.1 ∈ ["scheduler-guard"; "success"; "capacity"; "interrupted"; "timeout"; "provider-error"]%string /\ kind.1.2 ∈ _PROVIDER_DIAGNOSTIC_CAUSES.
Proof.
  cbv zeta. unfold failure_kind. destruct (truthy_str guard).
  { split; [by left|]. cbn [fst snd]. pose proof (guard_cause_known guard) as Hc. unfold GUARD_CAUSES, _PROVIDER_DIAGNOSTIC_CAUSES in *. set_solver. }
  repeat case_match; cbn [fst snd]; unfold _PROVIDER_DIAGNOSTIC_CAUSES; set_solver.
Qed.
Lemma known_source guard pe :
  bool_decide ((if truthy_str guard then "scheduler-guard" else if pe : bool then "verified-provider-error" else "process-exit") ∈
    ["scheduler-guard"; "verified-provider-error"; "process-exit"])%string = true.
Proof. by destruct (truthy_str guard), pe. Qed.
(** A class agrees with the rest of the diagnostic that [failure_kind] gives. *)
Lemma kind_agrees status guard q c env chars retained sha native exit_code blocking :
  let kind := failure_kind status guard (q || c) ((q || c) && env) in
  class_agrees (diagnostic_of kind.1.1 kind.1.2 (if truthy_str guard then "scheduler-guard" else if q || c then "verified-provider-error" else "process-exit")
    (stake 64 <$> kind.2) status chars retained sha native exit_code q c blocking) = truthy_str guard || (if q || c then negb (status =? 0) || env else true).
Proof.
  cbv zeta. unfold failure_kind. destruct (truthy_str guard).
  { pose proof (guard_cause_known guard) as Hc. cbn [fst snd]. generalize dependent (guard_cause guard). intros cause Hc.
    unfold GUARD_CAUSES in Hc. repeat (apply elem_of_cons in Hc as [->|Hc]; [by destruct q, c; vm_compute|]). by apply not_elem_of_nil in Hc. }
  generalize (show_Z status). intros shown.
  destruct q, c, env; cbn [orb andb negb]; destruct (status =? 0) eqn:E0; cbn [orb andb negb fst snd]; try (apply Z.eqb_eq in E0 as ->); try by vm_compute.
  all: destruct (char_in [130; 143] status) eqn:Hs; [cbn in Hs; apply orb_true_iff in Hs as [->%Z.eqb_eq|Hs]; [by vm_compute|]; rewrite orb_false_r in Hs; apply Z.eqb_eq in Hs as ->; by vm_compute|].
  all: destruct (status =? 124) eqn:E1; [by apply Z.eqb_eq in E1 as ->; vm_compute|]. all: destruct status; [done|by vm_compute..].
Qed.
Lemma code_good status guard pe env : -255 <= status <= 255 ->
  match stake 64 <$> (failure_kind status guard pe env).2 with
  | Some s => bool_decide (s ∈ ["autonomy-abort"; "quota-exhausted"]%string) || exit_code_text s
  | None => true
  end = truthy_str guard || pe || env || (0 <=? status).
Proof.
  intros Hs. unfold failure_kind. destruct (truthy_str guard); [done|]. cbn [orb]. destruct pe, env; cbn [orb andb negb]; try by destruct (status =? 0).
  destruct (status =? 0) eqn:E0; [by apply Z.eqb_eq in E0 as ->|]. cbn [andb].
  destruct (char_in [130; 143] status) eqn:Hi; [cbn in Hi; symmetry; apply Z.leb_le; lia|]. destruct (status =? 124) eqn:E1; [by apply Z.eqb_eq in E1 as ->|].
  cbn [snd fmap option_fmap option_map]. by apply exit_text.
Qed.

Lemma written_read output native exit_code abort quota credit blocking :
  (forall bs, hex_digest (sha256_hex bs) = true) -> Z.of_nat (length output) < 2 ^ 63 -> -255 <= exit_code <= 255 -> (forall z, native = Some z -> -255 <= z <= 255) ->
  reads_as (exact_stdout_diagnostic sha256_hex output native exit_code abort quota credit blocking)
    (readable_run (default exit_code native) (if exit_code =? AUTONOMY_ABORT_STATUS then abort else EmptyString) (quota || credit)
       (output_signals_credit_exhausted (last_of (Z.to_nat 65536) output))).
Proof.
  intros Hsha Hlen He Hn. rewrite diagnostic_unfold. set (guard := if exit_code =? _ then _ else _). set (kept := last_of _ _).
  set (env := output_signals_credit_exhausted kept). set (status := default exit_code native).
  assert (Hs : -255 <= status <= 255) by (unfold status; destruct native; cbn; auto). cbv zeta.
  set (kind := failure_kind _ _ _ _). pose proof (kind_known status guard (quota || credit) ((quota || credit) && env)) as [Hk1 Hk2].
  pose proof (code_good status guard (quota || credit) ((quota || credit) && env) Hs) as Hc. fold kind in Hk1, Hk2, Hc.
  destruct (truthy_str guard || (quota || credit) || (0 <=? status)) eqn:Eg.
  - assert (Hr : readable_run status guard (quota || credit) env = truthy_str guard || (if quota || credit then negb (status =? 0) || env else true))
      by (unfold readable_run; destruct (truthy_str guard), (quota || credit); cbn in *; congruence).
    rewrite Hr. subst kind. erewrite <- kind_agrees. apply read_diagnostic. unfold fields_good. pose proof (retained_size output) as Hret. fold kept in Hret. rewrite Hret.
    rewrite known_source, !bool_decide_true by done. rewrite Hc.
    assert (Hb : forall z, -255 <= z <= 255 -> int_between (-255) 255 (JInt z) = true) by (intros z Hz; cbn; apply andb_true_iff; split; apply Z.leb_le; lia).
    rewrite !Hb by done. assert (Hl : int_between 0 (2 ^ 63 - 1) (JInt (Z.of_nat (length output))) = true) by (cbn [int_between]; apply andb_true_iff; split; apply Z.leb_le; lia).
    rewrite Hl. assert (Hnat : match native with Some z => int_between (-255) 255 (JInt z) | None => true end = true) by (destruct native; auto).
    rewrite Hnat. cbn [andb].
    assert (Hhex : match (if bool_decide (utf8_encode kept = []) then JNull else JStr (sha256_hex (utf8_encode kept))) with
        JNull => true | JStr s => hex_digest s | _ => false end = true) by (case_bool_decide; [done|apply Hsha]).
    rewrite Hhex, andb_true_r. by destruct (truthy_str guard), (quota || credit), env; cbn [orb andb] in *.
  - apply orb_false_iff in Eg as [[Eg Eq]%orb_false_iff Es]. rewrite Eq in *. cbn [andb] in *. rewrite Eg, Es in Hc. cbn in Hc.
    unfold readable_run. rewrite Eg, Es. cbn [orb]. unfold reads_as, read_provider_diagnostic.
    match goal with |- (if ?b then _ else _) = _ => assert (Eb : b = false); [|by rewrite Eb] end.
    change (field "code" (diagnostic_of ?a ?b ?c ?d ?e ?f ?g ?h ?i ?j ?k ?l ?m)) with (jopt_str d).
    assert (Hcode : match jopt_str (stake 64 <$> kind.2) with
        | JNull => true
        | JStr s => bool_decide (s ∈ ["autonomy-abort"; "quota-exhausted"]%string) || exit_code_text s
        | _ => false
        end = false) by (destruct kind.2; done).
    rewrite Hcode. by rewrite !andb_false_r.
Qed.
End laws.

(** C26: A run's diagnostic is read back as it was written, but for two kinds of
    runs.  Of what [run_fresh_exact_stdout] writes beside the output of a run,
    the reader accepts everything a guard aborted and everything with an exit
    status from 0 up; it refuses, without a provider error, a run that a signal
    ended, and a run that ended with 0 although an error of the provider was
    seen, unless its output shows the envelope of an exhausted account. *)
Theorem diagnostic_roundtrip (C : Chars) (sha256_hex : bytes -> string) (output : text) (native : option Z) (exit_code : Z) (abort_reason : string)
    (quota credit blocking : bool) :
  (forall bs, hex_digest (sha256_hex bs) = true) -> Z.of_nat (length output) < 2 ^ 63 ->
  -255 <= exit_code <= 255 -> (forall z, native = Some z -> -255 <= z <= 255) ->
  let written := exact_stdout_diagnostic sha256_hex output native exit_code abort_reason quota credit blocking in
  let guard := if exit_code =? AUTONOMY_ABORT_STATUS then abort_reason else EmptyString in
  let status := default exit_code native in
  read_provider_diagnostic (Some (JObj written)) =
    (if truthy_str guard || (if quota || credit then negb (status =? 0) || output_signals_credit_exhausted (last_of (Z.to_nat 65536) output) else 0 <=? status)
     then Some written else None).
Proof. intros Hsha Hlen He Hn. by apply written_read. Qed.

(** Prose is not taken for an exhausted account.  The signature of an
    exhausted account needs one of two tokens of a machine or an opening brace;
    and under an orchestrator that trusts clean exits, a run that ended with 0
    is never submitted again, whatever its output says. *)
Theorem prose_is_no_exhaustion (C : Chars) (output : text) :
  (output_signals_credit_exhausted output = true ->
     search_folded (lit "usage_limit_exceeded") output = true \/ search_folded (lit "buycreditsurl") output = true \/ existsb (fun c => ch_fold c =? 123) output = true) /\
  (forall attached, output_is_retryable 0 output attached true = false).
Proof.
  split; [|by intros []]. unfold output_signals_credit_exhausted, search_folded. intros Hs.
  assert (Hor : forall a b s, search (Either a b) s = true -> search a s = true \/ search b s = true).
  { clear. intros a b s. unfold search. generalize (@None Z). induction s as [|c s IH]; intros prev; cbn [rx_from rx_match].
    all: destruct (rx_match a prev _ _), (rx_match b prev _ _); auto; apply IH. }
  assert (Hbrace : forall r, needs (Z.eqb 123) r -> search r (ch_fold <$> output) = true -> existsb (fun c => ch_fold c =? 123) output = true).
  { intros r Hn Hr. apply (needs_search _ _ _ Hn) in Hr. rewrite <- Hr. clear. induction output as [|c s IH]; [done|].
    rewrite fmap_cons. cbn [existsb]. by rewrite IH, Z.eqb_sym. }
  assert (Hlit : forall c, (fun x => x =? 123) c = true -> Z.eqb 123 c = true) by (intros c; by rewrite Z.eqb_sym).
  apply Hor in Hs as [?|[?|[Hs|[Hs|Hs]%Hor]%Hor]%Hor]; [by left|by right; left| | |]; right; right; revert Hs; apply Hbrace; cbn; auto.
Qed.

(** ** Runs *)

Definition demo_digest (bs : bytes) : string := "e3b0c44298fc1c149afbf4c8996fb92427ae41e4649b934ca495991b7852b855".
Lemma diagnostic_roundtrip_witness :
  (forall bs, hex_digest (demo_digest bs) = true) /\
  read_provider_diagnostic (Some (JObj (exact_stdout_diagnostic demo_digest (b_ "Error: usage limit reached") (Some 1) 1 "" true false false))) =
    Some (exact_stdout_diagnostic demo_digest (b_ "Error: usage limit reached") (Some 1) 1 "" true false false).
Proof.
  split; [intros bs; vm_compute; reflexivity|].
  refine (diagnostic_roundtrip latin demo_digest (b_ "Error: usage limit reached") (Some 1) 1 "" true false false _ _ _ _).
  - intros bs. vm_compute. reflexivity.
  - vm_compute. reflexivity.
  - lia.
  - intros z [= <-]. lia.
Defined.
(** A provider that was killed leaves a diagnostic that its reader refuses. *)
Example killed_run_unreadable :
  read_provider_diagnostic (Some (JObj (exact_stdout_diagnostic demo_digest [] (Some (-9)) (-9) "" false false false))) = None.
Proof. vm_compute. reflexivity. Qed.
(** Prose about a payment, with a brace further on, is taken for an envelope. *)
Example payment_prose :
  output_signals_credit_exhausted (points "the handler answers Payment Required when the balance is 0, so if (x) { retry }") = true.
Proof. vm_compute. reflexivity. Qed.
Example question_at_tail : search_folded QUESTION_LINE_RE (points "done
 - Which of the two do you prefer?") = true /\ search_folded QUESTION_LINE_RE (points "Which one? The first.") = false.
Proof. vm_compute. done. Qed.
