(* ===== verification/Scheduler.v ===== *)
(** * Launching a provider when it has capacity ([scheduler.py])

    The scheduler waits until a provider is usable, launches it, reads what the
    run left behind, blocks the route or model that failed in the ledger of
    [Routes], and tries again after the configured delays.  Its events, the
    commands it runs and its sleeps are a trace; lines of the text log and what
    it prints are left out. *)

From Stdlib Require Import QArith Ascii.
From S2P Require Import Prelude Py Bytes Regex StoreData StoreTasks Capacity Config Routes Diagnostics.
From stdpp Require Import options.
Local Open Scope Z_scope.

Definition LAUNCH_REFUSED_STATUS : Z := 78.

(** The fields of [SchedulerConfig] that decide what it does. *)
Record SchedulerConfig : Type := SchedCfg {
  sg_provider : string;
  sg_not_before_epoch : option Z;
  sg_model : string;
  sg_allow_fallback : bool;
  sg_capacity_provider : string;
  sg_route_id : string;
  sg_scope : string;
  sg_min_remaining : string;
  sg_poll_interval : string;
  sg_max_unavailable_wait : string;
  sg_retry_delays : string;
  sg_cwd : string;
  sg_attached : bool;
  sg_dry_run : bool;
  sg_wake : bool;
  sg_suspend_until_ready : bool;
  sg_pre_suspend_confirmation_seconds : Z;
  sg_exact_stdout : bool;
  sg_ralph_robin_active : bool;
}.
(** What a launch leaves: the status file, the output, the diagnostic beside
    them, and how long it took. *)
Record attempt : Type := Attempt {
  at_status : option string;
  at_output : option string;
  at_diagnostic : option json;
  at_seconds : Q;
}.
Inductive sched_event : Type :=
  | Logged (kind : string) (data : dict)
  | Ran (argv : list string)
  | Slept (seconds : Z)
  | Launched (number : Z).
(** [SystemExit]; another exception; or still waiting when the fuel is used up. *)
Inductive sched_stop : Type := Exits (code : Z) | Failed (e : exn) | Waiting.
(** The ledger of blocks, the target a wake alarm is armed for, the text of the
    last status file, the trace. *)
Record sched : Type := Sched { sd_ledger : ledger; sd_armed : Z; sd_status : string; sd_events : list sched_event }.
Abbreviation SM := (ST sched_stop sched).

(** What the environment answers, reading by reading: a request of the mission
    to stop waiting; commands that exist and what running one gives; variables;
    the configuration file, [None] when it cannot be loaded; what launches
    leave; the provider's command line, the host's limit on it and the variables
    it is given; [sha256]; the command line of a timer. *)
Class SchedEnv : Type := {
  sc_interrupt : nat -> bool;
  sc_have : nat -> string -> bool;
  sc_run : nat -> list string -> Z * string;
  sc_getenv : string -> option string;
  sc_config : nat -> option dict;
  sc_launch : nat -> Z -> result exn attempt;
  sc_argv : list string;
  sc_arg_max : option Z;
  sc_environ : list (string * string);
  sc_sha256 : bytes -> string;
  sc_resume_argv : list string;
}.

Section scheduler.
Context `{ConfigEnv} `{RouteEnv} `{SchedEnv}.

Definition on_ledger {A} (m : RM A) : SM A := fun s =>
  let '(r, l) := m (sd_ledger s) in
  (match r with Ok a => Ok a | Raise e => Raise (Failed e) end, Sched l (sd_armed s) (sd_status s) (sd_events s)).
Definition asking {A} (f : nat -> A) : SM A := on_ledger (reading f).
Definition note (e : sched_event) : SM unit := modify (fun s => Sched (sd_ledger s) (sd_armed s) (sd_status s) (sd_events s ++ [e])).
Definition log_event (kind : string) (data : dict) : SM unit := note (Logged kind data).
Definition fails {A} (r : result exn A) : SM A := match r with Ok a => mret a | Raise e => raise (Failed e) end.
Definition now_epoch : SM Z := asking r_now.
Definition run_command (argv : list string) : SM (Z * string) := note (Ran argv) ;; asking (fun n => sc_run n argv).
(** [time.sleep]. *)
Definition sleep (seconds : Z) : SM unit :=
  if seconds <? 0 then raise (Failed (ValueError "sleep length must be non-negative")) else note (Slept seconds).
Definition to_int (s : string) : SM Z := fails (py_int (JStr s)).
(** [int(os.environ.get(name, d) or d)]. *)
Definition int_variable (name d : string) : SM Z :=
  to_int (match sc_getenv name with Some v => if truthy_str v then v else d | None => d end).

(** ** Waiting *)

Definition is_undetermined_reason (reason : string) : bool := negb (bool_decide (reason = "rate-limited"%string)).
(** Slices of a second; [remaining] is a whole number, so [min(remaining, 1.0)] is one. *)
Fixpoint _sleep_interruptibly (fuel : nat) (target : Z) : SM bool :=
  match fuel with
  | O => raise Waiting
  | S fuel =>
      stop ← asking sc_interrupt;
      if stop : bool then mret false
      else
        now ← now_epoch;
        if target - now <=? 0 then mret true else sleep 1 ;; _sleep_interruptibly fuel target
  end.
(** [usage_snapshot_and_decision] of common.py over the reading of one provider. *)
Definition provider_decision (cfg : SchedulerConfig) : SM (dict * dict) :=
  let source := if truthy_str (sg_capacity_provider cfg) then sg_capacity_provider cfg else sg_provider cfg in
  if bool_decide (source = sg_provider cfg) then
    on_ledger (read_usage (CapacityRead (sg_provider cfg) (sg_scope cfg) (sg_min_remaining cfg) (sg_poll_interval cfg) (opt_str (sg_model cfg)) (sg_allow_fallback cfg)))
  else
    answer ← on_ledger (read_usage (CapacityRead source (sg_scope cfg) (sg_min_remaining cfg) (sg_poll_interval cfg) None true));
    mret (answer.1, dset "capacity_provider" (JStr source) (dset "provider" (JStr (sg_provider cfg)) answer.2)).
Definition _route_or_provider_decision (cfg : SchedulerConfig) : SM (dict * dict) :=
  if truthy_str (sg_route_id cfg) then
    conf ← asking sc_config;
    route ← fails (route_policy (default [] conf) (sg_route_id cfg));
    match route with
    | Some route =>
        on_ledger (usage_snapshot_and_decision_for_route route (sg_scope cfg) (sg_min_remaining cfg) (sg_poll_interval cfg)
          (opt_str (sg_model cfg)) (sg_allow_fallback cfg))
    | None => provider_decision cfg
    end
  else provider_decision cfg.

(** A timer that wakes the host some time before the target, best effort. *)
Definition log_wake_plan (cfg : SchedulerConfig) (target_epoch : Z) : SM unit :=
  if negb (sg_wake cfg) then mret tt
  else
    now ← now_epoch;
    min_lead ← int_variable "LLM_SCHEDULER_WAKE_MIN_LEAD" "120";
    armed ← gets sd_armed;
    if (target_epoch - now <? min_lead) || (target_epoch <=? armed) then mret tt
    else
      let wake_epoch := if target_epoch - 120 <=? now then target_epoch else target_epoch - 120 in
      id ← asking r_now;
      let unit_ := ("llm-scheduler-wake-" +:+ show_Z id)%string in
      (if sg_dry_run cfg then mret tt
       else
         have ← asking (fun n => sc_have n "systemd-run");
         if have : bool then
           ran ← run_command ["systemd-run"; "--user"; "--unit=" +:+ unit_; "--on-calendar=@" +:+ show_Z wake_epoch; "--timer-property=WakeSystem=true"; "true"]%string;
           log_event "wake_attempt" [("method", JStr "systemd-run"); ("unit", JStr unit_); ("wake_epoch", JInt wake_epoch); ("status", JInt ran.1); ("output", JStr ran.2)]%string
         else mret tt) ;;
      modify (fun s => Sched (sd_ledger s) target_epoch (sd_status s) (sd_events s)).
Definition schedule_failed (data : dict) : SM bool := log_event "suspend_schedule_failed" data ;; mret false.
Definition schedule_resume_and_suspend (cfg : SchedulerConfig) (target_epoch : Z) (reason : string) : SM bool :=
  timers ← asking (fun n => sc_have n "systemd-run");
  if negb timers then schedule_failed [("reason", JStr "missing-systemd-run")]%string
  else
    systemctl ← asking (fun n => sc_have n "systemctl");
    if negb systemctl then schedule_failed [("reason", JStr "missing-systemctl")]%string
    else
      now ← now_epoch;
      min_lead ← int_variable "LLM_SCHEDULER_SUSPEND_MIN_LEAD" "120";
      let lead := target_epoch - now in
      if lead <? min_lead then schedule_failed [("reason", JStr "insufficient-lead"); ("lead", JInt lead); ("min_lead", JInt min_lead)]%string
      else
        id ← asking r_now;
        let unit_ := ("llm-scheduler-resume-" +:+ sg_provider cfg +:+ "-" +:+ show_Z id)%string in
        log_event "suspend_schedule_plan" [("unit", JStr unit_); ("reason", JStr reason); ("target_epoch", JInt target_epoch)]%string ;;
        if sg_dry_run cfg then log_event "suspend_schedule_dry_run" [("unit", JStr unit_); ("target_epoch", JInt target_epoch)]%string ;; mret true
        else
          ran ← run_command (["systemd-run"; "--user"; "--unit=" +:+ unit_; "--on-calendar=@" +:+ show_Z target_epoch; "--timer-property=WakeSystem=true"]%string ++
                  sc_resume_argv);
          log_event "suspend_schedule_attempt" [("unit", JStr unit_); ("status", JInt ran.1); ("output", JStr ran.2); ("target_epoch", JInt target_epoch)]%string ;;
          if negb (ran.1 =? 0) then mret false
          else
            active ← run_command ["systemctl"; "--user"; "is-active"; "--quiet"; unit_ +:+ ".timer"]%string;
            if negb (active.1 =? 0) then schedule_failed [("reason", JStr "timer-not-active"); ("unit", JStr unit_)]%string
            else if bool_decide (sc_getenv "LLM_SCHEDULER_NO_ACTUAL_SUSPEND" = Some "1"%string) then
              log_event "suspend_skipped" [("reason", JStr "env")]%string ;; mret true
            else
              (if 0 <? sg_pre_suspend_confirmation_seconds cfg then sleep (sg_pre_suspend_confirmation_seconds cfg) else mret tt) ;;
              log_event "pre_suspend_confirmation" [("unit", JStr unit_); ("reason", JStr reason); ("target_epoch", JInt target_epoch)]%string ;;
              run_command ["sync"]%string ;; run_command ["systemctl"; "suspend"]%string ;; mret true.

(** At a gate: arm, hand over to a timer, or go on in this process.  The answer
    is whether the wait goes on here; it ends the process when a timer took over. *)
Definition hand_over (cfg : SchedulerConfig) (target : Z) (reason : string) : SM unit :=
  log_wake_plan cfg target ;;
  if sg_suspend_until_ready cfg then
    scheduled ← schedule_resume_and_suspend cfg target reason;
    if scheduled : bool then log_event "final" [("status", JStr "scheduled")]%string ;; raise (Exits 0)
    else log_event "suspend_schedule_fallback" [("reason", JStr "schedule_resume_and_suspend failed"); ("gate", JStr reason)]%string
  else mret tt.
(** Sleeping to the target; a request of the mission ends the process. *)
Definition wait_here (fuel : nat) (target : Z) : SM unit :=
  slept ← _sleep_interruptibly fuel target; if slept : bool then mret tt else raise (Exits 143).

(** What a decision means for the wait: launch, or until when to wait, and
    since when the provider has been undetermined. *)
Inductive wait_step : Type := W_ready | W_until (target : Z) (reason : string) (undetermined_since : option Z).
Definition wait_target (cfg : SchedulerConfig) (decision : dict) : SM Z :=
  match dget "wait_until" decision with
  | Some j => if truthy j then fails (py_int j) else now ← now_epoch; poll ← to_int (sg_poll_interval cfg); mret (now + poll)
  | None => now ← now_epoch; poll ← to_int (sg_poll_interval cfg); mret (now + poll)
  end.
Definition optimistic (reason : string) (waited max_wait : Z) (more : dict) : SM wait_step :=
  log_event "optimistic_proceed" ([("reason", JStr reason); ("waited", JInt waited); ("max_unavailable_wait", JInt max_wait)]%string ++ more) ;; mret W_ready.
(** [decision.get(...) is True] of the key usable, and the reason. *)
Definition decision_usable (decision : dict) : bool := match dget "usable" decision with Some (JBool true) => true | _ => false end.
Definition decision_reason (decision : dict) : string := py_str (default JNull (dget "reason" decision)).
Definition judge (cfg : SchedulerConfig) (now : Z) (undetermined_since : option Z) : SM wait_step :=
  answer ← _route_or_provider_decision cfg;
  let '(snapshot, decision) := answer in
  log_event "usage_snapshot" snapshot ;; log_event "usage_decision" decision ;;
  let reason := decision_reason decision in
  if decision_usable decision then mret W_ready
  else if is_undetermined_reason reason then
    let since := default now undetermined_since in
    let waited := now - since in
    max_wait ← to_int (sg_max_unavailable_wait cfg);
    if (0 <? max_wait) && (max_wait <=? waited) then optimistic reason waited max_wait []
    else if sg_suspend_until_ready cfg then optimistic reason waited max_wait [("suspend_mode", JBool true)]%string
    else target ← wait_target cfg decision; mret (W_until target reason (Some since))
  else target ← wait_target cfg decision; mret (W_until target reason None).
(** The not-before gate; the answer is whether to read the provider. *)
Definition not_before_gate (fuel : nat) (cfg : SchedulerConfig) (now not_before : Z) : SM bool :=
  if now <? not_before then
    log_event "wait_decision" [("reason", JStr "not-before"); ("wait_until", JInt not_before)]%string ;;
    hand_over cfg not_before "not-before" ;;
    if sg_dry_run cfg then mret false else wait_here fuel not_before ;; mret true
  else mret true.
Fixpoint wait_rounds (rounds fuel : nat) (cfg : SchedulerConfig) (not_before : Z) (undetermined_since : option Z) : SM unit :=
  match rounds with
  | O => raise Waiting
  | S rounds =>
      now ← now_epoch;
      goes_on ← not_before_gate fuel cfg now not_before;
      if goes_on : bool then
        step ← judge cfg now undetermined_since;
        match step with
        | W_ready => mret tt
        | W_until target reason since =>
            hand_over cfg target reason ;;
            if sg_dry_run cfg then mret tt else wait_here fuel target ;; wait_rounds rounds fuel cfg not_before since
        end
      else mret tt
  end.
Definition wait_until_usable (fuel : nat) (cfg : SchedulerConfig) : SM unit :=
  not_before ← match sg_not_before_epoch cfg with Some t => mret t | None => now_epoch end;
  wait_rounds fuel fuel cfg not_before None.

(** ** Blocks *)

(** [retry[- ]after[: ]+(\d+)\s*(s|...|m|...|h|...)?] at the start of a folded text. *)
Fixpoint read_digits (acc : Z) (s : text) : Z * text :=
  match s with c :: s' => if ch_digit c then read_digits (10 * acc + (c - 48)) s' else (acc, s) | [] => (acc, s) end.
Definition hint_at (s : text) : option Z :=
  let word := b_ "retry" in let after := b_ "after" in
  if text_starts word s then
    match drop 5 s with
    | c :: s =>
        if char_in (b_ "- ") c && text_starts after s then
          match drop 5 s with
          | c :: s =>
              if char_in (b_ ": ") c then
                match skip_while (char_in (b_ ": ")) s with
                | (d :: _) as s =>
                    if ch_digit d then
                      let '(value, s) := read_digits 0 s in
                      Some (match skip_while ch_space s with
                            | 109 :: _ => value * 60
                            | 104 :: _ => value * 3600
                            | _ => value
                            end)
                    else None
                | [] => None
                end
              else None
          | [] => None
          end
        else None
    | [] => None
    end
  else None.
Fixpoint hint_from (prev : option Z) (s : text) : option Z :=
  match s with
  | [] => None
  | c :: s' => match (if edge prev s then hint_at s else None) with Some v => Some v | None => hint_from (Some c) s' end
  end.
Definition _parse_retry_after_seconds (output : string) : option Z := hint_from None (ch_fold <$> points output).
Definition record_block (key reason output kind : string) (data : dict) : SM unit :=
  backoff ← fails default_backoff_seconds;
  now ← now_epoch;
  let blocked_until := now + default backoff (_parse_retry_after_seconds output) in
  on_ledger (record_local_block key reason blocked_until (stake 2000 output) backoff) ;;
  log_event kind (data ++ [("blocked_until", JInt blocked_until); ("reason", JStr reason)]%string).
Definition _record_route_runtime_block (cfg : SchedulerConfig) (output reason : string) : SM unit :=
  record_block (sg_route_id cfg) reason output "route_runtime_block" [("route", JStr (sg_route_id cfg))]%string.
Definition _record_route_runtime_block_autonomy (cfg : SchedulerConfig) (output : string) : SM unit :=
  record_block (sg_route_id cfg) "autonomy-abort" output "route_runtime_block" [("route", JStr (sg_route_id cfg))]%string.
Definition _record_model_runtime_block (cfg : SchedulerConfig) (output : string) : SM unit :=
  let key := model_block_key (sg_provider cfg) (sg_model cfg) in
  record_block key "credit-exhausted" output "model_runtime_block" [("provider", JStr (sg_provider cfg)); ("model", JStr (sg_model cfg)); ("key", JStr key)]%string.
Definition clear_route_runtime_block (route_id : string) : SM unit := on_ledger (clear_local_block route_id) ;; mret tt.
Definition clear_model_runtime_block (provider model : string) : SM unit :=
  if truthy_str provider && truthy_str model then on_ledger (clear_local_block (model_block_key provider model)) ;; mret tt else mret tt.

(** ** One attempt *)

Definition SIDECAR_KEYS : list string :=
  ["provider_exit_status"; "scheduler_status"; "provider_quota_diagnostic"; "provider_credit_diagnostic"; "blocking_prompt"]%string.
Definition keep_keys (keys : list string) (d : dict) : dict := (fun k => (k, field k d)) <$> keys.
Definition status_text (a : attempt) : string := match at_status a with Some t => if truthy_str t then t else "124" | None => "124" end.
Definition attempt_status (a : attempt) : Z := default 124 (int_of_text (status_text a)).
Definition write_status (t : string) : SM unit := modify (fun s => Sched (sd_ledger s) (sd_armed s) t (sd_events s)).
Definition attempt_output (a : attempt) : string := default EmptyString (at_output a).
(** The diagnostic beside the output, over what the exit status says. *)
Definition attempt_failure (a : attempt) : result exn dict :=
  let output := points (attempt_output a) in
  let failure := provider_failure_diagnostic sc_sha256 output (attempt_status a) "" false in
  match read_provider_diagnostic (at_diagnostic a) with
  | None => Ok failure
  | Some d =>
      let failure := dupdate failure (keep_keys SIDECAR_KEYS d) in
      let failure := dupdate failure (keep_keys ["class"; "code"; "cause"]%string d) in
      if is_true (field "provider_quota_diagnostic" d) || is_true (field "provider_credit_diagnostic" d) then
        native ← match field "provider_exit_status" d with JNull => Ok (attempt_status a) | j => py_int j end;
        let guard := if is_str "scheduler-guard" (field "class" d) then py_str (field "cause" d) else EmptyString in
        Ok (dupdate (dupdate failure (provider_failure_diagnostic sc_sha256 output native guard true)) (keep_keys SIDECAR_KEYS d))
      else Ok failure
  end.
(** A trust prompt that the operator declined. *)
Definition declined (cfg : SchedulerConfig) (a : attempt) : bool :=
  bool_decide (sg_provider cfg = "claude"%string) && negb (char_in [0; 124; 130; 143; AUTONOMY_ABORT_STATUS] (attempt_status a)) &&
  Qle_bool (at_seconds a) (inject_Z TRUST_DECLINE_MAX_SECONDS) && output_shows_declined_trust_prompt (points (attempt_output a)).
Definition credit_diagnostic (cfg : SchedulerConfig) (a : attempt) : bool :=
  if sg_exact_stdout cfg then
    match read_provider_diagnostic (at_diagnostic a) with Some d => is_true (field "provider_credit_diagnostic" d) | None => false end
  else output_signals_credit_exhausted (points (attempt_output a)).
Definition retryable (cfg : SchedulerConfig) (a : attempt) : bool :=
  output_is_retryable (attempt_status a) (points (attempt_output a)) (sg_attached cfg) (sg_ralph_robin_active cfg).
Definition pinned (cfg : SchedulerConfig) : bool := truthy_str (sg_model cfg) && truthy_str (sg_provider cfg).
Definition settle_attempt (cfg : SchedulerConfig) (number : Z) (a : attempt) (failure : dict) : SM Z :=
  if declined cfg a then
    log_event "operator_declined" [("attempt", JInt number); ("provider", JStr (sg_provider cfg)); ("reason", JStr "folder-trust-declined"); ("exit_code", JInt (attempt_status a))]%string ;;
    mret OPERATOR_DECLINED_STATUS
  else if attempt_status a =? AUTONOMY_ABORT_STATUS then
    log_event "autonomy_abort" [("attempt", JInt number); ("failure", JObj failure)]%string ;;
    (if truthy_str (sg_route_id cfg) then _record_route_runtime_block_autonomy cfg (attempt_output a) else mret tt) ;;
    mret AUTONOMY_ABORT_STATUS
  else if credit_diagnostic cfg a then
    (if truthy_str (sg_route_id cfg) then _record_route_runtime_block cfg (attempt_output a) "credit-exhausted"
     else if pinned cfg then _record_model_runtime_block cfg (attempt_output a) else mret tt) ;;
    log_event "credit_exhausted" [("route", JStr (sg_route_id cfg)); ("provider", JStr (sg_provider cfg)); ("model", JStr (sg_model cfg)); ("attempt", JInt number)]%string ;;
    mret AUTONOMY_ABORT_STATUS
  else
    let clean := attempt_status a =? 0 in
    let routed := truthy_str (sg_route_id cfg) in
    (if clean && routed then clear_route_runtime_block (sg_route_id cfg) else mret tt) ;;
    (if clean && negb routed && pinned cfg then clear_model_runtime_block (sg_provider cfg) (sg_model cfg) else mret tt) ;;
    (if retryable cfg a && routed then _record_route_runtime_block cfg (attempt_output a) "runtime-failure" else mret tt) ;;
    mret (if retryable cfg a then 1 else 0).
Definition submit_once (cfg : SchedulerConfig) (number : Z) : SM Z :=
  log_event "command_plan" [("attempt", JInt number)]%string ;;
  note (Launched number) ;;
  launched ← asking (fun n => sc_launch n number);
  a ← fails launched;
  write_status (status_text a) ;;
  failure ← fails (attempt_failure a);
  log_event "attempt_result" [("attempt", JInt number); ("status", JInt (attempt_status a)); ("failure", JObj failure)]%string ;;
  settle_attempt cfg number a failure.

(** ** The attempts *)

Definition parse_delays (spec : string) : result exn (list Z) :=
  if truthy_str spec then mapM (fun x => py_int (JStr x)) (select truthy_str (split_char ","%char spec)) else Ok [].
Definition final (status : string) (code : Z) : SM Z := log_event "final" [("status", JStr status)]%string ;; mret code.
(** An answer that ends the attempts. *)
Definition settled (result : Z) : option string :=
  if result =? 0 then Some "success"%string
  else if result =? AUTONOMY_ABORT_STATUS then Some "autonomy-abort"%string
  else if result =? OPERATOR_DECLINED_STATUS then Some "operator-declined"%string
  else None.
(** [main] sleeps through its delays; an orchestrated run waits interruptibly. *)
Inductive pause : Type := P_sleep | P_interruptible (fuel : nat).
Definition pause_for (p : pause) (delay : Z) : SM bool :=
  match p with
  | P_sleep => sleep delay ;; mret true
  | P_interruptible fuel => now ← now_epoch; _sleep_interruptibly fuel (now + delay)
  end.
(** Its shell answered that it cannot run. *)
Definition _command_could_not_execute (s : sched) : bool := bool_decide (strip (sd_status s) ∈ ["126"; "127"]%string).
Definition retry_pointless (p : pause) : SM bool := match p with P_sleep => mret false | P_interruptible _ => gets _command_could_not_execute end.
Fixpoint try_again (cfg : SchedulerConfig) (p : pause) (number : Z) (delays : list Z) : SM Z :=
  match delays with
  | [] => final "failed" 1
  | delay :: delays =>
      pointless ← retry_pointless p;
      if pointless : bool then final "failed" 1
      else
        log_event "retry" [("after_attempt", JInt number); ("delay", JInt delay)]%string ;;
        waited ← pause_for p delay;
        if waited : bool then
          result ← submit_once cfg (number + 1);
          match settled result with
          | Some status => final status result
          | None => try_again cfg p (number + 1) delays
          end
        else mret 143
  end.
Definition attempts (cfg : SchedulerConfig) (p : pause) : SM Z :=
  delays ← fails (parse_delays (sg_retry_delays cfg));
  result ← submit_once cfg 1;
  match settled result with Some status => final status result | None => try_again cfg p 1 delays end.

(** [main] after its arguments. *)
Definition main_run (fuel : nat) (cfg : SchedulerConfig) : SM Z :=
  wait_until_usable fuel cfg ;;
  if sg_dry_run cfg then final "dry-run" 0 else attempts cfg P_sleep.

Definition MAX_ARG_STRLEN : Z := 131072.
Definition command_line_limit_violation (argv : list string) : string :=
  match find (fun size => MAX_ARG_STRLEN <=? size)%Z (utf8_len <$> argv) with
  | Some size =>
      "prompt too large for the provider command line (" +:+ show_Z size +:+ " bytes); the operating system accepts at most " +:+
      show_Z (MAX_ARG_STRLEN - 1) +:+ " bytes in one argument. Shorten the task prompt or objective, or use a mission command template that reads {prompt_file}."
  | None =>
      let limit := default 0%Z sc_arg_max in
      let env_size := sumZ (fun kv => utf8_len kv.1 + utf8_len kv.2 + 2)%Z sc_environ in
      let total := (sumZ utf8_len argv + Z.of_nat (length argv) + env_size)%Z in
      if ((0 <? limit) && (limit - 4096 <? total))%Z then
        "prompt too large for the provider command line (" +:+ show_Z total +:+ " bytes of arguments and environment); the operating system accepts at most " +:+
        show_Z limit +:+ " bytes. Shorten the task prompt or objective, or use a mission command template that reads {prompt_file}."
      else EmptyString
  end%string.
(** [except SystemExit]. *)
Definition catch_exit (m : SM unit) : SM (option Z) := fun s =>
  match m s with
  | (Ok _, s') => (Ok None, s')
  | (Raise (Exits code), s') => (Ok (Some code), s')
  | (Raise e, s') => (Raise e, s')
  end.
(** [run_scheduler_inline] of ralph_robin.py. *)
Definition run_scheduler_inline (fuel : nat) (cfg : SchedulerConfig) : SM Z :=
  exited ← catch_exit (wait_until_usable fuel cfg);
  match exited with
  | Some code => mret code
  | None =>
      let violation := command_line_limit_violation sc_argv in
      if truthy_str violation && negb (sg_dry_run cfg) then
        write_status (show_Z LAUNCH_REFUSED_STATUS) ;;
        log_event "launch_refused" [("reason", JStr violation); ("argv_bytes", JInt (sumZ utf8_len sc_argv))]%string ;;
        final "launch-refused" LAUNCH_REFUSED_STATUS
      else if sg_dry_run cfg then final "dry-run" 0
      else attempts cfg (P_interruptible fuel)
  end.
End scheduler.
