(* ===== verification/SchedulerLaws.v ===== *)
(** * Laws of the scheduler

    When a provider is launched, how often, what a run that failed leaves in the
    ledger of blocks, and where the wait miscounts. *)

From Stdlib Require Import QArith Ascii.
From S2P Require Import Prelude Trace Py Bytes Regex StoreData StoreTasks Capacity Config Routes ConfigLaws RoutesLaws Diagnostics Scheduler.
From stdpp Require Import options.
Local Open Scope Z_scope.

#[local] Set Default Proof Using "All".
Section laws.
Context `{ConfigEnv} `{RouteEnv} `{SchedEnv}.

(** ** Time and the trace *)

Definition tick_of (s : sched) : nat := l_tick (sd_ledger s).
Definition later (s s' : sched) : Prop := (tick_of s <= tick_of s')%nat.
#[local] Instance later_preorder : PreOrder later.
Proof. split; [intros s; unfold later; lia|intros a b c; unfold later; lia]. Qed.
Definition ticks (l l' : ledger) : Prop := (l_tick l <= l_tick l')%nat.
#[local] Instance ticks_preorder : PreOrder ticks.
Proof. split; [intros s; unfold ticks; lia|intros a b c; unfold ticks; lia]. Qed.
Abbreviation hushed := (silent sd_events).

Lemma hushed_ledger {A} (m : RM A) : keeps hushed (on_ledger m).
Proof. intros s. unfold on_ledger. by destruct (m _) as [[a|e] l]. Qed.
Lemma hushed_fails {A} (r : result exn A) : keeps hushed (fails r).
Proof. by destruct r. Qed.
Lemma hushed_modify (f : sched -> sched) : (forall s, sd_events (f s) = sd_events s) -> keeps hushed (modify f : SM unit).
Proof. intros Hf s. apply Hf. Qed.
#[local] Hint Resolve hushed_ledger hushed_fails : py_keeps.
Lemma ticks_reading {A} (f : nat -> A) : keeps ticks (reading f).
Proof. intros s. unfold reading, ticks. cbn. lia. Qed.
#[local] Hint Resolve ticks_reading : py_keeps.
Lemma ticks_raise {A} (r : result exn A) : keeps ticks (lift_result r : RM A).
Proof. apply keeps_lift. exact _. Qed.
#[local] Hint Resolve ticks_raise : py_keeps.
Lemma ticks_usage req : keeps ticks (read_usage req).
Proof. unfold read_usage. solve_keeps. Qed.
#[local] Hint Resolve ticks_usage : py_keeps.
Lemma ticks_block id : keeps ticks (read_local_block id).
Proof. unfold read_local_block. solve_keeps. Qed.
#[local] Hint Resolve ticks_block : py_keeps.
Lemma ticks_override route snap dec : keeps ticks (_apply_local_block_override route snap dec).
Proof. unfold _apply_local_block_override. cbv zeta. solve_keeps. Qed.
#[local] Hint Resolve ticks_override : py_keeps.
Lemma ticks_scope route cli b : keeps ticks (opaque_scope_for_route route cli b).
Proof. unfold opaque_scope_for_route. cbv zeta. solve_keeps. Qed.
#[local] Hint Resolve ticks_scope : py_keeps.
Lemma ticks_route route w m p model fb : keeps ticks (usage_snapshot_and_decision_for_route route w m p model fb).
Proof.
  unfold usage_snapshot_and_decision_for_route, route_opaque, route_of_provider, route_delegated, undecided, route_cli_present. cbv zeta. solve_keeps.
Qed.
#[local] Hint Resolve ticks_route : py_keeps.

Lemma later_ledger {A} (m : RM A) : keeps ticks m -> keeps later (on_ledger m).
Proof. intros Hm s. specialize (Hm (sd_ledger s)). unfold on_ledger, later, tick_of, ticks in *. by destruct (m _) as [[a|e] l]. Qed.
#[local] Hint Extern 1 (keeps later (on_ledger _)) => (apply later_ledger; solve [eauto with py_keeps]) : py_keeps.
Lemma later_fails {A} (r : result exn A) : keeps later (fails r).
Proof. destruct r; [apply keeps_ret|apply keeps_raise]; exact _. Qed.
Lemma later_asking {A} (f : nat -> A) : keeps later (asking f).
Proof. apply later_ledger, ticks_reading. Qed.
Lemma later_note e : keeps later (note e).
Proof. intros s. by unfold later. Qed.
Lemma later_modify (f : sched -> sched) : (forall s, sd_ledger (f s) = sd_ledger s) -> keeps later (modify f : SM unit).
Proof. intros Hf s. unfold later, tick_of. cbn. by rewrite Hf. Qed.
#[local] Hint Resolve later_fails later_asking later_note : py_keeps.
#[local] Hint Extern 1 (keeps later (modify _)) => (apply later_modify; done) : py_keeps.
Lemma later_now : keeps later now_epoch.
Proof. apply later_asking. Qed.
Lemma later_log kind data : keeps later (log_event kind data).
Proof. apply later_note. Qed.
Lemma later_run argv : keeps later (run_command argv).
Proof using All. unfold run_command. solve_keeps. Qed.
Lemma later_sleep n : keeps later (sleep n).
Proof. unfold sleep. solve_keeps. Qed.
Lemma later_to_int s : keeps later (to_int s).
Proof. apply later_fails. Qed.
Lemma later_variable name d : keeps later (int_variable name d).
Proof. apply later_to_int. Qed.
#[local] Hint Resolve later_now later_log later_run later_sleep later_to_int later_variable : py_keeps.
Lemma later_slices fuel target : keeps later (_sleep_interruptibly fuel target).
Proof. induction fuel as [|fuel IH]; cbn [_sleep_interruptibly]; solve_keeps. Qed.
Lemma later_wake cfg target : keeps later (log_wake_plan cfg target).
Proof. unfold log_wake_plan. cbv zeta. solve_keeps. Qed.
Lemma later_schedule cfg target reason : keeps later (schedule_resume_and_suspend cfg target reason).
Proof. unfold schedule_resume_and_suspend, schedule_failed. cbv zeta. solve_keeps. Qed.
#[local] Hint Resolve later_slices later_wake later_schedule : py_keeps.
Lemma later_hand cfg target reason : keeps later (hand_over cfg target reason).
Proof. unfold hand_over. solve_keeps. Qed.
Lemma later_here fuel target : keeps later (wait_here fuel target).
Proof. unfold wait_here. solve_keeps. Qed.
Lemma later_decision cfg : keeps later (_route_or_provider_decision cfg).
Proof. unfold _route_or_provider_decision, provider_decision. cbv zeta. solve_keeps. Qed.
Lemma later_target cfg d : keeps later (wait_target cfg d).
Proof. unfold wait_target. solve_keeps. Qed.
#[local] Hint Resolve later_hand later_here later_decision later_target : py_keeps.
Lemma later_judge cfg now since : keeps later (judge cfg now since).
Proof. unfold judge, optimistic. cbv zeta. solve_keeps. Qed.
Lemma later_gate fuel cfg now nb : keeps later (not_before_gate fuel cfg now nb).
Proof. unfold not_before_gate. solve_keeps. Qed.
#[local] Hint Resolve later_judge later_gate : py_keeps.
Lemma later_of {A} (m : SM A) s r s' : m s = (r, s') -> keeps later m -> later s s'.
Proof. intros E Hm. specialize (Hm s). by rewrite E in Hm. Qed.

(** ** When the wait ends *)

(** A reading of the clock at or after [t], between two states. *)
Definition clock_passed (t : Z) (s s' : sched) : Prop := exists n, (tick_of s <= n < tick_of s')%nat /\ t <= r_now n.
Lemma passed_mono t s s1 s2 s3 : later s s1 -> later s2 s3 -> clock_passed t s1 s2 -> clock_passed t s s3.
Proof. unfold later. intros H2' H3' (n & Hn & Ht). exists n. split; [lia|done]. Qed.
Lemma now_ok s now s' : now_epoch s = (Ok now, s') -> now = r_now (tick_of s) /\ tick_of s' = S (tick_of s).
Proof. unfold now_epoch, asking, on_ledger, reading. by intros [= <- <-]. Qed.
Lemma slices_ok fuel target s s' : _sleep_interruptibly fuel target s = (Ok true, s') -> clock_passed target s s'.
Proof.
  revert s. induction fuel as [|fuel IH]; intros s E; [done|]. cbn [_sleep_interruptibly] in E. apply bind_inv in E as (stop & s1 & E1 & E).
  assert (later s s1) by (apply (later_of _ _ _ _ E1), later_asking). destruct stop; [done|].
  apply bind_inv in E as (now & s2 & E2 & E). assert (later s1 s2) by (apply (later_of _ _ _ _ E2), later_now). apply now_ok in E2 as [-> Ht].
  destruct (Z.leb_spec (target - r_now (tick_of s1)) 0) as [Hle|].
  - injection E as <-. exists (tick_of s1). unfold later in *. split; lia.
  - apply bind_inv in E as (u & s3 & E3 & E). apply IH in E. eapply passed_mono; [|reflexivity|exact E].
    etrans; [done|]. etrans; [done|]. apply (later_of _ _ _ _ E3), later_sleep.
Qed.
Lemma here_ok fuel target s s' : wait_here fuel target s = (Ok tt, s') -> clock_passed target s s'.
Proof. unfold wait_here. intros E. apply bind_inv in E as ([] & s1 & E1 & E); [|done]. apply slices_ok in E1. by injection E as <-. Qed.
Lemma gate_ok fuel cfg nb s now s1 s' : now_epoch s = (Ok now, s1) -> not_before_gate fuel cfg now nb s1 = (Ok true, s') -> clock_passed nb s s'.
Proof.
  intros En E. assert (later s s1) by (apply (later_of _ _ _ _ En), later_now). apply now_ok in En as [-> Ht]. unfold not_before_gate in E.
  assert (later s1 s') by (apply (later_of _ _ _ _ E), later_gate). destruct (Z.ltb_spec (r_now (tick_of s)) nb).
  - apply bind_inv in E as (u1 & s2 & E1 & E). apply bind_inv in E as (u2 & s3 & E2 & E). destruct (sg_dry_run cfg); [done|].
    apply bind_inv in E as ([] & s4 & E3 & E). apply here_ok in E3. injection E as <-. eapply passed_mono; [|reflexivity|exact E3].
    etrans; [done|]. etrans; [apply (later_of _ _ _ _ E1), later_log|]. apply (later_of _ _ _ _ E2), later_hand.
  - exists (tick_of s). unfold later in *. split; [lia|done].
Qed.

(** The provider has been undetermined for the time an operator allows. *)
Definition waited_enough (cfg : SchedulerConfig) (s s' : sched) : Prop := exists n1 n2 max_wait, (tick_of s <= n1)%nat /\ (n1 <= n2 < tick_of s')%nat /\
  py_int (JStr (sg_max_unavailable_wait cfg)) = Ok max_wait /\ 0 < max_wait <= r_now n2 - r_now n1.
(** Between [s0] and [s'] a decision was read that allows the launch. *)
Definition allowed (cfg : SchedulerConfig) (s s0 s' : sched) : Prop := exists snapshot decision s1 evs,
  _route_or_provider_decision cfg s0 = (Ok (snapshot, decision), s1) /\
  sd_events s' = sd_events s1 ++ [Logged "usage_snapshot" snapshot; Logged "usage_decision" decision] ++ evs /\
  (decision_usable decision = true /\ evs = [] \/
   decision_usable decision = false /\ decision_reason decision <> "rate-limited"%string /\ (exists data, evs = [Logged "optimistic_proceed" data]) /\
     (sg_suspend_until_ready cfg = true \/ waited_enough cfg s s')).
(** Since when the provider has been undetermined. *)
Definition since_ok (s s0 : sched) (since : option Z) : Prop := forall t, since = Some t -> exists n, (tick_of s <= n < tick_of s0)%nat /\ t = r_now n.
Lemma log_inv kind data s u s' : log_event kind data s = (Ok u, s') -> sd_events s' = sd_events s ++ [Logged kind data] /\ tick_of s' = tick_of s.
Proof. unfold log_event, note, modify. by intros [= _ <-]. Qed.
Lemma hushed_run {A} (m : SM A) s r s' : m s = (r, s') -> keeps hushed m -> sd_events s' = sd_events s.
Proof. intros E Hm. specialize (Hm s). by rewrite E in Hm. Qed.
Lemma optimistic_ok reason waited mw more s step s' : optimistic reason waited mw more s = (Ok step, s') ->
  step = W_ready /\ (exists data, sd_events s' = sd_events s ++ [Logged "optimistic_proceed" data]) /\ tick_of s' = tick_of s.
Proof. unfold optimistic. intros E. apply bind_inv in E as (u & s1 & E1 & E). apply log_inv in E1 as [E1 Et]. injection E as <- <-. eauto. Qed.
Lemma to_int_ok t s z s' : to_int t s = (Ok z, s') -> py_int (JStr t) = Ok z /\ s' = s.
Proof. unfold to_int, fails. destruct (py_int _); [|done]. by intros [= <- <-]. Qed.

Lemma judge_ok cfg base s sa s0 now since step s' : later base s -> now_epoch s = (Ok now, sa) -> later sa s0 -> since_ok base s since ->
  judge cfg now since s0 = (Ok step, s') ->
  match step with W_ready => allowed cfg base s0 s' | W_until _ _ since' => since_ok base s' since' end.
Proof.
  intros Hb En Ha Hs E. apply now_ok in En as [-> Ht]. pose proof (later_of _ _ _ _ E (later_judge _ _ _)) as Hw. unfold judge in E.
  apply bind_inv in E as ([snapshot decision] & s1 & E1 & E). apply bind_inv in E as (u1 & s2 & E2 & E). apply log_inv in E2 as [E2 T2].
  apply bind_inv in E as (u2 & s3 & E3 & E). apply log_inv in E3 as [E3 T3]. cbv zeta in E.
  assert (Hev : sd_events s3 = sd_events s1 ++ [Logged "usage_snapshot" snapshot; Logged "usage_decision" decision]) by (rewrite E3, E2, <- app_assoc; done).
  destruct (decision_usable decision) eqn:Eu.
  { injection E as <- <-. exists snapshot, decision, s1, []. rewrite app_nil_r. auto. }
  destruct (is_undetermined_reason (decision_reason decision)) eqn:Er.
  2: { apply bind_inv in E as (target & s4 & E4 & E). injection E as <- <-. by intros t. }
  assert (Hr : decision_reason decision <> "rate-limited"%string) by (unfold is_undetermined_reason in Er; case_bool_decide; done).
  apply bind_inv in E as (max_wait & s4 & E4 & E). apply to_int_ok in E4 as [Em ->]. destruct (_ && _) eqn:Ew.
  - apply optimistic_ok in E as (-> & (data & Ed) & Td). exists snapshot, decision, s1, [Logged "optimistic_proceed" data].
    split_and!; [done|by rewrite Ed, Hev, <- app_assoc|]. right. split_and!; [done|done|by exists data|]. right.
    apply andb_true_iff in Ew as [Hpos%Z.ltb_lt Hmax%Z.leb_le]. destruct since as [t|]; cbn [default from_option id] in Hmax; [|lia].
    destruct (Hs t eq_refl) as (n1 & Hn1 & ->). exists n1, (tick_of s), max_wait. unfold later in *. split_and!; [lia..|done|lia|lia].
  - destruct (sg_suspend_until_ready cfg) eqn:Es.
    + apply optimistic_ok in E as (-> & (data & Ed) & Td). exists snapshot, decision, s1, [Logged "optimistic_proceed" data].
      split_and!; [done|by rewrite Ed, Hev, <- app_assoc|]. right. split_and!; [done|done|by exists data|by left].
    + apply bind_inv in E as (target & s4 & E5 & E). injection E as <- <-. intros t [= <-]. unfold later in *. destruct since as [t|].
      * destruct (Hs t eq_refl) as (n1 & Hn1 & ->). exists n1. split; [lia|done].
      * exists (tick_of s). split; [lia|done].
Qed.
Lemma rounds_ok cfg nb base rounds fuel since s s' : sg_dry_run cfg = false -> later base s -> since_ok base s since ->
  wait_rounds rounds fuel cfg nb since s = (Ok tt, s') -> exists s0, later base s0 /\ clock_passed nb base s0 /\ allowed cfg base s0 s'.
Proof.
  intros Hd. revert since s. induction rounds as [|rounds IH]; intros since s Hb Hs E; [done|]. cbn [wait_rounds] in E.
  apply bind_inv in E as (now & s1 & E1 & E). apply bind_inv in E as (goes_on & s2 & E2 & E).
  pose proof (later_of _ _ _ _ E1 later_now) as L1. pose proof (later_of _ _ _ _ E2 (later_gate _ _ _ _)) as L2. destruct goes_on.
  - apply bind_inv in E as (step & s3 & E3 & E). pose proof (later_of _ _ _ _ E3 (later_judge _ _ _)) as L3.
    pose proof (judge_ok _ _ _ _ _ _ _ _ _ Hb E1 L2 Hs E3) as Hj. destruct step as [|target reason since'].
    + injection E as <-. exists s2. split_and!; [etrans; [done|]; by etrans| |done].
      eapply passed_mono; [exact Hb|reflexivity|by eapply gate_ok].
    + apply bind_inv in E as (u1 & s4 & E4 & E). rewrite Hd in E. apply bind_inv in E as (u2 & s5 & E5 & E).
      pose proof (later_of _ _ _ _ E4 (later_hand _ _ _)) as L4. pose proof (later_of _ _ _ _ E5 (later_here _ _)) as L5.
      revert E. apply IH; [etrans; [exact Hb|]; etrans; [exact L1|]; etrans; [exact L2|]; etrans; [exact L3|]; by etrans|].
      intros t Ht. destruct (Hj t Ht) as (n & Hn & ->). exists n. unfold later in *. split; [lia|done].
  - injection E as <-. exfalso. unfold not_before_gate in E2. destruct (now <? nb); [|done].
    apply bind_inv in E2 as (? & ? & _ & E2). apply bind_inv in E2 as (? & ? & _ & E2). rewrite Hd in E2.
    by apply bind_inv in E2 as (? & ? & _ & E2).
Qed.
Lemma scheduler_wait_ok cfg fuel s s' : sg_dry_run cfg = false -> wait_until_usable fuel cfg s = (Ok tt, s') ->
  exists s0, later s s0 /\ (forall t, sg_not_before_epoch cfg = Some t -> clock_passed t s s0) /\ allowed cfg s s0 s'.
Proof.
  intros Hd E. unfold wait_until_usable in E. apply bind_inv in E as (nb & s1 & E1 & E).
  assert (L1 : later s s1) by (destruct (sg_not_before_epoch cfg); [by injection E1 as _ <-|by apply (later_of _ _ _ _ E1), later_now]).
  eapply rounds_ok in E as (s0 & L0 & Hp & Ha); [|done|exact L1|done]. exists s0. split_and!; [done| |done].
  intros t Ht. rewrite Ht in E1. by injection E1 as <- _.
Qed.

(** ** What an attempt leaves *)

Definition blocks_of (s : sched) : gmap string block_file := l_blocks (sd_ledger s).
(** The answer of [submit_once]. *)
Definition submit_answer (cfg : SchedulerConfig) (a : attempt) : Z :=
  if declined cfg a then OPERATOR_DECLINED_STATUS
  else if (attempt_status a =? AUTONOMY_ABORT_STATUS) || credit_diagnostic cfg a then AUTONOMY_ABORT_STATUS
  else if retryable cfg a then 1 else 0.
(** The key it blocks and why; the key whose block it takes away. *)
Definition to_block (cfg : SchedulerConfig) (a : attempt) : option (string * string) :=
  let routed := truthy_str (sg_route_id cfg) in
  if declined cfg a then None
  else if attempt_status a =? AUTONOMY_ABORT_STATUS then if routed then Some (sg_route_id cfg, "autonomy-abort"%string) else None
  else if credit_diagnostic cfg a then
    if routed then Some (sg_route_id cfg, "credit-exhausted"%string)
    else if pinned cfg then Some (model_block_key (sg_provider cfg) (sg_model cfg), "credit-exhausted"%string) else None
  else if retryable cfg a && routed then Some (sg_route_id cfg, "runtime-failure"%string) else None.
Definition to_clear (cfg : SchedulerConfig) (a : attempt) : option string :=
  if declined cfg a || (attempt_status a =? AUTONOMY_ABORT_STATUS) || credit_diagnostic cfg a || negb (attempt_status a =? 0) then None
  else if truthy_str (sg_route_id cfg) then Some (sg_route_id cfg)
  else if pinned cfg then Some (model_block_key (sg_provider cfg) (sg_model cfg)) else None.
(** A block of [key] until [u], in its file. *)
Definition blocks_with (key reason : string) (u : Z) (before after : gmap string block_file) : Prop :=
  exists payload, after = <[_route_block_path key := BF_json (JObj payload)]> before /\
    dget "blocked_until" payload = Some (JInt u) /\ dget "reason" payload = Some (JStr (stake 64 (if truthy_str reason then reason else "blocked"%string))).

(** Block files can be written and removed. *)
Definition ledger_works : Prop := (forall n, r_write n = BW_done) /\ (forall n, r_unlinks n = true).

Lemma ledger_ok {A} (m : RM A) s a s' : on_ledger m s = (Ok a, s') -> m (sd_ledger s) = (Ok a, sd_ledger s').
Proof. unfold on_ledger. destruct (m _) as [[b|e] l]; [|done]. by intros [= <- <-]. Qed.
Lemma block_ok key reason output kind data s u s' : ledger_works -> record_block key reason output kind data s = (Ok u, s') ->
  exists backoff n, default_backoff_seconds = Ok backoff /\
    blocks_with key reason (r_now n + default backoff (_parse_retry_after_seconds output)) (blocks_of s) (blocks_of s').
Proof.
  intros [writes _]. unfold record_block. intros E. apply bind_inv in E as (backoff & s1 & E1 & E). unfold fails in E1. destruct default_backoff_seconds as [b|] eqn:Eb; [|done].
  injection E1 as <- <-. apply bind_inv in E as (now & s2 & E2 & E).
  assert (Hl : blocks_of s2 = blocks_of s) by (unfold now_epoch, asking, on_ledger, reading in E2; by injection E2 as _ <-).
  apply now_ok in E2 as [-> _]. cbv zeta in E. apply bind_inv in E as (payload & s3 & E3 & E). apply ledger_ok in E3.
  exists b, (tick_of s). split; [done|]. assert (Hb : blocks_of s' = blocks_of s3) by (unfold log_event, note, modify in E; by injection E as _ <-).
  rewrite Hb, <- Hl. clear E Hb. revert E3. unfold record_local_block. rewrite reading_run. cbv zeta. rewrite reading_run. cbn [l_tick l_blocks]. rewrite writes.
  intros [= <- E3]. eexists. unfold blocks_of. rewrite <- E3. split_and!; reflexivity.
Qed.
Lemma clear_ok id l b l' : ledger_works -> clear_local_block id l = (Ok b, l') -> l_blocks l' = delete (_route_block_path id) (l_blocks l).
Proof.
  intros [_ unlinks]. unfold clear_local_block, gets, mbind at 1, ST_bind at 1. destruct (l_blocks l !! _) as [f|] eqn:El.
  - rewrite reading_run, unlinks. by intros [= _ <-].
  - intros [= _ <-]. by rewrite delete_id.
Qed.
Definition cleared (key : option string) (m : gmap string block_file) : gmap string block_file :=
  match key with Some k => delete (_route_block_path k) m | None => m end.
(** The blocks after an attempt. *)
Definition left_by (cfg : SchedulerConfig) (a : attempt) (before after : gmap string block_file) : Prop :=
  match to_block cfg a with
  | None => after = cleared (to_clear cfg a) before
  | Some (key, reason) => exists backoff n, default_backoff_seconds = Ok backoff /\
      blocks_with key reason (r_now n + default backoff (_parse_retry_after_seconds (attempt_output a))) (cleared (to_clear cfg a) before) after
  end.
Lemma hushed_blocks kind data s u s' : log_event kind data s = (Ok u, s') -> blocks_of s' = blocks_of s.
Proof. unfold log_event, note, modify. by intros [= _ <-]. Qed.
Lemma settle_ok cfg number a failure s c s' : settle_attempt cfg number a failure s = (Ok c, s') ->
  c = submit_answer cfg a /\ (ledger_works -> left_by cfg a (blocks_of s) (blocks_of s')).
Proof.
  unfold settle_attempt, submit_answer, left_by, to_block, to_clear. intros E.
  destruct (declined cfg a).
  { apply bind_inv in E as (u & s1 & E1 & E). injection E as <- <-. cbn. by apply hushed_blocks in E1. }
  destruct (attempt_status a =? AUTONOMY_ABORT_STATUS).
  { apply bind_inv in E as (u & s1 & E1 & E). apply hushed_blocks in E1. apply bind_inv in E as (u' & s2 & E2 & E). injection E as <- <-.
    split; [done|]. intros Hw. cbn. destruct (truthy_str (sg_route_id cfg)); [apply block_ok in E2; by rewrite <- ?E1|by injection E2 as _ <-]. }
  destruct (credit_diagnostic cfg a).
  { apply bind_inv in E as (u & s1 & E1 & E). apply bind_inv in E as (u' & s2 & E2 & E). apply hushed_blocks in E2. injection E as <- <-.
    split; [done|]. intros Hw. cbn. rewrite E2.
    destruct (truthy_str (sg_route_id cfg)); [by apply block_ok in E1|]. destruct (pinned cfg); [by apply block_ok in E1|by injection E1 as _ <-]. }
  cbv zeta in E. apply bind_inv in E as (u & s1 & E1 & E). apply bind_inv in E as (u' & s2 & E2 & E). apply bind_inv in E as (u'' & s3 & E3 & E).
  injection E as <- <-. split; [done|]. intros Hw. cbn [orb]. set (routed := truthy_str (sg_route_id cfg)) in *.
  assert (Hc : blocks_of s2 = cleared (if negb (attempt_status a =? 0) then None else if routed then Some (sg_route_id cfg)
      else if pinned cfg then Some (model_block_key (sg_provider cfg) (sg_model cfg)) else None) (blocks_of s)).
  { destruct (attempt_status a =? 0), routed; cbn [andb negb] in *; [| |by injection E1 as _ <-; injection E2 as _ <-..].
    - injection E2 as _ <-. unfold clear_route_runtime_block in E1. apply bind_inv in E1 as (b & s4 & E4 & E1). injection E1 as _ <-.
      by eapply clear_ok, ledger_ok.
    - injection E1 as _ <-. destruct (pinned cfg) eqn:Ep; [|by injection E2 as _ <-]. unfold clear_model_runtime_block in E2.
      assert (Hp : truthy_str (sg_provider cfg) && truthy_str (sg_model cfg) = true) by (unfold pinned in Ep; by rewrite andb_comm).
      rewrite Hp in E2. apply bind_inv in E2 as (b & s4 & E4 & E2). injection E2 as _ <-. by eapply clear_ok, ledger_ok. }
  destruct (retryable cfg a && routed); [apply block_ok in E3; by rewrite <- ?Hc|by injection E3 as _ <-].
Qed.
(** Launched under a number, and what it left. *)
Definition launched (number : Z) (a : attempt) : Prop := exists n, sc_launch n number = Ok a.
Lemma submit_ok cfg number s c s' : submit_once cfg number s = (Ok c, s') ->
  exists a, launched number a /\ c = submit_answer cfg a /\ (ledger_works -> left_by cfg a (blocks_of s) (blocks_of s')).
Proof.
  unfold submit_once. intros E. apply bind_inv in E as (u & s1 & E1 & E). apply hushed_blocks in E1. apply bind_inv in E as (u' & s2 & E2 & E).
  assert (blocks_of s2 = blocks_of s1) by (unfold note, modify in E2; by injection E2 as _ <-). apply bind_inv in E as (r & s3 & E3 & E).
  assert (Hr : r = sc_launch (tick_of s2) number /\ blocks_of s3 = blocks_of s2) by (unfold asking, on_ledger, reading in E3; by injection E3 as <- <-).
  destruct Hr as [-> Hb3]. apply bind_inv in E as (a & s4 & E4 & E). unfold fails in E4. destruct (sc_launch _ _) as [a'|] eqn:El; [|done]. injection E4 as <- <-.
  apply bind_inv in E as (u2 & s5 & E5 & E). assert (blocks_of s5 = blocks_of s3) by (unfold write_status, modify in E5; by injection E5 as _ <-).
  apply bind_inv in E as (failure & s6 & E6 & E). assert (s6 = s5) by (unfold fails in E6; destruct (attempt_failure a'); [by injection E6 as _ <-|done]). subst s6.
  apply bind_inv in E as (u3 & s7 & E7 & E). apply hushed_blocks in E7. apply settle_ok in E as [-> Hl]. exists a'. split_and!; [by exists (tick_of s2)|done|].
  by replace (blocks_of s) with (blocks_of s7) by congruence.
Qed.

(** Whatever the ledger answers, only the file of one key is written or removed. *)
Definition only_file (path : string) (s s' : sched) : Prop := forall p, p <> path -> blocks_of s' !! p = blocks_of s !! p.
#[local] Instance only_file_preorder path : PreOrder (only_file path).
Proof. split; unfold only_file; [done|]. intros s1 s2 s3 Ha Hb p Hp. by rewrite Hb, Ha. Qed.
Lemma file_kept {A} path (m : SM A) : (forall s, blocks_of (m s).2 = blocks_of s) -> keeps (only_file path) m.
Proof. intros Hm s p _. by rewrite Hm. Qed.
Lemma file_log path kind data : keeps (only_file path) (log_event kind data).
Proof. by apply file_kept. Qed.
Lemma file_ledger {A} path (m : RM A) : (forall l p, p <> path -> l_blocks (m l).2 !! p = l_blocks l !! p) -> keeps (only_file path) (on_ledger m).
Proof. intros Hm s p Hp. unfold on_ledger, blocks_of. specialize (Hm (sd_ledger s) p Hp). by destruct (m (sd_ledger s)) as [[b|e] l]. Qed.
Lemma file_fails {A} path (r : result exn A) : keeps (only_file path) (fails r).
Proof. apply file_kept. by destruct r. Qed.
Lemma file_now path : keeps (only_file path) now_epoch.
Proof. by apply file_kept. Qed.
#[local] Hint Resolve file_log file_fails file_now : py_keeps.
Lemma file_record key reason output kind data : keeps (only_file (_route_block_path key)) (record_block key reason output kind data).
Proof.
  assert (Hr : forall r u o b, keeps (only_file (_route_block_path key)) (on_ledger (record_local_block key r u o b))).
  { intros r u o b. apply file_ledger. intros l p Hp. unfold record_local_block. rewrite reading_run. cbv zeta. rewrite reading_run. cbn [l_tick l_blocks].
    destruct (r_write _); unfold put_block; cbn; [by apply lookup_insert_ne|done|by apply lookup_insert_ne]. }
  unfold record_block. cbv zeta. solve_keeps.
Qed.
Lemma file_clear id : keeps (only_file (_route_block_path id)) (clear_route_runtime_block id).
Proof.
  assert (Hr : keeps (only_file (_route_block_path id)) (on_ledger (clear_local_block id))).
  { apply file_ledger. intros l p Hp. unfold clear_local_block, gets, mbind at 1, ST_bind at 1. destruct (l_blocks l !! _); [|done].
    rewrite reading_run. destruct (r_unlinks _); unfold drop_block; cbn; [by apply lookup_delete_ne|done]. }
  unfold clear_route_runtime_block. solve_keeps.
Qed.
Lemma file_settle cfg number a failure : truthy_str (sg_route_id cfg) = true ->
  keeps (only_file (_route_block_path (sg_route_id cfg))) (settle_attempt cfg number a failure).
Proof.
  intros Hr. pose proof (file_record (sg_route_id cfg)) as Hrec. pose proof (file_clear (sg_route_id cfg)) as Hc.
  unfold settle_attempt, _record_route_runtime_block, _record_route_runtime_block_autonomy. rewrite Hr. cbv zeta. rewrite andb_false_r. cbn [andb]. solve_keeps.
Qed.
Lemma file_submit cfg number : truthy_str (sg_route_id cfg) = true ->
  keeps (only_file (_route_block_path (sg_route_id cfg))) (submit_once cfg number).
Proof.
  intros Hr. pose proof (file_settle cfg number) as Hs.
  assert (Hn : forall e, keeps (only_file (_route_block_path (sg_route_id cfg))) (note e)) by (intros e; by apply file_kept).
  assert (Hw : forall t, keeps (only_file (_route_block_path (sg_route_id cfg))) (write_status t)) by (intros t; by apply file_kept).
  assert (Ha : keeps (only_file (_route_block_path (sg_route_id cfg))) (asking (fun n => sc_launch n number))) by (by apply file_kept).
  unfold submit_once. solve_keeps.
Qed.

(** ** How often *)

Definition launches (s : sched) : list Z := omap (fun e => match e with Launched n => Some n | _ => None end) (sd_events s).
Definition same_launches (s s' : sched) : Prop := launches s' = launches s.
#[local] Instance same_launches_preorder : PreOrder same_launches.
Proof. split; unfold same_launches; [done|congruence]. Qed.
Lemma launches_note e s : launches (Sched (sd_ledger s) (sd_armed s) (sd_status s) (sd_events s ++ [e])) = launches s ++ match e with Launched n => [n] | _ => [] end.
Proof. unfold launches. cbn. rewrite omap_app. by destruct e. Qed.
Lemma same_ledger {A} (m : RM A) : keeps same_launches (on_ledger m).
Proof. intros s. unfold on_ledger, same_launches, launches. by destruct (m _) as [[a|e] l]. Qed.
Lemma same_fails {A} (r : result exn A) : keeps same_launches (fails r).
Proof. by destruct r. Qed.
Lemma same_log kind data : keeps same_launches (log_event kind data).
Proof. intros s. unfold same_launches, log_event, note, modify. cbn [snd]. rewrite launches_note. apply app_nil_r. Qed.
Lemma same_slept n : keeps same_launches (sleep n).
Proof. intros s. unfold sleep. destruct (n <? 0); [done|]. unfold same_launches, note, modify. cbn [snd]. rewrite launches_note. apply app_nil_r. Qed.
Lemma same_asking {A} (f : nat -> A) : keeps same_launches (asking f).
Proof. apply same_ledger. Qed.
Lemma same_now : keeps same_launches now_epoch.
Proof. apply same_asking. Qed.
Lemma same_status t : keeps same_launches (write_status t).
Proof. intros s. done. Qed.
#[local] Hint Resolve same_ledger same_fails same_log same_slept same_asking same_now same_status : py_keeps.
Lemma same_block key reason output kind data : keeps same_launches (record_block key reason output kind data).
Proof. unfold record_block. cbv zeta. solve_keeps. Qed.
#[local] Hint Resolve same_block : py_keeps.
Lemma same_settle cfg number a failure : keeps same_launches (settle_attempt cfg number a failure).
Proof.
  unfold settle_attempt, _record_route_runtime_block, _record_route_runtime_block_autonomy, _record_model_runtime_block, clear_route_runtime_block,
    clear_model_runtime_block. cbv zeta. solve_keeps.
Qed.
Lemma same_slices fuel target : keeps same_launches (_sleep_interruptibly fuel target).
Proof. induction fuel as [|fuel IH]; cbn [_sleep_interruptibly]; solve_keeps. Qed.
#[local] Hint Resolve same_settle same_slices : py_keeps.
Lemma same_pause p delay : keeps same_launches (pause_for p delay).
Proof. destruct p; cbn [pause_for]; solve_keeps. Qed.
Lemma same_of {A} (m : SM A) s r s' : m s = (r, s') -> keeps same_launches m -> launches s' = launches s.
Proof. intros E Hm. specialize (Hm s). by rewrite E in Hm. Qed.
Lemma submit_launches cfg number s c s' : submit_once cfg number s = (Ok c, s') -> launches s' = launches s ++ [number].
Proof.
  unfold submit_once. intros E. apply bind_inv in E as (u & s1 & E1 & E). apply bind_inv in E as (u' & s2 & E2 & E).
  rewrite <- (same_of _ _ _ _ E1 (same_log _ _)). unfold note, modify in E2. injection E2 as _ <-.
  rewrite (same_of _ _ _ _ E); [by rewrite launches_note|]. solve_keeps.
Qed.

(** All attempts but the last were to be tried again; the last one's answer is
    the answer, or they ran out, or the mission interrupted a pause. *)
Definition ended_by (cfg : SchedulerConfig) (tries : list attempt) (c : Z) : Prop :=
  (exists before a, tries = before ++ [a] /\ Forall (fun b => submit_answer cfg b = 1) before /\ c = submit_answer cfg a /\ c <> 1) \/
  ((c = 1 \/ c = 143) /\ Forall (fun b => submit_answer cfg b = 1) tries).
Lemma answers_known cfg a : submit_answer cfg a = 1 \/ submit_answer cfg a <> 1 /\ settled (submit_answer cfg a) <> None.
Proof. unfold submit_answer, settled. destruct (declined cfg a); [by right|]. destruct (_ || _); [by right|]. by destruct (retryable cfg a); [left|right]. Qed.
Lemma final_ok status code s c s' : final status code s = (Ok c, s') -> c = code /\ launches s' = launches s.
Proof. unfold final. intros E. apply bind_inv in E as (u & s1 & E1 & E). injection E as <- <-. split; [done|]. apply (same_of _ _ _ _ E1), same_log. Qed.
Lemma again_ok cfg p number delays s c s' : try_again cfg p number delays s = (Ok c, s') ->
  exists tries, launches s' = launches s ++ seqZ (number + 1) (Z.of_nat (length tries)) /\
    Forall2 launched (seqZ (number + 1) (Z.of_nat (length tries))) tries /\ (length tries <= length delays)%nat /\
    forall before a, Forall (fun b => submit_answer cfg b = 1) before -> submit_answer cfg a = 1 -> ended_by cfg (before ++ a :: tries) c.
Proof.
  revert number s. induction delays as [|delay delays IH]; intros number s; cbn [try_again].
  { intros [-> Hl]%final_ok. exists []. cbn. rewrite app_nil_r. split_and!; [done|constructor|lia|]. intros before a Hb Ha. right. split; [by left|].
    apply Forall_app. split; [done|by repeat constructor]. }
  intros E. apply bind_inv in E as (pointless & s1 & E1 & E).
  assert (L1 : launches s1 = launches s) by (destruct p; by injection E1 as _ <-). destruct pointless.
  { apply final_ok in E as [-> Hl]. exists []. cbn. rewrite app_nil_r. split_and!; [congruence|constructor|lia|]. intros before a Hb Ha. right. split; [by left|].
    apply Forall_app. split; [done|by repeat constructor]. }
  apply bind_inv in E as (u & s2 & E2 & E). apply bind_inv in E as (waited & s3 & E3 & E).
  pose proof (same_of _ _ _ _ E2 (same_log _ _)) as L2. pose proof (same_of _ _ _ _ E3 (same_pause _ _)) as L3. destruct waited.
  2: { injection E as <- <-. exists []. cbn. rewrite app_nil_r. split_and!; [congruence|constructor|lia|]. intros before a Hb Ha. right. split; [by right|].
       apply Forall_app. split; [done|by repeat constructor]. }
  apply bind_inv in E as (result & s4 & E4 & E). pose proof (submit_launches _ _ _ _ _ E4) as L4. apply submit_ok in E4 as (b & Hb & -> & _).
  destruct (answers_known cfg b) as [Hone|[Hne Hsome]].
  - rewrite Hone in E. cbn in E. apply IH in E as (tries & Hl & Hf & Hlen & Hend). exists (b :: tries).
    assert (Hseq : seqZ (number + 1) (Z.of_nat (length (b :: tries))) = number + 1 :: seqZ (number + 1 + 1) (Z.of_nat (length tries))).
    { rewrite (seqZ_cons (number + 1)) by (cbn; lia). f_equal. f_equal; cbn; lia. }
    rewrite Hseq. split_and!; [rewrite Hl, L4, <- app_assoc; cbn; congruence|by constructor|cbn; lia|].
    intros before a Hbefore Ha. rewrite (app_assoc before [a] (b :: tries) : before ++ a :: b :: tries = _). apply Hend; [|done].
    apply Forall_app. split; [done|by repeat constructor].
  - destruct (settled (submit_answer cfg b)) as [status|]; [|done]. apply final_ok in E as [-> Hl]. exists [b]. cbn [length].
    assert (Hs : seqZ (number + 1) (Z.of_nat 1) = [number + 1]) by (by rewrite seqZ_cons, seqZ_nil by (cbn; lia)). rewrite Hs.
    split_and!; [congruence|by repeat constructor|lia|]. intros before a Hbefore Ha. left. exists (before ++ [a]), b.
    rewrite <- app_assoc. split_and!; [done| |done|done]. apply Forall_app. split; [done|by repeat constructor].
Qed.
Lemma attempts_ok cfg p s c s' : attempts cfg p s = (Ok c, s') ->
  exists delays tries, parse_delays (sg_retry_delays cfg) = Ok delays /\ (1 <= length tries <= 1 + length delays)%nat /\
    launches s' = launches s ++ seqZ 1 (Z.of_nat (length tries)) /\ Forall2 launched (seqZ 1 (Z.of_nat (length tries))) tries /\ ended_by cfg tries c.
Proof.
  unfold attempts. intros E. apply bind_inv in E as (delays & s1 & E1 & E). unfold fails in E1. destruct (parse_delays _) as [ds|]; [|done]. injection E1 as <- <-.
  apply bind_inv in E as (result & s2 & E2 & E). pose proof (submit_launches _ _ _ _ _ E2) as L2. apply submit_ok in E2 as (b & Hb & -> & _).
  exists ds. destruct (answers_known cfg b) as [Hone|[Hne Hsome]].
  - rewrite Hone in E. cbn in E. apply again_ok in E as (tries & Hl & Hf & Hlen & Hend). exists (b :: tries).
    assert (Hseq : seqZ 1 (Z.of_nat (length (b :: tries))) = 1 :: seqZ (1 + 1) (Z.of_nat (length tries))).
    { rewrite (seqZ_cons 1) by (cbn; lia). f_equal. f_equal; cbn; lia. }
    rewrite Hseq. split_and!; [done|cbn; lia|cbn; lia|rewrite Hl, L2, <- app_assoc; done|by constructor|by apply (Hend [] b)].
  - destruct (settled (submit_answer cfg b)) as [status|]; [|done]. apply final_ok in E as [-> Hl]. exists [b]. cbn [length]. change (seqZ 1 (Z.of_nat 1)) with [1].
    split_and!; [done|lia|lia|congruence|by repeat constructor|]. left. by exists [], b.
Qed.

Lemma same_note e : match e with Launched _ => False | _ => True end -> keeps same_launches (note e).
Proof. intros He s. unfold same_launches, note, modify. cbn [snd]. rewrite launches_note. destruct e; [apply app_nil_r..|done]. Qed.
#[local] Hint Extern 1 (keeps same_launches (note _)) => (apply same_note; exact I) : py_keeps.
Lemma same_command argv : keeps same_launches (run_command argv).
Proof. unfold run_command. solve_keeps. Qed.
Lemma same_variable name d : keeps same_launches (int_variable name d).
Proof. apply same_fails. Qed.
#[local] Hint Resolve same_command same_variable : py_keeps.
Lemma same_modify (f : sched -> sched) : (forall s, sd_events (f s) = sd_events s) -> keeps same_launches (modify f : SM unit).
Proof. intros Hf s. unfold same_launches, launches. cbn. by rewrite Hf. Qed.
#[local] Hint Extern 1 (keeps same_launches (modify _)) => (apply same_modify; done) : py_keeps.
Lemma same_hand cfg target reason : keeps same_launches (hand_over cfg target reason).
Proof. unfold hand_over, log_wake_plan, schedule_resume_and_suspend, schedule_failed. cbv zeta. solve_keeps. Qed.
Lemma same_here fuel target : keeps same_launches (wait_here fuel target).
Proof. unfold wait_here. solve_keeps. Qed.
#[local] Hint Resolve same_hand same_here : py_keeps.
Lemma same_judge cfg now since : keeps same_launches (judge cfg now since).
Proof. unfold judge, optimistic, wait_target, to_int, _route_or_provider_decision, provider_decision. cbv zeta. solve_keeps. Qed.
Lemma same_gate fuel cfg now nb : keeps same_launches (not_before_gate fuel cfg now nb).
Proof. unfold not_before_gate. solve_keeps. Qed.
#[local] Hint Resolve same_judge same_gate : py_keeps.
Lemma same_rounds rounds fuel cfg nb since : keeps same_launches (wait_rounds rounds fuel cfg nb since).
Proof. revert since. induction rounds as [|rounds IH]; intros since; cbn [wait_rounds]; solve_keeps. Qed.
#[local] Hint Resolve same_rounds : py_keeps.
Lemma same_wait fuel cfg : keeps same_launches (wait_until_usable fuel cfg).
Proof. unfold wait_until_usable. solve_keeps. Qed.
Lemma same_final status code : keeps same_launches (final status code).
Proof. unfold final. solve_keeps. Qed.

(** What comes after the wait. *)
Definition after_wait (m : SM Z) (fuel : nat) (cfg : SchedulerConfig) (s s' : sched) : Prop :=
  exists s1 r, wait_until_usable fuel cfg s = (Ok tt, s1) /\ sg_dry_run cfg = false /\ m s1 = (r, s').
Lemma main_after fuel cfg s r s' : main_run fuel cfg s = (r, s') -> launches s' = launches s \/ after_wait (attempts cfg P_sleep) fuel cfg s s'.
Proof.
  unfold main_run. destruct (wait_until_usable fuel cfg s) as [[[]|e] s1] eqn:Ew.
  - rewrite (bind_ok _ _ _ _ _ Ew). destruct (sg_dry_run cfg) eqn:Ed.
    + intros E. left. rewrite (same_of _ _ _ _ E (same_final _ _)). apply (same_of _ _ _ _ Ew), same_wait.
    + intros E. right. exists s1, r. done.
  - rewrite (bind_raise _ _ _ _ _ Ew). intros [= _ <-]. left. apply (same_of _ _ _ _ Ew), same_wait.
Qed.
Lemma inline_after fuel cfg s r s' : run_scheduler_inline fuel cfg s = (r, s') ->
  launches s' = launches s \/ after_wait (attempts cfg (P_interruptible fuel)) fuel cfg s s' /\ command_line_limit_violation sc_argv = EmptyString.
Proof.
  unfold run_scheduler_inline. intros E. destruct (wait_until_usable fuel cfg s) as [[[]|e] s1] eqn:Ew.
  - assert (Ec : catch_exit (wait_until_usable fuel cfg) s = (Ok None, s1)) by (unfold catch_exit; by rewrite Ew). rewrite (bind_ok _ _ _ _ _ Ec) in E.
    pose proof (same_of _ _ _ _ Ew (same_wait _ _)) as L1. cbv zeta in E. destruct (sg_dry_run cfg) eqn:Ed.
    + rewrite andb_false_r in E. left. rewrite (same_of _ _ _ _ E (same_final _ _)). done.
    + destruct (truthy_str _) eqn:Ev.
      * left. cbn [negb andb] in E. rewrite <- L1. apply (same_of _ _ _ _ E). unfold final. solve_keeps.
      * right. split; [by exists s1, r|]. unfold truthy_str in Ev. apply negb_false_iff, bool_decide_eq_true in Ev. done.
  - left. pose proof (same_of _ _ _ _ Ew (same_wait _ _)) as L1. unfold catch_exit in E. unfold mbind, ST_bind in E. rewrite Ew in E.
    destruct e; by injection E as _ <-.
Qed.
End laws.

(** C22: A provider is launched only when it may be.  Neither the command nor an
    orchestrated run launches anything in a dry run; whatever they launch, the
    wait before it ended with a decision that was read at or after the time the
    launch was not to come before, and that says usable - or that is not a rate
    limit, while the host is to be suspended instead of waiting, or after the
    provider has been undetermined for the configured time by the clock. *)
Theorem launch_waits_for_capacity (C : ConfigEnv) (R : RouteEnv) (E : SchedEnv) (fuel : nat) (cfg : SchedulerConfig) (s s' : sched) (r : result sched_stop Z) :
  main_run fuel cfg s = (r, s') \/ run_scheduler_inline fuel cfg s = (r, s') -> launches s' <> launches s ->
  sg_dry_run cfg = false /\ exists s0 s1, later s s0 /\ allowed cfg s s0 s1 /\ launches s1 = launches s /\
    forall t, sg_not_before_epoch cfg = Some t -> clock_passed t s s0.
Proof.
  intros Hrun Hne. assert (Ha : exists m, after_wait m fuel cfg s s').
  { destruct Hrun as [Em|Em]; [apply main_after in Em as [?|?]|apply inline_after in Em as [?|[? _]]]; by eauto. }
  destruct Ha as (m & s1 & r1 & Ew & Ed & _). split; [done|]. pose proof (same_of _ _ _ _ Ew (same_wait _ _)) as L1.
  apply scheduler_wait_ok in Ew as (s0 & L0 & Hp & Ha); [|done]. by exists s0, s1.
Qed.

(** Attempts are bounded, and the answer is the last one's.  The attempts are
    numbered from 1 and at most one more than there are delays; each but the
    last left what is to be tried again; and the run answers what the last
    attempt settled, or failed when the delays ran out - or that its mission
    interrupted a pause. *)
Theorem attempts_are_bounded (C : ConfigEnv) (R : RouteEnv) (E : SchedEnv) (cfg : SchedulerConfig) (p : pause) (s s' : sched) (c : Z) :
  attempts cfg p s = (Ok c, s') ->
  exists delays tries, parse_delays (sg_retry_delays cfg) = Ok delays /\ (1 <= length tries <= 1 + length delays)%nat /\
    launches s' = launches s ++ seqZ 1 (Z.of_nat (length tries)) /\ Forall2 launched (seqZ 1 (Z.of_nat (length tries))) tries /\ ended_by cfg tries c.
Proof. apply attempts_ok. Qed.

Lemma and_under (P Q R : Prop) : (P -> Q /\ R) -> (P -> Q) /\ (P -> R).
Proof. tauto. Qed.

(** C23: A route that failed is not selected before its block runs out.  An
    attempt that is to be tried again or was aborted leaves a block of its
    route, until what the output asks for or the default backoff after the
    clock: a decision over the route that looks at the block before that time
    says not usable, until then, whatever its capacity source answers.  A clean
    run removes the route's block.  Both hold where block files can be written
    and removed ([ledger_works]; the code ignores a failure to do so).  Whatever
    the ledger answers, no other block file is touched - ids that differ in
    characters no file name takes share one. *)
Theorem failed_route_is_blocked (C : ConfigEnv) (R : RouteEnv) (E : SchedEnv) (cfg : SchedulerConfig) (number : Z) (s s' : sched) (c : Z) (route : RoutePolicy) :
  sound_route route -> r_route_id route = sg_route_id cfg -> sg_route_id cfg <> EmptyString ->
  submit_once cfg number s = (Ok c, s') ->
  (exists a, launched number a /\ c = submit_answer cfg a /\
    (ledger_works -> c = 1 \/ c = AUTONOMY_ABORT_STATUS -> exists backoff n, default_backoff_seconds = Ok backoff /\
       let u := r_now n + default backoff (_parse_retry_after_seconds (attempt_output a)) in
       forall (R' : RouteEnv) window m p model fallback (l l' : ledger) out,
         look_time (H0 := R') l < u -> block_of (sg_route_id cfg) l = block_of (sg_route_id cfg) (sd_ledger s') ->
         usage_snapshot_and_decision_for_route (H0 := R') route window m p model fallback l = (Ok out, l') ->
         says false out.2 /\ dget "wait_until" out.2 = Some (JInt u)) /\
    (ledger_works -> c = 0 -> attempt_status a = 0 -> block_of (sg_route_id cfg) (sd_ledger s') = None)) /\
  (forall id, _route_block_path id <> _route_block_path (sg_route_id cfg) -> block_of id (sd_ledger s') = block_of id (sd_ledger s)).
Proof.
  intros Hs Hid Hne Es.
  assert (Hr : truthy_str (sg_route_id cfg) = true) by (unfold truthy_str; by rewrite bool_decide_false).
  pose proof (file_submit cfg number Hr s) as Hother. rewrite Es in Hother. split; [|by intros id; apply Hother].
  apply submit_ok in Es as (a & Ha & -> & Hl). exists a. split; [done|]. split; [done|]. apply and_under. intros Hw. specialize (Hl Hw).
  unfold left_by, to_block, to_clear, submit_answer in *. rewrite Hr in *. unfold block_of. fold (blocks_of s) (blocks_of s') in *.
  assert (Hdecided : forall reason before u, blocks_with (sg_route_id cfg) reason u before (blocks_of s') ->
    forall (R' : RouteEnv) window m p model fallback (l l' : ledger) out, look_time (H0 := R') l < u -> l_blocks l !! _route_block_path (sg_route_id cfg) = blocks_of s' !! _route_block_path (sg_route_id cfg) ->
      usage_snapshot_and_decision_for_route (H0 := R') route window m p model fallback l = (Ok out, l') -> says false out.2 /\ dget "wait_until" out.2 = Some (JInt u)).
  { intros reason before u (payload & Hb & Hu & _) R' window m p model fallback l l' out Hclock Hsame Ed.
    destruct (decided (H0 := R') route window m p model fallback l out l' Hs Ed) as [Hblocked _]. destruct (Hblocked u) as (? & ? & _); [|done|done].
    exists payload. split; [|done]. unfold block_of. by rewrite Hid, Hsame, Hb, lookup_insert_eq. }
  destruct (declined cfg a); [split; [by intros [?|?]|done]|].
  assert (Hblocks : forall reason before, (exists backoff n, default_backoff_seconds = Ok backoff /\
        blocks_with (sg_route_id cfg) reason (r_now n + default backoff (_parse_retry_after_seconds (attempt_output a))) before (blocks_of s')) ->
      exists backoff n, default_backoff_seconds = Ok backoff /\
        let u := r_now n + default backoff (_parse_retry_after_seconds (attempt_output a)) in
        forall (R' : RouteEnv) window m p model fallback (l l' : ledger) out, look_time (H0 := R') l < u ->
          l_blocks l !! _route_block_path (sg_route_id cfg) = blocks_of s' !! _route_block_path (sg_route_id cfg) ->
          usage_snapshot_and_decision_for_route (H0 := R') route window m p model fallback l = (Ok out, l') -> says false out.2 /\ dget "wait_until" out.2 = Some (JInt u)).
  { intros reason before (backoff & n & Hb & Hl'). exists backoff, n. split; [done|]. cbv zeta. by eapply Hdecided. }
  destruct (attempt_status a =? AUTONOMY_ABORT_STATUS) eqn:E75; cbn [orb andb negb] in *; [split; [intros _; by eapply Hblocks|done]|].
  destruct (credit_diagnostic cfg a); cbn [orb andb negb] in *; [split; [intros _; by eapply Hblocks|done]|].
  destruct (retryable cfg a); cbn [andb] in Hl; [split; [intros _; by eapply Hblocks|done]|].
  split; [by intros [?|?]|]. intros _ E0. rewrite E0 in Hl. cbn in Hl. rewrite Hl. apply lookup_delete_eq.
Qed.

(** ** Runs *)

(** The clock stands at 0 at the first reading and goes on from 18000; the
    provider is undetermined. *)
Definition gated_routes : RouteEnv := {|
  r_now n := if (n =? 0)%nat then 0 else 18000 + 20 * Z.of_nat n;
  r_write _ := BW_done;
  r_unlinks _ := true;
  r_which _ _ := true;
  r_backoff_variable := None;
  r_usage _ req := Ok ([("available", JBool false)]%string, [("provider", JStr (cr_provider req)); ("usable", JBool false); ("reason", JStr "unavailable")]%string);
|}.
(** The first launch meets a rate limit, the next one ends with 0. *)
Definition evening : SchedEnv := {|
  sc_interrupt _ := false;
  sc_have _ _ := false;
  sc_run _ _ := (1, EmptyString);
  sc_getenv _ := None;
  sc_config _ := Some [];
  sc_launch _ number := Ok (if number =? 1 then Attempt (Some "1"%string) (Some "HTTP 429, retry-after: 2 min"%string) None 30
                            else Attempt (Some "0"%string) (Some "done"%string) None 600);
  sc_argv := ["claude"]%string;
  sc_arg_max := None;
  sc_environ := [];
  sc_sha256 _ := EmptyString;
  sc_resume_argv := [];
|}.
Definition evening_cfg (not_before : option Z) (route : string) : SchedulerConfig :=
  SchedCfg "claude" not_before "" false "" route "auto" "1" "60" "900" "60,180" "/r" false false false false 5 false true.
Definition at_rest (blocks : gmap string block_file) : sched := Sched (Ledger 0 blocks) 0 EmptyString [].
Definition gated_run : result sched_stop Z * sched :=
  main_run (H := day_config) (H0 := gated_routes) (H1 := evening) 40 (evening_cfg (Some 18000) "") (at_rest ∅).
Definition waits_of (s : sched) : list Z :=
  omap (fun e => match e with Logged kind data => if bool_decide (kind = "optimistic_proceed"%string) then match dget "waited" data with Some (JInt z) => Some z | _ => None end else None | _ => None end)
    (sd_events s).
(** Waiting for the time a launch must not come before counts as time the
    provider was undetermined: the second reading, some minutes after the
    first, already passes for five hours without one. *)
Example gate_counts_as_undetermined :
  gated_run.1 = Ok 0 /\ waits_of gated_run.2 = [18180] /\ launches gated_run.2 = [1; 2].
Proof. vm_compute. done. Qed.
Lemma launch_waits_for_capacity_witness : sg_dry_run (evening_cfg (Some 18000) "") = false /\
  exists s0, clock_passed (H0 := gated_routes) 18000 (at_rest ∅) s0.
Proof.
  assert (Hl : launches (main_run (H := day_config) (H0 := gated_routes) (H1 := evening) 40 (evening_cfg (Some 18000) "") (at_rest ∅)).2 = [1; 2])
    by (vm_compute; reflexivity).
  revert Hl. remember (evening_cfg (Some 18000) "") as cfg eqn:Hcfg.
  destruct (main_run (H := day_config) (H0 := gated_routes) (H1 := evening) 40 cfg (at_rest ∅)) as [r s'] eqn:E. cbn [snd]. intros Hl.
  assert (Hne : launches s' <> launches (at_rest ∅)) by (rewrite Hl; discriminate).
  destruct (launch_waits_for_capacity day_config gated_routes evening 40 cfg (at_rest ∅) s' r (or_introl E) Hne) as (Hd & s0 & s1 & _ & _ & _ & Hp).
  subst cfg. split; [exact Hd|]. exists s0. apply Hp. reflexivity.
Defined.
Lemma attempts_are_bounded_witness : exists c s', attempts (H := day_config) (H0 := gated_routes) (H1 := evening) (evening_cfg None "") P_sleep (at_rest ∅) = (Ok c, s') /\
  exists delays : list Z, (length (launches s') <= 1 + length delays)%nat.
Proof.
  destruct (attempts (H := day_config) (H0 := gated_routes) (H1 := evening) (evening_cfg None "") P_sleep (at_rest ∅)) as [r s'] eqn:E.
  destruct r as [c|e]; [|vm_compute in E; discriminate E]. exists c, s'. split; [reflexivity|].
  destruct (attempts_are_bounded day_config gated_routes evening (evening_cfg None "") P_sleep (at_rest ∅) s' c E) as (delays & tries & _ & Hlen & Hl & _).
  exists delays. rewrite Hl. cbn [app]. rewrite length_app, length_seqZ. cbn. lia.
Defined.
Lemma failed_route_is_blocked_witness : exists c s',
  submit_once (H := day_config) (H0 := gated_routes) (H1 := evening) (evening_cfg None "glm") 1 (at_rest ∅) = (Ok c, s') /\
  c = submit_answer (evening_cfg None "glm") (Attempt (Some "1"%string) (Some "HTTP 429, retry-after: 2 min"%string) None 30) .
Proof.
  destruct (submit_once (H := day_config) (H0 := gated_routes) (H1 := evening) (evening_cfg None "glm") 1 (at_rest ∅)) as [r s'] eqn:E.
  destruct r as [c|e]; [|vm_compute in E; discriminate E]. exists c, s'. split; [reflexivity|].
  destruct (failed_route_is_blocked day_config gated_routes evening (evening_cfg None "glm") 1 (at_rest ∅) s' c day_glm) as [(a & (n & Ha) & -> & _) _];
    [exact day_glm_sound|done|done|exact E|]. by injection Ha as <-.
Defined.
(** The unit of a retry hint is whatever letter comes next, on this line or on
    the following one. *)
Example retry_hint_of_the_next_line : _parse_retry_after_seconds "retry-after: 60
host: api" = Some 216000 /\ _parse_retry_after_seconds "Retry after 5 more attempts" = Some 300 /\ _parse_retry_after_seconds "retry-after: 60 s" = Some 60.
Proof. vm_compute. done. Qed.
