(* ===== verification/Watch.v ===== *)
(** * Watching a headless provider ([scheduler.py])

    A headless provider writes to two pipes.  What it writes is kept up to a
    limit, rendered if it is a stream of JSON events, and scanned for a prompt
    it may be waiting at; a provider that waits or is silent for too long is
    aborted.  Echoing to the terminal is left out. *)

From Stdlib Require Import QArith Ascii.
From S2P Require Import Prelude Py Bytes Regex Config Diagnostics.
From stdpp Require Import options.
Local Open Scope Z_scope.

Inductive stream : Type := OUT | ERR.
#[export] Instance stream_eq : EqDecision stream.
Proof. solve_decision. Defined.

(** What the environment answers, reading by reading: the clock, what a pipe
    that is ready gives (nothing at its end), whether a signal can be sent, the
    exit status of the process if it has ended; and the functions [decode],
    [json.loads] and [json.dumps]. *)
Class WatchEnv : Type := {
  wt_time : nat -> Q;
  wt_ready : nat -> stream -> option bytes;
  wt_send : Z -> bool;
  wt_poll : nat -> option Z;
  wt_decode : bytes -> text;
  wt_loads : bytes -> option json;
  wt_dumps : json -> string;
}.

(** ** Output that is kept *)

Record kept : Type := Kept { k_parts : list bytes; k_retained : Z; k_truncated : bool }.
Definition size (data : bytes) : Z := Z.of_nat (length data).
Fixpoint trim (limit : Z) (parts : list bytes) (retained : Z) : list bytes * Z :=
  match parts with
  | [] => ([], retained)
  | part :: rest =>
      if limit <? retained then
        let excess := retained - limit in
        if size part <=? excess then trim limit rest (retained - size part)
        else (drop (Z.to_nat excess) part :: rest, retained - excess)
      else (parts, retained)
  end.
Definition append_combined (limit : Z) (data : bytes) (k : kept) : kept :=
  let parts := k_parts k ++ [data] in
  let retained := k_retained k + size data in
  if limit <=? 0 then Kept parts retained (k_truncated k)
  else let '(parts', retained') := trim limit parts retained in Kept parts' retained' (k_truncated k || (limit <? retained)).
Definition nothing_kept : kept := Kept [] 0 false.

(** ** Lines of bytes *)

Definition byte_space (c : Z) : bool := char_in [32; 9; 10; 11; 12; 13] c.
Definition strip_bytes (data : bytes) : bytes := strip_text byte_space data.
(** [bytes.splitlines(keepends=True)], the current line reversed. *)
Fixpoint lines_kept (line : bytes) (data : bytes) : list bytes :=
  match data with
  | [] => if bool_decide (line = []) then [] else [rev line]
  | 13 :: ((10 :: rest) as data') => rev (10 :: 13 :: line) :: lines_kept [] rest
  | c :: rest => if char_in [10; 13] c then rev (c :: line) :: lines_kept [] rest else lines_kept (c :: line) rest
  end.
Definition splitlines_keep (data : bytes) : list bytes := lines_kept [] data.
Definition ends_line (line : bytes) : bool := match last line with Some c => char_in [10; 13] c | None => false end.
(** The complete lines and what is left over. *)
Definition whole_lines (data : bytes) : list bytes * bytes :=
  let lines := splitlines_keep data in
  match last lines with
  | Some line => if ends_line line then (lines, []) else (removelast lines, line)
  | None => ([], [])
  end.
Fixpoint after_newline (data : bytes) : option bytes :=
  match data with [] => None | c :: rest => if c =? 10 then Some rest else after_newline rest end.

Definition encode (s : string) : bytes := utf8_encode (points s).
Definition newline_text : string := String (ascii_of_nat 10) EmptyString.
Definition TOOL_ACTIVITY_SCAN_MARKER : string := (newline_text +:+ "[tool activity]" +:+ newline_text)%string.
Definition ends_with_newline (s : string) : bool := match last (points s) with Some c => c =? 10 | None => false end.
Definition with_newline (s : string) : string := if truthy_str s && negb (ends_with_newline s) then (s +:+ newline_text)%string else s.

(** ** The command line of Codex *)

Definition CODEX_GLOBAL_OPTIONS_WITH_VALUE : list string :=
  ["-c"; "--config"; "--enable"; "--disable"; "--remote"; "--remote-auth-token-env"; "-i"; "--image"; "-m"; "--model"; "-p"; "--profile"; "-s"; "--sandbox";
   "--local-provider"; "-C"; "--cd"; "-a"; "--ask-for-approval"; "--add-dir"]%string.
Definition CODEX_EXEC_OPTIONS_WITH_VALUE : list string :=
  CODEX_GLOBAL_OPTIONS_WITH_VALUE ++ ["-o"; "--output-last-message"; "--output-schema"; "--thread-source"; "--color"]%string.
(** [Path(p).name.casefold()]. *)
Definition program_name (path : string) : string :=
  lower (default EmptyString (last (select (fun part => negb (bool_decide (part ∈ [""; "."]%string))) (split_char "/" path)))).
(** The position of [exec], from the arguments after the first [index]. *)
Fixpoint exec_index (index : nat) (argv : list string) : option nat :=
  match argv with
  | [] => None
  | option :: rest =>
      if bool_decide (option ∈ ["exec"; "e"]%string) then Some index
      else if bool_decide (option = "--"%string) || negb (startswith "-" option) then None
      else if bool_decide (option ∈ CODEX_GLOBAL_OPTIONS_WITH_VALUE) then match rest with _ :: rest => exec_index (S (S index)) rest | [] => None end
      else exec_index (S index) rest
  end.
Definition _codex_exec_index (argv : list string) : option nat :=
  match argv with
  | program :: rest => if bool_decide (program_name program ∈ ["codex"; "codex.exe"]%string) then exec_index 1 rest else None
  | [] => None
  end.
Fixpoint has_json (argv : list string) : bool :=
  match argv with
  | [] => false
  | option :: rest =>
      if bool_decide (option = "--"%string) then false
      else if bool_decide (option = "--json"%string) then true
      else if startswith "-" option && bool_decide (option ∈ CODEX_EXEC_OPTIONS_WITH_VALUE) then match rest with _ :: rest => has_json rest | [] => false end
      else has_json rest
  end.
Definition _codex_exec_has_json (argv : list string) (index : nat) : bool := has_json (drop (S index) argv).
Definition codex_exec_json_argv (argv : list string) : list string :=
  match _codex_exec_index argv with
  | Some index => if _codex_exec_has_json argv index then argv else take (S index) argv ++ ["--json"%string] ++ drop (S index) argv
  | None => argv
  end.
Definition is_codex_exec_json (argv : list string) : bool :=
  match _codex_exec_index argv with Some index => _codex_exec_has_json argv index | None => false end.

(** ** Rendering Claude's stream *)

Section renderers.
Context `{ConfigEnv} `{WatchEnv}.

(** [str(d.get(key, ""))] and [str(d.get(key) or alternative)]. *)
Definition text_at (key : string) (d : dict) : string := match dget key d with Some j => py_str j | None => EmptyString end.
Definition text_or (key alternative : string) (d : dict) : string :=
  match dget key d with Some j => if truthy j then py_str j else alternative | None => alternative end.
Definition empty_input (j : json) : bool := match j with JNull | JStr EmptyString | JObj [] | JList [] => true | _ => false end.
Fixpoint render_claude_content_block (block : json) : string :=
  match block with
  | JStr s => s
  | JObj d =>
      let content :=
        (fix look (d : dict) : option string :=
           match d with
           | [] => None
           | (key, value) :: d =>
               if bool_decide (key = "content"%string) then
                 Some match value with
                      | JList items => (fix all (items : list json) : string :=
                          match items with [] => EmptyString | item :: items => render_claude_content_block item +:+ all items end) items
                      | JNull => EmptyString
                      | value => py_str value
                      end
               else look d
           end) d in
      let type_ := text_at "type" d in
      if bool_decide (type_ = "text"%string) then text_at "text" d
      else if bool_decide (type_ = "tool_use"%string) then
        let input := default JNull (dget "input" d) in
        "Tool call: " +:+ text_or "name" "tool" d +:+ newline_text +:+ (if empty_input input then EmptyString else wt_dumps input +:+ newline_text)
      else if bool_decide (type_ = "tool_result"%string) then
        let rendered := default EmptyString content in
        if truthy_str rendered then
          (if truthy_opt (dget "is_error" d) then "Tool error:" else "Tool result:") +:+ newline_text +:+ rendered
        else EmptyString
      else EmptyString
  | _ => EmptyString
  end%string.
Fixpoint concat_strings (l : list string) : string := match l with [] => EmptyString | s :: l => (s +:+ concat_strings l)%string end.
(** The content of an event's message as a list of blocks. *)
Definition message_blocks (event : dict) : option (list json) :=
  match dget "message" event with
  | Some (JObj message) => Some match dget "content" message with Some (JList blocks) => blocks | Some content => [content] | None => [JNull] end
  | _ => None
  end.
Definition is_type (l : list string) (block : json) : bool :=
  match block with JObj d => match dget "type" d with Some (JStr t) => bool_decide (t ∈ l) | _ => false end | _ => false end.
Definition scan_text (block : json) : string :=
  match block with
  | JStr s => s
  | JObj d => if is_type ["text"]%string block then text_at "text" d else EmptyString
  | _ => EmptyString
  end.
Definition delta_text (event : dict) : option string :=
  match dget "delta" event with Some (JObj delta) => match dget "text" delta with Some (JStr t) => Some t | _ => None end | _ => None end.
Definition TOOL_BLOCKS : list string := ["tool_use"; "tool_result"]%string.
Definition scan_event (event : dict) : string :=
  let type_ := text_at "type" event in
  if bool_decide (type_ = "assistant"%string) then
    let blocks := default [JNull] (message_blocks event) in
    (concat_strings ((fun block => if is_type TOOL_BLOCKS block then EmptyString else scan_text block) <$> blocks) +:+
      (if existsb (is_type TOOL_BLOCKS) blocks then TOOL_ACTIVITY_SCAN_MARKER else EmptyString))%string
  else if bool_decide (type_ = "user"%string) then TOOL_ACTIVITY_SCAN_MARKER
  else if bool_decide (type_ ∈ ["assistant_delta"; "content_block_delta"]%string) then default EmptyString (delta_text event)
  else if bool_decide (type_ = "result"%string) then match dget "result" event with Some (JStr s) => s | _ => EmptyString end
  else EmptyString.
Definition has_text (block : json) : bool :=
  match block with
  | JStr s => truthy_str s
  | JObj d => is_type ["text"]%string block && truthy_opt (dget "text" d)
  | _ => false
  end.
(** What it renders, and whether assistant text has been rendered. *)
Definition render_event (seen : bool) (event : dict) : string * bool :=
  let type_ := text_at "type" event in
  if bool_decide (type_ = "assistant"%string) then
    match message_blocks event with
    | None => (EmptyString, seen)
    | Some blocks => (concat_strings (render_claude_content_block <$> blocks), seen || existsb has_text blocks)
    end
  else if bool_decide (type_ = "user"%string) then
    match message_blocks event with None => (EmptyString, seen) | Some blocks => (concat_strings (render_claude_content_block <$> blocks), seen) end
  else if bool_decide (type_ ∈ ["assistant_delta"; "content_block_delta"]%string) then
    match delta_text event with Some t => (t, true) | None => (EmptyString, seen) end
  else if bool_decide (type_ = "result"%string) && negb seen then
    (match dget "result" event with Some (JStr s) => s | _ => EmptyString end, seen)
  else (EmptyString, seen).
(** What a line is rendered to, what of it may be scanned, and the new state. *)
Definition claude_render_line (seen : bool) (line : bytes) : bytes * bytes * bool :=
  let stripped := strip_bytes line in
  if bool_decide (stripped = []) then ([], [], seen)
  else
    match wt_loads stripped with
    | None => (line, line, seen)
    | Some (JObj event) => let '(rendered, seen') := render_event seen event in (encode (with_newline rendered), encode (scan_event event), seen')
    | Some _ => ([], [], seen)
    end.

(** ** Rendering Codex's stream *)

(** What a line gives: its rendering, what may be scanned, what is logged,
    whether it is an error of the provider, and of an exhausted account. *)
Record codex_line : Type := CodexLine { cl_rendered : string; cl_scannable : string; cl_log : string; cl_error : bool; cl_credit : option bool }.
Definition activity (rendered : string) : codex_line := CodexLine rendered TOOL_ACTIVITY_SCAN_MARKER EmptyString false None.
Definition provider_says (message : string) : codex_line :=
  CodexLine message message EmptyString true (Some (output_signals_credit_exhausted (points message))).
Definition changed_path (change : json) : option string :=
  match change with JObj c => match dget "path" c with Some p => if truthy p then Some (py_str p) else None | None => None end | _ => None end.
Definition codex_item (event_type : string) (item : dict) : codex_line :=
  let type_ := text_or "type" EmptyString item in
  (if bool_decide (type_ = "agent_message") then
     match dget "text" item with Some (JStr t) => CodexLine t t EmptyString false None | _ => activity EmptyString end
   else if bool_decide (type_ = "command_execution") then
     let log := match dget "aggregated_output" item with Some (JStr t) => t | _ => EmptyString end in
     let rendered :=
       if bool_decide (event_type = "item.started") then "Command started."
       else match dget "exit_code" item with
            | Some (JInt _ as code) | Some (JBool _ as code) => "Command finished with exit code " +:+ py_str code +:+ "."
            | _ => "Command activity updated."
            end in
     CodexLine rendered TOOL_ACTIVITY_SCAN_MARKER log false None
   else if bool_decide (type_ = "file_change") then
     let paths := match dget "changes" item with Some (JList changes) => omap changed_path changes | _ => [] end in
     activity (if bool_decide (paths = []) then "File changes completed." else "Files changed: " +:+ join ", " paths)
   else if bool_decide (type_ = "mcp_tool_call") then activity ("MCP tool: " +:+ text_or "server" "MCP" item +:+ "." +:+ text_or "tool" "tool" item)
   else if bool_decide (type_ = "web_search") then activity "Web search activity updated."
   else if bool_decide (type_ = "reasoning") then activity "Reasoning updated."
   else if bool_decide (type_ = "error") then
     match dget "message" item with Some (JStr m) => provider_says m | _ => activity EmptyString end
   else activity EmptyString)%string.
Definition codex_event (event : dict) : codex_line :=
  let type_ := text_or "type" EmptyString event in
  let item := match dget "item" event with Some (JObj item) => Some item | _ => None end in
  let by_item := match item with
                 | Some item => if bool_decide (type_ ∈ ["item.started"; "item.updated"; "item.completed"]%string) then Some (codex_item type_ item) else None
                 | None => None
                 end in
  match by_item with
  | Some line => line
  | None =>
      if bool_decide (type_ = "turn.failed"%string) then
        match dget "error" event with Some (JObj e) => match dget "message" e with Some (JStr m) => provider_says m | _ => activity EmptyString end | _ => activity EmptyString end
      else if bool_decide (type_ = "error"%string) then
        match dget "message" event with Some (JStr m) => provider_says m | _ => activity EmptyString end
      else activity EmptyString
  end.

(** What a line is rendered to, and what came of it. *)
Definition codex_render_line (line : bytes) : bytes * bytes * bytes * bool * option bool :=
  let stripped := strip_bytes line in
  if bool_decide (stripped = []) then ([], [], [], false, None)
  else
    match wt_loads stripped with
    | None => (line, line, [], false, None)
    | Some (JObj event) =>
        let c := codex_event event in
        (encode (with_newline (cl_rendered c)), encode (cl_scannable c),
         encode (if truthy_str (cl_log c) then with_newline (cl_log c) else cl_rendered c), cl_error c, cl_credit c)
    | Some _ => ([], [], [], false, None)
    end.
End renderers.

(** ** Progress *)

Definition _QUOTA_DIAGNOSTIC_RE `{Chars} : rx :=
  seq_ [Edge; any_ [seq_ [lit "rate"; Maybe (in_ " _-"); lit "limit"; Maybe (lit "ed")]; lit "quota"; lit "usage limit"; lit "monthly spend limit";
                    seq_ [lit "out of credit"; Maybe (lit "s")]]; Edge].
Definition _PLAIN_PROVIDER_ERROR_RE `{Chars} : rx :=
  seq_ [LineStart; spaces;
        any_ [lit "error"; lit "fatal"; lit "provider error"; seq_ [lit "http"; Maybe (seq_ [One ch_space; spaces; lit "status"])]; lit "status"];
        spaces; Maybe (in_ ":="); spaces].
Definition _EXPLICIT_PROMPT_CUE_RE `{Chars} : rx :=
  any_ [seq_ [Edge; lit "what do you want to do?"]; phrase "enter to confirm"; phrase "esc to cancel";
        seq_ [Edge; lit "use "; Maybe (lit "the "); lit "arrow keys"; Edge];
        seq_ [Edge; lit "press "; one_of ["enter"; "return"]; lit " to"; Edge];
        seq_ [Edge; lit "proceed?"; spaces; yes_no]].
Definition _LIMIT_MENU_CUE_RE `{Chars} : rx :=
  any_ [phrase "adjust monthly spend limit"; seq_ [Edge; lit "rate"; in_ "- "; lit "limit options"; Edge]; phrase "upgrade to max";
        seq_ [Edge; lit "buy more "; one_of ["credits"; "tokens"]; Edge];
        seq_ [Edge; lit "downgrade to "; Maybe (lit "a "); one_of ["simpler"; "smaller"; "cheaper"]; lit " model"; Edge]].
Definition provider_quota_diagnostic `{Chars} (s : text) (structured : bool) : bool :=
  if negb (search_folded _QUOTA_DIAGNOSTIC_RE s) then false else structured || search_folded _PLAIN_PROVIDER_ERROR_RE s.
Definition has_explicit_prompt_cue `{Chars} (s : text) : bool :=
  search_folded _EXPLICIT_PROMPT_CUE_RE s || search_folded _LIMIT_MENU_CUE_RE s || search_folded QUESTION_LINE_RE s.

Record ProgressGuard : Type := Guard { last_progress : Q; question_seen_at : option Q; provider_quota_diagnostic_seen : bool }.
(** The limits of a run: of the output that is kept, of time in all, of silence,
    and of a question that is not answered. *)
Record limits : Type := Limits { max_output_bytes : Z; pty_timeout : Z; idle_timeout : Z; question_idle_timeout : Z }.
(** How the standard output is read: as Claude's events, as Codex's, or as text. *)
Inductive reading : Type := Claude | Codex | Plain.
#[export] Instance reading_eq : EqDecision reading.
Proof. solve_decision. Defined.
(** What the loop keeps: how often the clock was read, the guard, the output,
    the line that is not complete, whether its rest is dropped, what was scanned
    last, whether assistant text was rendered, whether the account is exhausted. *)
Record sink : Type := Sink {
  s_clock : nat; s_guard : ProgressGuard; s_kept : kept; s_buffer : bytes; s_discard : bool; s_scan : bytes; s_seen : bool; s_credit : bool;
}.
Definition set_guard (g : ProgressGuard) (s : sink) : sink :=
  Sink (s_clock s) g (s_kept s) (s_buffer s) (s_discard s) (s_scan s) (s_seen s) (s_credit s).
Definition set_kept (k : kept) (s : sink) : sink :=
  Sink (s_clock s) (s_guard s) k (s_buffer s) (s_discard s) (s_scan s) (s_seen s) (s_credit s).
Definition set_buffer (buffer : bytes) (discard : bool) (s : sink) : sink :=
  Sink (s_clock s) (s_guard s) (s_kept s) buffer discard (s_scan s) (s_seen s) (s_credit s).
Definition set_scan (scan : bytes) (s : sink) : sink :=
  Sink (s_clock s) (s_guard s) (s_kept s) (s_buffer s) (s_discard s) scan (s_seen s) (s_credit s).
Definition set_seen (seen : bool) (s : sink) : sink :=
  Sink (s_clock s) (s_guard s) (s_kept s) (s_buffer s) (s_discard s) (s_scan s) seen (s_credit s).
Definition set_credit (credit : bool) (s : sink) : sink :=
  Sink (s_clock s) (s_guard s) (s_kept s) (s_buffer s) (s_discard s) (s_scan s) (s_seen s) credit.
Definition cut_output (s : sink) : sink := set_kept (Kept (k_parts (s_kept s)) (k_retained (s_kept s)) true) s.

Section watching.
Context `{ConfigEnv} `{WatchEnv} `{Chars} (mode : reading) (lim : limits).

Definition tick (s : sink) : Q * sink :=
  (wt_time (s_clock s), Sink (S (s_clock s)) (s_guard s) (s_kept s) (s_buffer s) (s_discard s) (s_scan s) (s_seen s) (s_credit s)).
Definition append_output (data : bytes) (s : sink) : sink := set_kept (append_combined (max_output_bytes lim) data (s_kept s)) s.
(** Whether a prompt is shown; and a question at the end of the text is noted. *)
Definition note_prompt (now : Q) (quota : bool) (combined_tail : text) (s : sink) : sink * bool :=
  let combined_tail := blocking_tail combined_tail in
  if existsb (fun pattern => search_folded pattern combined_tail) BLOCKING_PROMPT_PATTERNS then
    (set_guard (Guard now (question_seen_at (s_guard s)) quota) s, true)
  else if search_folded QUESTION_LINE_RE (last_of (Z.to_nat 4000) combined_tail) then
    let '(asked, s) := tick s in (set_guard (Guard now (Some asked) quota) s, false)
  else (set_guard (Guard now None quota) s, false).
Definition note_output (combined_tail : text) (structured_provider_error : bool) (current_output : text) (s : sink) : sink * bool :=
  let '(now, s) := tick s in
  if provider_quota_diagnostic combined_tail structured_provider_error then
    if negb (has_explicit_prompt_cue (if bool_decide (current_output = []) then combined_tail else current_output))
    then (set_guard (Guard now None true) s, false)
    else note_prompt now true combined_tail s
  else note_prompt now (provider_quota_diagnostic_seen (s_guard s)) combined_tail s.
Definition later (a b : Q) (limit : Z) : bool := negb (Qle_bool (b - a) (inject_Z limit)).
Definition overdue (s : sink) : option string * sink :=
  let '(now, s) := tick s in
  let g := s_guard s in
  (if (0 <? idle_timeout lim) && later (last_progress g) now (idle_timeout lim) then
     Some ("no output progress for " +:+ show_Z (idle_timeout lim) +:+ "s")%string
   else match question_seen_at g with
        | Some asked =>
            if (0 <? question_idle_timeout lim) && later asked now (question_idle_timeout lim) then
              Some ("question required a response for " +:+ show_Z (question_idle_timeout lim) +:+ "s")%string
            else None
        | None => None
        end, s).

(** [scan_tail] of Claude's loop and [scan_prompt] of the other. *)
Definition scan_tail (scannable : bytes) (s : sink) : sink * bool :=
  let scan := last_of (Z.to_nat 8000) (s_scan s ++ scannable) in
  note_output (strip_ansi (wt_decode scan)) false [] (set_scan scan s).
Definition scan_prompt (data : bytes) (structured_provider_error : bool) (s : sink) : sink * bool :=
  if bool_decide (data = []) then (s, false)
  else
    let scan := last_of (Z.to_nat 8000) (s_scan s ++ data) in
    note_output (strip_ansi (wt_decode scan)) structured_provider_error (strip_ansi (wt_decode data)) (set_scan scan s).
Definition write_claude (line : bytes) (s : sink) : sink * bool :=
  let '(rendered, scannable, seen) := claude_render_line (s_seen s) line in
  let s := set_seen seen s in
  if bool_decide (rendered = []) then (s, false) else scan_tail scannable (append_output rendered s).
Definition write_codex (line : bytes) (s : sink) : sink * bool :=
  let '(_, scannable, log_line, error, credit) := codex_render_line line in
  let s := set_credit (s_credit s || default false credit) s in
  let s := if bool_decide (log_line = []) then s else append_output log_line s in
  scan_prompt scannable error s.
Definition write_plain (data : bytes) (s : sink) : sink * bool := scan_prompt data false (append_output data s).
Definition write_stdout : bytes -> sink -> sink * bool :=
  match mode with Claude => write_claude | Codex => write_codex | Plain => write_plain end.
Definition too_long (line : bytes) : bool := (0 <? max_output_bytes lim) && (max_output_bytes lim <? size line).
(** The lines of a chunk, up to one that shows a prompt. *)
Fixpoint write_lines (lines : list bytes) (s : sink) : sink * bool :=
  match lines with
  | [] => (s, false)
  | line :: rest =>
      let '(s, blocking) :=
        if bool_decide (mode = Codex) && too_long line then scan_prompt (encode TOOL_ACTIVITY_SCAN_MARKER) false (cut_output s)
        else write_stdout line s in
      if blocking then (s, true) else write_lines rest s
  end.
Definition claude_chunk (chunk : bytes) (s : sink) : sink * bool :=
  let buffer := s_buffer s ++ chunk in
  let buffer := if too_long buffer then last_of (Z.to_nat (max_output_bytes lim)) buffer else buffer in
  let '(lines, rest) := whole_lines buffer in
  write_lines lines (set_buffer rest (s_discard s) s).
Definition codex_chunk (chunk : bytes) (s : sink) : sink * bool :=
  let chunk := if s_discard s then after_newline chunk else Some chunk in
  match chunk with
  | None => (s, false)
  | Some chunk =>
      let '(lines, rest) := whole_lines (s_buffer s ++ chunk) in
      let '(s, blocking) := write_lines lines (set_buffer rest false s) in
      (if too_long (s_buffer s) then set_buffer [] true (cut_output s) else s, blocking)
  end.
Definition read_chunk (fd : stream) (chunk : bytes) (s : sink) : sink * bool :=
  let '(now, s) := tick s in
  let s := set_guard (Guard now (question_seen_at (s_guard s)) (provider_quota_diagnostic_seen (s_guard s))) s in
  match fd, mode with
  | OUT, Claude => claude_chunk chunk s
  | OUT, Codex => codex_chunk chunk s
  | OUT, Plain => write_plain chunk s
  | ERR, Claude => scan_tail chunk (append_output chunk s)
  | ERR, _ => scan_prompt chunk false (append_output chunk s)
  end.
(** At the end of a pipe the line that is not complete is written. *)
Definition read_end (fd : stream) (s : sink) : sink * bool :=
  if bool_decide (fd = OUT) && negb (bool_decide (s_buffer s = [])) then
    let '(s, blocking) := write_stdout (s_buffer s) s in (set_buffer [] (s_discard s) s, blocking)
  else (s, false).
(** Whether a prompt leaves the other pipe for the next round. *)
Definition leaves_rest (fd : stream) (at_end : bool) : bool :=
  match mode with Claude => negb at_end | Codex => at_end || bool_decide (fd = ERR) | Plain => true end.
Fixpoint read_ready (ready : list (stream * bytes)) (open : list stream) (s : sink) (blocking : bool) : list stream * sink * bool :=
  match ready with
  | [] => (open, s, blocking)
  | (fd, chunk) :: ready =>
      let at_end := bool_decide (chunk = []) in
      let '(s, prompt) := if at_end then read_end fd s else read_chunk fd chunk s in
      let open := if at_end then select (fun fd' => negb (bool_decide (fd' = fd))) open else open in
      if (blocking || prompt) && leaves_rest fd at_end then (open, s, true) else read_ready ready open s (blocking || prompt)
  end.

(** ** The process *)

Record process : Type := Process { p_polls : nat; p_code : option Z; p_signals : list Z }.
Definition poll (p : process) : option Z * process :=
  match p_code p with
  | Some code => (Some code, p)
  | None => (wt_poll (p_polls p), Process (S (p_polls p)) (wt_poll (p_polls p)) (p_signals p))
  end.
(** [proc.send_signal], which asks first, and whether it fails. *)
Definition send_signal (sig : Z) (p : process) : bool * process :=
  let '(code, p) := poll p in
  match code with
  | Some _ => (true, p)
  | None => (wt_send sig, Process (p_polls p) (p_code p) (if wt_send sig then p_signals p ++ [sig] else p_signals p))
  end.
Fixpoint end_process (signals : list Z) (p : process) : process :=
  match signals with
  | [] => p
  | sig :: signals =>
      let '(code, p) := poll p in
      match code with
      | Some _ => p
      | None => let '(sent, p) := send_signal sig p in if sent then end_process signals p else p
      end
  end.
Definition SIGTERM : Z := 15.
Definition SIGKILL : Z := 9.

(** ** The loop *)

(** How the loop ended: the exit status, the reason of an abort, whether it is
    a prompt; and what is left. *)
Record ended : Type := Ended { e_exit : Z; e_reason : string; e_blocking : bool; e_open : list stream; e_sink : sink; e_process : process }.
Definition ready_pipes (round : nat) (open : list stream) : list (stream * bytes) :=
  omap (fun fd => match wt_ready round fd with Some chunk => Some (fd, chunk) | None => None end) open.
Fixpoint watch_rounds (fuel round : nat) (start : Q) (open : list stream) (s : sink) (p : process) : option ended :=
  match fuel with
  | O => None
  | S fuel =>
      if bool_decide (open = []) then Some (Ended 124 EmptyString false open s p)
      else
        let '(now, s) := tick s in
        if later start now (pty_timeout lim) then Some (Ended 124 EmptyString false open s p)
        else
          let '(reason, s) := overdue s in
          match reason with
          | Some reason => Some (Ended AUTONOMY_ABORT_STATUS reason false open s p)
          | None =>
              let '(open, s, blocking) := read_ready (ready_pipes round open) open s false in
              if blocking then Some (Ended AUTONOMY_ABORT_STATUS "interactive prompt detected" true open s p)
              else
                let '(polled, p) := poll p in
                match polled with
                | Some code => if bool_decide (open = []) then Some (Ended code EmptyString false open s p) else watch_rounds fuel (S round) start open s p
                | None => watch_rounds fuel (S round) start open s p
                end
          end
  end.
Definition first_sink : sink := Sink 2 (Guard (wt_time 1) None false) nothing_kept [] false [] false false.
Definition first_process : process := Process 0 None [].
Definition watch (fuel : nat) : option ended := watch_rounds fuel 0 (wt_time 0) [OUT; ERR] first_sink first_process.

(** What a run leaves: its status, its output, the output as it was kept, the
    signals that were sent, and the diagnostic if it writes one. *)
Record watched : Type := Watched { r_exit : Z; r_output : text; r_kept : kept; r_signals : list Z; r_diagnostic : option dict }.
Definition TRUNCATED : string :=
  ("[Bridge retained only the latest bounded provider output. Earlier bytes were discarded.]" +:+ newline_text)%string.
Definition abort_line (reason : string) : bytes :=
  encode (newline_text +:+ "llm-scheduler: autonomous abort: " +:+ reason +:+ newline_text)%string.
Definition output_of (k : kept) : text :=
  (if k_truncated k then points TRUNCATED else []) ++ wt_decode (concat (k_parts k)).
(** The process is ended unless it ended by itself; its status and what is
    known of the process. *)
Definition end_run (e : ended) : Z * process :=
  let p := if e_blocking e || char_in [124; AUTONOMY_ABORT_STATUS] (e_exit e) then end_process [SIGTERM; SIGKILL] (e_process e) else e_process e in
  let '(code, p) := poll p in
  (match code with Some code => if negb (e_blocking e) && (e_exit e =? 124) then code else e_exit e | None => e_exit e end, p).
Definition with_abort (e : ended) : kept :=
  if truthy_str (e_reason e) then append_combined (max_output_bytes lim) (abort_line (e_reason e)) (s_kept (e_sink e)) else s_kept (e_sink e).
End watching.

Section headless.
Context `{ConfigEnv} `{WatchEnv} `{Chars} (lim : limits).

Definition run_fresh_claude_stream_json (fuel : nat) : option watched :=
  match watch Claude lim fuel with
  | None => None
  | Some e =>
      let '(exit_code, p) := end_run e in
      let k := with_abort lim e in
      Some (Watched exit_code (output_of k) k (p_signals p) None)
  end.
Definition run_fresh_exact_stdout (sha256_hex : bytes -> string) (argv : list string) (fuel : nat) : option watched :=
  match watch (if is_codex_exec_json argv then Codex else Plain) lim fuel with
  | None => None
  | Some e =>
      let '(exit_code, p) := end_run e in
      let '(native, p) := poll p in
      let quota := provider_quota_diagnostic_seen (s_guard (e_sink e)) in
      let exit_code := if negb (e_blocking e) && (exit_code =? AUTONOMY_ABORT_STATUS) && quota then 1 else exit_code in
      let k := with_abort lim e in
      let output := output_of k in
      Some (Watched exit_code output k (p_signals p)
              (Some (exact_stdout_diagnostic sha256_hex output native exit_code (e_reason e) quota (s_credit (e_sink e)) (e_blocking e))))
  end.
End headless.
