(* ===== verification/WatchLaws.v ===== *)
(** * Laws of watching a headless provider *)

From Stdlib Require Import QArith Ascii Lqa.
From S2P Require Import Prelude Py Bytes Regex Config Diagnostics Watch.
From stdpp Require Import options.
Local Open Scope Z_scope.

(** ** Output that is kept *)

Lemma size_app a b : size (a ++ b) = size a + size b.
Proof. unfold size. rewrite length_app. lia. Qed.
Lemma size_nonneg a : 0 <= size a.
Proof. unfold size. lia. Qed.
Lemma last_of_app_short {A} (n : nat) (a b : list A) : (n <= length b)%nat -> last_of n (a ++ b) = last_of n b.
Proof.
  intros Hn. unfold last_of. rewrite length_app. replace (length a + length b - n)%nat with (length a + (length b - n))%nat by lia.
  by rewrite drop_app_add.
Qed.
Lemma last_of_all {A} (n : nat) (l : list A) : (length l <= n)%nat -> last_of n l = l.
Proof. intros Hn. unfold last_of. by replace (length l - n)%nat with 0%nat by lia. Qed.
Lemma last_of_last_of {A} (n : nat) (a b : list A) : last_of n (last_of n a ++ b) = last_of n (a ++ b).
Proof.
  destruct (decide (length a <= n)%nat) as [Hn|Hn]; [by rewrite (last_of_all n a)|].
  assert (Ha : a = take (length a - n) a ++ last_of n a) by (symmetry; apply take_drop).
  rewrite Ha at 2. rewrite <- app_assoc. symmetry. apply last_of_app_short. rewrite length_app. unfold last_of. rewrite length_drop. lia.
Qed.
Lemma trim_spec limit parts retained :
  0 < limit -> retained = size (concat parts) ->
  let '(parts', retained') := trim limit parts retained in
  concat parts' = last_of (Z.to_nat limit) (concat parts) /\ retained' = size (concat parts').
Proof.
  intros Hl. revert retained. induction parts as [|part rest IH]; intros retained Hr; cbn [trim concat] in *.
  - split; [|by subst]. unfold last_of. by rewrite drop_nil.
  - destruct (Z.ltb_spec limit retained) as [Hlt|Hge].
    + destruct (Z.leb_spec (size part) (retained - limit)) as [Hle|Hgt].
      * rewrite size_app in Hr. specialize (IH (retained - size part) ltac:(lia)). destruct (trim limit rest (retained - size part)) as [parts' retained'].
        destruct IH as [-> ->]. split; [|done]. symmetry. apply last_of_app_short. unfold size in *. lia.
      * pose proof (size_nonneg part). rewrite size_app in Hr. cbn [concat]. split.
        -- unfold last_of. rewrite length_app. unfold size in *. rewrite drop_app_le by lia. do 2 f_equal. lia.
        -- rewrite size_app. unfold size in *. rewrite length_drop. lia.
    + cbn [concat]. split; [|done]. symmetry. apply last_of_all. unfold size in *. lia.
Qed.
(** What is kept of all the output so far. *)
Definition keeps (limit : Z) (all : bytes) (k : kept) : Prop :=
  k_retained k = size (concat (k_parts k)) /\
  (limit <= 0 -> concat (k_parts k) = all /\ k_truncated k = false) /\
  (0 < limit -> concat (k_parts k) = last_of (Z.to_nat limit) all /\ k_truncated k = bool_decide (limit < size all)).
Lemma keeps_nothing limit : keeps limit [] nothing_kept.
Proof.
  split; [done|]. split; [done|]. intros Hl. unfold last_of. rewrite drop_nil. split; [done|]. symmetry. apply bool_decide_eq_false.
  unfold size. cbn. lia.
Qed.
Lemma concat_snoc {A} (ls : list (list A)) l : concat (ls ++ [l]) = concat ls ++ l.
Proof. by rewrite concat_app; cbn; rewrite app_nil_r. Qed.
Lemma keeps_append limit all k data : keeps limit all k -> keeps limit (all ++ data) (append_combined limit data k).
Proof.
  intros (Hr & Hno & Hyes). unfold append_combined. destruct (Z.leb_spec limit 0) as [Hl|Hl].
  - destruct (Hno Hl) as [Hc Ht]. split; [|split]; cbn [k_parts k_retained k_truncated]; [rewrite concat_snoc, size_app; lia| |lia].
    intros _. rewrite concat_snoc. by subst.
  - destruct (Hyes Hl) as [Hc Ht]. pose proof (trim_spec limit (k_parts k ++ [data]) (k_retained k + size data) Hl) as Htrim.
    rewrite concat_snoc, size_app, Hr in Htrim. specialize (Htrim eq_refl). rewrite <- Hr in Htrim.
    destruct (trim limit (k_parts k ++ [data]) (k_retained k + size data)) as [parts' retained'].
    destruct Htrim as [Hp Hs]. split; [done|]. split; [cbn; lia|]. intros _. cbn [k_parts k_truncated]. split.
    + by rewrite Hp, Hc, last_of_last_of.
    + rewrite Ht, Hr, Hc. pose proof (size_nonneg data). pose proof (size_nonneg all). rewrite size_app.
      assert (Hsz : size (last_of (Z.to_nat limit) all) = Z.min limit (size all)) by (unfold size, last_of; rewrite length_drop; lia).
      rewrite Hsz. apply eq_true_iff_eq. rewrite orb_true_iff, !bool_decide_eq_true, Z.ltb_lt. lia.
Qed.

(** Whatever is written, and in whatever pieces, exactly the last bytes up
    to the limit are kept, and the output is marked as cut exactly when there
    were more; without a limit everything is kept. *)
Theorem last_output_is_kept limit chunks :
  let k := foldl (fun k data => append_combined limit data k) nothing_kept chunks in
  let all := concat chunks in
  k_retained k = size (concat (k_parts k)) /\
  (limit <= 0 -> concat (k_parts k) = all /\ k_truncated k = false) /\
  (0 < limit -> concat (k_parts k) = last_of (Z.to_nat limit) all /\ k_truncated k = bool_decide (limit < size all)).
Proof.
  cbn zeta. apply (proj1 (iff_refl (keeps limit (concat chunks) _))).
  assert (Hgen : forall all k, keeps limit all k -> keeps limit (all ++ concat chunks) (foldl (fun k data => append_combined limit data k) k chunks)).
  { induction chunks as [|c chunks IH]; intros all k Hk; cbn [concat foldl]; [by rewrite app_nil_r|]. rewrite app_assoc. by apply IH, keeps_append. }
  apply (Hgen []), keeps_nothing.
Qed.

(** ** The command line of Codex *)

Lemma exec_index_spec n argv index i :
  (length argv <= n)%nat -> exec_index index argv = Some i ->
  exists k, i = (index + k)%nat /\ (k < length argv)%nat /\ (forall rest, exec_index index (take (S k) argv ++ rest) = Some i).
Proof.
  revert argv index. induction n as [|n IH]; intros argv index Hn; (destruct argv as [|option argv]; [done|]); cbn [length] in *; [lia|].
  cbn [exec_index]. destruct (bool_decide (option ∈ ["exec"; "e"]%string)) eqn:Hexec.
  { intros [= <-]. exists 0%nat. split; [lia|]. split; [lia|]. intros rest. rewrite firstn_cons. cbn [take app exec_index]. by rewrite Hexec. }
  destruct (bool_decide (option = "--"%string) || negb (startswith "-" option)) eqn:Hend; [done|].
  destruct (bool_decide (option ∈ CODEX_GLOBAL_OPTIONS_WITH_VALUE)) eqn:Hvalue.
  - destruct argv as [|value argv]; [done|]. cbn [length] in *. intros (k & -> & Hk & Hpre)%IH; [|lia].
    exists (S (S k)). split; [lia|]. split; [lia|]. intros rest. rewrite 2!firstn_cons. cbn [app exec_index]. rewrite Hexec, Hend, Hvalue. apply Hpre.
  - intros (k & -> & Hk & Hpre)%IH; [|lia].
    exists (S k). split; [lia|]. split; [lia|]. intros rest. rewrite firstn_cons. cbn [app exec_index]. rewrite Hexec, Hend, Hvalue. apply Hpre.
Qed.
Lemma codex_index_spec argv i :
  _codex_exec_index argv = Some i -> (i < length argv)%nat /\ forall rest, _codex_exec_index (take (S i) argv ++ rest) = Some i.
Proof.
  destruct argv as [|program argv]; [done|]. cbn [_codex_exec_index]. case_bool_decide as Hp; [|done].
  intros (k & -> & Hk & Hpre)%(exec_index_spec (length argv)); [|lia]. cbn [length]. split; [lia|]. intros rest.
  change (take (S (1 + k)) (program :: argv)) with (program :: take (S k) argv). cbn [app _codex_exec_index]. rewrite bool_decide_eq_true_2 by done. apply Hpre.
Qed.

(** A direct Codex command is made to report its events, by one flag right
    after [exec] if it is not asked already; every other command and every
    other argument stays, and doing it again changes nothing. *)
Theorem codex_is_asked_for_events argv :
  let argv' := codex_exec_json_argv argv in
  is_codex_exec_json argv' = bool_decide (is_Some (_codex_exec_index argv)) /\
  codex_exec_json_argv argv' = argv' /\
  (argv' = argv \/ exists before after, argv = before ++ after /\ argv' = before ++ "--json"%string :: after /\
                     _codex_exec_index argv = Some (length before - 1)%nat /\ is_codex_exec_json argv = false).
Proof.
  cbn zeta. destruct (_codex_exec_index argv) as [i|] eqn:Ei.
  2: { assert (E : codex_exec_json_argv argv = argv) by (unfold codex_exec_json_argv; by rewrite Ei). rewrite !E.
       unfold is_codex_exec_json. rewrite Ei. split; [done|]. auto. }
  destruct (_codex_exec_has_json argv i) eqn:Ej.
  { assert (E : codex_exec_json_argv argv = argv) by (unfold codex_exec_json_argv; by rewrite Ei, Ej). rewrite !E.
    unfold is_codex_exec_json. rewrite Ei, Ej. split; [done|]. auto. }
  pose proof (codex_index_spec _ _ Ei) as [Hi Hpre].
  assert (Hlen : length (take (S i) argv) = S i) by (rewrite length_take; lia).
  assert (E : codex_exec_json_argv argv = take (S i) argv ++ ["--json"%string] ++ drop (S i) argv)
    by (unfold codex_exec_json_argv; by rewrite Ei, Ej).
  assert (Hj : _codex_exec_has_json (take (S i) argv ++ ["--json"%string] ++ drop (S i) argv) i = true).
  { unfold _codex_exec_has_json. rewrite drop_app_ge by lia. rewrite Hlen, Nat.sub_diag. reflexivity. }
  rewrite !E. split; [unfold is_codex_exec_json; by rewrite Hpre, Hj|]. split; [unfold codex_exec_json_argv; by rewrite Hpre, Hj|].
  right. exists (take (S i) argv), (drop (S i) argv). rewrite take_drop, Hlen. unfold is_codex_exec_json. rewrite Ei, Ej.
  repeat split. f_equal. lia.
Qed.

(** ** The loop ends *)

Section ends.
Context `{ConfigEnv} `{WatchEnv} `{Chars} (mode : reading) (lim : limits).

(** The clock never goes back, and what is kept stays within the limit. *)
Definition proceeds (s s' : sink) : Prop :=
  (s_clock s <= s_clock s')%nat /\
  (max_output_bytes lim <= 0 \/ size (concat (k_parts (s_kept s))) = k_retained (s_kept s) /\ k_retained (s_kept s) <= max_output_bytes lim ->
   max_output_bytes lim <= 0 \/ size (concat (k_parts (s_kept s'))) = k_retained (s_kept s') /\ k_retained (s_kept s') <= max_output_bytes lim).
#[local] Instance proceeds_order : PreOrder proceeds.
Proof. split; [intros s; unfold proceeds; auto|]. intros a b c [] []. split; [lia|auto]. Qed.
Definition going (f : sink -> sink * bool) : Prop := forall s, proceeds s (f s).1.

Lemma proceeds_append data s : proceeds s (append_output lim data s).
Proof.
  split; [done|]. unfold append_output, append_combined. cbn [s_kept set_kept]. destruct (Z.leb_spec (max_output_bytes lim) 0) as [Hl|Hl]; [by left|].
  intros [?|[Hs _]]; [by left|]. right.
  pose proof (trim_spec (max_output_bytes lim) (k_parts (s_kept s) ++ [data]) (k_retained (s_kept s) + size data) Hl) as Ht.
  rewrite concat_snoc, size_app, Hs in Ht. specialize (Ht eq_refl).
  destruct (trim _ _ _) as [parts' retained']. destruct Ht as [Hp ->]. cbn [k_parts k_retained]. split; [done|]. rewrite Hp.
  unfold size, last_of. rewrite length_drop. lia.
Qed.
Lemma note_prompt_going now quota tail : going (note_prompt now quota tail).
Proof.
  intros s. unfold note_prompt. destruct (existsb _ _); [by split|]. destruct (search_folded QUESTION_LINE_RE _); [|by split].
  split; [cbn; lia|done].
Qed.
Lemma tick_proceeds s : proceeds s (tick s).2.
Proof. split; [cbn; lia|done]. Qed.
Lemma note_output_going tail structured current : going (note_output tail structured current).
Proof.
  intros s. unfold note_output. transitivity (tick s).2; [apply tick_proceeds|]. destruct (tick s) as [now s']. cbn [snd].
  destruct (provider_quota_diagnostic tail structured); [|apply note_prompt_going].
  destruct (negb _); [by split|apply note_prompt_going].
Qed.
Lemma scan_tail_going data : going (scan_tail data).
Proof. intros s. unfold scan_tail. etrans; [|apply note_output_going]. by split. Qed.
Lemma scan_prompt_going data structured : going (scan_prompt data structured).
Proof. intros s. unfold scan_prompt. case_bool_decide; [done|]. etrans; [|apply note_output_going]. by split. Qed.
Lemma write_stdout_going line : going (write_stdout mode lim line).
Proof.
  intros s. unfold write_stdout. destruct mode.
  - unfold write_claude. destruct (claude_render_line (s_seen s) line) as [[rendered scannable] seen]. case_bool_decide; [by split|].
    etrans; [|apply scan_tail_going]. etrans; [|apply proceeds_append]. by split.
  - unfold write_codex. destruct (codex_render_line line) as [[[[rendered scannable] log] error] credit]. etrans; [|apply scan_prompt_going].
    case_bool_decide; [by split|]. etrans; [|apply proceeds_append]. by split.
  - etrans; [|apply scan_prompt_going]. apply proceeds_append.
Qed.
Lemma cut_proceeds s : proceeds s (cut_output s).
Proof. by split. Qed.
Lemma write_lines_going lines : going (write_lines mode lim lines).
Proof.
  induction lines as [|line rest IH]; intros s; cbn [write_lines]; [done|].
  assert (Hone : proceeds s (if bool_decide (mode = Codex) && too_long lim line then scan_prompt (encode TOOL_ACTIVITY_SCAN_MARKER) false (cut_output s)
                             else write_stdout mode lim line s).1).
  { destruct (_ && _); [|apply write_stdout_going]. etrans; [apply cut_proceeds|apply scan_prompt_going]. }
  destruct (if _ && _ then _ else _) as [s' blocking]. destruct blocking; [done|]. etrans; [exact Hone|apply IH].
Qed.
Lemma set_buffer_proceeds buffer discard s : proceeds s (set_buffer buffer discard s).
Proof. by split. Qed.
Lemma codex_chunk_going chunk : going (codex_chunk mode lim chunk).
Proof.
  intros s. unfold codex_chunk. destruct (if s_discard s then _ else _) as [rest|]; [|done]. destruct (whole_lines (s_buffer s ++ rest)) as [lines left].
  pose proof (write_lines_going lines (set_buffer left false s)) as Hw. destruct (write_lines _ _ _ _) as [s' blocking]. cbn [fst] in *.
  etrans; [apply (set_buffer_proceeds left false)|]. etrans; [exact Hw|]. destruct (too_long _ _); [|done]. by split.
Qed.
Lemma read_chunk_going fd chunk : going (read_chunk mode lim fd chunk).
Proof.
  intros s. unfold read_chunk. transitivity (tick s).2; [apply tick_proceeds|]. destruct (tick s) as [now s']. cbn [snd].
  match goal with |- context [set_guard ?g s'] => transitivity (set_guard g s'); [by split|]; generalize (set_guard g s') end. intros s1.
  destruct fd, mode eqn:Em.
  - unfold claude_chunk. destruct (whole_lines _) as [lines left]. rewrite <- Em. etrans; [|apply write_lines_going]. apply set_buffer_proceeds.
  - rewrite <- Em. apply codex_chunk_going.
  - etrans; [|apply scan_prompt_going]. apply proceeds_append.
  - etrans; [|apply scan_tail_going]. apply proceeds_append.
  - etrans; [|apply scan_prompt_going]. apply proceeds_append.
  - etrans; [|apply scan_prompt_going]. apply proceeds_append.
Qed.
Lemma read_end_going fd : going (read_end mode lim fd).
Proof.
  intros s. unfold read_end. destruct (_ && _); [|done]. pose proof (write_stdout_going (s_buffer s) s) as Hw.
  destruct (write_stdout _ _ _ _) as [s' b]. etrans; [exact Hw|]. apply set_buffer_proceeds.
Qed.
Lemma read_ready_going ready open s blocking : proceeds s (read_ready mode lim ready open s blocking).1.2.
Proof.
  revert open s blocking. induction ready as [|[fd chunk] ready IH]; intros open s blocking; cbn [read_ready]; [done|].
  assert (Hone : proceeds s (if bool_decide (chunk = []) then read_end mode lim fd s else read_chunk mode lim fd chunk s).1)
    by (case_bool_decide; [apply read_end_going|apply read_chunk_going]).
  destruct (if bool_decide (chunk = []) then read_end _ _ _ _ else _) as [s' prompt]. destruct ((blocking || prompt) && _); [exact Hone|].
  etrans; [exact Hone|apply IH].
Qed.

Lemma overdue_going s : proceeds s (overdue lim s).2.
Proof. apply tick_proceeds. Qed.
Lemma read_round round open s (l := read_ready mode lim (ready_pipes round open) open s false) : proceeds s l.1.2.
Proof. apply read_ready_going. Qed.

(** With fuel for every reading of the clock before the time is over there is a
    result, and more fuel gives the same. *)
Lemma watch_rounds_end start N :
  (forall n, (N <= n)%nat -> (inject_Z (pty_timeout lim) < wt_time n - start)%Q) ->
  forall fuel round open s p, (N <= fuel + s_clock s)%nat ->
    exists e, forall extra, watch_rounds mode lim (S fuel + extra) round start open s p = Some e.
Proof.
  intros Htime. induction fuel as [|fuel IH]; intros round open s p Hn.
  - cbn [watch_rounds Nat.add]. destruct (bool_decide (open = [])); [by eexists|]. unfold tick.
    assert (Hl : later start (wt_time (s_clock s)) (pty_timeout lim) = true).
    { unfold later. apply negb_true_iff, not_true_is_false. intros Hle%Qle_bool_iff. pose proof (Htime (s_clock s) ltac:(lia)) as Hlt.
      exact (Qlt_not_le _ _ Hlt Hle). }
    rewrite Hl. by eexists.
  - enough (exists e, forall extra, watch_rounds mode lim (S (S fuel + extra)) round start open s p = Some e) by done.
    assert (exists g : nat -> nat, forall extra, (S fuel + extra)%nat = g extra) as [g Hg] by (by eexists).
    setoid_rewrite Hg in IH. setoid_rewrite Hg. clear Hg. cbn [watch_rounds]. destruct (bool_decide (open = [])); [by eexists|].
    destruct (tick s) as [now s1] eqn:Et. assert (Hk1 : s_clock s1 = S (s_clock s)) by (by injection Et as _ <-).
    destruct (later start now _); [by eexists|].
    pose proof (overdue_going s1) as [Hc _]. destruct (overdue lim s1) as [reason s2]. cbn [snd] in Hc. destruct reason; [by eexists|].
    pose proof (read_round round open s2) as [Hr _].
    destruct (read_ready mode lim (ready_pipes round open) open s2 false) as [[open' s3] blocking]. cbn [fst snd] in Hr.
    destruct blocking; [by eexists|].
    destruct (poll p) as [polled p'].
    destruct (IH (S round) open' s3 p' ltac:(lia)) as [e He].
    destruct polled as [code|]; [destruct (bool_decide (open' = [])); [by eexists|]|]; by exists e.
Qed.

(** C25: Once the clock has passed the time limit for good, the loop that
    watches a provider has ended, whatever the provider writes or does not
    write: there is a result, and it does not depend on the fuel. *)
Theorem watching_ends N :
  (forall n, (N <= n)%nat -> (inject_Z (pty_timeout lim) < wt_time n - wt_time 0)%Q) ->
  exists e, forall fuel, (N <= fuel)%nat -> watch mode lim (S fuel) = Some e.
Proof.
  intros Htime. destruct (watch_rounds_end (wt_time 0) N Htime N 0 [OUT; ERR] first_sink first_process ltac:(cbn; lia)) as [e He].
  exists e. intros fuel Hf. specialize (He (fuel - N)%nat). replace (S N + (fuel - N))%nat with (S fuel) in He by lia. exact He.
Qed.

(** ** What ends a provider *)

Definition timed_out (e : ended) : Prop := exists n, later (wt_time 0) (wt_time n) (pty_timeout lim) = true.
Lemma overdue_reason s reason : (overdue lim s).1 = Some reason -> reason <> EmptyString.
Proof.
  unfold overdue, tick. cbn [fst]. destruct (_ && later (last_progress _) _ _); [by intros [= <-]|].
  destruct (question_seen_at _); [|done]. destruct (_ && _); [|done]. by intros [= <-].
Qed.
Lemma poll_code p code p' : poll p = (code, p') -> p_code p' = code /\ p_signals p' = p_signals p.
Proof. unfold poll. destruct (p_code p) eqn:Ep; intros [= <- <-]; auto. Qed.
(** How the loop can end: the time is over or both pipes are closed and the
    process is not known to have ended; the provider is silent or does not go
    on; it shows a prompt; or it has ended. *)
Definition loop_end (e : ended) : Prop :=
  p_signals (e_process e) = [] /\
  ((e_exit e = 124 /\ e_reason e = EmptyString /\ e_blocking e = false /\ (timed_out e \/ e_open e = [])) \/
   (e_exit e = AUTONOMY_ABORT_STATUS /\ e_reason e <> EmptyString) \/
   (e_reason e = EmptyString /\ e_blocking e = false /\ e_open e = [] /\ p_code (e_process e) = Some (e_exit e))).
Lemma watch_rounds_ended fuel round open s p e :
  p_signals p = [] -> watch_rounds mode lim fuel round (wt_time 0) open s p = Some e -> loop_end e.
Proof.
  revert round open s p. induction fuel as [|fuel IH]; intros round open s p Hp; cbn [watch_rounds]; [done|].
  case_bool_decide as Ho. { intros [= <-]. split; [done|]. left. cbn. auto. }
  unfold tick at 1. cbn beta iota. destruct (later _ _ _) eqn:Hl. { intros [= <-]. split; [done|]. left. cbn. repeat split. left. by eexists. }
  pose proof (overdue_reason (tick s).2) as Hr. unfold tick in Hr at 1. cbn [snd] in Hr.
  destruct (overdue lim _) as [reason s2]. destruct reason as [reason|]. { intros [= <-]. split; [done|]. right; left. cbn. split; [done|]. by apply Hr. }
  destruct (read_ready _ _ _ _ _ _) as [[open' s3] blocking]. destruct blocking. { intros [= <-]. split; [done|]. right; left. done. }
  destruct (poll p) as [polled p'] eqn:Epoll. apply poll_code in Epoll as [Hcode Hsig].
  assert (Hp' : p_signals p' = []) by congruence.
  destruct polled as [code|]; [|by apply IH]. case_bool_decide; [|by apply IH]. intros [= <-]. split; [done|]. right; right. done.
Qed.
Lemma send_signal_code p sig : p_code (send_signal sig p).2 = (poll p).1.
Proof.
  unfold send_signal. destruct (poll p) as [code p'] eqn:Ep. apply poll_code in Ep as [Hc _]. by destruct code.
Qed.
Lemma end_process_known p sigs code : p_code p = Some code -> end_process sigs p = p.
Proof. intros Hc. destruct sigs; [done|]. cbn [end_process]. unfold poll. by rewrite Hc. Qed.

(** Why the provider may be sent a signal; and the status a run ends with: the
    one of an abort, else the provider's own as soon as it is known, and 124
    until then. *)
Definition excused (e : ended) : Prop := e_reason e <> EmptyString \/ timed_out e \/ e_open e = [].
Definition own_status (e : ended) : Z :=
  if truthy_str (e_reason e) then AUTONOMY_ABORT_STATUS else default 124 (p_code (end_run e).2).
Lemma run_ends fuel e : watch mode lim fuel = Some e ->
  (p_signals (end_run e).2 <> [] -> excused e) /\ (end_run e).1 = own_status e.
Proof.
  intros He. enough (Hend : let '(exit_code, p) := end_run e in
    (p_signals p <> [] -> e_reason e <> EmptyString \/ timed_out e \/ e_open e = []) /\
    (e_reason e <> EmptyString -> exit_code = AUTONOMY_ABORT_STATUS) /\
    (e_reason e = EmptyString -> match p_code p with Some code => exit_code = code | None => exit_code = 124 end)).
  { unfold own_status. destruct (end_run e) as [c p]. destruct Hend as (Hs & Ha & Hown). split; [exact Hs|]. cbn [fst snd]. unfold truthy_str.
    case_bool_decide as Hr; cbn [negb]; [|by apply Ha]. specialize (Hown Hr). by destruct (p_code p). }
  revert He.
  intros He. apply (watch_rounds_ended fuel 0 [OUT; ERR] first_sink first_process) in He as [Hs He]; [|done]. unfold end_run.
  destruct He as [(Hx & Hr & Hb & Hw)|[(Hx & Hr)|(Hr & Hb & Ho & Hc)]].
  - rewrite Hb, Hx. cbn. destruct (poll _) as [code p] eqn:Ep. apply poll_code in Ep as [Hc _]. split; [by right|]. split; [done|].
    intros _. rewrite Hc. by destruct code.
  - assert (Hif : (if e_blocking e || char_in [124; AUTONOMY_ABORT_STATUS] (e_exit e) then end_process [SIGTERM; SIGKILL] (e_process e) else e_process e)
                  = end_process [SIGTERM; SIGKILL] (e_process e)) by (rewrite Hx; by rewrite orb_true_r).
    rewrite Hif, Hx. destruct (poll _) as [code p]. split; [by left|]. split; [|done]. intros _. destruct code; [|done]. by rewrite andb_false_r.
  - rewrite (end_process_known _ _ _ Hc).
    assert (Hif : (if e_blocking e || char_in [124; AUTONOMY_ABORT_STATUS] (e_exit e) then e_process e else e_process e) = e_process e)
      by (by destruct (_ || _)).
    rewrite Hif. unfold poll. rewrite Hc. split; [by rewrite Hs|]. split; [done|]. intros _. rewrite Hc.
    rewrite Hb. cbn. destruct (e_exit e =? 124); done.
Qed.

(** However it ends, the output that is kept is within the limit. *)
Lemma watch_rounds_bounded fuel round start open s p e :
  (size (concat (k_parts (s_kept s))) = k_retained (s_kept s) /\ k_retained (s_kept s) <= max_output_bytes lim) -> 0 < max_output_bytes lim ->
  watch_rounds mode lim fuel round start open s p = Some e -> size (concat (k_parts (with_abort lim e))) <= max_output_bytes lim.
Proof.
  intros Hk Hl. assert (Hdone : forall s', proceeds s s' -> forall x r b o p', size (concat (k_parts (with_abort lim (Ended x r b o s' p')))) <= max_output_bytes lim).
  { intros s' [_ Hs] x r b o p'. unfold with_abort. cbn [e_reason e_sink]. destruct (truthy_str r).
    - pose proof (proceeds_append (abort_line r) s') as [_ Ha]. destruct (Ha (Hs (or_intror Hk))) as [?|[Ha1 Ha2]]; [lia|].
      unfold append_output in Ha1, Ha2. cbn [s_kept set_kept] in Ha1, Ha2. lia.
    - destruct (Hs (or_intror Hk)) as [?|[]]; lia. }
  clear Hk. assert (Hself : proceeds s s) by done. revert Hself. generalize s at 2 3. revert round open p.
  induction fuel as [|fuel IH]; intros round open p s0 Hk0; cbn [watch_rounds]; [done|].
  case_bool_decide. { intros [= <-]. by apply Hdone. }
  pose proof (tick_proceeds s0) as Hk1. destruct (tick s0) as [now s1]. cbn [snd] in Hk1.
  assert (Hs1 : proceeds s s1) by (by etrans).
  destruct (later _ _ _). { intros [= <-]. by apply Hdone. }
  pose proof (overdue_going s1) as Hk2. destruct (overdue lim s1) as [reason s2]. cbn [snd] in Hk2. assert (Hs2 : proceeds s s2) by (by etrans).
  destruct reason. { intros [= <-]. by apply Hdone. }
  pose proof (read_round round open s2) as Hk3. destruct (read_ready _ _ _ _ _ _) as [[open' s3] blocking]. cbn [fst snd] in Hk3.
  assert (Hs3 : proceeds s s3) by (by etrans).
  destruct blocking. { intros [= <-]. by apply Hdone. }
  destruct (poll p) as [[code|] p']; [|by apply IH]. case_bool_decide; [|by apply IH]. intros [= <-]. by apply Hdone.
Qed.
End ends.

(** C24: A provider is sent a signal only if its run is aborted for a reason
    that is reported, its time is over, or both its pipes are closed.  What the
    run answers: for Claude's stream 75 if it was aborted, else the provider's
    own status, or 124 while that is not known.  For the other providers it is
    the same, but a 75 that is not for a prompt is answered as 1 when the
    provider reported an exhausted quota before - whether the provider ended
    with 75 itself or was ended for its silence. *)
Theorem provider_ends_by_itself_or_for_a_reason `{ConfigEnv} `{WatchEnv} `{Chars} (lim : limits) (fuel : nat) :
  (forall r, run_fresh_claude_stream_json lim fuel = Some r ->
     exists e, watch Claude lim fuel = Some e /\ (r_signals r <> [] -> excused lim e) /\ r_exit r = own_status e) /\
  (forall sha256_hex argv r, run_fresh_exact_stdout lim sha256_hex argv fuel = Some r ->
     exists e, watch (if is_codex_exec_json argv then Codex else Plain) lim fuel = Some e /\ (r_signals r <> [] -> excused lim e) /\
       r_exit r = if decide (own_status e = 75 /\ e_blocking e = false /\ provider_quota_diagnostic_seen (s_guard (e_sink e)) = true) then 1 else own_status e).
Proof.
  split.
  - intros r. unfold run_fresh_claude_stream_json. destruct (watch Claude lim fuel) as [e|] eqn:He; [|done]. apply run_ends in He as [Hs Hc].
    destruct (end_run e) as [c p]. intros [= <-]. exists e. by split_and!.
  - intros sha argv r. unfold run_fresh_exact_stdout. set (mode := if is_codex_exec_json argv then Codex else Plain).
    destruct (watch mode lim fuel) as [e|] eqn:He; [|done]. apply run_ends in He as [Hs Hc].
    destruct (end_run e) as [c p]. cbn [fst snd] in Hs, Hc. subst c. destruct (poll p) as [native p'] eqn:Ep. apply poll_code in Ep as [_ Hp].
    intros [= <-]. exists e. split; [done|]. cbn [r_signals r_exit]. rewrite Hp. split; [exact Hs|].
    destruct (e_blocking e) eqn:Eb; cbn [negb andb]; [by rewrite decide_False by naive_solver|].
    destruct (Z.eqb_spec (own_status e) AUTONOMY_ABORT_STATUS) as [E|E]; cbn [andb]; [|rewrite decide_False; [done|]; by intros [? _]].
    destruct (provider_quota_diagnostic_seen _); [by rewrite decide_True|rewrite decide_False; [done|]; by intros (_ & _ & ?)].
Qed.

(** ** Tools *)

Section tools.
Context `{ConfigEnv} `{WatchEnv}.

(** Two events of one type that differ at most in the content of tool blocks. *)
Definition same_block (a b : json) : Prop := a = b \/ is_type TOOL_BLOCKS a = true /\ is_type TOOL_BLOCKS b = true.
Definition same_but_tools (a b : dict) : Prop :=
  text_at "type" a = text_at "type" b /\ Forall2 same_block (default [JNull] (message_blocks a)) (default [JNull] (message_blocks b)) /\
  delta_text a = delta_text b /\ dget "result" a = dget "result" b.
Lemma same_blocks_scan a b :
  Forall2 same_block a b ->
  concat_strings ((fun block => if is_type TOOL_BLOCKS block then EmptyString else scan_text block) <$> a) =
  concat_strings ((fun block => if is_type TOOL_BLOCKS block then EmptyString else scan_text block) <$> b) /\
  existsb (is_type TOOL_BLOCKS) a = existsb (is_type TOOL_BLOCKS) b.
Proof.
  induction 1 as [|x y a b Hxy _ [IHs IHt]]; [done|]. cbn [fmap list_fmap concat_strings existsb]. rewrite IHs, IHt.
  by destruct Hxy as [->|[-> ->]].
Qed.
Definition READ_BY_PROMPT_SCAN : list string := ["agent_message"; "error"]%string.

(** What a tool is given and what it returns never reaches the text that is
    searched for prompts: events of Claude that differ only inside tool blocks
    are scanned alike, an event of the user is only marked as activity, and so
    is every item of Codex that is neither a message nor an error. *)
Theorem tools_are_not_scanned :
  (forall a b, same_but_tools a b -> scan_event a = scan_event b) /\
  (forall a, text_at "type" a = "user"%string -> scan_event a = TOOL_ACTIVITY_SCAN_MARKER) /\
  (forall event_type item, text_or "type" EmptyString item ∉ READ_BY_PROMPT_SCAN ->
     cl_scannable (codex_item event_type item) = TOOL_ACTIVITY_SCAN_MARKER /\ cl_error (codex_item event_type item) = false).
Proof.
  split; [|split].
  - intros a b (Ht & Hb & Hd & Hr). unfold scan_event. rewrite Ht, Hd, Hr. apply same_blocks_scan in Hb as [-> ->]. done.
  - intros a Ht. unfold scan_event. by rewrite Ht.
  - intros event_type item Hn. unfold READ_BY_PROMPT_SCAN in Hn. set_unfold in Hn. unfold codex_item.
    rewrite (bool_decide_eq_false_2 (_ = "agent_message"%string)), (bool_decide_eq_false_2 (_ = "error"%string)) by tauto.
    repeat case_bool_decide; cbn; auto.
Qed.
End tools.

(** ** Runs *)

Definition no_config : ConfigEnv := {|
  str_of _ := EmptyString; repr_of _ := EmptyString; float_of_text _ := None; float_of_int _ := None;
|}.
(** A provider that writes [output] at once, whose one event is [event], and
    that exits with 0 when asked for the [polls]th time. *)
Definition writes (event : bytes * json) (output : bytes) (polls : nat) : WatchEnv := {|
  wt_time n := inject_Z (Z.of_nat n);
  wt_ready round fd := match round, fd with 0%nat, OUT => Some output | _, _ => Some [] end;
  wt_send _ := true;
  wt_poll n := if (polls <=? n)%nat then Some 0 else None;
  wt_decode data := data;
  wt_loads data := if bool_decide (data = event.1) then Some event.2 else None;
  wt_dumps _ := EmptyString;
|}.
Definition tool_line : bytes := b_ "{type:user,content:[{type:tool_result,content:press enter to go}]}".
Definition tool_event : json :=
  JObj [("type", JStr "user"); ("message", JObj [("content", JList [JObj [("type", JStr "tool_result"); ("content", JStr "press enter to go")]])])]%string.
Definition usual (max : Z) : limits := Limits max 3600 600 30.
Definition codex_argv : list string := ["codex"; "exec"; "--json"; "-"]%string.

(** A line of Claude that is longer than the output that is kept is cut and then
    scanned as text: the result of a tool ends the run. *)
Example long_tool_result_aborts :
  let W := writes (tool_line, tool_event) (tool_line ++ [10]) 1 in
  (r_exit <$> @run_fresh_claude_stream_json no_config W latin (usual 60) 9) = Some 75 /\
  (r_exit <$> @run_fresh_claude_stream_json no_config W latin (usual 0) 9) = Some 0.
Proof. vm_compute. split; reflexivity. Qed.

(** A provider that closes both pipes before it ends is sent SIGTERM. *)
Example closed_pipes_are_a_reason :
  let W := writes ([], JNull) (b_ "done") 4 in
  (fun r => (r_exit r, r_signals r)) <$> @run_fresh_exact_stdout no_config W latin (usual 0) (fun _ => EmptyString) [] 9 = Some (0, [SIGTERM]).
Proof. vm_compute. reflexivity. Qed.

(** What Codex prints that is no event is not in the output that is kept. *)
Example plain_line_of_codex_is_lost :
  let W := writes ([], JNull) (b_ "fatal: no account" ++ [10]) 1 in
  (fun r => (r_exit r, r_output r)) <$> @run_fresh_exact_stdout no_config W latin (usual 0) (fun _ => EmptyString) codex_argv 9 = Some (0, []).
Proof. vm_compute. reflexivity. Qed.

Lemma watching_ends_witness :
  exists e, forall fuel, (3601 <= fuel)%nat ->
    @watch no_config (writes ([], JNull) [] 1) latin Plain (usual 0) (S fuel) = Some e.
Proof.
  apply (@watching_ends no_config (writes ([], JNull) [] 1) latin Plain (usual 0)). intros n Hn. cbn [pty_timeout usual wt_time writes].
  unfold Qlt, Qminus, Qplus, Qopp, inject_Z. cbn. lia.
Defined.
(** A provider that reports its quota on standard error and exits with 75. *)
Definition out_of_quota : WatchEnv := {|
  wt_time n := inject_Z (Z.of_nat n);
  wt_ready round fd := match round, fd with 0%nat, ERR => Some (b_ "error: quota exceeded") | _, _ => Some [] end;
  wt_send _ := true;
  wt_poll n := Some 75;
  wt_decode data := data;
  wt_loads data := None;
  wt_dumps _ := EmptyString;
|}.
Lemma provider_ends_by_itself_or_for_a_reason_witness :
  exists r e, @run_fresh_exact_stdout no_config out_of_quota latin (usual 0) (fun _ => EmptyString) [] 9 = Some r /\
    r_exit r = 1 /\ own_status (H0 := out_of_quota) e = 75.
Proof.
  destruct (@run_fresh_exact_stdout no_config out_of_quota latin (usual 0) (fun _ => EmptyString) [] 9) as [r|] eqn:Er; [|vm_compute in Er; discriminate].
  destruct (proj2 (@provider_ends_by_itself_or_for_a_reason no_config out_of_quota latin (usual 0) 9) (fun _ => EmptyString) [] r Er) as (e & He & _ & Hx).
  assert (Ho : own_status (H0 := out_of_quota) e = 75) by (vm_compute in He; injection He as <-; reflexivity).
  exists r, e. split; [reflexivity|]. split; [|exact Ho]. rewrite Hx, Ho. vm_compute in He. injection He as <-. reflexivity.
Defined.
