(* ===== verification/Rotation.v ===== *)
(** * The rotation of a mission against the enabled providers ([bridge_rotation.py], [bridge.py])

    Which providers may be launched comes from the environment or from a
    configuration.  A rotation is a list of routes or of providers; its entries
    whose launch command is not enabled are refused or dropped, when a mission
    is created and whenever it is started or gets another rotation. *)

From Stdlib Require Import Ascii.
From S2P Require Import Prelude Py StoreData StoreTasks Config Routes.
From stdpp Require Import options.

(** The names of a list, each once and in its first place. *)
Fixpoint firsts (seen : list string) (names : list string) : list string :=
  match names with
  | [] => []
  | name :: names => if bool_decide (name ∈ seen) then firsts seen names else name :: firsts (name :: seen) names
  end.
(** [",".split], stripped, without what is blank. *)
Definition stripped_names (raw : string) : list string := select truthy_str (strip <$> split_char ","%char raw).
Definition _split (raw : string) : list string := firsts [] (stripped_names raw).

(** ** What is enabled *)

(** No names: every provider is. *)
Record EnabledProviders : Type := Enabled { en_names : option (gset string); en_source : string }.
Definition _names (raw : string) : gset string := list_to_set (lower <$> stripped_names raw).
Definition env_given (variable : option string) : bool := truthy_str (strip (default EmptyString variable)).

Section rotation.
Context `{ConfigEnv}.

(** [loaded] is the configuration file as the tools read it. *)
Definition current_enabled (variable : option string) (loaded : dict) : result string EnabledProviders :=
  names ← enabled_providers variable loaded;
  Ok match names with
     | None => Enabled None "config"
     | Some names => Enabled (Some names) (if env_given variable then "env" else "config")
     end.
Definition frozen_enabled (variable : option string) (frozen_config : dict) : EnabledProviders :=
  if env_given variable then Enabled (Some (_names (default EmptyString variable))) "env"
  else match dget "usage" frozen_config with
       | Some (JObj usage) =>
           match dget "providers" usage with
           | Some (JList ((_ :: _) as listed)) => Enabled (Some (list_to_set ((fun item => lower (strip (py_str item))) <$> listed))) "frozen"
           | _ => Enabled None "frozen"
           end
       | _ => Enabled None "frozen"
       end.
(** [tomllib_loads] is the TOML reader. *)
Definition parse_frozen (tomllib_loads : string -> option json) (text : json) : dict :=
  match text with
  | JStr s => if truthy_str s then match tomllib_loads s with Some (JObj parsed) => parsed | _ => [] end else []
  | _ => []
  end.

(** ** The entries of a rotation *)

Definition caught (e : exn) : bool := match e with ValueError _ | TypeError _ | AttributeError _ | KeyError _ => true | _ => false end.
Fixpoint route_entries (conf : dict) (names : list string) : result exn (list (string * string)) :=
  match names with
  | [] => Ok []
  | name :: names =>
      policy ← match route_or_implicit_provider conf name with Raise e => if caught e then Ok None else Raise e | Ok policy => Ok policy end;
      rest ← route_entries conf names;
      Ok match policy with Some route => (name, r_provider route) :: rest | None => rest end
  end.
(** A name of the rotation, and the command that it launches. *)
Definition entries (conf : dict) (providers routes : string) : result exn (list (string * string)) :=
  match _split routes with
  | [] => Ok ((fun name => (name, name)) <$> _split providers)
  | names => route_entries conf names
  end.
Definition disabled_entries (enabled : EnabledProviders) (conf : dict) (providers routes : string) : result exn (list (string * string)) :=
  match en_names enabled with
  | None => Ok []
  | Some names => found ← entries conf providers routes; Ok (select (fun entry => negb (bool_decide (entry.2 ∈ names))) found)
  end.
Definition ENV_NAME : string := "LLM_USAGE_PROVIDERS".
Definition dot : string := String " " (String (ascii_of_nat 183) " ").
Definition entry_label (entry : string * string) : string :=
  (if bool_decide (entry.1 = entry.2) then entry.1 else entry.1 +:+ " (launch CLI " +:+ entry.2 +:+ ")")%string.
Definition describe (disabled : list (string * string)) (enabled : EnabledProviders) (config_label : string) : string :=
  (let where_ := if bool_decide (en_source enabled = "env") then ENV_NAME +:+ dot +:+ "add it there"
                 else if bool_decide (en_source enabled = "frozen") then
                   "[usage].providers in this mission's saved config" +:+ dot +:+ "choose another rotation or set " +:+ ENV_NAME
                 else "[usage].providers in " +:+ config_label +:+ dot +:+ "add it there or set " +:+ ENV_NAME in
   join ", " (entry_label <$> disabled) +:+ " " +:+ (if (length disabled =? 1)%nat then "is" else "are") +:+ " disabled by " +:+ where_)%string.
Definition check_rotation (enabled : EnabledProviders) (conf : dict) (providers routes config_label : string) (explicit : bool) :
    result exn (option string) :=
  disabled ← disabled_entries enabled conf providers routes;
  if bool_decide (disabled = []) then Ok None
  else
    found ← entries conf providers routes;
    Ok (if explicit || (length found <=? length disabled)%nat then Some (describe disabled enabled config_label) else None).
Definition usable_entries (enabled : EnabledProviders) (conf : dict) (providers routes : string) : result exn (string * string) :=
  match en_names enabled with
  | None => Ok (providers, routes)
  | Some names =>
      if bool_decide (_split routes = []) then Ok (join "," (select (fun name => bool_decide (name ∈ names)) (_split providers)), EmptyString)
      else
        found ← entries conf providers routes;
        Ok (providers, join "," (select (fun entry => bool_decide (entry.2 ∈ names)) found).*1)
  end.

(** ** A new mission, and a start *)

(** [name_list]. *)
Definition name_list (value : option json) : list string :=
  match value with
  | Some (JStr s) => _split s
  | Some (JList items) => firsts [] (select truthy_str ((fun item => strip (py_str item)) <$> items))
  | _ => []
  end.
Definition BUILTIN_PROVIDERS : string := "claude,codex,opencode".
Definition or_else (a b : string) : string := if truthy_str a then a else b.
(** [parsed] is the configuration file, if it can be read. *)
Definition default_rotation (parsed : option dict) : string * string :=
  match parsed with
  | None => (BUILTIN_PROVIDERS, EmptyString)
  | Some parsed =>
      match merged_tool_config parsed "ralph" with
      | Raise _ => (BUILTIN_PROVIDERS, EmptyString)
      | Ok merged => (or_else (join "," (name_list (dget "providers" merged))) BUILTIN_PROVIDERS, join "," (name_list (dget "routes" merged)))
      end
  end.
Definition resolve_rotation (parsed : option dict) (providers routes : option string) : string * string :=
  let '(default_providers, default_routes) := default_rotation parsed in
  match routes, providers with
  | Some routes, _ => (default default_providers providers, routes)
  | None, Some providers => (providers, EmptyString)
  | None, None => (default_providers, default_routes)
  end.
(** [load] is what [load_config] gives. *)
Definition creation_rotation (enabled : EnabledProviders) (parsed : option dict) (load : dict) (config_label : string) (providers routes : option string) :
    result exn (string * string) :=
  let explicit := match providers, routes with None, None => false | _, _ => true end in
  let '(resolved_providers, resolved_routes) := resolve_rotation parsed providers routes in
  let conf := if truthy_str resolved_routes && match en_names enabled with Some _ => true | None => false end then load else [] in
  problem ← check_rotation enabled conf resolved_providers resolved_routes config_label explicit;
  if truthy_str (default EmptyString problem) then Raise (ValueError (default EmptyString problem))
  else if explicit then Ok (resolved_providers, resolved_routes)
  else usable_entries enabled conf resolved_providers resolved_routes.
Definition require_launchable_rotation (tomllib_loads : string -> option json) (variable : option string) (config : dict)
    (providers routes config_label : string) (explicit : bool) : result exn unit :=
  let conf := parse_frozen tomllib_loads (default JNull (dget "frozen_tool_config" config)) in
  problem ← check_rotation (frozen_enabled variable conf) conf providers routes config_label explicit;
  if truthy_str (default EmptyString problem) then Raise (ValueError (default EmptyString problem)) else Ok tt.
Definition rotation_problem (tomllib_loads : string -> option json) (variable : option string) (config : dict) (providers routes : string) :
    result exn (option string) :=
  let conf := parse_frozen tomllib_loads (default JNull (dget "frozen_tool_config" config)) in
  check_rotation (frozen_enabled variable conf) conf providers routes EmptyString false.
End rotation.
