(* ===== verification/RotationLaws.v ===== *)
(** * Laws of the rotation of a mission *)

From Stdlib Require Import Ascii.
From S2P Require Import Prelude Py StoreData StoreTasks Config Routes ConfigLaws Rotation.
From stdpp Require Import options.

(** ** Names survive joining and splitting *)

Abbreviation chars := String.list_ascii_of_string.
Lemma chars_inj s s' : chars s = chars s' -> s = s'.
Proof. intros E. by rewrite <- (String.string_of_list_ascii_of_string s), E, String.string_of_list_ascii_of_string. Qed.
Lemma chars_srev s : chars (srev s) = rev (chars s).
Proof.
  unfold srev. assert (Hgen : forall acc, chars (srev_app s acc) = rev (chars s) ++ chars acc).
  { induction s as [|c s IH]; intros acc; cbn; [done|]. rewrite IH. cbn. by rewrite <- app_assoc. }
  rewrite Hgen. apply app_nil_r.
Qed.
Section stripping.
Context (p : ascii -> bool).
Fixpoint skip (l : list ascii) : list ascii := match l with c :: l' => if p c then skip l' else l | [] => [] end.
Lemma chars_lstrip s : chars (lstrip_by p s) = skip (chars s).
Proof. induction s as [|c s IH]; [done|]. cbn. by destruct (p c). Qed.
Lemma skip_idemp l : skip (skip l) = skip l.
Proof. induction l as [|c l IH]; [done|]. cbn. destruct (p c) eqn:Ec; [done|]. cbn. by rewrite Ec. Qed.
Lemma skip_snoc l c : p c = false -> exists l', skip (l ++ [c]) = l' ++ [c].
Proof.
  intros Hc. induction l as [|d l (l' & IH)]; cbn; [rewrite Hc; by exists []|]. destruct (p d); [by exists l'|]. by exists (d :: l).
Qed.
Lemma skip_head l : skip l = [] \/ exists c l', skip l = c :: l' /\ p c = false.
Proof. induction l as [|c l IH]; [by left|]. cbn. destruct (p c) eqn:Ec; [done|]. right. eauto. Qed.
Lemma strip_twice s : rstrip_by p (lstrip_by p (rstrip_by p (lstrip_by p s))) = rstrip_by p (lstrip_by p s).
Proof.
  apply chars_inj. unfold rstrip_by. rewrite ?chars_srev, ?chars_lstrip, ?chars_srev, ?chars_lstrip, ?chars_srev, ?chars_lstrip, ?chars_srev, ?chars_lstrip.
  destruct (skip_head (chars s)) as [->|(c & l & -> & Hc)]; [done|].
  cbn [rev]. destruct (skip_snoc (rev l) c Hc) as [l' Hl']. rewrite Hl', rev_app_distr. cbn [rev app skip]. rewrite Hc. cbn [rev].
  rewrite rev_involutive, <- Hl', skip_idemp. rewrite Hl'. rewrite rev_app_distr. done.
Qed.
End stripping.
Lemma strip_strip s : strip (strip s) = strip s.
Proof. apply strip_twice. Qed.

Definition comma : ascii := ","%char.
Definition no_comma (s : string) : Prop := comma ∉ chars s.
Lemma split_no_comma s : Forall no_comma (split_char comma s).
Proof.
  induction s as [|c s IH]; cbn [split_char]; [by repeat constructor; unfold no_comma; set_solver|]. case_bool_decide as Hc.
  - constructor; [unfold no_comma; set_solver|done].
  - destruct (split_char comma s) as [|w ws]; inversion IH; subst; repeat constructor; unfold no_comma in *; cbn; set_solver.
Qed.
Lemma split_single s : no_comma s -> split_char comma s = [s].
Proof.
  unfold no_comma. induction s as [|c s IH]; [done|]. cbn [chars split_char]. intros Hn. rewrite bool_decide_eq_false_2 by set_solver.
  by rewrite IH by set_solver.
Qed.
Lemma split_first s rest : no_comma s -> split_char comma (s +:+ String comma rest)%string = s :: split_char comma rest.
Proof.
  unfold no_comma. induction s as [|c s IH]; [done|]. cbn [chars]. intros Hn. change ((String c s +:+ String comma rest)%string) with (String c (s +:+ String comma rest)%string).
  cbn [split_char]. rewrite bool_decide_eq_false_2 by set_solver. by rewrite IH by set_solver.
Qed.
Lemma split_join names : names <> [] -> Forall no_comma names -> split_char comma (join "," names) = names.
Proof.
  intros Hne Hn. induction Hn as [|w ws Hw Hws IH]; [done|]. destruct ws as [|w' ws]; [by apply split_single|].
  change (join "," (w :: w' :: ws)) with (w +:+ String comma (join "," (w' :: ws)))%string. rewrite split_first by done. by rewrite IH.
Qed.
Lemma strip_chars s c : c ∈ chars (strip s) -> c ∈ chars s.
Proof.
  assert (Hskip : forall l, c ∈ skip is_space l -> c ∈ l).
  { induction l as [|d l IH]; [done|]. cbn. destruct (is_space d); [set_solver|done]. }
  unfold strip, rstrip_by. rewrite chars_srev, chars_lstrip, chars_srev, chars_lstrip. rewrite !list_elem_of_In, <- in_rev, <- !list_elem_of_In.
  intros Hc%Hskip. rewrite list_elem_of_In, <- in_rev, <- list_elem_of_In in Hc. by apply Hskip.
Qed.
(** What splitting gives: no name is blank, padded, repeated, or with a comma. *)
Definition clean (name : string) : Prop := truthy_str name = true /\ strip name = name /\ no_comma name.
Lemma firsts_spec seen names :
  NoDup (firsts seen names) /\ (forall x, x ∈ firsts seen names -> x ∈ names /\ x ∉ seen).
Proof.
  revert seen. induction names as [|n names IH]; intros seen; cbn [firsts]; [split; [constructor|set_solver]|].
  case_bool_decide as Hn; [destruct (IH seen) as [Hd Hx]; split; [done|set_solver]|].
  destruct (IH (n :: seen)) as [Hd Hx]. split; [constructor; [|done]; intros Hin%Hx; set_solver|]. intros x [->|Hin]%elem_of_cons; [set_solver|].
  apply Hx in Hin. set_solver.
Qed.
Lemma firsts_fix seen names : NoDup names -> (forall x, x ∈ names -> x ∉ seen) -> firsts seen names = names.
Proof.
  intros Hd. revert seen. induction Hd as [|n names Hn Hd IH]; intros seen Hs; [done|]. cbn [firsts]. rewrite bool_decide_eq_false_2 by set_solver.
  f_equal. apply IH. set_solver.
Qed.
Lemma split_clean raw : NoDup (_split raw) /\ Forall clean (_split raw).
Proof.
  unfold _split. destruct (firsts_spec [] (stripped_names raw)) as [Hd Hx]. split; [done|]. apply Forall_forall. intros x [Hin _]%Hx.
  unfold stripped_names in Hin. apply elem_of_select in Hin as [Hin Ht]. apply list_elem_of_fmap in Hin as (w & -> & Hw).
  split; [done|]. split; [apply strip_strip|]. pose proof (split_no_comma raw) as Hall. rewrite Forall_forall in Hall. specialize (Hall w Hw).
  unfold no_comma in *. intros Hc%strip_chars. done.
Qed.
Lemma split_of_join names : NoDup names -> Forall clean names -> _split (join "," names) = names.
Proof.
  intros Hd Hc. destruct names as [|n names]; [done|]. unfold _split, stripped_names.
  rewrite split_join; [|done|by eapply Forall_impl; [exact Hc|intros ? (_ & _ & ?)]].
  assert (Hs : strip <$> (n :: names) = n :: names).
  { clear Hd. induction Hc as [|x l (_ & Hx & _) _ IH]; [done|]. rewrite fmap_cons, IH, Hx. done. }
  rewrite Hs. assert (Ht : select truthy_str (n :: names) = n :: names).
  { clear Hd Hs. induction Hc as [|x l (Hx & _) _ IH]; [done|]. unfold select in *. cbn [List.filter]. by rewrite Hx, IH. }
  rewrite Ht. apply firsts_fix; [done|set_solver].
Qed.

(** ** The entries *)

Section entries.
Context `{ConfigEnv}.

Definition allowed (names : gset string) (entry : string * string) : bool := bool_decide (entry.2 ∈ names).
(** Reading a part of the entries again gives that part. *)
Lemma route_entries_again conf names found p :
  route_entries conf names = Ok found ->
  (forall x, x ∈ found.*1 -> x ∈ names) /\ (NoDup names -> NoDup found.*1) /\ route_entries conf (select p found).*1 = Ok (select p found).
Proof.
  revert found. induction names as [|name names IH]; intros found; cbn [route_entries].
  { intros [= <-]. split; [done|]. by split; [constructor|]. }
  destruct (match route_or_implicit_provider conf name with Raise e => if caught e then Ok None else Raise e | Ok policy => Ok policy end) as [policy|e] eqn:Ep; [|done].
  cbn [mbind result_bind]. destruct (route_entries conf names) as [rest|]; [|done]. destruct (IH rest eq_refl) as (Hin & Hd & Hr). cbn [mbind result_bind].
  intros [= <-]. destruct policy as [route|].
  - split; [set_solver|]. split; [intros Hn; inversion Hn; subst; constructor; [intros Hx%Hin; done|by apply Hd]|].
    unfold select in *. cbn [List.filter]. destruct (p (name, r_provider route)); [|done]. cbn [fmap list_fmap fst route_entries]. rewrite Ep. cbn [mbind result_bind].
    rewrite Hr. done.
  - split; [set_solver|]. split; [intros Hn; inversion Hn; subst; by apply Hd|done].
Qed.
Lemma select_fst p (l : list (string * string)) x : x ∈ (select p l).*1 -> x ∈ l.*1.
Proof. intros (y & -> & Hy)%list_elem_of_fmap. apply elem_of_select in Hy as [Hy _]. apply list_elem_of_fmap. eauto. Qed.
Lemma entries_by_provider conf names : entries conf (join "," names) EmptyString = Ok ((fun name => (name, name)) <$> _split (join "," names)).
Proof. done. Qed.
Lemma select_pairs (p : string -> bool) names :
  (fun name => (name, name)) <$> select p names = select (fun entry => p entry.2) ((fun name => (name, name)) <$> names).
Proof.
  unfold select. induction names as [|n names IH]; [done|]. cbn [List.filter]. rewrite fmap_cons. cbn [List.filter snd]. destruct (p n); [|done].
  by rewrite fmap_cons, IH.
Qed.
Lemma select_clean p names : NoDup names -> Forall clean names -> NoDup (select p names) /\ Forall clean (select p names).
Proof.
  intros Hd Hc. split; [by apply NoDup_ListNoDup, List.NoDup_filter, NoDup_ListNoDup|].
  apply Forall_forall. intros x [Hx _]%elem_of_select. rewrite Forall_forall in Hc. by apply Hc.
Qed.
(** The usable part, read again, is exactly the entries that are enabled. *)
Lemma usable_entries_exact enabled names conf providers routes found providers' routes' :
  en_names enabled = Some names -> entries conf providers routes = Ok found -> select (allowed names) found <> [] ->
  usable_entries enabled conf providers routes = Ok (providers', routes') ->
  entries conf providers' routes' = Ok (select (allowed names) found).
Proof.
  intros He Hf Hne. unfold usable_entries. rewrite He. case_bool_decide as Hr.
  - intros [= <- <-]. unfold entries in Hf. rewrite Hr in Hf. injection Hf as <-. rewrite entries_by_provider.
    destruct (split_clean providers) as [Hd Hc]. destruct (select_clean (fun name => bool_decide (name ∈ names)) _ Hd Hc) as [Hd' Hc'].
    rewrite split_of_join by done. by rewrite select_pairs.
  - rewrite Hf. cbn [mbind result_bind]. intros [= <- <-].
    assert (Hroutes : route_entries conf (_split routes) = Ok found) by (unfold entries in Hf; by destruct (_split routes)).
    destruct (route_entries_again conf (_split routes) found (allowed names) Hroutes) as (Hin & Hd & Hagain).
    destruct (split_clean routes) as [Hsd Hsc]. change (fun entry : string * string => bool_decide (entry.2 ∈ names)) with (allowed names).
    assert (Hback : _split (join "," (select (allowed names) found).*1) = (select (allowed names) found).*1).
    { apply split_of_join; [by apply NoDup_fmap_select, Hd|]. apply Forall_forall. intros x Hx%select_fst%Hin. rewrite Forall_forall in Hsc. by apply Hsc. }
    unfold entries. rewrite Hback. destruct (select (allowed names) found) as [|e l]; [done|]. exact Hagain.
Qed.
Lemma select_all_length {A} (p : A -> bool) (l : list A) : select p l = [] -> length (select (fun x => negb (p x)) l) = length l.
Proof.
  unfold select. induction l as [|x l IH]; [done|]. cbn [List.filter]. destruct (p x); [done|]. intros Hl. cbn [negb length]. by rewrite IH.
Qed.
Lemma describe_truthy disabled enabled label : truthy_str (describe disabled enabled label) = true.
Proof.
  unfold describe, truthy_str. apply negb_true_iff, bool_decide_eq_false. destruct (join ", " _); [|done]. by destruct (length disabled =? 1)%nat.
Qed.

Lemma usable_nothing enabled names conf providers routes :
  en_names enabled = Some names -> entries conf providers routes = Ok [] ->
  usable_entries enabled conf providers routes = Ok (if bool_decide (_split routes = []) then EmptyString else providers, EmptyString).
Proof.
  intros He Hf. unfold usable_entries. rewrite He. case_bool_decide as Hr.
  - unfold entries in Hf. rewrite Hr in Hf. injection Hf as Hf. by destruct (_split providers).
  - by rewrite Hf.
Qed.

End entries.

Definition only_codex : EnabledProviders := Enabled (Some {["codex"%string]}) "config".
(** A default rotation whose only route is unknown is given up for the
    providers, which nobody checks. *)
Example unknown_routes_pass :
  creation_rotation (H := plain_config) only_codex
    (Some [("ralph", JObj [("providers", JList [JStr "claude"]); ("routes", JList [JStr "nowhere"])])]%string) [] "config" None None
  = Ok ("claude", EmptyString)%string /\
  creation_rotation (H := plain_config) only_codex (Some [("ralph", JObj [("providers", JList [JStr "claude"])])]%string) [] "config" None None
  = Raise (ValueError (describe [("claude", "claude")]%string only_codex "config")).
Proof. vm_compute. split; reflexivity. Qed.
