(* ===== verification/Progress.v ===== *)
(** * Evidence of activity ([bridge_progress.py])

    What a repository looks like before and after an operation, as one
    fingerprint or none, and what a row of such observations says of a mission
    that does not get on. *)

From Stdlib Require Import Ascii.
From S2P Require Import Prelude Py Bytes StoreData.
From stdpp Require Import options.
Local Open Scope Z_scope.

(** ** The repository *)

Inductive file_kind : Type := LINK | REGULAR | OTHER.
(** [os.lstat]: the kind, the executable bits, and what tells two states of a
    file apart. *)
Record file_stat : Type := Stat { f_kind : file_kind; f_executable : Z; f_identity : Z * Z * Z }.
#[export] Instance file_kind_eq : EqDecision file_kind.
Proof. solve_decision. Defined.
Inductive looked : Type := Found (s : file_stat) | Missing | Unreadable.

(** The folder as Git and the file system show it: whether it resolves and is a
    worktree, the files Git lists, the commit; of a file, whether its parent is
    inside the folder if it resolves, its state before and after it is read,
    and the text of a link or the content of a file.  [sha256] is the digest. *)
Class TreeEnv : Type := {
  tr_resolves : bool;
  tr_worktree : bool;
  tr_listed : option bytes;
  tr_head : option bytes;
  tr_parent_inside : bytes -> option bool;
  tr_before : bytes -> looked;
  tr_after : bytes -> looked;
  tr_link : bytes -> option bytes;
  tr_content : bytes -> option bytes;
  tr_sha256 : bytes -> string;
}.
Record checkpoint : Type := Checkpoint { cp_fingerprint : option string; cp_files : Z; cp_bytes : Z; cp_reason : option string }.

Fixpoint split_bytes (sep : Z) (data : bytes) : list bytes :=
  match data with
  | [] => [[]]
  | c :: data =>
      if c =? sep then [] :: split_bytes sep data
      else match split_bytes sep data with part :: parts => (c :: part) :: parts | [] => [[c]] end
  end.
Fixpoint bytes_le (a b : bytes) : bool :=
  match a, b with
  | [], _ => true
  | _ :: _, [] => false
  | x :: a, y :: b => if x <? y then true else if y <? x then false else bytes_le a b
  end.
(** [sorted(set(...))], one element after the other. *)
Fixpoint insert_path (p : bytes) (paths : list bytes) : list bytes :=
  match paths with
  | [] => [p]
  | q :: paths => if bool_decide (p = q) then q :: paths else if bytes_le p q then p :: q :: paths else q :: insert_path p paths
  end.
Definition sorted_paths (paths : list bytes) : list bytes := foldr insert_path [] paths.
(** An absolute path, or one that climbs. *)
Definition leaves_root (path : bytes) : bool :=
  match path with 47 :: _ => true | _ => false end || bool_decide ([46; 46] ∈ split_bytes 47 path).

Section repository.
Context `{TreeEnv} (max_files max_bytes : Z).

Definition unknown : checkpoint := Checkpoint None 0 0 (Some "incomplete repository observation"%string).
(** One file: what is hashed, how many bytes were read and whether it counts,
    unless the observation is incomplete. *)
Definition observe_file (path : bytes) (size : Z) : option (bytes * Z * Z) :=
  if leaves_root path then None
  else
    match tr_parent_inside path with
    | Some true =>
        match tr_before path with
        | Unreadable => None
        | Missing => Some (b_ "deleted" ++ [0] ++ path ++ [0], size, 0)
        | Found before =>
            let head := path ++ [0] ++ b_ (show_Z (f_executable before)) ++ [0] in
            let data := match f_kind before with
                        | LINK => link ← tr_link path; Some (b_ "link" ++ [0] ++ link, size + Z.of_nat (length link))
                        | REGULAR => content ← tr_content path; Some (content, size + Z.of_nat (length content))
                        | OTHER => None
                        end in
            match data, tr_after path with
            | Some (data, size'), Found after =>
                if max_bytes <? size' then None
                else if bool_decide (f_identity before = f_identity after) then Some (head ++ data ++ [0], size', 1) else None
            | _, _ => None
            end
        end
    | _ => None
    end.
Fixpoint observe_files (paths : list bytes) (hashed : bytes) (size count : Z) : option (bytes * Z * Z) :=
  match paths with
  | [] => Some (hashed, size, count)
  | path :: paths =>
      match observe_file path size with
      | Some (data, size', one) => observe_files paths (hashed ++ data) size' (count + one)
      | None => None
      end
  end.
Definition repository_paths : option (list bytes) :=
  (fun raw => sorted_paths (select (fun item => negb (bool_decide (item = []))) (split_bytes 0 raw))) <$> tr_listed.
Definition head_bytes : bytes := match tr_head with Some (_ :: _ as head) => head | _ => b_ "unborn" end.
Definition repository_checkpoint : checkpoint :=
  if negb tr_resolves then unknown
  else if negb tr_worktree then Checkpoint None 0 0 (Some "not a Git worktree"%string)
  else
    match repository_paths with
    | None => unknown
    | Some paths =>
        if max_files <? Z.of_nat (length paths) then unknown
        else match observe_files paths head_bytes 0 0 with
             | Some (hashed, size, count) => Checkpoint (Some (tr_sha256 hashed)) count size None
             | None => unknown
             end
    end.
End repository.

(** ** A mission that does not get on *)

Definition last_rows {A} (n : nat) (l : list A) : list A := drop (length l - n) l.
Fixpoint run_of {A} (p : A -> bool) (l : list A) : nat := match l with x :: l => if p x then S (run_of p l) else 0 | [] => 0 end.
Definition at_ (key : string) (row : dict) : json := default JNull (dget key row).
Definition same_repository (row : dict) : bool := truthy (at_ "before" row) && json_eqb (at_ "before" row) (at_ "after" row).
Definition nonzero_exit (row : dict) : bool := match at_ "exit_code" row with JNull => false | (JInt _ | JBool _ | JFloat _) as code => truthy code | _ => true end.
Definition same_failure (output : json) (row : dict) : bool := truthy output && nonzero_exit row && json_eqb (at_ "output_sha256" row) output.
Fixpoint distinct (seen : list json) (l : list json) : nat :=
  match l with [] => 0 | j :: l => if existsb (json_eqb j) seen then distinct seen l else S (distinct (j :: seen) l) end.
Record convergence : Type := Convergence {
  unchanged_operations : nat; identical_failures : nat; provider_cycles_without_change : bool; repeated_reversal : bool; warnings : list string;
}.
Definition reverses (fingerprints : list json) : bool :=
  match fingerprints with
  | [a; b; c; d] => forallb truthy [a; b; c; d] && json_eqb a c && json_eqb b d && negb (json_eqb a b)
  | _ => false
  end.
Definition when_ (b : bool) (s : string) : list string := if b then [s] else [].
Definition convergence_signals (observations : list dict) : convergence :=
  let rows := last_rows 32 observations in
  let unchanged := run_of same_repository (rev rows) in
  let last_failure := match last rows with Some row => at_ "output_sha256" row | None => JNull end in
  let failures := run_of (same_failure last_failure) (rev rows) in
  let stations := select truthy (at_ "station" <$> last_rows unchanged rows) in
  let cycle := (3 <=? unchanged)%nat && (2 <=? distinct [] stations)%nat in
  let reversal := reverses (at_ "after" <$> last_rows 4 rows) in
  Convergence unchanged failures cycle reversal
    (when_ (3 <=? unchanged)%nat (show_Z (Z.of_nat unchanged) +:+ " operations without observed repository change")%string ++
     when_ (3 <=? failures)%nat (show_Z (Z.of_nat failures) +:+ " identical provider failures")%string ++
     when_ cycle "providers cycled without observed repository change" ++ when_ reversal "repeated repository fingerprint reversal").
