(* ===== verification/ProgressLaws.v ===== *)
(** * Laws of the evidence of activity *)

From Stdlib Require Import Ascii.
From S2P Require Import Prelude Py Bytes StoreData Progress.
From stdpp Require Import options.
Local Open Scope Z_scope.

(** ** The repository *)

Section repository.
Context `{TreeEnv} (max_files max_bytes : Z).

Lemma observe_file_bounds path size data size' one :
  observe_file max_bytes path size = Some (data, size', one) -> size <= size' /\ (size <= max_bytes -> size' <= max_bytes) /\ 0 <= one <= 1.
Proof.
  unfold observe_file. destruct (leaves_root path); [done|]. destruct (tr_parent_inside path) as [[]|]; try done.
  destruct (tr_before path) as [before| |]; try done; [|intros [= _ <- <-]; lia].
  destruct (f_kind before).
  - destruct (tr_link path) as [link|]; [|done]. cbn [mbind option_bind]. destruct (tr_after path); try done.
    destruct (Z.ltb_spec max_bytes (size + Z.of_nat (length link))); [done|]. case_bool_decide; [|done]. intros [= _ <- <-]. lia.
  - destruct (tr_content path) as [content|]; [|done]. cbn [mbind option_bind]. destruct (tr_after path); try done.
    destruct (Z.ltb_spec max_bytes (size + Z.of_nat (length content))); [done|]. case_bool_decide; [|done]. intros [= _ <- <-]. lia.
  - done.
Qed.
Lemma observe_files_bounds paths hashed size count hashed' size' count' :
  observe_files max_bytes paths hashed size count = Some (hashed', size', count') ->
  size <= size' /\ (size <= max_bytes -> size' <= max_bytes) /\ count <= count' <= count + Z.of_nat (length paths).
Proof.
  revert hashed size count. induction paths as [|path paths IH]; intros hashed size count; cbn [observe_files].
  - intros [= _ <- <-]. cbn [length]. lia.
  - destruct (observe_file max_bytes path size) as [[[data mid] one]|] eqn:E; [|done]. apply observe_file_bounds in E. intros Hr%IH. cbn [length]. lia.
Qed.
(** A fingerprint is of a worktree that was seen whole and within its bounds. *)
Theorem checkpoint_is_bounded fingerprint :
  0 <= max_bytes -> cp_fingerprint (repository_checkpoint max_files max_bytes) = Some fingerprint ->
  let c := repository_checkpoint max_files max_bytes in
  tr_worktree = true /\ cp_reason c = None /\ 0 <= cp_files c <= max_files /\ 0 <= cp_bytes c <= max_bytes.
Proof.
  intros Hb. unfold repository_checkpoint. destruct (negb tr_resolves); [done|]. destruct tr_worktree; [|done]. cbn [negb].
  destruct repository_paths as [paths|]; [|done]. destruct (Z.ltb_spec max_files (Z.of_nat (length paths))); [done|].
  destruct (observe_files max_bytes paths head_bytes 0 0) as [[[hashed size] count]|] eqn:E; [|done]. apply observe_files_bounds in E.
  intros _. cbn. repeat split; lia.
Qed.
End repository.

(** ** A mission that does not get on *)

Lemma run_of_all {A} (p : A -> bool) l x : x ∈ take (run_of p l) l -> p x = true.
Proof.
  induction l as [|y l IH]; cbn [run_of]; [cbn; set_solver|]. destruct (p y) eqn:Ey; cbn [take]; [|set_solver].
  intros [->|Hx]%elem_of_cons; [done|by apply IH].
Qed.
Lemma run_of_length {A} (p : A -> bool) l : (run_of p l <= length l)%nat.
Proof. induction l as [|y l IH]; cbn; [done|]. destruct (p y); lia. Qed.
Lemma last_rows_of_run {A} (p : A -> bool) n (l : list A) x :
  (n <= run_of p (rev l))%nat -> x ∈ last_rows n l -> p x = true.
Proof.
  intros Hn Hx. apply (run_of_all p (rev l)). unfold last_rows in Hx.
  assert (Hr : x ∈ take n (rev l)) by (rewrite firstn_rev; by apply list_elem_of_In, in_rev; rewrite rev_involutive; apply list_elem_of_In).
  apply elem_of_take in Hr as (i & Hi & Hlt). apply elem_of_take. exists i. split; [done|lia].
Qed.
Lemma last_rows_short {A} (m n : nat) (l : list A) : (n <= m)%nat -> last_rows n (last_rows m l) = last_rows n l.
Proof. intros Hm. unfold last_rows. rewrite drop_drop, length_drop. f_equal. lia. Qed.
(** A mission is said not to get on only for what its last rows show, never for
    the time that has passed: at least three operations in a row without a
    change of the repository, as many failures with one output, or a repository
    that goes back and forth between two states. *)
Theorem warnings_rest_on_evidence observations :
  let c := convergence_signals observations in
  warnings c <> [] ->
  (exists n, (3 <= n <= length observations)%nat /\ forall row, row ∈ last_rows n observations -> same_repository row = true) \/
  (exists n output, (3 <= n <= length observations)%nat /\ truthy output = true /\
     forall row, row ∈ last_rows n observations -> nonzero_exit row = true /\ at_ "output_sha256" row = output) \/
  reverses (at_ "after" <$> last_rows 4 observations) = true.
Proof.
  cbn zeta. unfold convergence_signals. cbn [warnings]. set (rows := last_rows 32 observations).
  assert (Hrows : (length rows <= length observations)%nat /\ (length rows <= 32)%nat) by (unfold rows, last_rows; rewrite length_drop; lia).
  assert (Hback : forall n, (n <= length rows)%nat -> last_rows n rows = last_rows n observations) by (intros n Hn; apply last_rows_short; lia).
  set (output := match last rows with Some row => _ | None => _ end).
  destruct (3 <=? run_of same_repository (rev rows))%nat eqn:Hu.
  { intros _. left. apply Nat.leb_le in Hu. exists (run_of same_repository (rev rows)). pose proof (run_of_length same_repository (rev rows)) as Hl.
    rewrite length_rev in Hl. split; [lia|]. intros row. rewrite <- Hback by done. by apply last_rows_of_run. }
  destruct (3 <=? run_of (same_failure output) (rev rows))%nat eqn:Hf.
  { intros _. right; left. apply Nat.leb_le in Hf. exists (run_of (same_failure output) (rev rows)), output.
    pose proof (run_of_length (same_failure output) (rev rows)) as Hl. rewrite length_rev in Hl. split; [lia|].
    assert (Hall : forall row, row ∈ last_rows (run_of (same_failure output) (rev rows)) rows -> same_failure output row = true) by (intros row; by apply last_rows_of_run).
    rewrite <- Hback by done. split.
    - destruct (rev rows) as [|row l] eqn:Er; [cbn in Hf; lia|]. cbn [run_of] in Hf. destruct (same_failure output row) eqn:Es; [|lia].
      unfold same_failure in Es. by apply andb_prop in Es as [[? _]%andb_prop _].
    - intros row Hrow%Hall. unfold same_failure in Hrow. apply andb_prop in Hrow as [[_ ?]%andb_prop ?%json_eqb_eq]. done. }
  cbn [andb when_ app]. destruct (reverses (at_ "after" <$> last_rows 4 rows)) eqn:Hr; [|done]. intros _. right; right.
  revert Hr. unfold rows. by rewrite last_rows_short by lia.
Qed.

(** ** What the fingerprint does not see *)

(** A worktree of regular files and their contents, in folders that exist. *)
Definition tree (files : list (bytes * bytes)) (folders : list bytes) (digest : bytes -> string) : TreeEnv := {|
  tr_resolves := true; tr_worktree := true; tr_listed := Some (concat ((fun f => f.1 ++ [0]) <$> files)); tr_head := None;
  tr_parent_inside path := if existsb (fun folder => bool_decide (take (length folder) path = folder)) folders then Some true else None;
  tr_before path := if existsb (fun f => bool_decide (f.1 = path)) files then Found (Stat REGULAR 0 (0, 0, 0)) else Missing;
  tr_after path := Found (Stat REGULAR 0 (0, 0, 0)); tr_link _ := None;
  tr_content path := first (fun f => bool_decide (f.1 = path)) files ≫= fun f => Some f.2;
  tr_sha256 := digest;
|}.
(** Two files and one file whose content spells the other have one fingerprint,
    whatever the digest. *)
Example two_trees_one_fingerprint digest :
  let a := tree [(b_ "a", b_ "x"); (b_ "b", b_ "y")] [[]] digest in
  let b := tree [(b_ "a", b_ "x" ++ [0] ++ b_ "b" ++ [0] ++ b_ "0" ++ [0] ++ b_ "y")] [[]] digest in
  cp_fingerprint (@repository_checkpoint a 512 100) = cp_fingerprint (@repository_checkpoint b 512 100) /\
  is_Some (cp_fingerprint (@repository_checkpoint a 512 100)).
Proof. vm_compute. split; [reflexivity|by eexists]. Qed.
(** A deleted file is part of the observation, one whose folder is deleted too
    makes it incomplete. *)
Example deleted_folder_is_unknown digest :
  let listed := Some (b_ "d/f" ++ [0]) in
  let gone (inside : option bool) : TreeEnv :=
    Build_TreeEnv true true listed None (fun _ => inside) (fun _ => Missing) (fun _ => Missing) (fun _ => None) (fun _ => None) digest in
  is_Some (cp_fingerprint (@repository_checkpoint (gone (Some true)) 512 100)) /\ @repository_checkpoint (gone None) 512 100 = unknown.
Proof. vm_compute. split; [by eexists|reflexivity]. Qed.
